(* ===== verification/_CoqProject ===== *)
-Q . S2P
Prelude.v
GoStd.v
GoSort.v
Errors.v
Crypto.v
FifoSet.v
TxMempool.v
FifoList.v
HotstuffMempool.v
CoreTypes.v
Gov.v
Messages.v
Sql.v
Persistence.v
Ledger.v
ActorStore.v
KvStore.v
Indexer.v
IndexerFacts.v
SqlQueries.v
Trees.v
TreesSpec.v
Keys.v
Keybase.v
KeybaseFacts.v
Ibc.v
IbcFacts.v
UnitOfWork.v
TreesFacts.v
OwnRows.v
UowLedger.v
UowSend.v
UowBlock.v
UowTx.v
UowStake.v
SqlText.v
SqlTextFacts.v
ConsTypes.v
Consensus.v
Fsm.v
Node.v
Genesis.v
TreesChain.v
ConsFrame.v
ConsQuorum.v
ConsView.v
ConsSafety.v
NodeSafety.v
ConsVotes.v
GoFloat.v
Sortition.v
Peers.v
Libp2p.v
Bus.v
ConsStart.v
RuntimeConfig.v
Telemetry.v
Database.v
RainTree.v
RainTreeFacts.v
RainTreeNet.v
P2PToy.v
Background.v
P2P.v
P2PFacts.v
Session.v
SessionFacts.v
Servicer.v
ServicerFacts.v
Utility.v
NodeEvents.v
NodeStart.v
Rpc.v
RpcHandlers.v
RpcFacts.v
Cli.v
CliFacts.v
CliQuery.v
CliDebug.v
