(* ===== verification/Prelude.v ===== *)
(** * Pocket node: a verification of the protocol core

    This library models the Pocket v1 node (the Go code under src/) and proves what makes it
    correct, or shows precisely where it is not.  A transaction is made by the command line
    client, enters a node through the RPC server or the network, waits in a mempool, is reaped
    by the leader of a HotStuff round into a proposal, executed by every replica against the
    versioned SQL state, summarised by the state trees, voted on, committed and indexed.
    Applications ask the session they are in for servicers, which admit and execute their
    relays.  All of these parts are modelled.

    ** The program's parts and where they are modelled

    - Go itself.  [GoStd]: hex, decimal big integers, [big.Float] with its rounding,
      little-endian encoding.  [GoSort]: sorting, binary search, the iteration order of maps.
      [GoFloat]: float64 with the functions of [math] that the code uses, and exactness of
      quotients ([F64Div]).  Base64 is in [GoStd].
    - Shared code.  [Errors]: every error value of src/shared/core/types/error.go and
      src/shared/crypto/error.go.  [CoreTypes]: actors, pools, amounts (src/shared/core/types,
      src/shared/utils).  [Gov]: the tables of governance parameters (src/utility/types/gov.go,
      src/shared/utils/gov_utils.go).  [Bus]: the module registry and the event channel
      (src/runtime/bus.go, modules_registry.go).  [RuntimeConfig]: the configuration, its
      defaults and options, and how it is read (src/runtime/configs, defaults, manager.go).
      [Telemetry]: the Prometheus and the no-op module, and the levels of the logger.
    - Keys.  [Crypto]: keys, addresses, hashes (src/shared/crypto); [Keys]:
      armoured keys, key pairs and SLIP-0010 derivation; [Keybase], [KeybaseFacts]: the badger
      and the Vault keybase (src/app/client/keybase).
    - Mempools.  [FifoSet] and [FifoList] are the generic containers of src/shared/mempool;
      [TxMempool] (src/utility/types/tx_fifo_mempool.go) and [HotstuffMempool]
      (src/consensus/hotstuff_mempool.go) are their two users, with the machine-width
      counters the hooks maintain.
    - Transactions.  [Messages]: the six message types, their stateless validation, signing
      and encoding of transactions (src/utility/types/message*.go,
      src/shared/core/types/transaction.go).
    - Persistence (src/persistence).  [Sql] is what the generated statements do to the tables,
      which keep one row per key and height; [Persistence] is the context that the other
      modules call.  [Ledger] and [ActorStore] are the abstract specifications: integer
      balances of accounts and pools, and maps from address to actor.  [KvStore]: key-value
      store and block store; [Indexer], [IndexerFacts]: the transaction index; [SqlQueries],
      [Trees], [TreesSpec], [TreesFacts], [OwnRows], [TreesChain]: the state trees and the
      state hash, for one block and for a chain of them; [Genesis]: genesis, clearing and the
      debug messages.  [SqlText], [SqlTextFacts]: the text of the statements
      (src/persistence/types) and how a server's lexer reads it.  [Database]: the connection
      pool and the creation of the tables (src/persistence/db.go).
    - State transition.  [UnitOfWork] is all of src/utility/unit_of_work: message handlers,
      transaction validation and fees, begin and end of a block, the leader's reaping loop.
      [UowLedger], [UowSend], [UowBlock], [UowTx] and [UowStake] hold its theorems.
    - Utility (src/utility).  [Session], [SessionFacts]: which actors serve an application;
      [Servicer], [ServicerFacts]: admission, budget and execution of relays; [Utility]: the
      module and how transactions enter the mempool.
    - Consensus.  [ConsTypes] is the vocabulary (messages, certificates, threshold, numbering
      of validators, leader election); [Consensus] is the module of one node: pacemaker, the
      ten HotStuff handlers, block handling, debug and state-sync handlers (src/consensus).
      It is written against two interfaces, [Consensus.PersistenceUtilityModules] and
      [Consensus.UtilityUnitOfWork].  [Fsm] is the node's state machine (src/state_machine).
      [Node] implements the two interfaces with the units of work, contexts, mempool and
      state machine of the files above; its [NodeToy] is a concrete four-validator node.
      [ConsFrame], [ConsQuorum], [ConsView], [ConsSafety], [NodeSafety] and [ConsVotes] hold the theorems;
      [ConsVotes] is about executions of several nodes.  [ConsStart] is the creation and start
      of the module with its sub-modules.
      [Sortition] is the VRF and sortition that leader election is meant to use.
    - Network (src/p2p).  [Peers]: peer stores and the sorted view; [Libp2p]: the host and its
      conversions; [RainTree], [RainTreeFacts], [RainTreeNet]: the staked router and how its
      messages spread; [Background]: unicast and gossip routers; [P2P], [P2PFacts]: the module;
      [P2PToy]: a concrete codec and host.  [NodeEvents]: envelopes and the dispatch of events
      to the modules (src/shared/node.go, src/shared/messaging).
    - [NodeStart]: the creation of the nine modules of a node, in order and on one bus, and
      their start (src/shared/node.go and the module.go of each module).
    - IBC.  [Ibc], [IbcFacts]: identifiers, store keys, proofs (src/ibc).
    - Access.  [Rpc], [RpcHandlers], [RpcFacts]: conversions, pagination and every handler of
      the RPC server (src/rpc); [Cli], [CliFacts]: transactions, keys and relays of the command
      line client (src/app/client/cli); [CliQuery]: its queries, health and consensus state;
      [CliDebug]: its debug menu, with the providers of peers and of the height (src/p2p/providers).

    ** How state, errors and effects are represented

    Stateful code is a program of the monad [M S E A] below: it maps a state to a result and
    a state, and a result is a value, an error value or [Panic], which stands for everything
    that ends the process (nil dereference, slice out of range, division by zero,
    [log.Fatal]).  The state survives an error, as in Go: nothing is rolled back.  Fixed-width
    integers are [Z] with the wrap-around written out ([u8], [u32], [u64], [i32], [i64]);
    protobuf enums are open and are integers.  A [[]byte] that may be nil is an [option].
    Where two pointers to one block matter (the leader's certificates share [m.block]) the
    sharing is part of the state; so is the node store that a tree and its successor share.
    A handler holds the module's lock and is one transition of its node; the expiry of the
    pacemaker's timer is the transition [Consensus.InterruptRound].  The goroutine of the timer
    does not take that lock in the code.  The model takes timeouts only between handlers, so
    the theorems on votes say nothing about a timer that expires inside a handler.

    Code that is not in the repository is a parameter, a class of operations, with its
    documented behaviour as a class of laws: [CryptoPrims]/[CryptoLaws] (SHA-2, SHA-3,
    Ed25519), [KeyPrims]/[KeyLaws] and [Entropy]/[EntropyLaws] (scrypt, secretbox, HMAC,
    random bytes), [Ecvrf]/[EcvrfLaws], [CryptoRandInt], [BinomialDist] (VRF, gonum);
    [Codec]/[CodecLaws], [HotstuffCodec], [P2PCodec], [BlockCodec], [IdxTxCodec], [TreeCodec],
    [CliCodec] with their laws (protobuf and JSON); [Badger]/[BadgerLaws], [Lexnum]/[LexnumLaws],
    [SmtLib]/[SmtLaws]/[SmtBinding], [VaultClient]/[VaultLaws] (stores); [FsmLib]/[FsmLaws]
    (looplab/fsm); [RandSource]/[RandLaws] and [RandIntn] (math/rand); [Libp2pPrims],
    [NetPrims]/[NetLaws], [PubSubPrims], [HttpLib], [RpcClient], [QueryClient], [PeerClient],
    [ReplyEncoder] (network); [ViperLib], [Prometheus], [Pgx] (configuration, metrics, the
    database server).  The iteration order
    of Go maps and the clock are parameters too.  The laws a theorem assumes are satisfied by a
    concrete instance in its witness, on which the definitions are evaluated.

    ** What the theorems show

    - Consensus safety: the height of a node only grows by one and only with a certificate or
      votes of more than two thirds of the validators; neither messages nor timeouts lower
      (height, round); two valid certificates without repeated signers intersect in more than
      a third of the validators (the floating-point threshold is exactly two thirds below
      2^50 validators); votes assembled by a leader are accepted by every node; a replica
      takes up only blocks whose transactions it has validated and executed to the same state
      hash.  A node that neither restarts nor wraps its round, and whose timer expires between
      handlers only, votes at most once in a view, and if at most a third of the validators is
      faulty the certificates of one view are for one block.  Against this stand the theorems
      on what is *not* guaranteed: a certificate may repeat one signer, a DECIDE commits the
      replica's own block for any valid certificate, with which any two nodes that wait for a
      DECIDE with different blocks commit both (one faulty leader brings them there), a
      locked replica is never unlocked, a node that restarts votes again, a node that catches
      up elects another leader, and two messages end the process.
    - Views: the pacemaker is monotone, leaders rotate through all validators, all nodes
      number the validators alike.
    - Ledger: persistence refines an abstract ledger and an abstract actor map at every
      height; transfers, rewards, stakes, unbonding and burning are characterised as updates
      of it, with the supply as the conserved quantity.  Because reads go to the state before
      the block, transfers conserve the supply only when the sender was not touched before in
      the block; the double spend, the uncharged fee, the burnt self transfer and the lost
      block fees are proved as they happen.
    - Stores: the index refines a map of transactions with its four queries; the keybase
      refines a map of keys under passphrases; resetting to genesis gives exactly the state of
      the file, table by table.
    - State hash: along a chain of blocks the trees hold the snapshots of the tables and the
      hash is a function of the state, in whatever order maps and rows are visited.  But the trees are
      neither rolled back with a discarded block nor reloaded at a restart, and both make
      nodes disagree.
    - Transactions: only authorised signers are executed, signing produces what validation
      accepts, reaping respects the size limit and terminates, gossip keeps the mempool valid,
      and what the client posts for a transfer is decoded and accepted by the stateless checks.
    - Mempools: both behave as the queues they are meant to be, with exact counters, until an
      eviction, whose miscount is characterised.
    - Network: the RainTree targets are hops on a ring; which networks of at most 27 nodes are
      covered by a broadcast, run with the handlers of all nodes in any order of delivery; the incremental peer view is the rebuilt one; an envelope is published
      once per nonce; the staked router follows the staked peers.
    - Sessions and relays: a session is the same at all its heights up to the sequence of its
      actors, which depends on the order of a map in each call; selection ends and picks distinct
      actors; a relay is admitted exactly when chain, height, servicer and tokens used allow it,
      the height from the start of the session up to twice that; the budget is the exact share.
    - Statements: the text that stores an actor is read back by the server as the values it was
      made from, provided that none of them has a quote; a service URL with a quote, which the
      checks of a stake message accept, adds statements of its own.  The theorems on the ledger
      are about statements that are read as meant.
    - Access: pages partition a list, IBC store keys are injective, signed files verify, a
      balance query prints the balance of the ledger, the peers that a client sees are those
      of the node's ledger.  The VRF keys of a block are public, sortition is the least quantile.
    - Start: the modules that a node looks up by name are on the bus once it is created, except
      the RPC module when it is disabled, and then the node does not start; the default
      configuration cannot be used for the connection pool.
    - State machine and bus: the published events are a path of declared transitions; events
      are delivered in order and a full bus blocks.

    ** Bounds

    [UnitOfWork.reapLoop] runs on fuel, the number of queued transactions: each iteration
    that continues takes one out, and any larger bound gives the same outcome
    ([UowTx.reap_mempool_terminates]).  [Consensus.collectPartialSignatures] runs on the
    length of the mempool it empties, and the certificate theorem shows that it collects all
    votes.  The selection of the actors of a session runs on fuel, and
    [SessionFacts.selection_terminates] shows that some fuel is enough, and more of it changes
    nothing, for a random source in which every residue comes up.  All other recursion is
    structural or on the length of the data of a loop.  Floating-point theorems hold where the
    arithmetic is exact: thresholds below 2^50 validators, targets below 2^51 peers, budgets
    below 2^53 tokens, pages of fewer than 2^52 items; heights are below 2^63.  Coverage of
    broadcasts is decided by evaluation for networks of at most 27 nodes.

    ** Not modelled

    What the SQL server does with a statement is modelled for the statements the code makes
    ([Sql]), not derived from their text: [SqlTextFacts] splits a text into statements and
    literals and goes no further.  The HTTP server and its middleware (src/rpc/server.go,
    pprof.go), the registration of commands and flags with cobra and viper, the terminal
    prompts, log messages and the metrics endpoint are input and output around the core, and so
    are the binaries (src/app/app.go, main.go) and the tools for local networks (src/build).
    Resource scopes of libp2p streams are left out.  src/utility/servicer/relay.go is a
    placeholder that is not used, and src/persistence/local is a stub.  The interfaces of
    src/shared/modules have no code; the classes above state what the modules promise one
    another. *)

(** ** Prelude: integers, results, the program monad, shared lemmas *)

From stdpp Require Export gmap strings list fin_maps.
From Stdlib Require Export ZArith Lia.

#[global] Open Scope Z_scope.

(** ** Machine integers

    Go's fixed-width integers are kept as [Z] with the wrap-around of the
    language written out at every place where the source does arithmetic on
    them. *)

Definition u8 (z : Z) : Z := z mod 2 ^ 8.
Definition u32 (z : Z) : Z := z mod 2 ^ 32.
Definition u64 (z : Z) : Z := z mod 2 ^ 64.
Definition i32 (z : Z) : Z := (z + 2 ^ 31) mod 2 ^ 32 - 2 ^ 31.
Definition i64 (z : Z) : Z := (z + 2 ^ 63) mod 2 ^ 64 - 2 ^ 63.

Definition in_u32 (z : Z) : Prop := 0 <= z < 2 ^ 32.
Definition in_u64 (z : Z) : Prop := 0 <= z < 2 ^ 64.
Definition in_i64 (z : Z) : Prop := - 2 ^ 63 <= z < 2 ^ 63.

(** ** Outcomes and the state/error monad

    A Go call either returns a value, returns an error, or ends the process
    (a run-time panic such as a nil dereference, or [log.Fatal]).  Effects made
    before an error is returned are *not* undone, so the state is threaded
    through all three outcomes. *)

Inductive res (E A : Type) : Type :=
| Ok (a : A)
| Err (e : E)
| Panic.
Arguments Ok {E A} a.
Arguments Err {E A} e.
Arguments Panic {E A}.

#[global] Instance res_eq_dec {E A} `{EqDecision E, EqDecision A} : EqDecision (res E A).
Proof. solve_decision. Defined.

Definition is_ok {E A} (r : res E A) : bool :=
  match r with Ok _ => true | _ => false end.

Definition M (St E A : Type) : Type := St -> res E A * St.

#[global] Instance M_ret {St E} : MRet (M St E) := fun A a s => (Ok a, s).

#[global] Instance M_bind {St E} : MBind (M St E) := fun A B k m s =>
  match m s with
  | (Ok a, s') => k a s'
  | (Err e, s') => (Err e, s')
  | (Panic, s') => (Panic, s')
  end.

Definition fail {St E A} (e : E) : M St E A := fun s => (Err e, s).
Definition panic {St E A} : M St E A := fun s => (Panic, s).
Definition get {St E} : M St E St := fun s => (Ok s, s).
Definition put {St E} (s' : St) : M St E unit := fun _ => (Ok tt, s').
Definition gets {St E A} (f : St -> A) : M St E A := fun s => (Ok (f s), s).
Definition modify {St E} (f : St -> St) : M St E unit := fun s => (Ok tt, f s).

(** [wrap_err f m] is the idiom [if err != nil { return ErrX(err) }]. *)
Definition wrap_err {St E E' A} (f : E -> E') (m : M St E A) : M St E' A := fun s =>
  match m s with
  | (Ok a, s') => (Ok a, s')
  | (Err e, s') => (Err (f e), s')
  | (Panic, s') => (Panic, s')
  end.

(** A result already computed, injected in the monad. *)
Definition of_res {St E A} (r : res E A) : M St E A := fun s => (r, s).

Definition of_option {St E A} (e : E) (o : option A) : M St E A :=
  match o with Some a => mret a | None => fail e end.

Definition when {St E} (b : bool) (m : M St E unit) : M St E unit :=
  if b then m else mret tt.

(** [for _, x := range l { body }] with early exit on error. *)
Fixpoint forM {St E A} (l : list A) (body : A -> M St E unit) : M St E unit :=
  match l with
  | [] => mret tt
  | x :: l' => body x ;; forM l' body
  end.

(** ** Inverting runs of monadic code *)

Section monad_lemmas.
Context {St E : Type}.

Lemma bind_ok {A B} (m : M St E A) (k : A -> M St E B) s b s' :
  (m ≫= k) s = (Ok b, s') <->
  exists a s1, m s = (Ok a, s1) /\ k a s1 = (Ok b, s').
Proof.
  unfold mbind, M_bind. destruct (m s) as [[a|e|] s1]; split.
  - intros ?. by exists a, s1.
  - by intros (? & ? & [= <- <-] & ?).
  - done.
  - by intros (? & ? & ? & ?).
  - done.
  - by intros (? & ? & ? & ?).
Qed.

Lemma bind_run {A B} (m : M St E A) (k : A -> M St E B) s a s1 :
  m s = (Ok a, s1) -> (m ≫= k) s = k a s1.
Proof. intros H. unfold mbind, M_bind. by rewrite H. Qed.

Lemma bind_eq {A B} (m : M St E A) (k : A -> M St E B) s :
  (m ≫= k) s = match m s with (Ok a, s') => k a s' | (Err e, s') => (Err e, s') | (Panic, s') => (Panic, s') end.
Proof. done. Qed.

Lemma bind_get {B} (k : St -> M St E B) s : (get ≫= k) s = k s s.
Proof. done. Qed.

Lemma bind_modify {B} (g : St -> St) (k : unit -> M St E B) s : (modify g ≫= k) s = k tt (g s).
Proof. done. Qed.

Lemma bind_run_err {A B} (m : M St E A) (k : A -> M St E B) s e s1 :
  m s = (Err e, s1) -> (m ≫= k) s = (Err e, s1).
Proof. intros H. unfold mbind, M_bind. by rewrite H. Qed.

Lemma mret_ok {A} (a b : A) (s s' : St) :
  (mret a : M St E A) s = (Ok b, s') <-> a = b /\ s = s'.
Proof. unfold mret, M_ret. naive_solver. Qed.

Lemma fail_ok {A} (e : E) (b : A) (s s' : St) :
  (fail e : M St E A) s = (Ok b, s') <-> False.
Proof. unfold fail. naive_solver. Qed.

Lemma wrap_err_ok {E' A} (f : E' -> E) (m : M St E' A) s a s' :
  wrap_err f m s = (Ok a, s') <-> m s = (Ok a, s').
Proof. unfold wrap_err. destruct (m s) as [[?|?|] ?]; naive_solver. Qed.

Lemma of_option_ok {A} (e : E) (o : option A) a (s s' : St) :
  of_option e o s = (Ok a, s') <-> o = Some a /\ s = s'.
Proof. destruct o; cbn; unfold mret, M_ret, fail; naive_solver. Qed.

Lemma of_res_ok {A} (r : res E A) a (s s' : St) : of_res r s = (Ok a, s') <-> r = Ok a /\ s = s'.
Proof. unfold of_res. naive_solver. Qed.

Lemma gets_ok {A} (f : St -> A) a (s s' : St) :
  (gets f : M St E A) s = (Ok a, s') <-> a = f s /\ s = s'.
Proof. unfold gets. naive_solver. Qed.

(** An invariant that every iteration keeps is kept by the loop, whatever its outcome. *)
Lemma forM_invariant {A} (I : St -> Prop) (l : list A) (body : A -> M St E unit) :
  (forall x s, x ∈ l -> I s -> I (snd (body x s))) ->
  forall s, I s -> I (snd (forM l body s)).
Proof.
  induction l as [|x l IH]; intros Hb s Hs; [done|].
  cbn [forM]. unfold mbind, M_bind.
  pose proof (Hb x s (list_elem_of_here _ _) Hs) as H1.
  destruct (body x s) as [[[]|e|] s1]; cbn in *; [|done|done].
  apply IH; [|done]. intros y s2 Hy. apply Hb. by apply list_elem_of_further.
Qed.

Lemma forM_run {A} (l : list A) (body : A -> M St E unit) (step : A -> St -> St) s :
  (forall x s, x ∈ l -> body x s = (Ok tt, step x s)) ->
  forM l body s = (Ok tt, foldl (fun s x => step x s) s l).
Proof.
  revert s. induction l as [|x l IH]; intros s Hb; [done|].
  cbn [forM foldl]. erewrite bind_run by (apply Hb; set_solver).
  apply IH. intros y s1 Hy. apply Hb. set_solver.
Qed.
End monad_lemmas.

(** ** Programs that keep a part of the state *)

(** [keeps f p]: whatever its outcome, [p] leaves the part [f] of the state as it was. *)
Definition keeps {St E X A} (f : St -> X) (p : M St E A) : Prop := forall s, f (p s).2 = f s.

Section keeps_lemmas.
Context {St E X : Type} (f : St -> X).

Lemma keeps_ret {A} (a : A) : keeps f (mret a : M St E A).
Proof. by intros s. Qed.
Lemma keeps_fail {A} (e : E) : keeps f (fail e : M St E A).
Proof. by intros s. Qed.
Lemma keeps_panic {A} : keeps f (panic : M St E A).
Proof. by intros s. Qed.
Lemma keeps_get : keeps f (get : M St E St).
Proof. by intros s. Qed.
Lemma keeps_gets {A} (g : St -> A) : keeps f (gets g : M St E A).
Proof. by intros s. Qed.
Lemma keeps_of_res {A} (r : res E A) : keeps f (of_res r : M St E A).
Proof. by intros s. Qed.
Lemma keeps_of_option {A} (e : E) (o : option A) : keeps f (of_option e o : M St E A).
Proof. destruct o; by intros s. Qed.
Lemma keeps_modify (g : St -> St) : (forall s, f (g s) = f s) -> keeps f (modify g : M St E unit).
Proof. intros Hg s. apply Hg. Qed.
Lemma keeps_bind {A B} (p : M St E A) (k : A -> M St E B) :
  keeps f p -> (forall a, keeps f (k a)) -> keeps f (p ≫= k).
Proof.
  intros Hp Hk s. unfold mbind, M_bind. specialize (Hp s). destruct (p s) as [[a|e|] s']; cbn in *; [|done|done].
  rewrite <- Hp. apply Hk.
Qed.
Lemma keeps_forM {A} (l : list A) (body : A -> M St E unit) : (forall a, keeps f (body a)) -> keeps f (forM l body).
Proof.
  intros Hb. induction l as [|a l IH]; cbn [forM]; [apply keeps_ret|]. apply keeps_bind; [apply Hb|]. by intros [].
Qed.
End keeps_lemmas.

Create HintDb keeps discriminated.
#[export] Hint Resolve keeps_ret keeps_fail keeps_panic keeps_get keeps_gets keeps_of_res keeps_of_option : keeps.

(** Decompose a program along its binds and branches; what is left are its calls. *)
Ltac keeps_step :=
  match goal with
  | |- keeps _ (_ ≫= _) => apply keeps_bind; [|intros ?]
  | |- keeps _ (modify _) => apply keeps_modify; by intros ?
  | |- keeps _ (forM _ _) => apply keeps_forM; intros ?
  | |- keeps _ (match ?x with _ => _ end) => destruct x
  | |- keeps _ _ => by auto with keeps
  end.
Ltac solve_keeps := repeat keeps_step.

(** ** Programs that keep an invariant *)

(** [maintains I Q p]: from a state in [I], [p] ends in a state in [I] whatever its outcome, and a
    value it returns satisfies [Q]. *)
Definition maintains {St E A} (I : St -> Prop) (Q : A -> Prop) (p : M St E A) : Prop :=
  forall s, I s -> I (p s).2 /\ match (p s).1 with Ok a => Q a | _ => True end.
Definition anything {A} : A -> Prop := fun _ => True.

Section maintains_lemmas.
Context {St E : Type} (I : St -> Prop).

Lemma maintains_weaken {A} (Q Q' : A -> Prop) (p : M St E A) : (forall a, Q a -> Q' a) -> maintains I Q p -> maintains I Q' p.
Proof. intros HQ Hp s Hs. destruct (Hp s Hs) as [H1 H2]. split; [done|]. destruct (p s).1; auto. Qed.
Lemma maintains_any {A} (Q : A -> Prop) (p : M St E A) : maintains I Q p -> maintains I anything p.
Proof. by apply maintains_weaken. Qed.
Lemma maintains_ret {A} (Q : A -> Prop) a : Q a -> maintains I Q (mret a : M St E A).
Proof. by intros Ha s Hs. Qed.
Lemma maintains_fail {A} (Q : A -> Prop) (e : E) : maintains I Q (fail e : M St E A).
Proof. by intros s Hs. Qed.
Lemma maintains_panic {A} (Q : A -> Prop) : maintains I Q (panic : M St E A).
Proof. by intros s Hs. Qed.
Lemma maintains_get : maintains I I (get : M St E St).
Proof. by intros s Hs. Qed.
Lemma maintains_gets {A} (Q : A -> Prop) (g : St -> A) : (forall s, I s -> Q (g s)) -> maintains I Q (gets g : M St E A).
Proof. intros Hg s Hs. by split; [|apply Hg]. Qed.
Lemma maintains_of_res {A} (r : res E A) : maintains I (fun a => r = Ok a) (of_res r : M St E A).
Proof. intros s Hs. split; [done|]. cbn. by destruct r. Qed.
Lemma maintains_of_option {A} (e : E) (o : option A) : maintains I (fun a => o = Some a) (of_option e o : M St E A).
Proof. by destruct o; intros s Hs. Qed.
Lemma maintains_modify (g : St -> St) : (forall s, I s -> I (g s)) -> maintains I anything (modify g : M St E unit).
Proof. intros Hg s Hs. by split; [apply Hg|]. Qed.
Lemma maintains_bind {A B} (Q : A -> Prop) (R : B -> Prop) (p : M St E A) (k : A -> M St E B) :
  maintains I Q p -> (forall a, Q a -> maintains I R (k a)) -> maintains I R (p ≫= k).
Proof.
  intros Hp Hk s Hs. unfold mbind, M_bind. destruct (Hp s Hs) as [H1 H2]. destruct (p s) as [[a|e|] s']; cbn in *; [|done|done].
  by apply Hk.
Qed.
Lemma maintains_forM {A} (l : list A) (body : A -> M St E unit) :
  (forall a, a ∈ l -> maintains I anything (body a)) -> maintains I anything (forM l body).
Proof.
  induction l as [|a l IH]; intros Hb; cbn [forM]; [by apply maintains_ret|].
  apply (maintains_bind anything); [apply Hb; set_solver|]. intros _ _. apply IH. intros; apply Hb; set_solver.
Qed.
Lemma maintains_run {A} (Q : A -> Prop) (p : M St E A) s a s' : maintains I Q p -> I s -> p s = (Ok a, s') -> I s' /\ Q a.
Proof. intros Hp Hs Hr. specialize (Hp s Hs). by rewrite Hr in Hp. Qed.
End maintains_lemmas.

Lemma maintains_wrap {St E E' A} (I : St -> Prop) (Q : A -> Prop) (f : E -> E') (p : M St E A) :
  maintains I Q p -> maintains I Q (wrap_err f p).
Proof. intros Hp s Hs. unfold wrap_err. specialize (Hp s Hs). by destruct (p s) as [[a|e|] s']. Qed.

Create HintDb maintains discriminated.
#[export] Hint Constants Opaque : maintains.
#[export] Hint Resolve maintains_fail maintains_panic : maintains.

(** Decompose a program whose returned values do not matter; what is left are its calls. *)
Ltac maintains_step :=
  match goal with
  | |- maintains _ _ (_ ≫= _) => apply (maintains_bind _ anything); [|intros ? _]
  | |- maintains _ _ (mret _) => by apply maintains_ret
  | |- maintains _ _ (gets _) => by apply maintains_gets
  | |- maintains _ _ (of_res _) => eapply maintains_any, maintains_of_res
  | |- maintains _ _ (of_option _ _) => eapply maintains_any, maintains_of_option
  | |- maintains _ _ (wrap_err _ _) => apply maintains_wrap
  | |- maintains _ _ (forM _ _) => apply maintains_forM; intros ? _
  | |- maintains _ _ (match ?x with _ => _ end) => destruct x
  | |- maintains _ _ _ => by auto with maintains
  end.
Ltac solve_maintains := repeat maintains_step.

(** ** Sums over finite maps *)

Definition msum {K} `{Countable K} (m : gmap K Z) : Z := map_fold (fun _ v acc => v + acc) 0 m.

Section msum_lemmas.
Context {K : Type} `{Countable K}.
Implicit Types (m : gmap K Z) (k : K) (v : Z).

Lemma msum_empty : msum (∅ : gmap K Z) = 0.
Proof. apply map_fold_empty. Qed.

Lemma msum_insert_None m k v : m !! k = None -> msum (<[k := v]> m) = v + msum m.
Proof. intros Hk. unfold msum. rewrite map_fold_insert_L; [done| |done]. intros; lia. Qed.

Lemma msum_delete m k v : m !! k = Some v -> msum m = v + msum (delete k m).
Proof. intros Hk. unfold msum. rewrite (map_fold_delete_L _ _ k v m); [done| |done]. intros; lia. Qed.

(** Overwriting one key shifts the sum by the difference. *)
Lemma msum_insert m k v :
  msum (<[k := v]> m) = msum m - default 0 (m !! k) + v.
Proof.
  destruct (m !! k) as [w|] eqn:Hk; cbn.
  - rewrite <- insert_delete_eq, msum_insert_None by apply lookup_delete_eq.
    rewrite (msum_delete m k w Hk). lia.
  - rewrite msum_insert_None by done. lia.
Qed.

Lemma msum_nonneg m : map_Forall (fun _ v => 0 <= v) m -> 0 <= msum m.
Proof.
  induction m as [|k v m Hk IH] using map_ind; intros Hm.
  - by rewrite msum_empty.
  - rewrite msum_insert_None by done.
    apply map_Forall_insert in Hm as [Hv Hm]; [|done]. specialize (IH Hm). lia.
Qed.
End msum_lemmas.

(** Sum of a list of integers. *)
Definition lsum (l : list Z) : Z := foldr Z.add 0 l.

Lemma lsum_app l1 l2 : lsum (l1 ++ l2) = lsum l1 + lsum l2.
Proof. unfold lsum. induction l1 as [|x l1 IH]; [done|]. simpl. rewrite IH. lia. Qed.

Lemma lsum_nonneg l : Forall (fun z => 0 <= z) l -> 0 <= lsum l.
Proof. unfold lsum. induction 1; simpl; lia. Qed.

Lemma filter_all {A} (P : A -> Prop) `{forall x, Decision (P x)} (l : list A) :
  Forall P l -> filter P l = l.
Proof. induction 1 as [|x l Hx Hl IH]; [done|]. by rewrite filter_cons_True, IH. Qed.

(** ** Modular arithmetic *)

Lemma u32_range z : in_u32 (u32 z).
Proof. apply Z.mod_pos_bound. lia. Qed.
Lemma u64_range z : in_u64 (u64 z).
Proof. apply Z.mod_pos_bound. lia. Qed.
Lemma u32_small z : in_u32 z -> u32 z = z.
Proof. apply Z.mod_small. Qed.
Lemma u64_small z : in_u64 z -> u64 z = z.
Proof. apply Z.mod_small. Qed.
Lemma string_nil_r (s : string) : String.append s EmptyString = s.
Proof. induction s as [|c s IH]; [done|]. exact (f_equal (String c) IH). Qed.

Lemma i64_small z : in_i64 z -> i64 z = z.
Proof. unfold in_i64, i64. intros ?. rewrite Z.mod_small; [ring | lia]. Qed.
Lemma i64_range z : in_i64 (i64 z).
Proof.
  unfold in_i64, i64. pose proof (Z.mod_pos_bound (z + 2 ^ 63) (2 ^ 64)). lia.
Qed.
Lemma u32_add_l a b : u32 (u32 a + b) = u32 (a + b).
Proof. unfold u32. by rewrite Zplus_mod_idemp_l. Qed.
Lemma u64_add_l a b : u64 (u64 a + b) = u64 (a + b).
Proof. unfold u64. by rewrite Zplus_mod_idemp_l. Qed.
Lemma u32_sub_l a b : u32 (u32 a - b) = u32 (a - b).
Proof. unfold u32. by rewrite Zminus_mod_idemp_l. Qed.
Lemma u64_sub_l a b : u64 (u64 a - b) = u64 (a - b).
Proof. unfold u64. by rewrite Zminus_mod_idemp_l. Qed.

(** ** Automation *)

Create HintDb golib discriminated.
#[export] Hint Resolve u32_range u64_range i64_range : golib.
#[export] Hint Rewrite @u32_add_l @u64_add_l @u32_sub_l @u64_sub_l : gomod.
#[export] Hint Rewrite @bind_ok @mret_ok @fail_ok @wrap_err_ok @of_option_ok @gets_ok : gorun.

(** [go_inv H] turns [H : program s = (Ok a, s')] into the facts about its calls. *)
Ltac go_inv H :=
  autorewrite with gorun in H;
  repeat match type of H with
  | exists _, _ => let x := fresh "x" in destruct H as [x H]
  end.

(** Case analysis on the first [match] scrutinee of the goal, keeping its equation. *)
Ltac case_goal :=
  match goal with
  | |- context [match ?x with _ => _ end] => destruct x eqn:?
  end.
Ltac case_hyp H :=
  match type of H with
  | context [match ?x with _ => _ end] => destruct x eqn:?
  end.
