(* ===== verification/GoStd.v ===== *)
(** The parts of the Go standard library the modelled code computes with:
    [encoding/hex], decimal conversions of [math/big.Int] and [strconv],
    [math/big.Float] arithmetic, and little-endian [encoding/binary].

    Byte sequences ([[]byte] and [string]) are [string]s whose characters are the
    bytes.  A slice that may be nil is an [option string]. *)

From S2P Require Import Prelude.
From Stdlib Require Import Ascii DecimalString DecimalZ DecimalFacts.

(** ** Byte slices *)

Abbreviation bytes := string.
(** A Go slice of bytes: [None] is the nil slice. *)
Abbreviation slice := (option string).

(** The contents of a slice; nil has none. *)
Definition bz (s : slice) : bytes := default "" s.

Definition blen (s : bytes) : Z := Z.of_nat (String.length s).

(** ** encoding/hex *)

Definition hexDigit (n : nat) : ascii :=
  match String.get n "0123456789abcdef" with Some c => c | None => "0"%char end.

Definition hexValue (c : ascii) : option nat :=
  let n := nat_of_ascii c in
  if bool_decide (48 <= n <= 57)%nat then Some (n - 48)%nat
  else if bool_decide (97 <= n <= 102)%nat then Some (n - 87)%nat
  else if bool_decide (65 <= n <= 70)%nat then Some (n - 55)%nat
  else None.

Fixpoint hexEncode (s : bytes) : string :=
  match s with
  | EmptyString => EmptyString
  | String c s' =>
      let n := nat_of_ascii c in
      String (hexDigit (n / 16)) (String (hexDigit (n mod 16)) (hexEncode s'))
  end.

(** [hex.DecodeString]: both cases accepted, an odd length or a foreign character is an error. *)
Fixpoint hexDecode (s : string) : option bytes :=
  match s with
  | EmptyString => Some EmptyString
  | String a (String b s') =>
      hi ← hexValue a; lo ← hexValue b; rest ← hexDecode s';
      Some (String (ascii_of_nat (16 * hi + lo)) rest)
  | String _ EmptyString => None
  end.

Lemma hex_nibble n : (n < 16)%nat -> hexValue (hexDigit n) = Some n.
Proof. intros Hn. do 16 (destruct n as [|n]; [reflexivity|]). lia. Qed.

Lemma hex_decode_encode s : hexDecode (hexEncode s) = Some s.
Proof.
  induction s as [|c s IH]; [done|]. cbn [hexEncode hexDecode].
  assert (nat_of_ascii c < 256)%nat by apply nat_ascii_bounded.
  rewrite !hex_nibble by (first [apply Nat.mod_upper_bound | apply Nat.Div0.div_lt_upper_bound]; lia).
  rewrite IH. cbn [mbind option_bind]. f_equal. f_equal.
  etransitivity; [|apply (ascii_nat_embedding c)]. f_equal.
  pose proof (Nat.div_mod_eq (nat_of_ascii c) 16). lia.
Qed.

#[global] Instance hexEncode_inj : Inj (=) (=) hexEncode.
Proof. intros x y Hxy. apply (f_equal hexDecode) in Hxy. rewrite !hex_decode_encode in Hxy. congruence. Qed.

Lemma hexEncode_length s : String.length (hexEncode s) = (2 * String.length s)%nat.
Proof. induction s as [|c s IH]; [done|]. cbn [hexEncode String.length]. rewrite IH. lia. Qed.

(** ** Decimal integers *)

(** [big.Int.SetString(s, 10)]: an optional sign followed by at least one digit. *)
Definition bigIntSetString (s : string) : option Z :=
  match s with
  | String "+"%char s' => Z.of_uint <$> NilZero.uint_of_string s'
  | _ => Z.of_int <$> NilZero.int_of_string s
  end.

(** [big.Int.Text(10)], also the [%d] verb of [fmt]. *)
Definition bigIntText (z : Z) : string := NilZero.string_of_int (Z.to_int z).

Lemma Z_to_int_nonnil z : Z.to_int z ≠ Decimal.Pos Decimal.Nil /\ Z.to_int z ≠ Decimal.Neg Decimal.Nil.
Proof.
  destruct z as [|p|p]; cbn; split; try done; intros Hc; injection Hc as Hc;
    by apply DecimalPos.Unsigned.to_uint_nonnil in Hc.
Qed.

Lemma bigInt_text_parse z : bigIntSetString (bigIntText z) = Some z.
Proof.
  destruct (Z_to_int_nonnil z) as [Hp Hn].
  pose proof (NilZero.isi (Z.to_int z) Hp Hn) as Hi. fold (bigIntText z) in Hi.
  unfold bigIntSetString. destruct (bigIntText z) as [|c s] eqn:Ht; [done|].
  assert (c ≠ "+"%char) as Hc.
  { intros ->. cbn in Hi. by destruct (NilEmpty.uint_of_string s). }
  replace (match c with "+"%char => Z.of_uint <$> NilZero.uint_of_string s
           | _ => Z.of_int <$> NilZero.int_of_string (String c s) end)
    with (Z.of_int <$> NilZero.int_of_string (String c s)).
  - rewrite Hi. cbn. by rewrite DecimalZ.of_to.
  - destruct c as [b0 b1 b2 b3 b4 b5 b6 b7]; destruct b0, b1, b2, b3, b4, b5, b6, b7; done.
Qed.

(** [strconv.Atoi] on a 64-bit platform. *)
Definition atoi (s : string) : option Z :=
  z ← bigIntSetString s;
  if bool_decide (- 2 ^ 63 <= z < 2 ^ 63) then Some z else None.

Lemma atoi_text z : in_i64 z -> atoi (bigIntText z) = Some z.
Proof. intros Hz. unfold atoi. rewrite bigInt_text_parse. cbn. by rewrite bool_decide_eq_true_2. Qed.

(** ** math/big.Float

    A finite float is [fmant * 2 ^ fexp]; operations round to nearest even at the
    precision of the receiver, which [SetInt] fixes as the bit length of the integer
    but at least 64. *)

Definition bitLen (z : Z) : Z := if bool_decide (z = 0) then 0 else Z.log2 (Z.abs z) + 1.

Record bigFloat := { fmant : Z; fexp : Z; fprec : Z }.

(** Round the non-negative [m] to [p] bits, half to even: the kept bits and the shift. *)
Definition roundBits (p m : Z) : Z * Z :=
  let s := bitLen m - p in
  if bool_decide (s <= 0) then (m, 0)
  else
    let q := m / 2 ^ s in
    let r := m mod 2 ^ s in
    let half := 2 ^ (s - 1) in
    if bool_decide (half < r) || (bool_decide (r = half) && Z.odd q) then (q + 1, s) else (q, s).

Definition roundFloat (p m e : Z) : bigFloat :=
  let '(q, s) := roundBits p (Z.abs m) in
  {| fmant := Z.sgn m * q; fexp := e + s; fprec := p |}.

Definition bigFloatSetInt (x : Z) : bigFloat :=
  {| fmant := x; fexp := 0; fprec := Z.max (bitLen x) 64 |}.

(** [big.NewFloat(float64(n))] for an integer [n]. *)
Definition bigNewFloat (n : Z) : bigFloat := roundFloat 53 n 0.

(** [z.Mul(z, y)]. *)
Definition bigFloatMul (z y : bigFloat) : bigFloat :=
  roundFloat (fprec z) (fmant z * fmant y) (fexp z + fexp y).

(** [z.Quo(z, y)] for [y] not zero: enough quotient bits and a sticky bit for the remainder. *)
Definition bigFloatQuo (z y : bigFloat) : bigFloat :=
  let k := fprec z + 2 + bitLen (fmant y) in
  let n := Z.abs (fmant z) * 2 ^ k in
  let d := Z.abs (fmant y) in
  let m := 2 * (n / d) + (if bool_decide (n mod d = 0) then 0 else 1) in
  roundFloat (fprec z) (Z.sgn (fmant z) * Z.sgn (fmant y) * m) (fexp z - fexp y - k - 1).

(** [x.Int(nil)]: truncation towards zero. *)
Definition bigFloatInt (x : bigFloat) : Z :=
  if bool_decide (0 <= fexp x) then fmant x * 2 ^ fexp x
  else Z.quot (fmant x) (2 ^ (- fexp x)).

(** The computation the utility module uses for every percentage of an amount:
    [SetInt(amount)], [Mul(pct)], [Quo(100)], [Int]. *)
Definition bigFloatPercent (amount pct : Z) : Z :=
  bigFloatInt (bigFloatQuo (bigFloatMul (bigFloatSetInt amount) (bigNewFloat pct)) (bigNewFloat 100)).

Lemma bitLen_pos m : 0 < m -> 2 ^ (bitLen m - 1) <= m < 2 ^ bitLen m.
Proof.
  intros Hm. unfold bitLen. rewrite bool_decide_eq_false_2 by lia. rewrite Z.abs_eq by lia.
  pose proof (Z.log2_spec m Hm). rewrite Z.add_simpl_r. unfold Z.succ in *. lia.
Qed.

Lemma bitLen_le m b : 0 <= m < 2 ^ b -> 0 <= b -> bitLen m <= b.
Proof.
  intros Hm Hb. unfold bitLen. case_bool_decide; [lia|]. rewrite Z.abs_eq by lia.
  enough (Z.log2 m < b) by lia. apply Z.log2_lt_pow2; lia.
Qed.

Lemma bitLen_ge m b : 2 ^ b <= m -> 0 <= b -> b < bitLen m.
Proof.
  intros Hm Hb. assert (0 < 2 ^ b) by (apply Z.pow_pos_nonneg; lia).
  unfold bitLen. rewrite bool_decide_eq_false_2 by lia. rewrite Z.abs_eq by lia.
  enough (b <= Z.log2 m) by lia. by apply Z.log2_le_pow2; [lia|].
Qed.

Lemma bitLen_nonneg m : 0 <= bitLen m.
Proof. unfold bitLen. case_bool_decide; [lia|]. pose proof (Z.log2_nonneg (Z.abs m)). lia. Qed.

(** Rounding moves the value by at most half of the last kept bit. *)
Lemma roundBits_spec p m :
  0 <= m -> 0 <= p ->
  exists q s, roundBits p m = (q, s) /\ s = Z.max 0 (bitLen m - p) /\ 0 <= q /\
         (s = 0 -> q = m) /\ (0 < s -> 2 * Z.abs (q * 2 ^ s - m) <= 2 ^ s).
Proof.
  intros Hm Hp. unfold roundBits. case_bool_decide as Hs.
  - exists m, 0. repeat split; lia.
  - set (s := bitLen m - p) in *. assert (0 < 2 ^ s) by (apply Z.pow_pos_nonneg; lia).
    assert (2 ^ s = 2 * 2 ^ (s - 1)) as Hhalf.
    { rewrite <- Z.pow_succ_r by lia. f_equal. lia. }
    pose proof (Z.div_mod m (2 ^ s)). pose proof (Z.mod_pos_bound m (2 ^ s)).
    assert (0 <= m / 2 ^ s) by (apply Z.div_pos; lia).
    destruct (bool_decide (2 ^ (s - 1) < m mod 2 ^ s)
              || (bool_decide (m mod 2 ^ s = 2 ^ (s - 1)) && Z.odd (m / 2 ^ s))) eqn:Hup.
    + exists (m / 2 ^ s + 1), s. repeat split; try lia.
      apply orb_prop in Hup as [Hup|Hup].
      * apply bool_decide_eq_true in Hup. nia.
      * apply andb_prop in Hup as [Hup _]. apply bool_decide_eq_true in Hup. nia.
    + exists (m / 2 ^ s), s. repeat split; try lia.
      apply orb_false_elim in Hup as [Hup _]. apply bool_decide_eq_false in Hup. nia.
Qed.

(** A value with enough trailing zeros is not changed. *)
Lemma roundBits_exact p t z :
  0 < t -> 0 <= z -> 0 <= p -> bitLen (t * 2 ^ z) - p <= z ->
  exists q s, roundBits p (t * 2 ^ z) = (q, s) /\ s = Z.max 0 (bitLen (t * 2 ^ z) - p) /\
    q * 2 ^ s = t * 2 ^ z.
Proof.
  intros Ht Hz Hp Hs. unfold roundBits. case_bool_decide as Hle.
  - exists (t * 2 ^ z), 0. repeat split; lia.
  - set (s := bitLen (t * 2 ^ z) - p) in *.
    assert (0 < 2 ^ s) by (apply Z.pow_pos_nonneg; lia).
    replace (t * 2 ^ z) with (t * 2 ^ (z - s) * 2 ^ s)
      by (rewrite <- Z.mul_assoc, <- Z.pow_add_r by lia; repeat f_equal; lia).
    rewrite Z.mod_mul, Z.div_mul by lia.
    assert (0 < 2 ^ (s - 1)) by (apply Z.pow_pos_nonneg; lia).
    rewrite !bool_decide_eq_false_2 by lia. cbn.
    exists (t * 2 ^ (z - s)), s.
    rewrite <- Z.mul_assoc, <- Z.pow_add_r, Z.sub_add by lia. fold s. repeat split; lia.
Qed.

Lemma bigNewFloat_small n : 0 <= n < 2 ^ 53 -> bigNewFloat n = {| fmant := n; fexp := 0; fprec := 53 |}.
Proof.
  intros Hn. unfold bigNewFloat, roundFloat.
  rewrite Z.abs_eq by lia. unfold roundBits. rewrite bool_decide_eq_true_2.
  - f_equal. destruct (decide (n = 0)) as [->|]; [done|]. rewrite Z.sgn_pos; lia.
  - pose proof (bitLen_le n 53). lia.
Qed.

Lemma bigFloatMul_small x p :
  0 <= x < 2 ^ 57 -> 0 <= p <= 100 ->
  bigFloatMul (bigFloatSetInt x) (bigNewFloat p) = {| fmant := x * p; fexp := 0; fprec := 64 |}.
Proof.
  intros Hx Hp. rewrite bigNewFloat_small by lia. unfold bigFloatMul, bigFloatSetInt. cbn [fmant fexp fprec].
  rewrite Z.max_r by (pose proof (bitLen_le x 57); lia).
  assert (0 <= x * p < 2 ^ 64) as Hxp by nia.
  unfold roundFloat. rewrite Z.abs_eq by lia. unfold roundBits.
  rewrite bool_decide_eq_true_2 by (pose proof (bitLen_le (x * p) 64); lia).
  f_equal. apply Z.sgn_abs || (rewrite <- (Z.abs_eq (x * p)) at 2 by lia; rewrite Z.mul_comm, Z.abs_sgn; lia).
Qed.

(** The division by 100 and the truncation, on an exact product. *)
Lemma bigFloatQuo_100 N :
  0 <= N < 100 * 2 ^ 57 ->
  bigFloatInt (bigFloatQuo {| fmant := N; fexp := 0; fprec := 64 |} (bigNewFloat 100)) = N / 100.
Proof.
  intros HN. rewrite bigNewFloat_small by lia.
  destruct (decide (N = 0)) as [->|Hnz]; [reflexivity|].
  unfold bigFloatQuo. cbn [fmant fexp fprec].
  change (64 + 2 + bitLen 100) with 73. change (Z.abs 100) with 100. change (Z.sgn 100) with 1.
  change (0 - 0 - 73 - 1) with (-74).
  rewrite Z.abs_eq, (Z.sgn_pos N) by lia. rewrite !Z.mul_1_l.
  set (st := if bool_decide (N * 2 ^ 73 mod 100 = 0) then 0 else 1).
  set (m := 2 * (N * 2 ^ 73 / 100) + st).
  assert (0 <= st <= 1) as Hst by (unfold st; case_bool_decide; lia).
  pose proof (Z.div_mod (N * 2 ^ 73) 100 ltac:(lia)) as Hdm.
  pose proof (Z.mod_pos_bound (N * 2 ^ 73) 100 ltac:(lia)) as Hmb.
  pose proof (Z.div_mod N 100 ltac:(lia)) as HdN.
  pose proof (Z.mod_pos_bound N 100 ltac:(lia)) as HmN.
  set (t := N / 100) in *. set (r := N mod 100) in *.
  assert (0 <= t < 2 ^ 57) as Ht by (unfold t; split; [apply Z.div_pos | apply Z.div_lt_upper_bound]; lia).
  assert (0 < m < 2 ^ 131) as Hm by (unfold m; lia).
  enough (exists q s, roundBits 64 m = (q, s) /\ 0 <= s <= 67 /\ t * 2 ^ 74 <= q * 2 ^ s < (t + 1) * 2 ^ 74)
    as (q & s & Hr & Hs & Hq).
  { unfold roundFloat. rewrite Z.abs_eq, (Z.sgn_pos m) by lia. rewrite Hr.
    unfold bigFloatInt. cbn [fexp fmant]. rewrite bool_decide_eq_false_2 by lia.
    replace (- (-74 + s)) with (74 - s) by lia. rewrite Z.mul_1_l.
    assert (0 < 2 ^ s /\ 0 < 2 ^ (74 - s)) as [? ?] by (split; apply Z.pow_pos_nonneg; lia).
    assert (2 ^ 74 = 2 ^ s * 2 ^ (74 - s)) as He by (rewrite <- Z.pow_add_r by lia; f_equal; lia).
    rewrite He in Hq. rewrite Z.quot_div_nonneg by nia.
    symmetry. apply (Z.div_unique_pos _ _ _ (q - t * 2 ^ (74 - s))); nia. }
  destruct (decide (r = 0)) as [Hr0|Hr0].
  - assert (m = t * 2 ^ 74) as ->.
    { unfold m, st. replace (N * 2 ^ 73) with (t * 2 ^ 73 * 100) by lia.
      rewrite Z.mod_mul, Z.div_mul by lia. rewrite bool_decide_eq_true_2 by done. lia. }
    pose proof (bitLen_le (t * 2 ^ 74) 131 ltac:(lia) ltac:(lia)).
    destruct (roundBits_exact 64 t 74) as (q & s & -> & Hs & Hq); [lia..|].
    exists q, s. repeat split; lia.
  - pose proof (bitLen_le m 131 ltac:(lia) ltac:(lia)).
    assert (65 < bitLen m) by (apply bitLen_ge; unfold m; lia).
    destruct (roundBits_spec 64 m) as (q & s & -> & Hs & _ & _ & Hq); [lia..|].
    assert (2 ^ s <= 2 ^ 67) by (apply Z.pow_le_mono_r; lia).
    specialize (Hq ltac:(lia)). exists q, s. split; [done|]. split; [lia|]. unfold m in *. lia.
Qed.

(** Below 2^57 the floating-point computation is the exact floor of [amount * pct / 100]. *)
Lemma bigFloatPercent_exact x p :
  0 <= x < 2 ^ 57 -> 0 <= p <= 100 -> bigFloatPercent x p = x * p / 100.
Proof.
  intros Hx Hp. unfold bigFloatPercent. rewrite bigFloatMul_small by done.
  apply bigFloatQuo_100. nia.
Qed.

(** ** encoding/binary.LittleEndian, 64 bits *)

Fixpoint leBytes (n : nat) (z : Z) : bytes :=
  match n with
  | O => EmptyString
  | S n' => String (ascii_of_nat (Z.to_nat (z mod 256))) (leBytes n' (z / 256))
  end.

Fixpoint leValue (s : bytes) : Z :=
  match s with
  | EmptyString => 0
  | String c s' => Z.of_nat (nat_of_ascii c) + 256 * leValue s'
  end.

Lemma leValue_leBytes n z : leValue (leBytes n z) = z mod 256 ^ Z.of_nat n.
Proof.
  revert z. induction n as [|n IH]; intros z; [by rewrite Z.mod_1_r|].
  cbn [leBytes leValue]. rewrite IH.
  pose proof (Z.mod_pos_bound z 256 ltac:(lia)).
  rewrite nat_ascii_embedding by lia. rewrite Z2Nat.id by lia.
  rewrite Nat2Z.inj_succ, Z.pow_succ_r by lia.
  rewrite (Z.rem_mul_r z 256 (256 ^ Z.of_nat n)); [done|lia|].
  apply Z.pow_pos_nonneg; lia.
Qed.

Lemma leBytes_length n z : String.length (leBytes n z) = n.
Proof. revert z. induction n as [|n IH]; intros z; [done|]. cbn. by rewrite IH. Qed.

#[export] Hint Rewrite hex_decode_encode bigInt_text_parse : golib.

(** Go's [encoding/base64], standard alphabet, with padding ([StdEncoding]) and without
    ([RawStdEncoding]).  A byte is its eight bits, so that encoding is a rearrangement of bits;
    decoding skips line breaks, as the library does, and does not require that unused bits are
    zero. *)
#[local] Open Scope string_scope.
#[local] Open Scope Z_scope.

Module Base64.

Definition alphabet : string := "ABCDEFGHIJKLMNOPQRSTUVWXYZabcdefghijklmnopqrstuvwxyz0123456789+/".

(** Six bits, most significant first. *)
Record sextet := Six { s5 : bool; s4 : bool; s3 : bool; s2 : bool; s1 : bool; s0 : bool }.

Definition sextetIndex (x : sextet) : nat :=
  (32 * Nat.b2n (s5 x) + 16 * Nat.b2n (s4 x) + 8 * Nat.b2n (s3 x) + 4 * Nat.b2n (s2 x) + 2 * Nat.b2n (s1 x) + Nat.b2n (s0 x))%nat.
Definition encode6 (x : sextet) : ascii := default (ascii_of_nat 0) (String.get (sextetIndex x) alphabet).

Fixpoint indexIn (c : ascii) (s : string) (i : nat) : option nat :=
  match s with "" => None | String d s' => if Ascii.eqb c d then Some i else indexIn c s' (S i) end.
Definition bitsOf (n : nat) : sextet :=
  Six (Nat.testbit n 5) (Nat.testbit n 4) (Nat.testbit n 3) (Nat.testbit n 2) (Nat.testbit n 1) (Nat.testbit n 0).
Definition decode6 (c : ascii) : option sextet := bitsOf <$> indexIn c alphabet 0.

(** Three bytes and their four sextets; [Ascii] has its least significant bit first. *)
Definition q1 (a : ascii) : sextet := match a with Ascii _ _ a2 a3 a4 a5 a6 a7 => Six a7 a6 a5 a4 a3 a2 end.
Definition q2 (a b : ascii) : sextet := match a, b with Ascii a0 a1 _ _ _ _ _ _, Ascii _ _ _ _ b4 b5 b6 b7 => Six a1 a0 b7 b6 b5 b4 end.
Definition q3 (b c : ascii) : sextet := match b, c with Ascii b0 b1 b2 b3 _ _ _ _, Ascii _ _ _ _ _ _ c6 c7 => Six b3 b2 b1 b0 c7 c6 end.
Definition q4 (c : ascii) : sextet := match c with Ascii c0 c1 c2 c3 c4 c5 _ _ => Six c5 c4 c3 c2 c1 c0 end.

Definition b1 (x y : sextet) : ascii := Ascii (s4 y) (s5 y) (s0 x) (s1 x) (s2 x) (s3 x) (s4 x) (s5 x).
Definition b2 (y z : sextet) : ascii := Ascii (s2 z) (s3 z) (s4 z) (s5 z) (s0 y) (s1 y) (s2 y) (s3 y).
Definition b3 (z t : sextet) : ascii := Ascii (s0 t) (s1 t) (s2 t) (s3 t) (s4 t) (s5 t) (s0 z) (s1 z).

Definition zero : ascii := ascii_of_nat 0.

(** [pad] is ["="] for the padded encoding and empty for the raw one. *)
Fixpoint encode (pad : string) (s : bytes) : string :=
  match s with
  | "" => ""
  | String a "" => String (encode6 (q1 a)) (String (encode6 (q2 a zero)) (pad +:+ pad))
  | String a (String b "") => String (encode6 (q1 a)) (String (encode6 (q2 a b)) (String (encode6 (q3 b zero)) pad))
  | String a (String b (String c rest)) =>
      String (encode6 (q1 a)) (String (encode6 (q2 a b)) (String (encode6 (q3 b c)) (String (encode6 (q4 c)) (encode pad rest))))
  end.

(** [base64.StdEncoding.EncodeToString] and [base64.RawStdEncoding.EncodeToString]. *)
Definition StdEncode : bytes -> string := encode "=".
Definition RawStdEncode : bytes -> string := encode "".

Definition isNewline (c : ascii) : bool := Nat.eqb (nat_of_ascii c) 10 || Nat.eqb (nat_of_ascii c) 13.
Fixpoint stripNewlines (s : string) : string :=
  match s with "" => "" | String c s' => if isNewline c then stripNewlines s' else String c (stripNewlines s') end.

(** [base64.RawStdEncoding.DecodeString] on a text without line breaks: groups of four, the last
    of two, three or four. *)
Fixpoint decodeRaw (s : string) : option bytes :=
  match s with
  | "" => Some ""
  | String _ "" => None
  | String c1 (String c2 "") =>
      x ← decode6 c1; y ← decode6 c2; Some (String (b1 x y) "")
  | String c1 (String c2 (String c3 "")) =>
      x ← decode6 c1; y ← decode6 c2; z ← decode6 c3; Some (String (b1 x y) (String (b2 y z) ""))
  | String c1 (String c2 (String c3 (String c4 rest))) =>
      x ← decode6 c1; y ← decode6 c2; z ← decode6 c3; t ← decode6 c4;
      r ← decodeRaw rest; Some (String (b1 x y) (String (b2 y z) (String (b3 z t) r)))
  end.
Definition RawStdDecode (s : string) : option bytes := decodeRaw (stripNewlines s).

Lemma decode6_encode6 x : decode6 (encode6 x) = Some x.
Proof. destruct x as [[] [] [] [] [] []]; vm_compute; reflexivity. Qed.
Lemma encode6_line x : isNewline (encode6 x) = false.
Proof. destruct x as [[] [] [] [] [] []]; vm_compute; reflexivity. Qed.

Lemma b1_q a b : b1 (q1 a) (q2 a b) = a.
Proof. by destruct a, b. Qed.
Lemma b2_q a b c : b2 (q2 a b) (q3 b c) = b.
Proof. by destruct a, b, c. Qed.
Lemma b3_q b c : b3 (q3 b c) (q4 c) = c.
Proof. by destruct b, c. Qed.

(** Three bytes at a time. *)
Lemma triple_ind (P : bytes -> Prop) :
  P "" -> (forall a, P (String a "")) -> (forall a b, P (String a (String b ""))) ->
  (forall a b c s, P s -> P (String a (String b (String c s)))) -> forall s, P s.
Proof.
  intros H0 H1 H2 H3. fix IH 1. intros [|a [|b [|c s]]]; [done|apply H1|apply H2|]. apply H3. apply IH.
Qed.

(** Decoding undoes encoding. *)
Theorem raw_roundtrip (s : bytes) : RawStdDecode (RawStdEncode s) = Some s.
Proof.
  unfold RawStdDecode, RawStdEncode. induction s as [|a|a b|a b c s IH] using triple_ind; [done|..];
    cbn -[encode6 decode6 isNewline zero]; rewrite ?encode6_line; cbn -[encode6 decode6 isNewline zero]; rewrite !decode6_encode6; cbn -[encode6 decode6 zero b1 b2 b3 q1 q2 q3 q4].
  - by rewrite b1_q.
  - by rewrite b1_q, b2_q.
  - rewrite IH. cbn -[b1 b2 b3 q1 q2 q3 q4]. by rewrite b1_q, b2_q, b3_q.
Qed.

Example std_padded : StdEncode "Ma" = "TWE=". Proof. reflexivity. Qed.
Example std_two : StdEncode "M" = "TQ==". Proof. reflexivity. Qed.
Example std_full : StdEncode "Man" = "TWFu". Proof. reflexivity. Qed.
End Base64.
