(* ===== verification/GoSort.v ===== *)
(** What the code uses of Go's [sort] package and of the iteration order of maps.

    [strLe] is the order of Go strings (bytewise); [sortStrings] is [sort.Strings]; [Search] is
    the binary search of [sort.Search] and [SearchStrings] its instance for strings.  The order
    in which [range] visits a map is unspecified: it is the operation of the class
    [GoMapOrder], of which only that it visits every entry once is known. *)

From stdpp Require Import sorting.
From S2P Require Import Prelude.


(** ** Strings in order *)
Definition strLe (a b : string) : Prop := String.leb a b = true.
#[global] Instance strLe_dec a b : Decision (strLe a b).
Proof. unfold strLe. apply _. Defined.

(** [a < b]. *)
Definition strLt (a b : string) : Prop := ¬ strLe b a.
#[global] Instance strLt_dec a b : Decision (strLt a b).
Proof. unfold strLt. apply _. Defined.

(** [sort.Strings]. *)
Definition sortStrings (l : list string) : list string := merge_sort strLe l.

#[global] Instance strLe_total : Total strLe.
Proof. intros a b. apply String.leb_total. Qed.
#[global] Instance strLe_antisym : AntiSymm (=) strLe.
Proof. intros a b. apply String.leb_antisym. Qed.

Lemma strLe_cons c1 s1 c2 s2 :
  strLe (String c1 s1) (String c2 s2) <->
  (Ascii.N_of_ascii c1 < Ascii.N_of_ascii c2)%N \/ (c1 = c2 /\ strLe s1 s2).
Proof.
  unfold strLe, String.leb. cbn [String.compare]. unfold Ascii.compare.
  destruct (N.compare_spec (Ascii.N_of_ascii c1) (Ascii.N_of_ascii c2)) as [He|Hl|Hg].
  - apply (f_equal Ascii.ascii_of_N) in He. rewrite !Ascii.ascii_N_embedding in He. subst c2.
    split; [intros Hs; by right|]. intros [Hl|[_ Hs]]; [lia|done].
  - split; [intros _; by left|done].
  - split; [done|]. intros [Hl|[-> _]]; lia.
Qed.

#[global] Instance strLe_trans : Transitive strLe.
Proof.
  intros a. induction a as [|c a IH]; intros [|c2 b] [|c3 d]; try done.
  rewrite !strLe_cons. intros [H1|[-> H1]] [H2|[-> H2]].
  - left. lia.
  - by left.
  - by left.
  - right. split; [done|]. by apply (IH b).
Qed.

Lemma strLt_le a b : strLt a b -> strLe a b.
Proof. intros H. destruct (total strLe a b); [done|]. by destruct H. Qed.
Lemma strLt_irrefl a : ¬ strLt a a.
Proof. intros H. apply H. by destruct (total strLe a a). Qed.
Lemma strLt_ne a b : strLt a b -> a ≠ b.
Proof. intros H ->. by eapply strLt_irrefl. Qed.
Lemma strLe_ne_lt a b : strLe a b -> a ≠ b -> strLt a b.
Proof. intros H Hn Hb. apply Hn. by apply (anti_symm strLe). Qed.
Lemma strLt_le_trans a b c : strLt a b -> strLe b c -> strLt a c.
Proof. intros H1 H2 H3. apply H1. by transitivity c. Qed.
Lemma strLe_lt_trans a b c : strLe a b -> strLt b c -> strLt a c.
Proof. intros H1 H2 H3. apply H2. by transitivity a. Qed.
Lemma strLe_refl a : strLe a a.
Proof. by destruct (total strLe a a). Qed.
#[global] Instance strLt_trans : Transitive strLt.
Proof. intros a b c H1 H2. eapply strLt_le_trans; [done|]. by apply strLt_le. Qed.
Lemma strLt_asym a b : strLt a b -> ¬ strLt b a.
Proof. intros H1 H2. eapply strLt_irrefl. by etransitivity. Qed.

Create HintDb strorder discriminated.
#[export] Hint Resolve strLt_le strLe_refl strLe_ne_lt strLt_le_trans strLe_lt_trans : strorder.

(** Sorting depends on the elements only. *)
Lemma sortStrings_perm l1 l2 : l1 ≡ₚ l2 -> sortStrings l1 = sortStrings l2.
Proof.
  intros Hp. unfold sortStrings. apply (StronglySorted_unique strLe).
  - apply (StronglySorted_merge_sort strLe).
  - apply (StronglySorted_merge_sort strLe).
  - by rewrite !merge_sort_Permutation.
Qed.

Lemma sortStrings_elements l : sortStrings l ≡ₚ l.
Proof. apply merge_sort_Permutation. Qed.

Lemma sorted_lookup l i j x y :
  StronglySorted strLe l -> (i < j)%nat -> l !! i = Some x -> l !! j = Some y -> strLe x y.
Proof.
  intros Hs. revert i j. induction Hs as [|a l Hs IH Ha]; intros [|i] [|j] Hij Hi Hj; cbn in *; try done; try lia.
  - injection Hi as ->. rewrite Forall_forall in Ha. apply Ha. by eapply list_elem_of_lookup_2.
  - eapply (IH i j); [lia|done..].
Qed.

(** A sorted list without duplicates is strictly sorted, and conversely. *)
Lemma sorted_strict l : StronglySorted strLe l -> NoDup l -> StronglySorted strLt l.
Proof.
  induction 1 as [|a l Hs IH Ha]; intros Hnd; [constructor|].
  apply NoDup_cons in Hnd as [Hn Hnd]. constructor; [by apply IH|].
  rewrite Forall_forall in Ha |- *. intros x Hx. apply strLe_ne_lt; [by apply Ha|]. by intros ->.
Qed.

Lemma strict_sorted l : StronglySorted strLt l -> StronglySorted strLe l.
Proof. induction 1 as [|a l Hs IH Ha]; constructor; [done|]. eapply Forall_impl; [exact Ha|]. intros x. apply strLt_le. Qed.

Lemma strict_NoDup l : StronglySorted strLt l -> NoDup l.
Proof.
  induction 1 as [|a l Hs IH Ha]; constructor; [|done].
  intros Hin. rewrite Forall_forall in Ha. eapply strLt_irrefl. by apply Ha.
Qed.

Lemma sortStrings_strict l : NoDup l -> StronglySorted strLt (sortStrings l).
Proof.
  intros Hnd. apply sorted_strict; [apply (StronglySorted_merge_sort strLe)|].
  by rewrite sortStrings_elements.
Qed.

(** Strict sortedness of a concatenation, by its parts. *)
Lemma strict_app l1 l2 :
  StronglySorted strLt (l1 ++ l2) <->
  StronglySorted strLt l1 /\ StronglySorted strLt l2 /\ (forall x y, x ∈ l1 -> y ∈ l2 -> strLt x y).
Proof. rewrite StronglySorted_app. naive_solver. Qed.

(** A strictly sorted list splits around any string. *)
Lemma strict_split l x :
  StronglySorted strLt l ->
  exists l1 l2 : list string, l = l1 ++ l2 /\ Forall (fun s => strLt s x) l1 /\ Forall (fun s => strLe x s) l2.
Proof.
  induction 1 as [|a l Hs (l1 & l2 & -> & H1 & H2) Ha]; [by exists [], []|].
  destruct (decide (strLt a x)) as [Hlt|Hge].
  - exists (a :: l1), l2. split; [done|]. by split; [constructor|].
  - assert (strLe x a) as Hxa by (by apply dec_stable in Hge). exists [], (a :: l1 ++ l2).
    split; [done|]. split; [constructor|]. constructor; [done|].
    eapply Forall_impl; [exact Ha|]. intros y Hy. apply strLt_le. by eapply strLe_lt_trans.
Qed.

(** ** [sort.Search] *)

(** The loop of [sort.Search] between [i] and [j]; every iteration shrinks the interval, so
    [S n] iterations are enough for an interval of [n] (see [Search_split]). *)
Fixpoint searchLoop (fuel : nat) (f : nat -> bool) (i j : nat) : nat :=
  match fuel with
  | O => i
  | S fuel' =>
      if (i <? j)%nat then
        let h := ((i + j) / 2)%nat in
        if f h then searchLoop fuel' f i h else searchLoop fuel' f (h + 1) j
      else i
  end.

Definition Search (n : nat) (f : nat -> bool) : nat := searchLoop (S n) f 0 n.

(** [sort.SearchStrings]: the smallest index whose element is at least [x]. *)
Definition SearchStrings (a : list string) (x : string) : nat :=
  Search (length a) (fun i => match a !! i with Some s => String.leb x s | None => false end).

Lemma searchLoop_spec f r : forall fuel i j,
  (j - i < fuel)%nat -> (i <= r <= j)%nat ->
  (forall k, (i <= k < r)%nat -> f k = false) -> (forall k, (r <= k < j)%nat -> f k = true) ->
  searchLoop fuel f i j = r.
Proof.
  induction fuel as [|fuel IH]; intros i j Hf Hr Hlo Hhi; [lia|]. cbn [searchLoop].
  destruct (Nat.ltb_spec i j) as [Hij|Hij]; [|lia].
  pose proof (Nat.div_mod (i + j) 2) as Hd. pose proof (Nat.mod_upper_bound (i + j) 2) as Hm.
  set (h := ((i + j) / 2)%nat) in *. cbv zeta.
  destruct (f h) eqn:Hfh.
  - destruct (decide (h < r)%nat) as [Hlt|Hge]; [rewrite Hlo in Hfh by lia; done|].
    apply IH; [lia|lia|..]; intros k Hk; [apply Hlo|apply Hhi]; lia.
  - destruct (decide (h < r)%nat) as [Hlt|Hge]; [|rewrite Hhi in Hfh by lia; done].
    apply IH; [lia|lia|..]; intros k Hk; [apply Hlo|apply Hhi]; lia.
Qed.

(** The search finds the border of a list cut in two by the predicate. *)
Lemma Search_split (l1 l2 : list string) (P : string -> bool) :
  Forall (fun s => P s = false) l1 -> Forall (fun s => P s = true) l2 ->
  Search (length (l1 ++ l2)) (fun i => match (l1 ++ l2) !! i with Some s => P s | None => false end) = length l1.
Proof.
  intros H1 H2. rewrite Forall_lookup in H1, H2. unfold Search. rewrite length_app. apply searchLoop_spec; [lia|lia|..]; intros k Hk.
  - rewrite lookup_app_l by lia. destruct (l1 !! k) eqn:He; [by eapply H1|done].
  - rewrite lookup_app_r by lia. destruct (l2 !! (k - length l1)%nat) eqn:He; [by eapply H2|].
    apply lookup_ge_None in He. lia.
Qed.

Lemma SearchStrings_split l1 l2 x :
  Forall (fun s => strLt s x) l1 -> Forall (fun s => strLe x s) l2 -> SearchStrings (l1 ++ l2) x = length l1.
Proof.
  intros H1 H2. apply (Search_split l1 l2 (String.leb x)); [|done].
  eapply Forall_impl; [exact H1|]. intros s Hs. unfold strLt, strLe in Hs. by destruct (String.leb x s).
Qed.

(** ** Iteration over maps *)
Class GoMapOrder := {
  mapOrder : forall {K : Type} `{Countable K} {A : Type}, gmap K A -> list (K * A);
  mapOrder_perm : forall K `{Countable K} A (m : gmap K A), mapOrder m ≡ₚ map_to_list m;
}.

(** One possible order, for concrete runs. *)
Module CanonicalOrder.
#[local] Instance order : GoMapOrder := {| mapOrder K _ _ A m := map_to_list m; mapOrder_perm K _ _ A m := reflexivity _ |}.
End CanonicalOrder.

Section map_order.
Context `{GoMapOrder} `{Countable K} {A : Type}.
Implicit Types (m : gmap K A).

Lemma elem_of_mapOrder m k x : (k, x) ∈ mapOrder m <-> m !! k = Some x.
Proof. by rewrite mapOrder_perm, elem_of_map_to_list. Qed.

Lemma mapOrder_NoDup m : NoDup (mapOrder m).*1.
Proof. rewrite mapOrder_perm. apply NoDup_fst_map_to_list. Qed.

Lemma mapOrder_length m : length (mapOrder m) = size m.
Proof. by rewrite mapOrder_perm, length_map_to_list. Qed.
End map_order.
