(* ===== verification/Errors.v ===== *)
(** Pocket error codes, messages and constructors
    (src/shared/core/types/error.go and src/shared/crypto/error.go).

    An error value is its code and its text; [Error_string] is the [Error()] method,
    and a plain Go [error] argument is represented by the text its [Error()] returns.
    A [%T] verb prints a type name, which is passed as a string. *)

From S2P Require Import Prelude GoStd.
#[local] Open Scope string_scope.

(** [Code] is a float64 in the source; every constant is a small integer. *)
Inductive Code : Type :=
| CodeOK
| CodeEmptyTransactionError
| CodeInvalidSignerError
| CodeDecodeMessageError
| CodeUnmarshalTransaction
| CodeUnknownMessageError
| CodeAppHashError
| CodeNewPublicKeyFromBytesError
| CodeNewAddressFromBytesError
| CodeSignatureVerificationFailedError
| CodeRetrievingSignableBytesError
| CodeHexDecodeFromStringError
| CodeInvalidHashLengthError
| CodeEmptyNetworkIDError
| CodeEmptyProposerError
| CodeEmptyTimestampError
| CodeInvalidTransactionCountError
| CodeEmptyAccountError
| CodeNilPoolError
| CodeEmptyNameError
| CodeEmptyAddressError
| CodeInvalidAddressLenError
| CodeInvalidNonceError
| CodeInvalidAmountError
| CodeProtoMarshalError
| CodeProtoUnmarshalError
| CodeProtoNewAnyError
| CodeProtoFromAnyError
| CodeNewFeeFromStringError
| CodeEmptyNonceError
| CodeEmptyPublicKeyError
| CodeEmptySignatureError
| CodeEmptySignatureStructureError
| CodeDuplicateTransactionError
| CodeTransactionSignError
| CodeGetAllValidatorsError
| CodeInterfaceConversionError
| CodeGetAccountAmountError
| CodeStringToBigIntError
| CodeStringToBigFloatError
| CodeInsufficientAmountError
| CodeAddAccountAmountError
| CodeSetAccountError
| CodeGetParamError
| CodeMinimumStakeError
| CodeEmptyRelayChainError
| CodeEmptyRelayChainsError
| CodeInvalidRelayChainLengthError
| CodeNilOutputAddress
| CodeInvalidPublicKeyLenError
| CodeEmptyAmountError
| CodeMaxChainsError
| CodeInsertError
| CodeInvalidStatusError
| CodeAddPoolAmountError
| CodeSubPoolAmountError
| CodeGetStatusError
| CodeSetUnstakingHeightAndStatusError
| CodeGetReadyToUnstakeError
| CodeAlreadyExistsError
| CodeGetExistsError
| CodeGetLatestHeightError
| CodeGetPauseHeightError
| CodeAlreadyPausedError
| CodeSetPauseHeightError
| CodeNotPausedError
| CodeNotReadyToUnpauseError
| CodeSetStatusPausedBeforeError
| CodeInvalidServiceURLError
| CodeNotExistsError
| CodeGetMissedBlocksError
| CodeGetPrevBlockByzantineValidators
| CodeEmptyHashError
| CodeInvalidBlockHeightError
| CodeUnequalPublicKeysError
| CodeUnequalVoteTypesError
| CodeEqualVotesError
| CodeUnequalRoundsError
| CodeMaxEvidenceAgeError
| CodeGetStakedAmountError
| CodeSetValidatorStakedAmountError
| CodeSetPoolAmountError
| CodeGetPoolAmountError
| CodeInvalidProposerCutPercentageError
| CodeUnknownParamError
| CodeUnauthorizedParamChangeError
| CodeInvalidParamValueError
| CodeUpdateParamError
| CodeGetServicersPerSessionAtError
| CodeGetBlockHashError
| CodeGetServicerCountError
| CodeEmptyParamKeyError
| CodeEmptyParamValueError
| CodeGetOutputAddressError
| CodeTransactionAlreadyCommittedError
| CodeTransactionNotCommittedError
| CodeInitGenesisParamsError
| CodeGetAllFishermenError
| CodeGetAllServicersError
| CodeGetAllAppsError
| CodeNewPersistenceContextError
| CodeGetAppHashError
| CodeNewSavePointError
| CodeRollbackSavePointError
| CodeResetContextError
| CodeCommitContextError
| CodeReleaseContextError
| CodeGetAllPoolsError
| CodeGetAllAccountsError
| CodeGetAllParamsError
| CodeSetPoolError
| CodeDuplicateSavePointError
| CodeSavePointNotFoundError
| CodeEmptySavePointsError
| CodeInvalidEvidenceTypeError
| CodeExportStateError
| CodeUnequalHeightsError
| CodeSetMissedBlocksError
| CodeNegativeAmountError
| CodeNilQuorumCertificateError
| CodeMissingRequiredArgError
| CodeSocketRequestTimedOutError
| CodeUndefinedSocketTypeError
| CodePeerHangUpError
| CodeUnexpectedSocketError
| CodePayloadTooBigError
| CodeSocketIOStartFailedError
| CodeGetStakeAmountError
| CodeStakeLessError
| CodeGetHeightError
| CodeUnknownActorType
| CodeUnknownMessageType
| CodeProposalBlockNotSet
| CodeHostAlreadyExists
| CodeIBCInvalidID
| CodeIBCInvalidPath
| CodeCreatingProofError
.

#[global] Instance Code_eq_dec : EqDecision Code.
Proof. solve_decision. Defined.

Definition code_number (c : Code) : Z :=
  match c with
  | CodeOK => 0
  | CodeEmptyTransactionError => 2
  | CodeInvalidSignerError => 3
  | CodeDecodeMessageError => 4
  | CodeUnmarshalTransaction => 5
  | CodeUnknownMessageError => 6
  | CodeAppHashError => 7
  | CodeNewPublicKeyFromBytesError => 8
  | CodeNewAddressFromBytesError => 9
  | CodeSignatureVerificationFailedError => 10
  | CodeRetrievingSignableBytesError => 137
  | CodeHexDecodeFromStringError => 11
  | CodeInvalidHashLengthError => 12
  | CodeEmptyNetworkIDError => 13
  | CodeEmptyProposerError => 14
  | CodeEmptyTimestampError => 15
  | CodeInvalidTransactionCountError => 16
  | CodeEmptyAccountError => 17
  | CodeNilPoolError => 18
  | CodeEmptyNameError => 19
  | CodeEmptyAddressError => 20
  | CodeInvalidAddressLenError => 21
  | CodeInvalidNonceError => 22
  | CodeInvalidAmountError => 23
  | CodeProtoMarshalError => 25
  | CodeProtoUnmarshalError => 26
  | CodeProtoNewAnyError => 27
  | CodeProtoFromAnyError => 28
  | CodeNewFeeFromStringError => 29
  | CodeEmptyNonceError => 30
  | CodeEmptyPublicKeyError => 31
  | CodeEmptySignatureError => 32
  | CodeEmptySignatureStructureError => 136
  | CodeDuplicateTransactionError => 35
  | CodeTransactionSignError => 36
  | CodeGetAllValidatorsError => 37
  | CodeInterfaceConversionError => 38
  | CodeGetAccountAmountError => 39
  | CodeStringToBigIntError => 40
  | CodeStringToBigFloatError => 132
  | CodeInsufficientAmountError => 41
  | CodeAddAccountAmountError => 42
  | CodeSetAccountError => 43
  | CodeGetParamError => 44
  | CodeMinimumStakeError => 45
  | CodeEmptyRelayChainError => 46
  | CodeEmptyRelayChainsError => 47
  | CodeInvalidRelayChainLengthError => 48
  | CodeNilOutputAddress => 49
  | CodeInvalidPublicKeyLenError => 50
  | CodeEmptyAmountError => 51
  | CodeMaxChainsError => 52
  | CodeInsertError => 53
  | CodeInvalidStatusError => 54
  | CodeAddPoolAmountError => 55
  | CodeSubPoolAmountError => 56
  | CodeGetStatusError => 57
  | CodeSetUnstakingHeightAndStatusError => 58
  | CodeGetReadyToUnstakeError => 59
  | CodeAlreadyExistsError => 60
  | CodeGetExistsError => 61
  | CodeGetLatestHeightError => 62
  | CodeGetPauseHeightError => 64
  | CodeAlreadyPausedError => 65
  | CodeSetPauseHeightError => 66
  | CodeNotPausedError => 67
  | CodeNotReadyToUnpauseError => 68
  | CodeSetStatusPausedBeforeError => 69
  | CodeInvalidServiceURLError => 70
  | CodeNotExistsError => 71
  | CodeGetMissedBlocksError => 72
  | CodeGetPrevBlockByzantineValidators => 134
  | CodeEmptyHashError => 73
  | CodeInvalidBlockHeightError => 74
  | CodeUnequalPublicKeysError => 75
  | CodeUnequalVoteTypesError => 76
  | CodeEqualVotesError => 77
  | CodeUnequalRoundsError => 78
  | CodeMaxEvidenceAgeError => 79
  | CodeGetStakedAmountError => 80
  | CodeSetValidatorStakedAmountError => 81
  | CodeSetPoolAmountError => 82
  | CodeGetPoolAmountError => 83
  | CodeInvalidProposerCutPercentageError => 84
  | CodeUnknownParamError => 85
  | CodeUnauthorizedParamChangeError => 86
  | CodeInvalidParamValueError => 87
  | CodeUpdateParamError => 88
  | CodeGetServicersPerSessionAtError => 89
  | CodeGetBlockHashError => 90
  | CodeGetServicerCountError => 91
  | CodeEmptyParamKeyError => 92
  | CodeEmptyParamValueError => 93
  | CodeGetOutputAddressError => 94
  | CodeTransactionAlreadyCommittedError => 95
  | CodeTransactionNotCommittedError => 135
  | CodeInitGenesisParamsError => 96
  | CodeGetAllFishermenError => 97
  | CodeGetAllServicersError => 98
  | CodeGetAllAppsError => 99
  | CodeNewPersistenceContextError => 100
  | CodeGetAppHashError => 101
  | CodeNewSavePointError => 102
  | CodeRollbackSavePointError => 103
  | CodeResetContextError => 104
  | CodeCommitContextError => 105
  | CodeReleaseContextError => 106
  | CodeGetAllPoolsError => 107
  | CodeGetAllAccountsError => 108
  | CodeGetAllParamsError => 109
  | CodeSetPoolError => 110
  | CodeDuplicateSavePointError => 111
  | CodeSavePointNotFoundError => 112
  | CodeEmptySavePointsError => 113
  | CodeInvalidEvidenceTypeError => 114
  | CodeExportStateError => 115
  | CodeUnequalHeightsError => 116
  | CodeSetMissedBlocksError => 117
  | CodeNegativeAmountError => 118
  | CodeNilQuorumCertificateError => 119
  | CodeMissingRequiredArgError => 120
  | CodeSocketRequestTimedOutError => 121
  | CodeUndefinedSocketTypeError => 122
  | CodePeerHangUpError => 123
  | CodeUnexpectedSocketError => 124
  | CodePayloadTooBigError => 125
  | CodeSocketIOStartFailedError => 126
  | CodeGetStakeAmountError => 127
  | CodeStakeLessError => 128
  | CodeGetHeightError => 129
  | CodeUnknownActorType => 130
  | CodeUnknownMessageType => 131
  | CodeProposalBlockNotSet => 133
  | CodeHostAlreadyExists => 138
  | CodeIBCInvalidID => 139
  | CodeIBCInvalidPath => 140
  | CodeCreatingProofError => 141
  end.

Definition all_codes : list Code := [
  CodeOK;
  CodeEmptyTransactionError;
  CodeInvalidSignerError;
  CodeDecodeMessageError;
  CodeUnmarshalTransaction;
  CodeUnknownMessageError;
  CodeAppHashError;
  CodeNewPublicKeyFromBytesError;
  CodeNewAddressFromBytesError;
  CodeSignatureVerificationFailedError;
  CodeRetrievingSignableBytesError;
  CodeHexDecodeFromStringError;
  CodeInvalidHashLengthError;
  CodeEmptyNetworkIDError;
  CodeEmptyProposerError;
  CodeEmptyTimestampError;
  CodeInvalidTransactionCountError;
  CodeEmptyAccountError;
  CodeNilPoolError;
  CodeEmptyNameError;
  CodeEmptyAddressError;
  CodeInvalidAddressLenError;
  CodeInvalidNonceError;
  CodeInvalidAmountError;
  CodeProtoMarshalError;
  CodeProtoUnmarshalError;
  CodeProtoNewAnyError;
  CodeProtoFromAnyError;
  CodeNewFeeFromStringError;
  CodeEmptyNonceError;
  CodeEmptyPublicKeyError;
  CodeEmptySignatureError;
  CodeEmptySignatureStructureError;
  CodeDuplicateTransactionError;
  CodeTransactionSignError;
  CodeGetAllValidatorsError;
  CodeInterfaceConversionError;
  CodeGetAccountAmountError;
  CodeStringToBigIntError;
  CodeStringToBigFloatError;
  CodeInsufficientAmountError;
  CodeAddAccountAmountError;
  CodeSetAccountError;
  CodeGetParamError;
  CodeMinimumStakeError;
  CodeEmptyRelayChainError;
  CodeEmptyRelayChainsError;
  CodeInvalidRelayChainLengthError;
  CodeNilOutputAddress;
  CodeInvalidPublicKeyLenError;
  CodeEmptyAmountError;
  CodeMaxChainsError;
  CodeInsertError;
  CodeInvalidStatusError;
  CodeAddPoolAmountError;
  CodeSubPoolAmountError;
  CodeGetStatusError;
  CodeSetUnstakingHeightAndStatusError;
  CodeGetReadyToUnstakeError;
  CodeAlreadyExistsError;
  CodeGetExistsError;
  CodeGetLatestHeightError;
  CodeGetPauseHeightError;
  CodeAlreadyPausedError;
  CodeSetPauseHeightError;
  CodeNotPausedError;
  CodeNotReadyToUnpauseError;
  CodeSetStatusPausedBeforeError;
  CodeInvalidServiceURLError;
  CodeNotExistsError;
  CodeGetMissedBlocksError;
  CodeGetPrevBlockByzantineValidators;
  CodeEmptyHashError;
  CodeInvalidBlockHeightError;
  CodeUnequalPublicKeysError;
  CodeUnequalVoteTypesError;
  CodeEqualVotesError;
  CodeUnequalRoundsError;
  CodeMaxEvidenceAgeError;
  CodeGetStakedAmountError;
  CodeSetValidatorStakedAmountError;
  CodeSetPoolAmountError;
  CodeGetPoolAmountError;
  CodeInvalidProposerCutPercentageError;
  CodeUnknownParamError;
  CodeUnauthorizedParamChangeError;
  CodeInvalidParamValueError;
  CodeUpdateParamError;
  CodeGetServicersPerSessionAtError;
  CodeGetBlockHashError;
  CodeGetServicerCountError;
  CodeEmptyParamKeyError;
  CodeEmptyParamValueError;
  CodeGetOutputAddressError;
  CodeTransactionAlreadyCommittedError;
  CodeTransactionNotCommittedError;
  CodeInitGenesisParamsError;
  CodeGetAllFishermenError;
  CodeGetAllServicersError;
  CodeGetAllAppsError;
  CodeNewPersistenceContextError;
  CodeGetAppHashError;
  CodeNewSavePointError;
  CodeRollbackSavePointError;
  CodeResetContextError;
  CodeCommitContextError;
  CodeReleaseContextError;
  CodeGetAllPoolsError;
  CodeGetAllAccountsError;
  CodeGetAllParamsError;
  CodeSetPoolError;
  CodeDuplicateSavePointError;
  CodeSavePointNotFoundError;
  CodeEmptySavePointsError;
  CodeInvalidEvidenceTypeError;
  CodeExportStateError;
  CodeUnequalHeightsError;
  CodeSetMissedBlocksError;
  CodeNegativeAmountError;
  CodeNilQuorumCertificateError;
  CodeMissingRequiredArgError;
  CodeSocketRequestTimedOutError;
  CodeUndefinedSocketTypeError;
  CodePeerHangUpError;
  CodeUnexpectedSocketError;
  CodePayloadTooBigError;
  CodeSocketIOStartFailedError;
  CodeGetStakeAmountError;
  CodeStakeLessError;
  CodeGetHeightError;
  CodeUnknownActorType;
  CodeUnknownMessageType;
  CodeProposalBlockNotSet;
  CodeHostAlreadyExists;
  CodeIBCInvalidID;
  CodeIBCInvalidPath;
  CodeCreatingProofError].

Record Error := MkError { CodeError : Code; error_text : string }.

#[global] Instance Error_eq_dec : EqDecision Error.
Proof. solve_decision. Defined.

Definition NewError (code : Code) (msg : string) : Error := MkError code msg.

(** The [Error()] method: ["CODE: %v, ERROR: %s"]. *)
Definition Error_string (e : Error) : string :=
  "CODE: " +:+ bigIntText (code_number (CodeError e)) +:+ ", ERROR: " +:+ error_text e.

Definition GetStakedAmountsError : string := "an error occurred getting the validator's amount staked".
Definition SetValidatorStakedAmountError : string := "an error occurred setting the validator' amount staked".
Definition EqualVotesError : string := "the votes are identical and not equivocating".
Definition UnequalRoundsError : string := "the round numbers are not equal".
Definition UnequalVoteTypesError : string := "the vote types are not equal".
Definition UnequalPublicKeysError : string := "the two public keys are not equal".
Definition GetMissedBlocksError : string := "an error occurred getting the missed blocks field".
Definition GetPrevBlockByzantineValidators : string := "an error occurred getting the previous block's byzantine validators".
Definition DecodeMessageError : string := "unable to decode the message".
Definition NotExistsError : string := "the actor does not exist in the state".
Definition InvalidServiceURLError : string := "the service url is not valid".
Definition NotReadyToUnpauseError : string := "the actor isn't ready to unpause as the minimum number of blocks hasn't passed since pausing".
Definition NotPausedError : string := "the actor is not paused".
Definition SetPauseHeightError : string := "an error occurred setting the pause height".
Definition AlreadyPausedError : string := "the actor is already paused".
Definition GetPauseHeightError : string := "an error occurred getting the pause height".
Definition UnmarshalTransactionError : string := "an error occurred decoding the transaction".
Definition AlreadyExistsError : string := "the actor already exists in the state".
Definition GetExistsError : string := "an error occurred when checking if already exists".
Definition GetStakeAmountError : string := "an error occurred getting the stake amount".
Definition StakeLessError : string := "the stake amount cannot be less than current amount".
Definition GetReadyToUnstakeError : string := "an error occurred getting the 'ready to unstake' group".
Definition GetLatestHeightError : string := "an error occurred getting the latest height".
Definition SetUnstakingHeightAndStatus : string := "an error occurred setting the unstaking height and status".
Definition GetStatusError : string := "an error occurred getting the staking status".
Definition InvalidStatusError : string := "the staking status is not valid".
Definition InsertError : string := "an error occurred inserting into persistence".
Definition MaxChainsError : string := "the amount chains exceeds the maximum value".
Definition InvalidPublicKeyLenError : string := "the public key length is not valid".
Definition EmptyAmountError : string := "the amount field is empty".
Definition NilOutputAddressError : string := "the output address is nil".
Definition InvalidRelayChainLengthError : string := "the relay chain id length is invalid".
Definition EmptyRelayChainError : string := "the relay chain id is empty".
Definition EmptyRelayChainsError : string := "the relay chains are nil or empty".
Definition MinimumStakeError : string := "an error occurred because the amount specified is less than the minimum stake".
Definition GetParamError : string := "an error occurred getting the parameter".
Definition SetAccountError : string := "an error occurred setting the account".
Definition AddAccountAmountError : string := "an error occurred adding the amount to the account balance".
Definition AddPoolAmountError : string := "an error occurred adding to the pool".
Definition SubPoolAmountError : string := "an error occurred subtracting from the pool".
Definition SetPoolAmountError : string := "an error occurred setting the pool amount".
Definition GetPoolAmountError : string := "an error occurred getting the pool amount".
Definition InvalidSignerError : string := "the signer of the message is not a proper candidate".
Definition GetAccountAmountError : string := "an error occurred getting the account amount".
Definition UnknownMessageError : string := "the message type is unrecognized".
Definition AppHashError : string := "an error occurred generating the apphash".
Definition InvalidNonceError : string := "the nonce field is invalid; cannot be converted to big.Int".
Definition NewPublicKeyFromBytesError : string := "unable to convert the raw bytes to a valid public key".
Definition SignatureVerificationFailedError : string := "the public key / signature combination is not valid for the msg".
Definition RetrievingSignableBytesError : string := "error retrieving signable bytes".
Definition ProtoFromAnyError : string := "an error occurred getting the structure from the protobuf any".
Definition NewFeeFromStringError : string := "the fee string is unable to be converted to a valid base 10 number".
Definition EmptyNonceError : string := "the nonce in the transaction is empty".
Definition EmptyPublicKeyError : string := "the public key field is empty".
Definition EmptySignatureError : string := "the signature field is empty".
Definition EmptySignatureStructureError : string := "the signature structure is empty".
Definition TransactionSignError : string := "an error occurred signing the transaction".
Definition InterfaceConversionError : string := "an error occurred converting the interface to an expected type: ".
Definition SetStatusPausedBeforeError : string := "an error occurred setting the actor status that were paused before".
Definition EmptyHashError : string := "the hash is empty".
Definition InvalidBlockHeightError : string := "the block height field is not valid".
Definition MaxEvidenceAgeError : string := "the evidence is too old to be processed".
Definition InvalidProposerCutPercentageError : string := "the proposer cut percentage is larger than 100".
Definition UnknownParamError : string := "the param name is not found in the acl".
Definition UnauthorizedParamChangeError : string := "unauthorized param change, the signer must be address: ".
Definition InvalidParamValueError : string := "the param value is not the expected type".
Definition GetBlockHashError : string := "an error occurred getting the block hash".
Definition GetServicersPerSessionAtError : string := "an error occurred getting the servicers per session for height".
Definition GetServicerCountError : string := "an error occurred getting the servicer count".
Definition EmptyParamKeyError : string := "the parameter key is empty".
Definition EmptyParamValueError : string := "the parameter value is empty".
Definition GetOutputAddressError : string := "an error occurred getting the output address using operator".
Definition GetHeightError : string := "an error occurred when getting the height from the store".
Definition TransactionAlreadyCommittedError : string := "the transaction is already committed".
Definition TransactionNotCommittedError : string := "the transaction is not committed".
Definition NewSavePointError : string := "an error occurred creating the save point".
Definition RollbackSavePointError : string := "an error occurred rolling back to save point".
Definition NewPersistenceContextError : string := "an error occurred creating the persistence context".
Definition GetAppHashError : string := "an error occurred getting the appHash".
Definition ResetContextError : string := "an error occurred resetting the context".
Definition CommitContextError : string := "an error occurred committing the context".
Definition ReleaseContextError : string := "an error occurred releasing the context".
Definition SetPoolError : string := "an error occurred setting the pool".
Definition DuplicateSavePointError : string := "the save point is duplicated".
Definition SavePointNotFoundError : string := "the save point is not found".
Definition EmptySavePointsError : string := "the save points list in context is empty".
Definition InvalidEvidenceTypeError : string := "the evidence type is not valid".
Definition ExportStateError : string := "an error occurred exporting the state".
Definition UnequalHeightsError : string := "the heights are not equal".
Definition SetMissedBlocksError : string := "an error occurred setting missed blocks".
Definition MissingRequiredArgError : string := "socket error: missing required argument.".
Definition SocketRequestTimedOutError : string := "socket error: request timed out while waiting on ACK.".
Definition UndefinedSocketTypeError : string := "socket error: undefined given socket type.".
Definition PeerHangUpError : string := "socket error: Peer hang up.".
Definition UnexpectedSocketError : string := "socket error: Unexpected peer error.".
Definition PayloadTooBigError : string := "socket error: payload size is too big. ".
Definition SocketIOStartFailedError : string := "socket error: failed to start socket reading/writing (io)".
Definition EmptyTransactionError : string := "the transaction is empty".
Definition StringToBigIntError : string := "error converting string to big int".
Definition StringToBigFloatError : string := "error converting string to big float".
Definition GetAllValidatorsError : string := "an error occurred getting all validators from the state".
Definition InvalidAmountError : string := "the amount field is invalid; cannot be converted to big.Int".
Definition InvalidAddressLenError : string := "the length of the address is not valid".
Definition EmptyAddressError : string := "the address field is empty".
Definition EmptyNameError : string := "the name field is empty".
Definition NilPoolError : string := "the pool is nil".
Definition EmptyAccountError : string := "the account is nil".
Definition NewAddressFromBytesError : string := "unable to convert the raw bytes to a valid address".
Definition InvalidTransactionCountError : string := "the total transactions are less than the block transactions".
Definition EmptyTimestampError : string := "the timestamp field is empty".
Definition EmptyProposerError : string := "the proposer field is empty".
Definition ProposalBlockNotSet : string := "the proposal block is not set".
Definition EmptyNetworkIDError : string := "the network id field is empty".
Definition InvalidHashLengthError : string := "the length of the hash is not the correct size".
Definition NilQuorumCertificateError : string := "the quorum certificate is nil".
Definition HexDecodeFromStringError : string := "an error occurred decoding the string into hex bytes".
Definition ProtoMarshalError : string := "an error occurred marshalling the structure in protobuf".
Definition ProtoUnmarshalError : string := "an error occurred unmarshalling the structure in protobuf".
Definition ProtoNewAnyError : string := "an error occurred creating the protobuf any".
Definition UpdateParamError : string := "an error occurred updating the parameter".
Definition InitGenesisParamError : string := "an error occurred initializing the params in genesis".
Definition GetAllFishermenError : string := "an error occurred getting all of the fishermen¬".
Definition GetAllAppsError : string := "an error occurred getting all of the apps".
Definition GetAllServicersError : string := "an error occurred getting all of the servicers".
Definition GetAllPoolsError : string := "an error occurred getting all of the pools".
Definition GetAllAccountsError : string := "an error occurred getting all of the accounts".
Definition GetAllParamsError : string := "an error occurred getting all of the params".
Definition DuplicateTransactionError : string := "the transaction is already found in the mempool".
Definition InsufficientAmountError : string := "the account has insufficient funds to complete the operation".
Definition NegativeAmountError : string := "the amount is negative".
Definition UnknownActorTypeError : string := "the actor type is not recognized".
Definition UnknownMessageTypeError : string := "the message being by the utility message is not recognized".
Definition HostAlreadyExistsError : string := "an ibc host already exists".
Definition IBCInvalidIDError : string := "invalid ibc identifier".
Definition IBCInvalidPathError : string := "invalid ibc path".
Definition CreatingProofError : string := "an error occurred creating the CommitmentProof".

(** ** Errors of the crypto package (plain Go errors, represented by their text) *)
Module Crypto.
Definition InvalidAddressLenError : string := "the address length is not valid".
Definition InvalidHashLenError : string := "the hash length is not valid".
Definition CreateAddressError : string := "an error occurred creating the address".
Definition InvalidPrivateKeyLenError : string := "the private key length is not valid".
Definition InvalidPrivateKeySeedLenError : string := "the seed is too short to create a private key".
Definition CreatePrivateKeyError : string := "an error occurred creating the private key".
Definition InvalidPublicKeyLenError : string := "the public key length is not valid".
Definition CreatePublicKeyError : string := "an error occurred creating the public key".
Definition decodePrivateKeyError : string := "decoding private key".
Definition AddressLen : Z := 20.
Definition SHA3HashLen : Z := 32.
Definition PublicKeySize : Z := 32.
Definition PrivateKeySize : Z := 64.
Definition SeedSize : Z := 32.
Definition ErrInvalidAddressLen (length : Z) : string :=
  InvalidAddressLenError +:+ ", expected length " +:+ bigIntText AddressLen +:+ ", actual length " +:+ bigIntText length.
Definition ErrInvalidHashLen (length : Z) : string :=
  InvalidHashLenError +:+ ", expected length " +:+ bigIntText SHA3HashLen +:+ ", actual length " +:+ bigIntText length.
Definition ErrCreateAddress (err : string) : string :=
  CreateAddressError +:+ "; " +:+ err.
Definition ErrInvalidPrivateKeyLen (length : Z) : string :=
  InvalidPrivateKeyLenError +:+ ", expected length " +:+ bigIntText PrivateKeySize +:+ ", actual length " +:+ bigIntText length.
Definition ErrInvalidPrivateKeySeedLenError (seedLen : Z) : string :=
  InvalidPrivateKeySeedLenError +:+ ", expected length " +:+ bigIntText SeedSize +:+ ", actual length " +:+ bigIntText seedLen.
Definition ErrCreatePrivateKey (err : string) : string :=
  CreatePrivateKeyError +:+ "; " +:+ err.
Definition ErrInvalidPublicKeyLen (length : Z) : string :=
  InvalidPublicKeyLenError +:+ ", expected length " +:+ bigIntText PublicKeySize +:+ ", actual length: " +:+ bigIntText length.
Definition ErrCreatePublicKey (err : string) : string :=
  CreatePublicKeyError +:+ "; " +:+ err.
Definition errDecodePrivateKey (err : string) : string :=
  decodePrivateKeyError +:+ "; " +:+ err.
End Crypto.

(** ** Constructors *)
Definition ErrUnknownParam (paramName : string) : Error :=
  NewError CodeUnknownParamError (UnknownParamError +:+ ": " +:+ paramName).
Definition ErrUnequalPublicKeys : Error :=
  NewError CodeUnequalPublicKeysError UnequalPublicKeysError.
Definition ErrEqualVotes : Error :=
  NewError CodeEqualVotesError EqualVotesError.
Definition ErrUnequalVoteTypes : Error :=
  NewError CodeUnequalVoteTypesError UnequalVoteTypesError.
Definition ErrUnequalHeights : Error :=
  NewError CodeUnequalHeightsError UnequalHeightsError.
Definition ErrUnequalRounds : Error :=
  NewError CodeUnequalRoundsError UnequalRoundsError.
Definition ErrInvalidServiceURL (reason : string) : Error :=
  NewError CodeInvalidServiceURLError (InvalidServiceURLError +:+ ": " +:+ reason).
Definition ErrSetPauseHeight (err : string) : Error :=
  NewError CodeSetPauseHeightError (SetPauseHeightError +:+ ": " +:+ err).
Definition ErrGetServicersPerSessionAt (height : Z) (err : string) : Error :=
  NewError CodeGetServicersPerSessionAtError (GetServicersPerSessionAtError +:+ ": " +:+ bigIntText height +:+ "; " +:+ err).
Definition ErrGetServicerCount (chain : string) (height : Z) (err : string) : Error :=
  NewError CodeGetServicerCountError (GetServicerCountError +:+ ": " +:+ chain +:+ "/" +:+ bigIntText height +:+ " " +:+ err).
Definition ErrEmptyParamKey : Error :=
  NewError CodeEmptyParamKeyError EmptyParamKeyError.
Definition ErrEmptyParamValue : Error :=
  NewError CodeEmptyParamValueError EmptyParamValueError.
Definition ErrGetOutputAddress (operator : bytes) (err : string) : Error :=
  NewError CodeGetOutputAddressError (GetOutputAddressError +:+ ": " +:+ hexEncode operator +:+ "; " +:+ err).
Definition ErrGetHeight (err : string) : Error :=
  NewError CodeGetHeightError (GetHeightError +:+ ":" +:+ err).
Definition ErrGetMissedBlocks (err : string) : Error :=
  NewError CodeGetMissedBlocksError (GetMissedBlocksError +:+ ": " +:+ err).
Definition ErrGetPrevBlockByzantineValidators (err : string) : Error :=
  NewError CodeGetPrevBlockByzantineValidators (GetPrevBlockByzantineValidators +:+ ": " +:+ err).
Definition ErrGetStakedTokens (err : string) : Error :=
  NewError CodeGetStakedAmountError GetStakedAmountsError.
Definition ErrSetValidatorStakedAmount (err : string) : Error :=
  NewError CodeSetValidatorStakedAmountError SetValidatorStakedAmountError.
Definition ErrGetExists (err : string) : Error :=
  NewError CodeGetExistsError (GetExistsError +:+ ": " +:+ err).
Definition ErrGetStakeAmount (err : string) : Error :=
  NewError CodeGetStakeAmountError (GetStakeAmountError +:+ ": " +:+ err).
Definition ErrStakeLess : Error :=
  NewError CodeStakeLessError StakeLessError.
Definition ErrSetMissedBlocks (err : string) : Error :=
  NewError CodeSetMissedBlocksError (SetMissedBlocksError +:+ ": " +:+ err).
Definition ErrUnmarshalTransaction (err : string) : Error :=
  NewError CodeUnmarshalTransaction (UnmarshalTransactionError +:+ ": " +:+ err).
Definition ErrAlreadyExists : Error :=
  NewError CodeAlreadyExistsError AlreadyExistsError.
Definition ErrNotExists : Error :=
  NewError CodeNotExistsError NotExistsError.
Definition ErrNilOutputAddress : Error :=
  NewError CodeNilOutputAddress NilOutputAddressError.
Definition ErrEmptyRelayChains : Error :=
  NewError CodeEmptyRelayChainsError EmptyRelayChainsError.
Definition ErrInvalidRelayChainLength (got : Z) (expected : Z) : Error :=
  NewError CodeInvalidRelayChainLengthError InvalidRelayChainLengthError.
Definition ErrEmptyRelayChain : Error :=
  NewError CodeEmptyRelayChainError EmptyRelayChainError.
Definition ErrMinimumStake : Error :=
  NewError CodeMinimumStakeError MinimumStakeError.
Definition ErrGetParam (paramName : string) (err : string) : Error :=
  NewError CodeGetParamError (GetParamError +:+ ": " +:+ paramName +:+ ", " +:+ err).
Definition ErrUnauthorizedParamChange (owner : bytes) : Error :=
  NewError CodeUnauthorizedParamChangeError (UnauthorizedParamChangeError +:+ ": " +:+ hexEncode owner).
Definition ErrInvalidSigner (address : string) : Error :=
  NewError CodeInvalidSignerError (InvalidSignerError +:+ ": " +:+ address).
Definition ErrMaxChains (maxChains : Z) : Error :=
  NewError CodeMaxChainsError (MaxChainsError +:+ ": " +:+ bigIntText maxChains).
Definition ErrAlreadyPaused : Error :=
  NewError CodeAlreadyPausedError AlreadyPausedError.
Definition ErrNotPaused : Error :=
  NewError CodeNotPausedError NotPausedError.
Definition ErrNotReadyToUnpause : Error :=
  NewError CodeNotReadyToUnpauseError NotReadyToUnpauseError.
Definition ErrUnknownStatus (status : Z) : Error :=
  NewError CodeInvalidStatusError (InvalidStatusError +:+ ": unknown status " +:+ bigIntText status).
Definition ErrInvalidStatus (got : Z) (expected : Z) : Error :=
  NewError CodeInvalidStatusError (InvalidStatusError +:+ ": " +:+ bigIntText got +:+ " expected " +:+ bigIntText expected).
Definition ErrInsert (err : string) : Error :=
  NewError CodeInsertError (InsertError +:+ ": " +:+ err).
Definition ErrGetReadyToUnstake (err : string) : Error :=
  NewError CodeGetReadyToUnstakeError (GetReadyToUnstakeError +:+ ": " +:+ err).
Definition ErrSetStatusPausedBefore (err : string) (beforeHeight : Z) : Error :=
  NewError CodeSetStatusPausedBeforeError (SetStatusPausedBeforeError +:+ ": " +:+ bigIntText beforeHeight +:+ " " +:+ err).
Definition ErrGetStatus (err : string) : Error :=
  NewError CodeGetStatusError (GetStatusError +:+ ": " +:+ err).
Definition ErrGetPauseHeight (err : string) : Error :=
  NewError CodeGetPauseHeightError (GetPauseHeightError +:+ ": " +:+ err).
Definition ErrSetUnstakingHeightAndStatus (err : string) : Error :=
  NewError CodeSetUnstakingHeightAndStatusError (SetUnstakingHeightAndStatus +:+ ": " +:+ err).
Definition ErrGetLatestHeight (err : string) : Error :=
  NewError CodeGetLatestHeightError (GetLatestHeightError +:+ ": " +:+ err).
Definition ErrUnknownMessage (msg : string) : Error :=
  NewError CodeUnknownMessageError (UnknownMessageError +:+ ": " +:+ msg).
Definition ErrGetAccountAmount (err : string) : Error :=
  NewError CodeGetAccountAmountError (GetAccountAmountError +:+ ": " +:+ err).
Definition ErrAddAccountAmount (err : string) : Error :=
  NewError CodeAddAccountAmountError (AddAccountAmountError +:+ ": " +:+ err).
Definition ErrAddPoolAmount (address : bytes) (err : string) : Error :=
  NewError CodeAddPoolAmountError (AddPoolAmountError +:+ ": pool: " +:+ hexEncode address +:+ ", " +:+ err).
Definition ErrSubPoolAmount (address : bytes) (err : string) : Error :=
  NewError CodeSubPoolAmountError (SubPoolAmountError +:+ ": pool: " +:+ hexEncode address +:+ ", " +:+ err).
Definition ErrSetPoolAmount (address : bytes) (err : string) : Error :=
  NewError CodeSetPoolAmountError (SetPoolAmountError +:+ ": pool: " +:+ hexEncode address +:+ ", " +:+ err).
Definition ErrSetPool (address : bytes) (err : string) : Error :=
  NewError CodeSetPoolError (SetPoolError +:+ ": pool: " +:+ hexEncode address +:+ ", " +:+ err).
Definition ErrGetPoolAmount (address : bytes) (err : string) : Error :=
  NewError CodeGetPoolAmountError (GetPoolAmountError +:+ ": pool: " +:+ hexEncode address +:+ ", " +:+ err).
Definition ErrSetAccountAmount (err : string) : Error :=
  NewError CodeSetAccountError (SetAccountError +:+ ", " +:+ err).
Definition ErrInterfaceConversion (got : string) (expected : string) : Error :=
  NewError CodeInterfaceConversionError (InterfaceConversionError +:+ ": " +:+ got +:+ ", expected " +:+ expected).
Definition ErrAppHash (err : string) : Error :=
  NewError CodeAppHashError (AppHashError +:+ ": " +:+ err).
Definition ErrGetBlockHash (err : string) : Error :=
  NewError CodeGetBlockHashError (GetBlockHashError +:+ ": " +:+ err).
Definition ErrInvalidPublicKeyLen (pubKeyLen : Z) : Error :=
  NewError CodeInvalidPublicKeyLenError (InvalidPublicKeyLenError +:+ ": " +:+ Crypto.ErrInvalidPublicKeyLen pubKeyLen).
Definition ErrInvalidNonce : Error :=
  NewError CodeInvalidNonceError InvalidNonceError.
Definition ErrNewPublicKeyFromBytes (err : string) : Error :=
  NewError CodeNewPublicKeyFromBytesError (NewPublicKeyFromBytesError +:+ ": " +:+ err).
Definition ErrInvalidProposerCutPercentage : Error :=
  NewError CodeInvalidProposerCutPercentageError InvalidProposerCutPercentageError.
Definition ErrMaxEvidenceAge : Error :=
  NewError CodeMaxEvidenceAgeError MaxEvidenceAgeError.
Definition ErrInvalidBlockHeight : Error :=
  NewError CodeInvalidBlockHeightError InvalidBlockHeightError.
Definition ErrInvalidEvidenceType : Error :=
  NewError CodeInvalidEvidenceTypeError InvalidEvidenceTypeError.
Definition ErrExportState (err : string) : Error :=
  NewError CodeExportStateError (ExportStateError +:+ ": " +:+ err).
Definition ErrNewFeeFromString (fee : string) : Error :=
  NewError CodeNewFeeFromStringError (NewFeeFromStringError +:+ ": " +:+ fee).
Definition ErrEmptyNonce : Error :=
  NewError CodeEmptyNonceError EmptyNonceError.
Definition ErrEmptyPublicKey : Error :=
  NewError CodeEmptyPublicKeyError EmptyPublicKeyError.
Definition ErrEmptyHash : Error :=
  NewError CodeEmptyHashError EmptyHashError.
Definition ErrEmptyAmount : Error :=
  NewError CodeEmptyAmountError EmptyAmountError.
Definition ErrEmptySignature : Error :=
  NewError CodeEmptySignatureError EmptySignatureError.
Definition ErrEmptySignatureStructure : Error :=
  NewError CodeEmptySignatureStructureError EmptySignatureStructureError.
Definition ErrSignatureVerificationFailed : Error :=
  NewError CodeSignatureVerificationFailedError SignatureVerificationFailedError.
Definition ErrRetrievingSignableBytes (err : string) : Error :=
  NewError CodeRetrievingSignableBytesError (RetrievingSignableBytesError +:+ ": " +:+ err).
Definition ErrDecodeMessage (err : string) : Error :=
  NewError CodeDecodeMessageError (DecodeMessageError +:+ ": " +:+ err).
Definition ErrProtoFromAny (err : string) : Error :=
  NewError CodeProtoFromAnyError (ProtoFromAnyError +:+ ": " +:+ err).
Definition ErrTransactionAlreadyCommitted : Error :=
  NewError CodeTransactionAlreadyCommittedError TransactionAlreadyCommittedError.
Definition ErrTransactionNotCommitted : Error :=
  NewError CodeTransactionNotCommittedError TransactionNotCommittedError.
Definition ErrTransactionSign (err : string) : Error :=
  NewError CodeTransactionSignError (TransactionSignError +:+ ": " +:+ err).
Definition ErrInvalidParamValue (got : string) (expected : string) : Error :=
  NewError CodeInvalidParamValueError (InvalidParamValueError +:+ ": got " +:+ got +:+ " expected " +:+ expected).
Definition ErrNewSavePoint (err : string) : Error :=
  NewError CodeNewSavePointError (NewSavePointError +:+ ": " +:+ err).
Definition ErrRollbackSavePoint (err : string) : Error :=
  NewError CodeRollbackSavePointError (RollbackSavePointError +:+ ": " +:+ err).
Definition ErrNewPersistenceContext (err : string) : Error :=
  NewError CodeNewPersistenceContextError (NewPersistenceContextError +:+ ": " +:+ err).
Definition ErrGetAppHash (err : string) : Error :=
  NewError CodeGetAppHashError (GetAppHashError +:+ ": " +:+ err).
Definition ErrResetContext (err : string) : Error :=
  NewError CodeResetContextError (ResetContextError +:+ ": " +:+ err).
Definition ErrDuplicateSavePoint : Error :=
  NewError CodeDuplicateSavePointError DuplicateSavePointError.
Definition ErrEmptySavePoints : Error :=
  NewError CodeEmptySavePointsError EmptySavePointsError.
Definition ErrSavePointNotFound : Error :=
  NewError CodeSavePointNotFoundError SavePointNotFoundError.
Definition ErrCommitContext (err : string) : Error :=
  NewError CodeCommitContextError (CommitContextError +:+ ": " +:+ err).
Definition ErrReleaseContext (err : string) : Error :=
  NewError CodeReleaseContextError (ReleaseContextError +:+ ": " +:+ err).
Definition ErrMissingRequiredArg (value : string) : Error :=
  NewError CodeMissingRequiredArgError (MissingRequiredArgError +:+ ": " +:+ value).
Definition ErrSocketRequestTimedOut (addr : string) (nonce : Z) : Error :=
  NewError CodeSocketRequestTimedOutError (SocketRequestTimedOutError +:+ ": " +:+ addr +:+ ", " +:+ bigIntText nonce).
Definition ErrUndefinedSocketType (socketType : string) : Error :=
  NewError CodeUndefinedSocketTypeError (UndefinedSocketTypeError +:+ ": " +:+ socketType).
Definition ErrPeerHangUp (err : string) : Error :=
  NewError CodePeerHangUpError (PeerHangUpError +:+ ": " +:+ err).
Definition ErrUnexpected (err : string) : Error :=
  NewError CodeUnexpectedSocketError (UnexpectedSocketError +:+ ": " +:+ err).
Definition ErrPayloadTooBig (bodyLength : Z) (acceptedLength : Z) : Error :=
  NewError CodePayloadTooBigError (PayloadTooBigError +:+ ": payload length: " +:+ bigIntText bodyLength +:+ ", accepted length: " +:+ bigIntText acceptedLength).
Definition ErrSocketIOStartFailed (socketType : string) : Error :=
  NewError CodeSocketIOStartFailedError (SocketIOStartFailedError +:+ ": (" +:+ socketType +:+ " socket)").
Definition ErrDuplicateTransaction : Error :=
  NewError CodeDuplicateTransactionError DuplicateTransactionError.
Definition ErrStringToBigInt (err : string) : Error :=
  NewError CodeStringToBigIntError (StringToBigIntError +:+ ": " +:+ err).
Definition ErrStringToBigFloat (err : string) : Error :=
  NewError CodeStringToBigFloatError (StringToBigFloatError +:+ ": " +:+ err).
Definition ErrInsufficientAmount (address : string) : Error :=
  NewError CodeInsufficientAmountError (InsufficientAmountError +:+ ": with address " +:+ address).
Definition ErrNegativeAmountError : Error :=
  NewError CodeNegativeAmountError NegativeAmountError.
Definition ErrGetAllValidators (err : string) : Error :=
  NewError CodeGetAllValidatorsError (GetAllValidatorsError +:+ ": " +:+ err).
Definition ErrGetAllFishermen (err : string) : Error :=
  NewError CodeGetAllFishermenError (GetAllFishermenError +:+ ": " +:+ err).
Definition ErrGetAllApps (err : string) : Error :=
  NewError CodeGetAllAppsError (GetAllAppsError +:+ ": " +:+ err).
Definition ErrGetAllServicers (err : string) : Error :=
  NewError CodeGetAllServicersError (GetAllServicersError +:+ ": " +:+ err).
Definition ErrGetAllPools (err : string) : Error :=
  NewError CodeGetAllPoolsError (GetAllPoolsError +:+ ": " +:+ err).
Definition ErrGetAllAccounts (err : string) : Error :=
  NewError CodeGetAllAccountsError (GetAllAccountsError +:+ ": " +:+ err).
Definition ErrGetAllParams (err : string) : Error :=
  NewError CodeGetAllParamsError (GetAllParamsError +:+ ": " +:+ err).
Definition ErrHexDecodeFromString (err : string) : Error :=
  NewError CodeHexDecodeFromStringError (HexDecodeFromStringError +:+ ": " +:+ err).
Definition ErrEmptyAccount : Error :=
  NewError CodeEmptyAccountError EmptyAccountError.
Definition ErrEmptyAddress : Error :=
  NewError CodeEmptyAddressError EmptyAddressError.
Definition ErrInvalidAddressLen (err : string) : Error :=
  NewError CodeInvalidAddressLenError (InvalidAddressLenError +:+ ": " +:+ err).
Definition ErrInvalidAmount : Error :=
  NewError CodeInvalidAmountError InvalidAmountError.
Definition ErrEmptyName : Error :=
  NewError CodeEmptyNameError EmptyNameError.
Definition ErrNilPool : Error :=
  NewError CodeNilPoolError NilPoolError.
Definition ErrEmptyNetworkID : Error :=
  NewError CodeEmptyNetworkIDError EmptyNetworkIDError.
Definition ErrEmptyProposer : Error :=
  NewError CodeEmptyProposerError EmptyProposerError.
Definition ErrProposalBlockNotSet : Error :=
  NewError CodeProposalBlockNotSet ProposalBlockNotSet.
Definition ErrEmptyTimestamp : Error :=
  NewError CodeEmptyTimestampError EmptyTimestampError.
Definition ErrInvalidTransactionCount : Error :=
  NewError CodeInvalidTransactionCountError InvalidTransactionCountError.
Definition ErrInvalidHashLength (hashLen : Z) : Error :=
  NewError CodeInvalidHashLengthError (InvalidHashLengthError +:+ ": " +:+ Crypto.ErrInvalidHashLen hashLen).
Definition ErrNilQuorumCertificate : Error :=
  NewError CodeNilQuorumCertificateError NilQuorumCertificateError.
Definition ErrNewAddressFromBytes (err : string) : Error :=
  NewError CodeNewAddressFromBytesError (NewAddressFromBytesError +:+ ": " +:+ err).
Definition ErrProtoMarshal (err : string) : Error :=
  NewError CodeProtoMarshalError (ProtoMarshalError +:+ ": " +:+ err).
Definition ErrProtoUnmarshal (err : string) : Error :=
  NewError CodeProtoUnmarshalError (ProtoUnmarshalError +:+ ": " +:+ err).
Definition ErrProtoNewAny (err : string) : Error :=
  NewError CodeProtoNewAnyError (ProtoNewAnyError +:+ ": " +:+ err).
Definition ErrUpdateParam (err : string) : Error :=
  NewError CodeUpdateParamError (UpdateParamError +:+ ": " +:+ err).
Definition ErrInitGenesisParams (err : string) : Error :=
  NewError CodeInitGenesisParamsError (InitGenesisParamError +:+ ": " +:+ err).
Definition ErrUnknownActorType (actorType : string) : Error :=
  NewError CodeUnknownActorType (UnknownActorTypeError +:+ ": " +:+ actorType).
Definition ErrUnknownMessageType (messageType : string) : Error :=
  NewError CodeUnknownMessageType (UnknownMessageTypeError +:+ ": " +:+ messageType).
Definition ErrHostAlreadyExists : Error :=
  NewError CodeHostAlreadyExists HostAlreadyExistsError.
Definition ErrIBCInvalidID (identifier : string) (msg : string) : Error :=
  NewError CodeIBCInvalidID (IBCInvalidIDError +:+ ": " +:+ identifier +:+ " (" +:+ msg +:+ ")").
Definition ErrIBCInvalidPath (path : string) : Error :=
  NewError CodeIBCInvalidPath (IBCInvalidPathError +:+ ": " +:+ path).
Definition ErrCreatingProof (err : string) : Error :=
  NewError CodeCreatingProofError (CreatingProofError +:+ ": " +:+ err).
