(* ===== verification/Crypto.v ===== *)
(** Keys, addresses and hashes (src/shared/crypto/ed25519.go, keys.go, sha3.go).

    The primitives themselves (SHA3-256, SHA-256, Ed25519) are library code: they are the
    operations of the class [CryptoPrims], and what the callers rely on is stated by
    [CryptoLaws].  Keys and addresses are byte sequences, as in the source.  The text of an
    error returned by [encoding/hex] is not reproduced ([hexErrorText]); nothing depends on it. *)

From S2P Require Import Prelude GoStd Errors.

Class CryptoPrims := {
  sha3_256 : bytes -> bytes;
  sha256 : bytes -> bytes;
  ed25519_public : bytes -> bytes;
  ed25519_sign : bytes -> bytes -> bytes;
  ed25519_verify : bytes -> bytes -> bytes -> bool;
  ed25519_newKeyFromSeed : bytes -> bytes;
}.

(** Documented behaviour of the primitives. *)
Class CryptoLaws (CP : CryptoPrims) : Prop := {
  sha3_256_length : forall b, blen (sha3_256 b) = 32;
  sha256_length : forall b, blen (sha256 b) = 32;
  ed25519_public_length : forall sk, blen sk = 64 -> blen (ed25519_public sk) = 32;
  ed25519_sign_verify : forall sk m, blen sk = 64 -> ed25519_verify (ed25519_public sk) m (ed25519_sign sk m) = true;
  ed25519_seed_length : forall seed, blen seed = 32 -> blen (ed25519_newKeyFromSeed seed) = 64;
}.

Definition hexErrorText : string := "encoding/hex: invalid input"%string.

Section crypto.
Context `{CryptoPrims}.

Definition SHA3Hash (b : bytes) : bytes := sha3_256 b.
Definition GetHashStringFromBytes (b : bytes) : string := hexEncode (SHA3Hash b).

(** *** Addresses *)
Definition NewAddressFromBytes (b : bytes) : res string bytes :=
  if bool_decide (blen b ≠ Crypto.AddressLen) then Err (Crypto.ErrInvalidAddressLen (blen b)) else Ok b.

Definition NewAddress (hexString : string) : res string bytes :=
  match hexDecode hexString with
  | None => Err (Crypto.ErrCreateAddress hexErrorText)
  | Some b => NewAddressFromBytes b
  end.

Definition Address_String (a : bytes) : string := hexEncode a.

(** [log.Fatal] on malformed input. *)
Definition AddressFromString (s : string) : res string bytes :=
  match hexDecode s with Some b => Ok b | None => Panic end.

(** *** Private keys *)
Definition NewPrivateKeyFromBytes (b : bytes) : res string bytes :=
  if bool_decide (blen b ≠ Crypto.PrivateKeySize) then Err (Crypto.ErrInvalidPrivateKeyLen (blen b)) else Ok b.

Definition NewPrivateKey (hexString : string) : res string bytes :=
  match hexDecode hexString with
  | None => Err (Crypto.ErrCreatePrivateKey hexErrorText)
  | Some b => NewPrivateKeyFromBytes b
  end.

Definition NewPrivateKeyFromSeed (seed : bytes) : res string bytes :=
  if bool_decide (blen seed < Crypto.SeedSize) then Err (Crypto.ErrInvalidPrivateKeySeedLenError (blen seed))
  else Ok (ed25519_newKeyFromSeed (String.substring 0 32 seed)).

Definition PrivateKey_PublicKey (sk : bytes) : bytes := ed25519_public sk.
Definition PrivateKey_Sign (sk msg : bytes) : bytes := ed25519_sign sk msg.

(** *** Public keys *)
Definition NewPublicKeyFromBytes (b : bytes) : res string bytes :=
  if bool_decide (blen b ≠ Crypto.PublicKeySize) then Err (Crypto.ErrInvalidPublicKeyLen (blen b)) else Ok b.

Definition NewPublicKey (hexString : string) : res string bytes :=
  match hexDecode hexString with
  | None => Err (Crypto.ErrCreatePublicKey hexErrorText)
  | Some b => NewPublicKeyFromBytes b
  end.

Definition PublicKey_String (pk : bytes) : string := hexEncode pk.
Definition PublicKey_Address (pk : bytes) : bytes := String.substring 0 20 (sha256 pk).
Definition PublicKey_Verify (pk msg sig : bytes) : bool := ed25519_verify pk msg sig.
Definition PrivateKey_Address (sk : bytes) : bytes := PublicKey_Address (PrivateKey_PublicKey sk).

End crypto.

Lemma substring_length n s : (n <= String.length s)%nat -> String.length (String.substring 0 n s) = n.
Proof.
  revert n. induction s as [|c s IH]; intros [|n] Hn; cbn in *; try lia.
  rewrite IH; lia.
Qed.

Section crypto_facts.
Context `{CL : CryptoLaws}.

Lemma address_length pk : blen (PublicKey_Address pk) = Crypto.AddressLen.
Proof.
  unfold PublicKey_Address, blen, Crypto.AddressLen. pose proof (sha256_length pk) as Hl. unfold blen in Hl.
  rewrite substring_length; lia.
Qed.

(** Text round trip of addresses of the right length. *)
Lemma NewAddress_String a : blen a = Crypto.AddressLen -> NewAddress (Address_String a) = Ok a.
Proof.
  intros Ha. unfold NewAddress, Address_String, NewAddressFromBytes. rewrite hex_decode_encode.
  by rewrite bool_decide_eq_false_2 by (intros Hn; by apply Hn).
Qed.

Lemma NewPublicKey_String pk : blen pk = Crypto.PublicKeySize -> NewPublicKey (PublicKey_String pk) = Ok pk.
Proof.
  intros Ha. unfold NewPublicKey, PublicKey_String, NewPublicKeyFromBytes. rewrite hex_decode_encode.
  by rewrite bool_decide_eq_false_2 by (intros Hn; by apply Hn).
Qed.

Lemma hash_string_length b : String.length (GetHashStringFromBytes b) = 64%nat.
Proof.
  unfold GetHashStringFromBytes, SHA3Hash. rewrite hexEncode_length.
  pose proof (sha3_256_length b) as Hl. unfold blen in Hl. lia.
Qed.
End crypto_facts.

(** A concrete instance of the primitives that satisfies the laws; it is only used to show
    that they can hold together. *)
Module ToyCrypto.
Fixpoint pad (n : nat) (s : bytes) : bytes :=
  match n with
  | O => EmptyString
  | S n' => match s with
            | EmptyString => String (Ascii.ascii_of_nat 48) (pad n' EmptyString)
            | String c s' => String c (pad n' s')
            end
  end.

#[local] Instance prims : CryptoPrims := {|
  sha3_256 := pad 32;
  sha256 := pad 32;
  ed25519_public := pad 32;
  ed25519_sign sk m := (pad 32 sk +:+ m)%string;
  ed25519_verify pk m sig := bool_decide (sig = (pk +:+ m)%string);
  ed25519_newKeyFromSeed := pad 64;
|}.

Lemma pad_length n s : String.length (pad n s) = n.
Proof. revert s. induction n as [|n IH]; intros [|c s]; cbn; by rewrite ?IH. Qed.

#[local] Instance laws : CryptoLaws prims.
Proof.
  constructor; intros; cbn [sha3_256 sha256 ed25519_public ed25519_newKeyFromSeed ed25519_verify prims];
    try (unfold blen; by rewrite pad_length).
  by apply bool_decide_eq_true_2.
Qed.
End ToyCrypto.
