(* ===== verification/FifoSet.v ===== *)
(** Insertion-ordered set used by the transaction mempool
    (src/shared/mempool/generic_fifo_set.go).

    [GenericFIFOSet] pairs a Go map used as a set of indices with a
    doubly-linked list of items.  The hooks installed by the options
    ([onAdd], [onRemove], [isOverflowing], [onCollision]) close over the state of
    the owner of the set; that state is the type parameter [C] here and every
    operation threads it.  Mutexes serialise the operations, so an execution is a
    sequence of them. *)

From S2P Require Import Prelude.

Inductive FifoError (E : Type) : Type :=
| ItemAlreadyExists
| EmptySet
| CollisionError (e : E).
Arguments ItemAlreadyExists {E}.
Arguments EmptySet {E}.
Arguments CollisionError {E} e.

Module FIFOSet.
Section ops.
Context {TIdx TData C E : Type} `{Countable TIdx}.

Record GenericFIFOSet := {
  set : gset TIdx;
  queue : list TData;
  capacity : Z;
}.

Record Options := {
  indexerFn : TData -> TIdx;
  isOverflowing : option (GenericFIFOSet -> C -> bool);
  onAdd : TData -> C -> C;
  onRemove : TData -> C -> C;
  onCollision : option (TData -> option (FifoError E));
}.

(** The default [isOverflowing]. *)
Definition overCapacity (g : GenericFIFOSet) (_ : C) : bool :=
  bool_decide (capacity g < Z.of_nat (length (queue g))).

(** The default [onAdd] and [onRemove]. *)
Definition noop (_ : TData) (c : C) : C := c.

(** The default [onCollision]. *)
Definition itemAlreadyExistsError (_ : TData) : option (FifoError E) := Some ItemAlreadyExists.

(** The fields a set starts with before the options are applied; the default
    indexer is the identity, so the indexer is a parameter here. *)
Definition defaultOptions (indexer : TData -> TIdx) : Options := {|
  indexerFn := indexer;
  isOverflowing := Some overCapacity;
  onAdd := noop;
  onRemove := noop;
  onCollision := Some itemAlreadyExistsError;
|}.

Definition NewGenericFIFOSet (cap : Z) : GenericFIFOSet :=
  {| set := ∅; queue := []; capacity := cap |}.

Definition WithIndexerFn (fn : TData -> TIdx) (o : Options) : Options :=
  {| indexerFn := fn; isOverflowing := isOverflowing o; onAdd := onAdd o;
     onRemove := onRemove o; onCollision := onCollision o |}.
Definition WithCustomIsOverflowingFn (fn : GenericFIFOSet -> C -> bool) (o : Options) : Options :=
  {| indexerFn := indexerFn o; isOverflowing := Some fn; onAdd := onAdd o;
     onRemove := onRemove o; onCollision := onCollision o |}.
Definition WithOnAdd (fn : TData -> C -> C) (o : Options) : Options :=
  {| indexerFn := indexerFn o; isOverflowing := isOverflowing o; onAdd := fn;
     onRemove := onRemove o; onCollision := onCollision o |}.
Definition WithOnRemove (fn : TData -> C -> C) (o : Options) : Options :=
  {| indexerFn := indexerFn o; isOverflowing := isOverflowing o; onAdd := onAdd o;
     onRemove := fn; onCollision := onCollision o |}.
Definition WithOnCollision (fn : TData -> option (FifoError E)) (o : Options) : Options :=
  {| indexerFn := indexerFn o; isOverflowing := isOverflowing o; onAdd := onAdd o;
     onRemove := onRemove o; onCollision := Some fn |}.

Context (o : Options).
Implicit Types (g : GenericFIFOSet) (c : C) (item : TData).

(** [Push] returns the error (if any) with the new set and owner state.  On
    overflow the *front* of the queue leaves, but [onRemove] is called with the
    item that was just pushed, as in the source. *)
Definition Push item g c : option (FifoError E) * (GenericFIFOSet * C) :=
  let index := indexerFn o item in
  if bool_decide (index ∈ set g) then
    match onCollision o with
    | Some f => (f item, (g, c))
    | None => (Some ItemAlreadyExists, (g, c))
    end
  else
    let g1 := {| set := {[index]} ∪ set g; queue := queue g ++ [item]; capacity := capacity g |} in
    let c1 := onAdd o item c in
    let overflows := match isOverflowing o with Some f => f g1 c1 | None => false end in
    if overflows then
      match queue g1 with
      | [] => (None, (g1, c1))
      | front :: rest =>
          (None, ({| set := set g1 ∖ {[indexerFn o front]}; queue := rest; capacity := capacity g1 |},
                  onRemove o item c1))
      end
    else (None, (g1, c1)).

Definition Pop g c : (TData + FifoError E) * (GenericFIFOSet * C) :=
  match queue g with
  | [] => (inr EmptySet, (g, c))
  | item :: rest =>
      (inl item, ({| set := set g ∖ {[indexerFn o item]}; queue := rest; capacity := capacity g |},
                  onRemove o item c))
  end.

(** The loop of [Remove]: drops the first element whose index matches, if any. *)
Fixpoint removeFirst (index : TIdx) (l : list TData) : option (list TData) :=
  match l with
  | [] => None
  | e :: l' => if decide (indexerFn o e = index) then Some l'
               else (fun r => e :: r) <$> removeFirst index l'
  end.

Definition Remove item g c : GenericFIFOSet * C :=
  let itemIndex := indexerFn o item in
  if bool_decide (itemIndex ∈ set g) then
    let set' := set g ∖ {[itemIndex]} in
    match removeFirst itemIndex (queue g) with
    | Some q' => ({| set := set'; queue := q'; capacity := capacity g |}, onRemove o item c)
    | None => ({| set := set'; queue := queue g; capacity := capacity g |}, c)
    end
  else (g, c).

Definition GetAll g : list TData := queue g.

(** [Get] returns the zero value ([None]) when no element has the index. *)
Definition Get (index : TIdx) g : option TData :=
  snd <$> list_find (fun e => indexerFn o e = index) (queue g).

Definition Len g : Z := Z.of_nat (length (queue g)).

Definition Clear g : GenericFIFOSet := {| set := ∅; queue := []; capacity := capacity g |}.

Definition IsEmpty g : bool := match queue g with [] => true | _ => false end.

Definition Contains item g : bool := bool_decide (indexerFn o item ∈ set g).

Definition ContainsIndex (index : TIdx) g : bool := bool_decide (index ∈ set g).

(** *** Representation invariant: the index set is exactly the set of indices of
    the queue, and no index occurs twice. *)
Definition wf g : Prop :=
  NoDup (indexerFn o <$> queue g) /\ set g = list_to_set (indexerFn o <$> queue g).

End ops.
Arguments GenericFIFOSet TIdx TData {_ _}.
Arguments Options TIdx TData C E {_ _}.

(** ** Facts about the operations *)
Section facts.
Context {TIdx TData C E : Type} `{Countable TIdx}.
Context (o : Options TIdx TData C E).
Implicit Types (g : GenericFIFOSet TIdx TData) (c : C) (item : TData) (idx : TIdx).

Lemma wf_new cap : wf o (NewGenericFIFOSet cap).
Proof. split; cbn; [constructor | done]. Qed.

Lemma wf_clear g : wf o (Clear g).
Proof. split; cbn; [constructor | done]. Qed.

(** Dropping the front of a well-formed queue together with its index. *)
Lemma wf_tail g front rest cap :
  wf o g -> queue g = front :: rest ->
  wf o {| set := set g ∖ {[indexerFn o front]}; queue := rest; capacity := cap |}.
Proof.
  intros [Hnd Hset] Hq. rewrite Hq in Hnd, Hset. cbn in *.
  apply NoDup_cons in Hnd as [Hni Hnd]. split; cbn; [done|].
  rewrite Hset. set_solver.
Qed.

Lemma wf_snoc g item :
  wf o g -> indexerFn o item ∉ set g ->
  wf o {| set := {[indexerFn o item]} ∪ set g; queue := queue g ++ [item]; capacity := capacity g |}.
Proof.
  intros [Hnd Hset] Hni. split; cbn.
  - rewrite fmap_app. apply NoDup_app. split; [done|]. split; [|apply NoDup_singleton].
    intros x Hx Hx'. apply list_elem_of_singleton in Hx'. subst x.
    apply Hni. rewrite Hset. by apply elem_of_list_to_set.
  - rewrite fmap_app, list_to_set_app_L, Hset. cbn. set_solver.
Qed.

(** The three branches of [Push]. *)
Lemma Push_collision item g c :
  indexerFn o item ∈ set g ->
  Push o item g c =
    (match onCollision o with Some f => f item | None => Some ItemAlreadyExists end, (g, c)).
Proof. intros Hin. unfold Push. rewrite bool_decide_eq_true_2 by done. by destruct (onCollision o). Qed.

Definition pushed item g : GenericFIFOSet TIdx TData :=
  {| set := {[indexerFn o item]} ∪ set g; queue := queue g ++ [item]; capacity := capacity g |}.

Definition push_overflows item g c : bool :=
  match isOverflowing o with Some f => f (pushed item g) (onAdd o item c) | None => false end.

Lemma Push_fits item g c :
  indexerFn o item ∉ set g -> push_overflows item g c = false ->
  Push o item g c = (None, (pushed item g, onAdd o item c)).
Proof.
  intros Hni Hov. unfold Push, push_overflows, pushed in *.
  rewrite bool_decide_eq_false_2 by done. cbn. by rewrite Hov.
Qed.

Lemma Push_evicts item g c front rest :
  indexerFn o item ∉ set g -> push_overflows item g c = true ->
  queue g ++ [item] = front :: rest ->
  Push o item g c =
    (None, ({| set := ({[indexerFn o item]} ∪ set g) ∖ {[indexerFn o front]};
               queue := rest; capacity := capacity g |},
            onRemove o item (onAdd o item c))).
Proof.
  intros Hni Hov Hq. unfold Push, push_overflows, pushed in *.
  rewrite bool_decide_eq_false_2 by done. cbn. rewrite Hov, Hq. done.
Qed.

Lemma wf_push item g c : wf o g -> wf o (Push o item g c).2.1.
Proof.
  intros Hwf. destruct (decide (indexerFn o item ∈ set g)) as [Hin|Hni].
  - by rewrite Push_collision.
  - destruct (push_overflows item g c) eqn:Hov.
    + destruct (queue g ++ [item]) as [|front rest] eqn:Hq; [by destruct (queue g)|].
      rewrite (Push_evicts _ _ _ _ _ Hni Hov Hq). cbn.
      apply (wf_tail (pushed item g)); [by apply wf_snoc | done].
    + rewrite Push_fits by done. by apply wf_snoc.
Qed.

Lemma wf_pop g c : wf o g -> wf o (Pop o g c).2.1.
Proof. intros Hwf. unfold Pop. destruct (queue g) eqn:Hq; [done|]. by eapply wf_tail. Qed.

(** Under the invariant the loop of [Remove] always finds the element. *)
Lemma removeFirst_spec idx (l : list TData) :
  NoDup (indexerFn o <$> l) -> idx ∈ (indexerFn o <$> l) ->
  removeFirst o idx l = Some (filter (fun e => indexerFn o e ≠ idx) l).
Proof.
  induction l as [|e l IH]; intros Hnd Hin; [set_solver|].
  cbn [fmap list_fmap] in *. apply NoDup_cons in Hnd as [Hni Hnd]. rewrite filter_cons.
  cbn [removeFirst].
  destruct (decide (indexerFn o e = idx)) as [<-|Hne].
  - rewrite decide_False by (intros Hc; by apply Hc).
    f_equal. symmetry. apply filter_all, Forall_forall. intros x Hx Heq.
    apply Hni. rewrite <- Heq. by apply list_elem_of_fmap_2.
  - rewrite decide_True by done. rewrite IH; [done|done|]. set_solver.
Qed.

Lemma Remove_spec item g c :
  wf o g -> indexerFn o item ∈ set g ->
  Remove o item g c =
    ({| set := set g ∖ {[indexerFn o item]};
        queue := filter (fun e => indexerFn o e ≠ indexerFn o item) (queue g);
        capacity := capacity g |}, onRemove o item c).
Proof.
  intros [Hnd Hset] Hin. unfold Remove. rewrite bool_decide_eq_true_2 by done.
  rewrite removeFirst_spec; [done|done|]. rewrite Hset in Hin. by apply elem_of_list_to_set in Hin.
Qed.

Lemma Remove_absent item g c : indexerFn o item ∉ set g -> Remove o item g c = (g, c).
Proof. intros Hni. unfold Remove. by rewrite bool_decide_eq_false_2. Qed.

Lemma fmap_filter_ne idx (l : list TData) :
  indexerFn o <$> filter (fun e => indexerFn o e ≠ idx) l = filter (fun i => i ≠ idx) (indexerFn o <$> l).
Proof.
  induction l as [|e l IH]; [done|]. cbn [fmap list_fmap]. rewrite !filter_cons.
  case_decide; cbn; by rewrite IH.
Qed.

Lemma wf_remove item g c : wf o g -> wf o (Remove o item g c).1.
Proof.
  intros Hwf. destruct (decide (indexerFn o item ∈ set g)) as [Hin|Hni].
  - rewrite Remove_spec by done. destruct Hwf as [Hnd Hset]. split; cbn.
    + rewrite fmap_filter_ne. by apply NoDup_filter.
    + rewrite fmap_filter_ne, Hset. apply set_eq. intros x.
      rewrite elem_of_difference, !elem_of_list_to_set, list_elem_of_filter. set_solver.
  - by rewrite Remove_absent.
Qed.

Lemma Contains_queue item g :
  wf o g -> Contains o item g = true <-> exists e, e ∈ queue g /\ indexerFn o e = indexerFn o item.
Proof.
  intros [_ Hset]. unfold Contains. rewrite bool_decide_eq_true, Hset, elem_of_list_to_set.
  rewrite list_elem_of_fmap. naive_solver.
Qed.

(** Draining the set with [Pop] until it reports [EmptySet]. *)
Fixpoint popAll (fuel : nat) g c : list TData * (GenericFIFOSet TIdx TData * C) :=
  match fuel with
  | O => ([], (g, c))
  | S fuel' =>
      match Pop o g c with
      | (inl item, (g', c')) => let '(items, st) := popAll fuel' g' c' in (item :: items, st)
      | (inr _, st) => ([], st)
      end
  end.

Lemma popAll_queue g c fuel :
  (length (queue g) <= fuel)%nat -> (popAll fuel g c).1 = queue g.
Proof.
  revert g c. induction fuel as [|fuel IH]; intros g c Hf; cbn.
  - by destruct (queue g); [|cbn in Hf; lia].
  - unfold Pop. destruct (queue g) as [|x q] eqn:Hq; [done|].
    destruct (popAll fuel _ _) as [items st] eqn:Hp.
    specialize (IH {| set := set g ∖ {[indexerFn o x]}; queue := q; capacity := capacity g |}
                   (onRemove o x c)). rewrite Hp in IH. cbn in *. rewrite IH by lia. done.
Qed.

(** *** Executions *)
Inductive Op := OpPush (item : TData) | OpPop | OpRemove (item : TData) | OpClear.

Definition exec (op : Op) (st : GenericFIFOSet TIdx TData * C) : GenericFIFOSet TIdx TData * C :=
  let '(g, c) := st in
  match op with
  | OpPush item => (Push o item g c).2
  | OpPop => (Pop o g c).2
  | OpRemove item => Remove o item g c
  | OpClear => (Clear g, c)
  end.

Definition execs (ops : list Op) st := foldl (fun s op => exec op s) st ops.

Lemma wf_exec op st : wf o st.1 -> wf o (exec op st).1.
Proof.
  destruct st as [g c], op; cbn; auto using wf_push, wf_pop, wf_remove, wf_clear.
Qed.

Lemma wf_execs ops st : wf o st.1 -> wf o (execs ops st).1.
Proof. revert st. induction ops as [|op ops IH]; intros st Hwf; [done|]. apply IH, wf_exec, Hwf. Qed.

Lemma execs_app ops1 ops2 st : execs (ops1 ++ ops2) st = execs ops2 (execs ops1 st).
Proof. unfold execs. apply foldl_app. Qed.

(** Pushing distinct new items that fit leaves them at the back in order. *)
Lemma push_many items g c :
  isOverflowing o = None ->
  NoDup (indexerFn o <$> items) -> (forall x, x ∈ items -> indexerFn o x ∉ set g) ->
  queue (execs (OpPush <$> items) (g, c)).1 = queue g ++ items.
Proof.
  intros Hno. revert g c. induction items as [|x items IH]; intros g c Hnd Hni; cbn.
  - by rewrite app_nil_r.
  - cbn in Hnd. apply NoDup_cons in Hnd as [Hx Hnd].
    rewrite Push_fits; [| apply Hni; set_solver | unfold push_overflows; by rewrite Hno].
    unfold execs in IH. cbn. rewrite IH; [|done|].
    + cbn. by rewrite <- app_assoc.
    + intros y Hy. cbn. apply not_elem_of_union. split; [|apply Hni; set_solver].
      intros Heq. apply elem_of_singleton in Heq. apply Hx. rewrite <- Heq. by apply list_elem_of_fmap_2.
Qed.

End facts.
End FIFOSet.

#[export] Hint Resolve FIFOSet.wf_new FIFOSet.wf_clear FIFOSet.wf_push FIFOSet.wf_pop FIFOSet.wf_remove : golib.
