(* ===== verification/TxMempool.v ===== *)
(** The transaction mempool of the utility module
    (src/utility/types/tx_fifo_mempool.go), built on [GenericFIFOSet].

    The owner state of the set is the pair of counters [txCount] (uint32) and
    [txsBytesTotal] (uint64), both with wrap-around. *)

From S2P Require Import Prelude GoStd Errors Crypto FifoSet.

Module TxMempool.
Import FIFOSet.

Record counters := { txCount : Z; txsBytesTotal : Z }.

Record txFIFOMempool := {
  g : GenericFIFOSet string bytes;
  cnt : counters;
  maxTxsBytesTotal : Z;
  maxTxs : Z;
}.

Section ops.
Context `{CryptoPrims}.

Definition txOnAdd (item : bytes) (c : counters) : counters :=
  {| txCount := u32 (txCount c + 1); txsBytesTotal := u64 (txsBytesTotal c + blen item) |}.
Definition txOnRemove (item : bytes) (c : counters) : counters :=
  {| txCount := u32 (txCount c - 1); txsBytesTotal := u64 (txsBytesTotal c - blen item) |}.
Definition txIsOverflowing (maxBytes maxN : Z) (_ : GenericFIFOSet string bytes) (c : counters) : bool :=
  bool_decide (maxN < txCount c) || bool_decide (maxBytes < txsBytesTotal c).

(** The options [NewTxFIFOMempool] passes to [NewGenericFIFOSet], in order. *)
Definition txOptions (maxBytes maxN : Z) : Options string bytes counters Error :=
  WithOnRemove txOnRemove
    (WithOnAdd txOnAdd
       (WithOnCollision (fun _ => Some (CollisionError ErrDuplicateTransaction))
          (WithCustomIsOverflowingFn (txIsOverflowing maxBytes maxN)
             (WithIndexerFn GetHashStringFromBytes
                (defaultOptions GetHashStringFromBytes))))).

Definition NewTxFIFOMempool (maxBytes maxN : Z) : txFIFOMempool := {|
  g := NewGenericFIFOSet maxN;
  cnt := {| txCount := 0; txsBytesTotal := 0 |};
  maxTxsBytesTotal := maxBytes;
  maxTxs := maxN;
|}.

Implicit Types (t : txFIFOMempool).

Definition opts t : Options string bytes counters Error := txOptions (maxTxsBytesTotal t) (maxTxs t).

Definition with_state t (st : GenericFIFOSet string bytes * counters) : txFIFOMempool :=
  {| g := st.1; cnt := st.2; maxTxsBytesTotal := maxTxsBytesTotal t; maxTxs := maxTxs t |}.

Definition AddTx (tx : bytes) t : option Error * txFIFOMempool :=
  let '(err, st) := Push (opts t) tx (g t) (cnt t) in
  (match err with Some _ => Some ErrDuplicateTransaction | None => None end, with_state t st).

Definition resetCounters (_ : counters) : counters := {| txCount := 0; txsBytesTotal := 0 |}.

Definition ClearTxs t : txFIFOMempool := with_state t (Clear (g t), resetCounters (cnt t)).

Definition ContainsTx (hash : string) t : bool := ContainsIndex hash (g t).

Definition IsEmptyTxs t : bool := IsEmpty (g t).

Definition PopTx t : (bytes + FifoError Error) * txFIFOMempool :=
  let '(r, st) := Pop (opts t) (g t) (cnt t) in (r, with_state t st).

Definition RemoveTx (tx : bytes) t : txFIFOMempool :=
  with_state t (Remove (opts t) tx (g t) (cnt t)).

Definition TxCount t : Z := u32 (txCount (cnt t)).
Definition TxsBytesTotal t : Z := txsBytesTotal (cnt t).
Definition GetAllTxs t : list bytes := GetAll (g t).
Definition GetTx (hash : string) t : option bytes := Get (opts t) hash (g t).
End ops.

(** ** Executions *)
Section executions.
Context `{CryptoPrims}.

Inductive mempool_op := MAdd (tx : bytes) | MPop | MRemove (tx : bytes) | MClear.

Definition mempool_exec (op : mempool_op) (t : txFIFOMempool) : txFIFOMempool :=
  match op with
  | MAdd tx => (AddTx tx t).2
  | MPop => (PopTx t).2
  | MRemove tx => RemoveTx tx t
  | MClear => ClearTxs t
  end.

Definition mempool_run (ops : list mempool_op) (t : txFIFOMempool) : txFIFOMempool :=
  foldl (fun t op => mempool_exec op t) t ops.

(** Total size of the transactions actually stored. *)
Definition storedBytes (t : txFIFOMempool) : Z := lsum (blen <$> queue (g t)).

(** [AddTx tx t] stores [tx] and throws the oldest transaction away. *)
Definition evicts (tx : bytes) (t : txFIFOMempool) : bool :=
  negb (ContainsTx (GetHashStringFromBytes tx) t) && push_overflows (opts t) tx (g t) (cnt t).

Definition op_evicts (op : mempool_op) (t : txFIFOMempool) : bool :=
  match op with MAdd tx => evicts tx t | _ => false end.

Fixpoint never_evicts (ops : list mempool_op) (t : txFIFOMempool) : bool :=
  match ops with
  | [] => true
  | op :: ops' => negb (op_evicts op t) && never_evicts ops' (mempool_exec op t)
  end.

(** What every execution keeps: a well-formed set, an exact transaction count, at most
    [maxTxs] transactions. *)
Record mempool_inv (t : txFIFOMempool) : Prop := {
  inv_wf : wf (opts t) (g t);
  inv_count : txCount (cnt t) = u32 (Z.of_nat (length (queue (g t))));
  inv_bound : Z.of_nat (length (queue (g t))) <= maxTxs t;
}.

Implicit Types (t : txFIFOMempool) (tx : bytes).

(** [AddTx] by cases. *)
Lemma AddTx_duplicate tx t :
  ContainsTx (GetHashStringFromBytes tx) t = true ->
  AddTx tx t = (Some ErrDuplicateTransaction, t).
Proof.
  intros Hc. apply bool_decide_eq_true in Hc. unfold AddTx.
  rewrite Push_collision by done. cbn. by destruct t.
Qed.

Lemma AddTx_fits tx t :
  ContainsTx (GetHashStringFromBytes tx) t = false -> evicts tx t = false ->
  AddTx tx t = (None, with_state t (pushed (opts t) tx (g t), txOnAdd tx (cnt t))).
Proof.
  intros Hc Hev. unfold evicts in Hev. rewrite Hc in Hev. cbn in Hev.
  apply bool_decide_eq_false in Hc. unfold AddTx. by rewrite Push_fits.
Qed.

Lemma AddTx_evicts tx t front rest :
  evicts tx t = true -> queue (g t) ++ [tx] = front :: rest ->
  AddTx tx t =
    (None, with_state t
      ({| set := ({[GetHashStringFromBytes tx]} ∪ set (g t)) ∖ {[GetHashStringFromBytes front]};
          queue := rest; capacity := capacity (g t) |}, txOnRemove tx (txOnAdd tx (cnt t)))).
Proof.
  intros Hev Hq. unfold evicts in Hev. apply andb_prop in Hev as [Hc Hov].
  apply negb_true_iff, bool_decide_eq_false in Hc. unfold AddTx. by rewrite (Push_evicts _ _ _ _ front rest).
Qed.

Lemma onRemove_onAdd_count tx c : txCount (txOnRemove tx (txOnAdd tx c)) = u32 (txCount c).
Proof. cbn. autorewrite with gomod. f_equal. lia. Qed.

Lemma push_overflows_eq tx t :
  push_overflows (opts t) tx (g t) (cnt t) =
  bool_decide (maxTxs t < u32 (txCount (cnt t) + 1))
  || bool_decide (maxTxsBytesTotal t < u64 (txsBytesTotal (cnt t) + blen tx)).
Proof. reflexivity. Qed.

Lemma count_no_overflow t :
  mempool_inv t -> 0 <= maxTxs t < 2 ^ 32 - 1 ->
  forall tx, push_overflows (opts t) tx (g t) (cnt t) = false ->
  Z.of_nat (length (queue (g t))) + 1 <= maxTxs t.
Proof.
  intros [_ Hcount Hb] Hmax tx Hov. rewrite push_overflows_eq in Hov. apply orb_false_elim in Hov as [Hov _].
  apply bool_decide_eq_false in Hov. rewrite Hcount in Hov. autorewrite with gomod in Hov.
  rewrite u32_small in Hov by (unfold in_u32; lia). lia.
Qed.

Lemma mempool_inv_add tx t : 0 <= maxTxs t < 2 ^ 32 - 1 -> mempool_inv t -> mempool_inv (AddTx tx t).2.
Proof.
  intros Hmax Hinv. destruct (ContainsTx (GetHashStringFromBytes tx) t) eqn:Hc.
  { by rewrite AddTx_duplicate. }
  destruct (evicts tx t) eqn:Hev.
  - destruct (queue (g t) ++ [tx]) as [|front rest] eqn:Hq; [by destruct (queue (g t))|].
    rewrite (AddTx_evicts _ _ _ _ Hev Hq).
    assert (length rest = length (queue (g t))) as Hlen.
    { apply (f_equal length) in Hq. rewrite length_app in Hq. cbn in Hq. lia. }
    pose proof (bool_decide_eq_false_1 _ Hc) as Hni. destruct Hinv as [Hwf Hcount Hb].
    constructor; cbn [snd with_state g cnt fst queue maxTxs].
    + apply (wf_tail (opts t) (pushed (opts t) tx (g t))); [by apply wf_snoc | done].
    + rewrite onRemove_onAdd_count, Hcount, Hlen. unfold u32. by rewrite Zmod_mod.
    + by rewrite Hlen.
  - rewrite AddTx_fits by done. pose proof (bool_decide_eq_false_1 _ Hc) as Hni.
    unfold evicts in Hev. rewrite Hc in Hev. cbn [negb andb] in Hev.
    pose proof (count_no_overflow t Hinv Hmax tx Hev) as Hroom. destruct Hinv as [Hwf Hcount Hb].
    constructor; cbn [snd with_state g cnt fst maxTxs].
    + by apply wf_snoc.
    + cbn. rewrite Hcount, length_app. autorewrite with gomod. f_equal. cbn. lia.
    + cbn. rewrite length_app. cbn. lia.
Qed.

Lemma mempool_inv_pop t : mempool_inv t -> mempool_inv (PopTx t).2.
Proof.
  intros [Hwf Hcount Hb]. unfold PopTx. pose proof (wf_pop (opts t) (g t) (cnt t) Hwf) as Hwf'.
  unfold Pop in *. destruct (queue (g t)) as [|x q] eqn:Hq; cbn in *.
  - constructor; cbn; by rewrite ?Hq.
  - constructor; cbn; [done| |lia]. rewrite Hcount. autorewrite with gomod. f_equal. lia.
Qed.

Lemma length_filter_ne tx t :
  wf (opts t) (g t) -> GetHashStringFromBytes tx ∈ set (g t) ->
  (length (filter (fun e => indexerFn (opts t) e ≠ GetHashStringFromBytes tx) (queue (g t))) + 1
   = length (queue (g t)))%nat.
Proof.
  intros [Hnd Hset] Hin. rewrite Hset in Hin. apply elem_of_list_to_set in Hin. clear Hset.
  induction (queue (g t)) as [|e q IH]; [set_solver|]. cbn [fmap list_fmap] in *.
  apply NoDup_cons in Hnd as [Hni Hnd]. rewrite filter_cons. case_decide as Hd.
  - cbn [length]. rewrite <- IH; [lia|done|]. set_solver.
  - rewrite filter_all; [cbn; lia|].
    apply Forall_forall. intros x Hx Heq. apply Hni. rewrite Hd, <- Heq. by apply list_elem_of_fmap_2.
Qed.

Lemma mempool_inv_remove tx t : mempool_inv t -> mempool_inv (RemoveTx tx t).
Proof.
  intros [Hwf Hcount Hb]. unfold RemoveTx.
  pose proof (wf_remove (opts t) tx (g t) (cnt t) Hwf) as Hwf'.
  destruct (decide (GetHashStringFromBytes tx ∈ set (g t))) as [Hin|Hni].
  - rewrite Remove_spec in * by done. pose proof (length_filter_ne tx t Hwf Hin) as Hlen. cbn in *.
    constructor; cbn; [done| |lia]. rewrite Hcount. autorewrite with gomod. f_equal. lia.
  - rewrite Remove_absent in * by done. by constructor.
Qed.

Lemma mempool_inv_clear t : 0 <= maxTxs t -> mempool_inv (ClearTxs t).
Proof. intros Hm. constructor; cbn; [apply wf_clear | done | done]. Qed.

Lemma mempool_exec_maxTxs op t : maxTxs (mempool_exec op t) = maxTxs t.
Proof.
  destruct op; cbn; [|unfold PopTx | |]; unfold AddTx; repeat case_goal; try done.
  all: by subst.
Qed.

Lemma mempool_inv_exec op t :
  0 <= maxTxs t < 2 ^ 32 - 1 -> mempool_inv t -> mempool_inv (mempool_exec op t).
Proof.
  intros Hm Hinv. destruct op; cbn.
  - by apply mempool_inv_add.
  - by apply mempool_inv_pop.
  - by apply mempool_inv_remove.
  - apply mempool_inv_clear. lia.
Qed.

Lemma mempool_inv_run ops t :
  0 <= maxTxs t < 2 ^ 32 - 1 -> mempool_inv t -> mempool_inv (mempool_run ops t).
Proof.
  revert t. induction ops as [|op ops IH]; intros t Hm Hinv; [done|].
  cbn [mempool_run foldl]. apply IH; [by rewrite mempool_exec_maxTxs|]. by apply mempool_inv_exec.
Qed.

Lemma mempool_inv_new maxBytes maxN : 0 <= maxN -> mempool_inv (NewTxFIFOMempool maxBytes maxN).
Proof. intros Hm. constructor; cbn; [apply wf_new|done|done]. Qed.

(** *** Byte accounting *)

Lemma storedBytes_snoc q tx : lsum (blen <$> (q ++ [tx])) = lsum (blen <$> q) + blen tx.
Proof. rewrite fmap_app, lsum_app. cbn. unfold lsum; cbn. lia. Qed.

(** How an evicting [AddTx] moves the two byte counts. *)
Lemma evict_bytes tx t front rest :
  evicts tx t = true -> queue (g t) ++ [tx] = front :: rest ->
  txsBytesTotal (cnt (AddTx tx t).2) = u64 (txsBytesTotal (cnt t)) /\
  storedBytes (AddTx tx t).2 = storedBytes t + blen tx - blen front.
Proof.
  intros Hev Hq. rewrite (AddTx_evicts _ _ _ _ Hev Hq). split.
  - cbn. autorewrite with gomod. f_equal. lia.
  - unfold storedBytes. cbn [snd with_state g fst queue].
    pose proof (storedBytes_snoc (queue (g t)) tx) as Hs. rewrite Hq in Hs.
    cbn [fmap list_fmap] in Hs. unfold lsum in *. cbn [foldr] in Hs. lia.
Qed.

Lemma lsum_filter_ne tx t :
  (forall x, x ∈ queue (g t) -> GetHashStringFromBytes x = GetHashStringFromBytes tx -> x = tx) ->
  wf (opts t) (g t) -> GetHashStringFromBytes tx ∈ set (g t) ->
  lsum (blen <$> filter (fun e => indexerFn (opts t) e ≠ GetHashStringFromBytes tx) (queue (g t)))
  + blen tx = storedBytes t.
Proof.
  unfold storedBytes. intros Hinj [Hnd Hset] Hin. rewrite Hset in Hin.
  apply elem_of_list_to_set in Hin. clear Hset.
  induction (queue (g t)) as [|e q IH]; [set_solver|]. cbn [fmap list_fmap] in Hnd, Hin.
  apply NoDup_cons in Hnd as [Hni Hnd]. rewrite filter_cons. case_decide as Hd; cbn [fmap list_fmap].
  - unfold lsum in *. cbn [foldr]. rewrite <- IH; [lia| |done|]; [|set_solver].
    intros x Hx. apply Hinj. set_solver.
  - assert (e = tx) as -> by (apply Hinj; [set_solver|done]).
    rewrite filter_all; [unfold lsum; cbn; lia|].
    apply Forall_forall. intros x Hx Heq. apply Hni. rewrite Hd, <- Heq. by apply list_elem_of_fmap_2.
Qed.

Definition op_tx (op : mempool_op) : list bytes :=
  match op with MAdd tx | MRemove tx => [tx] | _ => [] end.

(** The transactions an execution mentions. *)
Definition ops_txs (ops : list mempool_op) : list bytes := mjoin (op_tx <$> ops).

(** No two different transactions of the list share a hash. *)
Definition hash_injective_on (txs : list bytes) : Prop :=
  forall x y : bytes, x ∈ txs -> y ∈ txs -> GetHashStringFromBytes x = GetHashStringFromBytes y -> x = y.

Lemma queue_exec op t (txs : list bytes) :
  op_tx op ⊆ txs -> queue (g t) ⊆ txs -> queue (g (mempool_exec op t)) ⊆ txs.
Proof.
  intros Hop Hq. destruct op as [tx| |tx|]; cbn [mempool_exec op_tx] in *.
  - destruct (ContainsTx (GetHashStringFromBytes tx) t) eqn:Hc; [by rewrite AddTx_duplicate|].
    assert (queue (g t) ++ [tx] ⊆ txs) as Hqt by set_solver.
    destruct (evicts tx t) eqn:Hev; [|by rewrite AddTx_fits].
    destruct (queue (g t) ++ [tx]) as [|front rest] eqn:Hl; [by destruct (queue (g t))|].
    rewrite (AddTx_evicts _ _ _ _ Hev Hl). cbn. set_solver.
  - unfold PopTx, Pop. destruct (queue (g t)) as [|x q] eqn:Hl; cbn; [by rewrite Hl|]. set_solver.
  - unfold RemoveTx, Remove, with_state. repeat case_goal; cbn; [|done|done].
    match goal with Hr : removeFirst _ _ _ = Some ?l |- _ =>
      enough (l ⊆ queue (g t)) by set_solver; clear -Hr; revert l Hr end.
    induction (queue (g t)) as [|e q IH]; intros l Hr; [done|]. cbn [removeFirst] in Hr.
    case_decide; [naive_solver set_solver|].
    apply fmap_Some in Hr as (l' & Hl' & ->). specialize (IH _ Hl'). set_solver.
  - set_solver.
Qed.

Lemma bytes_exact_exec op t :
  hash_injective_on (op_tx op ++ queue (g t)) -> mempool_inv t -> op_evicts op t = false ->
  txsBytesTotal (cnt t) = u64 (storedBytes t) ->
  txsBytesTotal (cnt (mempool_exec op t)) = u64 (storedBytes (mempool_exec op t)).
Proof.
  intros Hinj [Hwf _ _] Hev Hb. destruct op as [tx| |tx|]; cbn [mempool_exec op_evicts] in *.
  - destruct (ContainsTx (GetHashStringFromBytes tx) t) eqn:Hc; [by rewrite AddTx_duplicate|].
    rewrite AddTx_fits by done. cbn [snd with_state cnt txOnAdd txsBytesTotal]. rewrite Hb.
    unfold storedBytes, with_state, pushed. cbn [g fst queue]. rewrite storedBytes_snoc. by autorewrite with gomod.
  - unfold PopTx, Pop, storedBytes in *. destruct (queue (g t)) as [|x q] eqn:Hq; cbn; [by rewrite Hq|].
    rewrite Hb. autorewrite with gomod. f_equal. unfold lsum. cbn [fmap list_fmap foldr]. lia.
  - unfold RemoveTx. destruct (decide (GetHashStringFromBytes tx ∈ set (g t))) as [Hin|Hni].
    + rewrite Remove_spec by done.
      rewrite <- (lsum_filter_ne tx t) in Hb; [|intros x Hx; apply Hinj; set_solver|done|done].
      transitivity (u64 (txsBytesTotal (cnt t) - blen tx)); [done|].
      rewrite Hb. autorewrite with gomod. f_equal.
      unfold storedBytes, with_state. cbn [g fst queue]. rewrite Z.add_simpl_r. done.
    + by rewrite Remove_absent.
  - done.
Qed.

Lemma bytes_exact_run txs ops t :
  hash_injective_on txs -> ops_txs ops ⊆ txs -> queue (g t) ⊆ txs ->
  0 <= maxTxs t < 2 ^ 32 - 1 -> mempool_inv t -> never_evicts ops t = true ->
  txsBytesTotal (cnt t) = u64 (storedBytes t) ->
  txsBytesTotal (cnt (mempool_run ops t)) = u64 (storedBytes (mempool_run ops t)).
Proof.
  intros Hinj. revert t. induction ops as [|op ops IH]; intros t Hops Hq Hm Hinv Hne Hb; [done|].
  cbn [never_evicts] in Hne. apply andb_prop in Hne as [Hne1 Hne2]. apply negb_true_iff in Hne1.
  unfold ops_txs in Hops. cbn [fmap list_fmap mjoin list_join] in Hops.
  cbn [mempool_run foldl]. apply IH; [set_solver| |by rewrite mempool_exec_maxTxs|by apply mempool_inv_exec|done|].
  - apply queue_exec; set_solver.
  - apply bytes_exact_exec; try done. intros x y Hx Hy. apply Hinj; set_solver.
Qed.
End executions.

(** ** Properties *)
Section properties.
Context `{CryptoPrims}.

(** C31: after any sequence of AddTx, PopTx, RemoveTx and Clear on a fresh mempool the index set is
    exactly the set of hashes of the queued transactions without repetition, the uint32 transaction
    counter equals the number of stored transactions, and never more than maxTxs are stored. *)
Theorem tx_mempool_invariant (maxBytes maxN : Z) (ops : list mempool_op) :
  0 <= maxN < 2 ^ 32 - 1 ->
  let t := mempool_run ops (NewTxFIFOMempool maxBytes maxN) in
  NoDup (GetHashStringFromBytes <$> GetAllTxs t) /\
  (forall h, ContainsTx h t = true <-> h ∈ (GetHashStringFromBytes <$> GetAllTxs t)) /\
  TxCount t = Z.of_nat (length (GetAllTxs t)) /\
  Z.of_nat (length (GetAllTxs t)) <= maxN.
Proof.
  intros Hm t. assert (mempool_inv t) as [[Hnd Hset] Hcount Hb].
  { apply mempool_inv_run; [done|]. apply mempool_inv_new. lia. }
  assert (maxTxs t = maxN) as Hmax.
  { unfold t. clear. generalize (NewTxFIFOMempool maxBytes maxN), (eq_refl maxN : maxTxs (NewTxFIFOMempool maxBytes maxN) = maxN).
    induction ops as [|op ops IH]; intros t Ht; [done|]. apply IH. by rewrite mempool_exec_maxTxs. }
  rewrite Hmax in Hb. split_and!; [done| | |done].
  - intros h. unfold ContainsTx, ContainsIndex. rewrite bool_decide_eq_true, Hset, elem_of_list_to_set. done.
  - unfold TxCount, GetAllTxs, GetAll. rewrite Hcount, !u32_small; [done| |].
    all: repeat rewrite u32_small; unfold in_u32; lia.
Qed.

(** popping a mempool until it is empty returns the stored transactions in the order in which
    they were added, and a transaction added last comes out last. *)
Theorem tx_mempool_fifo (t : txFIFOMempool) (tx : bytes) :
  ContainsTx (GetHashStringFromBytes tx) t = false -> evicts tx t = false ->
  let t' := (AddTx tx t).2 in
  (AddTx tx t).1 = None /\
  (popAll (opts t') (length (GetAllTxs t')) (g t') (cnt t')).1 = GetAllTxs t ++ [tx].
Proof.
  intros Hc Hev. rewrite AddTx_fits by done. split; [done|].
  rewrite popAll_queue by (unfold GetAllTxs, GetAll; lia). done.
Qed.

(** as long as no AddTx evicts, the uint64 byte counter is the total size of the stored
    transactions (modulo 2^64), provided no two of the transactions involved share a hash. *)
Theorem tx_mempool_bytes_exact (maxBytes maxN : Z) (ops : list mempool_op) :
  hash_injective_on (ops_txs ops) -> 0 <= maxN < 2 ^ 32 - 1 ->
  never_evicts ops (NewTxFIFOMempool maxBytes maxN) = true ->
  let t := mempool_run ops (NewTxFIFOMempool maxBytes maxN) in
  TxsBytesTotal t = u64 (storedBytes t).
Proof.
  intros Hinj Hm Hne. apply (bytes_exact_run (ops_txs ops)); try done; [set_solver|].
  apply mempool_inv_new. lia.
Qed.

(** an AddTx that overflows drops the oldest transaction but takes the size of the *new* one
    off the byte counter, so the counter drifts from the stored bytes by the difference of the two
    sizes. *)
Theorem tx_mempool_eviction_drift (t : txFIFOMempool) (tx front : bytes) (rest : list bytes) :
  evicts tx t = true -> GetAllTxs t = front :: rest -> in_u64 (TxsBytesTotal t) ->
  let t' := (AddTx tx t).2 in
  GetAllTxs t' = rest ++ [tx] /\ TxsBytesTotal t' = TxsBytesTotal t /\
  storedBytes t' = storedBytes t + blen tx - blen front.
Proof.
  unfold GetAllTxs, GetAll. intros Hev Hq Hr.
  assert (queue (g t) ++ [tx] = front :: (rest ++ [tx])) as Hq' by (by rewrite Hq).
  destruct (evict_bytes tx t _ _ Hev Hq') as [Hb Hs].
  split_and!; [|unfold TxsBytesTotal in *; by rewrite Hb, u64_small|done].
  by rewrite (AddTx_evicts _ _ _ _ Hev Hq').
Qed.
End properties.

(** ** Witnesses *)
Section witnesses.
#[local] Existing Instance ToyCrypto.prims.
#[local] Open Scope string_scope.

Definition demo_ops : list mempool_op :=
  [MAdd "tx-a"; MAdd "tx-bb"; MAdd "tx-a"; MPop; MRemove "tx-bb"; MAdd "tx-ccc"].

Lemma tx_mempool_invariant_witness :
  GetAllTxs (mempool_run demo_ops (NewTxFIFOMempool 100 2)) = ["tx-ccc"] /\
  TxCount (mempool_run demo_ops (NewTxFIFOMempool 100 2)) = 1.
Proof.
  split; [vm_compute; reflexivity|].
  destruct (@tx_mempool_invariant ToyCrypto.prims 100 2 demo_ops ltac:(lia)) as (_ & _ & Hc & _).
  rewrite Hc. vm_compute. reflexivity.
Defined.

Definition demo_mempool : txFIFOMempool := mempool_run [MAdd "tx-a"; MAdd "tx-bb"] (NewTxFIFOMempool 100 5).

Lemma tx_mempool_fifo_witness :
  (popAll (opts (AddTx "tx-c" demo_mempool).2) 3 (g (AddTx "tx-c" demo_mempool).2)
     (cnt (AddTx "tx-c" demo_mempool).2)).1 = ["tx-a"; "tx-bb"; "tx-c"].
Proof.
  destruct (@tx_mempool_fifo ToyCrypto.prims demo_mempool "tx-c" ltac:(vm_compute; reflexivity) ltac:(vm_compute; reflexivity))
    as [_ Hp].
  exact Hp.
Defined.

Lemma tx_mempool_bytes_exact_witness :
  TxsBytesTotal (mempool_run demo_ops (NewTxFIFOMempool 100 2)) = 6.
Proof.
  rewrite (@tx_mempool_bytes_exact ToyCrypto.prims 100 2 demo_ops); [vm_compute; reflexivity| |lia|vm_compute; reflexivity].
  intros x y Hx Hy. vm_compute in Hx, Hy.
  repeat (apply elem_of_cons in Hx as [->|Hx]); try (by apply not_elem_of_nil in Hx);
  repeat (apply elem_of_cons in Hy as [->|Hy]); try (by apply not_elem_of_nil in Hy); try done.
  all: intros Hh; vm_compute in Hh; discriminate Hh.
Defined.

(** A one-slot mempool whose slot holds a 4-byte transaction when a 9-byte one arrives. *)
Definition drift_mempool : txFIFOMempool := mempool_run [MAdd "aaaa"] (NewTxFIFOMempool 20 1).

Lemma tx_mempool_eviction_drift_witness :
  TxsBytesTotal (AddTx "bbbbbbbbb" drift_mempool).2 = 4 /\
  storedBytes (AddTx "bbbbbbbbb" drift_mempool).2 = 9.
Proof.
  destruct (@tx_mempool_eviction_drift ToyCrypto.prims drift_mempool "bbbbbbbbb" "aaaa" []
              ltac:(vm_compute; reflexivity) ltac:(vm_compute; reflexivity)
              ltac:(vm_compute; split; [discriminate | reflexivity])) as (_ & Hb & Hs).
  rewrite Hb, Hs. vm_compute. split; reflexivity.
Defined.
End witnesses.

(** The drift can disable the mempool: there is an execution after which the mempool is empty
    while the byte counter, wrapped below zero, is close to 2^64; from then on every transaction of at
    most 18 bytes is evicted by the very call that adds it, although 40 bytes are allowed. *)
Theorem tx_mempool_can_wedge :
  exists (CP : CryptoPrims) (ops : list mempool_op),
    let t := mempool_run ops (NewTxFIFOMempool 40 1) in
    IsEmptyTxs t = true /\ TxsBytesTotal t = 2 ^ 64 - 19 /\
    (forall tx : bytes, blen tx <= 18 -> (AddTx tx t).1 = None /\ IsEmptyTxs (AddTx tx t).2 = true).
Proof.
  exists ToyCrypto.prims, [MAdd "a"%string; MAdd "bbbbbbbbbbbbbbbbbbbb"%string; MPop].
  set (t := mempool_run _ _). split_and!; [vm_compute; reflexivity..|].
  intros tx Hlen. assert (queue (g t) ++ [tx] = tx :: []) as Hq by (vm_compute; reflexivity).
  assert (@evicts ToyCrypto.prims tx t = true) as Hev.
  { unfold evicts. rewrite push_overflows_eq.
    assert (ContainsTx (@GetHashStringFromBytes ToyCrypto.prims tx) t = false) as ->.
    { apply bool_decide_eq_false_2. vm_compute (set (g t)). apply not_elem_of_empty. }
    assert (txsBytesTotal (cnt t) = 2 ^ 64 - 19) as -> by (vm_compute; reflexivity).
    assert (0 <= blen tx) by (unfold blen; lia). rewrite u64_small by (unfold in_u64; lia).
    change (maxTxsBytesTotal t) with 40. rewrite (bool_decide_eq_true_2 (40 < _)) by lia.
    by rewrite orb_true_r. }
  clearbody t. by rewrite (@AddTx_evicts ToyCrypto.prims _ _ _ _ Hev Hq).
Qed.
End TxMempool.
