(* ===== verification/FifoList.v ===== *)
(** First-in first-out list used by the consensus mempool
    (src/shared/mempool/list/generic_fifo_list.go).

    Unlike [GenericFIFOSet] the list accepts duplicates and compares items with
    [isEqual].  The hooks are programs on the owner's state [C]: the ones installed
    by the hotstuff mempool may end the process, so they live in the monad. *)

From S2P Require Import Prelude.

Module FIFOList.
Section ops.
Context {TData C E : Type}.

Record GenericFIFOList := { queue : list TData; capacity : Z }.

Record Options := {
  isEqual : TData -> TData -> M C E bool;
  isOverflowing : option (GenericFIFOList -> M C E bool);
  onAdd : TData -> M C E unit;
  onRemove : TData -> M C E unit;
}.

Definition defaultIsOverflowing (g : GenericFIFOList) : M C E bool :=
  mret (bool_decide (capacity g < Z.of_nat (length (queue g)))).

Definition defaultIsEqual `{EqDecision TData} (a b : TData) : M C E bool := mret (bool_decide (a = b)).

Definition NewGenericFIFOList (cap : Z) : GenericFIFOList := {| queue := []; capacity := cap |}.

Definition defaultOptions `{EqDecision TData} : Options := {|
  isEqual := defaultIsEqual;
  isOverflowing := Some defaultIsOverflowing;
  onAdd := fun _ => mret tt;
  onRemove := fun _ => mret tt;
|}.

Definition WithCustomIsOverflowingFn (fn : GenericFIFOList -> M C E bool) (o : Options) : Options :=
  {| isEqual := isEqual o; isOverflowing := Some fn; onAdd := onAdd o; onRemove := onRemove o |}.
Definition WithOnAdd (fn : TData -> M C E unit) (o : Options) : Options :=
  {| isEqual := isEqual o; isOverflowing := isOverflowing o; onAdd := fn; onRemove := onRemove o |}.
Definition WithOnRemove (fn : TData -> M C E unit) (o : Options) : Options :=
  {| isEqual := isEqual o; isOverflowing := isOverflowing o; onAdd := onAdd o; onRemove := fn |}.
Definition WithIsEqual (fn : TData -> TData -> M C E bool) (o : Options) : Options :=
  {| isEqual := fn; isOverflowing := isOverflowing o; onAdd := onAdd o; onRemove := onRemove o |}.

Context (o : Options).

(** The state an operation works on: the list and the owner's state. *)
Definition ST : Type := GenericFIFOList * C.

(** A hook runs on the owner's part of the state. *)
Definition hook {A} (m : M C E A) : M ST E A := fun st =>
  let '(r, c') := m st.2 in (r, (st.1, c')).

Definition set_queue (q : list TData) : M ST E unit :=
  modify (fun st => ({| queue := q; capacity := capacity st.1 |}, st.2)).

(** On overflow the front of the list leaves, but [onRemove] is called with the
    item that was just pushed, as in the source. *)
Definition Push (item : TData) : M ST E unit :=
  q ← gets (fun st => queue st.1);
  set_queue (q ++ [item]) ;;
  hook (onAdd o item) ;;
  g1 ← gets fst;
  overflows ← match isOverflowing o with Some f => hook (f g1) | None => mret false end;
  if (overflows : bool) then
    set_queue (tail (queue g1)) ;;
    hook (onRemove o item)
  else mret tt.

(** [None] is the error [empty set]. *)
Definition Pop : M ST E (option TData) :=
  q ← gets (fun st => queue st.1);
  match q with
  | [] => mret None
  | item :: rest => set_queue rest ;; hook (onRemove o item) ;; mret (Some item)
  end.

(** The scan of [Remove]: what is before the first equal element, and what is after it. *)
Fixpoint findEqual (item : TData) (seen l : list TData) : M C E (option (list TData)) :=
  match l with
  | [] => mret None
  | e :: l' =>
      b ← isEqual o e item;
      if (b : bool) then mret (Some (seen ++ l')) else findEqual item (seen ++ [e]) l'
  end.

Definition Remove (item : TData) : M ST E unit :=
  q ← gets (fun st => queue st.1);
  r ← hook (findEqual item [] q);
  match r with
  | Some q' => set_queue q' ;; hook (onRemove o item)
  | None => mret tt
  end.

Definition Len (g : GenericFIFOList) : Z := Z.of_nat (length (queue g)).
Definition Clear : M ST E unit := set_queue [].
Definition IsEmpty (g : GenericFIFOList) : bool := bool_decide (Z.of_nat (length (queue g)) = 0).

Fixpoint containsFrom (item : TData) (l : list TData) : M C E bool :=
  match l with
  | [] => mret false
  | e :: l' => b ← isEqual o e item; if (b : bool) then mret true else containsFrom item l'
  end.
Definition Contains (item : TData) : M ST E bool :=
  q ← gets (fun st => queue st.1); hook (containsFrom item q).

Definition GetAll (g : GenericFIFOList) : list TData := queue g.
End ops.
Arguments GenericFIFOList TData : clear implicits.
Arguments Options TData C E : clear implicits.
Arguments ST TData C : clear implicits.
End FIFOList.
