(* ===== verification/HotstuffMempool.v ===== *)
(** The consensus module's mempool of hotstuff messages
    (src/consensus/hotstuff_mempool.go), built on [GenericFIFOList].

    The protobuf encoder is a parameter: [marshal m] is [None] where
    [codec.GetCodec().Marshal] fails, which the code answers with [log.Fatalf]. *)

From S2P Require Import Prelude GoStd Errors Crypto FifoList.

Module HotstuffMempool.
Import FIFOList.

Record counters := {
  size : Z;                          (* uint32 *)
  totalMsgBytes : Z;                 (* uint64 *)
  maxTotalMsgBytes : Z;              (* uint64 *)
  hashCounterSet : gmap string Z;    (* map[string]uint8 *)
}.

Definition hostfuffFIFOMempoolCapacity : Z := 100000.

Section ops.
Context `{CryptoPrims} {Msg : Type} (marshal : Msg -> option bytes).

Abbreviation HM := (M counters Error).
Abbreviation MP := (M (ST Msg counters) Error).

Definition Marshal (m : Msg) : HM bytes :=
  match marshal m with Some b => mret b | None => panic end.

Definition hashMsg (m : Msg) : HM string := b ← Marshal m; mret (GetHashStringFromBytes b).

Definition set_size_bytes (f g : Z -> Z) (c : counters) : counters := {|
  size := f (size c); totalMsgBytes := g (totalMsgBytes c);
  maxTotalMsgBytes := maxTotalMsgBytes c; hashCounterSet := hashCounterSet c |}.
Definition set_hashes (f : gmap string Z -> gmap string Z) (c : counters) : counters := {|
  size := size c; totalMsgBytes := totalMsgBytes c;
  maxTotalMsgBytes := maxTotalMsgBytes c; hashCounterSet := f (hashCounterSet c) |}.

Definition incrementCounters (item : Msg) : HM unit :=
  b ← Marshal item;
  modify (set_size_bytes (fun n => u32 (n + 1)) (fun n => u64 (n + blen b))).

Definition decrementCounters (item : Msg) : HM unit :=
  b ← Marshal item;
  modify (set_size_bytes (fun n => u32 (n - 1)) (fun n => u64 (n - blen b))).

(** A missing key reads as zero. *)
Definition msgOnAdd (item : Msg) : HM unit :=
  hash ← hashMsg item;
  (* a duplicate is only logged *)
  modify (set_hashes (fun s => <[hash := u8 (default 0 (s !! hash) + 1)]> s)) ;;
  incrementCounters item.

Definition msgOnRemove (item : Msg) : HM unit :=
  hash ← hashMsg item;
  s ← gets hashCounterSet;
  match s !! hash with
  | Some prevHashCount =>
      modify (set_hashes (fun s => <[hash := u8 (prevHashCount - 1)]> s)) ;;
      if bool_decide (prevHashCount = 1) then modify (set_hashes (delete hash)) else mret tt
  | None => mret tt
  end ;;
  decrementCounters item.

Definition msgIsOverflowing (_ : GenericFIFOList Msg) : HM bool :=
  gets (fun c => bool_decide (maxTotalMsgBytes c <= totalMsgBytes c)).

Definition msgIsEqual (a b : Msg) : HM bool :=
  ha ← hashMsg a; hb ← hashMsg b; mret (bool_decide (ha = hb)).

Definition msgOptions : Options Msg counters Error := {|
  isEqual := msgIsEqual;
  isOverflowing := Some msgIsOverflowing;
  onAdd := msgOnAdd;
  onRemove := msgOnRemove;
|}.

Definition NewHotstuffFIFOMempool (maxBytes : Z) : ST Msg counters :=
  (NewGenericFIFOList hostfuffFIFOMempoolCapacity,
   {| size := 0; totalMsgBytes := 0; maxTotalMsgBytes := maxBytes; hashCounterSet := ∅ |}).

Definition Push (m : Msg) : MP unit := FIFOList.Push msgOptions m.
Definition resetCounters : HM unit := modify (set_size_bytes (fun _ => 0) (fun _ => 0)).
Definition Clear : MP unit := FIFOList.Clear ;; hook resetCounters.
Definition IsEmpty (st : ST Msg counters) : bool := FIFOList.IsEmpty st.1.
Definition Pop : MP (option Msg) := FIFOList.Pop msgOptions.
Definition Remove (m : Msg) : MP unit := FIFOList.Remove msgOptions m.
Definition Size (st : ST Msg counters) : Z := size st.2.
Definition TotalMsgBytes (st : ST Msg counters) : Z := totalMsgBytes st.2.
Definition GetAll (st : ST Msg counters) : list Msg := FIFOList.GetAll st.1.
Definition Contains (m : Msg) : MP bool :=
  hash ← hook (hashMsg m);
  gets (fun st => match hashCounterSet st.2 !! hash with Some _ => true | None => false end).
End ops.

(** ** Specification: a plain queue of messages *)
Section spec.
Context `{CryptoPrims} {Msg : Type} (marshal : Msg -> option bytes).

Inductive mop := MPush (m : Msg) | MPop | MRemove (m : Msg).

(** Encoded bytes and hash of a message that can be encoded. *)
Definition mbytes (m : Msg) : bytes := default EmptyString (marshal m).
Definition mhash (m : Msg) : string := GetHashStringFromBytes (mbytes m).

Fixpoint spec_remove (h : string) (q : list Msg) : list Msg :=
  match q with
  | [] => []
  | e :: q' => if decide (mhash e = h) then q' else e :: spec_remove h q'
  end.

Definition spec_op (op : mop) (q : list Msg) : list Msg :=
  match op with
  | MPush m => q ++ [m]
  | MPop => tail q
  | MRemove m => spec_remove (mhash m) q
  end.

Definition spec_run (ops : list mop) (q : list Msg) : list Msg := foldl (fun q op => spec_op op q) q ops.

(** What each operation of a run answers: [Pop] the front of the queue ([None] when it is
    empty), the other two nothing. *)
Fixpoint spec_outs (ops : list mop) (q : list Msg) : list (res Error (option Msg)) :=
  match ops with
  | [] => []
  | op :: ops' => Ok (match op with MPop => head q | _ => None end) :: spec_outs ops' (spec_op op q)
  end.

(** The messages a run handles. *)
Definition op_msgs (op : mop) : list Msg :=
  match op with MPush m | MRemove m => [m] | MPop => [] end.
Definition run_msgs (ops : list mop) : list Msg := ops ≫= op_msgs.

(** Number of queued messages with hash [h]. *)
Definition occ (h : string) (q : list Msg) : Z := lsum ((fun m => if decide (mhash m = h) then 1 else 0) <$> q).
Definition queuedBytes (q : list Msg) : Z := lsum ((fun m => blen (mbytes m)) <$> q).

#[local] Arguments occ : simpl never.
#[local] Arguments queuedBytes : simpl never.

(** The state after one operation of the implementation, and what the operation answers. *)
Definition impl_op (op : mop) (st : ST Msg counters) : ST Msg counters :=
  match op with
  | MPush m => (Push marshal m st).2
  | MPop => (Pop marshal st).2
  | MRemove m => (Remove marshal m st).2
  end.
Definition impl_run (ops : list mop) (st : ST Msg counters) : ST Msg counters :=
  foldl (fun st op => impl_op op st) st ops.
Definition impl_out (op : mop) (st : ST Msg counters) : res Error (option Msg) :=
  match op with
  | MPush m => ((Push marshal m ;; mret None) st).1
  | MPop => (Pop marshal st).1
  | MRemove m => ((Remove marshal m ;; mret None) st).1
  end.
Fixpoint impl_outs (ops : list mop) (st : ST Msg counters) : list (res Error (option Msg)) :=
  match ops with
  | [] => []
  | op :: ops' => impl_out op st :: impl_outs ops' (impl_op op st)
  end.

Definition encodable (m : Msg) : bool := match marshal m with Some _ => true | None => false end.

(** The operations the counters are designed for: messages encode, a pushed message
    leaves the byte total below the limit (no eviction), and at most 255 copies of a
    message are queued (the width of its counter). *)
Definition op_fits (op : mop) (st : ST Msg counters) : bool :=
  match op with
  | MPush m =>
      encodable m && bool_decide (u64 (totalMsgBytes st.2 + blen (mbytes m)) < maxTotalMsgBytes st.2)
      && bool_decide (occ (mhash m) (queue st.1) < 255)
  | MPop => true
  | MRemove m => encodable m
  end.
Fixpoint run_fits (ops : list mop) (st : ST Msg counters) : bool :=
  match ops with
  | [] => true
  | op :: ops' => op_fits op st && run_fits ops' (impl_op op st)
  end.

Record mempool_inv (st : ST Msg counters) : Prop := {
  inv_enc : Forall (fun m => encodable m = true) (queue st.1);
  inv_size : size st.2 = u32 (Z.of_nat (length (queue st.1)));
  inv_bytes : totalMsgBytes st.2 = u64 (queuedBytes (queue st.1));
  inv_hash : forall h, hashCounterSet st.2 !! h =
               (if decide (occ h (queue st.1) = 0) then None else Some (occ h (queue st.1)));
  inv_occ : forall h, occ h (queue st.1) <= 255;
}.

Definition added (m : Msg) (c : counters) : counters := {|
  size := u32 (size c + 1); totalMsgBytes := u64 (totalMsgBytes c + blen (mbytes m));
  maxTotalMsgBytes := maxTotalMsgBytes c;
  hashCounterSet := <[mhash m := u8 (default 0 (hashCounterSet c !! mhash m) + 1)]> (hashCounterSet c) |}.

Definition removed (m : Msg) (c : counters) : counters := {|
  size := u32 (size c - 1); totalMsgBytes := u64 (totalMsgBytes c - blen (mbytes m));
  maxTotalMsgBytes := maxTotalMsgBytes c;
  hashCounterSet :=
    match hashCounterSet c !! mhash m with
    | Some n => if decide (n = 1) then delete (mhash m) (hashCounterSet c)
                else <[mhash m := u8 (n - 1)]> (hashCounterSet c)
    | None => hashCounterSet c
    end |}.

Lemma hashMsg_run m c : encodable m = true -> hashMsg marshal m c = (Ok (mhash m), c).
Proof. unfold hashMsg, encodable, mhash, mbytes, Marshal. by destruct (marshal m). Qed.

Lemma msgOnAdd_run m c : encodable m = true -> msgOnAdd marshal m c = (Ok tt, added m c).
Proof.
  intros He. unfold msgOnAdd. rewrite (bind_run _ _ _ _ _ (hashMsg_run m c He)).
  unfold encodable, added, mbytes, incrementCounters, Marshal, mhash in *.
  unfold mbytes. by destruct (marshal m).
Qed.

Lemma msgOnRemove_run m c : encodable m = true -> msgOnRemove marshal m c = (Ok tt, removed m c).
Proof.
  intros He. unfold msgOnRemove. rewrite (bind_run _ _ _ _ _ (hashMsg_run m c He)).
  unfold removed. cbv [mbind M_bind gets].
  destruct (hashCounterSet c !! mhash m) as [n|] eqn:Hn.
  - cbn. destruct (decide (n = 1)) as [->|Hne]; [rewrite bool_decide_eq_true_2 by done |
      rewrite bool_decide_eq_false_2 by done]; cbn;
    unfold encodable, decrementCounters, Marshal, mbind, M_bind, mbytes in *; destruct (marshal m); try done.
    cbn. unfold set_size_bytes, set_hashes. cbn. do 2 f_equal. by rewrite delete_insert_eq.
  - cbn. unfold encodable, decrementCounters, Marshal, mbind, M_bind, mbytes in *. by destruct (marshal m).
Qed.

Lemma occ_app h q1 q2 : occ h (q1 ++ q2) = occ h q1 + occ h q2.
Proof. unfold occ. by rewrite fmap_app, lsum_app. Qed.
Lemma occ_cons h m q : occ h (m :: q) = (if decide (mhash m = h) then 1 else 0) + occ h q.
Proof. done. Qed.
Lemma occ_nil h : occ h [] = 0.
Proof. done. Qed.
Lemma occ_nonneg h q : 0 <= occ h q.
Proof. apply lsum_nonneg, Forall_fmap, Forall_forall. intros m _. cbn. case_decide; lia. Qed.

(** Taking out the first message with hash [h] lowers exactly its own count. *)
Lemma occ_spec_remove h h' q :
  0 < occ h q -> occ h' (spec_remove h q) = occ h' q - (if decide (h = h') then 1 else 0).
Proof.
  induction q as [|e q IH]; intros Hpos; [by cbv in Hpos|].
  rewrite occ_cons in *. cbn [spec_remove].
  destruct (decide (mhash e = h)) as [->|Hne].
  - destruct (decide (h = h')); lia.
  - rewrite occ_cons, IH by lia. lia.
Qed.

Lemma spec_remove_absent h q : occ h q = 0 -> spec_remove h q = q.
Proof.
  induction q as [|e q IH]; intros H0; [done|]. rewrite occ_cons in H0. cbn.
  pose proof (occ_nonneg h q). destruct (decide (mhash e = h)); [lia|]. by rewrite IH by lia.
Qed.

Lemma spec_remove_len h q :
  0 < occ h q -> Z.of_nat (length (spec_remove h q)) = Z.of_nat (length q) - 1.
Proof.
  induction q as [|e q IH]; intros Hpos; [by cbv in Hpos|].
  rewrite occ_cons in Hpos. cbn. destruct (decide (mhash e = h)); [lia|]. cbn. rewrite !Nat2Z.inj_succ, IH; lia.
Qed.

Lemma spec_remove_enc h q :
  Forall (fun m => encodable m = true) q -> Forall (fun m => encodable m = true) (spec_remove h q).
Proof. induction 1 as [|e q He Hq IH]; cbn; [constructor|]. case_decide; [done|by constructor]. Qed.

(** The scan of [Remove] computes [spec_remove]. *)
Lemma findEqual_run m seen q c :
  encodable m = true -> Forall (fun m => encodable m = true) q ->
  findEqual (msgOptions marshal) m seen q c =
    (Ok (if decide (occ (mhash m) q = 0) then None else Some (seen ++ spec_remove (mhash m) q)), c).
Proof.
  intros Hm Hq. revert seen. induction Hq as [|e q He Hq IH]; intros seen; [done|].
  cbn [findEqual]. erewrite bind_run; [| cbn; unfold msgIsEqual;
    rewrite (bind_run _ _ _ _ _ (hashMsg_run e c He)), (bind_run _ _ _ _ _ (hashMsg_run m c Hm)); done].
  rewrite occ_cons. cbn [spec_remove]. pose proof (occ_nonneg (mhash m) q).
  destruct (decide (mhash e = mhash m)) as [Heq|Hne].
  - rewrite bool_decide_eq_true_2, decide_False by (done || lia). done.
  - rewrite bool_decide_eq_false_2 by done. rewrite IH, Z.add_0_l.
    destruct (decide (occ (mhash m) q = 0)); [done|]. by rewrite <- app_assoc.
Qed.

(** No two of the messages [ms] collide under the hash. *)
Definition no_collision (ms : list Msg) : Prop :=
  forall m m', m ∈ ms -> m' ∈ ms -> mhash m = mhash m' -> mbytes m = mbytes m'.

Lemma spec_remove_sub h q ms : q ⊆ ms -> spec_remove h q ⊆ ms.
Proof.
  induction q as [|e q IH]; intros Hs; [done|]. cbn. case_decide; [set_solver|].
  assert (spec_remove h q ⊆ ms) by (apply IH; set_solver). set_solver.
Qed.

Lemma spec_op_sub op q ms : q ⊆ ms -> op_msgs op ⊆ ms -> spec_op op q ⊆ ms.
Proof.
  intros Hq Ho. destruct op as [m| |m]; cbn in *; [set_solver | destruct q; set_solver | by apply spec_remove_sub].
Qed.

Lemma spec_remove_bytes m q ms :
  no_collision ms -> q ⊆ ms -> m ∈ ms ->
  0 < occ (mhash m) q -> queuedBytes (spec_remove (mhash m) q) = queuedBytes q - blen (mbytes m).
Proof.
  intros Hnc Hq Hm. unfold queuedBytes, lsum. induction q as [|e q IH]; intros Hpos; [by cbv in Hpos|].
  rewrite occ_cons in Hpos. cbn. destruct (decide (mhash e = mhash m)) as [Heq|Hne].
  - rewrite (Hnc e m); [lia | set_solver | done | done].
  - cbn. rewrite IH; [lia | set_solver | lia].
Qed.

(** Runs of the three operations in terms of [added] and [removed]. *)
Lemma Push_run m st :
  op_fits (MPush m) st = true ->
  Push marshal m st = (Ok tt, ({| queue := queue st.1 ++ [m]; capacity := capacity st.1 |}, added m st.2)).
Proof.
  cbn. intros [[He Hb]%andb_prop Ho]%andb_prop. apply bool_decide_eq_true in Hb.
  unfold Push, FIFOList.Push. cbv [mbind M_bind gets hook set_queue modify]. cbn.
  rewrite (msgOnAdd_run m _ He). cbn. by rewrite bool_decide_eq_false_2 by (cbn; lia).
Qed.

Lemma Pop_run st :
  Forall (fun m => encodable m = true) (queue st.1) ->
  Pop marshal st = match queue st.1 with
                   | [] => (Ok None, st)
                   | m :: q => (Ok (Some m), ({| queue := q; capacity := capacity st.1 |}, removed m st.2))
                   end.
Proof.
  intros He. unfold Pop, FIFOList.Pop. cbv [mbind M_bind gets hook set_queue modify].
  destruct (queue st.1) as [|m q]; [done|]. apply Forall_cons in He as [Hm _].
  cbn. by rewrite (msgOnRemove_run m _ Hm).
Qed.

Lemma Remove_run m st :
  encodable m = true -> Forall (fun m => encodable m = true) (queue st.1) ->
  Remove marshal m st =
    if decide (occ (mhash m) (queue st.1) = 0) then (Ok tt, st)
    else (Ok tt, ({| queue := spec_remove (mhash m) (queue st.1); capacity := capacity st.1 |}, removed m st.2)).
Proof.
  intros Hm Hq. unfold Remove, FIFOList.Remove. cbv [mbind M_bind gets hook set_queue modify].
  rewrite (findEqual_run m [] _ _ Hm Hq). destruct st as [g c]. cbn.
  destruct (decide _); cbn; [done|]. by rewrite (msgOnRemove_run m _ Hm).
Qed.

(** Adding a message to the queue and to the counters keeps the invariant. *)
Lemma inv_added m q cap cap' c :
  mempool_inv ({| queue := q; capacity := cap |}, c) -> encodable m = true -> occ (mhash m) q < 255 ->
  mempool_inv ({| queue := q ++ [m]; capacity := cap' |}, added m c).
Proof.
  intros [He Hs Hb Hh Ho] Hm Hlt. cbn in *. split; cbn.
  - by apply Forall_app_2, Forall_singleton.
  - rewrite Hs, u32_add_l, length_app. f_equal. cbn. lia.
  - rewrite Hb, u64_add_l. unfold queuedBytes. rewrite fmap_app, lsum_app. f_equal. f_equal. unfold lsum. cbn. lia.
  - intros h. rewrite occ_app, occ_cons, occ_nil, Z.add_0_r.
    pose proof (occ_nonneg (mhash m) q) as Hnn.
    destruct (decide (mhash m = h)) as [<-|Hne].
    + rewrite lookup_insert_eq, Hh, (decide_False (P := occ (mhash m) q + 1 = 0)) by lia.
      unfold u8. f_equal. destruct (decide (occ (mhash m) q = 0)) as [->|]; cbn; [done|].
      rewrite Z.mod_small; [lia|]. split; [lia|]. change (2 ^ 8) with 256. lia.
    + rewrite lookup_insert_ne, Hh, Z.add_0_r by done. done.
  - intros h. rewrite occ_app, occ_cons, occ_nil, Z.add_0_r. specialize (Ho h).
    destruct (decide (mhash m = h)) as [<-|Hne]; lia.
Qed.

(** Removing a message that is queued. *)
Lemma inv_removed m q q' cap cap' c :
  mempool_inv ({| queue := q; capacity := cap |}, c) -> 0 < occ (mhash m) q ->
  Forall (fun m => encodable m = true) q' ->
  Z.of_nat (length q') = Z.of_nat (length q) - 1 ->
  queuedBytes q' = queuedBytes q - blen (mbytes m) ->
  (forall h, occ h q' = occ h q - (if decide (mhash m = h) then 1 else 0)) ->
  mempool_inv ({| queue := q'; capacity := cap' |}, removed m c).
Proof.
  intros [He Hs Hb Hh Ho] Hpos Henc Hlen Hbytes Hocc. cbn in *. split; cbn; [done|..].
  - rewrite Hs, u32_sub_l. f_equal. lia.
  - rewrite Hb, u64_sub_l. f_equal. lia.
  - intros h. rewrite Hh, (decide_False (P := occ (mhash m) q = 0)) by lia. rewrite Hocc.
    specialize (Ho (mhash m)). destruct (decide (mhash m = h)) as [<-|Hne].
    + destruct (decide (occ (mhash m) q = 1)) as [H1|H1].
      * rewrite lookup_delete_eq, decide_True by lia. done.
      * rewrite lookup_insert_eq, decide_False by lia. f_equal. unfold u8.
        rewrite Z.mod_small; [done|]. change (2 ^ 8) with 256. lia.
    + rewrite Z.sub_0_r. destruct (decide (occ (mhash m) q = 1)).
      * by rewrite lookup_delete_ne, Hh.
      * by rewrite lookup_insert_ne, Hh.
  - intros h. rewrite Hocc. specialize (Ho h). destruct (decide (mhash m = h)); lia.
Qed.

Lemma op_refines op st ms :
  no_collision ms -> queue st.1 ⊆ ms -> op_msgs op ⊆ ms ->
  mempool_inv st -> op_fits op st = true ->
  mempool_inv (impl_op op st) /\ queue (impl_op op st).1 = spec_op op (queue st.1) /\
  impl_out op st = Ok (match op with MPop => head (queue st.1) | _ => None end).
Proof.
  intros Hnc Hsub Hop Hinv Hfit. pose proof (inv_enc _ Hinv) as Henc.
  destruct op as [m| |m]; cbn [impl_op spec_op impl_out].
  - rewrite (bind_run _ _ _ _ _ (Push_run m st Hfit)). rewrite Push_run by done.
    cbn in Hfit |- *. apply andb_prop in Hfit as [[He _]%andb_prop Ho].
    apply bool_decide_eq_true in Ho. destruct st as [[q cap] c]. split; [|done].
    by eapply inv_added.
  - rewrite Pop_run by done. destruct st as [[q cap] c]. cbn in *.
    destruct q as [|m q]; [done|]. cbn. split; [|done].
    apply Forall_cons in Henc as [Hm Hq].
    eapply inv_removed; [done| | done | cbn; lia | | ].
    + rewrite occ_cons, decide_True by done. pose proof (occ_nonneg (mhash m) q). lia.
    + unfold queuedBytes, lsum. cbn. lia.
    + intros h. rewrite occ_cons. lia.
  - cbn in Hfit. rewrite bind_eq, Remove_run by done. destruct st as [[q cap] c]. cbn in *.
    pose proof (occ_nonneg (mhash m) q). destruct (decide (occ (mhash m) q = 0)) as [Hz|Hz].
    + split; [done|]. cbn. by rewrite spec_remove_absent.
    + split; [|done]. eapply inv_removed; [done | lia | by apply spec_remove_enc | | | ].
      * apply spec_remove_len. lia.
      * apply (spec_remove_bytes _ _ ms); [done | done | set_solver | lia].
      * intros h. apply occ_spec_remove. lia.
Qed.

Lemma run_refines ops st ms :
  no_collision ms -> queue st.1 ⊆ ms -> run_msgs ops ⊆ ms ->
  mempool_inv st -> run_fits ops st = true ->
  mempool_inv (impl_run ops st) /\ queue (impl_run ops st).1 = spec_run ops (queue st.1) /\
  impl_outs ops st = spec_outs ops (queue st.1).
Proof.
  intros Hnc. revert st. induction ops as [|op ops IH]; intros st Hsub Hms Hinv Hfit; [done|].
  cbn in Hfit, Hms. apply andb_prop in Hfit as [H1 H2]. apply list_subseteq_app_iff_l in Hms as [Hm1 Hm2].
  destruct (op_refines op st ms Hnc Hsub Hm1 Hinv H1) as (Hi & Hq & Ho). cbn. rewrite Ho, <- Hq.
  destruct (IH (impl_op op st)) as (? & ? & Houts); [rewrite Hq; by apply spec_op_sub | done..|].
  by rewrite Houts.
Qed.

Lemma inv_new maxBytes : mempool_inv (NewHotstuffFIFOMempool maxBytes).
Proof. split; cbn; try done. Qed.

Lemma Contains_run m st :
  mempool_inv st -> encodable m = true ->
  Contains marshal m st = (Ok (bool_decide (mhash m ∈ (mhash <$> queue st.1))), st).
Proof.
  intros Hinv Hm. unfold Contains. cbv [mbind M_bind hook]. rewrite hashMsg_run by done.
  destruct st as [g c]. unfold gets. cbn. do 2 f_equal. rewrite (inv_hash _ Hinv). cbn.
  assert (occ (mhash m) (queue g) = 0 <-> mhash m ∉ (mhash <$> queue g)) as Hiff.
  { generalize (queue g). intros q. induction q as [|e q IH]; [split; [set_solver|done]|].
    rewrite occ_cons. cbn. rewrite not_elem_of_cons, <- IH. pose proof (occ_nonneg (mhash m) q).
    destruct (decide (mhash e = mhash m)); naive_solver lia. }
  destruct (decide _) as [Hz|Hz].
  - rewrite bool_decide_eq_false_2; [done|]. tauto.
  - rewrite bool_decide_eq_true_2; [done|]. destruct (decide (mhash m ∈ (mhash <$> queue g))); tauto.
Qed.
End spec.


Lemma Clear_hashes {Msg} (st : ST Msg counters) : hashCounterSet (Clear st).2.2 = hashCounterSet st.2.
Proof. done. Qed.

(** [Clear] empties the list and the two counters but not [hashCounterSet]: a message
    pushed before [Clear] is still reported by [Contains], on an empty mempool. *)
Theorem hotstuff_mempool_clear_keeps_hashes `{CryptoPrims} {Msg : Type} (marshal : Msg -> option bytes)
    (m : Msg) (st0 : ST Msg counters) :
  op_fits marshal (MPush m) st0 = true ->
  let st := (Clear (impl_op marshal (MPush m) st0)).2 in
  GetAll st = [] /\ Size st = 0 /\ Contains marshal m st = (Ok true, st).
Proof.
  intros Hfit. cbn [impl_op]. rewrite Push_run by done. cbn in Hfit |- *.
  apply andb_prop in Hfit as [[He _]%andb_prop _]. split; [done|]. split; [done|].
  unfold Contains. cbv [mbind M_bind hook]. rewrite hashMsg_run by done.
  unfold gets. cbn [snd]. rewrite Clear_hashes. cbn [snd added hashCounterSet]. by rewrite lookup_insert_eq, <- surjective_pairing.
Qed.

Section witnesses.
Let marshal (b : bool) : option bytes := Some (if b then "a" else "bc")%string.
Let ops := [MPush true; MPush false; MPush true; MRemove false; MPop].


Lemma hotstuff_mempool_clear_keeps_hashes_witness :
  Size (Clear (impl_op (H := ToyCrypto.prims) marshal (MPush true) (NewHotstuffFIFOMempool 100))).2 = 0.
Proof.
  refine (proj1 (proj2 (@hotstuff_mempool_clear_keeps_hashes ToyCrypto.prims bool marshal true (NewHotstuffFIFOMempool 100) _))).
  vm_compute. reflexivity.
Defined.
End witnesses.
End HotstuffMempool.
