(* ===== verification/CoreTypes.v ===== *)
(** Shared data types of the protocol (src/shared/core/types, src/shared/utils/num_utils.go):
    actor types, stake statuses, pools and their addresses, actors, numeric conversions.

    Protobuf enums are open, so an enum value is its int32 number. *)

From S2P Require Import Prelude GoStd Errors Crypto.
#[local] Open Scope string_scope.
#[local] Open Scope Z_scope.

(** ** Enums *)
Definition ACTOR_TYPE_UNSPECIFIED : Z := 0.
Definition ACTOR_TYPE_APP : Z := 1.
Definition ACTOR_TYPE_SERVICER : Z := 2.
Definition ACTOR_TYPE_FISH : Z := 3.
Definition ACTOR_TYPE_VAL : Z := 4.

(** The generated map [ActorType_name]. *)
Definition ActorType_name : list (Z * string) := [
  (0, "ACTOR_TYPE_UNSPECIFIED"); (1, "ACTOR_TYPE_APP"); (2, "ACTOR_TYPE_SERVICER");
  (3, "ACTOR_TYPE_FISH"); (4, "ACTOR_TYPE_VAL")].

Definition lookupZ {A} (k : Z) (l : list (Z * A)) : option A :=
  snd <$> (snd <$> list_find (fun p => p.1 = k) l).

(** [a.GetName()]: the zero value for a number that has no name. *)
Definition ActorType_GetName (a : Z) : string := default "" (lookupZ a ActorType_name).
(** The generated [String()] prints the number when there is no name. *)
Definition ActorType_String (a : Z) : string := default (bigIntText a) (lookupZ a ActorType_name).

Definition StakeStatus_UnknownStatus : Z := 0.
Definition StakeStatus_Unstaking : Z := 1.
Definition StakeStatus_Staked : Z := 2.
Definition StakeStatus_Unstaked : Z := 3.
Definition StakeStatus_known (s : Z) : bool := bool_decide (0 <= s <= 3).

(** ** Pools *)
Definition POOLS_UNSPECIFIED : Z := 0.
Definition POOLS_DAO : Z := 1.
Definition POOLS_FEE_COLLECTOR : Z := 2.
Definition POOLS_APP_STAKE : Z := 3.
Definition POOLS_VALIDATOR_STAKE : Z := 4.
Definition POOLS_SERVICER_STAKE : Z := 5.
Definition POOLS_FISHERMAN_STAKE : Z := 6.

Definition poolFriendlyNames : list (Z * string) := [
  (POOLS_UNSPECIFIED, "");
  (POOLS_DAO, "DAO");
  (POOLS_FEE_COLLECTOR, "FeeCollector");
  (POOLS_APP_STAKE, "AppStakePool");
  (POOLS_VALIDATOR_STAKE, "ValidatorStakePool");
  (POOLS_SERVICER_STAKE, "ServicerStakePool");
  (POOLS_FISHERMAN_STAKE, "FishermanStakePool")].

Definition poolAddresses : list (Z * bytes) := [
  (POOLS_UNSPECIFIED, "");
  (POOLS_DAO, "44414f0000000000000000000000000000000000");
  (POOLS_FEE_COLLECTOR, "466565436f6c6c6563746f720000000000000000");
  (POOLS_APP_STAKE, "4170705374616b65506f6f6c0000000000000000");
  (POOLS_VALIDATOR_STAKE, "56616c696461746f725374616b65506f6f6c0000");
  (POOLS_SERVICER_STAKE, "53657276696365725374616b65506f6f6c000000");
  (POOLS_FISHERMAN_STAKE, "4669736865726d616e5374616b65506f6f6c0000")].

Definition poolAddressToFriendlyName : list (string * string) := [
  ("", "");
  ("44414f0000000000000000000000000000000000", "DAO");
  ("466565436f6c6c6563746f720000000000000000", "FeeCollector");
  ("4170705374616b65506f6f6c0000000000000000", "AppStakePool");
  ("56616c696461746f725374616b65506f6f6c0000", "ValidatorStakePool");
  ("53657276696365725374616b65506f6f6c000000", "ServicerStakePool");
  ("4669736865726d616e5374616b65506f6f6c0000", "FishermanStakePool")].

Definition lookupS {A} (k : string) (l : list (string * A)) : option A :=
  snd <$> (snd <$> list_find (fun p => p.1 = k) l).

Definition PoolAddressToFriendlyName (address : string) : string :=
  default "" (lookupS address poolAddressToFriendlyName).
Definition Pools_FriendlyName (pn : Z) : string := default "" (lookupZ pn poolFriendlyNames).
Definition Pools_Address (pn : Z) : bytes := default "" (lookupZ pn poolAddresses).

(** ** Actors and accounts *)
Record Actor := {
  ActorType : Z;
  Address : string;
  PublicKey : string;
  Chains : option (list string);   (* nil or a slice *)
  ServiceUrl : string;
  StakedAmount : string;
  PausedHeight : Z;
  UnstakingHeight : Z;
  Output : string;
}.

Record Account := { AccAddress : string; AccAmount : string }.

Record UnstakingActor := { UAddress : string; UStakeAmount : string; UOutputAddress : string }.

(** ** Numbers (src/shared/utils/num_utils.go) *)
Definition setStringErrorText : string := "unable to SetString() with base 10".

Definition StringToBigInt (s : string) : res string Z :=
  match bigIntSetString s with Some i => Ok i | None => Err setStringErrorText end.
Definition BigIntToString (b : Z) : string := bigIntText b.
Definition BigIntLessThan (a b : Z) : bool := bool_decide (a < b).

(** [binary.LittleEndian.Uint64] reads the first eight bytes and panics on fewer. *)
Definition HeightFromBytes (heightBz : bytes) : res string Z :=
  if bool_decide (blen heightBz < 8) then Panic else Ok (leValue (String.substring 0 8 heightBz)).
Definition HeightToBytes (height : Z) : bytes := leBytes 8 height.

Lemma StringToBigInt_text z : StringToBigInt (BigIntToString z) = Ok z.
Proof. unfold StringToBigInt, BigIntToString. by rewrite bigInt_text_parse. Qed.

Lemma substring_all s : String.substring 0 (String.length s) s = s.
Proof. induction s as [|c s IH]; [done|]. cbn. by rewrite IH. Qed.

(** [HeightFromBytes] undoes [HeightToBytes] for every uint64 height. *)
Theorem height_bytes_roundtrip (height : Z) :
  in_u64 height -> HeightFromBytes (HeightToBytes height) = Ok height.
Proof.
  intros Hh. unfold HeightFromBytes, HeightToBytes, blen. rewrite leBytes_length.
  rewrite bool_decide_eq_false_2 by lia.
  rewrite <- (leBytes_length 8 height) at 1. rewrite substring_all, leValue_leBytes.
  f_equal. by apply Z.mod_small.
Qed.

Lemma height_bytes_roundtrip_witness : HeightFromBytes (HeightToBytes 1234567) = Ok 1234567.
Proof. apply height_bytes_roundtrip. unfold in_u64. lia. Defined.

(** The pools of the protocol have pairwise different addresses, of the length of a
    hex-encoded address, and the friendly name is recovered from the address. *)
Definition protocolPools : list Z := [POOLS_DAO; POOLS_FEE_COLLECTOR; POOLS_APP_STAKE;
  POOLS_VALIDATOR_STAKE; POOLS_SERVICER_STAKE; POOLS_FISHERMAN_STAKE].

(** The addresses of the protocol's pools are pairwise distinct, 40 bytes long, and
    [PoolAddressToFriendlyName] maps each back to the pool's friendly name. *)
Theorem pool_addresses_ok :
  NoDup (Pools_Address <$> protocolPools) /\
  Forall (fun p => blen (Pools_Address p) = 40 /\
                   PoolAddressToFriendlyName (Pools_Address p) = Pools_FriendlyName p) protocolPools.
Proof.
  split.
  - apply (bool_decide_unpack _). vm_compute. exact I.
  - repeat constructor.
Qed.
