(* ===== verification/Gov.v ===== *)
(** Governance parameters: their names and owners (src/utility/types/gov.go), the value
    types the utility module reads them with (src/utility/unit_of_work/gov.go) and the
    metadata of the genesis parameters (src/shared/utils/gov_utils.go).

    [GovParamMetadata] is computed by reflection from the struct tags that the annotations
    of src/runtime/genesis/proto/genesis.proto put on the fields of [genesis.Params]; the
    annotated fields are listed here and [parseGovProto] is run on them. *)

From S2P Require Import Prelude GoStd CoreTypes.
#[local] Open Scope string_scope.

(** ** Parameter names *)
Definition BlocksPerSessionParamName : string := "blocks_per_session".
Definition AppMinimumStakeParamName : string := "app_minimum_stake".
Definition AppMaxChainsParamName : string := "app_max_chains".
Definition AppUnstakingBlocksParamName : string := "app_unstaking_blocks".
Definition AppMinimumPauseBlocksParamName : string := "app_minimum_pause_blocks".
Definition AppMaxPauseBlocksParamName : string := "app_max_pause_blocks".
Definition AppSessionTokensMultiplierParamName : string := "app_session_tokens_multiplier".
Definition ServicerMinimumStakeParamName : string := "servicer_minimum_stake".
Definition ServicerMaxChainsParamName : string := "servicer_max_chains".
Definition ServicerUnstakingBlocksParamName : string := "servicer_unstaking_blocks".
Definition ServicerMinimumPauseBlocksParamName : string := "servicer_minimum_pause_blocks".
Definition ServicerMaxPauseBlocksParamName : string := "servicer_max_pause_blocks".
Definition ServicersPerSessionParamName : string := "servicers_per_session".
Definition FishermanMinimumStakeParamName : string := "fisherman_minimum_stake".
Definition FishermanMaxChainsParamName : string := "fisherman_max_chains".
Definition FishermanUnstakingBlocksParamName : string := "fisherman_unstaking_blocks".
Definition FishermanMinimumPauseBlocksParamName : string := "fisherman_minimum_pause_blocks".
Definition FishermanMaxPauseBlocksParamName : string := "fisherman_max_pause_blocks".
Definition FishermanPerSessionParamName : string := "fisherman_per_session".
Definition ValidatorMinimumStakeParamName : string := "validator_minimum_stake".
Definition ValidatorUnstakingBlocksParamName : string := "validator_unstaking_blocks".
Definition ValidatorMinimumPauseBlocksParamName : string := "validator_minimum_pause_blocks".
Definition ValidatorMaxPausedBlocksParamName : string := "validator_max_pause_blocks".
Definition ValidatorMaximumMissedBlocksParamName : string := "validator_maximum_missed_blocks".
Definition ValidatorMaxEvidenceAgeInBlocksParamName : string := "validator_max_evidence_age_in_blocks".
Definition ProposerPercentageOfFeesParamName : string := "proposer_percentage_of_fees".
Definition MissedBlocksBurnPercentageParamName : string := "missed_blocks_burn_percentage".
Definition DoubleSignBurnPercentageParamName : string := "double_sign_burn_percentage".
Definition MessageStakeFishermanFee : string := "message_stake_fisherman_fee".
Definition MessageEditStakeFishermanFee : string := "message_edit_stake_fisherman_fee".
Definition MessageUnstakeFishermanFee : string := "message_unstake_fisherman_fee".
Definition MessagePauseFishermanFee : string := "message_pause_fisherman_fee".
Definition MessageUnpauseFishermanFee : string := "message_unpause_fisherman_fee".
Definition MessageFishermanPauseServicerFee : string := "message_fisherman_pause_servicer_fee".
Definition MessageTestScoreFee : string := "message_test_score_fee".
Definition MessageProveTestScoreFee : string := "message_prove_test_score_fee".
Definition MessageDoubleSignFee : string := "message_double_sign_fee".
Definition MessageSendFee : string := "message_send_fee".
Definition MessageStakeAppFee : string := "message_stake_app_fee".
Definition MessageEditStakeAppFee : string := "message_edit_stake_app_fee".
Definition MessageUnstakeAppFee : string := "message_unstake_app_fee".
Definition MessagePauseAppFee : string := "message_pause_app_fee".
Definition MessageUnpauseAppFee : string := "message_unpause_app_fee".
Definition MessageStakeValidatorFee : string := "message_stake_validator_fee".
Definition MessageEditStakeValidatorFee : string := "message_edit_stake_validator_fee".
Definition MessageUnstakeValidatorFee : string := "message_unstake_validator_fee".
Definition MessagePauseValidatorFee : string := "message_pause_validator_fee".
Definition MessageUnpauseValidatorFee : string := "message_unpause_validator_fee".
Definition MessageStakeServicerFee : string := "message_stake_servicer_fee".
Definition MessageEditStakeServicerFee : string := "message_edit_stake_servicer_fee".
Definition MessageUnstakeServicerFee : string := "message_unstake_servicer_fee".
Definition MessagePauseServicerFee : string := "message_pause_servicer_fee".
Definition MessageUnpauseServicerFee : string := "message_unpause_servicer_fee".
Definition MessageChangeParameterFee : string := "message_change_parameter_fee".

(** ** Owners *)
Definition AclOwner : string := "acl_owner".
Definition BlocksPerSessionOwner : string := "blocks_per_session_owner".
Definition AppMinimumStakeOwner : string := "app_minimum_stake_owner".
Definition AppMaxChainsOwner : string := "app_max_chains_owner".
Definition AppSessionTokensMultiplierOwner : string := "app_session_tokens_multiplier_owner".
Definition AppUnstakingBlocksOwner : string := "app_unstaking_blocks_owner".
Definition AppMinimumPauseBlocksOwner : string := "app_minimum_pause_blocks_owner".
Definition AppMaxPausedBlocksOwner : string := "app_max_paused_blocks_owner".
Definition ServicerMinimumStakeOwner : string := "servicer_minimum_stake_owner".
Definition ServicerMaxChainsOwner : string := "servicer_max_chains_owner".
Definition ServicerUnstakingBlocksOwner : string := "servicer_unstaking_blocks_owner".
Definition ServicerMinimumPauseBlocksOwner : string := "servicer_minimum_pause_blocks_owner".
Definition ServicerMaxPausedBlocksOwner : string := "servicer_max_paused_blocks_owner".
Definition ServicersPerSessionOwner : string := "servicers_per_session_owner".
Definition FishermanMinimumStakeOwner : string := "fisherman_minimum_stake_owner".
Definition FishermanMaxChainsOwner : string := "fisherman_max_chains_owner".
Definition FishermanUnstakingBlocksOwner : string := "fisherman_unstaking_blocks_owner".
Definition FishermanMinimumPauseBlocksOwner : string := "fisherman_minimum_pause_blocks_owner".
Definition FishermanMaxPausedBlocksOwner : string := "fisherman_max_paused_blocks_owner".
Definition FishermanPerSessionOwner : string := "fisherman_per_session_owner".
Definition ValidatorMinimumStakeOwner : string := "validator_minimum_stake_owner".
Definition ValidatorUnstakingBlocksOwner : string := "validator_unstaking_blocks_owner".
Definition ValidatorMinimumPauseBlocksOwner : string := "validator_minimum_pause_blocks_owner".
Definition ValidatorMaxPausedBlocksOwner : string := "validator_max_paused_blocks_owner".
Definition ValidatorMaximumMissedBlocksOwner : string := "validator_maximum_missed_blocks_owner".
Definition ValidatorMaxEvidenceAgeInBlocksOwner : string := "validator_max_evidence_age_in_blocks_owner".
Definition ProposerPercentageOfFeesOwner : string := "proposer_percentage_of_fees_owner".
Definition MissedBlocksBurnPercentageOwner : string := "missed_blocks_burn_percentage_owner".
Definition DoubleSignBurnPercentageOwner : string := "double_sign_burn_percentage_owner".
Definition MessageDoubleSignFeeOwner : string := "message_double_sign_fee_owner".
Definition MessageSendFeeOwner : string := "message_send_fee_owner".
Definition MessageStakeFishermanFeeOwner : string := "message_stake_fisherman_fee_owner".
Definition MessageEditStakeFishermanFeeOwner : string := "message_edit_stake_fisherman_fee_owner".
Definition MessageUnstakeFishermanFeeOwner : string := "message_unstake_fisherman_fee_owner".
Definition MessagePauseFishermanFeeOwner : string := "message_pause_fisherman_fee_owner".
Definition MessageUnpauseFishermanFeeOwner : string := "message_unpause_fisherman_fee_owner".
Definition MessageFishermanPauseServicerFeeOwner : string := "message_fisherman_pause_servicer_fee_owner".
Definition MessageTestScoreFeeOwner : string := "message_test_score_fee_owner".
Definition MessageProveTestScoreFeeOwner : string := "message_prove_test_score_fee_owner".
Definition MessageStakeAppFeeOwner : string := "message_stake_app_fee_owner".
Definition MessageEditStakeAppFeeOwner : string := "message_edit_stake_app_fee_owner".
Definition MessageUnstakeAppFeeOwner : string := "message_unstake_app_fee_owner".
Definition MessagePauseAppFeeOwner : string := "message_pause_app_fee_owner".
Definition MessageUnpauseAppFeeOwner : string := "message_unpause_app_fee_owner".
Definition MessageStakeValidatorFeeOwner : string := "message_stake_validator_fee_owner".
Definition MessageEditStakeValidatorFeeOwner : string := "message_edit_stake_validator_fee_owner".
Definition MessageUnstakeValidatorFeeOwner : string := "message_unstake_validator_fee_owner".
Definition MessagePauseValidatorFeeOwner : string := "message_pause_validator_fee_owner".
Definition MessageUnpauseValidatorFeeOwner : string := "message_unpause_validator_fee_owner".
Definition MessageStakeServicerFeeOwner : string := "message_stake_servicer_fee_owner".
Definition MessageEditStakeServicerFeeOwner : string := "message_edit_stake_servicer_fee_owner".
Definition MessageUnstakeServicerFeeOwner : string := "message_unstake_servicer_fee_owner".
Definition MessagePauseServicerFeeOwner : string := "message_pause_servicer_fee_owner".
Definition MessageUnpauseServicerFeeOwner : string := "message_unpause_servicer_fee_owner".
Definition MessageChangeParameterFeeOwner : string := "message_change_parameter_fee_owner".

(** ** Value types of the parameters *)
Inductive GovParamType := BIGINT | INT | INT64 | BYTES | STRING.

#[global] Instance GovParamType_eq_dec : EqDecision GovParamType.
Proof. solve_decision. Defined.

Definition govParamTypes : list (string * GovParamType) := [
  (AppMinimumStakeParamName, BIGINT);
  (AppMaxChainsParamName, INT);
  (AppSessionTokensMultiplierParamName, INT);
  (AppUnstakingBlocksParamName, INT64);
  (AppMinimumPauseBlocksParamName, INT);
  (AppMaxPauseBlocksParamName, INT);
  (BlocksPerSessionParamName, INT);
  (ServicerMinimumStakeParamName, BIGINT);
  (ServicerMaxChainsParamName, INT);
  (ServicerUnstakingBlocksParamName, INT64);
  (ServicerMinimumPauseBlocksParamName, INT);
  (ServicerMaxPauseBlocksParamName, INT);
  (ServicersPerSessionParamName, INT);
  (ValidatorMinimumStakeParamName, BIGINT);
  (ValidatorUnstakingBlocksParamName, INT64);
  (ValidatorMinimumPauseBlocksParamName, INT);
  (ValidatorMaxPausedBlocksParamName, INT);
  (ProposerPercentageOfFeesParamName, INT);
  (ValidatorMaximumMissedBlocksParamName, INT);
  (ValidatorMaxEvidenceAgeInBlocksParamName, INT);
  (DoubleSignBurnPercentageParamName, INT);
  (MissedBlocksBurnPercentageParamName, INT);
  (FishermanMinimumStakeParamName, BIGINT);
  (FishermanMaxChainsParamName, INT);
  (FishermanUnstakingBlocksParamName, INT64);
  (FishermanMinimumPauseBlocksParamName, INT);
  (FishermanMaxPauseBlocksParamName, INT);
  (FishermanPerSessionParamName, INT);
  (MessageDoubleSignFee, BIGINT);
  (MessageSendFee, BIGINT);
  (MessageStakeFishermanFee, BIGINT);
  (MessageEditStakeFishermanFee, BIGINT);
  (MessageUnstakeFishermanFee, BIGINT);
  (MessagePauseFishermanFee, BIGINT);
  (MessageUnpauseFishermanFee, BIGINT);
  (MessageFishermanPauseServicerFee, BIGINT);
  (MessageTestScoreFee, BIGINT);
  (MessageProveTestScoreFee, BIGINT);
  (MessageStakeAppFee, BIGINT);
  (MessageEditStakeAppFee, BIGINT);
  (MessageUnstakeAppFee, BIGINT);
  (MessagePauseAppFee, BIGINT);
  (MessageUnpauseAppFee, BIGINT);
  (MessageStakeValidatorFee, BIGINT);
  (MessageEditStakeValidatorFee, BIGINT);
  (MessageUnstakeValidatorFee, BIGINT);
  (MessagePauseValidatorFee, BIGINT);
  (MessageUnpauseValidatorFee, BIGINT);
  (MessageStakeServicerFee, BIGINT);
  (MessageEditStakeServicerFee, BIGINT);
  (MessageUnstakeServicerFee, BIGINT);
  (MessagePauseServicerFee, BIGINT);
  (MessageUnpauseServicerFee, BIGINT);
  (MessageChangeParameterFee, BIGINT)].

(** ** Parameter metadata *)
Record GovParamMetadata := { ParamOwner : string; PoktType : string }.

(** The proto name and the [pokt] tag of every field of [genesis.Params], in order. *)
Definition genesisParamsFields : list (string * string) := [
  ("blocks_per_session", "val_type=BIGINT,owner=blocks_per_session_owner");
  ("app_minimum_stake", "val_type=STRING,owner=app_minimum_stake_owner");
  ("app_max_chains", "val_type=SMALLINT,owner=app_max_chains_owner");
  ("app_session_tokens_multiplier", "val_type=BIGINT,owner=app_session_tokens_multiplier_owner");
  ("app_unstaking_blocks", "val_type=BIGINT,owner=app_unstaking_blocks_owner");
  ("app_minimum_pause_blocks", "val_type=SMALLINT,owner=app_minimum_pause_blocks_owner");
  ("app_max_pause_blocks", "val_type=BIGINT,owner=app_max_paused_blocks_owner");
  ("servicer_minimum_stake", "val_type=STRING,owner=servicer_minimum_stake_owner");
  ("servicer_max_chains", "val_type=SMALLINT,owner=servicer_max_chains_owner");
  ("servicer_unstaking_blocks", "val_type=BIGINT,owner=servicer_unstaking_blocks_owner");
  ("servicer_minimum_pause_blocks", "val_type=SMALLINT,owner=servicer_minimum_pause_blocks_owner");
  ("servicer_max_pause_blocks", "val_type=BIGINT,owner=servicer_max_paused_blocks_owner");
  ("servicers_per_session", "val_type=SMALLINT,owner=servicers_per_session_owner");
  ("fisherman_minimum_stake", "val_type=STRING,owner=fisherman_minimum_stake_owner");
  ("fisherman_max_chains", "val_type=SMALLINT,owner=fisherman_max_chains_owner");
  ("fisherman_unstaking_blocks", "val_type=BIGINT,owner=fisherman_unstaking_blocks_owner");
  ("fisherman_minimum_pause_blocks", "val_type=SMALLINT,owner=fisherman_minimum_pause_blocks_owner");
  ("fisherman_max_pause_blocks", "val_type=SMALLINT,owner=fisherman_max_paused_blocks_owner");
  ("fisherman_per_session", "val_type=SMALLINT,owner=fisherman_per_session_owner");
  ("validator_minimum_stake", "val_type=STRING,owner=validator_minimum_stake_owner");
  ("validator_unstaking_blocks", "val_type=BIGINT,owner=validator_unstaking_blocks_owner");
  ("validator_minimum_pause_blocks", "val_type=SMALLINT,owner=validator_minimum_pause_blocks_owner");
  ("validator_max_pause_blocks", "val_type=SMALLINT,owner=validator_max_paused_blocks_owner");
  ("validator_maximum_missed_blocks", "val_type=SMALLINT,owner=validator_maximum_missed_blocks_owner");
  ("validator_max_evidence_age_in_blocks", "val_type=SMALLINT,owner=validator_max_evidence_age_in_blocks_owner");
  ("proposer_percentage_of_fees", "val_type=SMALLINT,owner=proposer_percentage_of_fees_owner");
  ("missed_blocks_burn_percentage", "val_type=SMALLINT,owner=missed_blocks_burn_percentage_owner");
  ("double_sign_burn_percentage", "val_type=SMALLINT,owner=double_sign_burn_percentage_owner");
  ("message_double_sign_fee", "val_type=STRING,owner=message_double_sign_fee_owner");
  ("message_send_fee", "val_type=STRING,owner=message_send_fee_owner");
  ("message_stake_fisherman_fee", "val_type=STRING,owner=message_stake_fisherman_fee_owner");
  ("message_edit_stake_fisherman_fee", "val_type=STRING,owner=message_edit_stake_fisherman_fee_owner");
  ("message_unstake_fisherman_fee", "val_type=STRING,owner=message_unstake_fisherman_fee_owner");
  ("message_pause_fisherman_fee", "val_type=STRING,owner=message_pause_fisherman_fee_owner");
  ("message_unpause_fisherman_fee", "val_type=STRING,owner=message_unpause_fisherman_fee_owner");
  ("message_fisherman_pause_servicer_fee", "val_type=STRING,owner=message_fisherman_pause_servicer_fee_owner");
  ("message_test_score_fee", "val_type=STRING,owner=message_test_score_fee_owner");
  ("message_prove_test_score_fee", "val_type=STRING,owner=message_prove_test_score_fee_owner");
  ("message_stake_app_fee", "val_type=STRING,owner=message_stake_app_fee_owner");
  ("message_edit_stake_app_fee", "val_type=STRING,owner=message_edit_stake_app_fee_owner");
  ("message_unstake_app_fee", "val_type=STRING,owner=message_unstake_app_fee_owner");
  ("message_pause_app_fee", "val_type=STRING,owner=message_pause_app_fee_owner");
  ("message_unpause_app_fee", "val_type=STRING,owner=message_unpause_app_fee_owner");
  ("message_stake_validator_fee", "val_type=STRING,owner=message_stake_validator_fee_owner");
  ("message_edit_stake_validator_fee", "val_type=STRING,owner=message_edit_stake_validator_fee_owner");
  ("message_unstake_validator_fee", "val_type=STRING,owner=message_unstake_validator_fee_owner");
  ("message_pause_validator_fee", "val_type=STRING,owner=message_pause_validator_fee_owner");
  ("message_unpause_validator_fee", "val_type=STRING,owner=message_unpause_validator_fee_owner");
  ("message_stake_servicer_fee", "val_type=STRING,owner=message_stake_servicer_fee_owner");
  ("message_edit_stake_servicer_fee", "val_type=STRING,owner=message_edit_stake_servicer_fee_owner");
  ("message_unstake_servicer_fee", "val_type=STRING,owner=message_unstake_servicer_fee_owner");
  ("message_pause_servicer_fee", "val_type=STRING,owner=message_pause_servicer_fee_owner");
  ("message_unpause_servicer_fee", "val_type=STRING,owner=message_unpause_servicer_fee_owner");
  ("message_change_parameter_fee", "val_type=STRING,owner=message_change_parameter_fee_owner");
  ("acl_owner", "val_type=STRING,owner=acl_owner");
  ("blocks_per_session_owner", "val_type=STRING,owner=acl_owner");
  ("app_minimum_stake_owner", "val_type=STRING,owner=acl_owner");
  ("app_max_chains_owner", "val_type=STRING,owner=acl_owner");
  ("app_session_tokens_multiplier_owner", "val_type=STRING,owner=acl_owner");
  ("app_unstaking_blocks_owner", "val_type=STRING,owner=acl_owner");
  ("app_minimum_pause_blocks_owner", "val_type=STRING,owner=acl_owner");
  ("app_max_paused_blocks_owner", "val_type=STRING,owner=acl_owner");
  ("servicer_minimum_stake_owner", "val_type=STRING,owner=acl_owner");
  ("servicer_max_chains_owner", "val_type=STRING,owner=acl_owner");
  ("servicer_unstaking_blocks_owner", "val_type=STRING,owner=acl_owner");
  ("servicer_minimum_pause_blocks_owner", "val_type=STRING,owner=acl_owner");
  ("servicer_max_paused_blocks_owner", "val_type=STRING,owner=acl_owner");
  ("servicers_per_session_owner", "val_type=STRING,owner=acl_owner");
  ("fisherman_minimum_stake_owner", "val_type=STRING,owner=acl_owner");
  ("fisherman_max_chains_owner", "val_type=STRING,owner=acl_owner");
  ("fisherman_unstaking_blocks_owner", "val_type=STRING,owner=acl_owner");
  ("fisherman_minimum_pause_blocks_owner", "val_type=STRING,owner=acl_owner");
  ("fisherman_max_paused_blocks_owner", "val_type=STRING,owner=acl_owner");
  ("fisherman_per_session_owner", "val_type=STRING,owner=acl_owner");
  ("validator_minimum_stake_owner", "val_type=STRING,owner=acl_owner");
  ("validator_unstaking_blocks_owner", "val_type=STRING,owner=acl_owner");
  ("validator_minimum_pause_blocks_owner", "val_type=STRING,owner=acl_owner");
  ("validator_max_paused_blocks_owner", "val_type=STRING,owner=acl_owner");
  ("validator_maximum_missed_blocks_owner", "val_type=STRING,owner=acl_owner");
  ("validator_max_evidence_age_in_blocks_owner", "val_type=STRING,owner=acl_owner");
  ("proposer_percentage_of_fees_owner", "val_type=STRING,owner=acl_owner");
  ("missed_blocks_burn_percentage_owner", "val_type=STRING,owner=acl_owner");
  ("double_sign_burn_percentage_owner", "val_type=STRING,owner=acl_owner");
  ("message_double_sign_fee_owner", "val_type=STRING,owner=acl_owner");
  ("message_send_fee_owner", "val_type=STRING,owner=acl_owner");
  ("message_stake_fisherman_fee_owner", "val_type=STRING,owner=acl_owner");
  ("message_edit_stake_fisherman_fee_owner", "val_type=STRING,owner=acl_owner");
  ("message_unstake_fisherman_fee_owner", "val_type=STRING,owner=acl_owner");
  ("message_pause_fisherman_fee_owner", "val_type=STRING,owner=acl_owner");
  ("message_unpause_fisherman_fee_owner", "val_type=STRING,owner=acl_owner");
  ("message_fisherman_pause_servicer_fee_owner", "val_type=STRING,owner=acl_owner");
  ("message_test_score_fee_owner", "val_type=STRING,owner=acl_owner");
  ("message_prove_test_score_fee_owner", "val_type=STRING,owner=acl_owner");
  ("message_stake_app_fee_owner", "val_type=STRING,owner=acl_owner");
  ("message_edit_stake_app_fee_owner", "val_type=STRING,owner=acl_owner");
  ("message_unstake_app_fee_owner", "val_type=STRING,owner=acl_owner");
  ("message_pause_app_fee_owner", "val_type=STRING,owner=acl_owner");
  ("message_unpause_app_fee_owner", "val_type=STRING,owner=acl_owner");
  ("message_stake_validator_fee_owner", "val_type=STRING,owner=acl_owner");
  ("message_edit_stake_validator_fee_owner", "val_type=STRING,owner=acl_owner");
  ("message_unstake_validator_fee_owner", "val_type=STRING,owner=acl_owner");
  ("message_pause_validator_fee_owner", "val_type=STRING,owner=acl_owner");
  ("message_unpause_validator_fee_owner", "val_type=STRING,owner=acl_owner");
  ("message_stake_servicer_fee_owner", "val_type=STRING,owner=acl_owner");
  ("message_edit_stake_servicer_fee_owner", "val_type=STRING,owner=acl_owner");
  ("message_unstake_servicer_fee_owner", "val_type=STRING,owner=acl_owner");
  ("message_pause_servicer_fee_owner", "val_type=STRING,owner=acl_owner");
  ("message_unpause_servicer_fee_owner", "val_type=STRING,owner=acl_owner");
  ("message_change_parameter_fee_owner", "val_type=STRING,owner=acl_owner")].

(** Everything before the first comma, and what follows it. *)
Fixpoint cutComma (s : string) : string * string :=
  match s with
  | EmptyString => (EmptyString, EmptyString)
  | String c s' => if bool_decide (c = Ascii.ascii_of_nat 44) then (EmptyString, s')
                   else let '(a, b) := cutComma s' in (String c a, b)
  end.

(** The loop of [extractStructTag]; every iteration drops at least one byte, so the length
    of the tag bounds the number of iterations. *)
Fixpoint extractStructTagLoop (fuel : nat) (structTag key : string) : string :=
  match fuel with
  | O => ""
  | S fuel' =>
      if bool_decide (structTag = "") then ""
      else
        let '(s, rest) := cutComma structTag in
        if String.prefix key s then String.substring (String.length key) (String.length s) s
        else extractStructTagLoop fuel' rest key
  end.
Definition extractStructTag (structTag key : string) : string :=
  extractStructTagLoop (S (String.length structTag)) structTag key.

Definition parseGovProto : list (string * GovParamMetadata) :=
  (fun f => (f.1, {| ParamOwner := extractStructTag f.2 "owner="; PoktType := extractStructTag f.2 "val_type=" |}))
  <$> genesisParamsFields.

Definition GovParamMetadataMap : list (string * GovParamMetadata) := Eval vm_compute in parseGovProto.
Definition GovParamMetadataKeys : list string := GovParamMetadataMap.*1.

(** A missing key gives the zero metadata, whose owner is empty. *)
Definition paramOwnerOf (paramName : string) : string :=
  default "" (ParamOwner <$> lookupS paramName GovParamMetadataMap).

(** [strings.Contains(key, sub)]. *)
Fixpoint containsSub (sub s : string) : bool :=
  String.prefix sub s || match s with EmptyString => false | String _ s' => containsSub sub s' end.

(** The check of the package's [init]: every parameter that is not an owner has a value type. *)
Definition govInitCheck : bool :=
  forallb (fun key => containsSub "_owner" key || bool_decide (is_Some (lookupS key govParamTypes)))
    GovParamMetadataKeys.

(** The governance tables are consistent: the start-up check of the unit of work passes
    (it ends the process otherwise), parameter names are distinct, and every parameter has an
    owner that is itself a genesis parameter. *)
Theorem gov_tables_consistent :
  govInitCheck = true /\ NoDup GovParamMetadataKeys /\
  Forall (fun key => paramOwnerOf key ∈ GovParamMetadataKeys) GovParamMetadataKeys.
Proof.
  split; [reflexivity|]. split; apply (bool_decide_unpack _); vm_compute; exact I.
Qed.
