(* ===== verification/Messages.v ===== *)
(** Transactions and the messages they carry (src/utility/types/message.go,
    message_staking.go, relay_chain.go, idx_tx.go; src/shared/core/types/transaction.go,
    signature.go, idx_tx.go).

    The protobuf codec and the URL parser are library code: they are the operations of the
    class [Codec], with the documented round trip as the law [CodecLaws]. *)

From S2P Require Import Prelude GoStd Errors Crypto CoreTypes.
#[local] Open Scope string_scope.
#[local] Open Scope Z_scope.

(** ** Messages *)
Record MessageSend := { FromAddress : slice; ToAddress : slice; send_Amount : string }.
Record MessageStake := {
  stake_ActorType : Z; stake_PublicKey : slice; stake_Chains : option (list string);
  stake_Amount : string; stake_ServiceUrl : string; stake_OutputAddress : slice; stake_Signer : slice }.
Record MessageEditStake := {
  edit_ActorType : Z; edit_Address : slice; edit_Chains : option (list string);
  edit_Amount : string; edit_ServiceUrl : string; edit_Signer : slice }.
Record MessageUnstake := { unstake_ActorType : Z; unstake_Address : slice; unstake_Signer : slice }.
Record MessageUnpause := { unpause_ActorType : Z; unpause_Address : slice; unpause_Signer : slice }.

(** A [google.protobuf.Any]: type URL and encoded value. *)
Record Any := { TypeUrl : string; Value : bytes }.

Record MessageChangeParameter := {
  cp_Signer : slice; cp_Owner : slice; ParameterKey : string; ParameterValue : option Any }.

Inductive Message :=
| MSend (m : MessageSend)
| MStake (m : MessageStake)
| MEditStake (m : MessageEditStake)
| MUnstake (m : MessageUnstake)
| MUnpause (m : MessageUnpause)
| MChangeParameter (m : MessageChangeParameter).

(** What an [Any] can decode to, as far as the code distinguishes it. *)
Inductive ProtoMessage :=
| PMessage (m : Message)
| PInt32Value (v : Z)
| PStringValue (v : string)
| PBytesValue (v : bytes)
| POther (typeName : string).

(** ** Transactions *)
Record Signature := { sig_PublicKey : slice; sig_Signature : slice }.
Record Transaction := { tx_Msg : option Any; tx_Nonce : string; tx_Signature : option Signature }.

Class Codec := {
  unmarshalTx : bytes -> Transaction + string;
  marshalTx : Transaction -> bytes + string;
  fromAny : option Any -> ProtoMessage + string;
  parseRequestURI : string -> option string;   (* the error, if any *)
}.

Class CodecLaws (C : Codec) : Prop := {
  unmarshal_marshal : forall tx b, marshalTx tx = inl b -> unmarshalTx b = inl tx;
}.

(** ** Message interface *)
Definition GetMessageName (m : Message) : string :=
  match m with
  | MSend _ => "MessageSend" | MStake _ => "MessageStake" | MEditStake _ => "MessageEditStake"
  | MUnstake _ => "MessageUnstake" | MUnpause _ => "MessageUnpause"
  | MChangeParameter _ => "MessageChangeParameter"
  end.

Definition SetSigner (signer : slice) (m : Message) : Message :=
  match m with
  | MSend _ => m
  | MStake s => MStake {| stake_ActorType := stake_ActorType s; stake_PublicKey := stake_PublicKey s;
                          stake_Chains := stake_Chains s; stake_Amount := stake_Amount s;
                          stake_ServiceUrl := stake_ServiceUrl s;
                          stake_OutputAddress := stake_OutputAddress s; stake_Signer := signer |}
  | MEditStake s => MEditStake {| edit_ActorType := edit_ActorType s; edit_Address := edit_Address s;
                                  edit_Chains := edit_Chains s; edit_Amount := edit_Amount s;
                                  edit_ServiceUrl := edit_ServiceUrl s; edit_Signer := signer |}
  | MUnstake s => MUnstake {| unstake_ActorType := unstake_ActorType s;
                              unstake_Address := unstake_Address s; unstake_Signer := signer |}
  | MUnpause s => MUnpause {| unpause_ActorType := unpause_ActorType s;
                              unpause_Address := unpause_Address s; unpause_Signer := signer |}
  | MChangeParameter s => MChangeParameter {| cp_Signer := signer; cp_Owner := cp_Owner s;
                              ParameterKey := ParameterKey s; ParameterValue := ParameterValue s |}
  end.

Definition GetMessageRecipient (m : Message) : string :=
  match m with MSend s => hexEncode (bz (ToAddress s)) | _ => "" end.

Definition GetSigner (m : Message) : slice :=
  match m with
  | MSend s => FromAddress s | MStake s => stake_Signer s | MEditStake s => edit_Signer s
  | MUnstake s => unstake_Signer s | MUnpause s => unpause_Signer s
  | MChangeParameter s => cp_Signer s
  end.

Definition GetActorType (m : Message) : Z :=
  match m with
  | MSend _ => ACTOR_TYPE_UNSPECIFIED
  | MStake s => stake_ActorType s | MEditStake s => edit_ActorType s
  | MUnstake s => unstake_ActorType s | MUnpause s => unpause_ActorType s
  | MChangeParameter _ => -1
  end.

(** ** Stateless validation; [None] is success, [Some] the error *)
Definition validateAddress (address : slice) : option Error :=
  match address with
  | None => Some ErrEmptyAddress
  | Some a => if bool_decide (blen a ≠ Crypto.AddressLen)
              then Some (ErrInvalidAddressLen (Crypto.ErrInvalidAddressLen (blen a))) else None
  end.

Definition validateOutputAddress (address : slice) : option Error :=
  match address with
  | None => Some ErrNilOutputAddress
  | Some a => if bool_decide (blen a ≠ Crypto.AddressLen)
              then Some (ErrInvalidAddressLen (Crypto.ErrInvalidAddressLen (blen a))) else None
  end.

Definition validatePublicKey (publicKey : slice) : option Error :=
  match publicKey with
  | None => Some ErrEmptyPublicKey
  | Some k => if bool_decide (blen k ≠ Crypto.PublicKeySize)
              then Some (ErrInvalidPublicKeyLen (blen k)) else None
  end.

Definition validateHash (hash : slice) : option Error :=
  match hash with
  | None => Some ErrEmptyHash
  | Some h => if bool_decide (blen h ≠ Crypto.SHA3HashLen)
              then Some (ErrInvalidHashLength (blen h)) else None
  end.

Definition relayChainLength : Z := 4.
Definition relayChain_ValidateBasic (rc : string) : option Error :=
  if bool_decide (rc = "") then Some ErrEmptyRelayChain
  else if bool_decide (blen rc ≠ relayChainLength) then Some (ErrInvalidRelayChainLength (blen rc) relayChainLength)
  else None.

Fixpoint firstError {A} (f : A -> option Error) (l : list A) : option Error :=
  match l with [] => None | x :: l' => match f x with Some e => Some e | None => firstError f l' end end.

Definition validateRelayChains (chains : option (list string)) : option Error :=
  match chains with
  | None => Some ErrEmptyRelayChains
  | Some l => firstError relayChain_ValidateBasic l
  end.

(** [string(actorType)] of an int32 is the one-character string of that code point. *)
Definition validateActorType (actorType : Z) : option Error :=
  if bool_decide (actorType = ACTOR_TYPE_UNSPECIFIED)
  then Some (ErrUnknownActorType (String (Ascii.ascii_of_nat 0) "")) else None.

Definition validateAmount (amount : string) : option Error :=
  if bool_decide (amount = "") then Some ErrEmptyAmount
  else match StringToBigInt amount with Err e => Some (ErrStringToBigInt e) | _ => None end.

(** Pieces of [strings] and [strconv] used on URLs; lower-casing is written for ASCII. *)
Definition toLowerAscii (c : Ascii.ascii) : Ascii.ascii :=
  let n := Ascii.nat_of_ascii c in
  if bool_decide (65 <= n <= 90)%nat then Ascii.ascii_of_nat (n + 32) else c.
Fixpoint stringsToLower (s : string) : string :=
  match s with EmptyString => EmptyString | String c s' => String (toLowerAscii c) (stringsToLower s') end.
Fixpoint stringsSplit (sep : Ascii.ascii) (s : string) : list string :=
  match s with
  | EmptyString => [EmptyString]
  | String c s' =>
      if bool_decide (c = sep) then EmptyString :: stringsSplit sep s'
      else match stringsSplit sep s' with [] => [String c EmptyString] | p :: ps => String c p :: ps end
  end.
Definition stringsContainsByte (c : Ascii.ascii) (s : string) : bool :=
  bool_decide (1 < length (stringsSplit c s))%nat.

Definition maxPort : Z := 65535.
Definition invalidURLPrefix := "the url must start with http:// or https://".
Definition portRequired := "a port is required".
Definition nonNumberPort := "invalid port, cant convert to integer".
Definition portOutOfRange := "invalid port, out of valid port range".
Definition noPeriod := "must contain one '.'".

Section validation.
Context `{Codec} `{CryptoPrims}.

(** [uri[:8]] panics on a URL shorter than eight bytes. *)
Definition validateServiceURL (actorType : Z) (uri0 : string) : res string (option Error) :=
  if bool_decide (actorType = ACTOR_TYPE_APP) then Ok None
  else
    let uri := stringsToLower uri0 in
    match parseRequestURI uri with
    | Some err => Ok (Some (ErrInvalidServiceURL err))
    | None =>
        if bool_decide (blen uri < 8) then Panic
        else if negb (bool_decide (String.substring 0 8 uri = "https://")
                      || bool_decide (String.substring 0 7 uri = "http://"))
        then Ok (Some (ErrInvalidServiceURL invalidURLPrefix))
        else
          match stringsSplit (Ascii.ascii_of_nat 58) uri with
          | [_; _; portStr] =>
              match atoi portStr with
              | None => Ok (Some (ErrInvalidServiceURL nonNumberPort))
              | Some port =>
                  if bool_decide (maxPort < port) || bool_decide (port < 0)
                  then Ok (Some (ErrInvalidServiceURL portOutOfRange))
                  else if negb (stringsContainsByte (Ascii.ascii_of_nat 46) uri)
                  then Ok (Some (ErrInvalidServiceURL noPeriod))
                  else Ok None
              end
          | _ => Ok (Some (ErrInvalidServiceURL portRequired))
          end
    end.

Definition validateStaker (actorType : Z) (amount : string) (chains : option (list string))
    (serviceUrl : string) : res string (option Error) :=
  match validateActorType actorType with
  | Some e => Ok (Some e)
  | None => match validateAmount amount with
    | Some e => Ok (Some e)
    | None => match validateRelayChains chains with
      | Some e => Ok (Some e)
      | None => validateServiceURL actorType serviceUrl
      end
    end
  end.

Definition Message_ValidateBasic (m : Message) : res string (option Error) :=
  match m with
  | MSend s =>
      match validateAddress (FromAddress s) with
      | Some e => Ok (Some e)
      | None => match validateAddress (ToAddress s) with
        | Some e => Ok (Some e)
        | None => Ok (validateAmount (send_Amount s))
        end
      end
  | MStake s =>
      match validatePublicKey (stake_PublicKey s) with
      | Some e => Ok (Some e)
      | None => match validateOutputAddress (stake_OutputAddress s) with
        | Some e => Ok (Some e)
        | None => validateStaker (stake_ActorType s) (stake_Amount s) (stake_Chains s) (stake_ServiceUrl s)
        end
      end
  | MEditStake s =>
      match validateAddress (edit_Address s) with
      | Some e => Ok (Some e)
      | None => validateStaker (edit_ActorType s) (edit_Amount s) (edit_Chains s) (edit_ServiceUrl s)
      end
  | MUnstake s => Ok (validateAddress (unstake_Address s))
  | MUnpause s => Ok (validateAddress (unpause_Address s))
  | MChangeParameter s =>
      if bool_decide (ParameterKey s = "") then Ok (Some ErrEmptyParamKey)
      else match ParameterValue s with
        | None => Ok (Some ErrEmptyParamValue)
        | Some _ => Ok (validateAddress (cp_Owner s))
        end
  end.

(** *** Signatures and transactions *)
Definition Signature_ValidateBasic (s : Signature) : option Error :=
  match sig_Signature s with
  | None => Some ErrEmptySignature
  | Some _ => match sig_PublicKey s with None => Some ErrEmptyPublicKey | Some _ => None end
  end.

Definition TxFromBytes (txProtoBz : bytes) : Transaction + string := unmarshalTx txProtoBz.
Definition TxHash (txProtoBz : bytes) : string := GetHashStringFromBytes txProtoBz.

Definition GetMessage (tx : Transaction) : ProtoMessage + string := fromAny (tx_Msg tx).
Definition SignableBytes (tx : Transaction) : bytes + string :=
  marshalTx {| tx_Msg := tx_Msg tx; tx_Nonce := tx_Nonce tx; tx_Signature := None |}.
Definition Tx_Bytes (tx : Transaction) : bytes + string := marshalTx tx.
Definition Tx_Hash (tx : Transaction) : string + string :=
  match Tx_Bytes tx with inl b => inl (TxHash b) | inr e => inr e end.

(** As written: true only when *both* encodings fail. *)
Definition Tx_Equals (tx tx2 : Transaction) : bool :=
  match Tx_Bytes tx, Tx_Bytes tx2 with
  | inr _, inr _ => true   (* bytes.Equal(nil, nil) *)
  | _, _ => false
  end.

Definition Tx_Sign (privateKey : bytes) (tx : Transaction) : Transaction + string :=
  match SignableBytes tx with
  | inr e => inr e
  | inl b => inl {| tx_Msg := tx_Msg tx; tx_Nonce := tx_Nonce tx;
                    tx_Signature := Some {| sig_PublicKey := Some (PrivateKey_PublicKey privateKey);
                                            sig_Signature := Some (PrivateKey_Sign privateKey b) |} |}
  end.

Definition Tx_ValidateBasic (tx : Transaction) : option Error :=
  if bool_decide (tx_Nonce tx = "") then Some ErrEmptyNonce
  else match tx_Signature tx with
  | None => Some ErrEmptySignatureStructure
  | Some sig =>
      match Signature_ValidateBasic sig with
      | Some e => Some e
      | None =>
          match NewPublicKeyFromBytes (bz (sig_PublicKey sig)) with
          | Err e => Some (ErrNewPublicKeyFromBytes e)
          | Panic => None
          | Ok publicKey =>
              match GetMessage tx with
              | inr e => Some (ErrDecodeMessage e)
              | inl _ =>
                  match SignableBytes tx with
                  | inr e => Some (ErrRetrievingSignableBytes e)
                  | inl signBytes =>
                      if PublicKey_Verify publicKey signBytes (bz (sig_Signature sig)) then None
                      else Some ErrSignatureVerificationFailed
                  end
              end
          end
      end
  end.
End validation.

(** ** Indexed transactions *)
Record IndexedTransaction := {
  idx_Tx : bytes; idx_Height : Z; idx_Index : Z; idx_ResultCode : Z; idx_Error : string;
  idx_SignerAddr : string; idx_RecipientAddr : string; idx_MessageType : string }.

Section idx.
Context `{Codec}.
Definition TxToIdxTx (tx : Transaction) (height index : Z) (msg : Message)
    (msgHandlingResult : option Error) : IndexedTransaction + Error :=
  match Tx_Bytes tx with
  | inr e => inr (ErrProtoMarshal e)
  | inl txBz =>
      inl {| idx_Tx := txBz; idx_Height := height; idx_Index := i32 index;
             idx_ResultCode := match msgHandlingResult with
                               | Some e => code_number (CodeError e) | None => 0 end;
             idx_Error := match msgHandlingResult with Some e => Error_string e | None => "" end;
             idx_SignerAddr := hexEncode (bz (GetSigner msg));
             idx_RecipientAddr := GetMessageRecipient msg;
             idx_MessageType := GetMessageName msg |}
  end.
End idx.

(** ** A concrete codec, to show that the hypotheses on codecs can hold: it supports the
    transactions that carry one fixed message, unsigned or with one fixed signature. *)
Module ToyCodec.
Definition alice : bytes := "AAAAAAAAAAAAAAAAAAAA".
Definition bob : bytes := "BBBBBBBBBBBBBBBBBBBB".
Definition sendAny : Any := {| TypeUrl := "send"; Value := "5" |}.
Definition sendMsg : MessageSend := {| FromAddress := Some alice; ToAddress := Some bob; send_Amount := "5" |}.
Definition aliceSig : Signature :=
  {| sig_PublicKey := Some "AAAAAAAAAAAAAAAAAAAAAAAAAAAAAAAA"; sig_Signature := Some "AAAAAAAAAAAAAAAAAAAAAAAAAAAAAAAA07" |}.

#[global] Instance Any_eq_dec : EqDecision Any. Proof. solve_decision. Defined.
#[global] Instance Signature_eq_dec : EqDecision Signature. Proof. solve_decision. Defined.

Definition marshal (tx : Transaction) : bytes + string :=
  if decide (tx_Msg tx = Some sendAny) then
    match tx_Signature tx with
    | None => inl ("0" +:+ tx_Nonce tx)%string
    | Some s => if decide (s = aliceSig) then inl ("1" +:+ tx_Nonce tx)%string else inr "unsupported signature"
    end
  else inr "unsupported message".

Definition unmarshal (b : bytes) : Transaction + string :=
  match b with
  | String c rest =>
      if decide (c = Ascii.ascii_of_nat 48)
      then inl {| tx_Msg := Some sendAny; tx_Nonce := rest; tx_Signature := None |}
      else if decide (c = Ascii.ascii_of_nat 49)
      then inl {| tx_Msg := Some sendAny; tx_Nonce := rest; tx_Signature := Some aliceSig |}
      else inr "malformed"
  | EmptyString => inr "malformed"
  end.

Definition codec : Codec := {|
  unmarshalTx := unmarshal;
  marshalTx := marshal;
  fromAny a := if decide (a = Some sendAny) then inl (PMessage (MSend sendMsg)) else inr "unknown type";
  parseRequestURI u := if decide (u = "") then Some "empty url" else None;
|}.

Lemma laws : CodecLaws codec.
Proof.
  split. intros [m n sg] b. cbn. unfold marshal. cbn.
  destruct (decide (m = Some sendAny)) as [->|]; [|done].
  destruct sg as [s|]; [destruct (decide (s = aliceSig)) as [->|]; [|done]|]; intros [= <-]; reflexivity.
Qed.
End ToyCodec.

(** a transaction signed with [Sign] by a 64-byte private key passes [ValidateBasic],
    provided it has a nonce and its message decodes. *)
Theorem tx_sign_validates `{CL : CryptoLaws} `{Codec} (sk : bytes) (tx tx' : Transaction) (pm : ProtoMessage) :
  blen sk = 64 -> tx_Nonce tx ≠ "" -> GetMessage tx = inl pm -> Tx_Sign sk tx = inl tx' ->
  Tx_ValidateBasic tx' = None.
Proof.
  intros Hsk Hn Hm. unfold Tx_Sign. destruct (SignableBytes tx) as [b|e] eqn:Hb; [|done].
  intros [= <-]. unfold Tx_ValidateBasic. cbn. rewrite bool_decide_eq_false_2 by done.
  unfold NewPublicKeyFromBytes, PrivateKey_PublicKey.
  rewrite bool_decide_eq_false_2 by (rewrite ed25519_public_length by done; by intros Hc).
  unfold GetMessage in Hm |- *. cbn. rewrite Hm.
  unfold SignableBytes in Hb |- *. cbn. rewrite Hb. unfold PublicKey_Verify, PrivateKey_Sign.
  by rewrite ed25519_sign_verify.
Qed.

Lemma tx_sign_validates_witness :
  let tx := {| tx_Msg := Some ToyCodec.sendAny; tx_Nonce := "7"; tx_Signature := None |} in
  let sk := "AAAAAAAAAAAAAAAAAAAAAAAAAAAAAAAAAAAAAAAAAAAAAAAAAAAAAAAAAAAAAAAA" in
  exists tx', @Tx_Sign ToyCodec.codec ToyCrypto.prims sk tx = inl tx' /\
    @Tx_ValidateBasic ToyCodec.codec ToyCrypto.prims tx' = None.
Proof.
  intros tx sk. eexists. split; [vm_compute; reflexivity|].
  refine (@tx_sign_validates ToyCrypto.prims ToyCrypto.laws ToyCodec.codec sk tx _
            (PMessage (MSend ToyCodec.sendMsg)) _ _ _ _); vm_compute; congruence.
Defined.

(** A service URL that [url.ParseRequestURI] accepts but that is shorter than eight
    bytes makes [validateServiceURL] slice out of range: validating a stake message can end
    the process instead of returning an error. *)
Theorem service_url_short_panics `{Codec} (actorType : Z) (uri : string) :
  actorType ≠ ACTOR_TYPE_APP -> parseRequestURI (stringsToLower uri) = None ->
  blen (stringsToLower uri) < 8 -> validateServiceURL actorType uri = Panic.
Proof.
  intros Ha Hp Hl. unfold validateServiceURL.
  rewrite bool_decide_eq_false_2 by done. rewrite Hp. by rewrite bool_decide_eq_true_2 by done.
Qed.

Lemma service_url_short_panics_witness :
  @validateServiceURL ToyCodec.codec ACTOR_TYPE_SERVICER "/a" = Panic.
Proof. apply service_url_short_panics; vm_compute; congruence. Defined.

(** [Transaction.Equals] answers [false] on any transaction that can be encoded, even
    against itself. *)
Theorem tx_equals_never `{Codec} (tx : Transaction) (b : bytes) :
  Tx_Bytes tx = inl b -> Tx_Equals tx tx = false.
Proof. intros Hb. unfold Tx_Equals. by rewrite Hb. Qed.

Lemma tx_equals_never_witness :
  @Tx_Equals ToyCodec.codec {| tx_Msg := Some ToyCodec.sendAny; tx_Nonce := "7"; tx_Signature := None |}
    {| tx_Msg := Some ToyCodec.sendAny; tx_Nonce := "7"; tx_Signature := None |} = false.
Proof. apply (tx_equals_never _ "07"). vm_compute. reflexivity. Defined.
