(* ===== verification/Sql.v ===== *)
(** The versioned SQL tables of the persistence module and the statements the code builds
    on them (src/persistence/types/account_shared_sql.go, actor_shared_sql.go, gov.go,
    block.go).

    Every table keeps one row per key and height; a query at a height reads, for its key,
    the row with the greatest height not above it.  A statement is modelled by its effect
    on the table.  The SQL engine is PostgreSQL; the texts spliced into a statement are taken
    to contain no quote character, so that the statement is the intended one. *)

From S2P Require Import Prelude GoStd CoreTypes.
From stdpp Require Import sorting.
#[local] Open Scope string_scope.
#[local] Open Scope Z_scope.

(** ** Versioned rows *)
Abbreviation Hist R := (gmap Z R).
Abbreviation Table R := (gmap string (gmap Z R)).

Section hist.
Context {R : Type}.
Implicit Types (m : Hist R) (h k : Z) (r : R).

(** [ORDER BY height DESC LIMIT 1] under [WHERE height <= h]. *)
Definition latestStep h k r (acc : option (Z * R)) : option (Z * R) :=
  if bool_decide (k <= h) then
    match acc with
    | Some (k', _) => if bool_decide (k' < k) then Some (k, r) else acc
    | None => Some (k, r)
    end
  else acc.
Definition latest m h : option (Z * R) := map_fold (latestStep h) None m.

(** [MAX(height)] without a bound. *)
Definition newestStep k r (acc : option (Z * R)) : option (Z * R) :=
  match acc with
  | Some (k', _) => if bool_decide (k' < k) then Some (k, r) else acc
  | None => Some (k, r)
  end.
Definition newest m : option (Z * R) := map_fold newestStep None m.

Definition is_latest m h k r : Prop :=
  m !! k = Some r /\ k <= h /\ forall k' r', m !! k' = Some r' -> k' <= h -> k' <= k.

Lemma latest_spec m h :
  match latest m h with
  | Some (k, r) => is_latest m h k r
  | None => forall k r, m !! k = Some r -> h < k
  end.
Proof.
  unfold latest. apply (map_fold_weak_ind (fun acc m =>
    match acc with
    | Some (k, r) => is_latest m h k r
    | None => forall k r, m !! k = Some r -> h < k
    end)); [done|].
  intros k r m' acc Hk IH. unfold latestStep. case_bool_decide as Hle.
  - destruct acc as [[k0 r0]|].
    + destruct IH as (H0 & Hle0 & Hmax). case_bool_decide as Hlt.
      * repeat split; [by rewrite lookup_insert_eq | done |].
        intros k' r' [[? ?]|[? Hk']]%lookup_insert_Some Hb; [lia|]. specialize (Hmax _ _ Hk' Hb). lia.
      * repeat split; [rewrite lookup_insert_ne; [done|congruence] | done |].
        intros k' r' [[? ?]|[? Hk']]%lookup_insert_Some Hb; [lia|]. by apply (Hmax _ r').
    + repeat split; [by rewrite lookup_insert_eq | done |].
      intros k' r' [[? ?]|[? Hk']]%lookup_insert_Some Hb; [lia|]. specialize (IH _ _ Hk'). lia.
  - destruct acc as [[k0 r0]|].
    + destruct IH as (H0 & Hle0 & Hmax). repeat split; [rewrite lookup_insert_ne; [done|congruence] | done |].
      intros k' r' [[? ?]|[? Hk']]%lookup_insert_Some Hb; [lia|]. by apply (Hmax _ r').
    + intros k' r' [[? ?]|[? Hk']]%lookup_insert_Some; [lia|]. by apply (IH _ r').
Qed.

Lemma latest_Some m h k r : latest m h = Some (k, r) <-> is_latest m h k r.
Proof.
  pose proof (latest_spec m h) as Hs. split; [intros Heq; by rewrite Heq in Hs|].
  intros (Hk & Hle & Hmax). destruct (latest m h) as [[k0 r0]|].
  - destruct Hs as (Hk0 & Hle0 & Hmax0).
    assert (k = k0) as -> by (specialize (Hmax _ _ Hk0 Hle0); specialize (Hmax0 _ _ Hk Hle); lia).
    congruence.
  - specialize (Hs _ _ Hk). lia.
Qed.

Lemma latest_None m h : latest m h = None <-> forall k r, m !! k = Some r -> h < k.
Proof.
  pose proof (latest_spec m h) as Hs. destruct (latest m h) as [[k r]|] eqn:Heq; [|done].
  split; [done|]. intros Hn. destruct Hs as (Hk & Hle & _). specialize (Hn _ _ Hk). lia.
Qed.

(** A row written at the height of the query is the one that is read. *)
Lemma latest_insert_eq m h r : latest (<[h := r]> m) h = Some (h, r).
Proof. apply latest_Some. repeat split; [by rewrite lookup_insert_eq | lia | done]. Qed.

(** A query below the height of a write does not see it: the past is immutable. *)
Lemma latest_insert_lt m h h' r : h' < h -> latest (<[h := r]> m) h' = latest m h'.
Proof.
  intros Hlt. destruct (latest m h') as [[k r0]|] eqn:Hl.
  - apply latest_Some in Hl as (Hk & Hle & Hmax). apply latest_Some. repeat split; [|done|].
    + rewrite lookup_insert_ne; [done|lia].
    + intros k' r' [[? ?]|[? Hk']]%lookup_insert_Some Hb; [lia|]. by apply (Hmax _ r').
  - apply latest_None. intros k' r' [[? ?]|[? Hk']]%lookup_insert_Some; [lia|].
    by apply (proj1 (latest_None m h') Hl k' r').
Qed.
End hist.
Arguments latest : simpl never.

Definition selectLatest {R} (t : Table R) (key : string) (height : Z) : option (Z * R) :=
  match t !! key with Some m => latest m height | None => None end.

Definition upsert {R} (t : Table R) (key : string) (height : Z) (r : R) : Table R :=
  <[key := <[height := r]> (default ∅ (t !! key))]> t.

Definition rowAt {R} (t : Table R) (key : string) (height : Z) : option R :=
  match t !! key with Some m => m !! height | None => None end.

Section tables.
Context {R : Type}.
Implicit Types (t : Table R) (key : string) (h : Z) (r : R).

Lemma select_upsert_eq t key h r : selectLatest (upsert t key h r) key h = Some (h, r).
Proof. unfold selectLatest, upsert. rewrite lookup_insert_eq. apply latest_insert_eq. Qed.

Lemma select_upsert_ne t key key' h h' r :
  key ≠ key' -> selectLatest (upsert t key h r) key' h' = selectLatest t key' h'.
Proof. intros Hne. unfold selectLatest, upsert. by rewrite lookup_insert_ne. Qed.

Lemma select_upsert_past t key key' h h' r :
  h' < h -> selectLatest (upsert t key h r) key' h' = selectLatest t key' h'.
Proof.
  intros Hlt. destruct (decide (key = key')) as [<-|Hne]; [|by apply select_upsert_ne].
  unfold selectLatest, upsert. rewrite lookup_insert_eq, latest_insert_lt by done.
  destruct (t !! key); [done|]. by cbn.
Qed.
End tables.

(** ** Accounts and pools *)

(** [SELECT balance ... LIMIT 1]; [None] is [pgx.ErrNoRows]. *)
Definition SelectBalance (t : Table string) (identifier : string) (height : Z) : option string :=
  snd <$> selectLatest t identifier height.

Definition InsertAccount (t : Table string) (identifier amount : string) (height : Z) : Table string :=
  upsert t identifier height amount.

(** [SELECT ... WHERE height = h] *)
Definition SelectAtHeight {R} (t : Table R) (height : Z) : list (string * R) :=
  map_to_list (omap (fun m : Hist R => m !! height) t).

(** [ORDER BY key] of a text column. *)
Definition keyLe {A} (a b : string * A) : Prop := String.leb a.1 b.1 = true.
#[global] Instance keyLe_dec {A} (a b : string * A) : Decision (keyLe a b).
Proof. unfold keyLe. apply _. Defined.
Definition sortKeys {A} (l : list (string * A)) : list (string * A) := merge_sort keyLe l.

(** [SELECT DISTINCT ON (key) ... WHERE height <= h ORDER BY key, height DESC] *)
Definition SelectAllLatest {R} (t : Table R) (height : Z) : list (string * (Z * R)) :=
  sortKeys (map_to_list (omap (fun m : Hist R => latest m height) t)).

(** ** Actors *)
Record ActorRow := {
  public_key : string; staked_tokens : string; specific : string; output_address : string;
  paused_height : Z; unstaking_height : Z }.

Definition with_stake_specific (tokens spec : string) (r : ActorRow) : ActorRow :=
  {| public_key := public_key r; staked_tokens := tokens; specific := spec; output_address := output_address r;
     paused_height := paused_height r; unstaking_height := unstaking_height r |}.
Definition with_stake (tokens : string) (r : ActorRow) : ActorRow := with_stake_specific tokens (specific r) r.
Definition with_unstaking (h : Z) (r : ActorRow) : ActorRow :=
  {| public_key := public_key r; staked_tokens := staked_tokens r; specific := specific r;
     output_address := output_address r; paused_height := paused_height r; unstaking_height := h |}.
Definition with_paused (h : Z) (r : ActorRow) : ActorRow :=
  {| public_key := public_key r; staked_tokens := staked_tokens r; specific := specific r;
     output_address := output_address r; paused_height := h; unstaking_height := unstaking_height r |}.

(** [INSERT ... ON CONFLICT DO UPDATE]: on a conflict the public key and the output address
    of the existing row stay. *)
Definition InsertRow (t : Table ActorRow) (address : string) (r : ActorRow) (height : Z) : Table ActorRow :=
  match rowAt t address height with
  | Some old =>
      upsert t address height
        {| public_key := public_key old; staked_tokens := staked_tokens r; specific := specific r;
           output_address := output_address old; paused_height := paused_height r;
           unstaking_height := unstaking_height r |}
  | None => upsert t address height r
  end.

(** [INSERT ... (SELECT ... the latest row with some columns replaced) ON CONFLICT DO UPDATE
    SET those columns]: nothing happens when there is no row to copy; on a conflict the
    latest row is the conflicting one. *)
Definition copyLatest (f : ActorRow -> ActorRow) (t : Table ActorRow) (address : string) (height : Z) : Table ActorRow :=
  match selectLatest t address height with
  | Some (_, r) => upsert t address height (f r)
  | None => t
  end.

Definition Update (t : Table ActorRow) (address stakedTokens spec : string) (height : Z) : Table ActorRow :=
  copyLatest (with_stake_specific stakedTokens spec) t address height.
Definition updateUnstakingHeight (t : Table ActorRow) (address : string) (unstakingHeight height : Z) : Table ActorRow :=
  copyLatest (with_unstaking unstakingHeight) t address height.
Definition updateStakeAmount (t : Table ActorRow) (address stakeAmount : string) (height : Z) : Table ActorRow :=
  copyLatest (with_stake stakeAmount) t address height.
Definition updatePausedHeight (t : Table ActorRow) (address : string) (pausedHeight height : Z) : Table ActorRow :=
  copyLatest (with_paused pausedHeight) t address height.

(** Every address whose newest row was paused before the bound gets a row at [height]; on a
    conflict only [unstaking_height] of the row already there is changed. *)
Definition unstakePausedRow (unstakingHeight pausedBeforeHeight height : Z) (m : Hist ActorRow) : Hist ActorRow :=
  match newest m with
  | Some (_, r) =>
      if bool_decide (paused_height r < pausedBeforeHeight) && bool_decide (0 <= paused_height r)
      then <[height := with_unstaking unstakingHeight (default r (m !! height))]> m
      else m
  | None => m
  end.
Definition updateUnstakedHeightIfPausedBefore (t : Table ActorRow)
    (unstakingHeight pausedBeforeHeight height : Z) : Table ActorRow :=
  unstakePausedRow unstakingHeight pausedBeforeHeight height <$> t.

(** The newest rows that unstake at the given height. *)
Definition readyToUnstake (t : Table ActorRow) (unstakingHeight : Z) : list UnstakingActor :=
  (fun p : string * ActorRow =>
     {| UAddress := p.1; UStakeAmount := staked_tokens p.2; UOutputAddress := output_address p.2 |})
  <$> map_to_list (omap (fun m : Hist ActorRow =>
        match newest m with
        | Some (_, r) => if bool_decide (unstaking_height r = unstakingHeight) then Some r else None
        | None => None
        end) t).

Definition Exists_ {R} (t : Table R) (address : string) (height : Z) : bool :=
  match selectLatest t address height with Some _ => true | None => false end.

(** ** Chains *)

(** A value stored in a CHAR(4) column: padded with blanks; too long is an error unless only
    blanks are cut. *)
Definition blank : Ascii.ascii := Ascii.ascii_of_nat 32.
Fixpoint allBlank (s : string) : bool :=
  match s with EmptyString => true | String c s' => bool_decide (c = blank) && allBlank s' end.
Fixpoint charN (n : nat) (s : string) : option string :=
  match n, s with
  | O, _ => if allBlank s then Some EmptyString else None
  | S n', EmptyString => String blank <$> charN n' EmptyString
  | S n', String c s' => String c <$> charN n' s'
  end.

Definition valueTooLong : string := "value too long for type character(4)".
Definition syntaxError : string := "syntax error".

(** One row after the other, [ON CONFLICT DO NOTHING]; an empty list makes the statement
    malformed. *)
Fixpoint addChains (rows : list string) (chains : list string) : option (list string) :=
  match chains with
  | [] => Some rows
  | c :: cs =>
      match charN 4 c with
      | None => None
      | Some c' => addChains (if bool_decide (c' ∈ rows) then rows else rows ++ [c']) cs
      end
  end.

Definition insertChains (t : Table (list string)) (address : string) (chains : list string) (height : Z)
    : res string (Table (list string)) :=
  match chains with
  | [] => Err syntaxError
  | _ => match addChains (default [] (rowAt t address height)) chains with
         | Some rows => Ok (upsert t address height rows)
         | None => Err valueTooLong
         end
  end.

Definition NullifyChains (t : Table (list string)) (address : string) (height : Z) : Table (list string) :=
  match t !! address with Some m => <[address := delete height m]> t | None => t end.

(** The chains of an address are those stored at the height of its latest *actor* row. *)
Definition selectChains (t : Table (list string)) (actors : Table ActorRow) (address : string) (height : Z) : list string :=
  match selectLatest actors address height with
  | Some (h, _) => default [] (rowAt t address h)
  | None => []
  end.

(** ** Parameters and flags *)
Inductive ValType := ValTypeString | ValTypeBigInt | ValTypeSmallInt.
Record ParamRow := { val_type : ValType; param_value : string; enabled : bool }.

(** The Go value types [SetParam] accepts. *)
Inductive ParamValue := PVInt (v : Z) | PVInt32 (v : Z) | PVInt64 (v : Z) | PVBytes (v : slice) | PVString (v : string).

Definition paramRow (value : ParamValue) (en : bool) : ParamRow :=
  match value with
  | PVInt v | PVInt32 v => {| val_type := ValTypeSmallInt; param_value := bigIntText v; enabled := en |}
  | PVInt64 v => {| val_type := ValTypeBigInt; param_value := bigIntText v; enabled := en |}
  | PVBytes v => {| val_type := ValTypeBigInt; param_value := hexEncode (bz v); enabled := en |}
  | PVString v => {| val_type := ValTypeString; param_value := v; enabled := en |}
  end.

Definition InsertParamOrFlag (t : Table ParamRow) (name : string) (height : Z) (value : ParamValue) (en : bool) : Table ParamRow :=
  upsert t name height (paramRow value en).

Definition GetParamOrFlag (t : Table ParamRow) (name : string) (height : Z) : option ParamRow :=
  snd <$> selectLatest t name height.

(** ** Blocks *)
Record BlockRow := { blk_hash : string; blk_proposer : slice; blk_quorum : slice }.
Definition duplicateKey : string := "duplicate key value violates unique constraint".
Definition InsertBlockRow (t : gmap Z BlockRow) (height : Z) (b : BlockRow) : res string (gmap Z BlockRow) :=
  match t !! height with Some _ => Err duplicateKey | None => Ok (<[height := b]> t) end.

Definition maxHeight {R} (t : Hist R) : option Z := fst <$> newest t.
Definition minHeight {R} (t : Hist R) : option Z :=
  map_fold (fun k _ acc => match acc with Some k' => Some (Z.min k k') | None => Some k end) None t.

(** ** Facts about the actor statements *)
Section actor_facts.
Implicit Types (t : Table ActorRow) (address : string) (h : Z).

Lemma select_copyLatest_eq f t address h :
  selectLatest (copyLatest f t address h) address h =
    match selectLatest t address h with Some (_, r) => Some (h, f r) | None => None end.
Proof.
  unfold copyLatest. destruct (selectLatest t address h) as [[k r]|] eqn:Hs; [apply select_upsert_eq | done].
Qed.

Lemma select_copyLatest_ne f t address address' h h' :
  address ≠ address' -> selectLatest (copyLatest f t address h) address' h' = selectLatest t address' h'.
Proof.
  intros Hne. unfold copyLatest. destruct (selectLatest t address h) as [[k r]|]; [|done].
  by apply select_upsert_ne.
Qed.

Lemma select_copyLatest_past f t address address' h h' :
  h' < h -> selectLatest (copyLatest f t address h) address' h' = selectLatest t address' h'.
Proof.
  intros Hlt. unfold copyLatest. destruct (selectLatest t address h) as [[k r]|]; [|done].
  by apply select_upsert_past.
Qed.
End actor_facts.
