(* ===== verification/Persistence.v ===== *)
(** The persistence contexts (src/persistence/account.go, account_shared_sql.go, actor.go,
    actor_shared_sql.go, application.go, servicer.go, fisherman.go, validator.go, gov.go,
    block.go, context.go): the operations the other modules call, on the tables of [Sql].

    A context owns a database transaction: [db] is the state of the tables as this
    transaction sees it.  The transaction index and the block store are key-value stores
    outside of the transaction; they are shared with the module.  Reads are pure functions of
    the context, writes are programs on it; a plain Go [error] is its text. *)

From S2P Require Import Prelude GoStd Errors Crypto CoreTypes Messages Sql.
#[local] Open Scope string_scope.
#[local] Open Scope Z_scope.

(** ** Schemas *)
Record ProtocolActorSchema := {
  actorType : Z; tableName : string; chainsTableName : string; actorSpecificColName : string;
  heightConstraintName : string; chainsHeightConstraintName : string }.

Definition ApplicationActor : ProtocolActorSchema := {|
  actorType := ACTOR_TYPE_APP; tableName := "app"; chainsTableName := "app_chains";
  actorSpecificColName := "unused"; heightConstraintName := "app_height";
  chainsHeightConstraintName := "app_chain_height" |}.
Definition ServicerActor : ProtocolActorSchema := {|
  actorType := ACTOR_TYPE_SERVICER; tableName := "servicer"; chainsTableName := "servicer_chains";
  actorSpecificColName := "service_url"; heightConstraintName := "servicer_height";
  chainsHeightConstraintName := "servicer_chain_height" |}.
Definition FishermanActor : ProtocolActorSchema := {|
  actorType := ACTOR_TYPE_FISH; tableName := "fisherman"; chainsTableName := "fisherman_chains";
  actorSpecificColName := "service_url"; heightConstraintName := "fisherman_height";
  chainsHeightConstraintName := "fisherman_chain_height" |}.
Definition ValidatorActor : ProtocolActorSchema := {|
  actorType := ACTOR_TYPE_VAL; tableName := "validator"; chainsTableName := "";
  actorSpecificColName := "service_url"; heightConstraintName := "validator_node_height";
  chainsHeightConstraintName := "" |}.

(** ** State *)
Record DB := {
  accounts : Table string;
  pools : Table string;
  actorTables : gmap string (Table ActorRow);
  chainTables : gmap string (Table (list string));
  params : Table ParamRow;
  flags : Table ParamRow;
  blocks : gmap Z BlockRow;
}.

Definition emptyDB : DB := {| accounts := ∅; pools := ∅; actorTables := ∅; chainTables := ∅;
  params := ∅; flags := ∅; blocks := ∅ |}.

Definition actorTable (d : DB) (s : ProtocolActorSchema) : Table ActorRow :=
  default ∅ (actorTables d !! tableName s).
Definition chainTable (d : DB) (s : ProtocolActorSchema) : Table (list string) :=
  default ∅ (chainTables d !! chainsTableName s).

Definition set_accounts (t : Table string) (d : DB) : DB := {| accounts := t; pools := pools d;
  actorTables := actorTables d; chainTables := chainTables d; params := params d; flags := flags d; blocks := blocks d |}.
Definition set_pools (t : Table string) (d : DB) : DB := {| accounts := accounts d; pools := t;
  actorTables := actorTables d; chainTables := chainTables d; params := params d; flags := flags d; blocks := blocks d |}.
Definition set_actors (s : ProtocolActorSchema) (t : Table ActorRow) (d : DB) : DB := {|
  accounts := accounts d; pools := pools d; actorTables := <[tableName s := t]> (actorTables d);
  chainTables := chainTables d; params := params d; flags := flags d; blocks := blocks d |}.
Definition set_chains (s : ProtocolActorSchema) (t : Table (list string)) (d : DB) : DB := {|
  accounts := accounts d; pools := pools d; actorTables := actorTables d;
  chainTables := <[chainsTableName s := t]> (chainTables d); params := params d; flags := flags d; blocks := blocks d |}.
Definition set_params (t : Table ParamRow) (d : DB) : DB := {| accounts := accounts d; pools := pools d;
  actorTables := actorTables d; chainTables := chainTables d; params := t; flags := flags d; blocks := blocks d |}.
Definition set_flags (t : Table ParamRow) (d : DB) : DB := {| accounts := accounts d; pools := pools d;
  actorTables := actorTables d; chainTables := chainTables d; params := params d; flags := t; blocks := blocks d |}.
Definition set_blocks (t : gmap Z BlockRow) (d : DB) : DB := {| accounts := accounts d; pools := pools d;
  actorTables := actorTables d; chainTables := chainTables d; params := params d; flags := flags d; blocks := t |}.

(** The transaction index: results by transaction hash, hashes by height and index. *)
Record TxIndexer := { txByHash : gmap string IndexedTransaction; txByHeight : gmap (Z * Z) string }.

Record BlockHeader := {
  bh_Height : Z; bh_NetworkId : string; bh_StateHash : string; bh_PrevStateHash : string;
  bh_ProposerAddress : slice; bh_QuorumCertificate : slice; bh_Timestamp : Z }.
Record Block := { b_Header : option BlockHeader; b_Transactions : list bytes }.

Record PostgresContext := {
  Height : Z;
  db : DB;
  ctx_stateHash : string;
  blockStore : gmap Z Block;
  txIndexer : TxIndexer;
  networkId : string;
}.

Definition set_db (d : DB) (p : PostgresContext) : PostgresContext := {|
  Height := Height p; db := d; ctx_stateHash := ctx_stateHash p; blockStore := blockStore p;
  txIndexer := txIndexer p; networkId := networkId p |}.
Definition set_indexer (i : TxIndexer) (p : PostgresContext) : PostgresContext := {|
  Height := Height p; db := db p; ctx_stateHash := ctx_stateHash p; blockStore := blockStore p;
  txIndexer := i; networkId := networkId p |}.
Definition set_blockStore (b : gmap Z Block) (p : PostgresContext) : PostgresContext := {|
  Height := Height p; db := db p; ctx_stateHash := ctx_stateHash p; blockStore := b;
  txIndexer := txIndexer p; networkId := networkId p |}.

Abbreviation PM := (M PostgresContext string).

Definition GetHeight (p : PostgresContext) : res string Z := Ok (Height p).

(** Text of [pgx.ErrNoRows]. *)
Definition ErrNoRows : string := "no rows in result set".

Definition rows1 {A} (o : option A) : res string A := match o with Some a => Ok a | None => Err ErrNoRows end.

(** ** Accounts and pools *)
Inductive AccountSchema := AccountS | PoolS.

Definition accTable (sch : AccountSchema) (d : DB) : Table string :=
  match sch with AccountS => accounts d | PoolS => pools d end.
Definition set_accTable (sch : AccountSchema) (t : Table string) (d : DB) : DB :=
  match sch with AccountS => set_accounts t d | PoolS => set_pools t d end.

Definition defaultAccountAmountStr : string := "0".

(** No row reads as ["0"]. *)
Definition getAccountAmount (sch : AccountSchema) (p : PostgresContext) (identifier : string) (height : Z) : res string string :=
  Ok (default defaultAccountAmountStr (SelectBalance (accTable sch (db p)) identifier height)).

Definition insertAccount (sch : AccountSchema) (identifier amount : string) : PM unit :=
  p ← get;
  height ← of_res (GetHeight p);
  modify (fun p => set_db (set_accTable sch (InsertAccount (accTable sch (db p)) identifier amount height) (db p)) p).

Definition operationAccountAmount (sch : AccountSchema) (identifier amount : string) (op : Z -> Z -> Z) : PM unit :=
  p ← get;
  height ← of_res (GetHeight p);
  originalAmount ← of_res (getAccountAmount sch p identifier height);
  originalAmountBig ← of_res (StringToBigInt originalAmount);
  amountBig ← of_res (StringToBigInt amount);
  insertAccount sch identifier (BigIntToString (op originalAmountBig amountBig)).

Definition getAccountsUpdated (sch : AccountSchema) (p : PostgresContext) (height : Z) : res string (list Account) :=
  Ok ((fun r => {| AccAddress := r.1; AccAmount := r.2 |}) <$> SelectAtHeight (accTable sch (db p)) height).

Definition GetAccountAmount (p : PostgresContext) (address : bytes) (height : Z) := getAccountAmount AccountS p (hexEncode address) height.
Definition AddAccountAmount (address : bytes) (amount : string) : PM unit :=
  operationAccountAmount AccountS (hexEncode address) amount (fun orig delta => orig + delta).
Definition SubtractAccountAmount (address : bytes) (amount : string) : PM unit :=
  operationAccountAmount AccountS (hexEncode address) amount (fun orig delta => orig - delta).
Definition SetAccountAmount (address : bytes) (amount : string) : PM unit :=
  operationAccountAmount AccountS (hexEncode address) amount (fun _ amount => amount).
Definition GetAccountsUpdated := getAccountsUpdated AccountS.

Definition InsertPool (address : bytes) (amount : string) : PM unit := insertAccount PoolS (hexEncode address) amount.
Definition GetPoolAmount (p : PostgresContext) (address : bytes) (height : Z) := getAccountAmount PoolS p (hexEncode address) height.
Definition AddPoolAmount (address : bytes) (amount : string) : PM unit :=
  operationAccountAmount PoolS (hexEncode address) amount (fun orig delta => orig + delta).
Definition SubtractPoolAmount (address : bytes) (amount : string) : PM unit :=
  operationAccountAmount PoolS (hexEncode address) amount (fun orig delta => orig - delta).
Definition SetPoolAmount (address : bytes) (amount : string) : PM unit :=
  operationAccountAmount PoolS (hexEncode address) amount (fun _ amount => amount).
Definition GetPoolsUpdated := getAccountsUpdated PoolS.

(** ** Actors *)
Section actors.
Implicit Types (s : ProtocolActorSchema) (p : PostgresContext) (address : bytes) (height : Z).

Definition selectActor s p (address : string) height : option (Z * ActorRow) :=
  selectLatest (actorTable (db p) s) address height.

Definition GetExists s p address height : res string bool :=
  Ok (Exists_ (actorTable (db p) s) (hexEncode address) height).

Definition getActorFromRow (atype : Z) (address : string) (r : Z * ActorRow) : Actor * Z :=
  ({| ActorType := atype; Address := address; PublicKey := public_key r.2; Chains := None;
      ServiceUrl := specific r.2; StakedAmount := staked_tokens r.2; PausedHeight := paused_height r.2;
      UnstakingHeight := unstaking_height r.2; Output := output_address r.2 |}, r.1).

Definition withChains (a : Actor) (l : list string) : Actor :=
  {| ActorType := ActorType a; Address := Address a; PublicKey := PublicKey a;
     Chains := match l with [] => None | _ => Some l end; ServiceUrl := ServiceUrl a;
     StakedAmount := StakedAmount a; PausedHeight := PausedHeight a;
     UnstakingHeight := UnstakingHeight a; Output := Output a |}.

Definition getChainsForActor s p (a : Actor) height : Actor :=
  if bool_decide (chainsTableName s = "") then a
  else withChains a (selectChains (chainTable (db p) s) (actorTable (db p) s) (Address a) height).

Definition getActor s p address height : res string Actor :=
  match selectActor s p (hexEncode address) height with
  | None => Err ErrNoRows
  | Some r =>
      let '(a, h) := getActorFromRow (actorType s) (hexEncode address) r in
      Ok (getChainsForActor s p a h)
  end.

Fixpoint getActors s p (addrs : list string) height : res string (list Actor) :=
  match addrs with
  | [] => Ok []
  | a :: rest =>
      match hexDecode a with
      | None => Err hexErrorText
      | Some addr =>
          match getActor s p addr height with
          | Ok x => match getActors s p rest height with Ok xs => Ok (x :: xs) | e => e end
          | Err e => Err e
          | Panic => Panic
          end
      end
  end.
Definition GetActorsUpdated s p height : res string (list Actor) :=
  getActors s p (SelectAtHeight (actorTable (db p) s) height).*1 height.

(** The validator schema drops the chains. *)
Definition InsertActor s (a : Actor) : PM unit :=
  p ← get;
  height ← of_res (GetHeight p);
  let row := {| public_key := PublicKey a; staked_tokens := StakedAmount a; specific := ServiceUrl a;
                output_address := Output a; paused_height := PausedHeight a;
                unstaking_height := UnstakingHeight a |} in
  let chains := if bool_decide (actorType s = ACTOR_TYPE_VAL) then None else Chains a in
  match chains with
  | None => modify (fun p => set_db (set_actors s (InsertRow (actorTable (db p) s) (Address a) row height) (db p)) p)
  | Some cs =>
      ct ← of_res (insertChains (chainTable (db p) s) (Address a) cs height);
      modify (fun p => set_db (set_chains s ct
                (set_actors s (InsertRow (actorTable (db p) s) (Address a) row height) (db p))) p)
  end.

Definition UpdateActor s (a : Actor) : PM unit :=
  p ← get;
  height ← of_res (GetHeight p);
  modify (fun p => set_db (set_actors s (Update (actorTable (db p) s) (Address a) (StakedAmount a) (ServiceUrl a) height) (db p)) p) ;;
  match Chains a with
  | Some cs =>
      if bool_decide (chainsTableName s ≠ "") then
        modify (fun p => set_db (set_chains s (NullifyChains (chainTable (db p) s) (Address a) height) (db p)) p) ;;
        p ← get;
        ct ← of_res (insertChains (chainTable (db p) s) (Address a) cs height);
        modify (fun p => set_db (set_chains s ct (db p)) p)
      else mret tt
  | None => mret tt
  end.

Definition GetActorsReadyToUnstake s p height : res string (list UnstakingActor) :=
  Ok (readyToUnstake (actorTable (db p) s) height).

Definition GetActorStatus s p address height : res string Z :=
  match selectActor s p (hexEncode address) height with
  | None => Err ErrNoRows
  | Some (_, r) =>
      if bool_decide (unstaking_height r = -1) then Ok StakeStatus_Staked
      else if bool_decide (height < unstaking_height r) then Ok StakeStatus_Unstaking
      else Ok StakeStatus_Unstaked
  end.

(** A statement on the actor table of the schema at the context's height. *)
Definition actorStmt s (f : Table ActorRow -> Z -> Table ActorRow) : PM unit :=
  p ← get;
  height ← of_res (GetHeight p);
  modify (fun p => set_db (set_actors s (f (actorTable (db p) s) height) (db p)) p).

Definition SetActorUnstakingHeightAndStatus s address (unstakingHeight : Z) : PM unit :=
  actorStmt s (fun t height => updateUnstakingHeight t (hexEncode address) unstakingHeight height).

Definition GetActorPauseHeightIfExists s p address height : res string Z :=
  rows1 ((fun r => paused_height r.2) <$> selectActor s p (hexEncode address) height).

Definition SetActorStatusAndUnstakingHeightIfPausedBefore s (pausedBeforeHeight unstakingHeight : Z) : PM unit :=
  actorStmt s (fun t height => updateUnstakedHeightIfPausedBefore t unstakingHeight pausedBeforeHeight height).

Definition SetActorPauseHeight s address (pauseHeight : Z) : PM unit :=
  actorStmt s (fun t height => updatePausedHeight t (hexEncode address) pauseHeight height).

Definition setActorStakeAmount s address (stakeAmount : string) : PM unit :=
  actorStmt s (fun t height => updateStakeAmount t (hexEncode address) stakeAmount height).

Definition GetActorOutputAddress s p (operatorAddr : bytes) height : res string bytes :=
  match selectActor s p (hexEncode operatorAddr) height with
  | None => Err ErrNoRows
  | Some (_, r) => match hexDecode (output_address r) with Some b => Ok b | None => Err hexErrorText end
  end.

Definition getActorStakeAmount s p address height : res string string :=
  rows1 ((fun r => staked_tokens r.2) <$> selectActor s p (hexEncode address) height).

(** [GetAllApps], [GetAllServicers], [GetAllFishermen], [GetAllValidators]: [height] is
    overwritten by the height of every row read, so the chains of all actors are looked up
    at the height of the last one. *)
Definition GetAll s p height : list Actor :=
  let rows := (fun r => getActorFromRow (actorType s) r.1 r.2) <$> SelectAllLatest (actorTable (db p) s) height in
  let lastHeight := default height (snd <$> last rows) in
  (fun a => getChainsForActor s p a lastHeight) <$> rows.*1.

Definition GetAllApps p height : list Actor := GetAll ApplicationActor p height.
Definition GetAllValidators p height : list Actor := GetAll ValidatorActor p height.
Definition GetAllServicers p height : list Actor := GetAll ServicerActor p height.
Definition GetAllFishermen p height : list Actor := GetAll FishermanActor p height.

Definition GetAllStakedActors p height : list Actor :=
  GetAllValidators p height ++ GetAllServicers p height ++ GetAllFishermen p height ++ GetAllApps p height.

Definition schemaOf (atype : Z) : option ProtocolActorSchema :=
  if bool_decide (atype = ACTOR_TYPE_APP) then Some ApplicationActor
  else if bool_decide (atype = ACTOR_TYPE_SERVICER) then Some ServicerActor
  else if bool_decide (atype = ACTOR_TYPE_FISH) then Some FishermanActor
  else if bool_decide (atype = ACTOR_TYPE_VAL) then Some ValidatorActor
  else None.

Definition GetActor (atype : Z) p address height : res string Actor :=
  match schemaOf atype with
  | Some s => getActor s p address height
  | None => Err ("invalid actor type: " +:+ ActorType_String atype)%string
  end.
End actors.

(** The per-type wrappers differ in the schema and in the columns the type has. *)
Definition mkActor (atype : Z) (address pk output : bytes) (serviceURL stakedTokens : string)
    (chains : option (list string)) (pausedHeight unstakingHeight : Z) : Actor :=
  {| ActorType := atype; Address := hexEncode address; PublicKey := hexEncode pk; Chains := chains;
     ServiceUrl := serviceURL; StakedAmount := stakedTokens; PausedHeight := pausedHeight;
     UnstakingHeight := unstakingHeight; Output := hexEncode output |}.

Definition InsertApp (address pk output : bytes) (stakedTokens : string) (chains : option (list string)) (ph uh : Z) : PM unit :=
  InsertActor ApplicationActor (mkActor ACTOR_TYPE_APP address pk output "" stakedTokens chains ph uh).
Definition InsertServicer (address pk output : bytes) (serviceURL stakedTokens : string) (chains : option (list string)) (ph uh : Z) : PM unit :=
  InsertActor ServicerActor (mkActor ACTOR_TYPE_SERVICER address pk output serviceURL stakedTokens chains ph uh).
Definition InsertFisherman (address pk output : bytes) (serviceURL stakedTokens : string) (chains : option (list string)) (ph uh : Z) : PM unit :=
  InsertActor FishermanActor (mkActor ACTOR_TYPE_FISH address pk output serviceURL stakedTokens chains ph uh).
Definition InsertValidator (address pk output : bytes) (serviceURL stakedTokens : string) (ph uh : Z) : PM unit :=
  InsertActor ValidatorActor (mkActor ACTOR_TYPE_VAL address pk output serviceURL stakedTokens None ph uh).

Definition mkUpdate (atype : Z) (address : bytes) (serviceURL stakedAmount : string) (chains : option (list string)) : Actor :=
  {| ActorType := atype; Address := hexEncode address; PublicKey := ""; Chains := chains;
     ServiceUrl := serviceURL; StakedAmount := stakedAmount; PausedHeight := 0; UnstakingHeight := 0; Output := "" |}.

Definition UpdateApp (address : bytes) (stakedAmount : string) (chains : option (list string)) : PM unit :=
  UpdateActor ApplicationActor (mkUpdate ACTOR_TYPE_APP address "" stakedAmount chains).
Definition UpdateServicer (address : bytes) (serviceURL stakedAmount : string) (chains : option (list string)) : PM unit :=
  UpdateActor ServicerActor (mkUpdate ACTOR_TYPE_SERVICER address serviceURL stakedAmount chains).
Definition UpdateFisherman (address : bytes) (serviceURL stakedAmount : string) (chains : option (list string)) : PM unit :=
  UpdateActor FishermanActor (mkUpdate ACTOR_TYPE_FISH address serviceURL stakedAmount chains).
Definition UpdateValidator (address : bytes) (serviceURL stakedAmount : string) : PM unit :=
  UpdateActor ValidatorActor (mkUpdate ACTOR_TYPE_VAL address serviceURL stakedAmount None).

(** The wrappers per actor type. *)
Definition GetAppExists := GetExists ApplicationActor.
Definition GetApp := getActor ApplicationActor.
Definition GetAppStakeAmount (p : PostgresContext) (height : Z) (address : bytes) := getActorStakeAmount ApplicationActor p address height.
Definition SetAppStakeAmount := setActorStakeAmount ApplicationActor.
Definition GetAppsReadyToUnstake (p : PostgresContext) (height _status : Z) := GetActorsReadyToUnstake ApplicationActor p height.
Definition GetAppStatus := GetActorStatus ApplicationActor.
Definition SetAppUnstakingHeightAndStatus (address : bytes) (unstakingHeight _status : Z) := SetActorUnstakingHeightAndStatus ApplicationActor address unstakingHeight.
Definition GetAppPauseHeightIfExists := GetActorPauseHeightIfExists ApplicationActor.
Definition SetAppStatusAndUnstakingHeightIfPausedBefore (pausedBeforeHeight unstakingHeight _status : Z) :=
  SetActorStatusAndUnstakingHeightIfPausedBefore ApplicationActor pausedBeforeHeight unstakingHeight.
Definition SetAppPauseHeight := SetActorPauseHeight ApplicationActor.
Definition GetAppOutputAddress := GetActorOutputAddress ApplicationActor.

Definition GetServicerExists := GetExists ServicerActor.
Definition GetServicer := getActor ServicerActor.
Definition GetServicerStakeAmount (p : PostgresContext) (height : Z) (address : bytes) := getActorStakeAmount ServicerActor p address height.
Definition SetServicerStakeAmount := setActorStakeAmount ServicerActor.
Definition GetServicersReadyToUnstake (p : PostgresContext) (height _status : Z) := GetActorsReadyToUnstake ServicerActor p height.
Definition GetServicerStatus := GetActorStatus ServicerActor.
Definition SetServicerUnstakingHeightAndStatus (address : bytes) (unstakingHeight _status : Z) := SetActorUnstakingHeightAndStatus ServicerActor address unstakingHeight.
Definition GetServicerPauseHeightIfExists := GetActorPauseHeightIfExists ServicerActor.
Definition SetServicerStatusAndUnstakingHeightIfPausedBefore (pausedBeforeHeight unstakingHeight _status : Z) :=
  SetActorStatusAndUnstakingHeightIfPausedBefore ServicerActor pausedBeforeHeight unstakingHeight.
Definition SetServicerPauseHeight := SetActorPauseHeight ServicerActor.
Definition GetServicerOutputAddress := GetActorOutputAddress ServicerActor.

Definition GetFishermanExists := GetExists FishermanActor.
Definition GetFisherman := getActor FishermanActor.
Definition GetFishermanStakeAmount (p : PostgresContext) (height : Z) (address : bytes) := getActorStakeAmount FishermanActor p address height.
Definition SetFishermanStakeAmount := setActorStakeAmount FishermanActor.
Definition GetFishermenReadyToUnstake (p : PostgresContext) (height _status : Z) := GetActorsReadyToUnstake FishermanActor p height.
Definition GetFishermanStatus := GetActorStatus FishermanActor.
Definition SetFishermanUnstakingHeightAndStatus (address : bytes) (unstakingHeight _status : Z) := SetActorUnstakingHeightAndStatus FishermanActor address unstakingHeight.
Definition GetFishermanPauseHeightIfExists := GetActorPauseHeightIfExists FishermanActor.
Definition SetFishermanStatusAndUnstakingHeightIfPausedBefore (pausedBeforeHeight unstakingHeight _status : Z) :=
  SetActorStatusAndUnstakingHeightIfPausedBefore FishermanActor pausedBeforeHeight unstakingHeight.
Definition SetFishermanPauseHeight := SetActorPauseHeight FishermanActor.
Definition GetFishermanOutputAddress := GetActorOutputAddress FishermanActor.

Definition GetValidatorExists := GetExists ValidatorActor.
Definition GetValidator := getActor ValidatorActor.
Definition GetValidatorStakeAmount (p : PostgresContext) (height : Z) (address : bytes) := getActorStakeAmount ValidatorActor p address height.
Definition SetValidatorStakeAmount := setActorStakeAmount ValidatorActor.
Definition GetValidatorsReadyToUnstake (p : PostgresContext) (height _status : Z) := GetActorsReadyToUnstake ValidatorActor p height.
Definition GetValidatorStatus := GetActorStatus ValidatorActor.
Definition SetValidatorUnstakingHeightAndStatus (address : bytes) (unstakingHeight _status : Z) := SetActorUnstakingHeightAndStatus ValidatorActor address unstakingHeight.
Definition GetValidatorPauseHeightIfExists := GetActorPauseHeightIfExists ValidatorActor.
Definition SetValidatorsStatusAndUnstakingHeightIfPausedBefore (pausedBeforeHeight unstakingHeight _status : Z) :=
  SetActorStatusAndUnstakingHeightIfPausedBefore ValidatorActor pausedBeforeHeight unstakingHeight.
Definition SetValidatorPauseHeight := SetActorPauseHeight ValidatorActor.
Definition GetValidatorOutputAddress := GetActorOutputAddress ValidatorActor.

(** Not implemented in the source: accepted and ignored, always zero. *)
Definition SetValidatorMissedBlocks (address : bytes) (missedBlocks : Z) : PM unit := mret tt.
Definition GetValidatorMissedBlocks (p : PostgresContext) (address : bytes) (height : Z) : res string Z := Ok 0.

(** ** Parameters and flags *)
Definition setParamOrFlag (name : string) (value : ParamValue) (en : option bool) : PM unit :=
  p ← get;
  height ← of_res (GetHeight p);
  match en with
  | None => modify (fun p => set_db (set_params (InsertParamOrFlag (params (db p)) name height value false) (db p)) p)
  | Some b => modify (fun p => set_db (set_flags (InsertParamOrFlag (flags (db p)) name height value b) (db p)) p)
  end.
Definition SetParam (name : string) (value : ParamValue) : PM unit := setParamOrFlag name value None.
Definition SetFlag (name : string) (value : ParamValue) (en : bool) : PM unit := setParamOrFlag name value (Some en).

Definition invalidSyntax (s : string) : string := ("strconv.Atoi: parsing " +:+ s +:+ ": invalid syntax")%string.

Definition getIntValue (r : option ParamRow) : res string (Z * bool) :=
  match r with
  | None => Err ErrNoRows
  | Some r => match atoi (param_value r) with Some v => Ok (v, enabled r) | None => Err (invalidSyntax (param_value r)) end
  end.
Definition getStringValue (r : option ParamRow) : res string (string * bool) :=
  match r with None => Err ErrNoRows | Some r => Ok (param_value r, enabled r) end.
Definition getBytesValue (r : option ParamRow) : res string (bytes * bool) :=
  match r with
  | None => Err ErrNoRows
  | Some r => match hexDecode (param_value r) with Some b => Ok (b, enabled r) | None => Err hexErrorText end
  end.

Definition resFst {A B} (r : res string (A * B)) : res string A :=
  match r with Ok (a, _) => Ok a | Err e => Err e | Panic => Panic end.

Definition GetIntParam (p : PostgresContext) (name : string) (height : Z) : res string Z :=
  resFst (getIntValue (GetParamOrFlag (params (db p)) name height)).
Definition GetStringParam (p : PostgresContext) (name : string) (height : Z) : res string string :=
  resFst (getStringValue (GetParamOrFlag (params (db p)) name height)).
Definition GetBytesParam (p : PostgresContext) (name : string) (height : Z) : res string bytes :=
  resFst (getBytesValue (GetParamOrFlag (params (db p)) name height)).
Definition GetIntFlag (p : PostgresContext) (name : string) (height : Z) := getIntValue (GetParamOrFlag (flags (db p)) name height).
Definition GetStringFlag (p : PostgresContext) (name : string) (height : Z) := getStringValue (GetParamOrFlag (flags (db p)) name height).
Definition GetBytesFlag (p : PostgresContext) (name : string) (height : Z) := getBytesValue (GetParamOrFlag (flags (db p)) name height).

Definition GetAllParams (p : PostgresContext) : list (string * string) :=
  (fun r : string * (Z * ParamRow) => (r.1, param_value r.2.2))
  <$> sortKeys (map_to_list (omap (fun m : Hist ParamRow => newest m) (params (db p)))).

(** ** Blocks and commit *)
Definition GetMaximumBlockHeight (p : PostgresContext) : res string Z :=
  match maxHeight (blocks (db p)) with Some h => Ok h | None => Err "cannot scan NULL into *uint64" end.
Definition GetMinimumBlockHeight (p : PostgresContext) : res string Z :=
  match minHeight (blocks (db p)) with Some h => Ok h | None => Err "cannot scan NULL into *uint64" end.
Definition GetBlockHash (p : PostgresContext) (height : Z) : res string string :=
  rows1 (blk_hash <$> blocks (db p) !! height).

Definition IndexTransaction `{CryptoPrims} (idxTx : IndexedTransaction) : PM unit :=
  let hash := hexEncode (SHA3Hash (idx_Tx idxTx)) in
  modify (fun p => set_indexer {|
    txByHash := <[hash := idxTx]> (txByHash (txIndexer p));
    txByHeight := <[(idx_Height idxTx, idx_Index idxTx) := hash]> (txByHeight (txIndexer p)) |} p).

(** [GetByHeight(height, false)]: the entries of the height in index order. *)
Definition hashesAtHeight (i : TxIndexer) (height : Z) : list (Z * string) :=
  (fun r : Z * Z * string => (r.1.2, r.2)) <$> filter (fun r : Z * Z * string => r.1.1 = height) (map_to_list (txByHeight i)).

Definition idxLe (a b : Z * string) : Prop := a.1 <= b.1.
#[global] Instance idxLe_dec a b : Decision (idxLe a b).
Proof. unfold idxLe. apply _. Defined.

Definition GetByHeight (i : TxIndexer) (height : Z) : res string (list IndexedTransaction) :=
  let entries := sorting.merge_sort idxLe (hashesAtHeight i height) in
  match mapM (fun e : Z * string => txByHash i !! e.2) entries with
  | Some l => Ok l
  | None => Err "Key not found"
  end.

(** The clock is an argument of [Commit]. *)
Definition prepareBlock (now : Z) (proposerAddr quorumCert : slice) (p : PostgresContext) : res string Block :=
  let prev := if bool_decide (Height p ≠ 0) then GetBlockHash p (i64 (Height p - 1)) else Ok "" in
  match prev with
  | Err e => Err e
  | Panic => Panic
  | Ok prevBlockHash =>
      match GetByHeight (txIndexer p) (Height p) with
      | Err e => Err e
      | Panic => Panic
      | Ok idxTxs =>
          Ok {| b_Header := Some {| bh_Height := u64 (Height p); bh_NetworkId := networkId p;
                  bh_StateHash := ctx_stateHash p; bh_PrevStateHash := prevBlockHash;
                  bh_ProposerAddress := proposerAddr; bh_QuorumCertificate := quorumCert;
                  bh_Timestamp := now |};
                b_Transactions := idx_Tx <$> idxTxs |}
      end
  end.

Definition insertBlock (b : Block) : PM unit :=
  match b_Header b with
  | None => fail "block header is nil"
  | Some h =>
      p ← get;
      t ← of_res (InsertBlockRow (blocks (db p)) (bh_Height h)
                    {| blk_hash := bh_StateHash h; blk_proposer := bh_ProposerAddress h;
                       blk_quorum := bh_QuorumCertificate h |});
      modify (fun p => set_db (set_blocks t (db p)) p)
  end.

(** [Commit] up to the commit of the SQL transaction: the block store is written before the
    block row is inserted. *)
Definition Commit (now : Z) (proposerAddr quorumCert : slice) : PM unit :=
  p ← get;
  block ← of_res (prepareBlock now proposerAddr quorumCert p);
  modify (fun p => set_blockStore (<[u64 (Height p) := block]> (blockStore p)) p) ;;
  insertBlock block.

Definition NewSavePoint (_ : bytes) : PM unit := mret tt.
