(* ===== verification/Ledger.v ===== *)
(** What the persistence contexts promise about money: an abstract ledger of integer
    balances of accounts and pools, and the refinement of the account and pool operations to
    updates of that ledger.  Balances are stored as decimal texts, versioned by height. *)

From S2P Require Import Prelude GoStd CoreTypes Messages Sql Persistence.
#[local] Open Scope Z_scope.

(** ** Specification *)
#[global] Instance AccountSchema_eq_dec : EqDecision AccountSchema.
Proof. solve_decision. Defined.

Record Ledger := { lacc : gmap string Z; lpool : gmap string Z }.

Definition side (sch : AccountSchema) (L : Ledger) : gmap string Z :=
  match sch with AccountS => lacc L | PoolS => lpool L end.
Definition l_get (sch : AccountSchema) (key : string) (L : Ledger) : Z := default 0 (side sch L !! key).
Definition l_set (sch : AccountSchema) (key : string) (v : Z) (L : Ledger) : Ledger :=
  match sch with
  | AccountS => {| lacc := <[key := v]> (lacc L); lpool := lpool L |}
  | PoolS => {| lacc := lacc L; lpool := <[key := v]> (lpool L) |}
  end.
Definition l_add (sch : AccountSchema) (key : string) (v : Z) (L : Ledger) : Ledger :=
  l_set sch key (l_get sch key L + v) L.
(** All the tokens there are. *)
Definition supply (L : Ledger) : Z := msum (lacc L) + msum (lpool L).

Section ledger.
Implicit Types (L : Ledger) (sch : AccountSchema) (key : string) (v : Z).

Lemma l_get_set_eq sch key v L : l_get sch key (l_set sch key v L) = v.
Proof. destruct sch; unfold l_get; cbn; by rewrite lookup_insert_eq. Qed.

Lemma l_get_set_ne sch sch' key key' v L :
  (sch, key) ≠ (sch', key') -> l_get sch' key' (l_set sch key v L) = l_get sch' key' L.
Proof.
  intros Hne. destruct sch, sch'; unfold l_get; cbn; try done;
    rewrite lookup_insert_ne; [done|congruence|done|congruence].
Qed.

Lemma supply_set sch key v L : supply (l_set sch key v L) = supply L - l_get sch key L + v.
Proof. destruct sch; unfold supply, l_get; cbn; rewrite msum_insert; lia. Qed.

Lemma supply_add sch key v L : supply (l_add sch key v L) = supply L + v.
Proof. unfold l_add. rewrite supply_set. lia. Qed.

Lemma l_get_add_eq sch key v L : l_get sch key (l_add sch key v L) = l_get sch key L + v.
Proof. apply l_get_set_eq. Qed.
Lemma l_get_add_ne sch sch' key key' v L :
  (sch, key) ≠ (sch', key') -> l_get sch' key' (l_add sch key v L) = l_get sch' key' L.
Proof. apply l_get_set_ne. Qed.
End ledger.

(** ** The ledger of a database at a height *)
Definition viewSide (t : Table string) (h : Z) : gmap string Z :=
  omap (fun m : Hist string => match latest m h with Some (_, txt) => bigIntSetString txt | None => None end) t.
Definition view (d : DB) (h : Z) : Ledger := {| lacc := viewSide (accounts d) h; lpool := viewSide (pools d) h |}.

(** Every balance in force at the height is a decimal number. *)
Definition balances_ok (d : DB) (h : Z) : Prop :=
  forall sch key k txt, selectLatest (accTable sch d) key h = Some (k, txt) -> is_Some (bigIntSetString txt).

(** The write every operation ends in. *)
Definition writeBalance (sch : AccountSchema) (key : string) (v : Z) (p : PostgresContext) : PostgresContext :=
  set_db (set_accTable sch (InsertAccount (accTable sch (db p)) key (BigIntToString v) (Height p)) (db p)) p.

Section refinement.
Implicit Types (p : PostgresContext) (d : DB) (sch : AccountSchema) (key : string) (h v : Z).

Lemma side_view sch d h : side sch (view d h) = viewSide (accTable sch d) h.
Proof. by destruct sch. Qed.

Lemma viewSide_lookup t h key :
  viewSide t h !! key = match selectLatest t key h with Some (_, txt) => bigIntSetString txt | None => None end.
Proof. unfold viewSide, selectLatest. rewrite lookup_omap. by destruct (t !! key). Qed.

Lemma view_ext d d' h : accounts d = accounts d' -> pools d = pools d' -> view d h = view d' h.
Proof. unfold view. by intros -> ->. Qed.

(** Reading a balance and parsing it gives the ledger's entry, zero when there is none. *)
Lemma getAccountAmount_view sch p key h :
  balances_ok (db p) h ->
  exists txt, getAccountAmount sch p key h = Ok txt /\
    bigIntSetString txt = Some (l_get sch key (view (db p) h)).
Proof.
  intros Hok. unfold getAccountAmount, SelectBalance, l_get. rewrite side_view, viewSide_lookup.
  specialize (Hok sch key). destruct (selectLatest (accTable sch (db p)) key h) as [[k txt]|] eqn:Hs; cbn.
  - exists txt. split; [done|]. destruct (Hok k txt eq_refl) as [z ->]. done.
  - by exists defaultAccountAmountStr.
Qed.

Lemma viewSide_insert t key v h :
  viewSide (InsertAccount t key (BigIntToString v) h) h = <[key := v]> (viewSide t h).
Proof.
  apply map_eq. intros key'. rewrite viewSide_lookup. unfold InsertAccount.
  destruct (decide (key = key')) as [<-|Hne].
  - rewrite select_upsert_eq, lookup_insert_eq. apply bigInt_text_parse.
  - by rewrite select_upsert_ne, lookup_insert_ne, viewSide_lookup.
Qed.

Lemma view_writeBalance sch key v p :
  view (db (writeBalance sch key v p)) (Height p) = l_set sch key v (view (db p) (Height p)).
Proof.
  destruct sch; unfold view, writeBalance; cbn [set_db set_accTable set_accounts set_pools db accounts pools l_set lacc lpool accTable];
    by rewrite viewSide_insert.
Qed.

(** The past is immutable. *)
Lemma view_writeBalance_past sch key v p h :
  h < Height p -> view (db (writeBalance sch key v p)) h = view (db p) h.
Proof.
  intros Hlt. destruct sch; unfold view, writeBalance;
    cbn [set_db set_accTable set_accounts set_pools db accounts pools accTable]; f_equal; apply map_eq; intros key';
    by rewrite !viewSide_lookup; unfold InsertAccount; rewrite select_upsert_past.
Qed.

Lemma balances_ok_write sch key v p :
  balances_ok (db p) (Height p) -> balances_ok (db (writeBalance sch key v p)) (Height p).
Proof.
  intros Hok sch' key' k txt. specialize (Hok sch' key' k txt).
  destruct (decide (sch' = sch /\ key' = key)) as [[-> ->]|Hne].
  - assert (accTable sch (db (writeBalance sch key v p)) =
            InsertAccount (accTable sch (db p)) key (BigIntToString v) (Height p)) as -> by (by destruct sch).
    unfold InsertAccount. rewrite select_upsert_eq. intros [= <- <-].
    exists v. apply bigInt_text_parse.
  - intros Hs. apply Hok. rewrite <- Hs. destruct sch', sch; cbn; try done;
      unfold InsertAccount; rewrite select_upsert_ne; naive_solver.
Qed.

Lemma operation_run sch key amount v op p :
  balances_ok (db p) (Height p) -> bigIntSetString amount = Some v ->
  operationAccountAmount sch key amount op p =
    (Ok tt, writeBalance sch key (op (l_get sch key (view (db p) (Height p))) v) p).
Proof.
  intros Hok Hv. destruct (getAccountAmount_view sch p key (Height p) Hok) as (txt & Hg & Ht).
  unfold operationAccountAmount, get, GetHeight, of_res. cbv [mbind M_bind].
  rewrite Hg. unfold StringToBigInt. rewrite Ht, Hv. done.
Qed.
End refinement.

(** The operations of the account and pool API as one family, with their meaning. *)
Inductive AccOp := OpAdd | OpSubtract | OpSet.
Definition accOpProgram (o : AccOp) (sch : AccountSchema) (address : bytes) (amount : string) : PM unit :=
  match o, sch with
  | OpAdd, AccountS => AddAccountAmount address amount
  | OpSubtract, AccountS => SubtractAccountAmount address amount
  | OpSet, AccountS => SetAccountAmount address amount
  | OpAdd, PoolS => AddPoolAmount address amount
  | OpSubtract, PoolS => SubtractPoolAmount address amount
  | OpSet, PoolS => SetPoolAmount address amount
  end.
Definition accOpSpec (o : AccOp) (old v : Z) : Z :=
  match o with OpAdd => old + v | OpSubtract => old - v | OpSet => v end.

(** C6: the account and pool operations refine the ledger.  On a context whose balances are
    well formed and for a decimal amount, adding, subtracting or setting succeeds, changes
    exactly the addressed balance of the ledger at the context's height (an absent balance
    counts as zero), keeps the balances well formed, and leaves the ledger of every earlier
    height as it was. *)
Theorem persistence_refines_ledger (o : AccOp) (sch : AccountSchema) (address : bytes) (amount : string)
    (v : Z) (p : PostgresContext) :
  balances_ok (db p) (Height p) -> bigIntSetString amount = Some v ->
  exists p', accOpProgram o sch address amount p = (Ok tt, p') /\
    Height p' = Height p /\
    view (db p') (Height p) =
      l_set sch (hexEncode address) (accOpSpec o (l_get sch (hexEncode address) (view (db p) (Height p))) v)
            (view (db p) (Height p)) /\
    balances_ok (db p') (Height p) /\
    forall h, h < Height p -> view (db p') h = view (db p) h.
Proof.
  intros Hok Hv.
  exists (writeBalance sch (hexEncode address)
            (accOpSpec o (l_get sch (hexEncode address) (view (db p) (Height p))) v) p).
  split; [destruct o, sch; cbn [accOpProgram accOpSpec]; exact (operation_run _ _ _ v _ p Hok Hv)|].
  split; [done|]. split; [apply view_writeBalance|]. split; [by apply balances_ok_write|].
  intros h Hh. by apply view_writeBalance_past.
Qed.

Definition emptyContext (h : Z) : PostgresContext :=
  {| Height := h; db := emptyDB; ctx_stateHash := ""; blockStore := ∅;
     txIndexer := {| txByHash := ∅; txByHeight := ∅ |}; networkId := "" |}.

(** An executable test of [balances_ok]. *)
Definition balances_okb (d : DB) (h : Z) : bool :=
  forallb (fun r : string * Hist string =>
      match latest r.2 h with
      | Some (_, txt) => match bigIntSetString txt with Some _ => true | None => false end
      | None => true
      end) (map_to_list (accounts d) ++ map_to_list (pools d)).

Lemma balances_okb_ok d h : balances_okb d h = true -> balances_ok d h.
Proof.
  unfold balances_okb. rewrite forallb_forall. intros Hall sch key k txt Hs. unfold selectLatest in Hs.
  destruct (accTable sch d !! key) as [m|] eqn:Hm; [|done].
  specialize (Hall (key, m)). cbn in Hall. rewrite Hs in Hall.
  destruct (bigIntSetString txt); [done|]. discriminate Hall. apply in_or_app.
  destruct sch; [left | right]; by apply list_elem_of_In, elem_of_map_to_list.
Qed.

Lemma balances_ok_empty h : balances_ok emptyDB h.
Proof. intros [] key k txt; unfold selectLatest; cbn; by rewrite lookup_empty. Qed.

Lemma persistence_refines_ledger_witness :
  exists p', accOpProgram OpAdd AccountS "alice" "12" (emptyContext 3) = (Ok tt, p') /\
    l_get AccountS (hexEncode "alice") (view (db p') 3) = 12.
Proof.
  destruct (persistence_refines_ledger OpAdd AccountS "alice" "12" 12 (emptyContext 3)) as (p' & Hr & _ & Hv & _).
  - apply balances_ok_empty.
  - reflexivity.
  - exists p'. split; [exact Hr|]. change (Height (emptyContext 3)) with 3 in Hv. rewrite Hv, l_get_set_eq.
    reflexivity.
Defined.
