(* ===== verification/ActorStore.v ===== *)
(** What the persistence contexts promise about staked actors: an abstract map from address
    to actor row per schema, its updates by the actor operations, and what happens to the
    relay chains of an actor across those updates. *)

From S2P Require Import Prelude GoStd CoreTypes Messages Sql Persistence Ledger.
#[local] Open Scope string_scope.
#[local] Open Scope Z_scope.

(** The actors of a schema in force at a height. *)
Definition actorView (s : ProtocolActorSchema) (d : DB) (h : Z) : gmap string ActorRow :=
  omap (fun m : Hist ActorRow => snd <$> latest m h) (actorTable d s).

(** The single-actor updates of the API with the change they make to a row. *)
Inductive ActorUpd := UpdUnstaking (h : Z) | UpdPause (h : Z) | UpdStake (amount : string).
Definition actorUpdProgram (s : ProtocolActorSchema) (u : ActorUpd) (address : bytes) : PM unit :=
  match u with
  | UpdUnstaking h => SetActorUnstakingHeightAndStatus s address h
  | UpdPause h => SetActorPauseHeight s address h
  | UpdStake a => setActorStakeAmount s address a
  end.
(** What an update is to do to a row: one column is replaced, the other five are kept. *)
Definition actorUpdSpec (u : ActorUpd) (r : ActorRow) : ActorRow :=
  match u with
  | UpdUnstaking h => {| public_key := public_key r; staked_tokens := staked_tokens r; specific := specific r;
      output_address := output_address r; paused_height := paused_height r; unstaking_height := h |}
  | UpdPause h => {| public_key := public_key r; staked_tokens := staked_tokens r; specific := specific r;
      output_address := output_address r; paused_height := h; unstaking_height := unstaking_height r |}
  | UpdStake a => {| public_key := public_key r; staked_tokens := a; specific := specific r;
      output_address := output_address r; paused_height := paused_height r; unstaking_height := unstaking_height r |}
  end.

Section facts.
Implicit Types (s : ProtocolActorSchema) (p : PostgresContext) (d : DB) (h : Z).

Lemma actorView_lookup s d h key : actorView s d h !! key = snd <$> selectLatest (actorTable d s) key h.
Proof. unfold actorView, selectLatest. rewrite lookup_omap. by destruct (actorTable d s !! key). Qed.

Lemma actorTable_set_eq s t d : actorTable (set_actors s t d) s = t.
Proof. unfold actorTable, set_actors. cbn [actorTables]. by rewrite lookup_insert_eq. Qed.

Lemma actorTable_set_ne s s' t d : tableName s ≠ tableName s' -> actorTable (set_actors s t d) s' = actorTable d s'.
Proof. intros Hne. unfold actorTable, set_actors. cbn [actorTables]. by rewrite lookup_insert_ne. Qed.

Lemma actorView_copyLatest f s d h key :
  actorView s (set_actors s (copyLatest f (actorTable d s) key h) d) h = alter f key (actorView s d h).
Proof.
  apply map_eq. intros key'. rewrite actorView_lookup, actorTable_set_eq.
  destruct (decide (key = key')) as [<-|Hne].
  - rewrite select_copyLatest_eq, lookup_alter_eq, actorView_lookup.
    by destruct (selectLatest (actorTable d s) key h) as [[k r]|].
  - by rewrite select_copyLatest_ne, lookup_alter_ne, actorView_lookup.
Qed.

Lemma actorUpd_run s u address p :
  actorUpdProgram s u address p =
    (Ok tt, set_db (set_actors s (copyLatest (actorUpdSpec u) (actorTable (db p) s) (hexEncode address) (Height p)) (db p)) p).
Proof. by destruct u. Qed.
End facts.

(** C32: setting the unstaking height, the pause height or the stake of an actor always
    succeeds and changes exactly that column of exactly that actor, if it exists: the actor
    map at the context's height is altered at its address, in that one of its six columns; the
    maps of the other actor types, every earlier height, the ledger, and the tables of chains,
    parameters, flags and blocks are unchanged. *)
Theorem actor_updates_refine (s : ProtocolActorSchema) (u : ActorUpd) (address : bytes) (p : PostgresContext) :
  exists p', actorUpdProgram s u address p = (Ok tt, p') /\
    actorView s (db p') (Height p) = alter (actorUpdSpec u) (hexEncode address) (actorView s (db p) (Height p)) /\
    (forall s' h, tableName s' ≠ tableName s -> actorView s' (db p') h = actorView s' (db p) h) /\
    (forall h, h < Height p -> actorView s (db p') h = actorView s (db p) h) /\
    (forall h, view (db p') h = view (db p) h) /\
    chainTables (db p') = chainTables (db p) /\ params (db p') = params (db p) /\ flags (db p') = flags (db p) /\ blocks (db p') = blocks (db p).
Proof.
  rewrite actorUpd_run. eexists. split; [reflexivity|]. cbn [set_db db].
  split; [apply actorView_copyLatest|]. split; [|split; [|split; [|done]]].
  - intros s' h Hne. unfold actorView. by rewrite actorTable_set_ne.
  - intros h Hh. apply map_eq. intros key'. rewrite !actorView_lookup, actorTable_set_eq.
    by rewrite select_copyLatest_past.
  - intros h. by apply view_ext.
Qed.

Lemma actor_status_eq (s : ProtocolActorSchema) (p : PostgresContext) (address : bytes) (h : Z) :
  GetActorStatus s p address h =
    match unstaking_height <$> actorView s (db p) h !! hexEncode address with
    | None => Err ErrNoRows
    | Some u => if decide (u = -1) then Ok StakeStatus_Staked
                else if decide (h < u) then Ok StakeStatus_Unstaking else Ok StakeStatus_Unstaked
    end.
Proof.
  unfold GetActorStatus, selectActor. rewrite actorView_lookup.
  destruct (selectLatest _ _ h) as [[k r]|]; [|done]. cbn.
  repeat case_bool_decide; repeat case_decide; done.
Qed.

(** The actor read back at the context's height. *)
Lemma getActor_run s p address r k :
  selectLatest (actorTable (db p) s) (hexEncode address) (Height p) = Some (k, r) ->
  getActor s p address (Height p) =
    Ok (getChainsForActor s p (getActorFromRow (actorType s) (hexEncode address) (k, r)).1 k).
Proof. intros Hs. unfold getActor, selectActor. by rewrite Hs. Qed.

(** relay chains do not survive an update of their actor.  If an actor has a row from an
    earlier height and no chains were stored for it at the context's height, then after its
    pause height, unstaking height or stake is set, it is read back without any chain, since
    the query looks for chains at the height of the newest actor row. *)
Theorem actor_update_loses_chains (s : ProtocolActorSchema) (u : ActorUpd) (address : bytes)
    (p p' : PostgresContext) (k : Z) (r : ActorRow) :
  chainsTableName s ≠ "" ->
  selectLatest (actorTable (db p) s) (hexEncode address) (Height p) = Some (k, r) -> k < Height p ->
  rowAt (chainTable (db p) s) (hexEncode address) (Height p) = None ->
  actorUpdProgram s u address p = (Ok tt, p') ->
  exists a, getActor s p' address (Height p) = Ok a /\ Chains a = None.
Proof.
  intros Hc Hs Hk Hrow. rewrite actorUpd_run. intros [= <-].
  set (p' := set_db _ p). assert (Height p' = Height p) as HH by done.
  assert (selectLatest (actorTable (db p') s) (hexEncode address) (Height p) = Some (Height p, actorUpdSpec u r)) as Hs'.
  { unfold p'. cbn [set_db db]. rewrite actorTable_set_eq, select_copyLatest_eq, Hs. done. }
  exists (getChainsForActor s p' (getActorFromRow (actorType s) (hexEncode address) (Height p, actorUpdSpec u r)).1 (Height p)).
  split; [rewrite <- HH; apply getActor_run; by rewrite HH|].
  unfold getChainsForActor. rewrite bool_decide_eq_false_2 by done.
  cbn [getActorFromRow fst withChains Chains Address].
  unfold selectChains. rewrite Hs'. unfold p'. cbn [set_db db].
  change (chainTable (set_actors s _ (db p)) s) with (chainTable (db p) s). by rewrite Hrow.
Qed.

Section witnesses.
Let addr : bytes := "A".
Let at_height (h : Z) (p : PostgresContext) : PostgresContext :=
  {| Height := h; db := db p; ctx_stateHash := ctx_stateHash p; blockStore := blockStore p;
     txIndexer := txIndexer p; networkId := networkId p |}.
(** An application staked with a chain at height 1, seen at height 2. *)
Let p1 : PostgresContext :=
  at_height 2 (InsertApp addr "K" "O" "100" (Some ["0001"]) (-1) (-1) (emptyContext 1)).2.
Let p2 : PostgresContext := (actorUpdProgram ApplicationActor (UpdPause 2) addr p1).2.

Lemma actor_update_loses_chains_witness :
  (exists a, getActor ApplicationActor p1 addr 2 = Ok a /\ Chains a = Some ["0001"]) /\
  (exists a, getActor ApplicationActor p2 addr 2 = Ok a /\ Chains a = None).
Proof.
  split; [eexists; split; vm_compute; reflexivity|].
  refine (actor_update_loses_chains ApplicationActor (UpdPause 2) addr p1 p2 1
    {| public_key := "4b"; staked_tokens := "100"; specific := ""; output_address := "4f";
       paused_height := -1; unstaking_height := -1 |} _ _ _ _ _); vm_compute; congruence.
Defined.
End witnesses.
