(* ===== verification/KvStore.v ===== *)
(** The key-value store over badger and the block store
    (src/persistence/kvstore/kvstore.go, src/persistence/blockstore/block_store.go).

    Badger is a third-party database: its transactions and iterators are the operations of the
    class [Badger], and [BadgerLaws] states their documented behaviour on an open database, whose
    content is a finite map from keys to values.  Nothing is assumed of a reverse iteration that
    starts at a stored key outside its prefix or at no key at all. *)

From stdpp Require Import sorting.
From S2P Require Import Prelude GoStd GoSort CoreTypes Sql Persistence.
#[local] Open Scope string_scope.
#[local] Open Scope Z_scope.

Definition KeyNotFoundError : string := "Key not found".

(** ** Badger *)
Class Badger := {
  BDB : Type;
  badgerOpen : string -> bool -> BDB + string;                        (* the path; in memory *)
  txnSet : bytes -> bytes -> M BDB string unit;                       (* one [Update] *)
  txnDelete : bytes -> M BDB string unit;
  txnGet : BDB -> bytes -> slice + string;                            (* [Get] and [ValueCopy] *)
  (** The items met by [for it.Seek(seek); it.Valid(); it.Next()] on an iterator with a prefix,
      each with the outcome of reading its value. *)
  iterate : BDB -> bytes -> bool -> slice -> list (bytes * (bytes + string));
  DropAll : M BDB string unit;
  CloseDB : M BDB string unit;
}.

(** The entries of a map whose keys start with [p], in the order of the keys. *)
Definition hasPrefix (p k : bytes) : Prop := String.prefix p k = true.
#[global] Instance hasPrefix_dec p k : Decision (hasPrefix p k).
Proof. unfold hasPrefix. apply _. Defined.

Definition prefixEntries (p : bytes) (m : gmap bytes bytes) : list (bytes * bytes) :=
  sortKeys (filter (fun e : bytes * bytes => hasPrefix p e.1) (map_to_list m)).

Class BadgerLaws (B : Badger) := {
  content : BDB -> gmap bytes bytes;
  opened : BDB -> Prop;
  (** Keys and values badger accepts: it refuses empty keys, the prefix of its own keys, and
      keys and values over its size limits. *)
  storable : bytes -> bytes -> Prop;
  storable_key : forall k v, storable k v -> k ≠ "";
  open_law : forall path mem db, badgerOpen path mem = inl db -> opened db;
  open_mem_law : exists db, badgerOpen "" true = inl db /\ content db = ∅;
  set_law : forall db k v, opened db -> storable k v ->
    exists db', txnSet k v db = (Ok tt, db') /\ opened db' /\ content db' = <[k := v]> (content db);
  delete_law : forall db k, opened db -> k ≠ "" ->
    exists db', txnDelete k db = (Ok tt, db') /\ opened db' /\ content db' = delete k (content db);
  get_law : forall db k, opened db -> k ≠ "" ->
    match content db !! k with
    | Some v => exists s, txnGet db k = inl s /\ bz s = v
    | None => txnGet db k = inr KeyNotFoundError
    end;
  forward_law : forall db p, opened db ->
    iterate db p false (Some p) = (fun e => (e.1, inl e.2)) <$> prefixEntries p (content db);
  reverse_law : forall db p e, opened db ->
    (forall k, is_Some (content db !! k) -> strLe k e -> hasPrefix p k \/ strLt k p) ->
    (forall k, hasPrefix p k -> strLe k e) ->
    iterate db p true (Some e) = (fun e => (e.1, inl e.2)) <$> reverse (prefixEntries p (content db));
  drop_law : forall db, opened db -> exists db', DropAll db = (Ok tt, db') /\ opened db' /\ content db' = ∅;
}.

(** ** The store *)
Module KVStore.
Section kv.
Context `{B : Badger}.

Abbreviation badgerKVStore := BDB.
Abbreviation KM := (M badgerKVStore string).

Definition NewKVStore (path : string) : badgerKVStore + string := badgerOpen path false.
(** A failure ends the process. *)
Definition NewMemKVStore : res string badgerKVStore :=
  match badgerOpen "" true with inl db => Ok db | inr _ => Panic end.

Definition Set_ (key value : bytes) : KM unit := txnSet key value.
Definition Get (store : badgerKVStore) (key : bytes) : slice + string := txnGet store key.
Definition Delete (key : bytes) : KM unit := txnDelete key.

(** On the reversed bytes: the last byte is at the head. *)
Fixpoint prefixEndRev (rprefix : list Ascii.ascii) : option (list Ascii.ascii) :=
  match rprefix with
  | [] => None
  | c :: rest => if bool_decide (Ascii.nat_of_ascii c = 255%nat) then prefixEndRev rest
                 else Some (Ascii.ascii_of_nat (S (Ascii.nat_of_ascii c)) :: rest)
  end.
Definition prefixEndBytes (prefix : bytes) : slice :=
  (fun r => String.string_of_list_ascii (reverse r)) <$> prefixEndRev (reverse (String.list_ascii_of_string prefix)).

(** The loop over the items stops at the first value that cannot be read. *)
Fixpoint collectItems (items : list (bytes * (bytes + string))) (keys values : list bytes) : list bytes * list bytes + string :=
  match items with
  | [] => inl (keys, values)
  | (k, inl v) :: rest => collectItems rest (keys ++ [k])%list (values ++ [v])%list
  | (_, inr e) :: _ => inr e
  end.

Definition GetAll (store : badgerKVStore) (prefix : bytes) (descending : bool) : list bytes * list bytes + string :=
  let seek := if descending then prefixEndBytes prefix else Some prefix in
  collectItems (iterate store prefix descending seek) [] [].

Definition Exists (store : badgerKVStore) (key : bytes) : bool + string :=
  match Get store key with
  | inr e => inr e
  | inl val => inl (bool_decide (is_Some val))
  end.

Definition ClearAll : KM unit := DropAll.
Definition Stop : KM unit := CloseDB.
End kv.
End KVStore.

(** ** The block store *)
Class BlockCodec := {
  marshalStoredBlock : Block -> bytes + string;
  unmarshalStoredBlock : bytes -> Block + string;
}.
Class BlockCodecLaws (C : BlockCodec) : Prop := {
  block_roundtrip : forall b bs, marshalStoredBlock b = inl bs -> unmarshalStoredBlock bs = inl b;
}.

Module BlockStore.
Section blocks.
Context `{B : Badger} `{C : BlockCodec}.

Record blockStore := { kv : BDB }.

(** [":memory:"] gives an in-memory store, whose failure ends the process. *)
Definition NewBlockStore (path : string) : res string blockStore :=
  if bool_decide (path = ":memory:") then
    match KVStore.NewMemKVStore with Ok db => Ok {| kv := db |} | Err e => Err e | Panic => Panic end
  else match KVStore.NewKVStore path with
       | inl db => Ok {| kv := db |}
       | inr e => Err ("failed to init blockstore kv: " +:+ e)
       end.

(** The store's methods forward to the key-value store. *)
Definition onKV {A} (f : M BDB string A) : M blockStore string A := fun s => let '(r, db) := f (kv s) in (r, {| kv := db |}).

Definition StoreBlock (height : Z) (block : Block) : M blockStore string unit :=
  match marshalStoredBlock block with
  | inr e => fail e
  | inl b => onKV (KVStore.Set_ (HeightToBytes height) b)
  end.

Definition GetBlock (s : blockStore) (height : Z) : Block + string :=
  match KVStore.Get (kv s) (HeightToBytes height) with
  | inr e => inr e
  | inl blockBytes => unmarshalStoredBlock (bz blockBytes)
  end.

Definition Set_ (k v : bytes) : M blockStore string unit := onKV (KVStore.Set_ k v).
Definition Get (s : blockStore) (key : bytes) : slice + string := KVStore.Get (kv s) key.
Definition ClearAll : M blockStore string unit := onKV KVStore.ClearAll.
Definition Stop : M blockStore string unit := onKV KVStore.Stop.
Definition Delete (key : bytes) : M blockStore string unit := onKV (KVStore.Delete key).
Definition Exists (s : blockStore) (key : bytes) : bool + string := KVStore.Exists (kv s) key.
Definition GetAll (s : blockStore) (prefixKey : bytes) (descending : bool) := KVStore.GetAll (kv s) prefixKey descending.
End blocks.
Arguments blockStore {B}.
End BlockStore.

(** ** Facts *)
Module KvFacts.
Import KVStore.

Lemma prefixEndRev_app r c :
  prefixEndRev (r ++ [c])%list = match prefixEndRev r with
    | Some e => Some (e ++ [c])%list
    | None => if bool_decide (Ascii.nat_of_ascii c = 255%nat) then None else Some [Ascii.ascii_of_nat (S (Ascii.nat_of_ascii c))]
    end.
Proof. induction r as [|d r IH]; [done|]. cbn. destruct (bool_decide (Ascii.nat_of_ascii d = _)); [exact IH|done]. Qed.

(** The end of a prefix, from its first byte on. *)
Lemma prefixEndBytes_cons c p :
  prefixEndBytes (String c p) = match prefixEndBytes p with
    | Some e => Some (String c e)
    | None => if bool_decide (Ascii.nat_of_ascii c = 255%nat) then None else Some (String (Ascii.ascii_of_nat (S (Ascii.nat_of_ascii c))) "")
    end.
Proof.
  unfold prefixEndBytes. cbn [String.list_ascii_of_string]. rewrite reverse_cons, prefixEndRev_app.
  destruct (prefixEndRev _); cbn; [by rewrite reverse_app|]. by case_bool_decide.
Qed.

Lemma hasPrefix_cons c p d k : hasPrefix (String c p) (String d k) <-> c = d /\ hasPrefix p k.
Proof. unfold hasPrefix. cbn. destruct (Ascii.ascii_dec c d); naive_solver. Qed.

Lemma hasPrefix_app p k : hasPrefix p (p +:+ k).
Proof. induction p as [|c p IH]; [by destruct k|]. cbn [String.append]. by apply hasPrefix_cons. Qed.

Lemma hasPrefix_inv p k : hasPrefix p k -> exists s, k = p +:+ s.
Proof.
  revert k. induction p as [|c p IH]; intros k Hp; [by exists k|]. destruct k as [|d k]; [done|].
  apply hasPrefix_cons in Hp as [-> [s ->]%IH]. by exists s.
Qed.

Lemma hasPrefix_le p k : hasPrefix p k -> strLe p k.
Proof.
  intros [s ->]%hasPrefix_inv. induction p as [|c p IH]; [by destruct s|]. apply strLe_cons. by right.
Qed.

Lemma strLt_cons c1 s1 c2 s2 :
  strLt (String c1 s1) (String c2 s2) <->
  (Ascii.N_of_ascii c1 < Ascii.N_of_ascii c2)%N \/ (c1 = c2 /\ strLt s1 s2).
Proof.
  unfold strLt. rewrite strLe_cons. split.
  - intros Hn. destruct (decide (c1 = c2)) as [->|Hne]; [right; naive_solver|]. left.
    assert (Ascii.N_of_ascii c1 ≠ Ascii.N_of_ascii c2); [|lia].
    intros He. apply Hne. by rewrite <- (Ascii.ascii_N_embedding c1), He, Ascii.ascii_N_embedding.
  - intros [Hl|[-> Hl]] [Hl'|[He Hs]]; subst; try lia; naive_solver.
Qed.

Lemma strLt_nil s : ¬ strLt s "".
Proof. intros H. apply H. by destruct s. Qed.
Lemma nil_strLt c s : strLt "" (String c s).
Proof. intros H. done. Qed.

Lemma succ_ascii c : Ascii.nat_of_ascii c ≠ 255%nat ->
  Ascii.N_of_ascii (Ascii.ascii_of_nat (S (Ascii.nat_of_ascii c))) = (Ascii.N_of_ascii c + 1)%N.
Proof.
  intros Hc. pose proof (Ascii.nat_ascii_bounded c) as Hb.
  unfold Ascii.ascii_of_nat, Ascii.nat_of_ascii in *. rewrite Ascii.N_ascii_embedding; lia.
Qed.

(** No key follows a prefix that has no end but the keys with that prefix. *)
Lemma no_end_prefix p k : prefixEndBytes p = None -> strLe p k -> hasPrefix p k.
Proof.
  revert k. induction p as [|c p IH]; intros k Hn Hle; [by destruct k|]. rewrite prefixEndBytes_cons in Hn.
  destruct (prefixEndBytes p); [done|]. case_bool_decide as Hc; [|done].
  destruct k as [|d k]; [done|]. apply strLe_cons in Hle. apply hasPrefix_cons.
  destruct Hle as [Hlt|[-> Hle]]; [|split; [done|by apply IH]].
  pose proof (Ascii.N_ascii_bounded d) as Hb. unfold Ascii.nat_of_ascii in Hc. lia.
Qed.

(** [prefixEndBytes] is the end of the half-open range of the keys with the prefix. *)
Lemma prefix_end_spec p e k : prefixEndBytes p = Some e -> strLe p k -> (strLt k e <-> hasPrefix p k).
Proof.
  revert e k. induction p as [|c p IH]; intros e k He Hle; [done|]. rewrite prefixEndBytes_cons in He.
  destruct k as [|d k]; [done|]. rewrite hasPrefix_cons. apply strLe_cons in Hle.
  destruct (prefixEndBytes p) as [e'|] eqn:Hp.
  - injection He as <-. rewrite strLt_cons. destruct Hle as [Hlt|[-> Hle]].
    + split; [intros [?|[-> _]]; lia|intros [-> _]; lia].
    + rewrite <- (IH e' k eq_refl Hle). split; [intros [?|?]; [lia|naive_solver]|naive_solver].
  - case_bool_decide as Hc; [done|]. injection He as <-. rewrite strLt_cons, succ_ascii by done. split.
    + intros [Hlt|[_ Hlt]]; [|by apply strLt_nil in Hlt]. destruct Hle as [?|[-> Hle]]; [lia|]. split; [done|by apply no_end_prefix].
    + intros [-> _]. left. lia.
Qed.

Lemma prefix_end_above p e k : prefixEndBytes p = Some e -> hasPrefix p k -> strLt k e.
Proof. intros He Hk. apply (prefix_end_spec p e k He); [by apply hasPrefix_le|done]. Qed.

(** *** Iteration *)
Lemma collectItems_ok (l : list (bytes * bytes)) ks vs :
  collectItems ((fun e => (e.1, inl e.2)) <$> l) ks vs = inl ((ks ++ l.*1)%list, (vs ++ l.*2)%list).
Proof.
  revert ks vs. induction l as [|[k v] l IH]; intros ks vs; cbn; [by rewrite !app_nil_r|]. by rewrite IH, <- !app_assoc.
Qed.

Section laws.
Context {B : Badger} {BL : BadgerLaws B}.

(** The entries of a prefix in the direction of the iteration. *)
Definition directed {A} (descending : bool) (l : list A) : list A := if descending then reverse l else l.

(** [GetAll] returns exactly the entries whose keys have the prefix, ascending or descending, if
    the key that ends the prefix is not in the store and, descending, the prefix has an end. *)
Lemma getAll_spec db p (descending : bool) :
  opened db ->
  (descending = true -> exists e, prefixEndBytes p = Some e /\ content db !! e = None) ->
  GetAll db p descending = inl ((directed descending (prefixEntries p (content db))).*1, (directed descending (prefixEntries p (content db))).*2).
Proof.
  intros Ho He. unfold GetAll. destruct descending; [|by rewrite (forward_law db p), collectItems_ok].
  destruct (He eq_refl) as (e & Hp & Hn). rewrite Hp, (reverse_law db p e), collectItems_ok; [done|done|..].
  - intros k Hk Hle. destruct (decide (strLe p k)) as [Hpk|Hpk]; [left|by right].
    apply (prefix_end_spec p e k Hp Hpk). apply strLe_ne_lt; [done|]. intros ->. rewrite Hn in Hk. by destruct Hk.
  - intros k Hk. apply strLt_le. by eapply prefix_end_above.
Qed.

Lemma get_content db k : opened db -> k ≠ "" ->
  match Get db k with inl s => content db !! k = Some (bz s) | inr e => content db !! k = None /\ e = KeyNotFoundError end.
Proof.
  intros Ho Hk. pose proof (get_law db k Ho Hk) as Hg. unfold Get. destruct (content db !! k) as [v|].
  - destruct Hg as (s & -> & Hs). by rewrite Hs.
  - by rewrite Hg.
Qed.

(** *** Blocks *)
Section blocks.
Context {C : BlockCodec} {CL : BlockCodecLaws C}.

Lemma HeightToBytes_inj h h' : in_u64 h -> in_u64 h' -> HeightToBytes h = HeightToBytes h' -> h = h'.
Proof.
  intros Hh Hh' He. apply (f_equal HeightFromBytes) in He.
  rewrite !height_bytes_roundtrip in He by done. by injection He.
Qed.

Lemma HeightToBytes_nonempty h : HeightToBytes h ≠ "".
Proof. done. Qed.

(** A stored block is returned at its height, and the blocks at all other heights are what they
    were. *)
Theorem stored_block_returned (s : BlockStore.blockStore) (h h' : Z) (b : Block) (bs : bytes) :
  opened (BlockStore.kv s) -> in_u64 h -> in_u64 h' ->
  marshalStoredBlock b = inl bs -> storable (HeightToBytes h) bs ->
  exists s', BlockStore.StoreBlock h b s = (Ok tt, s') /\ opened (BlockStore.kv s') /\
    BlockStore.GetBlock s' h' = if bool_decide (h' = h) then inl b else BlockStore.GetBlock s h'.
Proof.
  intros Ho Hh Hh' Hm Hst. unfold BlockStore.StoreBlock, BlockStore.onKV, Set_. rewrite Hm.
  destruct (set_law (BlockStore.kv s) _ _ Ho Hst) as (db' & -> & Ho' & Hc). eexists. split; [done|]. split; [done|].
  unfold BlockStore.GetBlock. cbn [BlockStore.kv].
  pose proof (get_content db' (HeightToBytes h') Ho' (HeightToBytes_nonempty h')) as Hg.
  rewrite Hc in Hg. case_bool_decide as He; [subst h'; rewrite lookup_insert_eq in Hg|rewrite lookup_insert_ne in Hg].
  - destruct (Get db' _) as [v|e]; [|naive_solver]. injection Hg as Hv. rewrite <- Hv. by apply block_roundtrip.
  - pose proof (get_content (BlockStore.kv s) (HeightToBytes h') Ho (HeightToBytes_nonempty h')) as Hg0.
    destruct (Get db' _) as [v|e], (Get (BlockStore.kv s) _) as [v0|e0]; [|naive_solver..]. f_equal. congruence.
  - intros E. apply He. symmetry. by apply HeightToBytes_inj.
Qed.
End blocks.
End laws.
End KvFacts.

(** ** A concrete database: the map itself *)
Module ToyBadger.
#[export] Instance badger : Badger := {|
  BDB := gmap bytes bytes;
  badgerOpen _ _ := inl ∅;
  txnSet k v := if bool_decide (k = "") then fail "Key cannot be empty" else modify (<[k := v]>);
  txnDelete k := if bool_decide (k = "") then fail "Key cannot be empty" else modify (delete k);
  txnGet m k := match m !! k with Some v => inl (Some v) | None => inr KeyNotFoundError end;
  iterate m p (descending : bool) seek := (fun e => (e.1, inl e.2)) <$> (if descending then reverse (prefixEntries p m) else prefixEntries p m);
  DropAll := put ∅;
  CloseDB := mret tt;
|}.

#[export] Instance badgerLaws : BadgerLaws badger.
Proof.
  refine {| content := fun m : @BDB badger => (m : gmap bytes bytes); opened _ := True; storable k _ := k ≠ "" |}; try done.
  - by eexists.
  - intros db k v _ Hk. eexists. cbn. rewrite bool_decide_eq_false_2 by done. done.
  - intros db k _ Hk. eexists. cbn. rewrite bool_decide_eq_false_2 by done. done.
  - intros db k _ Hk. cbn. destruct (_ !! k); [by eexists|done].
  - intros db _. by eexists.
Defined.
End ToyBadger.
