(* ===== verification/Indexer.v ===== *)
(** The transaction index over the key-value store (src/persistence/indexer/indexer.go,
    src/shared/core/types/idx_tx.go).

    A transaction is stored under its hash; its position (height and index in the block) is
    stored under the height, under its signer and under its recipient, each time with the key of
    the hash as the value.  The order of the positions is the order of the keys, because numbers
    are encoded by lexnum, a third-party encoder whose documented property is that the order of
    the encodings is the order of the numbers ([LexnumLaws]).

    [IndexSpec] is the abstract index: the maps [Persistence.TxIndexer] that the rest of the
    development uses, and the same for signers and recipients. *)

From stdpp Require Import sorting.
From S2P Require Import Prelude GoStd GoSort Crypto Messages Sql Persistence KvStore.
#[local] Open Scope string_scope.
#[local] Open Scope Z_scope.

(** ** Code outside the repository *)
Fixpoint noSlash (s : string) : bool :=
  match s with "" => true | String c s' => negb (Nat.eqb (Ascii.nat_of_ascii c) 47) && noSlash s' end.

Class Lexnum := { EncodeInt : Z -> string }.
Class LexnumLaws (L : Lexnum) : Prop := {
  encode_lt : forall i j, i < j -> strLt (EncodeInt i) (EncodeInt j);
  encode_prefix_free : forall i j, hasPrefix (EncodeInt i) (EncodeInt j) -> i = j;
  encode_no_slash : forall i, noSlash (EncodeInt i) = true;
}.

Class IdxTxCodec := {
  IdxTx_Bytes : IndexedTransaction -> bytes + string;
  IdxTx_FromBytes : bytes -> IndexedTransaction + string;
}.
Class IdxTxCodecLaws (C : IdxTxCodec) : Prop := {
  idx_roundtrip : forall t b, IdxTx_Bytes t = inl b -> IdxTx_FromBytes b = inl t;
}.

(** ** The index *)
Module Indexer.
Section indexer.
Context `{CryptoPrims} `{Badger} `{Lexnum} `{IdxTxCodec}.

Definition hashPrefix : string := "h".
Definition heightPrefix : string := "b".
Definition senderPrefix : string := "s".
Definition recipientPrefix : string := "r".

Record txIndexer := { idb : BDB }.
Abbreviation IM := (M BDB string).

Definition NewMemTxIndexer : res string txIndexer :=
  match KVStore.NewMemKVStore with Ok db => Ok {| idb := db |} | Err e => Err e | Panic => Panic end.

Definition NewTxIndexer (databasePath : string) : res string txIndexer :=
  if bool_decide (databasePath = ":memory:") then NewMemTxIndexer
  else match KVStore.NewKVStore databasePath with inl db => Ok {| idb := db |} | inr e => Err e end.

(** *** Keys *)
Definition key (prefix postfix : string) : bytes := prefix +:+ "/" +:+ postfix.
Definition hashKey (hash : bytes) : bytes := key hashPrefix (hexEncode hash).
Definition heightKey (height : Z) : bytes := key heightPrefix (EncodeInt height +:+ "/").
Definition heightAndIndexKey (height index : Z) : bytes := heightKey height +:+ EncodeInt index.
Definition senderKey (address : string) : bytes := key senderPrefix (address +:+ "/").
Definition senderHeightAndBlockIndexKey (address : string) (height blockIndex : Z) : bytes :=
  (senderKey address +:+ (EncodeInt height +:+ "/")) +:+ EncodeInt blockIndex.
Definition recipientKey (address : string) : bytes := key recipientPrefix (address +:+ "/").
Definition recipientHeightAndBlockIndexKey (address : string) (height blockIndex : Z) : bytes :=
  (recipientKey address +:+ (EncodeInt height +:+ "/")) +:+ EncodeInt blockIndex.

(** *** Writing *)
Definition indexByHash (hash bz : bytes) : IM bytes := KVStore.Set_ (hashKey hash) bz ;; mret (hashKey hash).
Definition indexByHeightAndIndex (height index : Z) (bz : bytes) : IM unit := KVStore.Set_ (heightAndIndexKey height index) bz.
Definition indexBySenderHeightAndBlockIndex (sender : string) (height blockIndex : Z) (bz : bytes) : IM unit :=
  if bool_decide (sender = "") then mret tt else KVStore.Set_ (senderHeightAndBlockIndexKey sender height blockIndex) bz.
Definition indexByRecipientHeightAndBlockIndex (recipient : string) (height blockIndex : Z) (bz : bytes) : IM unit :=
  if bool_decide (recipient = "") then mret tt else KVStore.Set_ (recipientHeightAndBlockIndexKey recipient height blockIndex) bz.

Definition HashFromBytes (bz : bytes) : bytes := SHA3Hash bz.

Definition Index (result : IndexedTransaction) : IM unit :=
  match IdxTx_Bytes result with
  | inr e => fail e
  | inl bz =>
      hashKey ← indexByHash (HashFromBytes (idx_Tx result)) bz;
      indexByHeightAndIndex (idx_Height result) (idx_Index result) hashKey ;;
      indexBySenderHeightAndBlockIndex (idx_SignerAddr result) (idx_Height result) (idx_Index result) hashKey ;;
      indexByRecipientHeightAndBlockIndex (idx_RecipientAddr result) (idx_Height result) (idx_Index result) hashKey
  end.

(** *** Reading *)
Definition get (db : BDB) (key : bytes) : IndexedTransaction + string :=
  match KVStore.Get db key with
  | inr e => inr e
  | inl bs => IdxTx_FromBytes (bz bs)
  end.

Fixpoint getEach (db : BDB) (hashKeys : list bytes) : list IndexedTransaction + string :=
  match hashKeys with
  | [] => inl []
  | hashKey :: rest =>
      match get db hashKey with
      | inr e => inr e
      | inl idxTx => match getEach db rest with inr e => inr e | inl l => inl (idxTx :: l) end
      end
  end.

Definition getAll (db : BDB) (prefix : bytes) (descending : bool) : list IndexedTransaction + string :=
  match KVStore.GetAll db prefix descending with
  | inr e => inr e
  | inl (_, hashKeys) => getEach db hashKeys
  end.

Definition GetByHash (db : BDB) (hash : bytes) : IndexedTransaction + string := get db (hashKey hash).
Definition GetByHeight (db : BDB) (height : Z) (descending : bool) := getAll db (heightKey height) descending.
Definition GetBySender (db : BDB) (sender : string) (descending : bool) := getAll db (senderKey sender) descending.
Definition GetByRecipient (db : BDB) (recipient : string) (descending : bool) := getAll db (recipientKey recipient) descending.

Definition Close : IM unit := KVStore.Stop.
End indexer.
End Indexer.

(** ** The abstract index *)
Module IndexSpec.
Abbreviation position := (Z * Z)%type.

(** Positions of the transactions of an address, with the hashes in hex. *)
Abbreviation AddrIndex := (gmap (string * position) string).

Section spec.
Context `{CryptoPrims}.

Record TxIndex := { byHashHeight : TxIndexer; bySender : AddrIndex; byRecipient : AddrIndex }.
Definition emptyIndex : TxIndex := {| byHashHeight := {| txByHash := ∅; txByHeight := ∅ |}; bySender := ∅; byRecipient := ∅ |}.

Definition txHash (t : IndexedTransaction) : string := hexEncode (SHA3Hash (idx_Tx t)).
Definition pos (t : IndexedTransaction) : position := (idx_Height t, idx_Index t).

Definition indexAddr (addr : string) (t : IndexedTransaction) (m : AddrIndex) : AddrIndex :=
  if bool_decide (addr = "") then m else <[(addr, pos t) := txHash t]> m.

Definition index (t : IndexedTransaction) (x : TxIndex) : TxIndex := {|
  byHashHeight := {| txByHash := <[txHash t := t]> (txByHash (byHashHeight x)); txByHeight := <[pos t := txHash t]> (txByHeight (byHashHeight x)) |};
  bySender := indexAddr (idx_SignerAddr t) t (bySender x);
  byRecipient := indexAddr (idx_RecipientAddr t) t (byRecipient x) |}.

(** The part of the index that the persistence context keeps evolves in the same way. *)
Lemma index_persistence (t : IndexedTransaction) (x : TxIndex) (p : PostgresContext) :
  txIndexer p = byHashHeight x -> txIndexer (IndexTransaction t p).2 = byHashHeight (index t x).
Proof. intros He. unfold IndexTransaction. cbn. by rewrite He. Qed.

(** The order of positions. *)
Definition posLt (a b : position) : Prop := a.1 < b.1 \/ (a.1 = b.1 /\ a.2 < b.2).
Definition posLe (a b : position * string) : Prop := ¬ posLt b.1 a.1.
#[global] Instance posLt_dec a b : Decision (posLt a b).
Proof. unfold posLt. apply _. Defined.
#[global] Instance posLe_dec a b : Decision (posLe a b).
Proof. unfold posLe. apply _. Defined.

Definition atAddr (addr : string) (m : AddrIndex) : list (position * string) :=
  merge_sort posLe ((fun e : string * position * string => (e.1.2, e.2)) <$> filter (fun e : string * position * string => e.1.1 = addr) (map_to_list m)).

Definition atHeight (h : Z) (i : TxIndexer) : list (Z * string) := merge_sort idxLe (hashesAtHeight i h).

(** The transactions of an address, by position. *)
Definition ofAddr (addr : string) (m : AddrIndex) (x : TxIndex) : list IndexedTransaction :=
  omap (fun e : position * string => txByHash (byHashHeight x) !! e.2) (atAddr addr m).
Definition ofHeight (h : Z) (x : TxIndex) : list IndexedTransaction :=
  omap (fun e : Z * string => txByHash (byHashHeight x) !! e.2) (atHeight h (byHashHeight x)).
End spec.
End IndexSpec.
