(* ===== verification/IndexerFacts.v ===== *)
(** The index over the key-value store implements the abstract index: after any sequence of
    transactions every query returns what the maps of [IndexSpec] say, in the order of the
    positions or its reverse. *)

From stdpp Require Import sorting.
From S2P Require Import Prelude GoStd GoSort Crypto Messages Sql Persistence KvStore Indexer.
#[local] Open Scope string_scope.
#[local] Open Scope Z_scope.

Module IndexerFacts.
Import KvFacts Indexer IndexSpec.

(** ** Strings *)
Lemma app_string_assoc (a b c : string) : (a +:+ b) +:+ c = a +:+ (b +:+ c).
Proof. induction a as [|x a IH]; [done|]. exact (f_equal (String x) IH). Qed.

Lemma app_string_inj (p a b : string) : p +:+ a = p +:+ b -> a = b.
Proof. induction p as [|c p IH]; [done|]. intros [= He]. by apply IH. Qed.

Lemma slash_split a b x y :
  noSlash a = true -> noSlash b = true -> a +:+ ("/" +:+ x) = b +:+ ("/" +:+ y) -> a = b /\ x = y.
Proof.
  revert b. induction a as [|c a IH]; intros [|d b] Ha Hb He; cbn in *; simplify_eq; try done.
  apply andb_prop in Ha as [_ Ha], Hb as [_ Hb]. destruct (IH b Ha Hb) as [-> ->]; [|done]. done.
Qed.

Lemma slash_prefix a b y : noSlash a = true -> noSlash b = true -> hasPrefix (a +:+ "/") (b +:+ ("/" +:+ y)) -> a = b.
Proof. intros Ha Hb [s Hs]%hasPrefix_inv. rewrite app_string_assoc in Hs. by destruct (slash_split b a y s Hb Ha Hs). Qed.

Lemma noSlash_app a x : noSlash (a +:+ ("/" +:+ x)) = false.
Proof. induction a as [|c a IH]; [done|]. change (negb (Nat.eqb (Ascii.nat_of_ascii c) 47) && noSlash (a +:+ ("/" +:+ x)) = false). rewrite IH. apply andb_false_r. Qed.

Lemma noSlash_app_l a x : noSlash a = true -> noSlash x = true -> noSlash (a +:+ x) = true.
Proof.
  induction a as [|c a IH]; [done|]. change (noSlash (String c a +:+ x)) with (negb (Nat.eqb (Ascii.nat_of_ascii c) 47) && noSlash (a +:+ x)).
  intros [Hc Ha]%andb_prop Hx. rewrite Hc. by apply IH.
Qed.

Lemma strLt_app_l p a b : strLt a b -> strLt (p +:+ a) (p +:+ b).
Proof. induction p as [|c p IH]; [done|]. intros Hl. apply strLt_cons. right. split; [done|by apply IH]. Qed.

Lemma strLt_app_r a b u v : strLt a b -> ¬ hasPrefix a b -> strLt (a +:+ u) (b +:+ v).
Proof.
  revert b. induction a as [|c a IH]; intros b Hl Hp; [by destruct Hp, b|].
  destruct b as [|d b]; [by apply strLt_nil in Hl|]. apply strLt_cons in Hl. rewrite hasPrefix_cons in Hp.
  apply strLt_cons. destruct Hl as [?|[-> Hl]]; [by left|]. right. split; [done|]. apply IH; naive_solver.
Qed.

Lemma prefixEnd_slash p : KVStore.prefixEndBytes (p +:+ "/") = Some (p +:+ "0").
Proof. induction p as [|c p IH]; [done|]. change (KVStore.prefixEndBytes (String c (p +:+ "/")) = Some (String c (p +:+ "0"))). by rewrite prefixEndBytes_cons, IH. Qed.

Lemma hasPrefix_refl s : hasPrefix s s.
Proof. induction s as [|c s IH]; [done|]. by apply hasPrefix_cons. Qed.

(** ** Sorted tables *)
Lemma sorted_keys_strict {K V} (leK : K * V -> K * V -> Prop) (ltK : K -> K -> Prop) (l : list (K * V)) :
  (forall a b, leK a b -> a.1 ≠ b.1 -> ltK a.1 b.1) -> NoDup l.*1 -> StronglySorted leK l -> StronglySorted (fun a b => ltK a.1 b.1) l.
Proof.
  intros Hlt Hnd Hs. induction Hs as [|a l Hs IH Ha]; [constructor|]. cbn in Hnd. apply NoDup_cons in Hnd as [Hn Hnd].
  constructor; [by apply IH|]. rewrite Forall_forall in Ha |- *. intros b Hb. apply Hlt; [by apply Ha|].
  intros He. apply Hn. rewrite He. by apply list_elem_of_fmap_2.
Qed.

Lemma prefixEntries_sorted p m : StronglySorted (fun a b : bytes * bytes => strLt a.1 b.1) (prefixEntries p m).
Proof.
  apply (sorted_keys_strict keyLe).
  - intros a b Hle Hne. by apply strLe_ne_lt.
  - unfold prefixEntries, sortKeys. rewrite merge_sort_Permutation. apply NoDup_fmap_fst.
    + intros k v v' [_ Hv%elem_of_map_to_list]%list_elem_of_filter [_ Hv'%elem_of_map_to_list]%list_elem_of_filter. congruence.
    + apply NoDup_filter, NoDup_map_to_list.
  - unfold prefixEntries, sortKeys. apply StronglySorted_merge_sort; [|intros a b; apply String.leb_total].
    intros a b c. apply strLe_trans.
Qed.

Lemma elem_of_prefixEntries p m k v : (k, v) ∈ prefixEntries p m <-> m !! k = Some v /\ hasPrefix p k.
Proof.
  unfold prefixEntries, sortKeys. rewrite merge_sort_Permutation, list_elem_of_filter, elem_of_map_to_list. naive_solver.
Qed.

(** Strictly sorted lists with the same elements are equal. *)
Lemma strict_unique {A} (lt : A -> A -> Prop) (l1 l2 : list A) :
  (forall a, ¬ lt a a) -> (forall a b, lt a b -> lt b a -> False) ->
  StronglySorted lt l1 -> StronglySorted lt l2 -> (forall x, x ∈ l1 <-> x ∈ l2) -> l1 = l2.
Proof.
  intros Hirr Hasym H1 H2 He. apply (StronglySorted_unique_strong lt); [|done..|].
  - intros x y _ _ Hxy Hyx. by destruct (Hasym x y).
  - assert (forall l, StronglySorted lt l -> NoDup l) as Hnd.
    { induction 1 as [|a l Hs IH Ha]; constructor; [|done]. rewrite Forall_forall in Ha. intros Hin. by apply (Hirr a), Ha. }
    apply NoDup_Permutation; auto.
Qed.

(** The entries of a prefix are the image of a sorted table under an encoding that keeps its
    order. *)
Lemma prefixEntries_table {K} (ltK : K -> K -> Prop) (enc : K -> bytes) (val : string -> bytes) p m (l : list (K * string)) :
  StronglySorted (fun a b => ltK a.1 b.1) l -> (forall a b, ltK a b -> strLt (enc a) (enc b)) ->
  (forall k v, m !! k = Some v /\ hasPrefix p k <-> exists a h, (a, h) ∈ l /\ k = enc a /\ v = val h) ->
  prefixEntries p m = (fun e => (enc e.1, val e.2)) <$> l.
Proof.
  intros Hs Hmono Hel. apply (strict_unique (fun a b : bytes * bytes => strLt a.1 b.1)).
  - intros a. apply strLt_irrefl.
  - intros a b H1 H2. by apply (strLt_asym a.1 b.1).
  - apply prefixEntries_sorted.
  - clear Hel. induction Hs as [|a l Hs IH Ha]; cbn; constructor; [done|]. apply Forall_fmap. eapply Forall_impl; [exact Ha|].
    intros b Hab. by apply Hmono.
  - intros [k v]. rewrite elem_of_prefixEntries, Hel, list_elem_of_fmap. split.
    + intros (a & h & Hin & -> & ->). by exists (a, h).
    + intros ([a h] & [= -> ->] & Hin). by exists a, h.
Qed.

(** ** Keys *)
Inductive Key :=
| KHash (hash : string)
| KHeight (height index : Z)
| KSender (address : string) (height index : Z)
| KRecipient (address : string) (height index : Z).
#[global] Instance Key_eq_dec : EqDecision Key. Proof. solve_decision. Defined.

Section facts.
Context {CP : CryptoPrims} {B : Badger} {BL : BadgerLaws B} {L : Lexnum} {LL : LexnumLaws L} {C : IdxTxCodec} {CL : IdxTxCodecLaws C}.

Definition hk (hash : string) : bytes := key hashPrefix hash.

Definition encKey (k : Key) : bytes :=
  match k with
  | KHash hash => hk hash
  | KHeight h i => heightAndIndexKey h i
  | KSender a h i => senderHeightAndBlockIndexKey a h i
  | KRecipient a h i => recipientHeightAndBlockIndexKey a h i
  end.

(** Addresses are hex strings; all that is needed is that they hold no separator. *)
Definition wfKey (k : Key) : bool :=
  match k with KSender a _ _ | KRecipient a _ _ => noSlash a | _ => true end.

Definition encPos (q : Z * Z) : string := EncodeInt q.1 +:+ ("/" +:+ EncodeInt q.2).

Lemma encode_inj i j : EncodeInt i = EncodeInt j -> i = j.
Proof. intros He. apply encode_prefix_free. rewrite He. apply hasPrefix_refl. Qed.

Lemma encPos_inj p q : encPos p = encPos q -> p = q.
Proof.
  destruct p, q. unfold encPos. intros He. apply slash_split in He as [H1%encode_inj H2%encode_inj]; [|apply encode_no_slash..]. cbn in *. by subst.
Qed.

Lemma encPos_lt p q : posLt p q -> strLt (encPos p) (encPos q).
Proof.
  destruct p as [h i], q as [h' i']. unfold posLt, encPos. cbn. intros [Hl|[-> Hl]].
  - apply strLt_app_r; [by apply encode_lt|]. intros Hp%encode_prefix_free. lia.
  - apply strLt_app_l, strLt_app_l. by apply encode_lt.
Qed.

Lemma height_key_eq h i : heightAndIndexKey h i = "b/" +:+ encPos (h, i).
Proof. unfold heightAndIndexKey, heightKey, key, encPos. rewrite !app_string_assoc. done. Qed.
Lemma sender_key_eq a h i : senderHeightAndBlockIndexKey a h i = "s/" +:+ (a +:+ ("/" +:+ encPos (h, i))).
Proof. unfold senderHeightAndBlockIndexKey, senderKey, key, encPos. rewrite !app_string_assoc. done. Qed.
Lemma recipient_key_eq a h i : recipientHeightAndBlockIndexKey a h i = "r/" +:+ (a +:+ ("/" +:+ encPos (h, i))).
Proof. unfold recipientHeightAndBlockIndexKey, recipientKey, key, encPos. rewrite !app_string_assoc. done. Qed.

Lemma encKey_inj k k' : wfKey k = true -> wfKey k' = true -> encKey k = encKey k' -> k = k'.
Proof.
  intros Hw Hw' He. destruct k as [x|h i|a h i|a h i], k' as [x'|h' i'|a' h' i'|a' h' i']; cbn [encKey wfKey] in *; unfold hk, key in *;
    rewrite ?height_key_eq, ?sender_key_eq, ?recipient_key_eq in He; cbn in He; try discriminate; injection He as He.
  - change (x = x') in He. by subst.
  - apply encPos_inj in He. congruence.
  - apply slash_split in He as [-> He%encPos_inj]; [|done..]. congruence.
  - apply slash_split in He as [-> He%encPos_inj]; [|done..]. congruence.
Qed.

Lemma encKey_nonempty k : encKey k ≠ "".
Proof. by destruct k. Qed.

(** ** What is stored *)
Definition absLookup (x : TxIndex) (k : Key) : option bytes :=
  match k with
  | KHash hash => txByHash (byHashHeight x) !! hash ≫= fun t => match IdxTx_Bytes t with inl b => Some b | inr _ => None end
  | KHeight h i => hk <$> txByHeight (byHashHeight x) !! (h, i)
  | KSender a h i => hk <$> bySender x !! (a, (h, i))
  | KRecipient a h i => hk <$> byRecipient x !! (a, (h, i))
  end.

(** The database holds the table [f]. *)
Definition Holds (db : BDB) (f : Key -> option bytes) : Prop :=
  opened db /\ (forall k, wfKey k = true -> content db !! encKey k = f k) /\
  (forall s, is_Some (content db !! s) -> exists k, wfKey k = true /\ s = encKey k).

Definition update (k0 : Key) (v : bytes) (f : Key -> option bytes) (k : Key) : option bytes :=
  if bool_decide (k = k0) then Some v else f k.

Lemma set_holds db f k v :
  Holds db f -> wfKey k = true -> storable (encKey k) v ->
  exists db', KVStore.Set_ (encKey k) v db = (Ok tt, db') /\ Holds db' (update k v f).
Proof.
  intros (Ho & Hf & Hk) Hw Hs. unfold KVStore.Set_. destruct (set_law db _ _ Ho Hs) as (db' & -> & Ho' & Hc).
  exists db'. split; [done|]. split; [done|]. rewrite Hc. split.
  - intros k' Hw'. unfold update. case_bool_decide as He; [subst; by rewrite lookup_insert_eq|].
    rewrite lookup_insert_ne; [by apply Hf|]. intros E. apply He. symmetry. by apply encKey_inj.
  - intros s. rewrite lookup_insert_is_Some. intros [<-|[_ Hs']]; [by exists k|]. by apply Hk.
Qed.

Lemma holds_ext db f g : Holds db f -> (forall k, wfKey k = true -> f k = g k) -> Holds db g.
Proof. intros (Ho & Hf & Hk) He. split; [done|]. split; [|done]. intros k Hw. rewrite <- He by done. by apply Hf. Qed.

(** An index whose entries can be read back. *)
Definition goodIndex (x : TxIndex) : Prop :=
  (forall hash t, txByHash (byHashHeight x) !! hash = Some t -> exists b, IdxTx_Bytes t = inl b) /\
  (forall p hash, txByHeight (byHashHeight x) !! p = Some hash -> is_Some (txByHash (byHashHeight x) !! hash)) /\
  (forall p hash, bySender x !! p = Some hash -> is_Some (txByHash (byHashHeight x) !! hash)) /\
  (forall p hash, byRecipient x !! p = Some hash -> is_Some (txByHash (byHashHeight x) !! hash)).

Definition Represents (db : BDB) (x : TxIndex) : Prop := Holds db (absLookup x) /\ goodIndex x.

(** A transaction that can be encoded, whose keys badger accepts and whose addresses hold no
    separator. *)
Definition Indexable (t : IndexedTransaction) : Prop :=
  exists b, IdxTx_Bytes t = inl b /\ noSlash (idx_SignerAddr t) = true /\ noSlash (idx_RecipientAddr t) = true /\
    storable (hk (txHash t)) b /\ storable (heightAndIndexKey (idx_Height t) (idx_Index t)) (hk (txHash t)) /\
    storable (senderHeightAndBlockIndexKey (idx_SignerAddr t) (idx_Height t) (idx_Index t)) (hk (txHash t)) /\
    storable (recipientHeightAndBlockIndexKey (idx_RecipientAddr t) (idx_Height t) (idx_Index t)) (hk (txHash t)).

Definition updateAddr (ctor : string -> Z -> Z -> Key) (a : string) (t : IndexedTransaction) (f : Key -> option bytes) : Key -> option bytes :=
  if bool_decide (a = "") then f else update (ctor a (idx_Height t) (idx_Index t)) (hk (txHash t)) f.

Lemma absLookup_index t b x k :
  IdxTx_Bytes t = inl b ->
  updateAddr KRecipient (idx_RecipientAddr t) t (updateAddr KSender (idx_SignerAddr t) t
    (update (KHeight (idx_Height t) (idx_Index t)) (hk (txHash t)) (update (KHash (txHash t)) b (absLookup x)))) k
  = absLookup (index t x) k.
Proof.
  intros Hb. unfold updateAddr, update, absLookup, index, indexAddr, pos. destruct k as [hash|h i|a h i|a h i]; cbn [byHashHeight txByHash txByHeight bySender byRecipient].
  - destruct (decide (hash = txHash t)) as [->|Hne]; repeat case_bool_decide; simplify_eq; rewrite ?lookup_insert_eq, ?lookup_insert_ne by done; cbn; by rewrite ?Hb.
  - destruct (decide ((h, i) = (idx_Height t, idx_Index t))) as [[= -> ->]|Hne]; repeat case_bool_decide; simplify_eq; rewrite ?lookup_insert_eq, ?lookup_insert_ne by done; done.
  - destruct (decide ((a, (h, i)) = (idx_SignerAddr t, (idx_Height t, idx_Index t)))) as [[= -> -> ->]|Hne]; repeat case_bool_decide; simplify_eq; rewrite ?lookup_insert_eq, ?lookup_insert_ne by done; done.
  - destruct (decide ((a, (h, i)) = (idx_RecipientAddr t, (idx_Height t, idx_Index t)))) as [[= -> -> ->]|Hne]; repeat case_bool_decide; simplify_eq; rewrite ?lookup_insert_eq, ?lookup_insert_ne by done; done.
Qed.

Lemma good_index t b x : IdxTx_Bytes t = inl b -> goodIndex x -> goodIndex (index t x).
Proof.
  intros Hb (Hm & Hh & Hs & Hr). unfold goodIndex, index, indexAddr. cbn [byHashHeight txByHash txByHeight bySender byRecipient].
  assert (forall hash, is_Some (txByHash (byHashHeight x) !! hash) -> is_Some (<[txHash t := t]> (txByHash (byHashHeight x)) !! hash)) as Hi.
  { intros hash Hx. apply lookup_insert_is_Some'. by right. }
  assert (is_Some (<[txHash t := t]> (txByHash (byHashHeight x)) !! txHash t)) as Ht by (rewrite lookup_insert_eq; by eexists).
  assert (forall (a : string) (m : AddrIndex), (forall p hash, m !! p = Some hash -> is_Some (txByHash (byHashHeight x) !! hash)) ->
    forall p hash, (if bool_decide (a = "") then m else <[(a, pos t) := txHash t]> m) !! p = Some hash ->
    is_Some (<[txHash t := t]> (txByHash (byHashHeight x)) !! hash)) as Ha.
  { intros a m Hm0 p hash. case_bool_decide; [eauto|]. intros [[_ <-]|[_ Hl]]%lookup_insert_Some; eauto. }
  split; [|split; [|split; apply Ha; done]].
  - intros hash t' [[_ <-]|[_ Hl]]%lookup_insert_Some; [by exists b|by eapply Hm].
  - intros p hash [[_ <-]|[_ Hl]]%lookup_insert_Some; eauto.
Qed.

Lemma set_addr_holds ctor a t db f :
  (forall h i, wfKey (ctor a h i) = true) -> Holds db f ->
  storable (encKey (ctor a (idx_Height t) (idx_Index t))) (hk (txHash t)) ->
  exists db', (if bool_decide (a = "") then mret tt else KVStore.Set_ (encKey (ctor a (idx_Height t) (idx_Index t))) (hk (txHash t))) db = (Ok tt, db')
    /\ Holds db' (updateAddr ctor a t f).
Proof. intros Hw Hh Hst. unfold updateAddr. case_bool_decide; [by exists db|]. by apply set_holds. Qed.

(** Indexing a transaction adds it to the index. *)
Lemma index_step db x t :
  Represents db x -> Indexable t -> exists db', Index t db = (Ok tt, db') /\ Represents db' (index t x).
Proof.
  intros [Hh Hg] (b & Hb & Hns & Hnr & Hst1 & Hst2 & Hst3 & Hst4). unfold Index. rewrite Hb.
  destruct (set_holds db _ (KHash (txHash t)) b Hh eq_refl Hst1) as (db1 & H1 & Hh1).
  destruct (set_holds db1 _ (KHeight (idx_Height t) (idx_Index t)) (hk (txHash t)) Hh1 eq_refl Hst2) as (db2 & H2 & Hh2).
  destruct (set_addr_holds KSender (idx_SignerAddr t) t db2 _ (fun _ _ => Hns) Hh2 Hst3) as (db3 & H3 & Hh3).
  destruct (set_addr_holds KRecipient (idx_RecipientAddr t) t db3 _ (fun _ _ => Hnr) Hh3 Hst4) as (db4 & H4 & Hh4).
  exists db4. split.
  - erewrite bind_run; [|unfold indexByHash; erewrite bind_run; [reflexivity|exact H1]].
    erewrite bind_run; [|exact H2]. erewrite bind_run; [|exact H3]. exact H4.
  - split; [|by eapply good_index]. eapply holds_ext; [exact Hh4|]. intros k _. by apply absLookup_index.
Qed.

(** ** Queries *)
Lemma get_hash db x hash :
  Represents db x -> get db (hk hash) = match txByHash (byHashHeight x) !! hash with Some t => inl t | None => inr KeyNotFoundError end.
Proof.
  intros [(Ho & Hf & _) (Hm & _)]. unfold get. pose proof (get_content db (hk hash) Ho ltac:(done)) as Hg.
  pose proof (Hf (KHash hash) eq_refl) as Hh. cbn [encKey] in Hh. rewrite Hh in Hg. cbn [absLookup] in Hg.
  destruct (txByHash (byHashHeight x) !! hash) as [t|] eqn:Ht; cbn in Hg.
  - destruct (Hm hash t Ht) as [b Hb]. rewrite Hb in Hg. destruct (KVStore.Get db (hk hash)) as [s|e]; [|naive_solver].
    injection Hg as Hs. rewrite <- Hs. by apply idx_roundtrip.
  - destruct (KVStore.Get db (hk hash)); [done|]. naive_solver.
Qed.

Lemma getEach_hashes db x hashes :
  Represents db x -> Forall (fun h => is_Some (txByHash (byHashHeight x) !! h)) hashes ->
  getEach db (hk <$> hashes) = inl (omap (fun h => txByHash (byHashHeight x) !! h) hashes).
Proof.
  intros Hr Hall. induction Hall as [|h hs [t Ht] Hall IH]; [done|]. cbn. rewrite (get_hash db x h Hr), Ht. fold (fmap hk hs). by rewrite IH.
Qed.

Lemma omap_reverse {X Y} (f : X -> option Y) l : omap f (reverse l) = reverse (omap f l).
Proof.
  induction l as [|a l IH]; [done|]. rewrite reverse_cons, omap_app, IH. change (omap f (a :: l)) with (match f a with Some y => y :: omap f l | None => omap f l end).
  cbn. destruct (f a); [by rewrite reverse_cons|by rewrite app_nil_r].
Qed.

Lemma directed_fmap {X Y} (f : X -> Y) d l : directed d (f <$> l) = f <$> directed d l.
Proof. destruct d; [|done]. cbn. by rewrite fmap_reverse. Qed.
Lemma directed_omap {X Y} (f : X -> option Y) d l : directed d (omap f l) = omap f (directed d l).
Proof. destruct d; [|done]. cbn. by rewrite omap_reverse. Qed.

(** A query by a prefix whose entries are a table of positions. *)
Lemma getAll_table {K} (ltK : K -> K -> Prop) (enc : K -> bytes) q (l : list (K * string)) db x d :
  Represents db x -> content db !! (q +:+ "0") = None ->
  StronglySorted (fun a b => ltK a.1 b.1) l -> (forall a b, ltK a b -> strLt (enc a) (enc b)) ->
  (forall k v, content db !! k = Some v /\ hasPrefix (q +:+ "/") k <-> exists a h, (a, h) ∈ l /\ k = enc a /\ v = hk h) ->
  (forall a h, (a, h) ∈ l -> is_Some (txByHash (byHashHeight x) !! h)) ->
  getAll db (q +:+ "/") d = inl (directed d (omap (fun e => txByHash (byHashHeight x) !! e.2) l)).
Proof.
  intros Hr Hend Hs Hmono Hel Hdang. pose proof Hr as [(Ho & _) _]. unfold getAll.
  rewrite (getAll_spec db (q +:+ "/") d Ho) by (intros _; exists (q +:+ "0"); by rewrite prefixEnd_slash).
  rewrite (prefixEntries_table ltK enc hk (q +:+ "/") (content db) l Hs Hmono Hel), directed_fmap, <- list_fmap_compose.
  replace (compose snd (fun e : K * string => (enc e.1, hk e.2)) <$> directed d l) with (hk <$> (snd <$> directed d l)) by (by rewrite <- list_fmap_compose).
  rewrite (getEach_hashes db x); [|done|].
  - f_equal. rewrite directed_omap. clear. induction (directed d l) as [|[a h] l' IH]; [done|]. cbn. destruct (_ !! h); cbn; f_equal; exact IH.
  - apply Forall_fmap, Forall_forall. intros [a h] Hin. apply (Hdang a). destruct d; [by apply elem_of_reverse|done].
Qed.

Lemma elem_of_atAddr (a : string) (m : AddrIndex) p h : (p, h) ∈ atAddr a m <-> m !! (a, p) = Some h.
Proof.
  unfold atAddr. rewrite merge_sort_Permutation, list_elem_of_fmap. split.
  - intros ([[a' p'] h'] & [= -> ->] & [Ha Hin%elem_of_map_to_list]%list_elem_of_filter). cbn in *. by subst.
  - intros Hl. exists ((a, p), h). split; [done|]. apply list_elem_of_filter. split; [done|]. by apply elem_of_map_to_list.
Qed.

Lemma atAddr_sorted (a : string) (m : AddrIndex) : StronglySorted (fun x y => posLt x.1 y.1) (atAddr a m).
Proof.
  apply (sorted_keys_strict posLe).
  - intros [[h i] x] [[h' i'] y]. unfold posLe, posLt. cbn. intros Hle Hne. destruct (decide (h = h')) as [->|]; [|lia].
    assert (i ≠ i') by congruence. lia.
  - apply NoDup_fmap_fst; [intros p v v' H1%elem_of_atAddr H2%elem_of_atAddr; congruence|].
    unfold atAddr. rewrite merge_sort_Permutation. apply NoDup_fmap_2_strong; [|apply NoDup_filter, NoDup_map_to_list].
    intros [[a1 p1] h1] [[a2 p2] h2] [H1 _]%list_elem_of_filter [H2 _]%list_elem_of_filter [= -> ->]. cbn in *. by subst.
  - unfold atAddr. apply StronglySorted_merge_sort.
    + intros [[] ?] [[] ?] [[] ?]. unfold posLe, posLt. cbn. lia.
    + intros [[] ?] [[] ?]. unfold posLe, posLt. cbn. lia.
Qed.

Lemma elem_of_atHeight h (t : TxIndexer) i x : (i, x) ∈ atHeight h t <-> txByHeight t !! (h, i) = Some x.
Proof.
  unfold atHeight, hashesAtHeight. rewrite merge_sort_Permutation, list_elem_of_fmap. split.
  - intros ([[a' p'] h'] & [= -> ->] & [Ha Hin%elem_of_map_to_list]%list_elem_of_filter). cbn in *. by subst.
  - intros Hl. exists ((h, i), x). split; [done|]. apply list_elem_of_filter. split; [done|]. by apply elem_of_map_to_list.
Qed.

Lemma atHeight_sorted h (t : TxIndexer) : StronglySorted (fun x y => x.1 < y.1) (atHeight h t).
Proof.
  apply (sorted_keys_strict idxLe).
  - intros [i x] [j y]. unfold idxLe. cbn. lia.
  - apply NoDup_fmap_fst; [intros p v v' H1%elem_of_atHeight H2%elem_of_atHeight; congruence|].
    unfold atHeight, hashesAtHeight. rewrite merge_sort_Permutation. apply NoDup_fmap_2_strong; [|apply NoDup_filter, NoDup_map_to_list].
    intros [[a1 p1] h1] [[a2 p2] h2] [H1 _]%list_elem_of_filter [H2 _]%list_elem_of_filter [= -> ->]. cbn in *. by subst.
  - unfold atHeight. apply StronglySorted_merge_sort; intros ? ?; unfold idxLe; [intros ?|]; lia.
Qed.

(** The transactions of an address: the prefix [c], [a] and a separator. *)
Lemma getAll_addr (ctor : string -> Z -> Z -> Key) (c a : string) (m : AddrIndex) db x d :
  (forall a' h i, encKey (ctor a' h i) = c +:+ (a' +:+ ("/" +:+ encPos (h, i)))) ->
  (forall k r, wfKey k = true -> encKey k = c +:+ r -> exists a' h i, k = ctor a' h i) ->
  (forall a' h i, wfKey (ctor a' h i) = noSlash a') ->
  (forall h i, absLookup x (ctor a h i) = hk <$> m !! (a, (h, i))) ->
  (forall p hash, m !! p = Some hash -> is_Some (txByHash (byHashHeight x) !! hash)) ->
  noSlash a = true -> Represents db x ->
  getAll db ((c +:+ a) +:+ "/") d = inl (directed d (ofAddr a m x)).
Proof.
  intros Henc Hctor Hwf Habs Hdang Ha Hr. pose proof Hr as [(Ho & Hf & Hk) _].
  apply (getAll_table posLt (fun q => encKey (ctor a q.1 q.2))).
  - done.
  - destruct (content db !! _) eqn:He; [|done]. destruct (Hk _ ltac:(by eexists)) as (k & Hw & Hkey). rewrite app_string_assoc in Hkey.
    destruct (Hctor k _ Hw ltac:(by rewrite <- Hkey)) as (a' & h & i & ->). rewrite Henc in Hkey. apply app_string_inj in Hkey.
    pose proof (noSlash_app_l a "0" Ha eq_refl) as Hn. rewrite Hkey, noSlash_app in Hn. done.
  - apply atAddr_sorted.
  - intros q q' Hlt. rewrite !Henc. do 3 apply strLt_app_l. destruct q, q'. by apply encPos_lt.
  - intros k v. split.
    + intros [Hl Hp]. destruct (Hk k ltac:(by eexists)) as (k' & Hw & ->). pose proof Hp as [r Hr']%hasPrefix_inv. rewrite !app_string_assoc in Hr'.
      destruct (Hctor k' _ Hw Hr') as (a' & h & i & ->). rewrite Hwf in Hw. rewrite Henc in Hr'. apply app_string_inj, slash_split in Hr' as [-> _]; [|done..].
      rewrite (Hf _ ltac:(by rewrite Hwf)), Habs in Hl. apply fmap_Some in Hl as (hash & Hl & ->).
      exists (h, i), hash. by rewrite elem_of_atAddr.
    + intros ([h i] & hash & Hin%elem_of_atAddr & -> & ->). cbn [fst snd]. split; [by rewrite (Hf _ ltac:(by rewrite Hwf)), Habs, Hin|].
      rewrite Henc. replace (c +:+ (a +:+ ("/" +:+ encPos (h, i)))) with (((c +:+ a) +:+ "/") +:+ encPos (h, i)) by (by rewrite !app_string_assoc). apply hasPrefix_app.
  - intros q hash Hin%elem_of_atAddr. by eapply Hdang.
Qed.

Lemma getAll_height h db x d : Represents db x -> GetByHeight db h d = inl (directed d (ofHeight h x)).
Proof.
  intros Hr. pose proof Hr as [(Ho & Hf & Hk) (_ & Hdang & _)]. unfold GetByHeight. change (heightKey h) with ("b/" +:+ (EncodeInt h +:+ "/")). rewrite <- app_string_assoc.
  assert (forall k r, wfKey k = true -> encKey k = "b/" +:+ r -> exists h' i, k = KHeight h' i) as Hctor.
  { intros [|h' i| |] r Hw He; cbn [encKey] in He; rewrite ?sender_key_eq, ?recipient_key_eq in He; try discriminate. by exists h', i. }
  apply (getAll_table Z.lt (fun i => encKey (KHeight h i))).
  - done.
  - destruct (content db !! _) eqn:He; [|done]. destruct (Hk _ ltac:(by eexists)) as (k & Hw & Hkey). rewrite app_string_assoc in Hkey.
    destruct (Hctor k _ Hw ltac:(by rewrite <- Hkey)) as (h' & i & ->). cbn [encKey] in Hkey. rewrite height_key_eq in Hkey. apply app_string_inj in Hkey.
    pose proof (noSlash_app_l (EncodeInt h) "0" (encode_no_slash h) eq_refl) as Hn. rewrite Hkey in Hn. unfold encPos in Hn. by rewrite noSlash_app in Hn.
  - apply atHeight_sorted.
  - intros i j Hlt. cbn [encKey]. rewrite !height_key_eq. apply strLt_app_l, encPos_lt. by right.
  - intros k v. split.
    + intros [Hl Hp]. destruct (Hk k ltac:(by eexists)) as (k' & Hw & ->). pose proof Hp as [r Hr']%hasPrefix_inv. rewrite !app_string_assoc in Hr'.
      destruct (Hctor k' _ Hw Hr') as (h' & i & ->). cbn [encKey] in Hr'. rewrite height_key_eq in Hr'. apply app_string_inj, slash_split in Hr' as [He%encode_inj _]; [|apply encode_no_slash..].
      cbn in He. subst h'. rewrite (Hf _ Hw) in Hl. apply fmap_Some in Hl as (hash & Hl & ->). exists i, hash. by rewrite elem_of_atHeight.
    + intros (i & hash & Hin%elem_of_atHeight & -> & ->). split; [rewrite (Hf (KHeight h i) eq_refl); cbn [absLookup]; by rewrite Hin|].
      cbn [encKey]. rewrite height_key_eq. replace ("b/" +:+ encPos (h, i)) with ((("b/" +:+ EncodeInt h) +:+ "/") +:+ EncodeInt i) by (unfold encPos; by rewrite !app_string_assoc). apply hasPrefix_app.
  - intros i hash Hin%elem_of_atHeight. by eapply Hdang.
Qed.

Lemma getAll_sender a db x d : noSlash a = true -> Represents db x -> GetBySender db a d = inl (directed d (ofAddr a (bySender x) x)).
Proof.
  intros Ha Hr. pose proof Hr as [_ (_ & _ & Hs & _)]. apply (getAll_addr KSender "s/"); try done; [apply sender_key_eq|].
  intros [|h' i|a' h' i|] r Hw He; cbn [encKey] in He; rewrite ?height_key_eq, ?recipient_key_eq in He; try discriminate. by exists a', h', i.
Qed.

Lemma getAll_recipient a db x d : noSlash a = true -> Represents db x -> GetByRecipient db a d = inl (directed d (ofAddr a (byRecipient x) x)).
Proof.
  intros Ha Hr. pose proof Hr as [_ (_ & _ & _ & Hs)]. apply (getAll_addr KRecipient "r/"); try done; [apply recipient_key_eq|].
  intros [|h' i| |a' h' i] r Hw He; cbn [encKey] in He; rewrite ?height_key_eq, ?sender_key_eq in He; try discriminate. by exists a', h', i.
Qed.

(** The index of the persistence context answers a height with the same transactions. *)
Lemma persistence_height x h : goodIndex x -> Persistence.GetByHeight (byHashHeight x) h = Ok (ofHeight h x).
Proof.
  intros (_ & Hdang & _). unfold Persistence.GetByHeight, ofHeight. fold (atHeight h (byHashHeight x)).
  assert (forall i hash, (i, hash) ∈ atHeight h (byHashHeight x) -> is_Some (txByHash (byHashHeight x) !! hash)) as Hall
    by (intros i hash Hin%elem_of_atHeight; by eapply Hdang).
  revert Hall. induction (atHeight h (byHashHeight x)) as [|[i hash] l IH]; intros Hall; [done|]. cbn.
  destruct (Hall i hash ltac:(left)) as [t ->]. cbn. specialize (IH ltac:(intros i' hash' ?; apply (Hall i'); by right)).
  destruct (mapM _ l); [|done]. cbn. by injection IH as ->.
Qed.

Lemma empty_represented : exists db, NewMemTxIndexer = Ok {| idb := db |} /\ Represents db emptyIndex.
Proof.
  destruct open_mem_law as (db & Hdb & Hc). exists db. unfold NewMemTxIndexer, KVStore.NewMemKVStore. rewrite Hdb. split; [done|].
  split; [|split_and!; intros ? ? Hl; cbn in Hl; by rewrite lookup_empty in Hl].
  split; [by eapply open_law|]. rewrite Hc. split; [by intros [] _|]. intros s. rewrite lookup_empty. by intros [? ?].
Qed.

Lemma index_all txs db x :
  Forall Indexable txs -> Represents db x ->
  exists db', forM txs Index db = (Ok tt, db') /\ Represents db' (foldl (fun x t => index t x) x txs).
Proof.
  intros Hall. revert db x. induction Hall as [|t txs Ht Hall IH]; intros db x Hr; [by exists db|].
  destruct (index_step db x t Hr Ht) as (db1 & H1 & Hr1). destruct (IH db1 _ Hr1) as (db2 & H2 & Hr2).
  exists db2. split; [|done]. cbn. by erewrite bind_run.
Qed.

(** C8: Whatever transactions are indexed in a new store, every query answers with exactly the
    indexed transactions it asks for (the last one stored under a hash or a position), ordered
    by height and index or in the reverse order, and the index that the persistence context
    keeps gives the same answers. *)
Theorem indexer_refines_index (txs : list IndexedTransaction) :
  Forall Indexable txs ->
  exists db0 db, NewMemTxIndexer = Ok {| idb := db0 |} /\ forM txs Index db0 = (Ok tt, db) /\
    let x := foldl (fun x t => index t x) emptyIndex txs in
    (forall hash, GetByHash db hash = match txByHash (byHashHeight x) !! hexEncode hash with Some t => inl t | None => inr KeyNotFoundError end) /\
    (forall h d, GetByHeight db h d = inl (directed d (ofHeight h x))) /\
    (forall h, Persistence.GetByHeight (byHashHeight x) h = Ok (ofHeight h x)) /\
    (forall a d, noSlash a = true -> GetBySender db a d = inl (directed d (ofAddr a (bySender x) x))) /\
    (forall a d, noSlash a = true -> GetByRecipient db a d = inl (directed d (ofAddr a (byRecipient x) x))).
Proof.
  intros Hall. destruct empty_represented as (db0 & H0 & Hr0). destruct (index_all txs db0 _ Hall Hr0) as (db & Hrun & Hr).
  exists db0, db. split; [done|]. split; [done|]. cbv zeta. repeat split; intros *.
  - by apply get_hash.
  - by apply getAll_height.
  - apply persistence_height, Hr.
  - intros Ha. by apply getAll_sender.
  - intros Ha. by apply getAll_recipient.
Qed.
End facts.
End IndexerFacts.

(** ** A concrete index *)
Module ToyIndexer.
Import KvFacts Indexer IndexSpec IndexerFacts.

(** Numbers in unary, with the signs of lexnum. *)
Fixpoint rep (c : string) (n : nat) : string := match n with O => "" | S n' => c +:+ rep c n' end.
#[export] Instance lexnum : Lexnum := {|
  EncodeInt z := if z <? 0 then "-" +:+ (rep "0" (Z.to_nat (- z)) +:+ "1") else "=" +:+ (rep "1" (Z.to_nat z) +:+ "0") |}.

Lemma rep_lt_pos n m : (n < m)%nat -> strLt (rep "1" n +:+ "0") (rep "1" m +:+ "0").
Proof.
  revert m. induction n as [|n IH]; intros [|m] Hl; try lia; [by apply strLt_cons; left|]. apply strLt_cons. right. split; [done|]. apply IH. lia.
Qed.
Lemma rep_lt_neg n m : (n < m)%nat -> strLt (rep "0" m +:+ "1") (rep "0" n +:+ "1").
Proof.
  revert m. induction n as [|n IH]; intros [|m] Hl; try lia; [by apply strLt_cons; left|]. apply strLt_cons. right. split; [done|]. apply IH. lia.
Qed.
Lemma rep_prefix_pos n m : hasPrefix (rep "1" n +:+ "0") (rep "1" m +:+ "0") -> n = m.
Proof. revert m. induction n as [|n IH]; intros [|m] Hp; try done. apply hasPrefix_cons in Hp as [_ Hp]. f_equal. by apply IH. Qed.
Lemma rep_prefix_neg n m : hasPrefix (rep "0" n +:+ "1") (rep "0" m +:+ "1") -> n = m.
Proof. revert m. induction n as [|n IH]; intros [|m] Hp; try done. apply hasPrefix_cons in Hp as [_ Hp]. f_equal. by apply IH. Qed.
Lemma rep_noSlash c n d : noSlash c = true -> noSlash d = true -> noSlash (rep c n +:+ d) = true.
Proof. intros Hc Hd. apply noSlash_app_l; [|done]. induction n as [|n IH]; [done|]. by apply noSlash_app_l. Qed.

#[export] Instance lexnumLaws : LexnumLaws lexnum.
Proof.
  split; cbn [EncodeInt lexnum].
  - intros i j Hl. destruct (Z.ltb_spec i 0), (Z.ltb_spec j 0); try lia; apply strLt_cons; [right|by left|right]; (split; [done|]).
    + apply rep_lt_neg. lia.
    + apply rep_lt_pos. lia.
  - intros i j Hp. destruct (Z.ltb_spec i 0), (Z.ltb_spec j 0); apply hasPrefix_cons in Hp as [Hc Hp]; try done.
    + apply rep_prefix_neg in Hp. lia.
    + apply rep_prefix_pos in Hp. lia.
  - intros i. destruct (i <? 0); apply noSlash_app_l; try done; by apply rep_noSlash.
Qed.

(** Two transactions of one signer, and a codec for them. *)
Definition tx1 : IndexedTransaction := {| idx_Tx := "one"; idx_Height := 2; idx_Index := 0; idx_ResultCode := 0; idx_Error := "";
  idx_SignerAddr := "aa"; idx_RecipientAddr := "bb"; idx_MessageType := "MessageSend" |}.
Definition tx2 : IndexedTransaction := {| idx_Tx := "two"; idx_Height := 1; idx_Index := 3; idx_ResultCode := 0; idx_Error := "";
  idx_SignerAddr := "aa"; idx_RecipientAddr := ""; idx_MessageType := "MessageStake" |}.

#[local] Instance idx_eq_dec : EqDecision IndexedTransaction. Proof. solve_decision. Defined.
#[export] Instance codec : IdxTxCodec := {|
  IdxTx_Bytes t := if bool_decide (t = tx1) then inl "1" else if bool_decide (t = tx2) then inl "2" else inr "too large";
  IdxTx_FromBytes b := if bool_decide (b = "1") then inl tx1 else if bool_decide (b = "2") then inl tx2 else inr "unexpected EOF" |}.
#[export] Instance codecLaws : IdxTxCodecLaws codec.
Proof. split. intros t b. cbn. repeat case_bool_decide; intros [= <-]; subst; done. Qed.

Lemma indexer_refines_index_witness :
  exists db, @forM (@BDB ToyBadger.badger) string _ [tx1; tx2] (@Index ToyCrypto.prims ToyBadger.badger lexnum codec) ∅ = (Ok tt, db) /\
    (@GetBySender ToyBadger.badger codec db "aa" false) = inl [tx2; tx1].
Proof.
  destruct (@indexer_refines_index ToyCrypto.prims ToyBadger.badger ToyBadger.badgerLaws lexnum lexnumLaws codec codecLaws [tx1; tx2]) as (db0 & db & H0 & Hrun & _ & _ & _ & Hs & _).
  - apply Forall_cons_2; [|apply Forall_cons_2; [|apply Forall_nil_2]].
    + exists "1". repeat split; done.
    + exists "2". repeat split; done.
  - injection H0 as <-. exists db. split; [exact Hrun|]. rewrite (Hs "aa" false eq_refl). vm_compute. reflexivity.
Defined.
End ToyIndexer.
