(* ===== verification/SqlQueries.v ===== *)
(** The queries the state trees are updated from (src/persistence/sql/sql.go): what a height
    changed.  They read the tables of [Sql] as a database transaction sees them, and the
    transaction index.

    [rows.Scan] reads the boolean column [enabled] of a flag into a string; whether the driver
    accepts that, and the text it produces, is the driver's, so it is an operation of a class. *)

From S2P Require Import Prelude GoStd Crypto CoreTypes Messages Sql Persistence.
#[local] Open Scope string_scope.
#[local] Open Scope Z_scope.

Class PgxScan := { scanBoolText : bool -> string + string }.

Record Param := { prm_Name : string; prm_Value : string; prm_Height : Z }.
Record Flag := { flg_Name : string; flg_Value : string; flg_Height : Z; flg_Enabled : string }.

Module SqlQueries.
Section queries.
Context `{PgxScan}.

Definition actorTypeToSchemaName (actorType : Z) : option ProtocolActorSchema :=
  if bool_decide (actorType = ACTOR_TYPE_APP) then Some ApplicationActor
  else if bool_decide (actorType = ACTOR_TYPE_VAL) then Some ValidatorActor
  else if bool_decide (actorType = ACTOR_TYPE_FISH) then Some FishermanActor
  else if bool_decide (actorType = ACTOR_TYPE_SERVICER) then Some ServicerActor
  else None.

Definition getActorFromRow (actorType : Z) (address : string) (row : Z * ActorRow) : Actor * Z :=
  ({| ActorType := actorType; Address := address; PublicKey := public_key row.2; Chains := None;
      ServiceUrl := specific row.2; StakedAmount := staked_tokens row.2; PausedHeight := paused_height row.2;
      UnstakingHeight := unstaking_height row.2; Output := output_address row.2 |}, row.1).

(** The rows carry the address of the [WHERE] clause. *)
Definition getChainsForActor (tx : DB) (actorSchema : ProtocolActorSchema) (actor : Actor) (height : Z) : res string Actor :=
  if bool_decide (chainsTableName actorSchema = "") then Ok actor
  else Ok (withChains actor (selectChains (chainTable tx actorSchema) (actorTable tx actorSchema) (Address actor) height)).

Definition getActor (tx : DB) (actorSchema : ProtocolActorSchema) (address : bytes) (height : Z) : res string Actor :=
  match selectLatest (actorTable tx actorSchema) (hexEncode address) height with
  | None => Err ErrNoRows
  | Some row =>
      let '(actor, height) := getActorFromRow (actorType actorSchema) (hexEncode address) row in
      getChainsForActor tx actorSchema actor height
  end.

(** The first loop decodes every address, the second reads every actor. *)
Fixpoint decodeAddrs (addrs : list string) : res string (list bytes) :=
  match addrs with
  | [] => Ok []
  | addr :: rest =>
      match hexDecode addr with
      | None => Err hexErrorText
      | Some addrBz => match decodeAddrs rest with Ok l => Ok (addrBz :: l) | e => e end
      end
  end.
Fixpoint readActors (tx : DB) (actorSchema : ProtocolActorSchema) (addrs : list bytes) (height : Z) : res string (list Actor) :=
  match addrs with
  | [] => Ok []
  | addr :: rest =>
      match getActor tx actorSchema addr height with
      | Ok actor => match readActors tx actorSchema rest height with Ok l => Ok (actor :: l) | e => e end
      | Err e => Err e
      | Panic => Panic
      end
  end.

Definition GetActors (pgtx : DB) (actorType : Z) (height : Z) : res string (list Actor) :=
  match actorTypeToSchemaName actorType with
  | None => Err ("no schema found for actor type: " +:+ ActorType_String actorType)
  | Some actorSchema =>
      match decodeAddrs (SelectAtHeight (actorTable pgtx actorSchema) (i64 height)).*1 with
      | Ok addrs => readActors pgtx actorSchema addrs (i64 height)
      | Err e => Err e
      | Panic => Panic
      end
  end.

Definition GetAccountsUpdated (pgtx : DB) (acctType : AccountSchema) (height : Z) : res string (list Account) :=
  Ok ((fun row => {| AccAddress := row.1; AccAmount := row.2 |}) <$> SelectAtHeight (accTable acctType pgtx) (i64 height)).

Definition GetTransactions (txi : TxIndexer) (height : Z) : res string (list IndexedTransaction) :=
  match GetByHeight txi (i64 height) with
  | Err e => Err ("failed to get transactions by height: " +:+ e)
  | r => r
  end.

Definition GetPools (pgtx : DB) (height : Z) : res string (list Account) :=
  match GetAccountsUpdated pgtx PoolS height with
  | Err e => Err ("failed to get pools: " +:+ e)
  | r => r
  end.

Definition GetAccounts (pgtx : DB) (height : Z) : res string (list Account) :=
  match GetAccountsUpdated pgtx AccountS height with
  | Err e => Err ("failed to get accounts: " +:+ e)
  | r => r
  end.

(** [WHERE height=%d] prints the unsigned height. *)
Fixpoint scanFlags (height : Z) (rows : list (string * ParamRow)) : res string (list Flag) :=
  match rows with
  | [] => Ok []
  | (name, row) :: rest =>
      match scanBoolText (enabled row) with
      | inr e => Err e
      | inl text =>
          match scanFlags height rest with
          | Ok l => Ok ({| flg_Name := name; flg_Value := param_value row; flg_Height := i64 height; flg_Enabled := text |} :: l)
          | e => e
          end
      end
  end.
Definition GetFlags (pgtx : DB) (height : Z) : res string (list Flag) :=
  scanFlags height (sortKeys (SelectAtHeight (flags pgtx) height)).

Definition GetParams (pgtx : DB) (height : Z) : res string (list Param) :=
  Ok ((fun row : string * ParamRow => {| prm_Name := row.1; prm_Value := param_value row.2; prm_Height := i64 height |})
      <$> sortKeys (SelectAtHeight (params pgtx) height)).
End queries.
End SqlQueries.
