(* ===== verification/Trees.v ===== *)
(** The state trees (src/persistence/trees/trees.go, module.go).

    Sparse Merkle trees are a third-party library over the key-value store: their operations are
    those of the class [SmtLib].  An operation of a tree reads and writes the node store the tree
    was created with, so it runs on both.  The trees of the state are kept in a Go map; the three
    loops over that map visit the trees in any order ([GoMapOrder]). *)

From S2P Require Import Prelude GoStd GoSort Crypto CoreTypes Messages Sql Persistence KvStore SqlQueries.
#[local] Open Scope string_scope.
#[local] Open Scope Z_scope.

Class SmtLib `{Badger} := {
  Smt : Type;
  NewSparseMerkleTree : BDB -> Smt;
  smtUpdate : bytes -> bytes -> M (Smt * BDB) string unit;
  smtCommit : M (Smt * BDB) string unit;
  smtRoot : Smt -> bytes;
}.

(** [codec.GetCodec().Marshal] at the messages the trees store. *)
Class TreeCodec := {
  marshalActor : Actor -> bytes + string;
  marshalAccount : Account -> bytes + string;
  marshalParam : Param -> bytes + string;
  marshalFlag : Flag -> bytes + string;
}.

Module Trees.
Definition RootTreeName : string := "root".
Definition AppTreeName : string := "app".
Definition ValTreeName : string := "val".
Definition FishTreeName : string := "fish".
Definition ServicerTreeName : string := "servicer".
Definition AccountTreeName : string := "account".
Definition PoolTreeName : string := "pool".
Definition TransactionsTreeName : string := "transactions".
Definition ParamsTreeName : string := "params".
Definition FlagsTreeName : string := "flags".

Definition actorTypeToMerkleTreeName (actorType : Z) : option string :=
  if bool_decide (actorType = ACTOR_TYPE_APP) then Some AppTreeName
  else if bool_decide (actorType = ACTOR_TYPE_VAL) then Some ValTreeName
  else if bool_decide (actorType = ACTOR_TYPE_FISH) then Some FishTreeName
  else if bool_decide (actorType = ACTOR_TYPE_SERVICER) then Some ServicerTreeName
  else None.

Definition merkleTreeNameToActorTypeName (name : string) : option Z :=
  if bool_decide (name = AppTreeName) then Some ACTOR_TYPE_APP
  else if bool_decide (name = ValTreeName) then Some ACTOR_TYPE_VAL
  else if bool_decide (name = FishTreeName) then Some ACTOR_TYPE_FISH
  else if bool_decide (name = ServicerTreeName) then Some ACTOR_TYPE_SERVICER
  else None.

Definition stateTreeNames : list string :=
  [AppTreeName; ValTreeName; FishTreeName; ServicerTreeName;
   AccountTreeName; PoolTreeName;
   TransactionsTreeName; ParamsTreeName; FlagsTreeName].

Section trees.
Context `{CryptoPrims} `{B : Badger} `{S : !SmtLib} `{PgxScan} `{TreeCodec} `{GoMapOrder}.

Record stateTree := { name : string; tree : Smt; nodeStore : BDB }.
Record treeStore := { treeStoreDir : string; rootTree : stateTree; merkleTrees : gmap string stateTree }.

Definition set_rootTree (r : stateTree) (t : treeStore) : treeStore :=
  {| treeStoreDir := treeStoreDir t; rootTree := r; merkleTrees := merkleTrees t |}.
Definition set_merkleTrees (m : gmap string stateTree) (t : treeStore) : treeStore :=
  {| treeStoreDir := treeStoreDir t; rootTree := rootTree t; merkleTrees := m |}.

Abbreviation TM := (M treeStore string).

(** *** Operations on one tree *)
Definition onSmt {A} (op : M (Smt * BDB) string A) : M stateTree string A := fun st =>
  let '(r, (t, db)) := op (tree st, nodeStore st) in (r, {| name := name st; tree := t; nodeStore := db |}).

(** [t.merkleTrees[name].tree]: a missing entry is a nil pointer. *)
Definition onTree {A} (treeName : string) (op : M stateTree string A) : TM A := fun t =>
  match merkleTrees t !! treeName with
  | None => (Panic, t)
  | Some st => let '(r, st') := op st in (r, set_merkleTrees (<[treeName := st']> (merkleTrees t)) t)
  end.
Definition onRoot {A} (op : M stateTree string A) : TM A := fun t =>
  let '(r, st') := op (rootTree t) in (r, set_rootTree st' t).

Definition treeUpdate (treeName : string) (key value : bytes) : TM unit := onTree treeName (onSmt (smtUpdate key value)).

(** *** Reading *)
Definition GetTree (t : treeStore) (treeName : string) : option (bytes * BDB) :=
  if bool_decide (treeName = RootTreeName) then Some (smtRoot (tree (rootTree t)), nodeStore (rootTree t))
  else (fun st => (smtRoot (tree st), nodeStore st)) <$> merkleTrees t !! treeName.

(** *** Updating *)
Definition fromSum {A} (r : A + string) : TM A := match r with inl a => mret a | inr e => fail e end.
Definition decodeString (s : string) : TM bytes := of_option hexErrorText (hexDecode s).

Definition updateActorTree (actorType : Z) (actor : Actor) : TM unit :=
  bzAddr ← decodeString (Address actor);
  actorBz ← fromSum (marshalActor actor);
  merkleTreeName ← of_option ("no merkle tree found for actor type: " +:+ ActorType_String actorType) (actorTypeToMerkleTreeName actorType);
  treeUpdate merkleTreeName bzAddr actorBz.
Definition updateActorsTree (actorType : Z) (actors : list Actor) : TM unit := forM actors (updateActorTree actorType).

Definition updateAccountTree (treeName : string) (account : Account) : TM unit :=
  bzAddr ← decodeString (AccAddress account);
  accBz ← fromSum (marshalAccount account);
  treeUpdate treeName bzAddr accBz.
Definition updateAccountTrees (accounts : list Account) : TM unit := forM accounts (updateAccountTree AccountTreeName).
Definition updatePoolTrees (pools : list Account) : TM unit := forM pools (updateAccountTree PoolTreeName).

Definition updateTransactionsTree (indexedTxs : list IndexedTransaction) : TM unit :=
  forM indexedTxs (fun idxTx =>
    let txBz := idx_Tx idxTx in
    treeUpdate TransactionsTreeName (SHA3Hash txBz) txBz).

Definition updateParamsTree (params : list Param) : TM unit :=
  forM params (fun param =>
    paramBz ← fromSum (marshalParam param);
    treeUpdate ParamsTreeName (SHA3Hash (prm_Name param)) paramBz).

Definition updateFlagsTree (flags : list Flag) : TM unit :=
  forM flags (fun flag =>
    flagBz ← fromSum (marshalFlag flag);
    treeUpdate FlagsTreeName (SHA3Hash (flg_Name flag)) flagBz).

Definition errorf (prefix : string) (e : string) : string := prefix +:+ e.

(** One iteration of the loop of [updateMerkleTrees]. *)
Definition updateMerkleTree (pgtx : DB) (txi : TxIndexer) (height : Z) (treeName : string) : TM unit :=
  if bool_decide (treeName ∈ [AppTreeName; ValTreeName; FishTreeName; ServicerTreeName]) then
    actorType ← of_option ("no actor type found for merkle tree: " +:+ treeName) (merkleTreeNameToActorTypeName treeName);
    actors ← wrap_err (errorf ("failed to get actors at height " +:+ bigIntText height +:+ ": ")) (of_res (SqlQueries.GetActors pgtx actorType height));
    wrap_err (errorf ("failed to update actors tree for treeType: " +:+ treeName +:+ ", actorType: " +:+ ActorType_String actorType +:+ " - "))
      (updateActorsTree actorType actors)
  else if bool_decide (treeName = AccountTreeName) then
    accounts ← wrap_err (errorf "failed to get accounts: ") (of_res (SqlQueries.GetAccounts pgtx height));
    wrap_err (errorf "failed to update account trees: ") (updateAccountTrees accounts)
  else if bool_decide (treeName = PoolTreeName) then
    pools ← wrap_err (errorf "failed to get transactions: ") (of_res (SqlQueries.GetPools pgtx height));
    wrap_err (errorf "failed to update pool trees - ") (updatePoolTrees pools)
  else if bool_decide (treeName = TransactionsTreeName) then
    indexedTxs ← wrap_err (errorf "failed to get transactions: ") (of_res (SqlQueries.GetTransactions txi height));
    wrap_err (errorf "failed to update transactions: ") (updateTransactionsTree indexedTxs)
  else if bool_decide (treeName = ParamsTreeName) then
    params ← wrap_err (errorf "failed to get params: ") (of_res (SqlQueries.GetParams pgtx height));
    wrap_err (errorf "failed to update params tree: ") (updateParamsTree params)
  else if bool_decide (treeName = FlagsTreeName) then
    flags ← wrap_err (errorf "failed to get flags from transaction: ") (of_res (SqlQueries.GetFlags pgtx height));
    wrap_err (errorf "failed to update flags tree - ") (updateFlagsTree flags)
  else panic.

Definition commit : TM unit :=
  t ← get;
  forM (mapOrder (merkleTrees t)).*1 (fun treeName => wrap_err (errorf ("failed to commit " +:+ treeName +:+ ": ")) (onTree treeName (onSmt smtCommit))).

(** A failing update of the root tree ends the process. *)
Definition getStateHash : TM string :=
  t ← get;
  forM (mapOrder (merkleTrees t)).*2 (fun st =>
    fun t => match onRoot (onSmt (smtUpdate (name st) (smtRoot (tree st)))) t with
             | (Err _, t') => (Panic, t')
             | r => r
             end) ;;
  gets (fun t => hexEncode (smtRoot (tree (rootTree t)))).

Definition updateMerkleTrees (pgtx : DB) (txi : TxIndexer) (height : Z) : TM string :=
  t ← get;
  forM (mapOrder (merkleTrees t)).*1 (updateMerkleTree pgtx txi height) ;;
  wrap_err (errorf "failed to commit: ") commit ;;
  getStateHash.

(** The transaction index is that of the persistence module. *)
Definition Update (pgtx : DB) (txi : TxIndexer) (height : Z) : TM string := updateMerkleTrees pgtx txi height.

(** *** Clearing *)
Definition clearTree : M stateTree string unit := fun st =>
  match KVStore.ClearAll (nodeStore st) with
  | (Ok _, db) => (Ok tt, {| name := name st; tree := NewSparseMerkleTree db; nodeStore := db |})
  | (Err e, db) => (Err e, {| name := name st; tree := tree st; nodeStore := db |})
  | (Panic, db) => (Panic, {| name := name st; tree := tree st; nodeStore := db |})
  end.

Definition DebugClearAll : TM unit :=
  wrap_err (errorf "failed to clear root node store: ") (onRoot clearTree) ;;
  t ← get;
  forM (mapOrder (merkleTrees t)).*1 (fun treeName => wrap_err (errorf ("failed to clear " +:+ treeName +:+ " node store: ")) (onTree treeName clearTree)).

(** *** Creation *)
Definition newTree (treeName : string) (db : BDB) : stateTree :=
  {| name := treeName; tree := NewSparseMerkleTree db; nodeStore := db |}.

Fixpoint setupEach (openStore : string -> res string BDB) (names : list string) (m : gmap string stateTree) : res string (gmap string stateTree) :=
  match names with
  | [] => Ok m
  | n :: rest =>
      match openStore n with
      | Ok db => setupEach openStore rest (<[n := newTree n db]> m)
      | Err e => Err e
      | Panic => Panic
      end
  end.

Definition setupWith (dir : string) (openStore : string -> res string BDB) : res string treeStore :=
  match openStore RootTreeName with
  | Ok db =>
      match setupEach openStore stateTreeNames ∅ with
      | Ok m => Ok {| treeStoreDir := dir; rootTree := newTree RootTreeName db; merkleTrees := m |}
      | Err e => Err e
      | Panic => Panic
      end
  | Err e => Err e
  | Panic => Panic
  end.

Definition setupInMemory (dir : string) : res string treeStore := setupWith dir (fun _ => KVStore.NewMemKVStore).

Definition openNodes (dir treeName : string) : res string BDB :=
  match KVStore.NewKVStore (dir +:+ "/" +:+ treeName +:+ "_nodes") with inl db => Ok db | inr e => Err e end.
Definition setupTrees (dir : string) : res string treeStore :=
  if bool_decide (dir = ":memory:") then setupInMemory dir else setupWith dir (openNodes dir).

(** [Create]: the options set the logger and the directory. *)
Definition Create (treeStoreDirectory : string) : res string treeStore := setupTrees treeStoreDirectory.

(** *** [PostgresContext.ComputeStateHash] *)
Definition ComputeStateHash : M (treeStore * PostgresContext) string string := fun '(t, p) =>
  match Update (db p) (txIndexer p) (u64 (Height p)) t with
  | (Ok stateHash, t') =>
      (Ok stateHash, (t', {| Height := Height p; db := db p; ctx_stateHash := stateHash; blockStore := blockStore p;
                             txIndexer := txIndexer p; networkId := networkId p |}))
  | (Err e, t') => (Err e, (t', p))
  | (Panic, t') => (Panic, (t', p))
  end.
End trees.
End Trees.
