(* ===== verification/TreesSpec.v ===== *)
(** What the state trees should hold: the abstract state of each tree and the laws of the
    sparse Merkle tree library.

    Every tree stores, for each key of a versioned table, the encoding of its latest row.
    [TreeTable] is such a table with its encodings; [snapshot] is the content of the tree at a
    height, computed from the tables and the transaction index from scratch; [stateRoot] is the
    state hash of these snapshots.  [TreesFacts] proves that the incremental updates of the code
    produce them. *)

From S2P Require Import Prelude GoStd GoSort Crypto CoreTypes Messages Sql Persistence KvStore SqlQueries Trees.
#[local] Open Scope string_scope.
#[local] Open Scope Z_scope.

(** ** The library *)

(** A tree is a map from keys to values; [backed t db]: the node store [db] has the nodes that
    [t] refers to.  A new tree is empty, whatever its node store holds, and the root depends on
    the content only. *)
Class SmtLaws {B : Badger} {BL : BadgerLaws B} (S : SmtLib) := {
  smtContent : Smt -> gmap bytes bytes;
  backed : Smt -> BDB -> Prop;
  smt_new : forall db, opened db -> smtContent (NewSparseMerkleTree db) = ∅ /\ backed (NewSparseMerkleTree db) db;
  smt_backed : forall t db, backed t db -> opened db;
  smt_update : forall t db k v, backed t db ->
    exists t' db', smtUpdate k v (t, db) = (Ok tt, (t', db')) /\ backed t' db' /\ smtContent t' = <[k := v]> (smtContent t);
  smt_commit : forall t db, backed t db ->
    exists t' db', smtCommit (t, db) = (Ok tt, (t', db')) /\ backed t' db' /\ smtContent t' = smtContent t;
  smt_root : forall t1 t2, smtContent t1 = smtContent t2 -> smtRoot t1 = smtRoot t2;
}.

(** Collisions of the tree's hash function are left out: different contents have different roots. *)
Class SmtBinding {B : Badger} {BL : BadgerLaws B} {S : SmtLib} (L : SmtLaws S) : Prop := {
  smt_binding : forall t1 t2, smtRoot t1 = smtRoot t2 -> smtContent t1 = smtContent t2;
}.

(** ** Batches of updates *)
Definition applyBatch (c : gmap bytes bytes) (l : list (bytes * bytes)) : gmap bytes bytes :=
  foldl (fun c e => <[e.1 := e.2]> c) c l.

Lemma applyBatch_lookup (l : list (bytes * bytes)) c k v :
  (forall k v1 v2, (k, v1) ∈ l -> (k, v2) ∈ l -> v1 = v2) ->
  applyBatch c l !! k = Some v <-> (k, v) ∈ l \/ (k ∉ l.*1 /\ c !! k = Some v).
Proof.
  revert c. induction l as [|[k0 v0] l IH]; intros c Hf; cbn [applyBatch foldl].
  { cbn. set_solver. }
  fold (applyBatch (<[k0 := v0]> c) l). rewrite IH by (intros ???; set_solver). cbn.
  rewrite elem_of_cons, not_elem_of_cons. split.
  - intros [Hin|[Hn Hl]]; [by left; right|]. apply lookup_insert_Some in Hl as [[-> ->]|[Hne Hl]]; [by left; left|right; set_solver].
  - intros [[[= -> ->]|Hin]|[[Hne Hn] Hl]]; [|by left|right; split; [done|by rewrite lookup_insert_ne]].
    destruct (decide (k0 ∈ l.*1)) as [[[k1 v1] [-> Hin]]%list_elem_of_fmap|Hn]; cbn in *.
    + left. by rewrite (Hf k1 v0 v1) by set_solver.
    + right. by rewrite lookup_insert_eq.
Qed.

(** ** Versioned tables as tree contents *)
Record TreeTable := {
  tt_row : Type; tt_table : Table tt_row;
  tt_key : string -> option bytes;                  (* of the table's key *)
  tt_val : string -> Z -> tt_row -> option bytes;   (* of a key and the row of a height *)
}.

Section tables.
Implicit Types (T : TreeTable) (h : Z).

Definition tableLeaf T h (e : string * Hist (tt_row T)) : option (bytes * bytes) :=
  '(h0, r) ← latest e.2 h; k ← tt_key T e.1; v ← tt_val T e.1 h0 r; Some (k, v).
Definition tableContent T h : gmap bytes bytes := list_to_map (omap (tableLeaf T h) (map_to_list (tt_table T))).

(** The entries that a height changes. *)
Definition written T h (k v : bytes) : Prop :=
  exists x r, rowAt (tt_table T) x h = Some r /\ tt_key T x = Some k /\ tt_val T x h r = Some v.
Definition leaf T h (k v : bytes) : Prop :=
  exists x h0 r, selectLatest (tt_table T) x h = Some (h0, r) /\ tt_key T x = Some k /\ tt_val T x h0 r = Some v.

(** The keys of the table have different keys in the tree, and the rows of a height can be encoded. *)
Definition keyInj T : Prop := forall x y k, is_Some (tt_table T !! x) -> is_Some (tt_table T !! y) ->
  tt_key T x = Some k -> tt_key T y = Some k -> x = y.
Definition encodable T h : Prop := forall x r, rowAt (tt_table T) x h = Some r ->
  exists k v, tt_key T x = Some k /\ tt_val T x h r = Some v.

Lemma rowAt_dom {R} (t : Table R) x h r : rowAt t x h = Some r -> is_Some (t !! x).
Proof. unfold rowAt. destruct (t !! x); by eauto. Qed.
Lemma selectLatest_dom {R} (t : Table R) x h r : selectLatest t x h = Some r -> is_Some (t !! x).
Proof. unfold selectLatest. destruct (t !! x); by eauto. Qed.

(** The latest row is that of the height, or else the latest of the height before. *)
Lemma selectLatest_step {R} (t : Table R) x h :
  selectLatest t x h = match rowAt t x h with Some r => Some (h, r) | None => selectLatest t x (h - 1) end.
Proof.
  unfold selectLatest, rowAt. destruct (t !! x) as [m|]; [|done]. destruct (m !! h) as [r|] eqn:Hr.
  - apply latest_Some. split_and!; [done|lia|done].
  - destruct (latest m (h - 1)) as [[h0 r0]|] eqn:Hl.
    + apply latest_Some in Hl as (H0 & Hle & Hmax). apply latest_Some. split_and!; [done|lia|].
      intros k' r' Hk' Hb. destruct (decide (k' = h)) as [->|]; [congruence|]. apply (Hmax _ r'); [done|lia].
    + apply latest_None. intros k' r' Hk'. destruct (decide (k' = h)) as [->|]; [congruence|].
      pose proof (proj1 (latest_None m (h - 1)) Hl k' r' Hk'). lia.
Qed.

Lemma leaf_fun T h k v1 v2 : keyInj T -> leaf T h k v1 -> leaf T h k v2 -> v1 = v2.
Proof.
  intros Hi (x & h0 & r & Hs & Hk & Hv) (y & h1 & r' & Hs' & Hk' & Hv').
  assert (x = y) as -> by (eapply Hi; eauto using selectLatest_dom). congruence.
Qed.

Lemma written_leaf T h k v : written T h k v -> leaf T h k v.
Proof. intros (x & r & Hr & Hk & Hv). exists x, h, r. split; [|done]. by rewrite selectLatest_step, Hr. Qed.

Lemma elem_of_leaves T h k v : (k, v) ∈ omap (tableLeaf T h) (map_to_list (tt_table T)) <-> leaf T h k v.
Proof.
  rewrite list_elem_of_omap. split.
  - intros [[x m] [Hx%elem_of_map_to_list Hl]]. unfold tableLeaf in Hl. cbn in Hl.
    destruct (latest m h) as [[h0 r]|] eqn:Hm; [|done]. cbn in Hl. destruct (tt_key T x) as [k'|] eqn:Hk; [|done]. cbn in Hl.
    destruct (tt_val T x h0 r) as [v'|] eqn:Hv; [|done]. cbn in Hl. injection Hl as -> ->.
    exists x, h0, r. split; [|done]. unfold selectLatest. by rewrite Hx.
  - intros (x & h0 & r & Hs & Hk & Hv). unfold selectLatest in Hs. destruct (tt_table T !! x) as [m|] eqn:Hx; [|done].
    exists (x, m). split; [by apply elem_of_map_to_list|]. unfold tableLeaf. cbn. rewrite Hs. cbn. rewrite Hk. cbn. by rewrite Hv.
Qed.

Lemma list_to_map_functional (l : list (bytes * bytes)) k v :
  (forall k v1 v2, (k, v1) ∈ l -> (k, v2) ∈ l -> v1 = v2) -> (list_to_map l : gmap bytes bytes) !! k = Some v <-> (k, v) ∈ l.
Proof.
  induction l as [|[k0 v0] l IH]; intros Hf; cbn; [by rewrite lookup_empty; split; [done|intros ?%elem_of_nil]|].
  rewrite elem_of_cons, lookup_insert_Some, IH by (intros ???; set_solver). split; [intuition congruence|].
  intros [[= -> ->]|Hin]; [by left|]. destruct (decide (k0 = k)) as [->|]; [|by right]. left. split; [done|]. apply (Hf k); set_solver.
Qed.

Lemma tableContent_lookup T h k v : keyInj T -> tableContent T h !! k = Some v <-> leaf T h k v.
Proof.
  intros Hi. unfold tableContent. rewrite list_to_map_functional; [apply elem_of_leaves|].
  intros k' v1 v2 H1%elem_of_leaves H2%elem_of_leaves. by eapply leaf_fun.
Qed.

(** What was written at a height, on top of the content of the height before, is the content of
    the height. *)
Lemma tableContent_step T h (l : list (bytes * bytes)) :
  keyInj T -> encodable T h -> (forall k v, (k, v) ∈ l <-> written T h k v) ->
  applyBatch (tableContent T (h - 1)) l = tableContent T h.
Proof.
  intros Hi He Hl. apply map_eq. intros k. apply option_eq. intros v.
  assert (forall k v1 v2, (k, v1) ∈ l -> (k, v2) ∈ l -> v1 = v2) as Hf
    by (intros ??? H1%Hl%written_leaf H2%Hl%written_leaf; by eapply leaf_fun).
  rewrite applyBatch_lookup, !tableContent_lookup, Hl by done. split.
  - intros [Hw|[Hn (x & h0 & r & Hs & Hk & Hv)]]; [by apply written_leaf|]. exists x, h0, r. split; [|done].
    rewrite selectLatest_step. destruct (rowAt (tt_table T) x h) as [r'|] eqn:Hr; [|done]. exfalso. apply Hn.
    destruct (He x r' Hr) as (k' & v' & Hk' & Hv'). apply list_elem_of_fmap. exists (k, v'). split; [done|]. apply Hl.
    exists x, r'. split_and!; [done|congruence|done].
  - intros (x & h0 & r & Hs & Hk & Hv). rewrite selectLatest_step in Hs.
    destruct (rowAt (tt_table T) x h) as [r'|] eqn:Hr; [injection Hs as <- <-; left; by exists x, r'|]. right. split.
    + intros [[k' v'] [-> (y & r' & Hr' & Hk' & Hv')%Hl]]%list_elem_of_fmap. cbn in *.
      assert (x = y) as -> by (eapply Hi; eauto using selectLatest_dom, rowAt_dom). congruence.
    + by exists x, h0, r.
Qed.
End tables.

(** ** The nine trees *)
Module TreesSpec.
Import Trees.
Section spec.
Context `{CryptoPrims} `{PgxScan} `{TreeCodec}.

Definition ok {A} (r : A + string) : option A := match r with inl a => Some a | inr _ => None end.

Definition accountTable (sch : AccountSchema) (d : DB) : TreeTable := {|
  tt_table := accTable sch d; tt_key := hexDecode;
  tt_val a _ amount := ok (marshalAccount {| AccAddress := a; AccAmount := amount |}) |}.

Definition actorAt (s : ProtocolActorSchema) (d : DB) (a : string) (h : Z) (r : ActorRow) : Actor :=
  let actor := (SqlQueries.getActorFromRow (actorType s) a (h, r)).1 in
  if bool_decide (chainsTableName s = "") then actor else withChains actor (default [] (rowAt (chainTable d s) a h)).
Definition actorTreeTable (s : ProtocolActorSchema) (d : DB) : TreeTable := {|
  tt_table := actorTable d s; tt_key := hexDecode; tt_val a h r := ok (marshalActor (actorAt s d a h r)) |}.

Definition paramTable (d : DB) : TreeTable := {|
  tt_table := params d; tt_key n := Some (SHA3Hash n);
  tt_val n h r := ok (marshalParam {| prm_Name := n; prm_Value := param_value r; prm_Height := h |}) |}.

Definition flagTable (d : DB) : TreeTable := {|
  tt_table := flags d; tt_key n := Some (SHA3Hash n);
  tt_val n h r := text ← ok (scanBoolText (enabled r));
    ok (marshalFlag {| flg_Name := n; flg_Value := param_value r; flg_Height := h; flg_Enabled := text |}) |}.

(** The transactions, by their hashes in hex, at the heights they are indexed at. *)
Definition txRows (i : TxIndexer) : Table bytes :=
  map_fold (fun (p : Z * Z) hash acc => match txByHash i !! hash with Some t => upsert acc hash p.1 (idx_Tx t) | None => acc end) ∅ (txByHeight i).
Definition txTable (i : TxIndexer) : TreeTable := {|
  tt_table := txRows i; tt_key := hexDecode; tt_val _ _ b := Some b |}.

Definition treeTable (d : DB) (i : TxIndexer) (n : string) : TreeTable :=
  if bool_decide (n = AppTreeName) then actorTreeTable ApplicationActor d
  else if bool_decide (n = ValTreeName) then actorTreeTable ValidatorActor d
  else if bool_decide (n = FishTreeName) then actorTreeTable FishermanActor d
  else if bool_decide (n = ServicerTreeName) then actorTreeTable ServicerActor d
  else if bool_decide (n = AccountTreeName) then accountTable AccountS d
  else if bool_decide (n = PoolTreeName) then accountTable PoolS d
  else if bool_decide (n = TransactionsTreeName) then txTable i
  else if bool_decide (n = ParamsTreeName) then paramTable d
  else flagTable d.

(** The content of a tree at a height. *)
Definition snapshot (d : DB) (i : TxIndexer) (h : Z) (n : string) : gmap bytes bytes := tableContent (treeTable d i n) h.

(** Addresses in the tables are in lower-case hex, as all writers store them; the hashes of the
    names of parameters, and of flags, are different; the index is by hash. *)
Definition canonical {R} (t : Table R) : Prop := forall a, is_Some (t !! a) -> exists b, a = hexEncode b.
Definition namesDistinct {R} (t : Table R) : Prop :=
  forall a b, is_Some (t !! a) -> is_Some (t !! b) -> SHA3Hash a = SHA3Hash b -> a = b.
Definition indexed (i : TxIndexer) : Prop :=
  (forall hash t, txByHash i !! hash = Some t -> hash = hexEncode (SHA3Hash (idx_Tx t))) /\
  (forall p hash, txByHeight i !! p = Some hash -> is_Some (txByHash i !! hash)).

Record wfState (d : DB) (i : TxIndexer) : Prop := {
  wf_accounts : forall sch, canonical (accTable sch d);
  wf_actors : forall s, canonical (actorTable d s);
  wf_params : namesDistinct (params d);
  wf_flags : namesDistinct (flags d);
  wf_index : indexed i;
}.

Lemma canonical_inj {R} (t : Table R) : canonical t ->
  forall x y k, is_Some (t !! x) -> is_Some (t !! y) -> hexDecode x = Some k -> hexDecode y = Some k -> x = y.
Proof. intros Hc x y k Hx Hy. destruct (Hc x Hx) as [a ->], (Hc y Hy) as [b ->]. rewrite !hex_decode_encode. congruence. Qed.

Lemma txRows_spec i hash h b :
  rowAt (txRows i) hash h = Some b <->
  exists j t, txByHeight i !! (h, j) = Some hash /\ txByHash i !! hash = Some t /\ b = idx_Tx t.
Proof.
  unfold txRows. revert hash h b. apply (map_fold_weak_ind (fun acc m => forall hash h b, rowAt acc hash h = Some b <->
    exists j t, m !! (h, j) = Some hash /\ txByHash i !! hash = Some t /\ b = idx_Tx t)).
  - intros hash h b. unfold rowAt. rewrite lookup_empty. split; [done|]. intros (j & t & Hj & _). by rewrite lookup_empty in Hj.
  - intros [h0 j0] hash0 m acc Hn IH hash h b. cbn. destruct (txByHash i !! hash0) as [t0|] eqn:Ht0.
    + unfold rowAt, upsert. destruct (decide (hash0 = hash)) as [<-|Hne].
      * rewrite lookup_insert_eq, lookup_insert_Some. split.
        -- intros [[-> <-]|[Hne Hl]]; [exists j0, t0; by rewrite lookup_insert_eq|].
           assert (rowAt acc hash0 h = Some b) as (j & t & Hj & Ht & ->)%IH by (unfold rowAt; by destruct (acc !! hash0)).
           exists j, t. by rewrite lookup_insert_ne by congruence.
        -- intros (j & t & [[[= -> ->] _]|[Hne Hj]]%lookup_insert_Some & Ht & ->); [left; split; congruence|].
           destruct (decide (h0 = h)) as [->|Hh]; [left; split; congruence|]. right. split; [done|].
           assert (rowAt acc hash0 h = Some (idx_Tx t)) as Hr by (apply IH; by exists j, t). unfold rowAt in Hr. by destruct (acc !! hash0).
      * rewrite lookup_insert_ne by done. fold (rowAt acc hash h). rewrite IH. split.
        -- intros (j & t & Hj & Ht & ->). exists j, t. split; [|done]. rewrite lookup_insert_ne; congruence.
        -- intros (j & t & [[_ ?]|[_ Hj]]%lookup_insert_Some & Ht & ->); [done|]. by exists j, t.
    + rewrite IH. split.
      * intros (j & t & Hj & Ht & ->). exists j, t. split; [|done]. rewrite lookup_insert_ne; congruence.
      * intros (j & t & [[_ ?]|[_ Hj]]%lookup_insert_Some & Ht & ->); [congruence|]. by exists j, t.
Qed.

Lemma txRows_dom i hash : is_Some (txRows i !! hash) -> is_Some (txByHash i !! hash).
Proof.
  unfold txRows. apply (map_fold_weak_ind (fun acc _ => is_Some (acc !! hash) -> is_Some (txByHash i !! hash))).
  - rewrite lookup_empty. by intros [? ?].
  - intros [h0 j0] hash0 m acc Hn IH. cbn. destruct (txByHash i !! hash0) eqn:Ht0; [|done]. unfold upsert.
    rewrite lookup_insert_is_Some. intros [->|[_ Hs]]; [by eauto|by apply IH].
Qed.

Lemma wf_keyInj d i n : wfState d i -> keyInj (treeTable d i n).
Proof.
  intros W. unfold treeTable. repeat case_bool_decide; unfold keyInj; cbn;
    try (apply canonical_inj; first [apply (wf_actors d i W)|exact (wf_accounts d i W AccountS)|exact (wf_accounts d i W PoolS)]).
  - apply canonical_inj. intros a [t Ht]%txRows_dom. exists (SHA3Hash (idx_Tx t)). by apply (wf_index d i W).
  - intros x y k Hx Hy [= <-] [= He]. by apply (wf_params d i W).
  - intros x y k Hx Hy [= <-] [= He]. by apply (wf_flags d i W).
Qed.
End spec.

(** ** The reference state hash *)
Section reference.
Context `{B : Badger} `{S : !SmtLib}.

(** The root of a fresh tree in memory with the given content. *)
Definition refTree (m : gmap bytes bytes) : res string Smt :=
  match KVStore.NewMemKVStore with
  | Ok db =>
      match forM (map_to_list m) (fun e : bytes * bytes => smtUpdate e.1 e.2) (NewSparseMerkleTree db, db) with
      | (Ok _, (t, _)) => Ok t
      | (Err e, _) => Err e
      | (Panic, _) => Panic
      end
  | Err e => Err e
  | Panic => Panic
  end.
Definition refRoot (m : gmap bytes bytes) : bytes := match refTree m with Ok t => smtRoot t | _ => "" end.

(** The root of the tree of the roots. *)
Definition rootContent (c : string -> gmap bytes bytes) : gmap bytes bytes :=
  list_to_map ((fun n => (n, refRoot (c n))) <$> stateTreeNames).
Definition rootHash (c : string -> gmap bytes bytes) : string := hexEncode (refRoot (rootContent c)).

Context `{CryptoPrims} `{PgxScan} `{TreeCodec}.
Definition stateRoot (d : DB) (i : TxIndexer) (h : Z) : string := rootHash (snapshot d i h).

Context `{BL : !BadgerLaws B} `{L : !SmtLaws S}.

Lemma smt_updates (l : list (bytes * bytes)) t db : backed t db ->
  exists t' db', forM l (fun e : bytes * bytes => smtUpdate e.1 e.2) (t, db) = (Ok tt, (t', db')) /\ backed t' db' /\
    smtContent t' = applyBatch (smtContent t) l.
Proof.
  revert t db. induction l as [|[k v] l IH]; intros t db Hb; [by exists t, db|]. cbn [forM].
  destruct (smt_update t db k v Hb) as (t1 & db1 & Hu & Hb1 & Hc1). rewrite (bind_run _ _ _ _ _ Hu).
  destruct (IH t1 db1 Hb1) as (t2 & db2 & Hr & Hb2 & Hc2). exists t2, db2. split_and!; [done|done|]. by rewrite Hc2, Hc1.
Qed.

Lemma refTree_spec m : exists t, refTree m = Ok t /\ smtContent t = m.
Proof.
  unfold refTree, KVStore.NewMemKVStore. destruct open_mem_law as (db & Ho & _). rewrite Ho.
  destruct (smt_new db (open_law _ _ _ Ho)) as [Hc Hb].
  destruct (smt_updates (map_to_list m) _ _ Hb) as (t & db' & -> & _ & Ht). exists t. split; [done|]. rewrite Ht, Hc.
  apply map_eq. intros k. apply option_eq. intros v. rewrite applyBatch_lookup.
  - rewrite elem_of_map_to_list, lookup_empty. naive_solver.
  - intros k' v1 v2 Hx1%elem_of_map_to_list Hx2%elem_of_map_to_list. congruence.
Qed.

Lemma refRoot_eq t : smtRoot t = refRoot (smtContent t).
Proof. unfold refRoot. destruct (refTree_spec (smtContent t)) as (t' & -> & Hc). by apply smt_root. Qed.

Lemma refRoot_binding `{!SmtBinding L} m1 m2 : refRoot m1 = refRoot m2 -> m1 = m2.
Proof.
  unfold refRoot. destruct (refTree_spec m1) as (t1 & -> & <-), (refTree_spec m2) as (t2 & -> & <-). apply smt_binding.
Qed.

Lemma rootContent_lookup c n : n ∈ stateTreeNames -> rootContent c !! n = Some (refRoot (c n)).
Proof.
  intros Hn. unfold rootContent. apply elem_of_list_to_map; [|apply list_elem_of_fmap; by exists n].
  rewrite <- list_fmap_compose. change (fst ∘ _) with (@id string). rewrite list_fmap_id. vm_compute. repeat constructor; set_solver.
Qed.

(** Different contents of a tree have different state hashes. *)
Lemma rootHash_binding `{!SmtBinding L} c1 c2 : rootHash c1 = rootHash c2 -> forall n, n ∈ stateTreeNames -> c1 n = c2 n.
Proof.
  unfold rootHash. intros He%(inj hexEncode)%refRoot_binding n Hn. apply refRoot_binding.
  pose proof (rootContent_lookup c1 n Hn) as Hx1. rewrite He, rootContent_lookup in Hx1 by done. congruence.
Qed.
End reference.
End TreesSpec.
