(* ===== verification/Keys.v ===== *)
(** Encrypted key pairs and hierarchical key derivation
    (src/shared/crypto/armour.go, keypair.go, slip/slip.go and the rest of ed25519.go).

    A key is stored as an armour: a JSON text with the salt and the secretbox of the key under a
    key that scrypt derives from the passphrase.  scrypt, NaCl secretbox, HMAC-SHA512, JSON and
    gob are library code: they are the operations of [KeyPrims], and [KeyLaws] states what the
    callers rely on.  The random source is the state of [Entropy]. *)

From Stdlib Require Import DecimalString.
From S2P Require Import Prelude GoStd Errors Crypto CoreTypes.
#[local] Open Scope string_scope.
#[local] Open Scope Z_scope.

(** ** Bytes *)

(** [copy] into an array of [n] bytes. *)
Fixpoint fitBytes (n : nat) (s : bytes) : bytes :=
  match n with
  | O => ""
  | S n' => match s with "" => String Ascii.zero (fitBytes n' "") | String c s' => String c (fitBytes n' s') end
  end.

Definition takeBytes (n : nat) (s : bytes) : bytes := String.substring 0 n s.
Definition dropBytes (n : nat) (s : bytes) : bytes := String.substring n (String.length s - n) s.

(** Every byte is an ASCII character. *)
Fixpoint asciiText (s : string) : bool :=
  match s with "" => true | String c s' => Nat.ltb (Ascii.nat_of_ascii c) 128 && asciiText s' end.

(** ** Parameters *)

(** [crypto/rand.Reader]: the next bytes. *)
Class Entropy := { Rnd : Type; randRead : nat -> M Rnd string bytes }.

Record armouredKey := { Kdf : string; Salt : string; Hint : string; CipherText : string }.

(** The public key is an interface value, nil in an empty key pair. *)
Record encKeyPair := { kp_PublicKey : option bytes; PrivKeyArmour : string }.

Class KeyPrims := {
  scrypt_Key : bytes -> bytes -> Z -> Z -> Z -> Z -> bytes + string;
  secretbox_Seal : bytes -> bytes -> bytes -> bytes;                 (* message, nonce, key *)
  secretbox_Open : bytes -> bytes -> bytes -> option bytes;          (* box, nonce, key *)
  hmac_sha512 : bytes -> bytes -> bytes;                             (* key, data *)
  armour_Marshal : armouredKey -> string + string;                   (* encoding/json *)
  armour_Unmarshal : string -> armouredKey + string;
  keyPair_GobEncode : encKeyPair -> bytes + string;                  (* encoding/gob *)
  keyPair_GobDecode : bytes -> encKeyPair + string;
  keyPair_JSONEncode : option string -> string -> string + string;   (* public_key, priv_key_armour *)
  keyPair_JSONFields : string -> (string * string) + string;
  json_String : string -> string + string;                           (* a JSON string, decoded *)
  json_OfString : string -> string;
}.

Module Armour.
Definition kdf : string := "scrypt".
Definition randBz : nat := 16.
Definition SecretBoxNonceSize : nat := 24.
Definition n : Z := 32768.
Definition r : Z := 8.
Definition p : Z := 1.
Definition klen : nat := 32.

Definition ErrorWrongPassphrase : string := "cannot decrypt private key: wrong passphrase".

Definition newArmouredKey (kdf salt hint cipherText : string) : armouredKey :=
  {| Kdf := kdf; Salt := salt; Hint := hint; CipherText := cipherText |}.

Section armour.
Context `{EN : Entropy} `{KP : KeyPrims} `{CP : CryptoPrims}.
Abbreviation RM := (M Rnd string).

(** Panics if there is no randomness. *)
Definition randBytes (numBytes : nat) : RM bytes := fun s =>
  match randRead numBytes s with (Err _, s') => (Panic, s') | out => out end.

Definition encryptCipher (key plaintext : bytes) : RM bytes :=
  nonce ← randRead SecretBoxNonceSize;
  mret (nonce +:+ secretbox_Seal plaintext nonce (fitBytes klen key)).

(** The slices panic on a box shorter than the nonce. *)
Definition decryptCipher (key encBz : bytes) : res string bytes :=
  if (String.length encBz <? SecretBoxNonceSize)%nat then Panic
  else match secretbox_Open (dropBytes SecretBoxNonceSize encBz) (takeBytes SecretBoxNonceSize encBz) (fitBytes klen key) with
       | None => Err ErrorWrongPassphrase
       | Some decrypted => Ok decrypted
       end.

Definition sumRes {A} (r : A + string) : res string A := match r with inl a => Ok a | inr e => Err e end.

Definition deriveKey (passphrase : string) (saltBz : bytes) : bytes + string := scrypt_Key passphrase saltBz n r p (Z.of_nat klen).

Definition encryptPrivKey (privKey : bytes) (passphrase : string) : RM (bytes * bytes) :=
  saltBz ← randBytes randBz;
  encryptionKey ← of_res (sumRes (deriveKey passphrase saltBz));
  encBz ← encryptCipher encryptionKey (hexEncode privKey);
  mret (saltBz, encBz).

Definition encryptArmourPrivKey (privKey : bytes) (passphrase hint : string) : RM string :=
  '(saltBz, encBz) ← encryptPrivKey privKey passphrase;
  of_res (sumRes (armour_Marshal (newArmouredKey kdf (hexEncode saltBz) hint (Base64.RawStdEncode encBz)))).

Definition decryptPrivKey (saltBz encBz : bytes) (passphrase : string) : res string bytes :=
  match deriveKey passphrase saltBz with
  | inr e => Err e
  | inl encryptionKey =>
      match decryptCipher encryptionKey encBz with
      | Err e => Err e
      | Panic => Panic
      | Ok privKeyRawHexBz =>
          match hexDecode privKeyRawHexBz with
          | None => Err hexErrorText
          | Some b => NewPrivateKeyFromBytes b
          end
      end
  end.

Definition base64ErrorText : string := "illegal base64 data".

Definition unarmourDecryptPrivKey (armourStr passphrase : string) : res string bytes :=
  match armour_Unmarshal armourStr with
  | inr e => Err e
  | inl ak =>
      if negb (bool_decide (Kdf ak = kdf)) then Err ("unrecognized KDF type: " +:+ Kdf ak)
      else if bool_decide (Salt ak = "") then Err "missing salt bytes"
      else match hexDecode (Salt ak) with
           | None => Err ("error decoding salt: " +:+ hexErrorText)
           | Some saltBz =>
               match Base64.RawStdDecode (CipherText ak) with
               | None => Err ("error decoding ciphertext: " +:+ base64ErrorText)
               | Some encBz => decryptPrivKey saltBz encBz passphrase
               end
           end
  end.
End armour.
End Armour.

(** ** The rest of ed25519.go *)
Module Ed25519.
Section keys.
Context `{EN : Entropy} `{KP : KeyPrims} `{CP : CryptoPrims}.

Definition SeedSize : nat := 32.

(** [ed25519.GenerateKey] reads a seed. *)
Definition GeneratePrivateKey : M Rnd string bytes := seed ← randRead SeedSize; mret (ed25519_newKeyFromSeed seed).

(** A reader over given bytes. *)
Definition GeneratePrivateKeyWithReader (reader : bytes) : res string bytes :=
  if (String.length reader <? SeedSize)%nat then Err (if bool_decide (reader = "") then "EOF" else "unexpected EOF")
  else Ok (ed25519_newKeyFromSeed (takeBytes SeedSize reader)).

Definition GeneratePublicKey : M Rnd string bytes := pk ← GeneratePrivateKey; mret (PrivateKey_PublicKey pk).
Definition GenerateAddress : M Rnd string bytes := pk ← GeneratePrivateKey; mret (PrivateKey_Address pk).

Definition PrivateKey_String (sk : bytes) : string := hexEncode sk.
Definition PrivateKey_Equals (sk other : bytes) : bool := bool_decide (sk = other).
Definition PrivateKey_Size (_ : bytes) : Z := Crypto.PrivateKeySize.
(** The seed is the first half of the key. *)
Definition PrivateKey_Seed (sk : bytes) : bytes := takeBytes SeedSize sk.

Definition PrivateKey_UnmarshalText (data : bytes) : res string bytes :=
  match hexDecode data with None => Err hexErrorText | Some keyBytes => NewPrivateKeyFromBytes keyBytes end.
Definition PrivateKey_UnmarshalJSON (data : bytes) : res string bytes :=
  match json_String data with inr e => Err e | inl privateKey => PrivateKey_UnmarshalText privateKey end.

Definition PublicKey_Equals (pk other : bytes) : bool := bool_decide (pk = other).
Definition PublicKey_Size (_ : bytes) : Z := Crypto.PublicKeySize.
Definition PublicKey_MarshalJSON (pk : bytes) : string := json_OfString (PublicKey_String pk).
Definition PublicKey_UnmarshalJSON (data : bytes) : res string bytes :=
  match json_String data with
  | inr e => Err e
  | inl publicKey => match hexDecode publicKey with None => Err hexErrorText | Some keyBytes => NewPublicKeyFromBytes keyBytes end
  end.
End keys.
End Ed25519.

(** ** Key pairs *)
Module KeyPair.
Import Armour Ed25519.
Section keypair.
Context `{EN : Entropy} `{KP : KeyPrims} `{CP : CryptoPrims}.
Implicit Types kp : encKeyPair.

Definition newKeyPair (pub : bytes) (priv : string) : encKeyPair := {| kp_PublicKey := Some pub; PrivKeyArmour := priv |}.
Definition GetKeypair : encKeyPair := {| kp_PublicKey := None; PrivKeyArmour := "" |}.

Definition GetPublicKey kp : option bytes := kp_PublicKey kp.
Definition GetPrivArmour kp : string := PrivKeyArmour kp.
(** A method call on a nil public key panics. *)
Definition GetAddressBytes kp : res string bytes := match kp_PublicKey kp with Some pk => Ok (PublicKey_Address pk) | None => Panic end.
Definition GetAddressString kp : res string string :=
  match kp_PublicKey kp with Some pk => Ok (Address_String (PublicKey_Address pk)) | None => Panic end.

Definition Unarmour kp (passphrase : string) : res string bytes := unarmourDecryptPrivKey (PrivKeyArmour kp) passphrase.

Definition withKey {A} kp (passphrase : string) (f : bytes -> A) : res string A :=
  match unarmourDecryptPrivKey (PrivKeyArmour kp) passphrase with Ok privKey => Ok (f privKey) | Err e => Err e | Panic => Panic end.
Definition ExportString kp (passphrase : string) : res string string := withKey kp passphrase PrivateKey_String.
Definition ExportJSON kp (passphrase : string) : res string string := withKey kp passphrase (fun _ => PrivKeyArmour kp).
Definition GetSeed kp (passphrase : string) : res string bytes := withKey kp passphrase PrivateKey_Seed.

Definition Marshal kp : bytes + string := keyPair_GobEncode kp.
Definition Unmarshal (b : bytes) : encKeyPair + string := keyPair_GobDecode b.

(** [json.Marshal] uses the [MarshalJSON] of the public key, its hexadecimal text. *)
Definition MarshalJSON kp : string + string := keyPair_JSONEncode (PublicKey_String <$> kp_PublicKey kp) (PrivKeyArmour kp).

Definition UnmarshalJSON (data : string) : res string encKeyPair :=
  match keyPair_JSONFields data with
  | inr e => Err e
  | inl (publicKey, armour) => match NewPublicKey publicKey with Ok pk => Ok (newKeyPair pk armour) | Err e => Err e | Panic => Panic end
  end.

(** The armoured key pair of a private key; [None] (a nil key pair and no error) for an empty
    armour. *)
Definition armoured (privKey : bytes) (passphrase hint : string) : M Rnd string (option encKeyPair) :=
  privArmour ← encryptArmourPrivKey privKey passphrase hint;
  mret (if bool_decide (privArmour = "") then None else Some (newKeyPair (PrivateKey_PublicKey privKey) privArmour)).

Definition CreateNewKey (passphrase hint : string) : M Rnd string (option encKeyPair) :=
  privKey ← GeneratePrivateKey; armoured privKey passphrase hint.

Definition CreateNewKeyFromString (privStrHex passphrase hint : string) : M Rnd string (option encKeyPair) :=
  privKey ← of_res (NewPrivateKey privStrHex); armoured privKey passphrase hint.

Definition CreateNewKeyFromSeed (seed : bytes) (passphrase hint : string) : M Rnd string encKeyPair :=
  privKey ← of_res (GeneratePrivateKeyWithReader seed);
  armouredStr ← encryptArmourPrivKey privKey passphrase hint;
  mret (newKeyPair (PrivateKey_PublicKey privKey) armouredStr).

Definition ImportKeyFromJSON (jsonStr passphrase : string) : res string encKeyPair :=
  match unarmourDecryptPrivKey jsonStr passphrase with
  | Ok privKey => Ok (newKeyPair (PrivateKey_PublicKey privKey) jsonStr)
  | Err e => Err e
  | Panic => Panic
  end.
End keypair.
End KeyPair.

(** ** SLIP-0010 derivation *)
Module Slip.
Import KeyPair.

Definition seedModifier : string := "ed25519 seed".
Definition firstHardenedKeyIndex : Z := 2 ^ 31.
Definition maxHardenedKeyIndex : Z := 2 ^ 32 - 1.
Definition maxChildKeyIndex : Z := maxHardenedKeyIndex - firstHardenedKeyIndex.

Definition ErrNoDerivation : string := "no derivation for a hardened ed25519 key is possible".
Definition ErrInvalidPath : string := "invalid BIP-44 derivation path".

(** [fmt.Sprintf(PoktAccountPathFormat, i)]. *)
Definition PoktAccountPath (i : Z) : string := "m/44'/635'/" +:+ bigIntText i +:+ "'".

Record slipKey := { secretKey : bytes; chainCode : bytes }.

Definition isDigit (c : Ascii.ascii) : bool := let n := Ascii.nat_of_ascii c in (48 <=? n)%nat && (n <=? 57)%nat.
Definition slashChar : Ascii.ascii := Ascii.ascii_of_nat 47.
Definition quoteChar : Ascii.ascii := Ascii.ascii_of_nat 39.
Definition mChar : Ascii.ascii := Ascii.ascii_of_nat 109.

(** [(/\d+')+$]: where the match stands inside the text. *)
Inductive segState := SegStart | SegSlash | SegDigits | SegEnd.
Fixpoint matchSegments (st : segState) (s : string) : bool :=
  match s with
  | "" => match st with SegEnd => true | _ => false end
  | String c s' =>
      match st with
      | SegStart | SegEnd => Ascii.eqb c slashChar && matchSegments SegSlash s'
      | SegSlash => isDigit c && matchSegments SegDigits s'
      | SegDigits => (isDigit c && matchSegments SegDigits s') || (Ascii.eqb c quoteChar && matchSegments SegEnd s')
      end
  end.

(** [pathRegex.MatchString] for [m(/\d+')+$]: the match may start anywhere. *)
Fixpoint matchPath (s : string) : bool :=
  match s with "" => false | String c s' => (Ascii.eqb c mChar && matchSegments SegStart s') || matchPath s' end.

(** [strings.Split(s, "/")]. *)
Fixpoint splitSlashes (s : string) : list string :=
  match s with
  | "" => [""]
  | String c s' =>
      if Ascii.eqb c slashChar then "" :: splitSlashes s'
      else match splitSlashes s' with seg :: rest => String c seg :: rest | [] => [String c ""] end
  end.

(** [strings.TrimRight(s, "'")]. *)
Fixpoint trimRightQuote (s : string) : string :=
  match s with
  | "" => ""
  | String c s' => match trimRightQuote s' with
                   | "" => if Ascii.eqb c quoteChar then "" else String c ""
                   | t => String c t
                   end
  end.

(** [strconv.ParseUint(s, 10, 32)]. *)
Definition parseUint32 (s : string) : res string Z :=
  match NilZero.uint_of_string s with
  | None => Err ("strconv.ParseUint: parsing " +:+ s +:+ ": invalid syntax")
  | Some u => let z := Z.of_uint u in
              if z <? 2 ^ 32 then Ok z else Err ("strconv.ParseUint: parsing " +:+ s +:+ ": value out of range")
  end.

Fixpoint parseSegments (segs : list string) : res string (list Z) :=
  match segs with
  | [] => Ok []
  | seg :: rest =>
      match parseUint32 (trimRightQuote seg) with
      | Ok i => match parseSegments rest with Ok l => Ok (i :: l) | e => e end
      | Err e => Err e
      | Panic => Panic
      end
  end.

Definition pathToSegments (path : string) : res string (list Z) :=
  if bool_decide (path = "m") then Ok []
  else if negb (matchPath path) then Err ErrInvalidPath
  else parseSegments (tail (splitSlashes path)).

Section derivation.
Context `{EN : Entropy} `{KP : KeyPrims} `{CP : CryptoPrims}.

Definition slipKeyOf (sum : bytes) : slipKey := {| secretKey := takeBytes 32 sum; chainCode := dropBytes 32 sum |}.

Definition newMasterKey (seed : bytes) : slipKey := slipKeyOf (hmac_sha512 seedModifier seed).

(** [binary.BigEndian.PutUint32]. *)
Definition be32 (z : Z) : bytes :=
  let byte k := Ascii.ascii_of_nat (Z.to_nat (Z.shiftr z k mod 256)) in
  String (byte 24) (String (byte 16) (String (byte 8) (String (byte 0) ""))).

Definition deriveChild (k : slipKey) (i : Z) : res string slipKey :=
  if i <? firstHardenedKeyIndex then Err ErrNoDerivation
  else Ok (slipKeyOf (hmac_sha512 (chainCode k) (String Ascii.zero (secretKey k) +:+ be32 i))).

Fixpoint deriveSegments (segments : list Z) (key : slipKey) : res string slipKey :=
  match segments with
  | [] => Ok key
  | i32 :: rest =>
      if maxChildKeyIndex <? i32 then Err ("hardened key index too large, max: " +:+ bigIntText maxChildKeyIndex +:+ ", got: " +:+ bigIntText i32)
      else match deriveChild key (u32 (i32 + firstHardenedKeyIndex)) with
           | Ok key' => deriveSegments rest key'
           | e => e
           end
  end.

Definition convertToKeypair (k : slipKey) : M Rnd string encKeyPair := CreateNewKeyFromSeed (secretKey k) "" "".

Definition DeriveChild (path : string) (seed : bytes) : M Rnd string encKeyPair :=
  segments ← of_res (pathToSegments path);
  key ← of_res (deriveSegments segments (newMasterKey seed));
  convertToKeypair key.
End derivation.
End Slip.

(** Key pairs: an armoured key opens with its passphrase and not with another, derivation
    follows SLIP-0010, and which paths are accepted. *)
(** ** Laws of the parameters *)

(** The random source of the operating system does not fail. *)
Class EntropyLaws (EN : Entropy) : Prop := {
  rand_law : forall n s, exists b s', randRead n s = (Ok b, s') /\ String.length b = n;
}.

(** scrypt accepts the parameters of this code; secretbox opens what it sealed with the same
    nonce and key and, as authenticated encryption, refuses another key; JSON keeps ASCII texts;
    gob keeps key pairs. *)
Class KeyLaws (KP : KeyPrims) : Prop := {
  scrypt_law : forall pass salt, exists k, Armour.deriveKey pass salt = inl k;
  open_law : forall m nonce k, secretbox_Open (secretbox_Seal m nonce k) nonce k = Some m;
  open_other_law : forall m nonce k k', k ≠ k' -> secretbox_Open (secretbox_Seal m nonce k) nonce k' = None;
  hmac_length : forall k d, String.length (hmac_sha512 k d) = 64%nat;
  armour_law : forall ak, asciiText (Kdf ak) = true -> asciiText (Salt ak) = true -> asciiText (CipherText ak) = true ->
    exists js hint, armour_Marshal ak = inl js /\ js ≠ "" /\
      armour_Unmarshal js = inl {| Kdf := Kdf ak; Salt := Salt ak; Hint := hint; CipherText := CipherText ak |};
  gob_law : forall pk armour, exists b, keyPair_GobEncode {| kp_PublicKey := Some pk; PrivKeyArmour := armour |} = inl b /\
    keyPair_GobDecode b = inl {| kp_PublicKey := Some pk; PrivKeyArmour := armour |};
}.

Module KeysFacts.
Import Armour Ed25519 KeyPair.

(** ** Bytes *)
Lemma take_app_bytes a b : takeBytes (String.length a) (a +:+ b) = a.
Proof. unfold takeBytes. induction a as [|c a IH]; [by destruct b|]. exact (f_equal (String c) IH). Qed.

Lemma length_app_bytes a b : String.length (a +:+ b) = (String.length a + String.length b)%nat.
Proof. induction a as [|c a IH]; [done|]. exact (f_equal S IH). Qed.

Lemma drop_app_bytes a b : dropBytes (String.length a) (a +:+ b) = b.
Proof.
  unfold dropBytes. rewrite length_app_bytes. replace (_ - _)%nat with (String.length b) by lia.
  induction a as [|c a IH]; [apply substring_all|]. exact IH.
Qed.

Lemma ascii_hexDigit n : (n < 16)%nat -> Nat.ltb (Ascii.nat_of_ascii (hexDigit n)) 128 = true.
Proof. intros Hn. do 16 (destruct n as [|n]; [reflexivity|]). lia. Qed.

Lemma ascii_hex s : asciiText (hexEncode s) = true.
Proof.
  induction s as [|c s IH]; [done|]. cbn [hexEncode asciiText]. rewrite IH.
  pose proof (Ascii.nat_ascii_bounded c). rewrite !ascii_hexDigit; [done|apply Nat.mod_upper_bound; lia|apply Nat.Div0.div_lt_upper_bound; lia].
Qed.

Lemma ascii_encode6 x : Nat.ltb (Ascii.nat_of_ascii (Base64.encode6 x)) 128 = true.
Proof. by destruct x as [[] [] [] [] [] []]. Qed.

Lemma ascii_base64 s : asciiText (Base64.RawStdEncode s) = true.
Proof.
  unfold Base64.RawStdEncode. induction s as [|a|a b|a b c s IH] using Base64.triple_ind; cbn [Base64.encode asciiText]; rewrite ?ascii_encode6; done.
Qed.

Section facts.
Context `{EL : EntropyLaws} `{KL : KeyLaws} `{CL : CryptoLaws}.

(** Passphrases whose keys differ under every salt. *)
Definition distinct (pass pass' : string) : Prop := forall salt k k',
  deriveKey pass salt = inl k -> deriveKey pass' salt = inl k' -> fitBytes klen k ≠ fitBytes klen k'.

Lemma distinct_irrefl pass : ¬ distinct pass pass.
Proof. intros Hd. destruct (scrypt_law pass "") as [k Hk]. by apply (Hd "" k k). Qed.

(** What an armoured key gives for a passphrase: the key, or the error of a wrong passphrase. *)
Definition unlocks (sk : bytes) (pass pass' : string) (r : res string bytes) : Prop :=
  (r = Ok sk /\ ¬ distinct pass pass') \/ (r = Err ErrorWrongPassphrase /\ pass' ≠ pass).

(** An armour of a key under a passphrase. *)
Definition armours (js : string) (sk : bytes) (pass : string) : Prop := forall pass', unlocks sk pass pass' (unarmourDecryptPrivKey js pass').

Lemma privateKey_ok sk : blen sk = 64 -> NewPrivateKeyFromBytes sk = Ok sk.
Proof. intros Hs. unfold NewPrivateKeyFromBytes. by rewrite bool_decide_eq_false_2 by (intros Hn; by apply Hn). Qed.

Lemma decrypt_sealed sk salt nonce pass k pass' :
  blen sk = 64 -> String.length nonce = SecretBoxNonceSize -> deriveKey pass salt = inl k ->
  unlocks sk pass pass' (decryptPrivKey salt (nonce +:+ secretbox_Seal (hexEncode sk) nonce (fitBytes klen k)) pass').
Proof.
  intros Hsk Hn Hk. destruct (scrypt_law pass' salt) as [k' Hk']. unfold decryptPrivKey, decryptCipher. rewrite Hk'.
  rewrite length_app_bytes, Hn, (proj2 (Nat.ltb_ge _ _)) by lia. rewrite <- Hn, take_app_bytes, drop_app_bytes.
  destruct (decide (fitBytes klen k = fitBytes klen k')) as [He|He].
  - rewrite He, open_law, hex_decode_encode, privateKey_ok by done. left. split; [done|]. intros Hd. by apply (Hd salt k k').
  - rewrite open_other_law by done. right. split; [done|]. intros ->. congruence.
Qed.

Lemma armour_made sk pass hint s :
  blen sk = 64 -> exists js s', encryptArmourPrivKey sk pass hint s = (Ok js, s') /\ js ≠ "" /\ armours js sk pass.
Proof.
  intros Hsk. destruct (rand_law randBz s) as (salt & s1 & Hr1 & Hl1). destruct (rand_law SecretBoxNonceSize s1) as (nonce & s2 & Hr2 & Hl2).
  destruct (scrypt_law pass salt) as [k Hk].
  set (ak := newArmouredKey kdf (hexEncode salt) hint (Base64.RawStdEncode (nonce +:+ secretbox_Seal (hexEncode sk) nonce (fitBytes klen k)))).
  destruct (armour_law ak) as (js & hint' & Hm & Hne & Hu); [reflexivity|apply ascii_hex|apply ascii_base64|].
  exists js, s2. split; [|split; [done|]].
  - unfold encryptArmourPrivKey, encryptPrivKey, encryptCipher, randBytes, of_res. rewrite !bind_eq, Hr1, Hk. cbn [sumRes].
    rewrite !bind_eq, Hr2. cbn [mret M_ret]. unfold mret, M_ret. fold ak. by rewrite Hm.
  - intros pass'. unfold unarmourDecryptPrivKey. rewrite Hu. unfold ak. cbn [Kdf Salt CipherText newArmouredKey].
    rewrite (bool_decide_eq_true_2 (kdf = kdf)) by done. cbn [negb]. rewrite bool_decide_eq_false_2.
    + rewrite hex_decode_encode, Base64.raw_roundtrip. by apply decrypt_sealed.
    + intros He. apply (f_equal String.length) in He. rewrite hexEncode_length, Hl1 in He. done.
Qed.

(** A ciphertext shorter than a nonce makes the decryption panic instead of failing: the slices
    are taken without a check of the length. *)
Theorem short_ciphertext_panics js hint salt cipher encBz saltBz pass :
  armour_Unmarshal js = inl {| Kdf := kdf; Salt := salt; Hint := hint; CipherText := cipher |} ->
  salt ≠ "" -> hexDecode salt = Some saltBz -> Base64.RawStdDecode cipher = Some encBz -> (String.length encBz < 24)%nat ->
  unarmourDecryptPrivKey js pass = Panic.
Proof.
  intros Hu Hne Hs Hc Hl. unfold unarmourDecryptPrivKey. rewrite Hu. cbn [Kdf Salt CipherText]. rewrite bool_decide_eq_true_2, bool_decide_eq_false_2, Hs, Hc by done.
  cbn [negb]. unfold decryptPrivKey. destruct (scrypt_law pass saltBz) as [k ->]. unfold decryptCipher. by rewrite (proj2 (Nat.ltb_lt _ _)).
Qed.
End facts.
End KeysFacts.

(** ** Derivation *)
Module SlipFacts.
Import Armour Ed25519 KeyPair Slip KeysFacts.

Fixpoint allDigits (s : string) : bool := match s with "" => true | String c s' => isDigit c && allDigits s' end.

Lemma digit_not_special c : isDigit c = true -> Ascii.eqb c slashChar = false /\ Ascii.eqb c quoteChar = false.
Proof. destruct c as [[] [] [] [] [] [] [] []]; by vm_compute. Qed.

Lemma uint_digits u : allDigits (NilEmpty.string_of_uint u) = true.
Proof. induction u; cbn; done. Qed.

(** The decimal text of a number that is not negative. *)
Lemma decimal_text i : 0 <= i -> exists c s u, bigIntText i = String c s /\ isDigit c = true /\ allDigits s = true /\
  NilZero.uint_of_string (bigIntText i) = Some u /\ Z.of_uint u = i.
Proof.
  intros Hi. unfold bigIntText. destruct (Z.to_int i) as [u|u] eqn:Hu; [|destruct i; cbn in Hu; [done..|lia]].
  assert (u ≠ Decimal.Nil) as Hne by (intros ->; by apply (proj1 (Z_to_int_nonnil i))).
  assert (Z.of_uint u = i) as Hv by (rewrite <- (DecimalZ.of_to i), Hu; done).
  cbn [NilZero.string_of_int]. pose proof (NilZero.usu u Hne) as Hs.
  destruct (NilZero.string_of_uint u) as [|c s] eqn:Ht; [done|]. exists c, s, u. split; [done|].
  assert (allDigits (String c s) = true) as Hd by (rewrite <- Ht; destruct u; [done|..]; apply (uint_digits (_ u))).
  apply andb_true_iff in Hd as [? ?]. done.
Qed.

Lemma match_digits s : allDigits s = true -> matchSegments SegDigits (s +:+ "'") = true.
Proof.
  induction s as [|c s IH]; [done|]. cbn [allDigits]. intros [Hc Hs]%andb_true_iff. change (String c s +:+ "'") with (String c (s +:+ "'")).
  cbn [matchSegments]. rewrite Hc, IH by done. done.
Qed.

Lemma split_digits s : allDigits s = true -> splitSlashes (s +:+ "'") = [s +:+ "'"].
Proof.
  induction s as [|c s IH]; [done|]. cbn [allDigits]. intros [Hc Hs]%andb_true_iff. change (String c s +:+ "'") with (String c (s +:+ "'")).
  cbn [splitSlashes]. by rewrite (proj1 (digit_not_special c Hc)), IH.
Qed.

Lemma trim_digits s : allDigits s = true -> trimRightQuote (s +:+ "'") = s.
Proof.
  induction s as [|c s IH]; [done|]. cbn [allDigits]. intros [Hc Hs]%andb_true_iff. change (String c s +:+ "'") with (String c (s +:+ "'")).
  cbn [trimRightQuote]. rewrite IH by done. destruct s; [|done]. by rewrite (proj2 (digit_not_special c Hc)).
Qed.

(** The path of an account parses to its three segments. *)
Lemma account_segments i : 0 <= i < 2 ^ 32 -> pathToSegments (PoktAccountPath i) = Ok [44; 635; i].
Proof.
  intros Hi. destruct (decimal_text i) as (c & s & u & Ht & Hc & Hs & Hp & Hv); [lia|]. unfold pathToSegments, PoktAccountPath. rewrite Ht in *.
  change ("m/44'/635'/" +:+ String c s +:+ "'") with ("m/44'/635'/" +:+ (String c (s +:+ "'"))).
  rewrite bool_decide_eq_false_2 by done.
  assert (matchSegments SegSlash (String c (s +:+ "'")) = true) as Hm by (cbn [matchSegments]; by rewrite Hc, match_digits).
  assert (matchPath ("m/44'/635'/" +:+ String c (s +:+ "'")) = true) as ->.
  { revert Hm. generalize (String c (s +:+ "'")) as y. intros y Hm. lazy beta iota delta [String.append]. cbn. by rewrite Hm. }
  assert (tail (splitSlashes ("m/44'/635'/" +:+ String c (s +:+ "'"))) = ["44'"; "635'"; String c s +:+ "'"]) as ->.
  { change (splitSlashes _) with ("m" :: "44'" :: "635'" :: splitSlashes (String c s +:+ "'")) at 1. cbn [tail]. rewrite split_digits; [done|]. cbn. by rewrite Hc. }
  cbn [negb parseSegments]. rewrite trim_digits by (cbn; by rewrite Hc). unfold parseUint32 at 3. rewrite Hp, Hv.
  by rewrite (proj2 (Z.ltb_lt _ _)) by lia.
Qed.

(** A prefix of the path is ignored: the pattern is not anchored at its start. *)
Lemma match_suffix x y : matchPath y = true -> matchPath (x +:+ y) = true.
Proof.
  intros Hy. induction x as [|c x IH]; [done|]. change (String c x +:+ y) with (String c (x +:+ y)). cbn [matchPath]. rewrite IH. by rewrite orb_true_r.
Qed.

Fixpoint noSlashIn (s : string) : bool := match s with "" => true | String c s' => negb (Ascii.eqb c slashChar) && noSlashIn s' end.

Lemma split_prefix x y seg rest : noSlashIn x = true -> splitSlashes y = seg :: rest -> splitSlashes (x +:+ y) = (x +:+ seg) :: rest.
Proof.
  intros Hx Hy. induction x as [|c x IH]; [done|]. cbn [noSlashIn] in Hx. apply andb_true_iff in Hx as [Hc Hx].
  change (String c x +:+ y) with (String c (x +:+ y)). cbn [splitSlashes]. apply negb_true_iff in Hc. by rewrite Hc, IH.
Qed.

(** A path is accepted with anything without a slash before it, and then stands for the same
    segments. *)
Theorem path_prefix_ignored x path :
  noSlashIn x = true -> path ≠ "m" -> matchPath path = true -> x +:+ path ≠ "m" -> pathToSegments (x +:+ path) = pathToSegments path.
Proof.
  intros Hx Hp Hm Hne. unfold pathToSegments. rewrite !bool_decide_eq_false_2, match_suffix, Hm by done. cbn [negb].
  destruct (splitSlashes path) as [|seg rest] eqn:Hs; [destruct path as [|c path]; [done|]; cbn in Hs; repeat case_match; done|].
  by erewrite split_prefix.
Qed.

Example unanchored : pathToSegments "00m/44'" = Ok [44].
Proof. reflexivity. Qed.

Section derivation.
Context `{EL : EntropyLaws} `{KL : KeyLaws} `{CL : CryptoLaws}.

(** SLIP-0010 for ed25519: the master key from the seed, and the child with a hardened index
    from the 0x00 byte, the secret key and the big-endian index, under the chain code. *)
Definition split512 (sum : bytes) : bytes * bytes := (takeBytes 32 sum, dropBytes 32 sum).
Definition slip10 (seed : bytes) (path : list Z) : bytes * bytes :=
  foldl (fun kc i => split512 (hmac_sha512 kc.2 (String Ascii.zero kc.1 +:+ be32 (2 ^ 31 + i)))) (split512 (hmac_sha512 "ed25519 seed" seed)) path.

Lemma derive_segments path : forall key, Forall (fun i => 0 <= i <= maxChildKeyIndex) path ->
  exists key', deriveSegments path key = Ok key' /\
    (secretKey key', chainCode key') = foldl (fun kc i => split512 (hmac_sha512 kc.2 (String Ascii.zero kc.1 +:+ be32 (2 ^ 31 + i)))) (secretKey key, chainCode key) path.
Proof.
  induction path as [|i path IH]; intros key Hp; [by exists key|]. apply Forall_cons in Hp as [Hi Hp]. cbn [deriveSegments foldl fst snd].
  unfold maxChildKeyIndex, maxHardenedKeyIndex, firstHardenedKeyIndex in *. rewrite (proj2 (Z.ltb_ge _ _)) by lia.
  unfold u32. rewrite Z.mod_small by lia. unfold deriveChild, firstHardenedKeyIndex. rewrite (proj2 (Z.ltb_ge _ _)) by lia.
  rewrite (Z.add_comm i). destruct (IH (slipKeyOf (hmac_sha512 (chainCode key) (String Ascii.zero (secretKey key) +:+ be32 (2 ^ 31 + i)))) Hp) as (key' & Hk & Hv).
  exists key'. split; [done|]. exact Hv.
Qed.

Lemma slip10_secret_length seed path : String.length (slip10 seed path).1 = 32%nat.
Proof.
  unfold slip10. destruct path as [|i path _] using rev_ind; [|rewrite foldl_snoc]; cbn; unfold takeBytes; rewrite substring_length; rewrite ?hmac_length; lia.
Qed.

Lemma derived_account (i : Z) (seed : bytes) (s : Rnd) :
  0 <= i < 2 ^ 32 ->
  let sk := ed25519_newKeyFromSeed (slip10 seed [44; 635; i]).1 in
  if i <? 2 ^ 31
  then exists armour s', DeriveChild (PoktAccountPath i) seed s = (Ok (newKeyPair (ed25519_public sk) armour), s') /\ armours armour sk ""
  else exists e, DeriveChild (PoktAccountPath i) seed s = (Err e, s).
Proof.
  intros Hi sk. unfold DeriveChild. unfold of_res. rewrite bind_eq, account_segments by done.
  destruct (Z.ltb_spec i (2 ^ 31)) as [Hlt|Hge].
  - destruct (derive_segments [44; 635; i] (newMasterKey seed)) as (key & Hk & Hv).
    { unfold maxChildKeyIndex, maxHardenedKeyIndex, firstHardenedKeyIndex. repeat constructor; lia. }
    rewrite bind_eq, Hk. unfold convertToKeypair, CreateNewKeyFromSeed, of_res. rewrite bind_eq.
    change (foldl _ _ _) with (slip10 seed [44; 635; i]) in Hv. assert (secretKey key = (slip10 seed [44; 635; i]).1) as Hsk by (by rewrite <- Hv).
    unfold GeneratePrivateKeyWithReader. rewrite Hsk. pose proof (slip10_secret_length seed [44; 635; i]) as Hl.
    rewrite (proj2 (Nat.ltb_ge _ _)) by (rewrite Hl; unfold SeedSize; lia).
    assert (takeBytes SeedSize (slip10 seed [44; 635; i]).1 = (slip10 seed [44; 635; i]).1) as -> by (unfold takeBytes, SeedSize; rewrite <- Hl; apply substring_all).
    fold sk. destruct (armour_made sk "" "" s) as (js & s' & Hr & _ & Ha); [unfold sk; apply ed25519_seed_length; unfold blen; by rewrite Hl|].
    rewrite bind_eq, Hr. by exists js, s'.
  - eexists. rewrite bind_eq. cbn [deriveSegments]. unfold maxChildKeyIndex, maxHardenedKeyIndex, firstHardenedKeyIndex in *.
    cbn [deriveSegments]. rewrite (proj2 (Z.ltb_ge _ 44)), (proj2 (Z.ltb_ge _ 635)) by lia. unfold deriveChild, firstHardenedKeyIndex.
    rewrite (proj2 (Z.ltb_lt (2 ^ 32 - 1 - 2 ^ 31) i)) by lia. reflexivity.
Qed.

(** The key of an account: for an index below 2^31 the derivation gives the key pair whose
    seed is the SLIP-0010 key of the path 44', 635', index', sealed under the empty passphrase;
    for a larger index it is an error. *)
Theorem account_key_derived (i : Z) (seed : bytes) (s : Rnd) :
  0 <= i < 2 ^ 32 ->
  let sk := ed25519_newKeyFromSeed (slip10 seed [44; 635; i]).1 in
  if i <? 2 ^ 31
  then exists kp s', DeriveChild (PoktAccountPath i) seed s = (Ok kp, s') /\ kp_PublicKey kp = Some (ed25519_public sk) /\ armours (PrivKeyArmour kp) sk ""
  else exists e, DeriveChild (PoktAccountPath i) seed s = (Err e, s).
Proof.
  intros Hi sk. pose proof (derived_account i seed s Hi) as Hd. cbv zeta in Hd. fold sk in Hd. destruct (i <? 2 ^ 31); [|done].
  destruct Hd as (armour & s' & Hr & Ha). eauto.
Qed.
End derivation.
End SlipFacts.
