(* ===== verification/Keybase.v ===== *)
(** The keybases of the command line client: key pairs in a badger database
    (src/app/client/keybase/keystore.go) or in HashiCorp Vault
    (src/app/client/keybase/hashicorp/vault.go).

    Both stores implement [KeyBackend]: reading the key pair of an address and writing a key
    pair under its address.  The operations that the two files share word for word up to these
    two steps are defined once, on the interface ([KeyOps]), and named again for each store.
    The state is the store together with the random source. *)

From S2P Require Import Prelude GoStd GoSort Errors Crypto Keys KvStore.
#[local] Open Scope string_scope.
#[local] Open Scope Z_scope.

Class KeyBackend (S : Type) := {
  getKeyPair : S -> string -> res string encKeyPair;
  saveKeyPair : encKeyPair -> string -> M S string unit;           (* with the hint *)
}.

Module KeyOps.
Import KeyPair Slip Ed25519.

Section ops.
Context {S : Type} `{KB : KeyBackend S} `{EN : Entropy} `{KP : KeyPrims} `{CP : CryptoPrims}.
Abbreviation KM := (M (S * Rnd) string).

Definition onRnd {A} (m : M Rnd string A) : KM A := fun st => let '(r, rnd) := m st.2 in (r, (st.1, rnd)).
Definition onStore {A} (m : M S string A) : KM A := fun st => let '(r, s) := m st.1 in (r, (s, st.2)).
(** A key pair whose methods are called: a nil one panics. *)
Definition nonNil (o : option encKeyPair) : KM encKeyPair := match o with Some kp => mret kp | None => panic end.

Definition storeNew (o : option encKeyPair) (hint : string) : KM encKeyPair :=
  keyPair ← nonNil o;
  onStore (saveKeyPair keyPair hint) ;;
  mret keyPair.

Definition Create (passphrase hint : string) : KM encKeyPair :=
  keyPair ← onRnd (CreateNewKey passphrase hint);
  storeNew keyPair hint.

Definition ImportFromString (privKeyHex passphrase hint : string) : KM encKeyPair :=
  keyPair ← onRnd (CreateNewKeyFromString privKeyHex passphrase hint);
  storeNew keyPair hint.

Definition ImportFromJSON (jsonStr passphrase : string) : KM encKeyPair :=
  keyPair ← of_res (ImportKeyFromJSON jsonStr passphrase);
  storeNew (Some keyPair) "".

Definition GetPubKey (s : S) (address : string) : res string (option bytes) :=
  match getKeyPair s address with Ok kp => Ok (GetPublicKey kp) | Err e => Err e | Panic => Panic end.

Definition GetPrivKey (s : S) (address passphrase : string) : res string bytes :=
  match getKeyPair s address with Ok kp => Unarmour kp passphrase | Err e => Err e | Panic => Panic end.

Definition ExportPrivString (s : S) (address passphrase : string) : res string string :=
  match getKeyPair s address with Ok kp => ExportString kp passphrase | Err e => Err e | Panic => Panic end.

Definition ExportPrivJSON (s : S) (address passphrase : string) : res string string :=
  match getKeyPair s address with Ok kp => ExportJSON kp passphrase | Err e => Err e | Panic => Panic end.

Definition DeriveChildFromSeed (seed : bytes) (childIndex : Z) (childPassphrase childHint : string) (shouldStore : bool) : KM encKeyPair :=
  childKey ← onRnd (DeriveChild (PoktAccountPath childIndex) seed);
  if negb shouldStore then mret childKey
  else
    keyPair ← (if negb (bool_decide (childPassphrase = "")) && negb (bool_decide (childHint = "")) then
                 privKeyHex ← of_res (ExportString childKey "");
                 keyPair ← onRnd (CreateNewKeyFromString privKeyHex childPassphrase childHint);
                 nonNil keyPair
               else mret childKey : KM encKeyPair);
    onStore (saveKeyPair keyPair childHint) ;;
    mret childKey.

Definition DeriveChildFromKey (masterAddrHex passphrase : string) (childIndex : Z) (childPassphrase childHint : string) (shouldStore : bool) : KM encKeyPair :=
  st ← get;
  privKey ← of_res (GetPrivKey st.1 masterAddrHex passphrase);
  DeriveChildFromSeed (PrivateKey_Seed privKey) childIndex childPassphrase childHint shouldStore.

Definition Sign (s : S) (address passphrase : string) (msg : bytes) : res string bytes :=
  match GetPrivKey s address passphrase with Ok privKey => Ok (PrivateKey_Sign privKey msg) | Err e => Err e | Panic => Panic end.

Definition Verify (s : S) (address : string) (msg sig : bytes) : res string bool :=
  match GetPubKey s address with
  | Ok (Some pubKey) => Ok (PublicKey_Verify pubKey msg sig)
  | Ok None | Panic => Panic
  | Err e => Err e
  end.
End ops.
End KeyOps.

(** ** The badger keybase *)
Module BadgerKeybase.
Import KeyPair.

Definition ErrorAddrNotFound (addr : string) : string := "no key found with address: " +:+ addr.

(** [strings.Contains]. *)
Definition containsText (sub s : string) : bool := match String.index 0 sub s with Some _ => true | None => false end.

Section badger.
Context `{B : Badger} `{EN : Entropy} `{KP : KeyPrims} `{CP : CryptoPrims}.

Definition badgerKeybase : Type := BDB.
Abbreviation KM := (M (BDB * Rnd) string).

(** [utils.DirExists] creates the directory; a nil keybase without an error if it reports
    that it does not exist. *)
Definition NewBadgerKeybase (dirExists : string -> bool + string) (path : string) : option BDB + string :=
  match dirExists path with
  | inr e => inr e
  | inl false => inl None
  | inl true => match badgerOpen path false with inl db => inl (Some db) | inr e => inr e end
  end.

Definition NewKeybaseInMemory : BDB + string := badgerOpen "" true.

Definition Get (db : BDB) (address : string) : res string encKeyPair :=
  match hexDecode address with
  | None => Err hexErrorText
  | Some addrBz =>
      match txnGet db addrBz with
      | inr e => if containsText "not found" e then Err (ErrorAddrNotFound address) else Err e
      | inl value => match Unmarshal (bz value) with inl kp => Ok kp | inr e => Err e end
      end
  end.

(** Inside one update transaction: the address is the key, the encoded key pair the value. *)
Definition save (keyPair : encKeyPair) (_ : string) : M BDB string unit :=
  addrKey ← of_res (GetAddressBytes keyPair);
  keypairBz ← of_res (Armour.sumRes (Marshal keyPair));
  txnSet addrKey keypairBz.

#[global] Instance badgerBackend : KeyBackend BDB := {| getKeyPair := Get; saveKeyPair := save |}.

Definition Create := KeyOps.Create (S := BDB).
Definition ImportFromString := KeyOps.ImportFromString (S := BDB).
Definition ImportFromJSON := KeyOps.ImportFromJSON (S := BDB).
Definition GetPubKey := KeyOps.GetPubKey (S := BDB).
Definition GetPrivKey := KeyOps.GetPrivKey (S := BDB).
Definition DeriveChildFromSeed := KeyOps.DeriveChildFromSeed (S := BDB).
Definition DeriveChildFromKey := KeyOps.DeriveChildFromKey (S := BDB).
Definition ExportPrivString := KeyOps.ExportPrivString (S := BDB).
Definition ExportPrivJSON := KeyOps.ExportPrivJSON (S := BDB).
Definition Sign := KeyOps.Sign (S := BDB).
Definition Verify := KeyOps.Verify (S := BDB).

Fixpoint collectKeyPairs (items : list (bytes * (bytes + string))) : res string (list string * list encKeyPair) :=
  match items with
  | [] => Ok ([], [])
  | (_, inr e) :: _ => Err e
  | (_, inl val) :: rest =>
      match Unmarshal val with
      | inr e => Err e
      | inl kp =>
          match GetAddressString kp with
          | Ok a => match collectKeyPairs rest with Ok (addresses, keyPairs) => Ok (a :: addresses, kp :: keyPairs) | r => r end
          | Err e => Err e
          | Panic => Panic
          end
      end
  end.

(** [Rewind] without a prefix starts at the first key. *)
Definition GetAll (db : BDB) : res string (list string * list encKeyPair) := collectKeyPairs (iterate db "" false (Some "")).

Definition UpdatePassphrase (address oldPassphrase newPassphrase hint : string) : KM unit :=
  st ← get;
  privKey ← of_res (GetPrivKey st.1 address oldPassphrase);
  match hexDecode address with
  | None => fail hexErrorText
  | Some addrBz =>
      o ← KeyOps.onRnd (CreateNewKeyFromString (Ed25519.PrivateKey_String privKey) newPassphrase hint);
      keyPair ← KeyOps.nonNil o;
      addrKey ← of_res (GetAddressBytes keyPair);
      if negb (bool_decide (addrKey = addrBz)) then fail "key address does not match previous address"
      else KeyOps.onStore (save keyPair hint)
  end.

Definition Delete (address passphrase : string) : KM unit :=
  st ← get;
  of_res (GetPrivKey st.1 address passphrase) ;;
  match hexDecode address with
  | None => fail hexErrorText
  | Some addrBz => KeyOps.onStore (txnDelete addrBz)
  end.

Definition Stop : KM unit := KeyOps.onStore CloseDB.
End badger.
End BadgerKeybase.

(** ** The Vault keybase *)

(** The Vault client: KV version 2 secrets under a mount.  A secret has the fields of its
    latest version that are texts; listing gives the paths that have metadata. *)
Class VaultClient := {
  VC : Type;
  defaultAddress : string;
  newClient : string -> VC + string;
  setToken : string -> VC -> VC;
  clearToken : VC -> VC;
  kvGet : VC -> string -> string -> option (gmap string string) + string;          (* mount, path *)
  kvPut : string -> string -> gmap string string -> M VC string unit;
  kvVersions : VC -> string -> string -> list Z + string;
  kvDestroy : string -> string -> list Z -> M VC string unit;
  logicalList : VC -> string -> option (list string) + string;
}.

Module VaultKeybase.
Import KeyPair.

Definition defaultVaultMountPath : string := "secret".

Record KeybaseConfig := { VaultAddr : string; VaultToken : string; VaultMountPath : string }.

Section vault.
Context `{V : VaultClient} `{EN : Entropy} `{KP : KeyPrims} `{CP : CryptoPrims}.

Record vaultKeybase := { client : VC; mount : string }.
Abbreviation KM := (M (vaultKeybase * Rnd) string).

Definition NewVaultKeybase (cfg : KeybaseConfig) : vaultKeybase + string :=
  let addr := if bool_decide (VaultAddr cfg = "") then defaultAddress else VaultAddr cfg in
  let mountPath := if bool_decide (VaultMountPath cfg = "") then defaultVaultMountPath else VaultMountPath cfg in
  match newClient addr with
  | inr e => inr e
  | inl c => inl {| client := if bool_decide (VaultToken cfg = "") then c else setToken (VaultToken cfg) c; mount := mountPath |}
  end.

Definition onClient {A} (m : M VC string A) : M vaultKeybase string A := fun vk =>
  let '(r, c) := m (client vk) in (r, {| client := c; mount := mount vk |}).

Definition Stop : M vaultKeybase string unit := modify (fun vk => {| client := clearToken (client vk); mount := mount vk |}).

Definition Get (vk : vaultKeybase) (address : string) : res string encKeyPair :=
  match kvGet (client vk) (mount vk) address with
  | inr e => Err e
  | inl None => Err "key not found"
  | inl (Some data) => match data !! "key_pair" with None => Err "invalid key pair" | Some keyPairStr => UnmarshalJSON keyPairStr end
  end.

Definition writeVaultKeyPair (address : string) (kp : encKeyPair) (hint : string) : M vaultKeybase string unit :=
  dataBz ← of_res (Armour.sumRes (MarshalJSON kp));
  vk ← get;
  onClient (kvPut (mount vk) address (<["key_pair" := dataBz]> {["hint" := hint]})).

Definition save (kp : encKeyPair) (hint : string) : M vaultKeybase string unit :=
  address ← of_res (GetAddressString kp);
  writeVaultKeyPair address kp hint.

#[global] Instance vaultBackend : KeyBackend vaultKeybase := {| getKeyPair := Get; saveKeyPair := save |}.

Definition Create := KeyOps.Create (S := vaultKeybase).
Definition ImportFromString := KeyOps.ImportFromString (S := vaultKeybase).
Definition ImportFromJSON := KeyOps.ImportFromJSON (S := vaultKeybase).
Definition GetPubKey := KeyOps.GetPubKey (S := vaultKeybase).
Definition GetPrivKey := KeyOps.GetPrivKey (S := vaultKeybase).
Definition DeriveChildFromSeed := KeyOps.DeriveChildFromSeed (S := vaultKeybase).
Definition DeriveChildFromKey := KeyOps.DeriveChildFromKey (S := vaultKeybase).
Definition ExportPrivString := KeyOps.ExportPrivString (S := vaultKeybase).
Definition ExportPrivJSON := KeyOps.ExportPrivJSON (S := vaultKeybase).
Definition Sign := KeyOps.Sign (S := vaultKeybase).
Definition Verify := KeyOps.Verify (S := vaultKeybase).

Fixpoint getEach (vk : vaultKeybase) (keys : list string) : res string (list string * list encKeyPair) :=
  match keys with
  | [] => Ok ([], [])
  | key :: rest =>
      match Get vk key with
      | Ok kp => match getEach vk rest with Ok (addresses, keyPairs) => Ok (key :: addresses, kp :: keyPairs) | r => r end
      | Err e => Err e
      | Panic => Panic
      end
  end.

Definition GetAll (vk : vaultKeybase) : res string (list string * list encKeyPair) :=
  match logicalList (client vk) (mount vk +:+ "/metadata") with
  | inr e => Err e
  | inl None => Ok ([], [])
  | inl (Some keys) => getEach vk keys
  end.

Definition UpdatePassphrase (address oldPassphrase newPassphrase hint : string) : KM unit :=
  st ← get;
  privKey ← of_res (GetPrivKey st.1 address oldPassphrase);
  o ← KeyOps.onRnd (CreateNewKeyFromString (Ed25519.PrivateKey_String privKey) newPassphrase hint);
  keyPair ← KeyOps.nonNil o;
  KeyOps.onStore (save keyPair hint).

Definition Delete (address passphrase : string) : KM unit :=
  st ← get;
  of_res (GetPrivKey st.1 address passphrase) ;;
  versions ← of_res (Armour.sumRes (kvVersions (client st.1) (mount st.1) address));
  KeyOps.onStore (onClient (kvDestroy (mount st.1) address versions)).
End vault.
End VaultKeybase.

(** ** The choice of the keybase *)
Inductive KeybaseType := KeybaseType_FILE | KeybaseType_VAULT | KeybaseType_Other (n : Z).

(** The type of a nil configuration is read before the configuration is compared with nil. *)
Definition NewKeybase `{Badger} `{VaultClient} (dirExists : string -> bool + string)
    (conf : option (KeybaseType * string * VaultKeybase.KeybaseConfig)) : res string (option BDB + VaultKeybase.vaultKeybase) :=
  match conf with
  | None => Panic
  | Some (KeybaseType_FILE, FilePath, _) =>
      if bool_decide (FilePath = "") then Err "keybase path is required for file-based keybase"
      else match BadgerKeybase.NewBadgerKeybase dirExists FilePath with inl kb => Ok (inl kb) | inr e => Err e end
  | Some (KeybaseType_VAULT, _, cfg) =>
      match VaultKeybase.NewVaultKeybase cfg with inl vk => Ok (inr vk) | inr e => Err e end
  | Some (KeybaseType_Other n, _, _) => Err ("invalid keybase type: " +:+ bigIntText n)
  end.
