(* ===== verification/KeybaseFacts.v ===== *)
(** The badger keybase implements a map from addresses to private keys under passphrases, and
    what the Vault keybase does with deleted keys. *)

From stdpp Require Import sorting.
From S2P Require Import Prelude GoStd GoSort Errors Crypto CoreTypes Sql Messages Persistence Keys KvStore Indexer IndexerFacts Keybase.
#[local] Open Scope string_scope.
#[local] Open Scope Z_scope.

Module KeybaseFacts.
Import KeyPair Armour KeysFacts KeyOps.

Section keybase.
Context `{EL : EntropyLaws} `{KL : KeyLaws} `{CL : CryptoLaws} `{BL : BadgerLaws}.
(** Encoded key pairs are within the limits of the database. *)
Context (fits : forall a kp v, String.length a = 20%nat -> Marshal kp = inl v -> storable a v).

(** ** The abstract keybase *)

(** An address has a private key under a passphrase. *)
Abbreviation Keys := (gmap bytes (bytes * string)).

Definition addrOf (sk : bytes) : bytes := PrivateKey_Address sk.

Inductive kop :=
| KCreate (pass hint : string)
| KImport (priv pass hint : string)
| KDerive (seed : bytes) (i : Z) (pass hint : string)
| KUpdate (addr old new hint : string)
| KDelete (addr pass : string)
| KExport (addr pass : string)
| KSign (addr pass : string) (msg : bytes)
| KVerify (addr : string) (msg sig : bytes)
| KList.

Inductive kout := OPub (pk : bytes) | ODone | OText (s : string) | OBool (b : bool) | OList (l : list string) | OErr (e : string) | OPanic.

(** The key of an address text, or the error. *)
Definition withAddr (K : Keys) (addr : string) (f : bytes -> bytes * string -> kout -> Keys -> Prop) (out : kout) (K' : Keys) : Prop :=
  match hexDecode addr with
  | None => out = OErr hexErrorText /\ K' = K
  | Some a => match K !! a with
              | None => out = OErr (BadgerKeybase.ErrorAddrNotFound addr) /\ K' = K
              | Some e => f a e out K'
              end
  end.

(** An operation that needs the passphrase. *)
Definition withPass (K : Keys) (addr pass : string) (out : bytes -> bytes -> kout) (next : bytes -> bytes -> Keys) : kout -> Keys -> Prop :=
  withAddr K addr (fun a e o K' => exists r, unlocks e.1 e.2 pass r /\
    match r with Ok sk => o = out a sk /\ K' = next a sk | Err err => o = OErr err /\ K' = K | Panic => False end).

Definition keyAdded (K : Keys) (sk : bytes) (pass : string) (out : kout) (K' : Keys) : Prop :=
  out = OPub (ed25519_public sk) /\ K' = <[addrOf sk := (sk, pass)]> K.

Definition kspec (op : kop) (K : Keys) (out : kout) (K' : Keys) : Prop :=
  match op with
  | KCreate pass _ => exists seed, String.length seed = 32%nat /\ keyAdded K (ed25519_newKeyFromSeed seed) pass out K'
  | KImport priv pass _ => match NewPrivateKey priv with Ok sk => keyAdded K sk pass out K' | Err e => out = OErr e /\ K' = K | Panic => False end
  | KDerive seed i pass hint =>
      if i <? 2 ^ 31
      then keyAdded K (ed25519_newKeyFromSeed (SlipFacts.slip10 seed [44; 635; i]).1) (if bool_decide (pass = "" \/ hint = "") then "" else pass) out K'
      else (exists e, out = OErr e) /\ K' = K
  | KUpdate addr old new _ => withPass K addr old (fun _ _ => ODone) (fun a sk => <[a := (sk, new)]> K) out K'
  | KDelete addr pass => withPass K addr pass (fun _ _ => ODone) (fun a _ => delete a K) out K'
  | KExport addr pass => withPass K addr pass (fun _ sk => OText (hexEncode sk)) (fun _ _ => K) out K'
  | KSign addr pass msg => withPass K addr pass (fun _ sk => OText (ed25519_sign sk msg)) (fun _ _ => K) out K'
  | KVerify addr msg sig => withAddr K addr (fun a e o K' => o = OBool (ed25519_verify (ed25519_public e.1) msg sig) /\ K' = K) out K'
  | KList => (exists ks, out = OList (hexEncode <$> ks) /\ StronglySorted strLt ks /\ forall a, a ∈ ks <-> is_Some (K !! a)) /\ K' = K
  end.

(** Addresses are not empty texts and indexes are 32-bit numbers. *)
Definition op_ok (op : kop) : Prop :=
  match op with
  | KUpdate addr _ _ _ | KDelete addr _ | KExport addr _ | KSign addr _ _ | KVerify addr _ _ => addr ≠ ""
  | KDerive _ i _ _ => 0 <= i < 2 ^ 32
  | _ => True
  end.

(** ** The implementation of the operations *)
Definition outOf {A} (f : A -> kout) (r : res string A) : kout := match r with Ok a => f a | Err e => OErr e | Panic => OPanic end.
Definition pubOut (kp : encKeyPair) : kout := match kp_PublicKey kp with Some pk => OPub pk | None => OPanic end.

Definition exec (op : kop) (st : BDB * Rnd) : kout * (BDB * Rnd) :=
  match op with
  | KCreate pass hint => let '(r, st') := BadgerKeybase.Create pass hint st in (outOf pubOut r, st')
  | KImport priv pass hint => let '(r, st') := BadgerKeybase.ImportFromString priv pass hint st in (outOf pubOut r, st')
  | KDerive seed i pass hint => let '(r, st') := BadgerKeybase.DeriveChildFromSeed seed i pass hint true st in (outOf pubOut r, st')
  | KUpdate addr old new hint => let '(r, st') := BadgerKeybase.UpdatePassphrase addr old new hint st in (outOf (fun _ => ODone) r, st')
  | KDelete addr pass => let '(r, st') := BadgerKeybase.Delete addr pass st in (outOf (fun _ => ODone) r, st')
  | KExport addr pass => (outOf OText (BadgerKeybase.ExportPrivString st.1 addr pass), st)
  | KSign addr pass msg => (outOf OText (BadgerKeybase.Sign st.1 addr pass msg), st)
  | KVerify addr msg sig => (outOf OBool (BadgerKeybase.Verify st.1 addr msg sig), st)
  | KList => (outOf (fun r => OList r.1) (BadgerKeybase.GetAll st.1), st)
  end.

(** ** Representation *)
Definition stores (e : bytes * string) (a v : bytes) : Prop :=
  exists armour, Unmarshal v = inl (newKeyPair (ed25519_public e.1) armour) /\ a = addrOf e.1 /\ blen e.1 = 64 /\ armours armour e.1 e.2.

Definition rep (db : BDB) (K : Keys) : Prop :=
  opened db /\ forall a, option_Forall2 (fun e v => stores e a v) (K !! a) (content db !! a).

Lemma address_nonempty sk : addrOf sk ≠ "".
Proof. intros He. pose proof (address_length (ed25519_public sk)) as Hl. unfold addrOf, PrivateKey_Address, PrivateKey_PublicKey in He. by rewrite He in Hl. Qed.

Lemma rep_nonempty db K a e : rep db K -> K !! a = Some e -> a ≠ "".
Proof. intros [_ Hr] He. specialize (Hr a). rewrite He in Hr. inversion Hr as [? v (armour & _ & -> & _)|]. apply address_nonempty. Qed.

Lemma decode_nonempty addr a : addr ≠ "" -> hexDecode addr = Some a -> a ≠ "".
Proof.
  intros Hne Hd ->. destruct addr as [|c [|d addr]]; [done|done|]. cbn in Hd.
  destruct (hexValue c), (hexValue d); try done. cbn in Hd. by destruct (hexDecode addr).
Qed.

Lemma get_rep db K addr a : rep db K -> addr ≠ "" -> hexDecode addr = Some a ->
  match K !! a with
  | Some e => exists armour, BadgerKeybase.Get db addr = Ok (newKeyPair (ed25519_public e.1) armour) /\ a = addrOf e.1 /\ blen e.1 = 64 /\ armours armour e.1 e.2
  | None => BadgerKeybase.Get db addr = Err (BadgerKeybase.ErrorAddrNotFound addr)
  end.
Proof.
  intros [Ho Hr] Hne Hd. unfold BadgerKeybase.Get. rewrite Hd. pose proof (get_law db a Ho (decode_nonempty addr a Hne Hd)) as Hg.
  specialize (Hr a). inversion Hr as [e v (armour & Hu & Ha & Hl & Harm) HK Hv|HK Hv]; rewrite <- Hv in Hg.
  - destruct Hg as (s & -> & Hs). rewrite Hs, Hu. eauto.
  - by rewrite Hg.
Qed.

(** Reading the private key. *)
Lemma priv_rep db K addr pass : rep db K -> addr ≠ "" ->
  match hexDecode addr with
  | None => BadgerKeybase.GetPrivKey db addr pass = Err hexErrorText
  | Some a => match K !! a with
              | None => BadgerKeybase.GetPrivKey db addr pass = Err (BadgerKeybase.ErrorAddrNotFound addr)
              | Some e => unlocks e.1 e.2 pass (BadgerKeybase.GetPrivKey db addr pass)
              end
  end.
Proof.
  intros Hrep Hne. unfold BadgerKeybase.GetPrivKey, GetPrivKey. cbn [getKeyPair BadgerKeybase.badgerBackend].
  destruct (hexDecode addr) as [a|] eqn:Hd; [|by unfold BadgerKeybase.Get; rewrite Hd].
  pose proof (get_rep db K addr a Hrep Hne Hd) as Hg. destruct (K !! a) as [e|]; [|by rewrite Hg].
  destruct Hg as (armour & -> & _ & _ & Harm). apply Harm.
Qed.

(** Writing a key pair. *)
Lemma save_rep db K sk pass armour hint : rep db K -> blen sk = 64 -> armours armour sk pass ->
  exists db', BadgerKeybase.save (newKeyPair (ed25519_public sk) armour) hint db = (Ok tt, db') /\ rep db' (<[addrOf sk := (sk, pass)]> K).
Proof.
  intros [Ho Hr] Hl Harm. destruct (gob_law (ed25519_public sk) armour) as (v & Hm & Hu).
  assert (String.length (addrOf sk) = 20%nat) as Ha by (pose proof (address_length (ed25519_public sk)) as H20; unfold blen, Crypto.AddressLen in H20; change (addrOf sk) with (PublicKey_Address (ed25519_public sk)); lia).
  destruct (set_law db (addrOf sk) v Ho (fits _ _ _ Ha Hm)) as (db' & Hs & Ho' & Hc). exists db'. split.
  - unfold BadgerKeybase.save. unfold of_res. rewrite !bind_eq. cbn [GetAddressBytes newKeyPair kp_PublicKey]. rewrite bind_eq.
    unfold Marshal, newKeyPair. rewrite Hm. exact Hs.
  - split; [done|]. intros a. rewrite Hc. destruct (decide (a = addrOf sk)) as [->|Hne]; [rewrite !lookup_insert_eq|by rewrite !lookup_insert_ne by done].
    constructor. by exists armour.
Qed.

(** A new key pair, stored. *)
Lemma armoured_made sk pass hint rnd : blen sk = 64 ->
  exists armour rnd', armoured sk pass hint rnd = (Ok (Some (newKeyPair (ed25519_public sk) armour)), rnd') /\ armours armour sk pass.
Proof.
  intros Hl. destruct (armour_made sk pass hint rnd Hl) as (js & rnd' & Hr & Hne & Ha). exists js, rnd'. split; [|done].
  unfold armoured. rewrite bind_eq, Hr. by rewrite bool_decide_eq_false_2.
Qed.

Lemma stored_new db K sk pass armour hint rnd : rep db K -> blen sk = 64 -> armours armour sk pass ->
  exists db', storeNew (Some (newKeyPair (ed25519_public sk) armour)) hint (db, rnd) = (Ok (newKeyPair (ed25519_public sk) armour), (db', rnd)) /\
    rep db' (<[addrOf sk := (sk, pass)]> K).
Proof.
  intros Hrep Hl Ha. destruct (save_rep db K sk pass armour hint Hrep Hl Ha) as (db' & Hs & Hr). exists db'. split; [|done].
  unfold storeNew, nonNil, onStore. cbn [saveKeyPair BadgerKeybase.badgerBackend]. rewrite !bind_eq. cbn [mret M_ret].
  unfold mret, M_ret. rewrite bind_eq. cbn [fst snd]. by rewrite Hs.
Qed.

Lemma created_stored db K sk pass hint rnd : rep db K -> blen sk = 64 ->
  exists out st', (let '(r, st') := (o ← onRnd (armoured sk pass hint); storeNew o hint) (db, rnd) in (outOf pubOut r, st')) = (out, st') /\
    exists K', keyAdded K sk pass out K' /\ rep st'.1 K'.
Proof.
  intros Hrep Hl. destruct (armoured_made sk pass hint rnd Hl) as (armour & rnd' & Hm & Ha).
  destruct (stored_new db K sk pass armour hint rnd' Hrep Hl Ha) as (db' & Hs & Hr).
  eexists _, _. split; [unfold onRnd; rewrite bind_eq; cbn [snd fst]; rewrite Hm, Hs; reflexivity|]. by eexists.
Qed.

Lemma seed_key seed : String.length seed = 32%nat -> blen (ed25519_newKeyFromSeed seed) = 64.
Proof. intros Hl. apply ed25519_seed_length. unfold blen. by rewrite Hl. Qed.

Lemma newPrivateKey_length priv sk : NewPrivateKey priv = Ok sk -> blen sk = 64.
Proof.
  unfold NewPrivateKey, NewPrivateKeyFromBytes. destruct (hexDecode priv) as [b|]; [|done]. case_bool_decide as Hb; [done|]. intros [= <-].
  by destruct (decide (blen b = 64)).
Qed.

Lemma newPrivateKey_text sk : blen sk = 64 -> NewPrivateKey (hexEncode sk) = Ok sk.
Proof. intros Hl. unfold NewPrivateKey. by rewrite hex_decode_encode, privateKey_ok. Qed.

Lemma unlocks_ok sk pass pass' r : unlocks sk pass pass' r -> match r with Ok sk' => sk' = sk | Err e => e = ErrorWrongPassphrase | Panic => False end.
Proof. intros [[-> _]|[-> _]]; done. Qed.

Lemma unlocks_same sk pass r : unlocks sk pass pass r -> r = Ok sk.
Proof. by intros [[-> _]|[_ Hn]]. Qed.

(** The operations that only read with the passphrase. *)
Lemma read_with_pass db K addr pass (f : bytes -> string) : rep db K -> addr ≠ "" ->
  exists K', withPass K addr pass (fun _ sk => OText (f sk)) (fun _ _ => K)
    (outOf OText (match BadgerKeybase.GetPrivKey db addr pass with Ok sk => Ok (f sk) | Err e => Err e | Panic => Panic end)) K' /\ rep db K'.
Proof.
  intros Hrep Hne. exists K. split; [|done]. pose proof (priv_rep db K addr pass Hrep Hne) as Hp. unfold withPass, withAddr.
  destruct (hexDecode addr) as [a|]; [|by rewrite Hp]. destruct (K !! a) as [e|]; [|by rewrite Hp].
  eexists. split; [exact Hp|]. pose proof (unlocks_ok _ _ _ _ Hp). destruct (BadgerKeybase.GetPrivKey db addr pass); done.
Qed.

(** Errors of reading the key leave everything as it is. *)
Lemma with_pass_step db K addr pass out next (cont : bytes -> M (BDB * Rnd) string unit) rnd : rep db K -> addr ≠ "" ->
  (forall a e, hexDecode addr = Some a -> K !! a = Some e ->
     exists st', cont e.1 (db, rnd) = (Ok tt, st') /\ out a e.1 = ODone /\ rep st'.1 (next a e.1)) ->
  exists out' st', (let '(r, st') := (of_res (BadgerKeybase.GetPrivKey db addr pass) ≫= cont) (db, rnd) in (outOf (fun _ => ODone) r, st')) = (out', st') /\
    exists K', withPass K addr pass out next out' K' /\ rep st'.1 K'.
Proof.
  intros Hrep Hne Hc. pose proof (priv_rep db K addr pass Hrep Hne) as Hp. unfold withPass, withAddr, of_res. rewrite bind_eq.
  destruct (hexDecode addr) as [a|] eqn:Hd; [|rewrite Hp; eexists _, _; split; [reflexivity|]; by exists K].
  destruct (K !! a) as [e|] eqn:He; [|rewrite Hp; eexists _, _; split; [reflexivity|]; by exists K].
  pose proof (unlocks_ok _ _ _ _ Hp) as Hr. destruct (BadgerKeybase.GetPrivKey db addr pass) as [sk|err|] eqn:Hg; [|..|done].
  - subst sk. destruct (Hc a e eq_refl He) as (st' & -> & Ho & Hr). eexists _, _. split; [reflexivity|]. exists (next a e.1). split; [|done].
    exists (Ok e.1). split; [exact Hp|]. split; [by rewrite Ho|done].
  - eexists _, _. split; [reflexivity|]. exists K. split; [|done]. eexists. split; [exact Hp|]. done.
Qed.

Lemma collect_ok (l : list (bytes * bytes)) :
  (forall a v, (a, v) ∈ l -> exists e, stores e a v) ->
  exists kps, BadgerKeybase.collectKeyPairs ((fun e => (e.1, inl e.2)) <$> l) = Ok (hexEncode <$> l.*1, kps).
Proof.
  induction l as [|[a v] l IH]; intros Hl; [by exists []|]. destruct (Hl a v) as (e & armour & Hu & -> & _); [apply list_elem_of_here|].
  destruct IH as [kps Hk]; [intros; apply Hl; by apply list_elem_of_further|]. eexists. cbn. rewrite Hu. cbn. by rewrite Hk.
Qed.

Lemma sorted_fst (l : list (bytes * bytes)) : StronglySorted (fun a b => strLt a.1 b.1) l -> StronglySorted strLt l.*1.
Proof. induction 1 as [|a l Hs IH Ha]; cbn; constructor; [done|]. by apply Forall_fmap. Qed.

Lemma list_rep db K : rep db K -> exists ks kps, BadgerKeybase.GetAll db = Ok (hexEncode <$> ks, kps) /\ StronglySorted strLt ks /\ forall a, a ∈ ks <-> is_Some (K !! a).
Proof.
  intros [Ho Hr]. unfold BadgerKeybase.GetAll. rewrite forward_law by done. set (l := prefixEntries "" (content db)).
  assert (forall a v, (a, v) ∈ l <-> content db !! a = Some v) as Hl by (intros a v; unfold l; rewrite IndexerFacts.IndexerFacts.elem_of_prefixEntries; by destruct a; naive_solver).
  destruct (collect_ok l) as [kps Hc].
  { intros a v Hin%Hl. specialize (Hr a). rewrite Hin in Hr. inversion Hr; eauto. }
  exists l.*1, kps. split; [done|]. split; [apply sorted_fst, IndexerFacts.IndexerFacts.prefixEntries_sorted|].
  intros a. rewrite list_elem_of_fmap. split.
  - intros ([a' v] & -> & Hin%Hl). specialize (Hr a'). rewrite Hin in Hr. by inversion Hr.
  - intros [e He]. specialize (Hr a). rewrite He in Hr. inversion Hr as [? v Hst HK Hv|]. exists (a, v). split; [done|]. by apply Hl.
Qed.

Lemma derive_rep db K seed i pass hint rnd : rep db K -> 0 <= i < 2 ^ 32 ->
  let '(out, st') := exec (KDerive seed i pass hint) (db, rnd) in exists K', kspec (KDerive seed i pass hint) K out K' /\ rep st'.1 K'.
Proof.
  intros Hrep Hi. cbn [exec kspec]. unfold BadgerKeybase.DeriveChildFromSeed, DeriveChildFromSeed, onRnd.
  rewrite bind_eq. cbn [snd fst]. pose proof (SlipFacts.derived_account i seed rnd Hi) as Hd. cbv zeta in Hd.
  destruct (i <? 2 ^ 31); [|destruct Hd as [e ->]; cbn; exists K; eauto]. set (sk := ed25519_newKeyFromSeed _) in *.
  destruct Hd as (armour & rnd' & -> & Harm). cbn [negb].
  assert (blen sk = 64) as Hl by (apply seed_key, SlipFacts.slip10_secret_length).
  destruct (bool_decide (pass = "" \/ hint = "")) eqn:Hb.
  - apply bool_decide_eq_true in Hb.
    assert (negb (bool_decide (pass = "")) && negb (bool_decide (hint = "")) = false) as ->
      by (destruct Hb as [->| ->]; rewrite (bool_decide_eq_true_2 ("" = "")) by done; [done|apply andb_false_r]).
    rewrite bind_eq. unfold mret, M_ret. rewrite bind_eq. unfold onStore. cbn [fst snd saveKeyPair BadgerKeybase.badgerBackend].
    destruct (save_rep db K sk "" armour hint Hrep Hl Harm) as (db' & -> & Hr). cbn. by eexists.
  - apply bool_decide_eq_false in Hb. rewrite !(bool_decide_eq_false_2 (_ = "")) by naive_solver. cbn [negb andb].
    rewrite bind_eq. unfold of_res, ExportString, withKey. cbn [PrivKeyArmour newKeyPair]. rewrite bind_eq.
    rewrite (unlocks_same _ _ _ (Harm "")). rewrite bind_eq. unfold CreateNewKeyFromString, Ed25519.PrivateKey_String, of_res. cbn [snd fst].
    rewrite bind_eq, newPrivateKey_text by done. destruct (armoured_made sk pass hint rnd' Hl) as (armour' & rnd'' & -> & Harm').
    cbn [nonNil]. unfold mret, M_ret. rewrite bind_eq. unfold onStore. cbn [fst snd saveKeyPair BadgerKeybase.badgerBackend].
    destruct (save_rep db K sk pass armour' hint Hrep Hl Harm') as (db' & -> & Hr). cbn. by eexists.
Qed.

Lemma update_rep db K addr old new hint rnd : rep db K -> addr ≠ "" ->
  let '(out, st') := exec (KUpdate addr old new hint) (db, rnd) in exists K', kspec (KUpdate addr old new hint) K out K' /\ rep st'.1 K'.
Proof.
  intros Hrep Hok. cbn [exec kspec].
  destruct (with_pass_step db K addr old (fun _ _ => ODone) (fun a sk => <[a := (sk, new)]> K)
    (fun privKey => match hexDecode addr with None => fail hexErrorText | Some addrBz =>
       o ← onRnd (CreateNewKeyFromString (Ed25519.PrivateKey_String privKey) new hint); keyPair ← nonNil o; addrKey ← of_res (GetAddressBytes keyPair);
       if negb (bool_decide (addrKey = addrBz)) then fail "key address does not match previous address" else onStore (BadgerKeybase.save keyPair hint) end) rnd Hrep Hok)
    as (out & st' & He & K' & HK & Hr); [|unfold BadgerKeybase.UpdatePassphrase; rewrite bind_get; cbn [fst]; rewrite He; eauto].
  intros a e Hd He. pose proof (get_rep db K addr a Hrep Hok Hd) as Hg. rewrite He in Hg. destruct Hg as (_ & _ & Ha & Hl & _).
  destruct (armoured_made e.1 new hint rnd Hl) as (armour & rnd' & Hm & Harm). destruct (save_rep db K e.1 new armour hint Hrep Hl Harm) as (db' & Hs & Hr).
  exists (db', rnd'). split; [|split; [done|by rewrite Ha]]. rewrite Hd. unfold onRnd, CreateNewKeyFromString, Ed25519.PrivateKey_String, of_res.
  rewrite bind_eq. cbn [snd fst]. rewrite bind_eq, newPrivateKey_text, Hm by done. cbn [nonNil]. unfold mret, M_ret. rewrite bind_eq.
  cbn [GetAddressBytes newKeyPair kp_PublicKey]. rewrite bind_eq. unfold addrOf, PrivateKey_Address in Ha. rewrite bool_decide_eq_true_2 by done.
  cbn [negb]. unfold onStore. cbn [fst snd]. unfold newKeyPair in Hs |- *. by rewrite Hs.
Qed.

Lemma delete_rep db K addr pass rnd : rep db K -> addr ≠ "" ->
  let '(out, st') := exec (KDelete addr pass) (db, rnd) in exists K', kspec (KDelete addr pass) K out K' /\ rep st'.1 K'.
Proof.
  intros Hrep Hok. cbn [exec kspec].
  destruct (with_pass_step db K addr pass (fun _ _ => ODone) (fun a _ => delete a K)
    (fun _ => match hexDecode addr with None => fail hexErrorText | Some addrBz => onStore (txnDelete addrBz) end) rnd Hrep Hok)
    as (out & st' & He & K' & HK & Hr); [|unfold BadgerKeybase.Delete; rewrite bind_get; cbn [fst]; rewrite He; eauto].
  intros a e Hd He. rewrite Hd. destruct Hrep as [Ho Hrep]. destruct (delete_law db a Ho (decode_nonempty addr a Hok Hd)) as (db' & Hdel & Ho' & Hc).
  exists (db', rnd). unfold onStore. cbn [fst snd]. rewrite Hdel. split; [done|]. split; [done|]. split; [done|].
  intros b. rewrite Hc. destruct (decide (b = a)) as [->|Hne]; [rewrite !lookup_delete_eq; constructor|by rewrite !lookup_delete_ne by done].
Qed.

Lemma exec_refines op db K rnd : rep db K -> op_ok op ->
  let '(out, st') := exec op (db, rnd) in exists K', kspec op K out K' /\ rep st'.1 K'.
Proof.
  intros Hrep Hok. destruct op as [pass hint|priv pass hint|seed i pass hint|addr old new hint|addr pass|addr pass|addr pass msg|addr msg sig|];
    cbn [op_ok] in Hok; cbn [exec kspec].
  - destruct (rand_law Ed25519.SeedSize rnd) as (seed & rnd' & Hs & Hl).
    destruct (created_stored db K (ed25519_newKeyFromSeed seed) pass hint rnd' Hrep (seed_key seed Hl)) as (out & st' & He & K' & HK & Hr).
    assert (BadgerKeybase.Create pass hint (db, rnd) = (o ← onRnd (armoured (ed25519_newKeyFromSeed seed) pass hint); storeNew o hint) (db, rnd')) as ->.
    { unfold BadgerKeybase.Create, Create, onRnd, CreateNewKey, Ed25519.GeneratePrivateKey. rewrite !bind_eq. cbn [snd fst]. by rewrite ?bind_eq, Hs. }
    rewrite He. eauto.
  - unfold BadgerKeybase.ImportFromString, ImportFromString, CreateNewKeyFromString. destruct (NewPrivateKey priv) as [sk|e|] eqn:Hp.
    + destruct (created_stored db K sk pass hint rnd Hrep (newPrivateKey_length _ _ Hp)) as (out & st' & He & K' & HK & Hr).
      change (onRnd (of_res (Ok sk) ≫= (fun privKey => armoured privKey pass hint))) with (onRnd (S := BDB) (armoured sk pass hint)). rewrite He. eauto.
    + exists K. done.
    + exfalso. unfold NewPrivateKey, NewPrivateKeyFromBytes in Hp. destruct (hexDecode priv); [|done]. by case_bool_decide.
  - by apply derive_rep.
  - by apply update_rep.
  - by apply delete_rep.
  - destruct (read_with_pass db K addr pass hexEncode Hrep Hok) as (K' & HK & Hr). exists K'. split; [|done].
    replace (BadgerKeybase.ExportPrivString _ _ _) with (match BadgerKeybase.GetPrivKey db addr pass with Ok sk => Ok (hexEncode sk) | Err e => Err e | Panic => Panic end); [done|].
    unfold BadgerKeybase.GetPrivKey, GetPrivKey, BadgerKeybase.ExportPrivString, ExportPrivString. cbn [fst]. by destruct (getKeyPair db addr).
  - by apply (read_with_pass db K addr pass (fun sk => ed25519_sign sk msg)).
  - exists K. split; [|done]. unfold withAddr, BadgerKeybase.Verify, Verify, GetPubKey. cbn [fst getKeyPair BadgerKeybase.badgerBackend].
    destruct (hexDecode addr) as [a|] eqn:Hd; [|by unfold BadgerKeybase.Get; rewrite Hd].
    pose proof (get_rep db K addr a Hrep Hok Hd) as Hg. destruct (K !! a) as [e|]; [|by rewrite Hg]. by destruct Hg as (armour & -> & _).
  - destruct (list_rep db K Hrep) as (ks & kps & Hl & Hs & Hin). cbn [fst]. rewrite Hl. exists K. cbn. eauto 8.
Qed.

(** ** Runs *)
Fixpoint execs (ops : list kop) (st : BDB * Rnd) : list kout * (BDB * Rnd) :=
  match ops with
  | [] => ([], st)
  | op :: rest => let '(out, st1) := exec op st in let '(outs, st') := execs rest st1 in (out :: outs, st')
  end.
Fixpoint kspecs (ops : list kop) (K : Keys) (outs : list kout) (K' : Keys) : Prop :=
  match ops, outs with
  | [], [] => K' = K
  | op :: rest, out :: outs' => exists K1, kspec op K out K1 /\ kspecs rest K1 outs' K'
  | _, _ => False
  end.

(** C9: The badger keybase is a map from addresses to private keys under passphrases: whatever
    sequence of operations is run on an empty keybase, every result is the one the map gives.
    Importing, creating and deriving a key enters it at its address, a passphrase that
    does not open a key is refused and changes nothing, changing it keeps the key, exported and
    signing keys are the ones entered, and the list is the addresses in order. *)
Theorem keybase_refines_map (ops : list kop) (db : BDB) (rnd : Rnd) :
  opened db -> content db = ∅ -> Forall op_ok ops ->
  let '(outs, st') := execs ops (db, rnd) in exists K', kspecs ops ∅ outs K' /\ rep st'.1 K'.
Proof.
  intros Ho Hc Hok. assert (rep db ∅) as Hrep by (split; [done|]; intros a; rewrite Hc, !lookup_empty; constructor). clear Ho Hc.
  revert db rnd Hrep. generalize (∅ : Keys) as K. induction Hok as [|op ops Hop Hok IH]; intros K db rnd Hrep; [by exists K|].
  cbn [execs]. pose proof (exec_refines op db K rnd Hrep Hop) as He. destruct (exec op (db, rnd)) as [out [db1 rnd1]]. destruct He as (K1 & Hs & Hr).
  specialize (IH K1 db1 rnd1 Hr). destruct (execs ops (db1, rnd1)) as [outs st']. destruct IH as (K' & Hks & Hr'). exists K'. cbn. eauto.
Qed.
End keybase.

(** ** Vault *)

(** The versions of a path; a destroyed version has no data.  Reading gives the latest version,
    listing the paths that have versions, destroyed or not. *)
Class VaultLaws (V : VaultClient) := {
  versions : VC -> string -> gmap string (list (option (gmap string string)));      (* of a mount *)
  kvGet_law : forall c m p, match versions c m !! p with
    | Some l => kvGet c m p = inl (Some (default ∅ (default None (last l))))
    | None => exists e, kvGet c m p = inr e end;
  kvVersions_law : forall c m p l, versions c m !! p = Some l -> exists ids, kvVersions c m p = inl ids /\ length ids = length l;
  kvDestroy_law : forall c m p ids l, versions c m !! p = Some l -> kvVersions c m p = inl ids ->
    exists c', kvDestroy m p ids c = (Ok tt, c') /\ versions c' m = <[p := (fun _ => None) <$> l]> (versions c m);
  list_law : forall c m, versions c m ≠ ∅ -> exists keys, logicalList c (m +:+ "/metadata") = inl (Some keys) /\ forall p, p ∈ keys <-> is_Some (versions c m !! p);
}.

Section vault.
Context `{EN : Entropy} `{KP : KeyPrims} `{CP : CryptoPrims} `{VL : VaultLaws}.
Import VaultKeybase.

Lemma get_each_ok vk keys r : getEach vk keys = Ok r -> forall k, k ∈ keys -> exists kp, Get vk k = Ok kp.
Proof.
  revert r. induction keys as [|k keys IH]; intros r Hr k' Hin; [by apply not_elem_of_nil in Hin|]. cbn [getEach] in Hr.
  destruct (Get vk k) as [kp| |] eqn:Hg; [|done..]. destruct (getEach vk keys) as [[as_ kps]| |]; [|done..].
  apply elem_of_cons in Hin as [->|Hin]; eauto.
Qed.

(** Deleting a key from Vault destroys the versions of its secret but leaves its metadata: the
    address is still listed, and listing the keys fails from then on. *)
Theorem vault_delete_breaks_list (vk : vaultKeybase) (rnd : Rnd) (addr pass : string) st' :
  Delete addr pass (vk, rnd) = (Ok tt, st') -> forall r, GetAll st'.1 ≠ Ok r.
Proof.
  intros Hd r Hall. unfold Delete in Hd. rewrite bind_get in Hd. apply bind_ok in Hd as (sk & s1 & Hk & Hd). apply of_res_ok in Hk as [Hk <-]. cbn [fst] in *.
  apply bind_ok in Hd as (ids & s1 & Hv & Hd). apply of_res_ok in Hv as [Hv <-]. unfold GetPrivKey, KeyOps.GetPrivKey in Hk. cbn [getKeyPair vaultBackend] in Hk.
  unfold Get in Hk. pose proof (kvGet_law (client vk) (mount vk) addr) as Hg.
  destruct (versions (client vk) (mount vk) !! addr) as [l|] eqn:Hl; [|destruct Hg as [e Hg]; by rewrite Hg in Hk].
  destruct (kvVersions (client vk) (mount vk) addr) as [ids'|] eqn:Hv'; [|done]. cbn in Hv. injection Hv as ->.
  destruct (kvDestroy_law _ _ _ _ _ Hl Hv') as (c' & Hdes & Hc'). unfold onStore, onClient in Hd. cbn [fst snd] in Hd. rewrite Hdes in Hd. injection Hd as <-. cbn [fst] in Hall.
  unfold GetAll in Hall. cbn [client mount] in Hall. destruct (list_law c' (mount vk)) as (keys & Hkeys & Hin); [rewrite Hc'; apply insert_non_empty|]. rewrite Hkeys in Hall.
  destruct (get_each_ok _ _ _ Hall addr) as [kp Hget]; [apply Hin; rewrite Hc', lookup_insert_eq; eauto|].
  unfold Get in Hget. cbn [client mount] in Hget. pose proof (kvGet_law c' (mount vk) addr) as Hg'. rewrite Hc', lookup_insert_eq in Hg'. rewrite Hg' in Hget.
  assert (default None (last ((fun _ : option (gmap string string) => @None (gmap string string)) <$> l)) = None) as Hn by (rewrite fmap_last; by destruct (last l)).
  by rewrite Hn in Hget.
Qed.
End vault.

(** ** A concrete keybase *)
Module ToyKeys.
(** A pair as a text: the first component in hexadecimal, a slash, the second. *)
Definition slash : Ascii.ascii := Ascii.ascii_of_nat 47.
Definition pair2 (a b : string) : string := hexEncode a +:+ String slash b.
Fixpoint cut (s : string) : option (string * string) :=
  match s with
  | "" => None
  | String c s' => if Ascii.eqb c slash then Some ("", s') else match cut s' with Some (p, q) => Some (String c p, q) | None => None end
  end.
Definition unpair (s : string) : option (string * string) :=
  match cut s with Some (h, b) => match hexDecode h with Some a => Some (a, b) | None => None end | None => None end.

Lemma hexDigit_slash n : Ascii.eqb (hexDigit n) slash = false.
Proof. do 16 (destruct n as [|n]; [reflexivity|]). reflexivity. Qed.
Lemma cut_hex a b : cut (hexEncode a +:+ String slash b) = Some (hexEncode a, b).
Proof.
  induction a as [|c a IH]; [done|]. cbn [hexEncode]. set (x := hexDigit _). set (y := hexDigit _).
  change (cut (String x (String y (hexEncode a +:+ String slash b))) = Some (String x (String y (hexEncode a)), b)).
  cbn [cut]. unfold x, y. by rewrite !hexDigit_slash, IH.
Qed.
Lemma unpair_pair2 a b : unpair (pair2 a b) = Some (a, b).
Proof. unfold unpair, pair2. by rewrite cut_hex, hex_decode_encode. Qed.
Lemma pair2_nonempty a b : pair2 a b ≠ "".
Proof. by destruct a. Qed.

(** Numbered random bytes. *)
Definition entropy : Entropy := {| Rnd := Z; randRead n := fun s => (Ok (ToyCrypto.pad n (bigIntText s)), s + 1) |}.
Definition prims : KeyPrims := {|
  scrypt_Key pass salt _ _ _ _ := inl (pass +:+ salt);
  secretbox_Seal m nonce k := pair2 k m;
  secretbox_Open b nonce k := match unpair b with Some (k', m) => if bool_decide (k' = k) then Some m else None | None => None end;
  hmac_sha512 k d := ToyCrypto.pad 64 (k +:+ d);
  armour_Marshal ak := inl (pair2 (Kdf ak) (pair2 (Salt ak) (CipherText ak)));
  armour_Unmarshal s := match unpair s with
    | Some (a, r) => match unpair r with Some (b, d) => inl {| Kdf := a; Salt := b; Hint := ""; CipherText := d |} | None => inr "json" end
    | None => inr "json"
    end;
  keyPair_GobEncode kp := match kp_PublicKey kp with Some pk => inl (pair2 pk (PrivKeyArmour kp)) | None => inr "gob" end;
  keyPair_GobDecode s := match unpair s with Some (a, b) => inl {| kp_PublicKey := Some a; PrivKeyArmour := b |} | None => inr "gob" end;
  keyPair_JSONEncode a b := match a with Some a => inl (pair2 a b) | None => inr "json" end;
  keyPair_JSONFields s := match unpair s with Some p => inl p | None => inr "json" end;
  json_String s := inl s;
  json_OfString s := s;
|}.

#[local] Existing Instances entropy prims ToyCrypto.prims ToyCrypto.laws.
#[local] Instance entropyLaws : EntropyLaws entropy.
Proof. constructor. intros n s. do 2 eexists. split; [reflexivity|apply ToyCrypto.pad_length]. Qed.
#[local] Instance keyLaws : KeyLaws prims.
Proof.
  constructor.
  - intros. by eexists.
  - intros m nonce k. cbn [secretbox_Open secretbox_Seal prims]. rewrite unpair_pair2. by rewrite bool_decide_eq_true_2.
  - intros m nonce k k' Hk. cbn [secretbox_Open secretbox_Seal prims]. rewrite unpair_pair2. by rewrite bool_decide_eq_false_2.
  - intros k d. apply ToyCrypto.pad_length.
  - intros [a b c d] _ _ _. exists (pair2 a (pair2 b d)), "". split; [reflexivity|]. split; [apply pair2_nonempty|].
    cbn [armour_Unmarshal prims Kdf Salt Hint CipherText]. by rewrite !unpair_pair2.
  - intros pk armour. eexists. split; [reflexivity|]. cbn [keyPair_GobDecode prims kp_PublicKey PrivKeyArmour]. by rewrite unpair_pair2.
Qed.

Definition key : bytes := ToyCrypto.pad 64 "k".
Definition addr : string := hexEncode (PrivateKey_Address key).
Definition script : list kop := [KImport (hexEncode key) "pw" "h"; KExport addr "no"; KUpdate addr "pw" "new" "h"; KExport addr "new"; KDelete addr "new"; KList].
Example script_runs : (execs (B := ToyBadger.badger) script (∅, 0)).1 =
  [OPub (ToyCrypto.pad 32 "k"); OErr ErrorWrongPassphrase; ODone; OText (hexEncode key); ODone; OList []].
Proof. vm_compute. reflexivity. Qed.
End ToyKeys.

Import ToyKeys.
#[local] Existing Instances entropy prims ToyCrypto.prims ToyCrypto.laws entropyLaws keyLaws.

Lemma keybase_refines_map_witness :
  let '(outs, st') := execs (B := ToyBadger.badger) script (∅, 0) in exists K', kspecs script ∅ outs K' /\ rep (BL := ToyBadger.badgerLaws) st'.1 K'.
Proof.
  assert (forall a kp v, String.length a = 20%nat -> Marshal kp = inl v -> storable (BadgerLaws := ToyBadger.badgerLaws) a v) as Hfits
    by (intros a kp v Ha _ He; by rewrite He in Ha).
  assert (Forall op_ok script) as Hok by (repeat constructor; by vm_compute).
  exact (keybase_refines_map (BL := ToyBadger.badgerLaws) Hfits script (∅ : gmap bytes bytes) 0 I eq_refl Hok).
Defined.

Lemma account_key_derived_witness :
  exists kp s', Slip.DeriveChild (Slip.PoktAccountPath 7) "seed" 0 = (Ok kp, s') /\
    kp_PublicKey kp = Some (ed25519_public (ed25519_newKeyFromSeed (SlipFacts.slip10 "seed" [44; 635; 7]).1)) /\
    armours (PrivKeyArmour kp) (ed25519_newKeyFromSeed (SlipFacts.slip10 "seed" [44; 635; 7]).1) "".
Proof. exact (SlipFacts.account_key_derived 7 "seed" 0 ltac:(lia)). Defined.
End KeybaseFacts.
