(* ===== verification/Ibc.v ===== *)
(** The IBC module: identifiers and store keys of ICS-24
    (src/ibc/host/identifiers.go, keys.go, keys_ics02.go ... keys_ics05.go, prefix.go), conversion
    of sparse Merkle proofs to ICS-23 (src/ibc/store/proofs_ics23.go) and the module itself
    (src/ibc/module.go, host.go).

    Go iterates over the runes of a text: [runes] decodes UTF-8 as the language does.  The
    pseudo-random source, the sparse Merkle tree and the ICS-23 verifier are parameters. *)

From S2P Require Import Prelude GoStd Errors Crypto.
#[local] Open Scope string_scope.
#[local] Open Scope Z_scope.

(** ** Runes *)
Module Utf8.
Definition code (c : Ascii.ascii) : Z := Z.of_nat (Ascii.nat_of_ascii c).
Definition RuneError : Z := 65533.
Definition cont (c : Ascii.ascii) : bool := (128 <=? code c) && (code c <? 192).
Definition low6 (c : Ascii.ascii) : Z := code c mod 64.

(** The ranges of the second byte that exclude overlong forms, surrogates and values over
    U+10FFFF. *)
Definition second3 (a b : Ascii.ascii) : bool :=
  cont b && (if code a =? 224 then 160 <=? code b else if code a =? 237 then code b <? 160 else true).
Definition second4 (a b : Ascii.ascii) : bool :=
  cont b && (if code a =? 240 then 144 <=? code b else if code a =? 244 then code b <? 144 else true).

(** [for _, c := range s]: an invalid byte is one [RuneError]. *)
Fixpoint runes (s : string) : list Z :=
  match s with
  | "" => []
  | String a s1 =>
      if code a <? 128 then code a :: runes s1
      else match s1 with
      | "" => [RuneError]
      | String b s2 =>
          if (194 <=? code a) && (code a <? 224) && cont b then (code a mod 32 * 64 + low6 b) :: runes s2
          else match s2 with
          | "" => RuneError :: runes s1
          | String c s3 =>
              if (224 <=? code a) && (code a <? 240) && second3 a b && cont c
              then (code a mod 16 * 4096 + low6 b * 64 + low6 c) :: runes s3
              else match s3 with
              | "" => RuneError :: runes s1
              | String d s4 =>
                  if (240 <=? code a) && (code a <? 245) && second4 a b && cont c && cont d
                  then (code a mod 8 * 262144 + low6 b * 4096 + low6 c * 64 + low6 d) :: runes s4
                  else RuneError :: runes s1
              end
          end
      end
  end.

(** [string(c)] of a rune. *)
Definition byte (z : Z) : Ascii.ascii := Ascii.ascii_of_nat (Z.to_nat z).
Definition ofRune (r : Z) : string :=
  if r <? 128 then String (byte r) ""
  else if r <? 2048 then String (byte (192 + r / 64)) (String (byte (128 + r mod 64)) "")
  else if r <? 65536 then String (byte (224 + r / 4096)) (String (byte (128 + r / 64 mod 64)) (String (byte (128 + r mod 64)) ""))
  else String (byte (240 + r / 262144)) (String (byte (128 + r / 4096 mod 64)) (String (byte (128 + r / 64 mod 64)) (String (byte (128 + r mod 64)) ""))).

(** [unicode.IsSpace]. *)
Definition isSpace (r : Z) : bool :=
  ((9 <=? r) && (r <=? 13)) || (r =? 32) || (r =? 133) || (r =? 160) || (r =? 5760) || ((8192 <=? r) && (r <=? 8202)) ||
  (r =? 8232) || (r =? 8233) || (r =? 8239) || (r =? 8287) || (r =? 12288).
End Utf8.

Module IbcHost.
Import Utf8.

(** ** Identifiers *)
Definition identifierPrefix : string := "#".
Definition identifierCharset : string := "abcdefghijklmnopqrstuvwxyzABCDEFGHIJKLMNOPQRSTUVWXYZ0123456789._+-#[]<>".
Definition invalidIdChars : string := "/".

Definition defaultMinIdLength : Z := 32.
Definition defaultMaxIdLength : Z := 64.
Definition minClientIdLength : Z := 9.
Definition minConnectionIdLength : Z := 10.
Definition minChannelIdLength : Z := 8.
Definition minPortIdLength : Z := 2.
Definition maxPortIdLength : Z := 128.

Definition invalidIdMap : list Z := runes invalidIdChars.
Definition validIdMap : list Z := runes identifierCharset.

(** [strings.TrimSpace(id) == ""]: every rune is a space. *)
Definition isBlank (id : string) : bool := forallb isSpace (runes id).

Definition basicValidation (id : string) (minLength maxLength : Z) : option Error :=
  if isBlank id then Some (ErrIBCInvalidID id "cannot be blank")
  else
    let length := blen id in
    if (length <? minLength) || (maxLength <? length) then
      Some (ErrIBCInvalidID id ("length (" +:+ bigIntText length +:+ ") must be between " +:+ bigIntText minLength +:+ " and " +:+ bigIntText maxLength))
    else if negb (String.prefix identifierPrefix id) then Some (ErrIBCInvalidID id ("must start with '" +:+ identifierPrefix +:+ "'"))
    else match find (fun c => existsb (Z.eqb c) invalidIdMap) (runes id) with
         | Some c => Some (ErrIBCInvalidID id ("cannot contain '" +:+ ofRune c +:+ "'"))
         | None =>
             match find (fun c => negb (existsb (Z.eqb c) validIdMap)) (runes id) with
             | Some c => Some (ErrIBCInvalidID id ("contains invalid character '" +:+ ofRune c +:+ "'"))
             | None => None
             end
         end.

Definition ValidateClientID (id : string) : option Error := basicValidation id minClientIdLength defaultMaxIdLength.
Definition ValidateConnectionID (id : string) : option Error := basicValidation id minConnectionIdLength defaultMaxIdLength.
Definition ValidateChannelID (id : string) : option Error := basicValidation id minChannelIdLength defaultMaxIdLength.
Definition ValidatePortID (id : string) : option Error := basicValidation id minPortIdLength maxPortIdLength.

(** [rand.New(rand.NewSource(seed)).Intn]: the result of the call with a number, for a bound. *)
Class RandIntn := { Intn : Z -> nat -> Z -> Z }.
Class RandIntnLaws (R : RandIntn) : Prop := { Intn_range : forall seed i n, 0 < n -> 0 <= Intn seed i n < n }.

Section generate.
Context `{RI : RandIntn}.

Fixpoint randomChars (seed : Z) (i size : nat) : string :=
  match size with
  | O => ""
  | S size' => String (default Ascii.zero (String.get (Z.to_nat (Intn seed i (blen identifierCharset))) identifierCharset)) (randomChars seed (S i) size')
  end.

(** [Intn] panics on a bound that is not positive, [make] on a negative size. *)
Definition generateNewIdentifierWithSeed (min max seed : Z) : res string string :=
  let localMin := defaultMinIdLength - min in
  let bound := max - blen identifierPrefix - localMin in
  if bound <=? 0 then Panic
  else let size := Intn seed 0 bound + localMin in
       if size <? 0 then Panic else Ok (identifierPrefix +:+ randomChars seed 1 (Z.to_nat size)).

(** [now] is [time.Now().UnixNano()]. *)
Definition generateNewIdentifier (now min max : Z) : res string string := generateNewIdentifierWithSeed min max now.
Definition GenerateClientIdentifier (now : Z) := generateNewIdentifier now minClientIdLength defaultMaxIdLength.
Definition GenerateConnectionIdentifier (now : Z) := generateNewIdentifier now minConnectionIdLength defaultMaxIdLength.
Definition GenerateChannelIdentifier (now : Z) := generateNewIdentifier now minChannelIdLength defaultMaxIdLength.
Definition GeneratePortIdentifier (now : Z) := generateNewIdentifier now minPortIdLength maxPortIdLength.
End generate.

(** ** Store keys *)
Definition KeyClientStorePrefix : string := "clients".
Definition KeyClientState : string := "clientState".
Definition KeyConsensusStatePrefix : string := "consensusStates".
Definition KeyConnectionPrefix : string := "connections".
Definition KeyChannelEndPrefix : string := "channelEnds".
Definition KeyChannelPrefix : string := "channels".
Definition KeyPortPrefix : string := "ports".
Definition KeySequencePrefix : string := "sequences".
Definition KeyChannelCapabilityPrefix : string := "capabilities".
Definition KeyNextSeqSendPrefix : string := "nextSequenceSend".
Definition KeyNextSeqRecvPrefix : string := "nextSequenceRecv".
Definition KeyNextSeqAckPrefix : string := "nextSequenceAck".
Definition KeyPacketCommitmentPrefix : string := "commitments".
Definition KeyPacketAckPrefix : string := "acks".
Definition KeyPacketReceiptPrefix : string := "receipts".

(** [strings.TrimPrefix]. *)
Definition TrimPrefix (s prefix : string) : string :=
  if String.prefix prefix s then String.substring (String.length prefix) (String.length s - String.length prefix) s else s.

Definition fullClientPath (clientID key : string) : string := KeyClientStorePrefix +:+ "/" +:+ clientID +:+ "/" +:+ key.
Definition clientPath (clientID key : string) : string := TrimPrefix (fullClientPath clientID key) (KeyClientStorePrefix +:+ "/").
Definition fullClientKey (clientID key : string) : bytes := fullClientPath clientID key.

(** ICS-02. *)
Definition FullClientStateKey (clientID : string) : bytes := fullClientKey clientID KeyClientState.
Definition ClientStatePath (clientID : string) : string := clientPath clientID KeyClientState.
Definition consensusStatePath (height : Z) : string := KeyConsensusStatePrefix +:+ "/" +:+ bigIntText height.
Definition fullConsensusStatePath (clientID : string) (height : Z) : string := fullClientPath clientID (consensusStatePath height).
Definition FullConsensusStateKey (clientID : string) (height : Z) : bytes := fullConsensusStatePath clientID height.
Definition ConsensusStatePath (clientID : string) (height : Z) : string := clientPath clientID (consensusStatePath height).

(** ICS-03. *)
Definition clientConnectionsPath (clientID : string) : string := fullClientPath clientID KeyConnectionPrefix.
Definition ClientConnectionsKey (clientID : string) : bytes := clientConnectionsPath clientID.
Definition ClientConnectionPath (clientID : string) : string := clientPath clientID KeyConnectionPrefix.
Definition connectionPath (connectionID : string) : string := KeyConnectionPrefix +:+ "/" +:+ connectionID.
Definition ConnectionKey (connectionID : string) : bytes := connectionPath connectionID.
Definition ConnectionPath (connectionID : string) : string := connectionID.

(** ICS-04. *)
Definition channelPath (portID channelID : string) : string := KeyPortPrefix +:+ "/" +:+ portID +:+ "/" +:+ KeyChannelPrefix +:+ "/" +:+ channelID.
Definition fullChannelPath (portID channelID : string) : string := KeyChannelEndPrefix +:+ "/" +:+ channelPath portID channelID.
Definition ChannelKey (portID channelID : string) : bytes := fullChannelPath portID channelID.
Definition ChannelPath (portID channelID : string) : string := channelPath portID channelID.
Definition channelCapabilityPath (portID channelID : string) : string := KeyChannelCapabilityPrefix +:+ "/" +:+ channelPath portID channelID.
Definition ChannelCapabilityKey (portID channelID : string) : bytes := channelCapabilityPath portID channelID.
Definition ChannelCapabilityPath (portID channelID : string) : string := TrimPrefix (channelCapabilityPath portID channelID) (KeyChannelCapabilityPrefix +:+ "/").
Definition nextSequenceSendPath (portID channelID : string) : string := KeyNextSeqSendPrefix +:+ "/" +:+ channelPath portID channelID.
Definition NextSequenceSendKey (portID channelID : string) : bytes := nextSequenceSendPath portID channelID.
Definition NextSequenceSendPath (portID channelID : string) : string := channelPath portID channelID.
Definition nextSequenceRecvPath (portID channelID : string) : string := KeyNextSeqRecvPrefix +:+ "/" +:+ channelPath portID channelID.
Definition NextSequenceRecvKey (portID channelID : string) : bytes := nextSequenceRecvPath portID channelID.
Definition NextSequenceRecvPath (portID channelID : string) : string := channelPath portID channelID.
Definition nextSequenceAckPath (portID channelID : string) : string := KeyNextSeqAckPrefix +:+ "/" +:+ channelPath portID channelID.
Definition NextSequenceAckKey (portID channelID : string) : bytes := nextSequenceAckPath portID channelID.
Definition NextSequenceAckPath (portID channelID : string) : string := channelPath portID channelID.
Definition packetCommitmentPrefixPath (portID channelID : string) : string := KeyPacketCommitmentPrefix +:+ "/" +:+ channelPath portID channelID +:+ "/" +:+ KeySequencePrefix.
Definition packetCommitmentPath (portID channelID : string) (sequence : Z) : string := packetCommitmentPrefixPath portID channelID +:+ "/" +:+ bigIntText sequence.
Definition PacketCommitmentKey (portID channelID : string) (sequence : Z) : bytes := packetCommitmentPath portID channelID sequence.
Definition PacketCommitmentPath (portID channelID : string) (sequence : Z) : string := TrimPrefix (packetCommitmentPath portID channelID sequence) (KeyPacketCommitmentPrefix +:+ "/").
Definition packetAcknowledgementPrefixPath (portID channelID : string) : string := KeyPacketAckPrefix +:+ "/" +:+ channelPath portID channelID +:+ "/" +:+ KeySequencePrefix.
Definition packetAcknowledgementPath (portID channelID : string) (sequence : Z) : string := packetAcknowledgementPrefixPath portID channelID +:+ "/" +:+ bigIntText sequence.
Definition PacketAcknowledgementKey (portID channelID : string) (sequence : Z) : bytes := packetAcknowledgementPath portID channelID sequence.
Definition PacketAcknowledgementPath (portID channelID : string) (sequence : Z) : string := TrimPrefix (packetAcknowledgementPath portID channelID sequence) (KeyPacketAckPrefix +:+ "/").
Definition sequencePath (sequence : Z) : string := KeySequencePrefix +:+ "/" +:+ bigIntText sequence.
Definition packetReceiptPath (portID channelID : string) (sequence : Z) : string := KeyPacketReceiptPrefix +:+ "/" +:+ channelPath portID channelID +:+ "/" +:+ sequencePath sequence.
Definition PacketReceiptKey (portID channelID : string) (sequence : Z) : bytes := packetReceiptPath portID channelID sequence.
Definition PacketReceiptPath (portID channelID : string) (sequence : Z) : string := TrimPrefix (packetReceiptPath portID channelID sequence) (KeyPacketReceiptPrefix +:+ "/").

(** ICS-05. *)
Definition portPath (portID : string) : string := KeyPortPrefix +:+ "/" +:+ portID.
Definition PortKey (portID : string) : bytes := portPath portID.
Definition PortPath (portID : string) : string := portID.

(** *** Commitment paths *)
Definition delimiter : string := "/".
Definition ApplyPrefix (prefix path : bytes) : bytes := prefix +:+ delimiter +:+ path.
(** The slice panics on a path shorter than the prefix and its delimiter. *)
Definition RemovePrefix (prefix path : bytes) : res string string :=
  let n := (String.length prefix + String.length delimiter)%nat in
  if (String.length path <? n)%nat then Panic else Ok (String.substring n (String.length path - n) path).
End IbcHost.

(** ** Proofs *)
Module IbcStore.
Definition left : Z := 0.
Definition hashSize : nat := 32.

Inductive HashOp := NO_HASH | SHA256.
Record LeafOp := { leaf_Hash : HashOp; PrehashKey : HashOp; PrehashValue : HashOp; leaf_Prefix : bytes }.      (* without a length prefix *)
Record InnerOp := { inner_Hash : HashOp; inner_Prefix : bytes; inner_Suffix : bytes }.
Record InnerSpec := { ChildOrder : list Z; ChildSize : nat; MinPrefixLength : Z; MaxPrefixLength : Z; EmptyChild : bytes; spec_Hash : HashOp }.
Record ProofSpec := { LeafSpec : LeafOp; ps_InnerSpec : InnerSpec; MaxDepth : Z; PrehashKeyBeforeComparison : bool }.
Inductive CommitmentProof :=
| Exist (Key Value : bytes) (Leaf : LeafOp) (Path : list InnerOp)
| Exclusion (Key ActualPath ActualValueHash : bytes) (Leaf : LeafOp) (Path : list InnerOp).

Fixpoint zeros (n : nat) : bytes := match n with O => "" | S n' => String Ascii.zero (zeros n') end.
Definition zeroByte : bytes := String Ascii.zero "".
Definition oneByte : bytes := String (Ascii.ascii_of_nat 1) "".

Definition smtSpec : ProofSpec := {|
  LeafSpec := {| leaf_Hash := SHA256; PrehashKey := SHA256; PrehashValue := NO_HASH; leaf_Prefix := zeroByte |};
  ps_InnerSpec := {| ChildOrder := [0; 1]; ChildSize := hashSize; MinPrefixLength := 1; MaxPrefixLength := 1; EmptyChild := zeros hashSize; spec_Hash := SHA256 |};
  MaxDepth := 256; PrehashKeyBeforeComparison := true |}.
Definition innerPrefix : bytes := oneByte.
Definition defaultValue : bytes := zeros hashSize.

(** The tree of pokt-network/smt and the verifier of cosmos/ics23. *)
Record SparseMerkleProof := { SideNodes : list bytes; NonMembershipLeafData : option bytes }.
Class Smt := {
  Tree : Type;
  Prove : Tree -> bytes -> option SparseMerkleProof + string;
  GetPathBit : bytes -> Z -> Z;
  ics23_VerifyMembership : ProofSpec -> bytes -> CommitmentProof -> bytes -> bytes -> bool;
  ics23_VerifyNonMembership : ProofSpec -> bytes -> CommitmentProof -> bytes -> bool;
}.

Section proofs.
Context `{ST : Smt} `{CP : CryptoPrims}.

Definition VerifyMembership (root : bytes) (proof : CommitmentProof) (key value : bytes) : bool := ics23_VerifyMembership smtSpec root proof key value.
Definition VerifyNonMembership (root : bytes) (proof : CommitmentProof) (key : bytes) : bool := ics23_VerifyNonMembership smtSpec root proof key.

Definition isLeft (path : bytes) (i : Z) : bool := GetPathBit path i =? left.

(** [i] is the index of the first side node of the list. *)
Fixpoint stepsFrom (sideNodes : list bytes) (path : bytes) (n i : Z) : list InnerOp :=
  match sideNodes with
  | [] => []
  | side :: rest =>
      (if isLeft path (n - 1 - i) then {| inner_Hash := SHA256; inner_Prefix := innerPrefix; inner_Suffix := side |}
       else {| inner_Hash := SHA256; inner_Prefix := innerPrefix +:+ side; inner_Suffix := "" |}) :: stepsFrom rest path n (i + 1)
  end.
Definition convertSideNodesToSteps (sideNodes : list bytes) (path : bytes) : list InnerOp := stepsFrom sideNodes path (Z.of_nat (length sideNodes)) 0.

Definition convertSMPToExistenceProof (proof : SparseMerkleProof) (key value : bytes) : CommitmentProof :=
  Exist key value (LeafSpec smtSpec) (convertSideNodesToSteps (SideNodes proof) (sha256 key)).

Definition exclusionLeaf : LeafOp := {| leaf_Hash := SHA256; PrehashKey := NO_HASH; PrehashValue := NO_HASH; leaf_Prefix := zeroByte |}.

(** The slices of the leaf data panic if it is shorter than a prefix and a hash. *)
Definition convertSMPToExclusionProof (proof : SparseMerkleProof) (key : bytes) : res string CommitmentProof :=
  let path := sha256 key in
  let steps := convertSideNodesToSteps (SideNodes proof) path in
  match NonMembershipLeafData proof with
  | None => Ok (Exclusion key path defaultValue exclusionLeaf steps)
  | Some data =>
      if (String.length data <? 1 + hashSize)%nat then Panic
      else Ok (Exclusion key (String.substring 1 hashSize data) (String.substring (1 + hashSize) (String.length data - (1 + hashSize)) data) exclusionLeaf steps)
  end.

Definition createMembershipProof (tree : Tree) (key value : bytes) : res Error CommitmentProof :=
  match Prove tree key with
  | inr e => Err (ErrCreatingProof e)
  | inl None => Panic                                  (* the text of a nil error *)
  | inl (Some proof) => Ok (convertSMPToExistenceProof proof key value)
  end.

Definition createNonMembershipProof (tree : Tree) (key : bytes) : res Error CommitmentProof :=
  match Prove tree key with
  | inr e => Err (ErrCreatingProof e)
  | inl None => Panic
  | inl (Some proof) => match convertSMPToExclusionProof proof key with Ok p => Ok p | Err _ | Panic => Panic end
  end.
End proofs.
End IbcStore.

(** ** The module *)
Module IbcModule.
Record ibcModule := { Enabled : bool; host : bool }.          (* a host exists *)

Definition newHost : M ibcModule Error unit := fun m =>
  if host m then (Err ErrHostAlreadyExists, m) else (Ok tt, {| Enabled := Enabled m; host := true |}).

(** Only a validator is a host. *)
Definition Create (enabled isValidator : bool) : res Error unit * ibcModule :=
  let m := {| Enabled := enabled; host := false |} in
  if isValidator && enabled then newHost m else (Ok tt, m).

Definition GetHost (m : ibcModule) : option unit := if host m then Some tt else None.
Definition Start : M ibcModule Error unit := mret tt.
Definition Stop : M ibcModule Error unit := mret tt.
Definition GetTimestamp (unixNow : Z) : Z := u64 unixNow.
End IbcModule.
