(* ===== verification/IbcFacts.v ===== *)
(** IBC: which identifiers are valid, generated identifiers are valid, different objects have
    different store keys, keys are prefixed paths, and converted proofs hash the right children. *)

From Stdlib Require Import Ascii.
From S2P Require Import Prelude GoStd Errors Crypto CoreTypes Sql Messages Persistence Keys KvStore Indexer IndexerFacts Ibc.
#[local] Open Scope string_scope.
#[local] Open Scope Z_scope.

Module IbcFacts.
Import Utf8 IbcHost.
Import Slip SlipFacts.

(** ** Runes of ASCII texts *)
Abbreviation chars := String.list_ascii_of_string.

Lemma code_range c : 0 <= code c < 256.
Proof. unfold code. pose proof (Ascii.nat_ascii_bounded c). lia. Qed.

(** A rune that is not ASCII stands for bytes that are not. *)
Lemma runes_ascii s : Forall (fun r => r < 128) (runes s) -> runes s = code <$> chars s.
Proof.
  induction s as [|a s1 IH]; intros Hr; [done|]. cbn [runes chars String.list_ascii_of_string] in *. rewrite fmap_cons.
  destruct (Z.ltb_spec (code a) 128) as [Ha|Ha]; [apply Forall_cons in Hr as [_ Hr]; by rewrite IH|exfalso].
  assert (forall l, ¬ Forall (fun r => r < 128) (RuneError :: l)) as Herr by (intros l [Hl _]%Forall_cons; unfold RuneError in Hl; lia).
  destruct s1 as [|b s2]; [by apply Herr in Hr|]. pose proof (code_range a). 
  destruct ((194 <=? code a) && (code a <? 224) && cont b) eqn:H2.
  { apply Forall_cons in Hr as [Hr _]. unfold low6 in Hr. pose proof (Z.mod_pos_bound (code b) 64 ltac:(lia)).
    apply andb_true_iff in H2 as [[?%Z.leb_le ?%Z.ltb_lt]%andb_true_iff _].
    assert (2 <= code a mod 32); [|lia]. replace (code a) with (code a - 192 + 6 * 32) by lia. rewrite Z.mod_add by lia. rewrite Z.mod_small; lia. }
  destruct s2 as [|c s3]; [by apply Herr in Hr|]. destruct ((224 <=? code a) && (code a <? 240) && second3 a b && cont c) eqn:H3.
  { apply Forall_cons in Hr as [Hr _]. unfold low6 in Hr. pose proof (Z.mod_pos_bound (code b) 64 ltac:(lia)). pose proof (Z.mod_pos_bound (code c) 64 ltac:(lia)).
    apply andb_true_iff in H3 as [[[?%Z.leb_le ?%Z.ltb_lt]%andb_true_iff Hs]%andb_true_iff _]. apply andb_true_iff in Hs as [[?%Z.leb_le ?%Z.ltb_lt]%andb_true_iff Hs].
    destruct (Z.eqb_spec (code a) 224) as [He|Hne]; [apply Z.leb_le in Hs|].
    - assert (32 <= code b mod 64); [|rewrite He in Hr; change (224 mod 16) with 0 in Hr; lia]. replace (code b) with (code b - 128 + 2 * 64) by lia. rewrite Z.mod_add by lia. rewrite Z.mod_small; lia.
    - assert (1 <= code a mod 16); [|lia]. replace (code a) with (code a - 224 + 14 * 16) by lia. rewrite Z.mod_add by lia. rewrite Z.mod_small; lia. }
  destruct s3 as [|d s4]; [by apply Herr in Hr|]. destruct ((240 <=? code a) && (code a <? 245) && second4 a b && cont c && cont d) eqn:H4; [|by apply Herr in Hr].
  apply Forall_cons in Hr as [Hr _]. unfold low6 in Hr. pose proof (Z.mod_pos_bound (code b) 64 ltac:(lia)). pose proof (Z.mod_pos_bound (code c) 64 ltac:(lia)). pose proof (Z.mod_pos_bound (code d) 64 ltac:(lia)).
  apply andb_true_iff in H4 as [[[[?%Z.leb_le ?%Z.ltb_lt]%andb_true_iff Hs]%andb_true_iff _]%andb_true_iff _]. apply andb_true_iff in Hs as [[?%Z.leb_le ?%Z.ltb_lt]%andb_true_iff Hs].
  destruct (Z.eqb_spec (code a) 240) as [He|Hne]; [apply Z.leb_le in Hs|].
  - assert (16 <= code b mod 64); [|rewrite He in Hr; change (240 mod 8) with 0 in Hr; lia]. replace (code b) with (code b - 128 + 2 * 64) by lia. rewrite Z.mod_add by lia. rewrite Z.mod_small; lia.
  - assert (1 <= code a mod 8); [|lia]. replace (code a) with (code a - 240 + 30 * 8) by lia. rewrite Z.mod_add by lia. rewrite Z.mod_small; lia.
Qed.

Lemma ascii_runes s : Forall (fun c => code c < 128) (chars s) -> runes s = code <$> chars s.
Proof.
  induction s as [|a s IH]; [done|]. cbn [runes chars String.list_ascii_of_string]. intros [Ha Hs]%Forall_cons.
  rewrite (proj2 (Z.ltb_lt _ _) Ha), IH by done. done.
Qed.

Lemma code_inj a b : code a = code b -> a = b.
Proof. unfold code. intros He. rewrite <- (Ascii.ascii_nat_embedding a), <- (Ascii.ascii_nat_embedding b). f_equal. lia. Qed.

(** ** Valid identifiers *)
Definition validChar (c : Ascii.ascii) : Prop := c ∈ chars identifierCharset.

Lemma charset_runes : validIdMap = code <$> chars identifierCharset.
Proof. vm_compute. reflexivity. Qed.

Lemma charset_ascii c : validChar c -> code c < 128 /\ c ≠ slashChar.
Proof.
  unfold validChar. intros Hc. assert (Forall (fun c => code c < 128 /\ c ≠ slashChar) (chars identifierCharset)) as Hall.
  { apply (bool_decide_unpack _). vm_compute. exact I. }
  rewrite Forall_forall in Hall. by apply Hall.
Qed.

Lemma in_valid_map r : existsb (Z.eqb r) validIdMap = true <-> exists c, validChar c /\ r = code c.
Proof.
  rewrite charset_runes, existsb_exists. split.
  - intros (x & Hin & He%Z.eqb_eq). apply base.list_elem_of_In in Hin. apply list_elem_of_fmap in Hin as (c & -> & Hc). eauto.
  - intros (c & Hc & ->). exists (code c). split; [|apply Z.eqb_refl]. apply base.list_elem_of_In, list_elem_of_fmap. eauto.
Qed.

Lemma find_none_iff {A} (f : A -> bool) l : find f l = None <-> Forall (fun x => f x = false) l.
Proof.
  induction l as [|x l IH]; [by split|]. cbn. rewrite Forall_cons. destruct (f x); [naive_solver|]. rewrite IH. naive_solver.
Qed.

Lemma all_valid_runes s : Forall (fun r => existsb (Z.eqb r) validIdMap = true) (runes s) <-> Forall validChar (chars s).
Proof.
  split; intros Hall.
  - rewrite runes_ascii in Hall.
    + rewrite Forall_fmap in Hall. eapply Forall_impl; [exact Hall|]. intros c (c' & Hc & He)%in_valid_map. by apply code_inj in He as ->.
    + eapply Forall_impl; [exact Hall|]. intros r (c & Hc & ->)%in_valid_map. by apply charset_ascii.
  - rewrite ascii_runes by (eapply Forall_impl; [exact Hall|]; intros c Hc; by apply charset_ascii).
    rewrite Forall_fmap. eapply Forall_impl; [exact Hall|]. intros c Hc. apply in_valid_map. eauto.
Qed.

Lemma hash_not_blank id : String.prefix identifierPrefix id = true -> isBlank id = false.
Proof. destruct id as [|c id]; [done|]. unfold identifierPrefix. cbn [String.prefix]. by destruct (Ascii.ascii_dec "#"%char c) as [<-|]. Qed.

(** The validation accepts exactly the texts of the right length that start with the prefix and
    have only characters of the set. *)
Lemma valid_iff id minLength maxLength :
  basicValidation id minLength maxLength = None <->
  minLength <= blen id <= maxLength /\ String.prefix identifierPrefix id = true /\ Forall validChar (chars id).
Proof.
  unfold basicValidation. destruct (isBlank id) eqn:Hb.
  { split; [done|]. intros (_ & Hp & _). by rewrite hash_not_blank in Hb. }
  destruct ((blen id <? minLength) || (maxLength <? blen id)) eqn:Hl.
  { split; [done|]. intros (Hlen & _). apply orb_true_iff in Hl as [?%Z.ltb_lt|?%Z.ltb_lt]; lia. }
  apply orb_false_iff in Hl as [Hl1%Z.ltb_ge Hl2%Z.ltb_ge]. destruct (String.prefix identifierPrefix id) eqn:Hp; cbn [negb]; [|naive_solver].
  rewrite <- all_valid_runes. destruct (find _ _) as [c|] eqn:Hf.
  - split; [done|]. intros (_ & _ & Hall). exfalso. apply find_some in Hf as [Hin Hc]. apply base.list_elem_of_In in Hin.
    rewrite Forall_forall in Hall. apply Hall in Hin. apply in_valid_map in Hin as (x & Hx & ->). apply charset_ascii in Hx as [_ Hx]. apply Hx.
    change invalidIdMap with [code slashChar] in Hc. cbn [existsb] in Hc. rewrite orb_false_r in Hc. apply Z.eqb_eq in Hc. by apply code_inj.
  - clear Hf. destruct (find _ _) as [c|] eqn:Hg.
    + split; [done|]. intros (_ & _ & Hall). exfalso. apply find_some in Hg as [Hin Hc]. apply base.list_elem_of_In in Hin.
      rewrite Forall_forall in Hall. apply Hall in Hin. apply negb_true_iff in Hc. congruence.
    + split; [|done]. intros _. split; [lia|]. split; [done|]. apply find_none_iff in Hg. eapply Forall_impl; [exact Hg|]. intros r Hr. by apply negb_false_iff in Hr.
Qed.

Lemma valid_no_slash id minLength maxLength : basicValidation id minLength maxLength = None -> noSlashIn id = true.
Proof.
  intros (_ & _ & Hall)%valid_iff. induction id as [|c id IH]; [done|]. cbn in Hall. apply Forall_cons in Hall as [Hc Hall]. cbn [noSlashIn].
  rewrite IH by done. apply charset_ascii in Hc as [_ Hc]. by rewrite (proj2 (Ascii.eqb_neq _ _) Hc).
Qed.

Section generated.
Context `{RL : RandIntnLaws}.

Lemma random_chars seed size : forall i, Forall validChar (chars (randomChars seed i size)) /\ String.length (randomChars seed i size) = size.
Proof.
  induction size as [|size IH]; intros i; [by split|]. cbn [randomChars chars String.list_ascii_of_string String.length].
  destruct (IH (S i)) as [Hc Hl]. rewrite Hl. split; [|done]. constructor; [|done].
  pose proof (Intn_range seed i (blen identifierCharset) ltac:(done)) as Hr. set (n := Z.to_nat _).
  assert (n < String.length identifierCharset)%nat as Hn by (unfold n, blen in *; lia). clearbody n. unfold validChar.
  assert (Forall (fun k => default Ascii.zero (String.get k identifierCharset) ∈ chars identifierCharset) (seq 0 (String.length identifierCharset))) as Hall.
  { apply (bool_decide_unpack _). vm_compute. exact I. }
  rewrite Forall_forall in Hall. apply Hall. apply elem_of_seq. lia.
Qed.

Lemma generated_length min max seed : 0 <= min <= 32 -> 33 - min < max ->
  exists id, generateNewIdentifierWithSeed min max seed = Ok id /\ 33 - min <= blen id < max /\
    String.prefix identifierPrefix id = true /\ Forall validChar (chars id).
Proof.
  intros Hmin Hmax. unfold generateNewIdentifierWithSeed, defaultMinIdLength. change (blen identifierPrefix) with 1.
  rewrite (proj2 (Z.leb_gt _ _)) by lia. pose proof (Intn_range seed 0 (max - 1 - (32 - min)) ltac:(lia)) as Hr.
  rewrite (proj2 (Z.ltb_ge _ _)) by lia. eexists. split; [reflexivity|]. set (size := Z.to_nat _). destruct (random_chars seed size 1) as [Hc Hl].
  split; [|split].
  - unfold blen. change (identifierPrefix +:+ randomChars seed 1 size) with (String "#" (randomChars seed 1 size)). cbn [String.length]. rewrite Hl. lia.
  - change (identifierPrefix +:+ randomChars seed 1 size) with (String "#" (randomChars seed 1 size)). cbn. by destruct (randomChars seed 1 size).
  - change (identifierPrefix +:+ randomChars seed 1 size) with (String "#" (randomChars seed 1 size)). cbn [chars String.list_ascii_of_string].
    constructor; [|done]. apply (bool_decide_unpack _). vm_compute. exact I.
Qed.

(** Every generated identifier passes its own validation, whatever the pseudo-random numbers;
    its length is below the maximum but need not reach the 32 bytes of the default minimum:
    client identifiers have at least 24, connections 23, channels 25 and ports 31 bytes. *)
Theorem generated_identifiers_valid (now : Z) :
  (exists id, GenerateClientIdentifier now = Ok id /\ ValidateClientID id = None /\ 24 <= blen id <= 63) /\
  (exists id, GenerateConnectionIdentifier now = Ok id /\ ValidateConnectionID id = None /\ 23 <= blen id <= 63) /\
  (exists id, GenerateChannelIdentifier now = Ok id /\ ValidateChannelID id = None /\ 25 <= blen id <= 63) /\
  (exists id, GeneratePortIdentifier now = Ok id /\ ValidatePortID id = None /\ 31 <= blen id <= 127).
Proof.
  assert (forall min max, 0 <= min <= 16 -> 33 < max -> exists id, generateNewIdentifier now min max = Ok id /\
    basicValidation id min max = None /\ 33 - min <= blen id <= max - 1) as Hgen.
  { intros min max Hmin Hmax. destruct (generated_length min max now) as (id & Hg & Hl & Hp & Hc); [lia..|].
    exists id. split; [done|]. split; [|lia]. apply valid_iff. split; [lia|done]. }
  split; [|split; [|split]]; [apply (Hgen 9 64)|apply (Hgen 10 64)|apply (Hgen 8 64)|apply (Hgen 2 128)]; lia.
Qed.
End generated.

(** ** Store keys *)

(** The objects of the store. *)
Inductive storeKey :=
| KClientState (client : string)
| KConsensusState (client : string) (height : Z)
| KClientConnections (client : string)
| KConnection (connection : string)
| KChannel (port channel : string)
| KCapability (port channel : string)
| KNextSend (port channel : string)
| KNextRecv (port channel : string)
| KNextAck (port channel : string)
| KCommitment (port channel : string) (sequence : Z)
| KAcknowledgement (port channel : string) (sequence : Z)
| KReceipt (port channel : string) (sequence : Z)
| KPort (port : string).

Definition keyOf (k : storeKey) : bytes :=
  match k with
  | KClientState c => FullClientStateKey c
  | KConsensusState c h => FullConsensusStateKey c h
  | KClientConnections c => ClientConnectionsKey c
  | KConnection c => ConnectionKey c
  | KChannel p c => ChannelKey p c
  | KCapability p c => ChannelCapabilityKey p c
  | KNextSend p c => NextSequenceSendKey p c
  | KNextRecv p c => NextSequenceRecvKey p c
  | KNextAck p c => NextSequenceAckKey p c
  | KCommitment p c n => PacketCommitmentKey p c n
  | KAcknowledgement p c n => PacketAcknowledgementKey p c n
  | KReceipt p c n => PacketReceiptKey p c n
  | KPort p => PortKey p
  end.

(** Its store and its path within the store. *)
Definition storeOf (k : storeKey) : string :=
  match k with
  | KClientState _ | KConsensusState _ _ | KClientConnections _ => KeyClientStorePrefix
  | KConnection _ => KeyConnectionPrefix
  | KChannel _ _ => KeyChannelEndPrefix
  | KCapability _ _ => KeyChannelCapabilityPrefix
  | KNextSend _ _ => KeyNextSeqSendPrefix
  | KNextRecv _ _ => KeyNextSeqRecvPrefix
  | KNextAck _ _ => KeyNextSeqAckPrefix
  | KCommitment _ _ _ => KeyPacketCommitmentPrefix
  | KAcknowledgement _ _ _ => KeyPacketAckPrefix
  | KReceipt _ _ _ => KeyPacketReceiptPrefix
  | KPort _ => KeyPortPrefix
  end.
Definition pathOf (k : storeKey) : string :=
  match k with
  | KClientState c => ClientStatePath c
  | KConsensusState c h => ConsensusStatePath c h
  | KClientConnections c => ClientConnectionPath c
  | KConnection c => ConnectionPath c
  | KChannel p c => ChannelPath p c
  | KCapability p c => ChannelCapabilityPath p c
  | KNextSend p c => NextSequenceSendPath p c
  | KNextRecv p c => NextSequenceRecvPath p c
  | KNextAck p c => NextSequenceAckPath p c
  | KCommitment p c n => PacketCommitmentPath p c n
  | KAcknowledgement p c n => PacketAcknowledgementPath p c n
  | KReceipt p c n => PacketReceiptPath p c n
  | KPort p => PortPath p
  end.

Definition validPortChannel (p c : string) : Prop := ValidatePortID p = None /\ ValidateChannelID c = None.
(** Identifiers pass their validation, and heights and sequences are not negative. *)
Definition keyValid (k : storeKey) : Prop :=
  match k with
  | KClientState c | KClientConnections c => ValidateClientID c = None
  | KConsensusState c h => ValidateClientID c = None /\ 0 <= h
  | KConnection c => ValidateConnectionID c = None
  | KChannel p c | KCapability p c | KNextSend p c | KNextRecv p c | KNextAck p c => validPortChannel p c
  | KCommitment p c n | KAcknowledgement p c n | KReceipt p c n => validPortChannel p c /\ 0 <= n
  | KPort p => ValidatePortID p = None
  end.

Definition segmentsOf (k : storeKey) : list string :=
  match k with
  | KClientState c => ["clients"; c; "clientState"]
  | KConsensusState c h => ["clients"; c; "consensusStates"; bigIntText h]
  | KClientConnections c => ["clients"; c; "connections"]
  | KConnection c => ["connections"; c]
  | KChannel p c => ["channelEnds"; "ports"; p; "channels"; c]
  | KCapability p c => ["capabilities"; "ports"; p; "channels"; c]
  | KNextSend p c => ["nextSequenceSend"; "ports"; p; "channels"; c]
  | KNextRecv p c => ["nextSequenceRecv"; "ports"; p; "channels"; c]
  | KNextAck p c => ["nextSequenceAck"; "ports"; p; "channels"; c]
  | KCommitment p c n => ["commitments"; "ports"; p; "channels"; c; "sequences"; bigIntText n]
  | KAcknowledgement p c n => ["acks"; "ports"; p; "channels"; c; "sequences"; bigIntText n]
  | KReceipt p c n => ["receipts"; "ports"; p; "channels"; c; "sequences"; bigIntText n]
  | KPort p => ["ports"; p]
  end.

Lemma split_cons x z : noSlashIn x = true -> splitSlashes (x +:+ ("/" +:+ z)) = x :: splitSlashes z.
Proof.
  intros Hx. rewrite (split_prefix x ("/" +:+ z) "" (splitSlashes z)); [|done|done]. f_equal. apply string_nil_r.
Qed.

Lemma split_one x : noSlashIn x = true -> splitSlashes x = [x].
Proof.
  induction x as [|c x IH]; [done|]. cbn [noSlashIn]. intros [Hc Hx]%andb_true_iff. cbn [splitSlashes]. apply negb_true_iff in Hc. by rewrite Hc, IH.
Qed.

Lemma digits_no_slash s : allDigits s = true -> noSlashIn s = true.
Proof.
  induction s as [|c s IH]; [done|]. cbn [allDigits noSlashIn]. intros [Hc Hs]%andb_true_iff. by rewrite (proj1 (digit_not_special c Hc)), IH.
Qed.

Lemma number_no_slash n : 0 <= n -> noSlashIn (bigIntText n) = true.
Proof. intros Hn. destruct (decimal_text n Hn) as (c & s & _ & -> & Hc & Hs & _). apply digits_no_slash. cbn [allDigits]. by rewrite Hc. Qed.

Ltac no_slash := first [done | by eapply valid_no_slash | by apply number_no_slash].

(** The segments of a key are those of its object. *)
Lemma key_segments k : keyValid k -> splitSlashes (keyOf k) = segmentsOf k.
Proof.
  intros Hk. destruct k; cbn [keyValid] in Hk; unfold validPortChannel in Hk; destruct_and?; cbn [keyOf segmentsOf];
    unfold FullClientStateKey, FullConsensusStateKey, ClientConnectionsKey, ConnectionKey, ChannelKey, ChannelCapabilityKey, NextSequenceSendKey,
      NextSequenceRecvKey, NextSequenceAckKey, PacketCommitmentKey, PacketAcknowledgementKey, PacketReceiptKey, PortKey, fullClientKey,
      fullConsensusStatePath, clientConnectionsPath, connectionPath, fullChannelPath, channelCapabilityPath, nextSequenceSendPath, nextSequenceRecvPath,
      nextSequenceAckPath, packetCommitmentPath, packetCommitmentPrefixPath, packetAcknowledgementPath, packetAcknowledgementPrefixPath, packetReceiptPath,
      sequencePath, portPath, fullClientPath, consensusStatePath, channelPath;
    rewrite ?IndexerFacts.IndexerFacts.app_string_assoc; rewrite ?split_cons by no_slash; rewrite split_one by no_slash; reflexivity.
Qed.

#[global] Instance bigIntText_inj : Inj (=) (=) bigIntText.
Proof. intros a b Hab. apply (f_equal bigIntSetString) in Hab. rewrite !bigInt_text_parse in Hab. congruence. Qed.

Lemma segments_inj k k' : segmentsOf k = segmentsOf k' -> k = k'.
Proof. destruct k, k'; cbn; intros Hs; try discriminate Hs; simplify_eq; reflexivity. Qed.

(** C22: Different objects of the IBC store have different keys: for identifiers that pass their
    validation, the key determines the kind of the object, its identifiers and its height or
    sequence number. *)
Theorem store_keys_injective (k k' : storeKey) : keyValid k -> keyValid k' -> keyOf k = keyOf k' -> k = k'.
Proof. intros Hk Hk' He. apply segments_inj. by rewrite <- !key_segments, He. Qed.

(** *** Keys and paths *)
Lemma prefix_app p s : String.prefix p (p +:+ s) = true.
Proof. apply (KvFacts.hasPrefix_app p s). Qed.

Lemma trim_prefix_app p s : TrimPrefix (p +:+ s) p = s.
Proof. unfold TrimPrefix. rewrite prefix_app. apply (KeysFacts.drop_app_bytes p s). Qed.

Lemma trim_store p s : TrimPrefix (p +:+ ("/" +:+ s)) (p +:+ "/") = s.
Proof. rewrite <- IndexerFacts.IndexerFacts.app_string_assoc. apply trim_prefix_app. Qed.

Lemma remove_apply prefix path : RemovePrefix prefix (ApplyPrefix prefix path) = Ok path.
Proof.
  unfold RemovePrefix, ApplyPrefix. rewrite <- KeysFacts.length_app_bytes, <- IndexerFacts.IndexerFacts.app_string_assoc.
  rewrite (proj2 (Nat.ltb_ge _ _)) by (rewrite (KeysFacts.length_app_bytes (prefix +:+ delimiter)); lia).
  f_equal. exact (KeysFacts.drop_app_bytes (prefix +:+ delimiter) path).
Qed.

(** The path of every object is the rest of its key after the store: applying the store as a
    prefix gives the key back, and removing it from the key gives the path. *)
Theorem keys_are_prefixed_paths (k : storeKey) :
  ApplyPrefix (storeOf k) (pathOf k) = keyOf k /\ RemovePrefix (storeOf k) (keyOf k) = Ok (pathOf k).
Proof.
  assert (ApplyPrefix (storeOf k) (pathOf k) = keyOf k) as Ha; [|split; [done|]; by rewrite <- Ha, remove_apply].
  unfold ApplyPrefix, delimiter. destruct k; cbn [storeOf pathOf keyOf]; try reflexivity;
    unfold ClientStatePath, ConsensusStatePath, ClientConnectionPath, ChannelCapabilityPath, PacketCommitmentPath, PacketAcknowledgementPath, PacketReceiptPath,
      clientPath, fullClientPath, channelCapabilityPath, packetCommitmentPath, packetCommitmentPrefixPath, packetAcknowledgementPath,
      packetAcknowledgementPrefixPath, packetReceiptPath; rewrite ?IndexerFacts.IndexerFacts.app_string_assoc, trim_store;
    unfold FullClientStateKey, FullConsensusStateKey, ClientConnectionsKey, ChannelCapabilityKey, PacketCommitmentKey, PacketAcknowledgementKey, PacketReceiptKey,
      packetCommitmentPath, packetCommitmentPrefixPath, packetAcknowledgementPath, packetAcknowledgementPrefixPath;
    rewrite ?IndexerFacts.IndexerFacts.app_string_assoc; reflexivity.
Qed.

(** ** Proofs *)
Section proofs.
Context `{ST : IbcStore.Smt} `{CP : CryptoPrims}.
Import IbcStore.

Lemma steps_from_lookup sideNodes path n : forall i j side, sideNodes !! j = Some side ->
  stepsFrom sideNodes path n i !! j = Some (if isLeft path (n - 1 - (i + Z.of_nat j))
    then {| inner_Hash := SHA256; inner_Prefix := innerPrefix; inner_Suffix := side |}
    else {| inner_Hash := SHA256; inner_Prefix := innerPrefix +:+ side; inner_Suffix := "" |}).
Proof.
  induction sideNodes as [|s0 sideNodes IH]; intros i [|j] side Hs; [done|done|..]; cbn in Hs; cbn [stepsFrom].
  - injection Hs as ->. cbn. by rewrite Z.add_0_r.
  - cbn. rewrite (IH _ _ _ Hs). by replace (i + 1 + Z.of_nat j) with (i + Z.of_nat (S j)) by lia.
Qed.

Lemma steps_length sideNodes path n : forall i, length (stepsFrom sideNodes path n i) = length sideNodes.
Proof. induction sideNodes as [|s sideNodes IH]; intros i; [done|]. cbn. by rewrite IH. Qed.

(** The steps of a converted proof hash what the tree hashes: there is one for every side
    node, in order, and around the hash of the child on the path it puts the node prefix and the
    side node, on the right if the path turns left at that depth and on the left otherwise. *)
Theorem converted_steps_hash_children (sideNodes : list bytes) (path child : bytes) (j : nat) (side : bytes) :
  sideNodes !! j = Some side ->
  length (convertSideNodesToSteps sideNodes path) = length sideNodes /\
  exists op, convertSideNodesToSteps sideNodes path !! j = Some op /\ inner_Hash op = SHA256 /\
    inner_Prefix op +:+ child +:+ inner_Suffix op =
      oneByte +:+ (if isLeft path (Z.of_nat (length sideNodes) - 1 - Z.of_nat j) then child +:+ side else side +:+ child).
Proof.
  intros Hs. unfold convertSideNodesToSteps. split; [apply steps_length|]. eexists. split; [by apply steps_from_lookup|].
  rewrite Z.add_0_l. destruct (isLeft path _); cbn; [done|]. split; [done|]. by rewrite string_nil_r, IndexerFacts.IndexerFacts.app_string_assoc.
Qed.
End proofs.

(** ** Instances *)
Module ToyIbc.
Definition rand : RandIntn := {| Intn seed i n := (seed + Z.of_nat i) mod n |}.
Lemma rand_laws : RandIntnLaws rand.
Proof. constructor. intros seed i n Hn. by apply Z.mod_pos_bound. Qed.
Definition port : string := "#transfer".
Definition channel : string := "#channel-0".
Definition smt : IbcStore.Smt := {| IbcStore.Tree := unit; IbcStore.Prove _ _ := inl None; IbcStore.GetPathBit _ i := i mod 2;
  IbcStore.ics23_VerifyMembership _ _ _ _ _ := false; IbcStore.ics23_VerifyNonMembership _ _ _ _ := false |}.
End ToyIbc.

Lemma generated_identifiers_valid_witness :
  exists id, @GenerateClientIdentifier ToyIbc.rand 12 = Ok id /\ ValidateClientID id = None /\ 24 <= blen id <= 63.
Proof. exact (proj1 (@generated_identifiers_valid ToyIbc.rand ToyIbc.rand_laws 12)). Defined.

Lemma store_keys_injective_witness :
  keyValid (KCommitment ToyIbc.port ToyIbc.channel 1) /\ keyValid (KCommitment ToyIbc.port ToyIbc.channel 2) /\
  keyOf (KCommitment ToyIbc.port ToyIbc.channel 1) <> keyOf (KCommitment ToyIbc.port ToyIbc.channel 2).
Proof.
  assert (forall n, 0 <= n <= 2 -> keyValid (KCommitment ToyIbc.port ToyIbc.channel n)) as Hv
    by (intros n Hn; split; [split; vm_compute; reflexivity|lia]).
  split; [apply Hv; lia|]. split; [apply Hv; lia|].
  intros He. apply store_keys_injective in He; [discriminate He|apply Hv; lia..].
Defined.

Lemma converted_steps_hash_children_witness :
  length (@IbcStore.convertSideNodesToSteps ToyIbc.smt ["a"; "b"] "path") = 2%nat.
Proof. exact (proj1 (@converted_steps_hash_children ToyIbc.smt ["a"; "b"] "path" "c" 0 "a" eq_refl)). Defined.
End IbcFacts.
