(* ===== verification/UnitOfWork.v ===== *)
(** The utility unit of work (src/utility/unit_of_work): the state transition of a block.

    A unit of work holds two persistence contexts: reads go to [persistenceReadContext], a
    read-only transaction that sees the committed state, writes go to
    [persistenceRWContext].  A nil context is [None]; a call through it panics.  Errors are
    values and do not undo the writes made before them. *)

From S2P Require Import Prelude GoStd Errors Crypto CoreTypes Gov Messages Sql Persistence FifoSet TxMempool.
#[local] Open Scope string_scope.
#[local] Open Scope Z_scope.

Module UnitOfWork.

Record baseUtilityUnitOfWork := {
  height : Z;
  persistenceReadContext : option PostgresContext;
  persistenceRWContext : option PostgresContext;
  proposalStateHash : string;
  proposalProposerAddr : slice;
  proposalBlockTxs : list bytes;
  stateHash : string;
}.

Abbreviation UM := (M baseUtilityUnitOfWork Error).

Definition set_rw (c : option PostgresContext) (u : baseUtilityUnitOfWork) : baseUtilityUnitOfWork := {|
  height := height u; persistenceReadContext := persistenceReadContext u; persistenceRWContext := c;
  proposalStateHash := proposalStateHash u; proposalProposerAddr := proposalProposerAddr u;
  proposalBlockTxs := proposalBlockTxs u; stateHash := stateHash u |}.

(** A call on the read context, its error wrapped. *)
Definition read {A} (wrap : string -> Error) (f : PostgresContext -> res string A) : UM A := fun u =>
  match persistenceReadContext u with
  | None => (Panic, u)
  | Some p => (match f p with Ok a => Ok a | Err e => Err (wrap e) | Panic => Panic end, u)
  end.

(** A call on the read-write context. *)
Definition write {A} (wrap : string -> Error) (m : PM A) : UM A := fun u =>
  match persistenceRWContext u with
  | None => (Panic, u)
  | Some p =>
      let '(r, p') := m p in
      (match r with Ok a => Ok a | Err e => Err (wrap e) | Panic => Panic end, set_rw (Some p') u)
  end.

Definition of_text {A} (wrap : string -> Error) (r : res string A) : UM A :=
  of_res (match r with Ok a => Ok a | Err e => Err (wrap e) | Panic => Panic end).

(** The four-way switch on the actor type with a default. *)
Definition switchActor {A} (actorType : Z) (app fish servicer val dflt : A) : A :=
  if bool_decide (actorType = ACTOR_TYPE_APP) then app
  else if bool_decide (actorType = ACTOR_TYPE_FISH) then fish
  else if bool_decide (actorType = ACTOR_TYPE_SERVICER) then servicer
  else if bool_decide (actorType = ACTOR_TYPE_VAL) then val
  else dflt.

Definition unknownActor (actorType : Z) : Error := ErrUnknownActorType (ActorType_String actorType).

(** ** account.go *)
Definition getAccountAmount (address : bytes) : UM Z :=
  h ← gets height;
  amountStr ← read ErrGetAccountAmount (fun p => GetAccountAmount p address h);
  of_text ErrStringToBigInt (StringToBigInt amountStr).
Definition addAccountAmount (address : bytes) (amountToAdd : Z) : UM unit :=
  write ErrAddAccountAmount (AddAccountAmount address (BigIntToString amountToAdd)).
Definition subtractAccountAmount (address : bytes) (amountToSubtract : Z) : UM unit :=
  write ErrSetAccountAmount (SubtractAccountAmount address (BigIntToString amountToSubtract)).
Definition setAccountAmount (address : bytes) (amount : Z) : UM unit :=
  write ErrSetAccountAmount (SetAccountAmount address (BigIntToString amount)).
Definition insertPool (address : bytes) (amount : Z) : UM unit :=
  write (ErrSetPool address) (InsertPool address (BigIntToString amount)).
Definition getPoolAmount (address : bytes) : UM Z :=
  h ← gets height;
  amountStr ← read (ErrGetPoolAmount address) (fun p => GetPoolAmount p address h);
  of_text ErrStringToBigInt (StringToBigInt amountStr).
Definition addPoolAmount (address : bytes) (amountToAdd : Z) : UM unit :=
  write (ErrAddPoolAmount address) (AddPoolAmount address (BigIntToString amountToAdd)).
Definition subPoolAmount (address : bytes) (amountToSub : Z) : UM unit :=
  write (ErrSubPoolAmount address) (SubtractPoolAmount address (BigIntToString amountToSub)).
Definition setPoolAmount (address : bytes) (amount : Z) : UM unit :=
  write (ErrSetPoolAmount address) (SetPoolAmount address (BigIntToString amount)).

(** ** gov.go *)
Definition getStringParam (paramName : string) : UM string :=
  h ← gets height; read (ErrGetParam paramName) (fun p => GetStringParam p paramName h).
Definition getBigIntParam (paramName : string) : UM Z :=
  value ← getStringParam paramName;
  of_text ErrStringToBigInt (StringToBigInt value).
Definition getIntParam (paramName : string) : UM Z :=
  h ← gets height; read (ErrGetParam paramName) (fun p => GetIntParam p paramName h).
Definition getInt64Param (paramName : string) : UM Z := getIntParam paramName.
Definition getByteArrayParam (paramName : string) : UM bytes :=
  h ← gets height; read (ErrGetParam paramName) (fun p => GetBytesParam p paramName h).

(** A value the switch does not know ends the process ([logger.Fatal]). *)
Definition updateParam (paramName : string) (value : ProtoMessage) : UM unit :=
  match value with
  | PInt32Value v => write ErrUpdateParam (SetParam paramName (PVInt v))
  | PStringValue v => write ErrUpdateParam (SetParam paramName (PVString v))
  | PBytesValue v => write ErrUpdateParam (SetParam paramName (PVBytes (Some v)))
  | PMessage _ | POther _ => panic
  end.

Definition getParamOwner (paramName : string) : UM bytes :=
  let paramOwner := paramOwnerOf paramName in
  if bool_decide (paramOwner ≠ "") then getByteArrayParam paramOwner else fail (ErrUnknownParam paramName).

Definition getFee (msg : Message) (actorType : Z) : UM Z :=
  match msg with
  | MSend _ => getBigIntParam MessageSendFee
  | MStake _ =>
      switchActor actorType (getBigIntParam MessageStakeAppFee) (getBigIntParam MessageStakeFishermanFee)
        (getBigIntParam MessageStakeServicerFee) (getBigIntParam MessageStakeValidatorFee) (fail (unknownActor actorType))
  | MEditStake _ =>
      switchActor actorType (getBigIntParam MessageEditStakeAppFee) (getBigIntParam MessageEditStakeFishermanFee)
        (getBigIntParam MessageEditStakeServicerFee) (getBigIntParam MessageEditStakeValidatorFee) (fail (unknownActor actorType))
  | MUnstake _ =>
      switchActor actorType (getBigIntParam MessageUnstakeAppFee) (getBigIntParam MessageUnstakeFishermanFee)
        (getBigIntParam MessageUnstakeServicerFee) (getBigIntParam MessageUnstakeValidatorFee) (fail (unknownActor actorType))
  | MUnpause _ =>
      switchActor actorType (getBigIntParam MessageUnpauseAppFee) (getBigIntParam MessageUnpauseFishermanFee)
        (getBigIntParam MessageUnpauseServicerFee) (getBigIntParam MessageUnpauseValidatorFee) (fail (unknownActor actorType))
  | MChangeParameter _ => getBigIntParam MessageChangeParameterFee
  end.

Definition getMessageChangeParameterSignerCandidates (msg : MessageChangeParameter) : UM (list bytes) :=
  owner ← wrap_err (fun e => ErrGetParam (ParameterKey msg) (Error_string e)) (getParamOwner (ParameterKey msg));
  mret [owner].

(** ** actor.go *)
Definition unknownActorText (actorType : Z) : string := Error_string (unknownActor actorType).

Definition setActorStakeAmount (actorType : Z) (addr : bytes) (amount : Z) : UM unit :=
  let amountStr := BigIntToString amount in
  switchActor actorType
    (write ErrSetValidatorStakedAmount (SetAppStakeAmount addr amountStr))
    (write ErrSetValidatorStakedAmount (SetFishermanStakeAmount addr amountStr))
    (write ErrSetValidatorStakedAmount (SetServicerStakeAmount addr amountStr))
    (write ErrSetValidatorStakedAmount (SetValidatorStakeAmount addr amountStr))
    (fail (ErrSetValidatorStakedAmount (unknownActorText actorType))).

Definition setActorUnbondingHeight (actorType : Z) (addr : bytes) (h : Z) : UM unit :=
  switchActor actorType
    (write ErrSetUnstakingHeightAndStatus (SetAppUnstakingHeightAndStatus addr h StakeStatus_Unstaking))
    (write ErrSetUnstakingHeightAndStatus (SetFishermanUnstakingHeightAndStatus addr h StakeStatus_Unstaking))
    (write ErrSetUnstakingHeightAndStatus (SetServicerUnstakingHeightAndStatus addr h StakeStatus_Unstaking))
    (write ErrSetUnstakingHeightAndStatus (SetValidatorUnstakingHeightAndStatus addr h StakeStatus_Unstaking))
    (fail (ErrSetUnstakingHeightAndStatus (unknownActorText actorType))).

Definition setActorPausedHeight (actorType : Z) (addr : bytes) (h : Z) : UM unit :=
  switchActor actorType
    (write ErrSetPauseHeight (SetAppPauseHeight addr h))
    (write ErrSetPauseHeight (SetFishermanPauseHeight addr h))
    (write ErrSetPauseHeight (SetServicerPauseHeight addr h))
    (write ErrSetPauseHeight (SetValidatorPauseHeight addr h))
    (fail (ErrSetPauseHeight (unknownActorText actorType))).

Definition getActorStakeAmount (actorType : Z) (addr : bytes) : UM Z :=
  h ← gets height;
  stakeAmount ← switchActor actorType
    (read ErrGetStakeAmount (fun p => GetAppStakeAmount p h addr))
    (read ErrGetStakeAmount (fun p => GetFishermanStakeAmount p h addr))
    (read ErrGetStakeAmount (fun p => GetServicerStakeAmount p h addr))
    (read ErrGetStakeAmount (fun p => GetValidatorStakeAmount p h addr))
    (fail (ErrGetStakeAmount (unknownActorText actorType)));
  of_text ErrStringToBigInt (StringToBigInt stakeAmount).

(** A governance parameter chosen by the actor type; the error of the lookup is wrapped again. *)
Definition actorIntParam (actorType : Z) (app fish servicer val : option string) : UM Z :=
  match switchActor actorType app fish servicer val None with
  | None => fail (unknownActor actorType)
  | Some paramName => wrap_err (fun e => ErrGetParam paramName (Error_string e)) (getIntParam paramName)
  end.

Definition getMaxAllowedPausedBlocks (actorType : Z) : UM Z :=
  actorIntParam actorType (Some AppMaxPauseBlocksParamName) (Some FishermanMaxPauseBlocksParamName)
    (Some ServicerMaxPauseBlocksParamName) (Some ValidatorMaxPausedBlocksParamName).

Definition getMinRequiredPausedBlocks (actorType : Z) : UM Z :=
  actorIntParam actorType (Some AppMinimumPauseBlocksParamName) (Some FishermanMinimumPauseBlocksParamName)
    (Some ServicerMinimumPauseBlocksParamName) (Some ValidatorMinimumPauseBlocksParamName).

Definition getPausedHeightIfExists (actorType : Z) (addr : bytes) : UM Z :=
  h ← gets height;
  switchActor actorType
    (read ErrGetPauseHeight (fun p => GetAppPauseHeightIfExists p addr h))
    (read ErrGetPauseHeight (fun p => GetFishermanPauseHeightIfExists p addr h))
    (read ErrGetPauseHeight (fun p => GetServicerPauseHeightIfExists p addr h))
    (read ErrGetPauseHeight (fun p => GetValidatorPauseHeightIfExists p addr h))
    (fail (ErrGetPauseHeight (unknownActorText actorType))).

Definition getActorStatus (actorType : Z) (addr : bytes) : UM Z :=
  h ← gets height;
  status ← switchActor actorType
    (read ErrGetStatus (fun p => GetAppStatus p addr h))
    (read ErrGetStatus (fun p => GetFishermanStatus p addr h))
    (read ErrGetStatus (fun p => GetServicerStatus p addr h))
    (read ErrGetStatus (fun p => GetValidatorStatus p addr h))
    (fail (ErrGetStatus (unknownActorText actorType)));
  if StakeStatus_known status then mret status else fail (ErrUnknownStatus status).

Definition getMinRequiredStakeAmount (actorType : Z) : UM Z :=
  match switchActor actorType (Some AppMinimumStakeParamName) (Some FishermanMinimumStakeParamName)
          (Some ServicerMinimumStakeParamName) (Some ValidatorMinimumStakeParamName) None with
  | None => fail (unknownActor actorType)
  | Some paramName =>
      minStake ← wrap_err (fun e => ErrGetParam paramName (Error_string e)) (getStringParam paramName);
      of_text ErrStringToBigInt (StringToBigInt minStake)
  end.

Definition getUnbondingHeight (actorType : Z) : UM Z :=
  unstakingBlocksPeriod ← actorIntParam actorType (Some AppUnstakingBlocksParamName)
    (Some FishermanUnstakingBlocksParamName) (Some ServicerUnstakingBlocksParamName)
    (Some ValidatorUnstakingBlocksParamName);
  h ← gets height;
  mret (i64 (h + unstakingBlocksPeriod)).

Definition getMaxAllowedChains (actorType : Z) : UM Z :=
  actorIntParam actorType (Some AppMaxChainsParamName) (Some FishermanMaxChainsParamName)
    (Some ServicerMaxChainsParamName) None.

Definition getActorExists (actorType : Z) (addr : bytes) : UM bool :=
  h ← gets height;
  switchActor actorType
    (read ErrGetExists (fun p => GetAppExists p addr h))
    (read ErrGetExists (fun p => GetFishermanExists p addr h))
    (read ErrGetExists (fun p => GetServicerExists p addr h))
    (read ErrGetExists (fun p => GetValidatorExists p addr h))
    (fail (unknownActor actorType)).

Definition getActorOutputAddress (actorType : Z) (operator : bytes) : UM bytes :=
  h ← gets height;
  switchActor actorType
    (read (ErrGetOutputAddress operator) (fun p => GetAppOutputAddress p operator h))
    (read (ErrGetOutputAddress operator) (fun p => GetFishermanOutputAddress p operator h))
    (read (ErrGetOutputAddress operator) (fun p => GetServicerOutputAddress p operator h))
    (read (ErrGetOutputAddress operator) (fun p => GetValidatorOutputAddress p operator h))
    (fail (ErrGetOutputAddress operator (unknownActorText actorType))).

(** ** application.go *)
Definition calculateAppSessionTokens (appStakeStr : string) : UM string :=
  appStake ← of_text ErrStringToBigInt (StringToBigInt appStakeStr);
  stakeToSessionTokensMultiplier ← getIntParam AppSessionTokensMultiplierParamName;
  mret (bigIntText (appStake * stakeToSessionTokensMultiplier)).

(** ** validator.go *)
Definition burnValidator (addr : bytes) : UM unit :=
  stakeAmount ← getActorStakeAmount ACTOR_TYPE_VAL addr;
  burnPercent ← getIntParam MissedBlocksBurnPercentageParamName;
  let burnAmountTruncated := Z.max 0 (bigFloatPercent stakeAmount burnPercent) in
  subPoolAmount (Pools_Address POOLS_VALIDATOR_STAKE) burnAmountTruncated ;;
  let newAmountAfterBurn := stakeAmount - burnAmountTruncated in
  setActorStakeAmount ACTOR_TYPE_VAL addr newAmountAfterBurn ;;
  minRequiredStake ← getBigIntParam ValidatorMinimumStakeParamName;
  (* as written: minRequiredStake.Cmp(newAmountAfterBurn) == -1 *)
  if bool_decide (minRequiredStake < newAmountAfterBurn) then
    unbondingHeight ← getUnbondingHeight ACTOR_TYPE_VAL;
    setActorUnbondingHeight ACTOR_TYPE_VAL addr unbondingHeight
  else mret tt.

Definition handleByzantineValidators (prevBlockByzantineValidators : list bytes) : UM unit :=
  maxMissedBlocks ← getIntParam ValidatorMaximumMissedBlocksParamName;
  forM prevBlockByzantineValidators (fun address =>
    h ← gets height;
    n ← read ErrGetMissedBlocks (fun p => GetValidatorMissedBlocks p address h);
    let numMissedBlocks := i64 (n + 1) in
    if bool_decide (numMissedBlocks < maxMissedBlocks) then
      write ErrSetMissedBlocks (SetValidatorMissedBlocks address numMissedBlocks)
    else
      write ErrSetPauseHeight (SetValidatorPauseHeight address h) ;;
      write ErrSetMissedBlocks (SetValidatorMissedBlocks address numMissedBlocks) ;;
      burnValidator address).

(** ** tx_message_handler.go *)
Definition handleMessageSend (message : MessageSend) : UM unit :=
  amount ← of_text ErrStringToBigInt (StringToBigInt (send_Amount message));
  fromAccountAmount ← getAccountAmount (bz (FromAddress message));
  let fromAccountAmount := fromAccountAmount - amount in
  if bool_decide (fromAccountAmount < 0) then
    fail (ErrInsufficientAmount (hexEncode (bz (FromAddress message))))
  else
    addAccountAmount (bz (ToAddress message)) amount ;;
    setAccountAmount (bz (FromAddress message)) fromAccountAmount.

Definition checkBelowMaxChains (actorType : Z) (chains : option (list string)) : UM unit :=
  if bool_decide (actorType = ACTOR_TYPE_VAL) then mret tt
  else
    maxChains ← getMaxAllowedChains actorType;
    if bool_decide (maxChains < Z.of_nat (length (default [] chains))) then fail (ErrMaxChains maxChains)
    else mret tt.

(** A malformed amount calls [ErrStringToBigInt] with the nil error of the previous call. *)
Definition checkAboveMinStake (actorType : Z) (amountStr : string) : UM Z :=
  minStake ← getMinRequiredStakeAmount actorType;
  match StringToBigInt amountStr with
  | Ok amount => if BigIntLessThan amount minStake then fail ErrMinimumStake else mret amount
  | _ => panic
  end.

Definition HeightNotUsed : Z := -1.

Section crypto_handlers.
Context `{CryptoPrims} `{Codec}.

Definition handleStakeMessage (message : MessageStake) : UM unit :=
  publicKey ← of_text ErrNewPublicKeyFromBytes (NewPublicKeyFromBytes (bz (stake_PublicKey message)));
  amount ← checkAboveMinStake (stake_ActorType message) (stake_Amount message);
  signerAccountAmount ← getAccountAmount (bz (stake_Signer message));
  let signerAccountAmount := signerAccountAmount - amount in
  if bool_decide (signerAccountAmount < 0) then
    fail (ErrInsufficientAmount (hexEncode (bz (stake_Signer message))))
  else
    checkBelowMaxChains (stake_ActorType message) (stake_Chains message) ;;
    exists_ ← getActorExists (stake_ActorType message) (PublicKey_Address publicKey);
    if (exists_ : bool) then fail ErrAlreadyExists
    else
      setAccountAmount (bz (stake_Signer message)) signerAccountAmount ;;
      addPoolAmount (Pools_Address POOLS_APP_STAKE) amount ;;
      let address := PublicKey_Address publicKey in
      let output := bz (stake_OutputAddress message) in
      switchActor (stake_ActorType message)
        (write ErrInsert (InsertApp address publicKey output (stake_Amount message)
           (stake_Chains message) HeightNotUsed HeightNotUsed))
        (write ErrInsert (InsertFisherman address publicKey output (stake_ServiceUrl message)
           (stake_Amount message) (stake_Chains message) HeightNotUsed HeightNotUsed))
        (write ErrInsert (InsertServicer address publicKey output (stake_ServiceUrl message)
           (stake_Amount message) (stake_Chains message) HeightNotUsed HeightNotUsed))
        (write ErrInsert (InsertValidator address publicKey output (stake_ServiceUrl message)
           (stake_Amount message) HeightNotUsed HeightNotUsed))
        (mret tt).

Definition handleEditStakeMessage (message : MessageEditStake) : UM unit :=
  (* when the lookup fails, [exists] is false and its error is replaced *)
  exists_ ← wrap_err (fun _ => ErrNotExists) (getActorExists (edit_ActorType message) (bz (edit_Address message)));
  if negb exists_ then fail ErrNotExists
  else
    currentStakeAmount ← getActorStakeAmount (edit_ActorType message) (bz (edit_Address message));
    match StringToBigInt (edit_Amount message) with
    | Ok amount0 =>
        let amount := amount0 - currentStakeAmount in
        if bool_decide (amount < 0) then fail ErrStakeLess
        else
          signerAccountAmount ← getAccountAmount (bz (edit_Signer message));
          let signerAccountAmount := signerAccountAmount - amount in
          if bool_decide (signerAccountAmount < 0) then
            fail (ErrInsufficientAmount (hexEncode (bz (edit_Signer message))))
          else
            checkBelowMaxChains (edit_ActorType message) (edit_Chains message) ;;
            setAccountAmount (bz (edit_Signer message)) signerAccountAmount ;;
            addPoolAmount (Pools_Address POOLS_APP_STAKE) amount ;;
            let address := bz (edit_Address message) in
            switchActor (edit_ActorType message)
              (write ErrInsert (UpdateApp address (edit_Amount message) (edit_Chains message)))
              (write ErrInsert (UpdateFisherman address (edit_ServiceUrl message) (edit_Amount message) (edit_Chains message)))
              (write ErrInsert (UpdateServicer address (edit_ServiceUrl message) (edit_Amount message) (edit_Chains message)))
              (write ErrInsert (UpdateValidator address (edit_ServiceUrl message) (edit_Amount message)))
              (mret tt)
    | _ => panic   (* ErrStringToBigInt(nil) *)
    end.

Definition handleUnstakeMessage (message : MessageUnstake) : UM unit :=
  (* a failed lookup gives the unknown status, reported as an invalid status *)
  status ← wrap_err (fun _ => ErrInvalidStatus StakeStatus_UnknownStatus StakeStatus_Staked)
             (getActorStatus (unstake_ActorType message) (bz (unstake_Address message)));
  if bool_decide (status ≠ StakeStatus_Staked) then fail (ErrInvalidStatus status StakeStatus_Staked)
  else
    unbondingHeight ← getUnbondingHeight (unstake_ActorType message);
    setActorUnbondingHeight (unstake_ActorType message) (bz (unstake_Address message)) unbondingHeight.

Definition handleUnpauseMessage (message : MessageUnpause) : UM unit :=
  pausedHeight ← getPausedHeightIfExists (unpause_ActorType message) (bz (unpause_Address message));
  if bool_decide (pausedHeight = HeightNotUsed) then fail ErrNotPaused
  else
    minPauseBlocks ← getMinRequiredPausedBlocks (unpause_ActorType message);
    h ← gets height;
    if bool_decide (h < i64 (minPauseBlocks + pausedHeight)) then fail ErrNotReadyToUnpause
    else setActorPausedHeight (unpause_ActorType message) (bz (unpause_Address message)) HeightNotUsed.

Definition handleMessageChangeParameter (message : MessageChangeParameter) : UM unit :=
  match fromAny (ParameterValue message) with
  | inr e => fail (ErrProtoFromAny e)
  | inl v => updateParam (ParameterKey message) v
  end.

Definition handleMessage (msg : Message) : UM unit :=
  match msg with
  | MSend x => handleMessageSend x
  | MStake x => handleStakeMessage x
  | MEditStake x => handleEditStakeMessage x
  | MUnstake x => handleUnstakeMessage x
  | MUnpause x => handleUnpauseMessage x
  | MChangeParameter x => handleMessageChangeParameter x
  end.

(** ** tx_message_signers.go *)
Definition getMessageStakeSignerCandidates (msg : MessageStake) : UM (list bytes) :=
  pk ← of_text ErrNewPublicKeyFromBytes (NewPublicKeyFromBytes (bz (stake_PublicKey msg)));
  mret [bz (stake_OutputAddress msg); PublicKey_Address pk].
Definition getMessageEditStakeSignerCandidates (msg : MessageEditStake) : UM (list bytes) :=
  output ← getActorOutputAddress (edit_ActorType msg) (bz (edit_Address msg));
  mret [output; bz (edit_Address msg)].
Definition getMessageUnstakeSignerCandidates (msg : MessageUnstake) : UM (list bytes) :=
  output ← getActorOutputAddress (unstake_ActorType msg) (bz (unstake_Address msg));
  mret [output; bz (unstake_Address msg)].
Definition getMessageUnpauseSignerCandidates (msg : MessageUnpause) : UM (list bytes) :=
  output ← getActorOutputAddress (unpause_ActorType msg) (bz (unpause_Address msg));
  mret [output; bz (unpause_Address msg)].
Definition getMessageSendSignerCandidates (msg : MessageSend) : UM (list bytes) := mret [bz (FromAddress msg)].

(** There is no case for [MessageEditStake]. *)
Definition getSignerCandidates (msg : Message) : UM (list bytes) :=
  match msg with
  | MSend x => getMessageSendSignerCandidates x
  | MStake x => getMessageStakeSignerCandidates x
  | MUnstake x => getMessageUnstakeSignerCandidates x
  | MUnpause x => getMessageUnpauseSignerCandidates x
  | MChangeParameter x => getMessageChangeParameterSignerCandidates x
  | MEditStake _ => fail (ErrUnknownMessage "*types.MessageEditStake")
  end.

(** ** transaction.go *)
Definition validateTxMessage (tx : Transaction) : UM Message :=
  match GetMessage tx with
  | inr e => fail (ErrDecodeMessage e)
  | inl (PMessage m) => mret m
  | inl _ => fail (ErrDecodeMessage "not a supported message type")
  end.

Definition validateTxSignature (address : bytes) (msg : Message) : UM bytes :=
  signerCandidates ← getSignerCandidates msg;
  if bool_decide (address ∈ signerCandidates) then mret address
  else fail (ErrInvalidSigner (Address_String address)).

Definition validateAndDeductTxFees (address : bytes) (msg : Message) : UM unit :=
  fee ← getFee msg (GetActorType msg);
  accountAmount ← wrap_err (fun e => ErrGetAccountAmount (Error_string e)) (getAccountAmount address);
  let accountAmount := accountAmount - fee in
  if bool_decide (accountAmount < 0) then fail (ErrInsufficientAmount (Address_String address))
  else
    setAccountAmount address accountAmount ;;
    addPoolAmount (Pools_Address POOLS_FEE_COLLECTOR) fee.

(** A missing signature dereferences nil; an invalid public key is not noticed (the stale
    [err] is tested) and the nil key is called. *)
Definition basicValidateTransaction (tx : Transaction) : UM Message :=
  msg ← validateTxMessage tx;
  match tx_Signature tx with
  | None => panic
  | Some sig =>
      match NewPublicKeyFromBytes (bz (sig_PublicKey sig)) with
      | Ok pubKey =>
          address ← validateTxSignature (PublicKey_Address pubKey) msg;
          validateAndDeductTxFees address (SetSigner (Some address) msg) ;;
          mret (SetSigner (Some address) msg)
      | _ => panic
      end
  end.

(** The error of the handler is a value; a panic is not. *)
Definition catch (m : UM unit) : UM (option Error) := fun u =>
  match m u with
  | (Ok _, u') => (Ok None, u')
  | (Err e, u') => (Ok (Some e), u')
  | (Panic, u') => (Panic, u')
  end.

Definition HandleTransaction (tx : Transaction) (index : Z) : UM IndexedTransaction :=
  msg ← basicValidateTransaction tx;
  msgHandlingResult ← catch (handleMessage msg);
  h ← gets height;
  match TxToIdxTx tx h index msg msgHandlingResult with
  | inl r => mret r
  | inr e => fail e
  end.

(** ** block.go *)
Definition IgnoreProposalBlockCheckHash : string :=
  "0100000000000000000000000000000000000000000000000000000000000010".

Definition prevBlockByzantineValidators : UM (list bytes) := mret [].

Definition beginBlock : UM unit :=
  previousBlockByzantineValidators ← prevBlockByzantineValidators;
  handleByzantineValidators previousBlockByzantineValidators.

Definition handleProposerRewards (proposer : bytes) : UM unit :=
  let feePoolAddress := Pools_Address POOLS_FEE_COLLECTOR in
  feesAndRewardsCollected ← getPoolAmount feePoolAddress;
  setPoolAmount feePoolAddress 0 ;;
  proposerCutPercentage ← getIntParam ProposerPercentageOfFeesParamName;
  let daoCutPercentage := i64 (100 - proposerCutPercentage) in
  if bool_decide (daoCutPercentage < 0) || bool_decide (100 < daoCutPercentage) then
    fail ErrInvalidProposerCutPercentage
  else
    let amountToProposer := bigFloatPercent feesAndRewardsCollected proposerCutPercentage in
    let amountToDAO := feesAndRewardsCollected - amountToProposer in
    addAccountAmount proposer amountToProposer ;;
    addPoolAmount (Pools_Address POOLS_DAO) amountToDAO.

(** [for actorTypeNum := range coreTypes.ActorType_name]: the order of a Go map is not
    specified, so it is an argument. *)
Definition unbondActor (poolAddress : bytes) (actor : UnstakingActor) : UM unit :=
  stakeAmount ← of_text ErrStringToBigInt (StringToBigInt (UStakeAmount actor));
  outputAddrBz ← match hexDecode (UOutputAddress actor) with
                 | Some b => mret b | None => fail (ErrHexDecodeFromString hexErrorText) end;
  subPoolAmount poolAddress stakeAmount ;;
  addAccountAmount outputAddrBz stakeAmount.

Definition unbondUnstakingActors (order : list Z) : UM unit :=
  forM order (fun actorType =>
    if bool_decide (actorType = 0) then mret tt
    else
      h ← gets height;
      let st := StakeStatus_Unstaking in
      readyToUnbond ← switchActor actorType
        (read ErrGetReadyToUnstake (fun p => GetAppsReadyToUnstake p h st))
        (read ErrGetReadyToUnstake (fun p => GetFishermenReadyToUnstake p h st))
        (read ErrGetReadyToUnstake (fun p => GetServicersReadyToUnstake p h st))
        (read ErrGetReadyToUnstake (fun p => GetValidatorsReadyToUnstake p h st))
        (mret []);
      let poolAddress := switchActor actorType (Pools_Address POOLS_APP_STAKE)
        (Pools_Address POOLS_FISHERMAN_STAKE) (Pools_Address POOLS_SERVICER_STAKE)
        (Pools_Address POOLS_VALIDATOR_STAKE) "" in
      forM readyToUnbond (unbondActor poolAddress)).

Definition beginUnstakingActorsPausedBefore (pausedBeforeHeight actorType : Z) : UM unit :=
  unbondingHeight ← getUnbondingHeight actorType;
  let wrap := fun er => ErrSetStatusPausedBefore er pausedBeforeHeight in
  let st := StakeStatus_Unstaking in
  switchActor actorType
    (write wrap (SetAppStatusAndUnstakingHeightIfPausedBefore pausedBeforeHeight unbondingHeight st))
    (write wrap (SetFishermanStatusAndUnstakingHeightIfPausedBefore pausedBeforeHeight unbondingHeight st))
    (write wrap (SetServicerStatusAndUnstakingHeightIfPausedBefore pausedBeforeHeight unbondingHeight st))
    (write wrap (SetValidatorsStatusAndUnstakingHeightIfPausedBefore pausedBeforeHeight unbondingHeight st))
    (mret tt).

Definition beginUnstakingMaxPausedActors (order : list Z) : UM unit :=
  forM order (fun actorType =>
    if bool_decide (actorType = 0) then mret tt
    else
      maxPausedBlocks ← getMaxAllowedPausedBlocks actorType;
      h ← gets height;
      let maxPauseHeight := Z.max 0 (i64 (h - maxPausedBlocks)) in
      beginUnstakingActorsPausedBefore maxPauseHeight actorType).

Definition endBlock (order1 order2 : list Z) (proposer : bytes) : UM unit :=
  handleProposerRewards proposer ;;
  unbondUnstakingActors order1 ;;
  beginUnstakingMaxPausedActors order2.

(** Not implemented in the source. *)
Definition revertLastSavePoint : UM unit := mret tt.
Definition newSavePoint (txHashBz : bytes) : UM unit := mret tt.

(** ** module.go, uow_leader.go, uow_replica.go *)
Definition SetProposalBlock (blockHash : string) (proposerAddr : slice) (txs : list bytes) : UM unit :=
  modify (fun u => {| height := height u; persistenceReadContext := persistenceReadContext u;
    persistenceRWContext := persistenceRWContext u; proposalStateHash := blockHash;
    proposalProposerAddr := proposerAddr; proposalBlockTxs := txs; stateHash := stateHash u |}).

Definition isProposalBlockSet (u : baseUtilityUnitOfWork) : bool :=
  bool_decide (proposalStateHash u ≠ "") && match proposalProposerAddr u with Some _ => true | None => false end.

Definition GetStateHash (u : baseUtilityUnitOfWork) : string := stateHash u.

Definition newUOW (h : Z) (readContext rwPersistenceContext : PostgresContext) : baseUtilityUnitOfWork := {|
  height := h; persistenceReadContext := Some readContext; persistenceRWContext := Some rwPersistenceContext;
  proposalStateHash := ""; proposalProposerAddr := None; proposalBlockTxs := []; stateHash := "" |}.
Definition NewLeaderUOW := newUOW.
Definition NewReplicaUOW := newUOW.

(** Both the unit of work and the utility module's mempool. *)
Record US := { uow : baseUtilityUnitOfWork; mempool : TxMempool.txFIFOMempool }.

Definition onUow {E A} (wrap : Error -> E) (m : UM A) : M US E A := fun s =>
  let '(r, u') := m (uow s) in
  (match r with Ok a => Ok a | Err e => Err (wrap e) | Panic => Panic end, {| uow := u'; mempool := mempool s |}).

(** A Go [error] returned by [ApplyBlock] and [CreateProposalBlock]. *)
Inductive goErr := PocketErr (e : Error) | PlainErr (s : string).

(** [logger.Fatal] on an error ends the process. *)
Definition fatal {A} (m : UM A) : UM A := fun u =>
  match m u with (Err _, u') => (Panic, u') | r => r end.

Definition indexTx (idxTx : IndexedTransaction) : UM unit :=
  fatal (write ErrAppHash (IndexTransaction idxTx)).

Definition processTx (index : Z) (txProtoBytes : bytes) : M US goErr unit :=
  tx ← match TxFromBytes txProtoBytes with inl tx => mret tx | inr e => fail (PlainErr e) end;
  match Tx_ValidateBasic tx with Some e => fail (PocketErr e) | None => mret tt end ;;
  idxTx ← onUow PocketErr (HandleTransaction tx index);
  txHash ← match Tx_Hash tx with inl h => mret h | inr e => fail (PlainErr e) end;
  modify (fun s => if TxMempool.ContainsTx txHash (mempool s)
                   then {| uow := uow s; mempool := TxMempool.RemoveTx txProtoBytes (mempool s) |} else s) ;;
  onUow PocketErr (indexTx idxTx).

Fixpoint processTxs (index : Z) (txs : list bytes) : M US goErr unit :=
  match txs with
  | [] => mret tt
  | b :: rest => processTx index b ;; processTxs (index + 1) rest
  end.
Definition processProposalBlockTransactions : M US goErr unit :=
  txs ← gets (fun s => proposalBlockTxs (uow s));
  processTxs 0 txs.

(** The state trees are a parameter: the root hash of the updated trees. *)
Context (treesUpdate : DB -> TxIndexer -> Z -> res string string).

Definition ComputeStateHash : PM string :=
  p ← get;
  h ← of_res (treesUpdate (db p) (txIndexer p) (u64 (Height p)));
  modify (fun p => {| Height := Height p; db := db p; ctx_stateHash := h; blockStore := blockStore p;
                      txIndexer := txIndexer p; networkId := networkId p |}) ;;
  mret h.

Definition ApplyBlock (order1 order2 : list Z) : M US goErr unit :=
  s ← get;
  if negb (isProposalBlockSet (uow s)) then fail (PocketErr ErrProposalBlockNotSet)
  else
    onUow PocketErr beginBlock ;;
    processProposalBlockTransactions ;;
    onUow PocketErr (endBlock order1 order2 (bz (proposalProposerAddr (uow s)))) ;;
    h ← onUow PocketErr (fatal (write ErrAppHash ComputeStateHash));
    s ← get;
    if bool_decide (proposalStateHash (uow s) ≠ IgnoreProposalBlockCheckHash)
       && bool_decide (proposalStateHash (uow s) ≠ h)
    then panic
    else
      modify (fun s => {| uow := {| height := height (uow s); persistenceReadContext := persistenceReadContext (uow s);
        persistenceRWContext := persistenceRWContext (uow s); proposalStateHash := proposalStateHash (uow s);
        proposalProposerAddr := proposalProposerAddr (uow s); proposalBlockTxs := proposalBlockTxs (uow s);
        stateHash := h |}; mempool := mempool s |}).

(** [Commit]: the read-write context is dropped once its transaction has been committed;
    the committed context is the result. *)
Definition Commit (now : Z) (quorumCert : slice) : M baseUtilityUnitOfWork string PostgresContext := fun u =>
  match persistenceRWContext u with
  | None => (Panic, u)
  | Some p =>
      match Persistence.Commit now (proposalProposerAddr u) quorumCert p with
      | (Ok _, p') => (Ok p', set_rw None u)
      | (Err e, p') => (Err e, set_rw (Some p') u)
      | (Panic, p') => (Panic, set_rw (Some p') u)
      end
  end.

Definition Release : UM unit :=
  modify (fun u => {| height := height u; persistenceReadContext := None; persistenceRWContext := None;
    proposalStateHash := proposalStateHash u; proposalProposerAddr := proposalProposerAddr u;
    proposalBlockTxs := proposalBlockTxs u; stateHash := stateHash u |}).

(** *** The leader: one iteration of the loop of [reapMempool].  [None] ends the loop. *)
Record reapState := { reaped : list bytes; txsTotalBz : Z; txIdx : Z }.

Definition reapStep (maxTxBytes : Z) (st : reapState) : M US goErr (option reapState) := fun s =>
  match TxMempool.PopTx (mempool s) with
  | (inr _, m') => (Err (PlainErr "empty set"), {| uow := uow s; mempool := m' |})
  | (inl txBz, m') =>
      let s1 := {| uow := uow s; mempool := m' |} in
      match TxFromBytes txBz with
      | inr e => (Err (PlainErr e), s1)
      | inl tx =>
          let total := u64 (txsTotalBz st + blen txBz) in
          if bool_decide (maxTxBytes <= total) then
            let '(err, m2) := TxMempool.AddTx txBz m' in
            let s2 := {| uow := uow s; mempool := m2 |} in
            match err with Some e => (Err (PocketErr e), s2) | None => (Ok None, s2) end
          else
            match onUow PocketErr (HandleTransaction tx (txIdx st)) s1 with
            | (Panic, s2) => (Panic, s2)
            | (Err _, s2) =>
                (Ok (Some {| reaped := reaped st; txsTotalBz := u64 (total - blen txBz); txIdx := txIdx st |}), s2)
            | (Ok idxTx, s2) =>
                match onUow PocketErr (indexTx idxTx) s2 with
                | (Ok _, s3) =>
                    (Ok (Some {| reaped := reaped st ++ [txBz]; txsTotalBz := total; txIdx := txIdx st + 1 |}), s3)
                | (_, s3) => (Panic, s3)
                end
            end
      end
  end.

(** Every iteration that continues takes one transaction out of the mempool, so the number
    of transactions in it is enough fuel. *)
Fixpoint reapLoop (fuel : nat) (maxTxBytes : Z) (st : reapState) : M US goErr (list bytes) := fun s =>
  match fuel with
  | O => (Ok (reaped st), s)
  | S fuel' =>
      if TxMempool.IsEmptyTxs (mempool s) then (Ok (reaped st), s)
      else
        match reapStep maxTxBytes st s with
        | (Err e, s') => (Err e, s')
        | (Panic, s') => (Panic, s')
        | (Ok None, s') => (Ok (reaped st), s')
        | (Ok (Some st'), s') => reapLoop fuel' maxTxBytes st' s'
        end
  end.
Definition reapMempool (maxTxBytes : Z) : M US goErr (list bytes) := fun s =>
  reapLoop (length (FIFOSet.queue (TxMempool.g (mempool s)))) maxTxBytes
    {| reaped := []; txsTotalBz := 0; txIdx := 0 |} s.

Definition CreateProposalBlock (order1 order2 : list Z) (proposer : slice) (maxTxBytes : Z)
    : M US goErr (string * list bytes) :=
  onUow PocketErr beginBlock ;;
  txs ← reapMempool maxTxBytes;
  onUow PocketErr (endBlock order1 order2 (bz proposer)) ;;
  h ← onUow PocketErr (fatal (write ErrAppHash ComputeStateHash));
  mret (h, txs).
End crypto_handlers.
End UnitOfWork.
