(* ===== verification/TreesFacts.v ===== *)
(** The incremental updates of the state trees against the reference state hash.

    [trees_track_state] shows that from one block to the next the trees hold the snapshots of [TreesSpec]
    and [Update] returns the reference state hash, in whatever order the Go maps and the database
    return their entries.  [discarded_block_forks] and [restart_forks] show when they do not. *)

From S2P Require Import Prelude GoStd GoSort Crypto CoreTypes Messages Sql Persistence KvStore SqlQueries Trees TreesSpec UnitOfWork.
#[local] Open Scope string_scope.
#[local] Open Scope Z_scope.

Module TreesFacts.
Import Trees TreesSpec.
Section facts.
Context `{CP : CryptoPrims} {B : Badger} {S : SmtLib} `{PS : PgxScan} `{TC : TreeCodec} `{GO : GoMapOrder}.
Context {BL : BadgerLaws B} {L : SmtLaws S}.
Implicit Types (ts : treeStore) (st : stateTree) (n : string) (d : DB) (i : TxIndexer) (h : Z).

(** ** Stores *)
Definition okTree n st : Prop := name st = n /\ backed (tree st) (nodeStore st).
Definition contentOf ts n : gmap bytes bytes :=
  match merkleTrees ts !! n with Some st => smtContent (tree st) | None => ∅ end.

(** The nine trees, and a root tree with no other keys than their names. *)
Record wfStore ts : Prop := {
  wf_names : forall n, is_Some (merkleTrees ts !! n) <-> n ∈ stateTreeNames;
  wf_trees : forall n st, merkleTrees ts !! n = Some st -> okTree n st;
  wf_root : backed (tree (rootTree ts)) (nodeStore (rootTree ts));
  wf_rootKeys : forall n, is_Some (smtContent (tree (rootTree ts)) !! n) -> n ∈ stateTreeNames;
}.

(** [ts'] is [ts] with the batch [l] written to the tree [n]. *)
Definition writes n (l : list (bytes * bytes)) ts ts' : Prop :=
  wfStore ts' /\ rootTree ts' = rootTree ts /\ contentOf ts' n = applyBatch (contentOf ts n) l /\
  forall n', n' ≠ n -> contentOf ts' n' = contentOf ts n'.

Lemma writes_nil n ts : wfStore ts -> writes n [] ts ts.
Proof. by intros W. Qed.

Lemma set_tree_wf n st st' ts :
  wfStore ts -> merkleTrees ts !! n = Some st -> okTree n st' -> wfStore (set_merkleTrees (<[n := st']> (merkleTrees ts)) ts).
Proof.
  intros W Hn Ho. split; cbn; [| |apply W|apply W].
  - intros n'. rewrite lookup_insert_is_Some, <- (wf_names ts W). split; [|destruct (decide (n = n')); naive_solver].
    intros [<-|[_ ?]]; [by eauto|done].
  - intros n' st0 [[<- <-]|[_ Hl]]%lookup_insert_Some; [done|by apply (wf_trees ts W)].
Qed.

Lemma set_tree_content n st ts n' :
  contentOf (set_merkleTrees (<[n := st]> (merkleTrees ts)) ts) n' = if bool_decide (n' = n) then smtContent (tree st) else contentOf ts n'.
Proof.
  unfold contentOf. cbn. case_bool_decide as He; [subst; by rewrite lookup_insert_eq|by rewrite lookup_insert_ne by congruence].
Qed.

Lemma contentOf_eq ts n st : merkleTrees ts !! n = Some st -> contentOf ts n = smtContent (tree st).
Proof. unfold contentOf. by intros ->. Qed.

Lemma treeUpdate_writes n k v ts : wfStore ts -> n ∈ stateTreeNames -> exists ts', treeUpdate n k v ts = (Ok tt, ts') /\ writes n [(k, v)] ts ts'.
Proof.
  intros W [st Hst]%(wf_names ts W). destruct (wf_trees ts W n st Hst) as [Hn Hb].
  unfold treeUpdate, onTree, onSmt. rewrite Hst. destruct (smt_update _ _ k v Hb) as (t' & db' & -> & Hb' & Hc').
  eexists. split; [done|]. split_and!; [by eapply set_tree_wf| done | |].
  - rewrite set_tree_content, bool_decide_eq_true_2, (contentOf_eq ts n st) by done. exact Hc'.
  - intros n' Hne. by rewrite set_tree_content, bool_decide_eq_false_2.
Qed.

Lemma writes_app n l1 l2 ts0 ts1 ts2 : writes n l1 ts0 ts1 -> writes n l2 ts1 ts2 -> writes n (l1 ++ l2) ts0 ts2.
Proof.
  intros (W1 & R1 & C1 & O1) (W2 & R2 & C2 & O2). split_and!; [done|congruence| |].
  - rewrite C2, C1. unfold applyBatch. by rewrite foldl_app.
  - intros n' Hne. rewrite O2, O1; done.
Qed.

(** A loop whose bodies each write an entry. *)
Lemma forM_writes {A} n (enc : A -> option (bytes * bytes)) (body : A -> M treeStore string unit) (l : list A) ts :
  wfStore ts -> n ∈ stateTreeNames ->
  (forall x, x ∈ l -> exists k v, enc x = Some (k, v) /\ forall ts, body x ts = treeUpdate n k v ts) ->
  exists ts', forM l body ts = (Ok tt, ts') /\ writes n (omap enc l) ts ts'.
Proof.
  intros W Hn. revert ts W. induction l as [|x l IH]; intros ts W Hb; [exists ts; split; [done|by apply writes_nil]|].
  destruct (Hb x) as (k & v & He & Hx); [set_solver|]. destruct (treeUpdate_writes n k v ts W Hn) as (ts1 & Hu & Hw1).
  destruct (IH ts1) as (ts2 & Hr & Hw2); [apply Hw1|intros; apply Hb; set_solver|]. exists ts2. cbn [forM]. split.
  - rewrite bind_run with (a := tt) (s1 := ts1) by (rewrite Hx; exact Hu). exact Hr.
  - cbn. rewrite He. by apply (writes_app n [(k, v)] _ _ ts1).
Qed.

(** ** The rows of a height *)
Lemma elem_of_SelectAtHeight {R} (t : Table R) h x r : (x, r) ∈ SelectAtHeight t h <-> rowAt t x h = Some r.
Proof.
  unfold SelectAtHeight, rowAt. rewrite elem_of_map_to_list, lookup_omap. destruct (t !! x); [done|]. cbn. done.
Qed.

(** The entries that the code writes for the rows of a height. *)
Definition batchOf {A} (T : TreeTable) h (enc : A -> option (bytes * bytes)) (l : list A) : Prop :=
  forall k v, (k, v) ∈ omap enc l <-> written T h k v.

(** [updateMerkleTree] at a tree writes the rows of the height. *)
Definition updatesTree d i h n : Prop := forall ts, wfStore ts -> exists ts' l,
  updateMerkleTree d i h n ts = (Ok tt, ts') /\ writes n l ts ts' /\ forall k v, (k, v) ∈ l <-> written (treeTable d i n) h k v.

Lemma updates_by {A} d i h n (q : res string (list A)) (l : list A) (enc : A -> option (bytes * bytes)) (f g : string -> string) (body : A -> M treeStore string unit) :
  n ∈ stateTreeNames -> q = Ok l -> batchOf (treeTable d i n) h enc l ->
  (forall x, x ∈ l -> exists k v, enc x = Some (k, v) /\ forall ts, body x ts = treeUpdate n k v ts) ->
  (forall ts, updateMerkleTree d i h n ts = (xs ← wrap_err f (of_res q); wrap_err g (forM xs body)) ts) ->
  updatesTree d i h n.
Proof.
  intros Hn -> Hl Hb He ts W. destruct (forM_writes n enc body l ts W Hn Hb) as (ts' & Hr & Hw).
  exists ts', (omap enc l). split_and!; [|done|done]. rewrite He. cbn. unfold mbind, M_bind, wrap_err, of_res. by rewrite Hr.
Qed.

Lemma canonical_row {R} (t : Table R) x h r : canonical t -> rowAt t x h = Some r -> exists b, x = hexEncode b /\ hexDecode x = Some b.
Proof. intros Hc Hr%rowAt_dom. destruct (Hc x Hr) as [b ->]. exists b. split; [done|apply hex_decode_encode]. Qed.

(** *** Accounts and pools *)
Definition encAccount (a : Account) : option (bytes * bytes) := k ← hexDecode (AccAddress a); v ← ok (marshalAccount a); Some (k, v).

Lemma account_batch sch d h :
  batchOf (accountTable sch d) h encAccount
    ((fun row : string * string => {| AccAddress := row.1; AccAmount := row.2 |}) <$> SelectAtHeight (accTable sch d) h).
Proof.
  intros k v. rewrite list_elem_of_omap. unfold written. cbn. split.
  - intros [a [Ha He]]. apply list_elem_of_fmap in Ha as [[x r] [-> Hx%elem_of_SelectAtHeight]]. exists x, r. split; [done|].
    unfold encAccount in He. cbn in He. destruct (hexDecode x); [|done]. cbn in He. destruct (ok _); [|done]. cbn in He. by injection He as -> ->.
  - intros (x & r & Hr & Hk & Hv). eexists. split.
    + apply list_elem_of_fmap. exists (x, r). split; [done|]. by apply elem_of_SelectAtHeight.
    + unfold encAccount. cbn. rewrite Hk. cbn. by rewrite Hv.
Qed.

Lemma account_body sch d h n a :
  encodable (accountTable sch d) h ->
  a ∈ (fun row : string * string => {| AccAddress := row.1; AccAmount := row.2 |}) <$> SelectAtHeight (accTable sch d) h ->
  exists k v, encAccount a = Some (k, v) /\ forall ts, updateAccountTree n a ts = treeUpdate n k v ts.
Proof.
  intros He [[x r] [-> Hx%elem_of_SelectAtHeight]]%list_elem_of_fmap. destruct (He x r Hx) as (k & v & Hk & Hv). cbn in Hk, Hv.
  exists k, v. unfold encAccount, updateAccountTree, decodeString, fromSum. cbn. rewrite Hk. cbn. unfold ok in *.
  destruct (marshalAccount _); [|done]. cbn. split; [congruence|]. intros ts. by injection Hv as ->.
Qed.

Lemma updates_accounts d i h : i64 h = h -> encodable (accountTable AccountS d) h -> updatesTree d i h AccountTreeName.
Proof.
  intros Hh He. eapply updates_by; [set_solver|reflexivity| | |by intros ts].
  - rewrite Hh. exact (account_batch AccountS d h).
  - rewrite Hh. intros x. by apply (account_body AccountS).
Qed.

Lemma updates_pools d i h : i64 h = h -> encodable (accountTable PoolS d) h -> updatesTree d i h PoolTreeName.
Proof.
  intros Hh He. eapply updates_by; [set_solver|reflexivity| | |by intros ts].
  - rewrite Hh. exact (account_batch PoolS d h).
  - rewrite Hh. intros x. by apply (account_body PoolS).
Qed.

(** *** Parameters and flags *)
Lemma elem_of_sortKeys {A} (l : list (string * A)) e : e ∈ sortKeys l <-> e ∈ l.
Proof. unfold sortKeys. by rewrite sorting.merge_sort_Permutation. Qed.

Definition encParam (p : Param) : option (bytes * bytes) := v ← ok (marshalParam p); Some (SHA3Hash (prm_Name p), v).
Definition encFlag (f : Flag) : option (bytes * bytes) := v ← ok (marshalFlag f); Some (SHA3Hash (flg_Name f), v).

Lemma updates_params d i h : i64 h = h -> encodable (paramTable d) h -> updatesTree d i h ParamsTreeName.
Proof.
  intros Hh He. eapply (updates_by d i h _ _ _ encParam); [set_solver|reflexivity| | |by intros ts].
  - rewrite Hh. intros k v. change (treeTable d i ParamsTreeName) with (paramTable d). rewrite list_elem_of_omap. unfold written. cbn. split.
    + intros [a [[[x r] [-> Hx%elem_of_sortKeys%elem_of_SelectAtHeight]]%list_elem_of_fmap Ha]]. exists x, r. split; [done|].
      unfold encParam in Ha. cbn in Ha. destruct (ok _) as [b|] eqn:Hb; [|done]. cbn in Ha. injection Ha as <- <-. done.
    + intros (x & r & Hr & Hk & Hv). eexists. split.
      * apply list_elem_of_fmap. exists (x, r). split; [done|]. by apply elem_of_sortKeys, elem_of_SelectAtHeight.
      * unfold encParam. cbn. rewrite Hv. cbn. congruence.
  - rewrite Hh. intros a [[x r] [-> Hx%elem_of_sortKeys%elem_of_SelectAtHeight]]%list_elem_of_fmap.
    destruct (He x r Hx) as (k & v & Hk & Hv). cbn in Hk, Hv. exists k, v. unfold encParam, fromSum. cbn. unfold ok in *.
    destruct (marshalParam _); [|done]. cbn. split; [congruence|]. intros ts. injection Hv as ->. by injection Hk as ->.
Qed.

Definition flagOf h (e : string * ParamRow) : option Flag :=
  text ← ok (scanBoolText (enabled e.2)); Some {| flg_Name := e.1; flg_Value := param_value e.2; flg_Height := h; flg_Enabled := text |}.

Lemma scanFlags_ok h (rows : list (string * ParamRow)) :
  i64 h = h -> (forall e, e ∈ rows -> is_Some (flagOf h e)) -> SqlQueries.scanFlags h rows = Ok (omap (flagOf h) rows).
Proof.
  intros Hh. induction rows as [|[n r] rows IH]; intros Hs; [done|]. cbn [SqlQueries.scanFlags omap list_omap].
  destruct (Hs (n, r)) as [f Hf]; [set_solver|]. unfold flagOf, ok in *. cbn in *. destruct (scanBoolText (enabled r)); [|done]. cbn in *.
  rewrite IH by (intros; apply Hs; set_solver). by rewrite Hh.
Qed.

Lemma flag_row d h x r : encodable (flagTable d) h -> rowAt (flags d) x h = Some r ->
  exists f v, flagOf h (x, r) = Some f /\ flg_Name f = x /\ marshalFlag f = inl v /\ tt_val (flagTable d) x h r = Some v.
Proof.
  intros He Hr. destruct (He x r Hr) as (k & v & Hk & Hv).
  enough (exists f, flagOf h (x, r) = Some f /\ flg_Name f = x /\ marshalFlag f = inl v) as (f & ? & ? & ?) by (by exists f, v).
  cbn in Hv. unfold flagOf. cbn. unfold ok in *. destruct (scanBoolText (enabled r)) as [text|]; [|done]. cbn in *.
  eexists. split_and!; [done|done|]. destruct (marshalFlag _); [congruence|done].
Qed.

Lemma updates_flags d i h : i64 h = h -> encodable (flagTable d) h -> updatesTree d i h FlagsTreeName.
Proof.
  intros Hh He.
  assert (forall e, e ∈ sortKeys (SelectAtHeight (flags d) h) -> is_Some (flagOf h e)) as Hs.
  { intros [x r] Hx%elem_of_sortKeys%elem_of_SelectAtHeight. destruct (flag_row d h x r He Hx) as (f & v & Hf & _). by exists f. }
  eapply (updates_by d i h _ _ _ encFlag); [set_solver|by apply scanFlags_ok| | |by intros ts].
  - intros k v. change (treeTable d i FlagsTreeName) with (flagTable d). rewrite list_elem_of_omap. split.
    + intros [f [[[x r] [Hx%elem_of_sortKeys%elem_of_SelectAtHeight Hf]]%list_elem_of_omap Ha]]. exists x, r. split; [done|].
      destruct (flag_row d h x r He Hx) as (f' & v' & Hf' & Hn & Hm & Hv). rewrite Hf in Hf'. injection Hf' as <-.
      unfold encFlag in Ha. rewrite Hm in Ha. cbn in Ha. injection Ha as <- <-. rewrite Hn. by split.
    + intros (x & r & Hr & Hk & Hv). destruct (flag_row d h x r He Hr) as (f & v' & Hf & Hn & Hm & Hv'). exists f. split.
      * apply list_elem_of_omap. exists (x, r). split; [|done]. by apply elem_of_sortKeys, elem_of_SelectAtHeight.
      * unfold encFlag. rewrite Hm. cbn. rewrite Hn. rewrite Hv in Hv'. injection Hv' as ->. cbn in Hk. congruence.
  - intros f [[x r] [Hx%elem_of_sortKeys%elem_of_SelectAtHeight Hf]]%list_elem_of_omap.
    destruct (flag_row d h x r He Hx) as (f' & v & Hf' & Hn & Hm & _). rewrite Hf in Hf'. injection Hf' as <-.
    exists (SHA3Hash (flg_Name f)), v. unfold encFlag, fromSum. by rewrite Hm.
Qed.

(** *** Transactions *)
Definition encTx (t : IndexedTransaction) : option (bytes * bytes) := Some (SHA3Hash (idx_Tx t), idx_Tx t).

Lemma getByHeight_ok i h : indexed i -> exists l : list IndexedTransaction, Persistence.GetByHeight i h = Ok l /\
  forall t, t ∈ l <-> exists j hash, txByHeight i !! (h, j) = Some hash /\ txByHash i !! hash = Some t.
Proof.
  intros [_ Hi]. unfold GetByHeight. set (es := sorting.merge_sort idxLe (hashesAtHeight i h)).
  assert (forall j hash, (j, hash) ∈ es <-> txByHeight i !! (h, j) = Some hash) as Hes.
  { intros j hash. unfold es, hashesAtHeight. rewrite sorting.merge_sort_Permutation, list_elem_of_fmap. split.
    - intros [[[h' j'] x] [[= -> ->] [Hf Hx%elem_of_map_to_list]%list_elem_of_filter]]. cbn in Hf. by subst.
    - intros Hx. exists (h, j, hash). split; [done|]. by apply list_elem_of_filter; split; [|apply elem_of_map_to_list]. }
  destruct (mapM (fun e : Z * string => txByHash i !! e.2) es) as [l|] eqn:Hm.
  - exists l. split; [done|]. apply mapM_Some in Hm. intros t. split.
    + intros Ht. apply list_elem_of_lookup in Ht as [q Hq]. destruct (Forall2_lookup_r _ _ _ _ _ Hm Hq) as ([j hash] & He & Hh).
      exists j, hash. split; [|done]. apply Hes. by eapply list_elem_of_lookup_2.
    + intros (j & hash & Hj%Hes & Ht). apply list_elem_of_lookup in Hj as [q Hq].
      destruct (Forall2_lookup_l _ _ _ _ _ Hm Hq) as (t' & Hl & Hh). cbn in Hh. assert (t = t') as -> by congruence. by eapply list_elem_of_lookup_2.
  - apply mapM_None in Hm. apply Exists_exists in Hm as [[j hash] [Hj%Hes Hn]]. destruct (Hi _ _ Hj) as [t Ht]. cbn in Hn. congruence.
Qed.

Lemma updates_transactions d i h : i64 h = h -> indexed i -> updatesTree d i h TransactionsTreeName.
Proof.
  intros Hh Hi. destruct (getByHeight_ok i h Hi) as (l & Hl & Hin).
  eapply (updates_by d i h _ _ l encTx (errorf "failed to get transactions: ") (errorf "failed to update transactions: ")); [set_solver| | | |by intros ts].
  - unfold SqlQueries.GetTransactions. by rewrite Hh, Hl.
  - intros k v. change (treeTable d i TransactionsTreeName) with (txTable i). rewrite list_elem_of_omap. unfold written. cbn. split.
    + intros [t [(j & hash & Hj & Ht)%Hin [= <- <-]]]. exists hash, (idx_Tx t). split; [|split; [|done]].
      * apply txRows_spec. by exists j, t.
      * rewrite (proj1 Hi hash t Ht). apply hex_decode_encode.
    + intros (hash & b & (j & t & Hj & Ht & ->)%txRows_spec & Hk & [= <-]). exists t. split; [apply Hin; by exists j, hash|].
      rewrite (proj1 Hi hash t Ht), hex_decode_encode in Hk. unfold encTx. congruence.
  - intros t _. by exists (SHA3Hash (idx_Tx t)), (idx_Tx t).
Qed.

(** *** Actors *)
Definition encActor (a : Actor) : option (bytes * bytes) := k ← hexDecode (Address a); v ← ok (marshalActor a); Some (k, v).

Lemma decodeAddrs_ok (l : list string) :
  (forall a, a ∈ l -> exists b, a = hexEncode b) -> exists bs, SqlQueries.decodeAddrs l = Ok bs /\ l = hexEncode <$> bs.
Proof.
  induction l as [|a l IH]; intros Hl; [by exists []|]. destruct (Hl a) as [b ->]; [set_solver|].
  destruct IH as (bs & Hd & ->); [intros; apply Hl; set_solver|]. exists (b :: bs). cbn [SqlQueries.decodeAddrs].
  by rewrite hex_decode_encode, Hd.
Qed.

Lemma getActor_ok s d b h r : rowAt (actorTable d s) (hexEncode b) h = Some r ->
  SqlQueries.getActor d s b h = Ok (actorAt s d (hexEncode b) h r).
Proof.
  intros Hr. assert (selectLatest (actorTable d s) (hexEncode b) h = Some (h, r)) as Hs by (by rewrite selectLatest_step, Hr).
  unfold SqlQueries.getActor, actorAt, SqlQueries.getChainsForActor. rewrite Hs. cbn. case_bool_decide; [done|].
  unfold selectChains. by rewrite Hs.
Qed.

Lemma readActors_ok s d h (bs : list bytes) :
  (forall b, b ∈ bs -> is_Some (rowAt (actorTable d s) (hexEncode b) h)) ->
  exists l, SqlQueries.readActors d s bs h = Ok l /\
    forall a, a ∈ l <-> exists b r, b ∈ bs /\ rowAt (actorTable d s) (hexEncode b) h = Some r /\ a = actorAt s d (hexEncode b) h r.
Proof.
  induction bs as [|b bs IH]; intros Hb; [exists []; split; [done|]; set_solver|].
  destruct IH as (l & Hl & Hin); [intros; apply Hb; set_solver|]. destruct (Hb b) as [r Hr]; [set_solver|].
  exists (actorAt s d (hexEncode b) h r :: l). cbn [SqlQueries.readActors]. rewrite (getActor_ok s d b h r Hr), Hl. split; [done|].
  intros a. rewrite elem_of_cons, Hin. split.
  - intros [->|(b' & r' & ? & ?)]; [exists b, r; set_solver|exists b', r'; set_solver].
  - intros (b' & r' & [->|Hin']%elem_of_cons & Hr' & ->); [left; congruence|right; by exists b', r'].
Qed.

Lemma GetActors_ok t s d h :
  i64 h = h -> SqlQueries.actorTypeToSchemaName t = Some s -> canonical (actorTable d s) ->
  exists l, SqlQueries.GetActors d t h = Ok l /\
    forall a, a ∈ l <-> exists x r, rowAt (actorTable d s) x h = Some r /\ a = actorAt s d x h r.
Proof.
  intros Hh Hs Hc. unfold SqlQueries.GetActors. rewrite Hs, Hh. set (rows := SelectAtHeight (actorTable d s) h).
  assert (forall x, x ∈ rows.*1 -> exists r, rowAt (actorTable d s) x h = Some r) as Hrows.
  { intros x [[y r] [-> Hx%elem_of_SelectAtHeight]]%list_elem_of_fmap. by exists r. }
  destruct (decodeAddrs_ok rows.*1) as (bs & -> & Hbs).
  { intros x [r Hr]%Hrows. destruct (canonical_row _ _ _ _ Hc Hr) as (b & -> & _). by exists b. }
  destruct (readActors_ok s d h bs) as (l & Hl & Hin).
  { intros b Hb. apply Hrows. rewrite Hbs. apply list_elem_of_fmap. by exists b. }
  exists l. split; [done|]. intros a. rewrite Hin. split; [intros (b & r & _ & ? & ?); by exists (hexEncode b), r|].
  intros (x & r & Hr & ->). assert (x ∈ hexEncode <$> bs) as [b [-> Hb]]%list_elem_of_fmap; [|by exists b, r].
  rewrite <- Hbs. apply list_elem_of_fmap. exists (x, r). split; [done|]. by apply elem_of_SelectAtHeight.
Qed.

Lemma actorAt_address s d x h r : Address (actorAt s d x h r) = x.
Proof. unfold actorAt. by case_bool_decide. Qed.

Lemma updates_actors d i h n t s :
  i64 h = h -> n ∈ [AppTreeName; ValTreeName; FishTreeName; ServicerTreeName] ->
  merkleTreeNameToActorTypeName n = Some t -> actorTypeToMerkleTreeName t = Some n -> SqlQueries.actorTypeToSchemaName t = Some s ->
  treeTable d i n = actorTreeTable s d -> canonical (actorTable d s) -> encodable (actorTreeTable s d) h -> updatesTree d i h n.
Proof.
  intros Hh Hn Ht Hm Hs Htt Hc He. destruct (GetActors_ok t s d h Hh Hs Hc) as (l & Hl & Hin).
  assert (forall a, a ∈ l -> exists k v, encActor a = Some (k, v) /\ hexDecode (Address a) = Some k /\ marshalActor a = inl v) as Henc.
  { intros a (x & r & Hr & ->)%Hin. destruct (He x r Hr) as (k & v & Hk & Hv). cbn in Hk, Hv. exists k, v. unfold encActor.
    rewrite actorAt_address, Hk. cbn. unfold ok in *. destruct (marshalActor _); [|done]. cbn. split_and!; congruence. }
  eapply (updates_by d i h n _ l encActor
    (errorf ("failed to get actors at height " +:+ bigIntText h +:+ ": "))
    (errorf ("failed to update actors tree for treeType: " +:+ n +:+ ", actorType: " +:+ ActorType_String t +:+ " - "))
    (updateActorTree t)); [set_solver|exact Hl| | |].
  - rewrite Htt. intros k v. rewrite list_elem_of_omap. split.
    + intros [a [Ha He']]. destruct (Henc a Ha) as (k' & v' & He'' & Hk & Hv). rewrite He' in He''. injection He'' as <- <-.
      apply Hin in Ha as (x & r & Hr & ->). exists x, r. rewrite actorAt_address in Hk. cbn. by rewrite Hv.
    + intros (x & r & Hr & Hk & Hv). exists (actorAt s d x h r). split; [apply Hin; by exists x, r|]. unfold encActor. cbn in Hk, Hv.
      rewrite actorAt_address, Hk. cbn. by rewrite Hv.
  - intros a Ha. destruct (Henc a Ha) as (k & v & He' & Hk & Hv). exists k, v. split; [done|]. intros ts.
    unfold updateActorTree, decodeString, fromSum. by rewrite Hk, Hv, Hm.
  - intros ts. unfold updateMerkleTree. rewrite bool_decide_eq_true_2 by done. by rewrite Ht.
Qed.

(** ** One tree after the other *)
Lemma updates_tree d i h n :
  i64 h = h -> wfState d i -> n ∈ stateTreeNames -> encodable (treeTable d i n) h -> updatesTree d i h n.
Proof.
  intros Hh W Hn He. unfold stateTreeNames in Hn.
  repeat (apply elem_of_cons in Hn as [->|Hn]); [..|by apply elem_of_nil in Hn].
  - eapply updates_actors; [done|set_solver|reflexivity..|apply (wf_actors d i W)|exact He].
  - eapply updates_actors; [done|set_solver|reflexivity..|apply (wf_actors d i W)|exact He].
  - eapply updates_actors; [done|set_solver|reflexivity..|apply (wf_actors d i W)|exact He].
  - eapply updates_actors; [done|set_solver|reflexivity..|apply (wf_actors d i W)|exact He].
  - by apply updates_accounts.
  - by apply updates_pools.
  - apply updates_transactions; [done|apply W].
  - by apply updates_params.
  - by apply updates_flags.
Qed.

(** The content of a tree after the rows of a height have been written. *)
Definition overlay (T : TreeTable) h (c c' : gmap bytes bytes) : Prop :=
  exists l, c' = applyBatch c l /\ forall k v, (k, v) ∈ l <-> written T h k v.

Lemma loop_updates d i h (names : list string) ts :
  i64 h = h -> wfState d i -> wfStore ts -> NoDup names -> (forall n, n ∈ names -> n ∈ stateTreeNames /\ encodable (treeTable d i n) h) ->
  exists ts', forM names (updateMerkleTree d i h) ts = (Ok tt, ts') /\ wfStore ts' /\ rootTree ts' = rootTree ts /\
    (forall n, n ∈ names -> overlay (treeTable d i n) h (contentOf ts n) (contentOf ts' n)) /\
    (forall n, n ∉ names -> contentOf ts' n = contentOf ts n).
Proof.
  intros Hh Ws. revert ts. induction names as [|n names IH]; intros ts W Hd Hn; [exists ts; set_solver|].
  apply NoDup_cons in Hd as [Hni Hd]. destruct (Hn n) as [Hin He]; [set_solver|].
  destruct (updates_tree d i h n Hh Ws Hin He ts W) as (ts1 & l & Hu & (W1 & R1 & C1 & O1) & Hl).
  destruct (IH ts1 W1 Hd) as (ts2 & Hr & W2 & R2 & C2 & O2); [intros; apply Hn; set_solver|].
  exists ts2. cbn [forM]. rewrite (bind_run _ _ _ _ _ Hu). split_and!; [done|done|congruence| |].
  - intros n' [->|Hn']%elem_of_cons.
    + rewrite O2 by done. by exists l.
    + rewrite <- (O1 n') by (intros ->; done). by apply C2.
  - intros n' [Hne Hn']%not_elem_of_cons. rewrite O2 by done. by apply O1.
Qed.

(** ** Commit and the root tree *)
Lemma onTree_commit n ts : wfStore ts -> n ∈ stateTreeNames ->
  exists ts', onTree n (onSmt smtCommit) ts = (Ok tt, ts') /\ wfStore ts' /\ rootTree ts' = rootTree ts /\ forall n', contentOf ts' n' = contentOf ts n'.
Proof.
  intros W [st Hst]%(wf_names ts W). destruct (wf_trees ts W n st Hst) as [Hn Hb].
  unfold onTree, onSmt. rewrite Hst. destruct (smt_commit _ _ Hb) as (t' & db' & -> & Hb' & Hc').
  eexists. split; [done|]. split_and!; [by eapply set_tree_wf|done|]. intros n'. rewrite set_tree_content. case_bool_decide; [|done].
  subst n'. by rewrite (contentOf_eq ts n st).
Qed.

Lemma elem_of_names ts n : wfStore ts -> n ∈ (mapOrder (merkleTrees ts)).*1 <-> n ∈ stateTreeNames.
Proof.
  intros W. rewrite <- (wf_names ts W), list_elem_of_fmap. split.
  - intros [[n' st] [-> Hin%elem_of_mapOrder]]. by exists st.
  - intros [st Hst]. exists (n, st). by rewrite elem_of_mapOrder.
Qed.

Lemma commit_loop (names : list string) ts : wfStore ts -> (forall n, n ∈ names -> n ∈ stateTreeNames) ->
  exists ts', forM names (fun n => wrap_err (errorf ("failed to commit " +:+ n +:+ ": ")) (onTree n (onSmt smtCommit))) ts = (Ok tt, ts') /\
    wfStore ts' /\ rootTree ts' = rootTree ts /\ forall n, contentOf ts' n = contentOf ts n.
Proof.
  intros W Hn. revert ts W. induction names as [|n names IH]; intros ts W; [by exists ts|].
  destruct (onTree_commit n ts W) as (ts1 & Hc & W1 & R1 & C1); [apply Hn; set_solver|].
  destruct (IH ltac:(set_solver) ts1 W1) as (ts2 & Hr & W2 & R2 & C2). exists ts2. cbn [forM].
  rewrite bind_run with (a := tt) (s1 := ts1) by (by apply wrap_err_ok). split_and!; [done|done|congruence|]. intros n'. by rewrite C2.
Qed.

Lemma commit_ok ts : wfStore ts ->
  exists ts', commit ts = (Ok tt, ts') /\ wfStore ts' /\ rootTree ts' = rootTree ts /\ forall n, contentOf ts' n = contentOf ts n.
Proof. intros W. unfold commit. rewrite bind_get. apply commit_loop; [done|]. intros n. by apply elem_of_names. Qed.

Lemma root_updates (l : list stateTree) ts : backed (tree (rootTree ts)) (nodeStore (rootTree ts)) ->
  exists ts', forM l (fun st t => match onRoot (onSmt (smtUpdate (name st) (smtRoot (tree st)))) t with (Err _, t') => (Panic, t') | r => r end) ts = (Ok tt, ts') /\
    merkleTrees ts' = merkleTrees ts /\ backed (tree (rootTree ts')) (nodeStore (rootTree ts')) /\
    smtContent (tree (rootTree ts')) = applyBatch (smtContent (tree (rootTree ts))) ((fun st => (name st, smtRoot (tree st))) <$> l).
Proof.
  revert ts. induction l as [|st l IH]; intros ts Hb; [by exists ts|]. cbn [forM].
  destruct (smt_update _ _ (name st) (smtRoot (tree st)) Hb) as (t1 & db1 & Hu & Hb1 & Hc1).
  destruct (IH (set_rootTree {| name := name (rootTree ts); tree := t1; nodeStore := db1 |} ts)) as (ts2 & Hr & Hm & Hb2 & Hc2); [done|].
  exists ts2. split_and!; [|done|done|].
  - erewrite bind_run; [exact Hr|]. unfold onRoot, onSmt. by rewrite Hu.
  - rewrite Hc2. cbn. by rewrite Hc1.
Qed.

Lemma rootContent_None c n : n ∉ stateTreeNames -> rootContent c !! n = None.
Proof.
  intros Hn. unfold rootContent. apply not_elem_of_list_to_map. by rewrite <- list_fmap_compose; change (fst ∘ _) with (@id string); rewrite list_fmap_id.
Qed.

Lemma getStateHash_ok ts : wfStore ts ->
  exists ts', getStateHash ts = (Ok (rootHash (contentOf ts)), ts') /\ wfStore ts' /\ forall n, contentOf ts' n = contentOf ts n.
Proof.
  intros W. unfold getStateHash. rewrite bind_get. set (l := (mapOrder (merkleTrees ts)).*2).
  destruct (root_updates l ts (wf_root ts W)) as (ts1 & Hr & Hm & Hb & Hc).
  assert (forall n v, (n, v) ∈ (fun st => (name st, smtRoot (tree st))) <$> l <-> n ∈ stateTreeNames /\ v = refRoot (contentOf ts n)) as Hl.
  { intros n v. rewrite list_elem_of_fmap. split.
    - intros [st [[= -> ->] Hst]]. apply list_elem_of_fmap in Hst as [[n' st'] [-> Hin%elem_of_mapOrder]]. cbn.
      destruct (wf_trees ts W n' st' Hin) as [-> _]. split; [apply (wf_names ts W); by exists st'|]. rewrite refRoot_eq. unfold contentOf. by rewrite Hin.
    - intros [[st Hst]%(wf_names ts W) ->]. exists st. split; [|apply list_elem_of_fmap; exists (n, st); by rewrite elem_of_mapOrder].
      destruct (wf_trees ts W n st Hst) as [-> _]. by rewrite refRoot_eq, (contentOf_eq ts n st). }
  assert (smtContent (tree (rootTree ts1)) = rootContent (contentOf ts)) as Hroot.
  { rewrite Hc. apply map_eq. intros n. apply option_eq. intros v. rewrite applyBatch_lookup by (intros ??? [_ ->]%Hl [_ ->]%Hl; done). rewrite Hl.
    destruct (decide (n ∈ stateTreeNames)) as [Hn|Hn].
    - rewrite rootContent_lookup by done. split; [|intros [= <-]; by left]. intros [[_ ->]|[Hx _]]; [done|]. exfalso. apply Hx.
      apply list_elem_of_fmap. exists (n, refRoot (contentOf ts n)). split; [done|]. by apply Hl.
    - rewrite rootContent_None by done. split; [|done]. intros [[? _]|[_ Hx]]; [done|]. exfalso. apply Hn, (wf_rootKeys ts W). by eauto. }
  exists ts1. rewrite (bind_run _ _ _ _ _ Hr). split_and!.
  - unfold gets. by rewrite refRoot_eq, Hroot.
  - split; rewrite ?Hm, ?Hroot; [apply W|apply W|done|]. intros n [v Hv]. destruct (decide (n ∈ stateTreeNames)); [done|]. by rewrite rootContent_None in Hv.
  - intros n. unfold contentOf. by rewrite Hm.
Qed.

Lemma rootHash_ext (c1 c2 : string -> gmap bytes bytes) : (forall n, n ∈ stateTreeNames -> c1 n = c2 n) -> rootHash c1 = rootHash c2.
Proof.
  intros He. unfold rootHash, rootContent. do 3 f_equal. apply list_fmap_ext. intros j n Hn. f_equal. f_equal. apply He. by eapply list_elem_of_lookup_2.
Qed.

(** [Update] writes the rows of the height to every tree and returns the hash of the contents. *)
Lemma update_run d i h ts :
  i64 h = h -> wfState d i -> wfStore ts -> (forall n, n ∈ stateTreeNames -> encodable (treeTable d i n) h) ->
  exists ts', Update d i h ts = (Ok (rootHash (contentOf ts')), ts') /\ wfStore ts' /\
    forall n, n ∈ stateTreeNames -> overlay (treeTable d i n) h (contentOf ts n) (contentOf ts' n).
Proof.
  intros Hh Ws W He. unfold Update, updateMerkleTrees. rewrite bind_get.
  destruct (loop_updates d i h (mapOrder (merkleTrees ts)).*1 ts Hh Ws W) as (ts1 & H1 & W1 & R1 & C1 & _).
  { apply mapOrder_NoDup. }
  { intros n Hn%elem_of_names; [|done]. by auto. }
  destruct (commit_ok ts1 W1) as (ts2 & H2 & W2 & R2 & C2). destruct (getStateHash_ok ts2 W2) as (ts3 & H3 & W3 & C3).
  exists ts3. rewrite (bind_run _ _ _ _ _ H1), bind_run with (a := tt) (s1 := ts2) by (by apply wrap_err_ok). split_and!; [|done|].
  - rewrite H3. do 2 f_equal. apply rootHash_ext. intros n _. by rewrite C3.
  - intros n Hn. rewrite C3, C2. apply C1. by apply elem_of_names.
Qed.

(** ** States that agree on the past *)
Definition sameRows {R} (t t' : Table R) h : Prop := forall x h', h' < h -> rowAt t x h' = rowAt t' x h'.
Record agreeBelow (h : Z) (d d' : DB) (i i' : TxIndexer) : Prop := {
  ag_accounts : forall sch, sameRows (accTable sch d) (accTable sch d') h;
  ag_actors : forall s, sameRows (actorTable d s) (actorTable d' s) h;
  ag_chains : forall s, sameRows (chainTable d s) (chainTable d' s) h;
  ag_params : sameRows (params d) (params d') h;
  ag_flags : sameRows (flags d) (flags d') h;
  ag_index : sameRows (txRows i) (txRows i') h;
}.

Lemma latest_row {R} (t : Table R) x h h0 r :
  selectLatest t x h = Some (h0, r) <-> h0 <= h /\ rowAt t x h0 = Some r /\ forall h', h0 < h' <= h -> rowAt t x h' = None.
Proof.
  unfold selectLatest, rowAt. destruct (t !! x) as [m|]; [|naive_solver]. rewrite latest_Some. split.
  - intros (Hm & Hle & Hmax). split_and!; [done|done|]. intros h' [Hl Hu]. destruct (m !! h') as [r'|] eqn:Hr; [|done].
    specialize (Hmax h' r' Hr Hu). lia.
  - intros (Hle & Hm & Hmax). split_and!; [done|done|]. intros k' r' Hk' Hb. destruct (decide (h0 < k')) as [Hl|]; [|lia].
    rewrite (Hmax k') in Hk' by lia. done.
Qed.

Lemma sameRows_latest {R} (t t' : Table R) x h : sameRows t t' h -> selectLatest t x (h - 1) = selectLatest t' x (h - 1).
Proof.
  intros Hs. apply option_eq. intros [h0 r]. rewrite !latest_row. split; intros (Hle & Hr & Hn).
  - split_and!; [done|rewrite <- Hs; [done|lia]|intros h' Hh'; rewrite <- Hs; [by apply Hn|lia]].
  - split_and!; [done|rewrite Hs; [done|lia]|intros h' Hh'; rewrite Hs; [by apply Hn|lia]].
Qed.

Lemma leaf_below {R} (t t' : Table R) (key : string -> option bytes) (val val' : string -> Z -> R -> option bytes) h k v :
  sameRows t t' h -> (forall x h0 r, h0 < h -> val x h0 r = val' x h0 r) ->
  leaf {| tt_table := t; tt_key := key; tt_val := val |} (h - 1) k v <-> leaf {| tt_table := t'; tt_key := key; tt_val := val' |} (h - 1) k v.
Proof.
  intros Hs Hv. unfold leaf. cbn. split; intros (x & h0 & r & Hl & Hk & Hx); exists x, h0, r.
  - rewrite <- (sameRows_latest t t' x h Hs). split_and!; [done|done|]. rewrite <- Hv; [done|]. apply latest_row in Hl. lia.
  - rewrite (sameRows_latest t t' x h Hs). split_and!; [done|done|]. rewrite Hv; [done|]. apply latest_row in Hl. lia.
Qed.

Lemma snapshot_below d d' i i' h n :
  wfState d i -> wfState d' i' -> agreeBelow h d d' i i' -> snapshot d i (h - 1) n = snapshot d' i' (h - 1) n.
Proof.
  intros W W' A. apply map_eq. intros k. apply option_eq. intros v. unfold snapshot.
  rewrite !tableContent_lookup by (by apply wf_keyInj). unfold treeTable.
  assert (forall s, leaf (actorTreeTable s d) (h - 1) k v <-> leaf (actorTreeTable s d') (h - 1) k v) as Hact.
  { intros s. apply leaf_below; [apply A|]. intros x h0 r Hl. cbn. unfold actorAt. by rewrite (ag_chains _ _ _ _ _ A s x h0 Hl). }
  assert (forall sch, leaf (accountTable sch d) (h - 1) k v <-> leaf (accountTable sch d') (h - 1) k v) as Hacc.
  { intros sch. apply leaf_below; [apply A|done]. }
  repeat case_bool_decide; auto; apply leaf_below; solve [apply A|done].
Qed.

(** ** The trees follow the state *)
Definition Reflects ts d i h : Prop := wfStore ts /\ forall n, n ∈ stateTreeNames -> contentOf ts n = snapshot d i h n.

Lemma reflects_step ts ts' d i h :
  wfState d i -> (forall n, n ∈ stateTreeNames -> encodable (treeTable d i n) h) -> Reflects ts d i (h - 1) -> wfStore ts' ->
  (forall n, n ∈ stateTreeNames -> overlay (treeTable d i n) h (contentOf ts n) (contentOf ts' n)) -> Reflects ts' d i h.
Proof.
  intros Ws He [_ Hr] W' Ho. split; [done|]. intros n Hn. destruct (Ho n Hn) as (l & Hc & Hl). rewrite Hc, Hr by done.
  apply tableContent_step; [by apply wf_keyInj|by apply He|done].
Qed.

Lemma u64_i64_height h : 0 <= h < 2 ^ 63 -> u64 h = h /\ i64 h = h.
Proof. intros Hh. unfold u64, i64. rewrite !Z.mod_small by lia. lia. Qed.

(** The state hash of a block is a function of the state at that block.  If the trees hold
    the snapshots of the height before, and the context differs from that state only in rows of
    its own height, [ComputeStateHash] succeeds, its hash is the reference hash [stateRoot] of
    the tables and the index, whatever the order of the map iterations, the context is what the
    unit of work is told it is, and the trees hold the snapshots of the height. *)
Theorem trees_track_state ts d0 i0 (p : PostgresContext) :
  0 <= Height p < 2 ^ 63 -> wfState d0 i0 -> wfState (db p) (txIndexer p) ->
  Reflects ts d0 i0 (Height p - 1) -> agreeBelow (Height p) d0 (db p) i0 (txIndexer p) ->
  (forall n, n ∈ stateTreeNames -> encodable (treeTable (db p) (txIndexer p) n) (Height p)) ->
  exists ts' p', ComputeStateHash (ts, p) = (Ok (stateRoot (db p) (txIndexer p) (Height p)), (ts', p')) /\
    UnitOfWork.ComputeStateHash (fun d i h => Ok (stateRoot d i h)) p = (Ok (stateRoot (db p) (txIndexer p) (Height p)), p') /\
    Reflects ts' (db p) (txIndexer p) (Height p).
Proof.
  intros Hh W0 Ws [W Hr] A He. destruct (u64_i64_height _ Hh) as [Hu Hi].
  destruct (update_run (db p) (txIndexer p) (Height p) ts Hi Ws W He) as (ts' & Hup & W' & Ho).
  assert (Reflects ts' (db p) (txIndexer p) (Height p)) as Hr'.
  { apply (reflects_step ts); [done|done| |done|done]. split; [done|]. intros n Hn. rewrite Hr by done. by apply snapshot_below. }
  assert (rootHash (contentOf ts') = stateRoot (db p) (txIndexer p) (Height p)) as Hroot by (apply rootHash_ext, Hr').
  eexists ts', _. split_and!; [|unfold UnitOfWork.ComputeStateHash; rewrite bind_get, Hu; reflexivity|done].
  unfold ComputeStateHash. rewrite Hu, Hup, Hroot. done.
Qed.

(** ** New and cleared stores *)
Lemma setupEach_ok openStore (names : list string) (m m' : gmap string stateTree) :
  setupEach openStore names m = Ok m' -> (forall n db, openStore n = Ok db -> opened db) ->
  forall n, if bool_decide (n ∈ names) then exists db, m' !! n = Some (newTree n db) /\ opened db else m' !! n = m !! n.
Proof.
  intros Hs Ho. revert m Hs. induction names as [|n0 names IH]; intros m Hs n; cbn in Hs; [by injection Hs as <-|].
  destruct (openStore n0) as [db| |] eqn:Hdb; [|done..]. specialize (IH _ Hs n).
  destruct (decide (n ∈ names)) as [Hin|Hin]; [rewrite bool_decide_eq_true_2 in IH |- * by set_solver; done|].
  rewrite bool_decide_eq_false_2 in IH by done. case_bool_decide as Hc.
  - assert (n = n0) as -> by set_solver. rewrite lookup_insert_eq in IH. exists db. split; [done|]. by eapply Ho.
  - rewrite IH. apply lookup_insert_ne. set_solver.
Qed.

Lemma setupWith_ok dir openStore ts :
  setupWith dir openStore = Ok ts -> (forall n db, openStore n = Ok db -> opened db) -> wfStore ts /\ forall n, contentOf ts n = ∅.
Proof.
  unfold setupWith. intros Hs Ho. destruct (openStore RootTreeName) as [rdb| |] eqn:Hroot; [|done..].
  destruct (setupEach openStore stateTreeNames ∅) as [m| |] eqn:Hm; [|done..]. injection Hs as <-.
  pose proof (setupEach_ok _ _ _ _ Hm Ho) as Hspec. destruct (smt_new rdb (Ho _ _ Hroot)) as [Hc Hb].
  assert (forall n st, m !! n = Some st -> n ∈ stateTreeNames /\ exists db, st = newTree n db /\ opened db) as Hin.
  { intros n st Hst. specialize (Hspec n). case_bool_decide as Hn.
    - destruct Hspec as (db & Hl & Hop). split; [done|]. exists db. split; [congruence|done].
    - rewrite Hspec in Hst. done. }
  split; [split; cbn|].
  - intros n. split; [intros [st Hst]; by apply (Hin n st)|]. intros Hn. specialize (Hspec n). rewrite bool_decide_eq_true_2 in Hspec by done.
    destruct Hspec as (db & -> & _). done.
  - intros n st Hst. destruct (Hin n st Hst) as (_ & db & -> & Hop). split; [done|]. by apply smt_new.
  - exact Hb.
  - intros n. rewrite Hc. by intros [? ?].
  - intros n. unfold contentOf. cbn. destruct (m !! n) as [st|] eqn:Hst; [|done]. destruct (Hin n st Hst) as (_ & db & -> & Hop).
    by apply smt_new.
Qed.

Lemma create_ok dir ts : Create dir = Ok ts -> wfStore ts /\ forall n, contentOf ts n = ∅.
Proof.
  unfold Create, setupTrees, setupInMemory. intros Hc. case_bool_decide; (eapply setupWith_ok; [exact Hc|]); intros n db Ho.
  - unfold KVStore.NewMemKVStore in Ho. destruct (badgerOpen _ true) eqn:He; [|done]. injection Ho as <-. by eapply open_law.
  - unfold openNodes, KVStore.NewKVStore in Ho. destruct (badgerOpen _ false) eqn:He; [|done]. injection Ho as <-. by eapply open_law.
Qed.

Lemma clearTree_ok n st : okTree n st -> exists st', clearTree st = (Ok tt, st') /\ okTree n st' /\ smtContent (tree st') = ∅.
Proof.
  intros [Hn Hb]. unfold clearTree, KVStore.ClearAll. destruct (drop_law _ (smt_backed _ _ Hb)) as (db' & -> & Ho & _).
  destruct (smt_new db' Ho) as [Hc Hb']. eexists. by split_and!.
Qed.

Lemma clear_loop (names : list string) ts : wfStore ts -> (forall n, n ∈ names -> n ∈ stateTreeNames) ->
  exists ts', forM names (fun n => wrap_err (errorf ("failed to clear " +:+ n +:+ " node store: ")) (onTree n clearTree)) ts = (Ok tt, ts') /\
    wfStore ts' /\ rootTree ts' = rootTree ts /\ (forall n, contentOf ts' n = if bool_decide (n ∈ names) then ∅ else contentOf ts n).
Proof.
  intros W Hn. revert ts W. induction names as [|n names IH]; intros ts W; [by exists ts|].
  destruct (proj2 (wf_names ts W n)) as [st Hst]; [apply Hn; set_solver|].
  destruct (clearTree_ok n st (wf_trees ts W n st Hst)) as (st' & Hc & Hok & Hemp).
  destruct (IH ltac:(set_solver) _ (set_tree_wf n st st' ts W Hst Hok)) as (ts2 & Hr & W2 & R2 & C2). exists ts2. cbn [forM]. split_and!.
  - erewrite bind_run; [exact Hr|]. apply wrap_err_ok. unfold onTree. by rewrite Hst, Hc.
  - done.
  - done.
  - intros n'. rewrite C2, set_tree_content. destruct (decide (n' ∈ names)) as [Hi|Hi].
    + by rewrite !bool_decide_eq_true_2 by set_solver.
    + rewrite (bool_decide_eq_false_2 (n' ∈ names)) by done. case_bool_decide as He.
      * subst. by rewrite bool_decide_eq_true_2 by set_solver.
      * by rewrite bool_decide_eq_false_2 by set_solver.
Qed.

(** Clearing always succeeds and leaves trees that reflect the empty state. *)
Lemma clear_all_ok ts : wfStore ts -> exists ts', DebugClearAll ts = (Ok tt, ts') /\ wfStore ts' /\ forall n, n ∈ stateTreeNames -> contentOf ts' n = ∅.
Proof.
  intros W. unfold DebugClearAll. destruct (clearTree_ok (name (rootTree ts)) (rootTree ts)) as (r & Hc & Hok & Hemp); [by split; [|apply W]|].
  assert (wfStore (set_rootTree r ts)) as W1.
  { split; cbn; [apply W|apply W|apply Hok|]. intros n. rewrite Hemp. by intros [? ?]. }
  erewrite bind_run; [|apply wrap_err_ok; unfold onRoot; by rewrite Hc]. rewrite bind_get.
  destruct (clear_loop (mapOrder (merkleTrees (set_rootTree r ts))).*1 _ W1) as (ts2 & Hr & W2 & _ & C2); [intros n; by apply elem_of_names|].
  exists ts2. split_and!; [done|done|]. intros n Hn. rewrite C2. by rewrite bool_decide_eq_true_2 by (by apply elem_of_names).
Qed.

(** Trees with nothing in them reflect a state that has no rows yet. *)
Lemma empty_reflects ts d i h :
  wfStore ts -> (forall n, n ∈ stateTreeNames -> contentOf ts n = ∅) -> wfState d i ->
  (forall n x h', h' <= h -> rowAt (tt_table (treeTable d i n)) x h' = None) -> Reflects ts d i h.
Proof.
  intros W Hc Ws Hno. split; [done|]. intros n Hn. rewrite Hc by done. symmetry. apply map_empty. intros k. unfold snapshot.
  apply eq_None_not_Some. intros [v (x & h0 & r & Hl & _)%tableContent_lookup]; [|by apply wf_keyInj].
  apply latest_row in Hl as (Hle & Hr & _). by rewrite Hno in Hr.
Qed.

(** ** When they do not *)
Lemma overlay_lookup d i h n c c' k v : wfState d i -> overlay (treeTable d i n) h c c' ->
  c' !! k = Some v <-> written (treeTable d i n) h k v \/ ((forall v', ~ written (treeTable d i n) h k v') /\ c !! k = Some v).
Proof.
  intros Ws (l & -> & Hl). rewrite applyBatch_lookup.
  - rewrite Hl, list_elem_of_fmap. split; (intros [?|[Hn ?]]; [by left|right; split; [|done]]).
    + intros v' Hw. apply Hn. exists (k, v'). split; [done|]. by apply Hl.
    + intros [[k' v'] [-> Hw%Hl]]. by apply (Hn v').
  - intros k' v1 v2 H1%Hl%written_leaf H2%Hl%written_leaf. eapply leaf_fun; [|done..]. by apply wf_keyInj.
Qed.

(** An account that is not touched at a height is not written. *)
Lemma untouched_account d i h x k : wfState d i -> hexDecode x = Some k -> (exists b, x = hexEncode b) -> rowAt (accounts d) x h = None ->
  forall v, ~ written (treeTable d i AccountTreeName) h k v.
Proof.
  intros Ws Hk [b ->] Hn v (y & r & Hr & Hk' & _). change (rowAt (accounts d) y h = Some r) in Hr. change (hexDecode y = Some k) in Hk'.
  rewrite hex_decode_encode in Hk. destruct (wf_accounts d i Ws AccountS y) as [b' ->]; [by eapply rowAt_dom|].
  rewrite hex_decode_encode in Hk'. congruence.
Qed.

Definition account_inj : Prop := forall a a' b, marshalAccount a = inl b -> marshalAccount a' = inl b -> a = a'.

Context {LB : SmtBinding L}.

(** C11: the trees are not rolled back.  Two blocks are tried at one height on the same state; the
    first credits or debits an account that the second leaves alone.  The node that computed the
    state hash of the first block before that of the second disagrees about the state hash of the
    second with a node that only ever computed the second. *)
Theorem discarded_block_forks ts d0 d1 d2 i0 i1 i2 h (x b1 : string) :
  i64 h = h -> wfState d1 i1 -> wfState d2 i2 -> wfState d0 i0 -> Reflects ts d0 i0 (h - 1) ->
  agreeBelow h d0 d1 i0 i1 -> agreeBelow h d0 d2 i0 i2 ->
  (forall n, n ∈ stateTreeNames -> encodable (treeTable d1 i1 n) h) -> (forall n, n ∈ stateTreeNames -> encodable (treeTable d2 i2 n) h) ->
  account_inj -> rowAt (accounts d1) x h = Some b1 -> rowAt (accounts d2) x h = None -> SelectBalance (accounts d2) x h ≠ Some b1 ->
  exists hash1 ts1 hash12 ts12 hash2 ts2,
    Update d1 i1 h ts = (Ok hash1, ts1) /\ Update d2 i2 h ts1 = (Ok hash12, ts12) /\ Update d2 i2 h ts = (Ok hash2, ts2) /\
    hash2 = stateRoot d2 i2 h /\ hash12 ≠ hash2.
Proof.
  intros Hh W1 W2 W0 [W Hr] A1 A2 E1 E2 Hinj Hx1 Hx2 Hb.
  destruct (update_run d1 i1 h ts Hh W1 W E1) as (ts1 & U1 & V1 & O1).
  destruct (update_run d2 i2 h ts1 Hh W2 V1 E2) as (ts12 & U12 & V12 & O12).
  destruct (update_run d2 i2 h ts Hh W2 W E2) as (ts2 & U2 & V2 & O2).
  assert (Reflects ts2 d2 i2 h) as [_ Hr2].
  { apply (reflects_step ts); [done|done| |done|done]. split; [done|]. intros n Hn. rewrite Hr by done. by apply snapshot_below. }
  exists (rootHash (contentOf ts1)), ts1, (rootHash (contentOf ts12)), ts12, (rootHash (contentOf ts2)), ts2.
  split_and!; [done..|by apply rootHash_ext|]. intros He.
  assert (AccountTreeName ∈ stateTreeNames) as Hn by set_solver. pose proof (rootHash_binding _ _ He _ Hn) as Hc.
  destruct (E1 _ Hn x b1 Hx1) as (k & v & Hk & Hv).
  assert (written (treeTable d1 i1 AccountTreeName) h k v) as Hw by (by exists x, b1).
  pose proof (proj2 (overlay_lookup d1 i1 h _ _ _ k v W1 (O1 _ Hn)) (or_introl Hw)) as Hl1.
  destruct (wf_accounts d1 i1 W1 AccountS x) as [b Hxb]; [by eapply rowAt_dom|].
  assert (contentOf ts12 AccountTreeName !! k = Some v) as Hl12.
  { apply (overlay_lookup d2 i2 h _ _ _ k v W2 (O12 _ Hn)). right. split; [|done]. eapply untouched_account; [done|exact Hk|by exists b|done]. }
  rewrite Hc, Hr2 in Hl12 by done. apply tableContent_lookup in Hl12 as (y & h0 & r & Hs & Hk' & Hv'); [|by apply wf_keyInj].
  change (selectLatest (accounts d2) y h = Some (h0, r)) in Hs. change (hexDecode y = Some k) in Hk'. change (hexDecode x = Some k) in Hk.
  destruct (wf_accounts d2 i2 W2 AccountS y) as [b' ->]; [by eapply selectLatest_dom|]. subst x. rewrite hex_decode_encode in Hk, Hk'.
  assert (b = b') as <- by congruence. apply Hb. unfold SelectBalance. rewrite Hs. cbn. f_equal.
  change (ok (marshalAccount {| AccAddress := hexEncode b; AccAmount := b1 |}) = Some v) in Hv.
  change (ok (marshalAccount {| AccAddress := hexEncode b; AccAmount := r |}) = Some v) in Hv'. unfold ok in Hv, Hv'.
  destruct (marshalAccount {| AccAddress := hexEncode b; AccAmount := b1 |}) eqn:M1; [|done].
  destruct (marshalAccount {| AccAddress := hexEncode b; AccAmount := r |}) eqn:M2; [|done].
  injection Hv as ->. injection Hv' as ->. pose proof (Hinj _ _ _ M1 M2) as [= He']. done.
Qed.

(** C39: the trees are not reloaded.  After a restart the tree store is created over the node
    stores on disk but its trees are empty; the state hash of the next block is then wrong
    whenever the block leaves some account alone. *)
Theorem restart_forks (dir : string) ts d i h (x b : string) (h0 : Z) :
  i64 h = h -> Create dir = Ok ts -> wfState d i -> (forall n, n ∈ stateTreeNames -> encodable (treeTable d i n) h) ->
  selectLatest (accounts d) x h = Some (h0, b) -> h0 < h -> encodable (accountTable AccountS d) h0 ->
  exists hash ts', Update d i h ts = (Ok hash, ts') /\ hash ≠ stateRoot d i h.
Proof.
  intros Hh [W Hemp]%create_ok Ws E Hx Hlt E0. destruct (update_run d i h ts Hh Ws W E) as (ts' & U & W' & O).
  exists (rootHash (contentOf ts')), ts'. split; [done|]. intros He.
  assert (AccountTreeName ∈ stateTreeNames) as Hn by set_solver. pose proof (rootHash_binding _ _ He _ Hn) as Hc.
  pose proof Hx as (Hle & Hrow & Hafter)%latest_row. destruct (E0 x b Hrow) as (k & v & Hk & Hv).
  assert (leaf (treeTable d i AccountTreeName) h k v) as Hleaf by (by exists x, h0, b).
  apply tableContent_lookup in Hleaf; [|by apply wf_keyInj]. fold (snapshot d i h AccountTreeName) in Hleaf. rewrite <- Hc in Hleaf.
  apply (overlay_lookup d i h _ _ _ k v Ws (O _ Hn)) in Hleaf as [Hw|[_ Hl]]; [|by rewrite Hemp in Hl].
  destruct (wf_accounts d i Ws AccountS x) as [b' Hb']; [by eapply rowAt_dom|]. revert Hw. eapply untouched_account; [done|exact Hk|by exists b'|].
  apply Hafter. lia.
Qed.
End facts.
End TreesFacts.

(** ** A concrete tree store *)
Module ToyTrees.
Import Trees TreesSpec TreesFacts.
#[local] Existing Instances ToyCrypto.prims CanonicalOrder.order ToyBadger.badger ToyBadger.badgerLaws.

Fixpoint bits (p : positive) : bytes :=
  match p with xH => "" | xO q => "0" +:+ bits q | xI q => "1" +:+ bits q end.
#[local] Instance bits_inj : Inj (=) (=) bits.
Proof. intros p. induction p as [p IH|p IH|]; intros [q|q|] He; try done; injection He as He; by rewrite (IH q He). Qed.

(** A tree is its content, its root the content written out. *)
#[export] Instance smt : SmtLib := {|
  Smt := gmap bytes bytes; NewSparseMerkleTree _ := ∅;
  smtUpdate k v s := (Ok tt, (<[k := v]> s.1, s.2)); smtCommit s := (Ok tt, s); smtRoot m := bits (encode m) |}.
#[export] Instance smtLaws : SmtLaws smt.
Proof.
  refine {| smtContent := fun m : @Smt _ smt => (m : gmap bytes bytes); backed _ _ := True |}.
  - done.
  - done.
  - intros t db k v _. by eexists _, _.
  - intros t db _. by eexists _, _.
  - intros t1 t2 ->. done.
Defined.
#[export] Instance smtBinding : SmtBinding smtLaws.
Proof. split. cbn. intros t1 t2 He. by apply (inj bits) in He; apply (inj encode) in He. Qed.

#[export] Instance scan : PgxScan := {| scanBoolText b := inl (if b then "t" else "f") |}.
#[export] Instance treeCodec : TreeCodec := {|
  marshalActor a := inl (Address a); marshalAccount a := inl (bits (encode (AccAddress a, AccAmount a)));
  marshalParam p := inl (prm_Value p); marshalFlag f := inl (flg_Value f) |}.

Lemma toy_account_inj : account_inj.
Proof. intros [a1 b1] [a2 b2] b. cbn. intros [= <-] [= He%(inj bits)%(inj encode)]. congruence. Qed.

(** States with accounts only. *)
Definition toyDB (t : Table string) : DB :=
  {| accounts := t; pools := ∅; actorTables := ∅; chainTables := ∅; params := ∅; flags := ∅; blocks := ∅ |}.
Definition noIndex : TxIndexer := {| txByHash := ∅; txByHeight := ∅ |}.
Definition paid : Table string := {[ "aa" := {[ 0 := "10" ]} ]}.

Lemma empty_rows {R} x h : rowAt (∅ : Table R) x h = None.
Proof. done. Qed.

Lemma toy_actorTable t s : actorTable (toyDB t) s = ∅.
Proof. done. Qed.

Lemma toy_wf t : canonical t -> wfState (toyDB t) noIndex.
Proof.
  intros Hc. split.
  - intros [|]; [done|]. intros a [m Hm]. done.
  - intros s a [m Hm]. by rewrite toy_actorTable in Hm.
  - intros a b [m Hm]. done.
  - intros a b [m Hm]. done.
  - split; [intros hash x Hx; done|intros q hash Hx; done].
Qed.

Lemma toy_encodable t h : canonical t -> forall n, n ∈ stateTreeNames -> encodable (treeTable (toyDB t) noIndex n) h.
Proof.
  intros Hc n _ x r Hr. unfold treeTable in *. repeat case_bool_decide; cbn in *; try done.
  destruct (canonical_row _ _ _ _ Hc Hr) as (b & _ & Hb). by exists b; eexists.
Qed.

Lemma toy_agree t h : (forall x h', h' < h -> rowAt t x h' = None) -> agreeBelow h emptyDB (toyDB t) noIndex noIndex.
Proof.
  intros Hn. split; try done. intros [|] x h' Hl; [|done]. cbn. by rewrite Hn.
Qed.

Lemma toy_none_below n x h : rowAt (tt_table (treeTable emptyDB noIndex n)) x h = None.
Proof. unfold treeTable. by repeat case_bool_decide. Qed.

Lemma paid_canonical : canonical paid.
Proof. intros a [m Hm]. unfold paid in Hm. apply lookup_singleton_Some in Hm as [<- _]. by exists (String (Ascii.ascii_of_nat 170) ""). Qed.
Lemma empty_canonical : canonical (∅ : Table string).
Proof. intros a [m Hm]. done. Qed.
Lemma paid_rows x h : h ≠ 0 -> rowAt paid x h = None.
Proof.
  intros Hh. unfold rowAt, paid. destruct (decide (x = "aa")) as [->|Hx]; [|by rewrite lookup_singleton_ne].
  rewrite lookup_singleton_eq. by rewrite lookup_singleton_ne.
Qed.

Definition fresh : treeStore := {|
  treeStoreDir := ":memory:"; rootTree := newTree RootTreeName ∅;
  merkleTrees := foldl (fun m n => <[n := newTree n ∅]> m) ∅ stateTreeNames |}.
Lemma fresh_created : Create ":memory:" = Ok fresh.
Proof. reflexivity. Qed.
Lemma fresh_reflects : Reflects fresh emptyDB noIndex (-1).
Proof.
  destruct (create_ok _ _ fresh_created) as [W Hc]. apply empty_reflects; [done|by intros|apply (toy_wf ∅), empty_canonical|].
  intros n x h' _. apply toy_none_below.
Qed.

Definition toyContext : PostgresContext := {|
  Height := 0; db := toyDB paid; ctx_stateHash := ""; blockStore := ∅; txIndexer := noIndex; networkId := "" |}.

Lemma trees_track_state_witness :
  exists ts' p', ComputeStateHash (fresh, toyContext) = (Ok (stateRoot (toyDB paid) noIndex 0), (ts', p')) /\ Reflects ts' (toyDB paid) noIndex 0.
Proof.
  destruct (trees_track_state fresh emptyDB noIndex toyContext) as (ts' & p' & Hc & _ & Hr).
  - cbn. lia.
  - apply (toy_wf ∅), empty_canonical.
  - apply toy_wf, paid_canonical.
  - exact fresh_reflects.
  - apply toy_agree. intros x h' Hl. apply paid_rows. cbn in Hl. lia.
  - apply toy_encodable, paid_canonical.
  - exists ts', p'. split; [exact Hc|exact Hr].
Defined.

(** The first block pays, the second does nothing. *)
Lemma discarded_block_forks_witness :
  exists hash1 ts1 hash12 ts12 hash2 ts2,
    Update (toyDB paid) noIndex 0 fresh = (Ok hash1, ts1) /\ Update emptyDB noIndex 0 ts1 = (Ok hash12, ts12) /\
    Update emptyDB noIndex 0 fresh = (Ok hash2, ts2) /\ hash12 ≠ hash2.
Proof.
  destruct (discarded_block_forks fresh emptyDB (toyDB paid) emptyDB noIndex noIndex noIndex 0 "aa" "10")
    as (h1 & ts1 & h12 & ts12 & h2 & ts2 & H1 & H12 & H2 & _ & Hne).
  - reflexivity.
  - apply toy_wf, paid_canonical.
  - apply (toy_wf ∅), empty_canonical.
  - apply (toy_wf ∅), empty_canonical.
  - exact fresh_reflects.
  - apply toy_agree. intros x h' Hl. apply paid_rows. lia.
  - by apply (toy_agree ∅).
  - apply toy_encodable, paid_canonical.
  - apply (toy_encodable ∅), empty_canonical.
  - exact toy_account_inj.
  - reflexivity.
  - reflexivity.
  - done.
  - exists h1, ts1, h12, ts12, h2, ts2. by split_and!.
Defined.

(** A block that pays nobody, after a restart. *)
Lemma restart_forks_witness : exists hash ts', Update (toyDB paid) noIndex 1 fresh = (Ok hash, ts') /\ hash ≠ stateRoot (toyDB paid) noIndex 1.
Proof.
  apply (restart_forks ":memory:" fresh (toyDB paid) noIndex 1 "aa" "10" 0).
  - reflexivity.
  - exact fresh_created.
  - apply toy_wf, paid_canonical.
  - apply toy_encodable, paid_canonical.
  - reflexivity.
  - lia.
  - exact (toy_encodable paid 0 paid_canonical AccountTreeName ltac:(set_solver)).
Defined.
End ToyTrees.
