(* ===== verification/OwnRows.v ===== *)
(** What the writers of the persistence context and of the unit of work leave alone: a context at
    a height only writes rows of that height, stores addresses in hex, and indexes transactions
    at that height.

    [X] is the set of texts whose hashes occur (names of parameters, transactions); SHA3 is
    assumed not to collide on them. *)

From S2P Require Import Prelude GoStd GoSort Errors Crypto CoreTypes Gov Messages Sql Persistence KvStore SqlQueries Trees TreesSpec FifoSet TxMempool UnitOfWork TreesFacts.
#[local] Open Scope string_scope.
#[local] Open Scope Z_scope.

Module OwnRows.
Import TreesSpec TreesFacts.

Section tables.
Context {R : Type}.
Implicit Types (t : Table R) (h : Z).

Lemma sameRows_refl t h : sameRows t t h.
Proof. by intros x h' _. Qed.
Lemma sameRows_trans t1 t2 t3 h : sameRows t1 t2 h -> sameRows t2 t3 h -> sameRows t1 t3 h.
Proof. intros H1 H2 x h' Hl. by rewrite H1, H2. Qed.
Lemma sameRows_below t1 t2 h h' : sameRows t1 t2 h -> h' <= h -> sameRows t1 t2 h'.
Proof. intros Hs Hl x k Hk. apply Hs. lia. Qed.

Lemma rowAt_upsert t x h r y h' : rowAt (upsert t x h r) y h' = if bool_decide (x = y /\ h = h') then Some r else rowAt t y h'.
Proof.
  unfold rowAt, upsert. destruct (decide (x = y)) as [<-|Hx].
  - rewrite lookup_insert_eq. destruct (decide (h = h')) as [<-|Hh].
    + by rewrite lookup_insert_eq, bool_decide_eq_true_2.
    + rewrite lookup_insert_ne, bool_decide_eq_false_2 by naive_solver. by destruct (t !! x).
  - by rewrite lookup_insert_ne, bool_decide_eq_false_2 by naive_solver.
Qed.
Lemma upsert_below t x h r : sameRows t (upsert t x h r) h.
Proof. intros y h' Hl. rewrite rowAt_upsert, bool_decide_eq_false_2; [done|lia]. Qed.
Lemma upsert_keys t x h r (P : string -> Prop) :
  P x -> (forall y, is_Some (t !! y) -> P y) -> forall y, is_Some (upsert t x h r !! y) -> P y.
Proof. intros Hx Ht y. unfold upsert. rewrite lookup_insert_is_Some. intros [<-|[_ Hy]]; auto. Qed.
End tables.

(** [t'] is [t] with other rows at [h], under addresses in hex. *)
Definition stepAt {R} (h : Z) (t t' : Table R) : Prop := sameRows t t' h /\ (canonical t -> canonical t').

Lemma stepAt_upsert {R} (t : Table R) h b r : stepAt h t (upsert t (hexEncode b) h r).
Proof. split; [apply upsert_below|]. intros Hc. exact (upsert_keys t _ h r (fun a => exists b, a = hexEncode b) (ex_intro _ b eq_refl) Hc). Qed.
Lemma stepAt_refl {R} h (t : Table R) : stepAt h t t.
Proof. split; [apply sameRows_refl|done]. Qed.

Lemma stepAt_InsertRow t b r h : stepAt h t (InsertRow t (hexEncode b) r h).
Proof. unfold InsertRow. destruct (rowAt _ _ _); apply stepAt_upsert. Qed.
Lemma stepAt_copyLatest f t b h : stepAt h t (copyLatest f t (hexEncode b) h).
Proof. unfold copyLatest. destruct (selectLatest _ _ _) as [[k r]|]; [apply stepAt_upsert|apply stepAt_refl]. Qed.
Lemma stepAt_unstakePaused t uh before h : stepAt h t (updateUnstakedHeightIfPausedBefore t uh before h).
Proof.
  unfold updateUnstakedHeightIfPausedBefore. split.
  - intros x h' Hl. unfold rowAt. rewrite lookup_fmap. destruct (t !! x) as [m|]; [|done]. cbn. unfold unstakePausedRow.
    destruct (newest m) as [[k r]|]; [|done]. destruct (_ && _); [|done]. by rewrite lookup_insert_ne by lia.
  - intros Hc a. rewrite lookup_fmap, fmap_is_Some. apply Hc.
Qed.

Lemma insertChains_below t a cs h t' : insertChains t a cs h = Ok t' -> sameRows t t' h.
Proof. unfold insertChains. destruct cs; [done|]. destruct (addChains _ _); [|done]. intros [= <-]. apply upsert_below. Qed.
Lemma nullify_below t a h : sameRows t (NullifyChains t a h) h.
Proof.
  intros x h' Hl. unfold NullifyChains. destruct (t !! a) as [m|] eqn:Ha; [|done]. unfold rowAt.
  destruct (decide (a = x)) as [<-|Hx]; [|by rewrite lookup_insert_ne]. rewrite lookup_insert_eq, Ha. by rewrite lookup_delete_ne by lia.
Qed.

(** ** Contexts *)
Section own.
Context `{CP : CryptoPrims} `{CO : Codec} (X : bytes -> Prop) (h : Z) (d0 : DB) (i0 : TxIndexer).

(** Addresses are in hex; parameters, flags and transactions are known texts. *)
Record keyed (d : DB) (i : TxIndexer) : Prop := {
  ky_accounts : forall sch, canonical (accTable sch d);
  ky_actors : forall s, canonical (actorTable d s);
  ky_params : forall n, is_Some (params d !! n) -> X n;
  ky_flags : forall n, is_Some (flags d !! n) -> X n;
  ky_index : indexed i;
  ky_txs : forall hash t, txByHash i !! hash = Some t -> X (idx_Tx t);
}.

Definition collisionFree : Prop := forall a b, X a -> X b -> SHA3Hash a = SHA3Hash b -> a = b.

Lemma keyed_wf d i : collisionFree -> keyed d i -> wfState d i.
Proof. intros HX K. split; [apply K|apply K| | |apply K]; intros a b Ha Hb; apply HX; first [by apply (ky_params _ _ K)|by apply (ky_flags _ _ K)]. Qed.

(** The context of a block at [h] on the state [d0], [i0]. *)
Record ownRows (p : PostgresContext) : Prop := {
  or_height : Height p = h;
  or_blocks : blocks (db p) = blocks d0;
  or_agree : agreeBelow h d0 (db p) i0 (txIndexer p);
  or_keyed : keyed (db p) (txIndexer p);
}.

Lemma actorTable_set s s' t d : actorTable (set_actors s t d) s' = if bool_decide (tableName s' = tableName s) then t else actorTable d s'.
Proof.
  unfold actorTable. cbn. case_bool_decide as He; [by rewrite He, lookup_insert_eq|by rewrite lookup_insert_ne by congruence].
Qed.
Lemma chainTable_set s s' t d : chainTable (set_chains s t d) s' = if bool_decide (chainsTableName s' = chainsTableName s) then t else chainTable d s'.
Proof.
  unfold chainTable. cbn. case_bool_decide as He; [by rewrite He, lookup_insert_eq|by rewrite lookup_insert_ne by congruence].
Qed.

Lemma own_accounts sch t p : stepAt h (accTable sch (db p)) t -> ownRows p -> ownRows (set_db (set_accTable sch t (db p)) p).
Proof.
  intros [Hs Hc] [Hh Hb A K]. split; [done|by destruct sch| |].
  - split; try (destruct sch; apply A). intros sch'. pose proof (ag_accounts _ _ _ _ _ A sch') as Ha.
    destruct sch, sch'; cbn in *; try done; by eapply sameRows_trans.
  - split; try (destruct sch; apply K). intros sch'. pose proof (ky_accounts _ _ K sch') as Ha. destruct sch, sch'; cbn in *; auto.
Qed.

Lemma own_actors s t p : stepAt h (actorTable (db p) s) t -> ownRows p -> ownRows (set_db (set_actors s t (db p)) p).
Proof.
  intros [Hs Hc] [Hh Hb A K]. split; [done|done| |].
  - split; try apply A. intros s'. change (db (set_db ?d p)) with d. rewrite actorTable_set. pose proof (ag_actors _ _ _ _ _ A s') as Ha.
    case_bool_decide as He; [|done]. eapply sameRows_trans; [exact Ha|]. unfold actorTable in *. by rewrite He.
  - split; try apply K. intros s'. change (db (set_db ?d p)) with d. rewrite actorTable_set. pose proof (ky_actors _ _ K s') as Ha.
    case_bool_decide as He; [|done]. apply Hc. unfold actorTable in *. by rewrite <- He.
Qed.

Lemma own_chains s t p : sameRows (chainTable (db p) s) t h -> ownRows p -> ownRows (set_db (set_chains s t (db p)) p).
Proof.
  intros Hs [Hh Hb A K]. split; [done|done| |split; apply K].
  split; try apply A. intros s'. change (db (set_db ?d p)) with d. rewrite chainTable_set. pose proof (ag_chains _ _ _ _ _ A s') as Ha.
  case_bool_decide as He; [|done]. eapply sameRows_trans; [exact Ha|]. unfold chainTable in *. by rewrite He.
Qed.

Lemma own_params t p : sameRows (params (db p)) t h -> (forall n, is_Some (t !! n) -> X n) -> ownRows p -> ownRows (set_db (set_params t (db p)) p).
Proof.
  intros Hs Hn [Hh Hb A K]. split; [done|done| |split; try apply K; exact Hn].
  split; try apply A. eapply sameRows_trans; [apply (ag_params _ _ _ _ _ A)|done].
Qed.

Abbreviation keepsOwn := (maintains (E := string) ownRows).

Lemma own_insertAccount sch b amount : keepsOwn anything (insertAccount sch (hexEncode b) amount).
Proof. intros p Hp. split; [|done]. cbn. apply own_accounts; [|done]. rewrite (or_height _ Hp). apply stepAt_upsert. Qed.

Lemma own_operation sch b amount op : keepsOwn anything (operationAccountAmount sch (hexEncode b) amount op).
Proof. unfold operationAccountAmount. pose proof own_insertAccount. solve_maintains. Qed.

Lemma own_actorStmt s f : (forall t, stepAt h t (f t h)) -> keepsOwn anything (actorStmt s f).
Proof. intros Hf p Hp. split; [|done]. cbn. apply own_actors; [|done]. rewrite (or_height _ Hp). apply Hf. Qed.

Lemma own_InsertActor s a b : Address a = hexEncode b -> keepsOwn anything (InsertActor s a).
Proof.
  intros Ha p Hp. split; [|by destruct (_ p).1]. unfold InsertActor. rewrite bind_get. unfold GetHeight. rewrite (or_height _ Hp). rewrite Ha.
  erewrite bind_run by reflexivity. destruct (if bool_decide _ then _ else _) as [cs|].
  - unfold of_res. rewrite bind_eq. destruct (insertChains _ _ _ _) as [ct| |] eqn:Hct; [|done..]. cbn.
    apply (own_chains s ct (set_db _ p)); [|by apply own_actors; [apply stepAt_InsertRow|]]. by eapply insertChains_below.
  - cbn. apply own_actors; [apply stepAt_InsertRow|done].
Qed.

Lemma own_UpdateActor s a b : Address a = hexEncode b -> keepsOwn anything (UpdateActor s a).
Proof.
  intros Ha p Hp. split; [|by destruct (_ p).1]. unfold UpdateActor. rewrite bind_get. unfold GetHeight. rewrite (or_height _ Hp), Ha.
  erewrite bind_run by reflexivity. rewrite bind_modify.
  assert (ownRows (set_db (set_actors s (Update (actorTable (db p) s) (hexEncode b) (StakedAmount a) (ServiceUrl a) h) (db p)) p)) as H1
    by (apply own_actors; [apply stepAt_copyLatest|done]).
  destruct (Chains a) as [cs|]; [|done]. case_bool_decide; [|done]. rewrite bind_modify, bind_get.
  match type of H1 with ownRows ?q => set (p1 := q) in * end.
  assert (ownRows (set_db (set_chains s (NullifyChains (chainTable (db p1) s) (hexEncode b) h) (db p1)) p1)) as H2
    by (apply own_chains; [apply nullify_below|done]).
  match type of H2 with ownRows ?q => set (p2 := q) in * end.
  unfold of_res. rewrite bind_eq. destruct (insertChains _ _ _ _) as [ct| |] eqn:Hct; [|done..].
  apply (own_chains s ct p2); [by eapply insertChains_below|done].
Qed.

Lemma own_SetParam name v : X name -> keepsOwn anything (SetParam name v).
Proof.
  intros Hn p Hp. split; [|done]. cbn. apply own_params; [| |done].
  - rewrite (or_height _ Hp). apply upsert_below.
  - apply upsert_keys; [done|]. apply Hp.
Qed.
Lemma own_IndexTransaction t : collisionFree -> idx_Height t = h -> X (idx_Tx t) -> keepsOwn anything (IndexTransaction t).
Proof.
  intros HX Ht Hx p [Hh Hb A K]. split; [|done]. cbn. rewrite Ht. set (hash := hexEncode (SHA3Hash (idx_Tx t))).
  destruct (ky_index _ _ K) as [Hi1 Hi2]. split; [done|done| |].
  - split; try apply A. intros x h' Hl. rewrite (ag_index _ _ _ _ _ A x h' Hl). apply option_eq. intros b. rewrite !txRows_spec. cbn.
    split; intros (j & t' & Hj & Ht' & ->).
    + destruct (decide (hash = x)) as [<-|Hne].
      * exists j, t. rewrite lookup_insert_eq, lookup_insert_ne by (intros [=]; lia). split_and!; [done|done|]. pose proof (Hi1 _ _ Ht') as He. unfold hash in He.
        apply (inj hexEncode) in He. apply HX in He; [done|done|]. by eapply (ky_txs _ _ K).
      * exists j, t'. by rewrite !lookup_insert_ne by (try intros [=]; (done || lia)).
    + rewrite lookup_insert_ne in Hj by (intros [=]; lia). destruct (Hi2 _ _ Hj) as [t0 Ht0]. exists j, t0. split_and!; [done|done|].
      destruct (decide (hash = x)) as [<-|Hne]; [|rewrite lookup_insert_ne in Ht' by done; congruence].
      rewrite lookup_insert_eq in Ht'. injection Ht' as <-. pose proof (Hi1 _ _ Ht0) as He. unfold hash in He.
      apply (inj hexEncode) in He. apply HX in He; [done|done|]. by eapply (ky_txs _ _ K).
  - split; try apply K; [split|]; cbn.
    + intros x t' [[<- <-]|[_ Hl]]%lookup_insert_Some; [done|by apply Hi1].
    + intros q x [[_ <-]|[_ Hl]]%lookup_insert_Some; [by rewrite lookup_insert_eq|]. rewrite lookup_insert_is_Some.
      destruct (decide (hash = x)); [by left|right]. by eauto.
    + intros x t' [[_ <-]|[_ Hl]]%lookup_insert_Some; [done|by eapply (ky_txs _ _ K)].
Qed.

(** ** The unit of work *)
Import UnitOfWork.

Definition ownUow (u : baseUtilityUnitOfWork) : Prop :=
  UnitOfWork.height u = h /\ forall p, persistenceRWContext u = Some p -> ownRows p.

Lemma uow_write {A} (Q : A -> Prop) wrap (m : PM A) : keepsOwn Q m -> maintains ownUow Q (write wrap m).
Proof.
  intros Hm u [Hh Hu]. unfold write. destruct (persistenceRWContext u) as [p|] eqn:Hp; [|split; [split; [done|cbn; congruence]|done]].
  destruct (Hm p (Hu p eq_refl)) as [Ho Hq]. destruct (m p) as [[a|e|] p']; cbn in *; (split; [split; [done|intros q Hq'; cbn in Hq'; congruence]|done]).
Qed.
Lemma uow_read {A} wrap (f : PostgresContext -> res string A) : maintains ownUow anything (read wrap f).
Proof. intros u Hu. unfold read. destruct (persistenceReadContext u) as [p|]; [|done]. by destruct (f p). Qed.
Lemma uow_of_text {A} wrap (r : res string A) : maintains ownUow anything (of_text wrap r).
Proof. unfold of_text. eapply maintains_any, maintains_of_res. Qed.
#[local] Hint Resolve uow_read uow_of_text : maintains.

Lemma own_mret {A} (a : A) : keepsOwn anything (mret a).
Proof. by apply maintains_ret. Qed.

(** A write through the unit of work: which statement it is decides. *)
Ltac own_write := apply uow_write;
  cbv delta [AddAccountAmount SubtractAccountAmount SetAccountAmount InsertPool AddPoolAmount
    SubtractPoolAmount SetPoolAmount SetActorUnstakingHeightAndStatus
    SetActorStatusAndUnstakingHeightIfPausedBefore SetActorPauseHeight InsertApp InsertServicer
    InsertFisherman InsertValidator UpdateApp UpdateServicer UpdateFisherman UpdateValidator SetAppStakeAmount
    SetAppUnstakingHeightAndStatus SetAppStatusAndUnstakingHeightIfPausedBefore SetAppPauseHeight
    SetServicerStakeAmount SetServicerUnstakingHeightAndStatus
    SetServicerStatusAndUnstakingHeightIfPausedBefore SetServicerPauseHeight SetFishermanStakeAmount
    SetFishermanUnstakingHeightAndStatus SetFishermanStatusAndUnstakingHeightIfPausedBefore
    SetFishermanPauseHeight SetValidatorStakeAmount SetValidatorUnstakingHeightAndStatus
    SetValidatorsStatusAndUnstakingHeightIfPausedBefore SetValidatorPauseHeight SetValidatorMissedBlocks
    Persistence.setActorStakeAmount] beta;
  first [apply own_operation | apply own_insertAccount | by eapply own_InsertActor | by eapply own_UpdateActor | apply own_mret
        | apply own_actorStmt; intros ?; first [apply stepAt_copyLatest | apply stepAt_unstakePaused]].
#[local] Hint Extern 1 (maintains ownUow _ (write _ _)) => own_write : maintains.

Lemma uow_getInt n : maintains ownUow anything (getIntParam n).
Proof. unfold getIntParam. solve_maintains. Qed.
Lemma uow_getString n : maintains ownUow anything (getStringParam n).
Proof. unfold getStringParam. solve_maintains. Qed.
#[local] Hint Resolve uow_getInt uow_getString : maintains.
Lemma uow_getBigInt n : maintains ownUow anything (getBigIntParam n).
Proof. unfold getBigIntParam. solve_maintains. Qed.
Lemma uow_account a : maintains ownUow anything (UnitOfWork.getAccountAmount a).
Proof. unfold UnitOfWork.getAccountAmount. solve_maintains. Qed.
Lemma uow_pool a : maintains ownUow anything (getPoolAmount a).
Proof. unfold getPoolAmount. solve_maintains. Qed.
Lemma uow_addAccount a z : maintains ownUow anything (addAccountAmount a z).
Proof. unfold addAccountAmount. solve_maintains. Qed.
Lemma uow_setAccount a z : maintains ownUow anything (setAccountAmount a z).
Proof. unfold setAccountAmount. solve_maintains. Qed.
Lemma uow_addPool a z : maintains ownUow anything (addPoolAmount a z).
Proof. unfold addPoolAmount. solve_maintains. Qed.
Lemma uow_subPool a z : maintains ownUow anything (subPoolAmount a z).
Proof. unfold subPoolAmount. solve_maintains. Qed.
Lemma uow_setPool a z : maintains ownUow anything (setPoolAmount a z).
Proof. unfold setPoolAmount. solve_maintains. Qed.
#[local] Hint Resolve uow_getBigInt uow_account uow_pool uow_addAccount uow_setAccount uow_addPool uow_subPool uow_setPool : maintains.

Lemma uow_actorIntParam t a b c d : maintains ownUow anything (actorIntParam t a b c d).
Proof. unfold actorIntParam. solve_maintains. Qed.
#[local] Hint Resolve uow_actorIntParam : maintains.
Lemma uow_unbondingHeight t : maintains ownUow anything (getUnbondingHeight t).
Proof. unfold getUnbondingHeight. solve_maintains. Qed.
Lemma uow_maxPaused t : maintains ownUow anything (getMaxAllowedPausedBlocks t).
Proof. unfold getMaxAllowedPausedBlocks. solve_maintains. Qed.
Lemma uow_minPaused t : maintains ownUow anything (getMinRequiredPausedBlocks t).
Proof. unfold getMinRequiredPausedBlocks. solve_maintains. Qed.
Lemma uow_maxChains t : maintains ownUow anything (getMaxAllowedChains t).
Proof. unfold getMaxAllowedChains. solve_maintains. Qed.
Lemma uow_stakeAmount t a : maintains ownUow anything (UnitOfWork.getActorStakeAmount t a).
Proof. unfold UnitOfWork.getActorStakeAmount, switchActor. solve_maintains. Qed.
Lemma uow_actorExists t a : maintains ownUow anything (getActorExists t a).
Proof. unfold getActorExists, switchActor. solve_maintains. Qed.
Lemma uow_actorStatus t a : maintains ownUow anything (getActorStatus t a).
Proof. unfold getActorStatus, switchActor. solve_maintains. Qed.
Lemma uow_pausedHeight t a : maintains ownUow anything (getPausedHeightIfExists t a).
Proof. unfold getPausedHeightIfExists, switchActor. solve_maintains. Qed.
Lemma uow_outputAddress t a : maintains ownUow anything (getActorOutputAddress t a).
Proof. unfold getActorOutputAddress, switchActor. solve_maintains. Qed.
Lemma uow_minStake t s : maintains ownUow anything (checkAboveMinStake t s).
Proof. unfold checkAboveMinStake, getMinRequiredStakeAmount, switchActor. solve_maintains. Qed.
#[local] Hint Resolve uow_unbondingHeight uow_maxPaused uow_minPaused uow_maxChains uow_stakeAmount uow_actorExists uow_actorStatus uow_pausedHeight uow_outputAddress uow_minStake : maintains.
Lemma uow_belowMaxChains t c : maintains ownUow anything (checkBelowMaxChains t c).
Proof. unfold checkBelowMaxChains. solve_maintains. Qed.
Lemma uow_setStake t a z : maintains ownUow anything (UnitOfWork.setActorStakeAmount t a z).
Proof. unfold UnitOfWork.setActorStakeAmount, switchActor. solve_maintains. Qed.
Lemma uow_setUnbonding t a z : maintains ownUow anything (setActorUnbondingHeight t a z).
Proof. unfold setActorUnbondingHeight, switchActor. solve_maintains. Qed.
Lemma uow_setPaused t a z : maintains ownUow anything (setActorPausedHeight t a z).
Proof. unfold setActorPausedHeight, switchActor. solve_maintains. Qed.
#[local] Hint Resolve uow_belowMaxChains uow_setStake uow_setUnbonding uow_setPaused : maintains.

(** *** Messages *)
Lemma uow_send m : maintains ownUow anything (handleMessageSend m).
Proof. unfold handleMessageSend. solve_maintains. Qed.
Lemma uow_stake m : maintains ownUow anything (handleStakeMessage m).
Proof. unfold handleStakeMessage, switchActor. solve_maintains. Qed.
Lemma uow_editStake m : maintains ownUow anything (handleEditStakeMessage m).
Proof. unfold handleEditStakeMessage, switchActor. solve_maintains. Qed.
Lemma uow_unstake m : maintains ownUow anything (handleUnstakeMessage m).
Proof. unfold handleUnstakeMessage. solve_maintains. Qed.
Lemma uow_unpause m : maintains ownUow anything (handleUnpauseMessage m).
Proof. unfold handleUnpauseMessage. solve_maintains. Qed.
Lemma uow_changeParameter m : X (ParameterKey m) -> maintains ownUow anything (handleMessageChangeParameter m).
Proof.
  intros Hx. unfold handleMessageChangeParameter, updateParam.
  assert (forall v, maintains ownUow anything (write ErrUpdateParam (SetParam (ParameterKey m) v))) by (intros v; by apply uow_write, own_SetParam).
  solve_maintains.
Qed.

(** The parameter a message names, if any, is a known text. *)
Definition knownMessage (m : Message) : Prop := match m with MChangeParameter m => X (ParameterKey m) | _ => True end.

Lemma uow_handleMessage m : knownMessage m -> maintains ownUow anything (handleMessage m).
Proof.
  intros Hm. destruct m; cbn [handleMessage];
    [apply uow_send|apply uow_stake|apply uow_editStake|apply uow_unstake|apply uow_unpause|by apply uow_changeParameter].
Qed.

(** *** Transactions *)
Lemma uow_signers m : maintains ownUow anything (getSignerCandidates m).
Proof.
  destruct m; cbn [getSignerCandidates];
    unfold getMessageSendSignerCandidates, getMessageStakeSignerCandidates, getMessageUnstakeSignerCandidates,
      getMessageUnpauseSignerCandidates, getMessageChangeParameterSignerCandidates, getParamOwner, getByteArrayParam; solve_maintains.
Qed.
Lemma uow_fee m t : maintains ownUow anything (getFee m t).
Proof. destruct m; cbn [getFee]; unfold switchActor; solve_maintains. Qed.
#[local] Hint Resolve uow_signers uow_fee : maintains.

Lemma uow_deduct a m : maintains ownUow anything (validateAndDeductTxFees a m).
Proof. unfold validateAndDeductTxFees. solve_maintains. Qed.
#[local] Hint Resolve uow_deduct : maintains.
Lemma uow_signature a m : maintains ownUow anything (validateTxSignature a m).
Proof. unfold validateTxSignature. solve_maintains. Qed.
#[local] Hint Resolve uow_signature : maintains.

(** The encoding of a transaction and the parameter it changes are known texts. *)
Definition knownTx (tx : Transaction) : Prop :=
  (forall b, Tx_Bytes tx = inl b -> X b) /\ (forall m, GetMessage tx = inl (PMessage m) -> knownMessage m).

Lemma knownMessage_signer a m : knownMessage m -> knownMessage (SetSigner a m).
Proof. by destruct m. Qed.

Lemma uow_validateTx tx : knownTx tx -> maintains ownUow knownMessage (basicValidateTransaction tx).
Proof.
  intros [_ Hm]. unfold basicValidateTransaction. apply (maintains_bind _ knownMessage).
  { unfold validateTxMessage. destruct (GetMessage tx) as [[m| | | |]|] eqn:He; solve_maintains. apply maintains_ret. by apply Hm. }
  intros m Hk. destruct (tx_Signature tx); [|solve_maintains]. destruct (NewPublicKeyFromBytes _); solve_maintains.
  apply maintains_ret. by apply knownMessage_signer.
Qed.

(** A transaction is indexed at the height of the block. *)
Definition ownIdxTx (t : IndexedTransaction) : Prop := idx_Height t = h /\ X (idx_Tx t).

Lemma uow_catch m : maintains ownUow anything m -> maintains ownUow anything (catch m).
Proof. intros Hm u Hu. destruct (Hm u Hu) as [H1 _]. unfold catch. by destruct (m u) as [[a|e|] u']. Qed.
Lemma uow_fatal {A} (Q : A -> Prop) (m : UM A) : maintains ownUow Q m -> maintains ownUow Q (fatal m).
Proof. intros Hm u Hu. specialize (Hm u Hu). unfold fatal. by destruct (m u) as [[a|e|] u']. Qed.

Lemma uow_HandleTransaction tx index : knownTx tx -> maintains ownUow ownIdxTx (HandleTransaction tx index).
Proof.
  intros Hk. unfold HandleTransaction. eapply maintains_bind; [by apply uow_validateTx|]. intros m Hm.
  eapply maintains_bind; [by apply uow_catch, uow_handleMessage|]. intros r _.
  eapply (maintains_bind _ (fun z => z = h)); [by apply maintains_gets; intros u [? _]|]. intros z ->.
  destruct (TxToIdxTx _ _ _ _ _) as [t|e] eqn:Ht; [|apply maintains_fail]. apply maintains_ret.
  unfold TxToIdxTx in Ht. destruct (Tx_Bytes tx) as [b|] eqn:Hb; [|done]. injection Ht as <-. split; [done|]. by apply Hk.
Qed.

Lemma uow_indexTx t : collisionFree -> ownIdxTx t -> maintains ownUow anything (indexTx t).
Proof. intros HX [Ht Hx]. by apply uow_fatal, uow_write, own_IndexTransaction. Qed.

(** *** Blocks *)
Lemma uow_burn a : maintains ownUow anything (burnValidator a).
Proof. unfold burnValidator. solve_maintains. Qed.
#[local] Hint Resolve uow_burn : maintains.
Lemma uow_beginBlock : maintains ownUow anything beginBlock.
Proof. unfold beginBlock, prevBlockByzantineValidators, handleByzantineValidators. solve_maintains. Qed.

Lemma uow_unbond a x : maintains ownUow anything (unbondActor a x).
Proof. unfold unbondActor. solve_maintains. Qed.
#[local] Hint Resolve uow_unbond : maintains.
Lemma uow_pausedBefore z t : maintains ownUow anything (beginUnstakingActorsPausedBefore z t).
Proof. unfold beginUnstakingActorsPausedBefore, switchActor. solve_maintains. Qed.
#[local] Hint Resolve uow_pausedBefore : maintains.
Lemma uow_endBlock o1 o2 a : maintains ownUow anything (endBlock o1 o2 a).
Proof.
  unfold endBlock, handleProposerRewards, unbondUnstakingActors, beginUnstakingMaxPausedActors, switchActor. solve_maintains.
Qed.

(** *** With the mempool *)
Definition ownUS (s : US) : Prop := ownUow (uow s).

Lemma us_onUow {E A} (Q : A -> Prop) (wrap : Error -> E) (m : UM A) : maintains ownUow Q m -> maintains ownUS Q (onUow wrap m).
Proof. intros Hm s Hs. specialize (Hm (uow s) Hs). unfold onUow. by destruct (m (uow s)) as [[a|e|] u']. Qed.

Lemma us_processTx index b : collisionFree -> (forall tx, TxFromBytes b = inl tx -> knownTx tx) -> maintains ownUS anything (processTx index b).
Proof.
  intros HX Hk. unfold processTx. apply (maintains_bind _ knownTx).
  { destruct (TxFromBytes b) as [tx|e]; [apply maintains_ret; by apply Hk|apply maintains_fail]. }
  intros tx Ht. apply (maintains_bind _ anything); [destruct (Tx_ValidateBasic tx); solve_maintains|]. intros _ _.
  eapply maintains_bind; [by apply us_onUow, uow_HandleTransaction|]. intros t Hi.
  apply (maintains_bind _ anything); [destruct (Tx_Hash tx); solve_maintains|]. intros hash _.
  apply (maintains_bind _ anything); [apply maintains_modify; intros s Hs; by destruct (TxMempool.ContainsTx _ _)|]. intros _ _.
  by apply us_onUow, uow_indexTx.
Qed.

Lemma us_processTxs index (txs : list bytes) :
  collisionFree -> (forall b tx, b ∈ txs -> TxFromBytes b = inl tx -> knownTx tx) -> maintains ownUS anything (processTxs index txs).
Proof.
  intros HX. revert index. induction txs as [|b txs IH]; intros index Hk; cbn [processTxs]; [by apply maintains_ret|].
  eapply maintains_bind; [apply us_processTx; [done|]; intros tx; apply Hk; set_solver|]. intros _ _. apply IH.
  intros b' tx Hb. apply Hk. set_solver.
Qed.
End own.
End OwnRows.
