(* ===== verification/UowLedger.v ===== *)
(** How the unit of work moves money: the handlers of the utility module in terms of the
    abstract ledger of [Ledger].

    The committed ledger is what the read context shows, the working ledger is what the
    read-write context holds; the code computes new balances from the first and stores them
    in the second. *)

From S2P Require Import Prelude GoStd Errors Crypto CoreTypes Gov Messages Sql Persistence Ledger FifoSet TxMempool UnitOfWork.
#[local] Open Scope string_scope.
#[local] Open Scope Z_scope.

Module UowLedger.
Import UnitOfWork.

Definition emptyLedger : Ledger := {| lacc := ∅; lpool := ∅ |}.

Definition committed (u : baseUtilityUnitOfWork) : Ledger :=
  match persistenceReadContext u with Some p => view (db p) (height u) | None => emptyLedger end.
Definition working (u : baseUtilityUnitOfWork) : Ledger :=
  match persistenceRWContext u with Some q => view (db q) (height u) | None => emptyLedger end.

(** Both contexts are open, at the height of the unit of work, with decimal balances. *)
Definition ctx_ok (h : Z) (c : option PostgresContext) : Prop :=
  match c with Some p => Height p = h /\ balances_ok (db p) h | None => False end.
Definition uow_wf (u : baseUtilityUnitOfWork) : Prop :=
  ctx_ok (height u) (persistenceReadContext u) /\ ctx_ok (height u) (persistenceRWContext u).

(** Storing a balance in the read-write context. *)
Definition store (sch : AccountSchema) (key : string) (v : Z) (u : baseUtilityUnitOfWork) : baseUtilityUnitOfWork :=
  set_rw (writeBalance sch key v <$> persistenceRWContext u) u.
(** Adding to the working balance. *)
Definition storeAdd (sch : AccountSchema) (key : string) (v : Z) (u : baseUtilityUnitOfWork) : baseUtilityUnitOfWork :=
  store sch key (l_get sch key (working u) + v) u.

Definition poolKey (pool : Z) : string := hexEncode (Pools_Address pool).

Section runs.
Implicit Types (u : baseUtilityUnitOfWork) (sch : AccountSchema) (key : string) (v : Z) (a : bytes).

Lemma store_wf sch key v u : uow_wf u -> uow_wf (store sch key v u).
Proof.
  unfold uow_wf, store. destruct u as [h rc [q|] ? ? ? ?]; cbn; [|tauto].
  intros (Hr & Hh & Hok). split; [done|]. split; [done|].
  subst h. by apply (balances_ok_write sch key v q).
Qed.

Lemma working_store sch key v u :
  uow_wf u -> working (store sch key v u) = l_set sch key v (working u).
Proof.
  unfold uow_wf, store, working. destruct u as [h rc [q|] ? ? ? ?]; cbn [ctx_ok persistenceRWContext height]; [|tauto].
  intros (_ & <- & _). cbn. apply view_writeBalance.
Qed.

Lemma committed_store sch key v u : committed (store sch key v u) = committed u.
Proof. done. Qed.
Lemma height_store sch key v u : height (store sch key v u) = height u.
Proof. done. Qed.
Lemma read_store sch key v u : persistenceReadContext (store sch key v u) = persistenceReadContext u.
Proof. done. Qed.

Lemma storeAdd_wf sch key v u : uow_wf u -> uow_wf (storeAdd sch key v u).
Proof. apply store_wf. Qed.
Lemma working_storeAdd sch key v u :
  uow_wf u -> working (storeAdd sch key v u) = l_add sch key v (working u).
Proof. apply working_store. Qed.

(** Reads. *)
Lemma read_amount_run sch wrap key u :
  uow_wf u ->
  exists txt, read wrap (fun p => Persistence.getAccountAmount sch p key (height u)) u = (Ok txt, u) /\
    bigIntSetString txt = Some (l_get sch key (committed u)).
Proof.
  unfold uow_wf, read, committed. destruct u as [h [p|] rw ? ? ? ?];
    cbn [ctx_ok persistenceReadContext persistenceRWContext height]; [|tauto].
  intros ((Hh & Hok) & _). destruct (getAccountAmount_view sch p key h Hok) as (txt & Hg & Ht).
  exists txt. by rewrite Hg.
Qed.

Lemma getAccountAmount_run a u :
  uow_wf u -> getAccountAmount a u = (Ok (l_get AccountS (hexEncode a) (committed u)), u).
Proof.
  intros Hwf. destruct (read_amount_run AccountS ErrGetAccountAmount (hexEncode a) u Hwf) as (txt & Hr & Ht).
  unfold getAccountAmount, GetAccountAmount. cbv [mbind M_bind gets]. rewrite Hr.
  unfold of_text, of_res, StringToBigInt. by rewrite Ht.
Qed.

Lemma getPoolAmount_run a u :
  uow_wf u -> getPoolAmount a u = (Ok (l_get PoolS (hexEncode a) (committed u)), u).
Proof.
  intros Hwf. destruct (read_amount_run PoolS (ErrGetPoolAmount a) (hexEncode a) u Hwf) as (txt & Hr & Ht).
  unfold getPoolAmount, GetPoolAmount. cbv [mbind M_bind gets]. rewrite Hr.
  unfold of_text, of_res, StringToBigInt. by rewrite Ht.
Qed.

(** Writes. *)
Lemma write_op_run wrap sch key v op u :
  uow_wf u ->
  write wrap (operationAccountAmount sch key (BigIntToString v) op) u =
    (Ok tt, store sch key (op (l_get sch key (working u)) v) u).
Proof.
  unfold uow_wf, write, store, working. destruct u as [h rc [q|] ? ? ? ?]; cbn [ctx_ok persistenceRWContext height]; [|tauto].
  intros (_ & <- & Hok).
  rewrite (operation_run sch key (BigIntToString v) v op q Hok (bigInt_text_parse v)). done.
Qed.

Lemma addAccountAmount_run a v u :
  uow_wf u -> addAccountAmount a v u = (Ok tt, storeAdd AccountS (hexEncode a) v u).
Proof. intros Hwf. exact (write_op_run _ _ _ v _ u Hwf). Qed.
Lemma setAccountAmount_run a v u :
  uow_wf u -> setAccountAmount a v u = (Ok tt, store AccountS (hexEncode a) v u).
Proof. intros Hwf. exact (write_op_run _ _ _ v _ u Hwf). Qed.
Lemma addPoolAmount_run a v u :
  uow_wf u -> addPoolAmount a v u = (Ok tt, storeAdd PoolS (hexEncode a) v u).
Proof. intros Hwf. exact (write_op_run _ _ _ v _ u Hwf). Qed.
Lemma subPoolAmount_run a v u :
  uow_wf u -> subPoolAmount a v u = (Ok tt, storeAdd PoolS (hexEncode a) (- v) u).
Proof. intros Hwf. exact (write_op_run _ _ _ v (fun o d => o - d) u Hwf). Qed.
Lemma setPoolAmount_run a v u :
  uow_wf u -> setPoolAmount a v u = (Ok tt, store PoolS (hexEncode a) v u).
Proof. intros Hwf. exact (write_op_run _ _ _ v _ u Hwf). Qed.

(** Parameters come from the read context only. *)
Definition readRes {A} (wrap : string -> Error) (f : PostgresContext -> Z -> res string A) u : res Error A :=
  match persistenceReadContext u with
  | None => Panic
  | Some p => match f p (height u) with Ok a => Ok a | Err e => Err (wrap e) | Panic => Panic end
  end.
Definition intParam (name : string) u : res Error Z := readRes (ErrGetParam name) (fun p h => GetIntParam p name h) u.
Definition stringParam (name : string) u : res Error string := readRes (ErrGetParam name) (fun p h => GetStringParam p name h) u.
Definition bigIntParam (name : string) u : res Error Z :=
  match stringParam name u with
  | Ok t => match bigIntSetString t with Some z => Ok z | None => Err (ErrStringToBigInt setStringErrorText) end
  | Err e => Err e
  | Panic => Panic
  end.

Lemma getIntParam_run name u : getIntParam name u = (intParam name u, u).
Proof. unfold getIntParam, intParam, readRes, read. cbv [mbind M_bind gets]. by destruct (persistenceReadContext u). Qed.

Lemma getBigIntParam_run name u : getBigIntParam name u = (bigIntParam name u, u).
Proof.
  unfold getBigIntParam, bigIntParam, getStringParam, stringParam, readRes, read. cbv [mbind M_bind gets].
  destruct (persistenceReadContext u) as [p|]; [|done].
  destruct (GetStringParam p name (height u)); [|done|done].
  unfold of_text, of_res, StringToBigInt. by destruct (bigIntSetString a).
Qed.
End runs.

#[export] Hint Resolve store_wf storeAdd_wf : golib.
#[export] Hint Rewrite working_store working_storeAdd using (eauto with golib) : uow.
#[export] Hint Rewrite committed_store height_store read_store : uow.
#[export] Hint Rewrite l_get_set_eq l_get_add_eq supply_set supply_add : ledger.
End UowLedger.
