(* ===== verification/UowSend.v ===== *)
(** Transfers and fees: [handleMessageSend], [validateAndDeductTxFees] and
    [HandleTransaction] of the unit of work on the abstract ledger. *)

From S2P Require Import Prelude GoStd Errors Crypto CoreTypes Gov Messages Sql Persistence Ledger FifoSet TxMempool UnitOfWork UowLedger.
#[local] Open Scope string_scope.
#[local] Open Scope Z_scope.

Module UowSend.
Import UnitOfWork UowLedger.

Definition fromKey (m : MessageSend) : string := hexEncode (bz (FromAddress m)).
Definition toKey (m : MessageSend) : string := hexEncode (bz (ToAddress m)).

(** The state a transfer leaves: the recipient's working balance grows by the amount, the
    sender's becomes the committed balance less the amount. *)
Definition sent (m : MessageSend) (amount : Z) (u : baseUtilityUnitOfWork) : baseUtilityUnitOfWork :=
  store AccountS (fromKey m) (l_get AccountS (fromKey m) (committed u) - amount)
    (storeAdd AccountS (toKey m) amount u).

Lemma handleMessageSend_run m u :
  uow_wf u ->
  handleMessageSend m u =
    match bigIntSetString (send_Amount m) with
    | None => (Err (ErrStringToBigInt setStringErrorText), u)
    | Some amount =>
        if decide (l_get AccountS (fromKey m) (committed u) < amount)
        then (Err (ErrInsufficientAmount (fromKey m)), u)
        else (Ok tt, sent m amount u)
    end.
Proof.
  intros Hwf. unfold handleMessageSend, of_text, of_res, StringToBigInt.
  destruct (bigIntSetString (send_Amount m)) as [amount|]; [|done].
  erewrite bind_run by reflexivity. rewrite (bind_run _ _ _ _ _ (getAccountAmount_run _ _ Hwf)).
  cbv zeta. case_bool_decide as Hb; case_decide as Hd; unfold fromKey in *; try lia; [done|].
  rewrite (bind_run _ _ _ _ _ (addAccountAmount_run _ _ _ Hwf)).
  rewrite setAccountAmount_run by eauto with golib. done.
Qed.

Lemma sent_wf m amount u : uow_wf u -> uow_wf (sent m amount u).
Proof. unfold sent. eauto with golib. Qed.

Lemma working_sent m amount u :
  uow_wf u ->
  working (sent m amount u) =
    l_set AccountS (fromKey m) (l_get AccountS (fromKey m) (committed u) - amount)
      (l_add AccountS (toKey m) amount (working u)).
Proof. intros Hwf. unfold sent. by autorewrite with uow. Qed.

Lemma supply_sent m amount u :
  uow_wf u -> fromKey m ≠ toKey m ->
  supply (working (sent m amount u)) =
    supply (working u) + l_get AccountS (fromKey m) (committed u) - l_get AccountS (fromKey m) (working u).
Proof.
  intros Hwf Hne. rewrite working_sent by done. autorewrite with ledger.
  rewrite l_get_add_ne by congruence. lia.
Qed.

(** C28: a transfer that is the first change of its sender in a block conserves tokens.  When
    the sender and the recipient differ, the amount parses and the working balance of the
    sender is still the committed one, which no longer holds once a fee or another transfer has
    been taken from it in the same block, the handler either rejects the transfer for lack of
    funds and changes nothing, or succeeds with the sender debited and the recipient credited
    by exactly the amount, every other balance and the total supply unchanged. *)
Theorem send_conserves_supply (m : MessageSend) (u : baseUtilityUnitOfWork) (amount : Z) :
  uow_wf u -> bigIntSetString (send_Amount m) = Some amount -> fromKey m ≠ toKey m ->
  l_get AccountS (fromKey m) (working u) = l_get AccountS (fromKey m) (committed u) ->
  if decide (l_get AccountS (fromKey m) (committed u) < amount)
  then handleMessageSend m u = (Err (ErrInsufficientAmount (fromKey m)), u)
  else exists u', handleMessageSend m u = (Ok tt, u') /\ uow_wf u' /\
    l_get AccountS (fromKey m) (working u') = l_get AccountS (fromKey m) (working u) - amount /\
    l_get AccountS (toKey m) (working u') = l_get AccountS (toKey m) (working u) + amount /\
    (forall sch key, (sch, key) ≠ (AccountS, fromKey m) -> (sch, key) ≠ (AccountS, toKey m) ->
       l_get sch key (working u') = l_get sch key (working u)) /\
    supply (working u') = supply (working u).
Proof.
  intros Hwf Ha Hne Hag. pose proof (handleMessageSend_run m u Hwf) as Hrun. rewrite Ha in Hrun.
  case_decide; [done|]. exists (sent m amount u). split; [done|]. split; [by apply sent_wf|].
  split; [by rewrite working_sent, l_get_set_eq, Hag by done|].
  split; [by rewrite working_sent, l_get_set_ne, l_get_add_eq by congruence|].
  split; [intros sch key H1 H2; by rewrite working_sent, l_get_set_ne, l_get_add_ne by congruence|].
  rewrite supply_sent by done. lia.
Qed.

(** sending to oneself burns the amount: the credit is overwritten by the debit computed
    from the committed balance. *)
Theorem self_send_burns (m : MessageSend) (u : baseUtilityUnitOfWork) (amount : Z) :
  uow_wf u -> bigIntSetString (send_Amount m) = Some amount -> fromKey m = toKey m ->
  l_get AccountS (fromKey m) (working u) = l_get AccountS (fromKey m) (committed u) ->
  amount <= l_get AccountS (fromKey m) (committed u) ->
  exists u', handleMessageSend m u = (Ok tt, u') /\
    supply (working u') = supply (working u) - amount.
Proof.
  intros Hwf Ha Heq Hag Hle. rewrite handleMessageSend_run, Ha, decide_False by (done || lia).
  eexists. split; [reflexivity|]. rewrite working_sent by done. autorewrite with ledger.
  rewrite <- Heq, l_get_add_eq. lia.
Qed.

(** a second transfer from the same sender in the same block is checked against the
    committed balance, not against what the first one left: both succeed as long as each
    alone is affordable, and the second overwrites the debit of the first, so the first
    amount is created from nothing. *)
Theorem double_spend_in_block (m1 m2 : MessageSend) (u : baseUtilityUnitOfWork) (a1 a2 : Z) :
  uow_wf u -> bigIntSetString (send_Amount m1) = Some a1 -> bigIntSetString (send_Amount m2) = Some a2 ->
  fromKey m2 = fromKey m1 -> fromKey m1 ≠ toKey m1 -> fromKey m2 ≠ toKey m2 ->
  l_get AccountS (fromKey m1) (working u) = l_get AccountS (fromKey m1) (committed u) ->
  a1 <= l_get AccountS (fromKey m1) (committed u) -> a2 <= l_get AccountS (fromKey m1) (committed u) ->
  exists u1 u2, handleMessageSend m1 u = (Ok tt, u1) /\ handleMessageSend m2 u1 = (Ok tt, u2) /\
    l_get AccountS (fromKey m1) (working u2) = l_get AccountS (fromKey m1) (working u) - a2 /\
    supply (working u2) = supply (working u) + a1.
Proof.
  intros Hwf H1 H2 Hf Hn1 Hn2 Hag Hl1 Hl2.
  exists (sent m1 a1 u), (sent m2 a2 (sent m1 a1 u)).
  rewrite handleMessageSend_run, H1, decide_False by (done || lia). split; [done|].
  assert (uow_wf (sent m1 a1 u)) as Hwf1 by (by apply sent_wf).
  assert (committed (sent m1 a1 u) = committed u) as Hc by done.
  rewrite handleMessageSend_run, H2, Hc, Hf, decide_False by (done || lia). split; [done|].
  rewrite supply_sent, supply_sent, Hc, Hf by done. rewrite working_sent, Hc, Hf by done. split.
  - rewrite l_get_set_eq. lia.
  - rewrite (working_sent m1) by done. rewrite l_get_set_eq. lia.
Qed.

(** ** Fees *)

Definition charged (key : string) (fee : Z) (u : baseUtilityUnitOfWork) : baseUtilityUnitOfWork :=
  storeAdd PoolS (poolKey POOLS_FEE_COLLECTOR) fee
    (store AccountS key (l_get AccountS key (committed u) - fee) u).

Lemma charged_wf key fee u : uow_wf u -> uow_wf (charged key fee u).
Proof. unfold charged. eauto with golib. Qed.

Lemma committed_charged key fee u : committed (charged key fee u) = committed u.
Proof. done. Qed.

Lemma working_charged key fee u :
  uow_wf u ->
  working (charged key fee u) =
    l_add PoolS (poolKey POOLS_FEE_COLLECTOR) fee
      (l_set AccountS key (l_get AccountS key (committed u) - fee) (working u)).
Proof. intros Hwf. unfold charged. by autorewrite with uow. Qed.

(** The fee of a transfer is the [message_send_fee] parameter. *)
Lemma deductFee_send_run (address : bytes) (m : MessageSend) u fee :
  uow_wf u -> bigIntParam MessageSendFee u = Ok fee ->
  validateAndDeductTxFees address (MSend m) u =
    if decide (l_get AccountS (hexEncode address) (committed u) < fee)
    then (Err (ErrInsufficientAmount (Address_String address)), u)
    else (Ok tt, charged (hexEncode address) fee u).
Proof.
  intros Hwf Hfee. unfold validateAndDeductTxFees, getFee.
  erewrite bind_run by (rewrite getBigIntParam_run, Hfee; reflexivity).
  erewrite bind_run; [| unfold wrap_err; rewrite getAccountAmount_run by done; reflexivity].
  cbv zeta. case_bool_decide; case_decide; try lia; [done|].
  rewrite (bind_run _ _ _ _ _ (setAccountAmount_run _ _ _ Hwf)).
  rewrite addPoolAmount_run by eauto with golib. done.
Qed.

(** A transaction that carries the transfer [m], signed with the key of its sender. *)
Record is_send_tx `{CryptoPrims} `{Codec} (tx : Transaction) (m : MessageSend) : Prop := {
  send_msg : GetMessage tx = inl (PMessage (MSend m));
  send_signer : exists sig pk, tx_Signature tx = Some sig /\
    NewPublicKeyFromBytes (bz (sig_PublicKey sig)) = Ok pk /\ PublicKey_Address pk = bz (FromAddress m);
  send_bytes : exists b, Tx_Bytes tx = inl b;
}.

(** Executing such a transaction: the fee first, then the transfer. *)
Lemma HandleTransaction_send_run `{CryptoPrims} `{Codec} tx m index u fee amount :
  is_send_tx tx m -> uow_wf u -> bigIntParam MessageSendFee u = Ok fee ->
  bigIntSetString (send_Amount m) = Some amount ->
  fee <= l_get AccountS (fromKey m) (committed u) -> amount <= l_get AccountS (fromKey m) (committed u) ->
  exists idx, HandleTransaction tx index u = (Ok idx, sent m amount (charged (fromKey m) fee u)) /\
    idx_ResultCode idx = 0 /\ idx_SignerAddr idx = fromKey m /\ idx_RecipientAddr idx = toKey m.
Proof.
  intros [Hmsg (sig & pk & Hsig & Hpk & Haddr) [b Hb]] Hwf Hfee Ha Hl1 Hl2.
  assert (basicValidateTransaction tx u = (Ok (MSend m), charged (fromKey m) fee u)) as Hbv.
  { unfold basicValidateTransaction, validateTxMessage. rewrite Hmsg. erewrite bind_run by reflexivity.
    rewrite Hsig, Hpk. erewrite bind_run; cycle 1.
    { unfold validateTxSignature. cbn [getSignerCandidates]. erewrite bind_run by reflexivity.
      rewrite Haddr, bool_decide_eq_true_2 by set_solver. reflexivity. }
    erewrite bind_run; cycle 1.
    { cbn [SetSigner]. rewrite (deductFee_send_run _ _ _ fee) by done.
      rewrite decide_False by (unfold fromKey in *; lia). reflexivity. }
    reflexivity. }
  unfold HandleTransaction. rewrite (bind_run _ _ _ _ _ Hbv).
  erewrite bind_run; cycle 1.
  { unfold catch. cbn [handleMessage]. rewrite handleMessageSend_run, Ha by (by apply charged_wf).
    rewrite committed_charged, decide_False by lia. reflexivity. }
  erewrite bind_run by reflexivity. unfold TxToIdxTx. rewrite Hb. eexists. split; [reflexivity|]. done.
Qed.

(** a transfer's fee is credited to the fee pool but the sender does not pay it: the
    message handler computes the sender's balance from the committed ledger again and
    overwrites the deduction.  Executing a signed transfer of [amount] under the fee [fee]
    succeeds with result code 0, leaves the sender with the old balance less the amount only,
    credits the fee pool, and increases the supply by the fee. *)
Theorem send_tx_fee_not_charged `{CryptoPrims} `{Codec} (tx : Transaction) (m : MessageSend) (index : Z)
    (u : baseUtilityUnitOfWork) (fee amount : Z) :
  is_send_tx tx m -> uow_wf u -> bigIntParam MessageSendFee u = Ok fee ->
  bigIntSetString (send_Amount m) = Some amount -> fromKey m ≠ toKey m ->
  l_get AccountS (fromKey m) (working u) = l_get AccountS (fromKey m) (committed u) ->
  fee <= l_get AccountS (fromKey m) (committed u) -> amount <= l_get AccountS (fromKey m) (committed u) ->
  exists idx u', HandleTransaction tx index u = (Ok idx, u') /\ idx_ResultCode idx = 0 /\
    l_get AccountS (fromKey m) (working u') = l_get AccountS (fromKey m) (working u) - amount /\
    l_get PoolS (poolKey POOLS_FEE_COLLECTOR) (working u') =
      l_get PoolS (poolKey POOLS_FEE_COLLECTOR) (working u) + fee /\
    supply (working u') = supply (working u) + fee.
Proof.
  intros Htx Hwf Hfee Ha Hne Hag Hl1 Hl2.
  destruct (HandleTransaction_send_run tx m index u fee amount) as (idx & Hrun & Hcode & _); [done..|].
  exists idx, (sent m amount (charged (fromKey m) fee u)). split; [done|]. split; [done|].
  assert (uow_wf (charged (fromKey m) fee u)) as Hwf1 by (by apply charged_wf).
  rewrite supply_sent, committed_charged by done.
  rewrite working_sent, committed_charged, working_charged by done.
  rewrite l_get_set_eq. split; [lia|].
  rewrite l_get_set_ne, l_get_add_ne, l_get_add_eq, l_get_set_ne by done. split; [done|].
  rewrite l_get_add_ne, l_get_set_eq by done. autorewrite with ledger. lia.
Qed.

(** *** Witnesses: a context where Alice holds 100 tokens and the fee is 3. *)
Section witnesses.
Import ToyCodec.
Definition base0 : PostgresContext :=
  ((SetAccountAmount alice "100" ;; SetParam MessageSendFee (PVString "3")) (emptyContext 1)).2.
Definition at_height (h : Z) (p : PostgresContext) : PostgresContext :=
  {| Height := h; db := db p; ctx_stateHash := ctx_stateHash p; blockStore := blockStore p;
     txIndexer := txIndexer p; networkId := networkId p |}.
Definition u0 : baseUtilityUnitOfWork := newUOW 2 (at_height 2 base0) (at_height 2 base0).

Lemma balances_ok_base0 : balances_ok (db base0) 2.
Proof. apply balances_okb_ok. vm_compute. reflexivity. Qed.

Lemma u0_wf : uow_wf u0.
Proof. split; (split; [reflexivity | apply balances_ok_base0]). Qed.

Definition send5 : MessageSend := sendMsg.
Definition sendSelf : MessageSend := {| FromAddress := Some alice; ToAddress := Some alice; send_Amount := "5" |}.

Lemma send_conserves_supply_witness :
  exists u', handleMessageSend send5 u0 = (Ok tt, u') /\ supply (working u') = supply (working u0).
Proof.
  pose proof (send_conserves_supply send5 u0 5 u0_wf eq_refl ltac:(vm_compute; congruence)
                ltac:(vm_compute; reflexivity)) as Hs.
  destruct (decide _) as [Hlt|_] in Hs; [vm_compute in Hlt; discriminate|].
  destruct Hs as (u' & Hr & _ & _ & _ & _ & Hsup). exists u'. split; [exact Hr | exact Hsup].
Defined.

Lemma self_send_burns_witness :
  exists u', handleMessageSend sendSelf u0 = (Ok tt, u') /\ supply (working u') = supply (working u0) - 5.
Proof.
  apply (self_send_burns sendSelf u0 5 u0_wf); vm_compute; congruence.
Defined.

Lemma double_spend_in_block_witness :
  exists u1 u2, handleMessageSend send5 u0 = (Ok tt, u1) /\ handleMessageSend send5 u1 = (Ok tt, u2) /\
    l_get AccountS (fromKey send5) (working u2) = l_get AccountS (fromKey send5) (working u0) - 5 /\
    supply (working u2) = supply (working u0) + 5.
Proof. apply (double_spend_in_block send5 send5 u0 5 5 u0_wf); vm_compute; congruence. Defined.

Definition sendTx : Transaction := {| tx_Msg := Some sendAny; tx_Nonce := "7"; tx_Signature := Some aliceSig |}.

Lemma sendTx_ok : @is_send_tx ToyCrypto.prims codec sendTx send5.
Proof.
  split; [reflexivity | | by eexists]. exists aliceSig, "AAAAAAAAAAAAAAAAAAAAAAAAAAAAAAAA".
  repeat split; vm_compute; reflexivity.
Qed.

Lemma send_tx_fee_not_charged_witness :
  exists idx u', @HandleTransaction ToyCrypto.prims codec sendTx 0 u0 = (Ok idx, u') /\ idx_ResultCode idx = 0 /\
    l_get AccountS (fromKey send5) (working u') = l_get AccountS (fromKey send5) (working u0) - 5 /\
    l_get PoolS (poolKey POOLS_FEE_COLLECTOR) (working u') =
      l_get PoolS (poolKey POOLS_FEE_COLLECTOR) (working u0) + 3 /\
    supply (working u') = supply (working u0) + 3.
Proof.
  apply (@send_tx_fee_not_charged ToyCrypto.prims codec sendTx send5 0 u0 3 5 sendTx_ok u0_wf);
    vm_compute; congruence.
Defined.
End witnesses.
End UowSend.
