(* ===== verification/UowBlock.v ===== *)
(** The end of a block: proposer rewards, unbonding of actors and the burning of validators
    (src/utility/unit_of_work/block.go, validator.go) on the abstract ledger. *)

From S2P Require Import Prelude GoStd Errors Crypto CoreTypes Gov Messages Sql Persistence Ledger ActorStore FifoSet TxMempool UnitOfWork UowLedger UowSend.
#[local] Open Scope string_scope.
#[local] Open Scope Z_scope.

Module UowBlock.
Import UnitOfWork UowLedger.

(** ** Proposer rewards *)
Definition feeKey : string := poolKey POOLS_FEE_COLLECTOR.
Definition daoKey : string := poolKey POOLS_DAO.

Definition rewarded (proposer : bytes) (cut : Z) (u : baseUtilityUnitOfWork) : baseUtilityUnitOfWork :=
  let F := l_get PoolS feeKey (committed u) in
  let toProposer := bigFloatPercent F cut in
  storeAdd PoolS daoKey (F - toProposer)
    (storeAdd AccountS (hexEncode proposer) toProposer (store PoolS feeKey 0 u)).

Lemma handleProposerRewards_run proposer u cut :
  uow_wf u -> intParam ProposerPercentageOfFeesParamName u = Ok cut -> 0 <= cut <= 100 ->
  handleProposerRewards proposer u = (Ok tt, rewarded proposer cut u).
Proof.
  intros Hwf Hcut Hr. unfold handleProposerRewards. cbv zeta.
  rewrite (bind_run _ _ _ _ _ (getPoolAmount_run _ _ Hwf)).
  rewrite (bind_run _ _ _ _ _ (setPoolAmount_run _ _ _ Hwf)).
  erewrite bind_run by (rewrite getIntParam_run; exact (f_equal (fun r => (r, _)) Hcut)).
  rewrite i64_small by (unfold in_i64; lia). rewrite !bool_decide_eq_false_2 by lia. cbn [orb].
  rewrite (bind_run _ _ _ _ _ (addAccountAmount_run _ _ _ (store_wf _ _ _ _ Hwf))).
  rewrite addPoolAmount_run by eauto with golib. done.
Qed.

Lemma dao_not_fee : daoKey ≠ feeKey.
Proof. by vm_compute. Qed.

Lemma working_rewarded proposer cut u :
  uow_wf u ->
  working (rewarded proposer cut u) =
    let F := l_get PoolS feeKey (committed u) in
    l_add PoolS daoKey (F - bigFloatPercent F cut)
      (l_add AccountS (hexEncode proposer) (bigFloatPercent F cut) (l_set PoolS feeKey 0 (working u))).
Proof. intros Hwf. unfold rewarded. cbv zeta. by autorewrite with uow. Qed.

(** C34: if the *committed* fee pool is below 2^57, where the floating-point computation is
    exact, and the proposer's percentage is between 0 and 100, the proposer gets the floor of
    that percentage of the committed fee pool and the DAO pool the rest; the fee pool is
    emptied, no other balance changes, and the supply changes by the difference between the
    committed fee pool and the working one: fees collected during the block itself are
    discarded. *)
Theorem proposer_rewards_split (proposer : bytes) (u : baseUtilityUnitOfWork) (cut : Z) :
  uow_wf u -> intParam ProposerPercentageOfFeesParamName u = Ok cut -> 0 <= cut <= 100 ->
  0 <= l_get PoolS feeKey (committed u) < 2 ^ 57 ->
  let F := l_get PoolS feeKey (committed u) in
  exists u', handleProposerRewards proposer u = (Ok tt, u') /\
    l_get AccountS (hexEncode proposer) (working u') =
      l_get AccountS (hexEncode proposer) (working u) + F * cut / 100 /\
    l_get PoolS daoKey (working u') = l_get PoolS daoKey (working u) + (F - F * cut / 100) /\
    l_get PoolS feeKey (working u') = 0 /\
    (forall sch key, (sch, key) ∉ [(AccountS, hexEncode proposer); (PoolS, daoKey); (PoolS, feeKey)] ->
       l_get sch key (working u') = l_get sch key (working u)) /\
    supply (working u') = supply (working u) + F - l_get PoolS feeKey (working u).
Proof.
  intros Hwf Hcut Hr HF F. exists (rewarded proposer cut u).
  split; [by apply handleProposerRewards_run|].
  rewrite working_rewarded by done. fold F. cbv zeta.
  rewrite bigFloatPercent_exact by done. pose proof dao_not_fee as Hne.
  split; [by rewrite l_get_add_ne, l_get_add_eq, l_get_set_ne by done|].
  split; [by rewrite l_get_add_eq, l_get_add_ne, l_get_set_ne by congruence|].
  split; [by rewrite !l_get_add_ne, l_get_set_eq by congruence|].
  split; [intros sch key Hk; rewrite !not_elem_of_cons in Hk; destruct Hk as (? & ? & ? & _); by rewrite !l_get_add_ne, l_get_set_ne by congruence|].
  autorewrite with ledger. lia.
Qed.

(** fees collected in a block reach nobody.  With an empty committed fee pool (the state
    every block leaves) the proposer and the DAO receive nothing, and whatever the
    transactions of the block put in the fee pool disappears from the supply. *)
Theorem block_fees_destroyed (proposer : bytes) (u : baseUtilityUnitOfWork) (cut : Z) :
  uow_wf u -> intParam ProposerPercentageOfFeesParamName u = Ok cut -> 0 <= cut <= 100 ->
  l_get PoolS feeKey (committed u) = 0 ->
  exists u', handleProposerRewards proposer u = (Ok tt, u') /\
    l_get AccountS (hexEncode proposer) (working u') = l_get AccountS (hexEncode proposer) (working u) /\
    l_get PoolS daoKey (working u') = l_get PoolS daoKey (working u) /\
    l_get PoolS feeKey (working u') = 0 /\
    supply (working u') = supply (working u) - l_get PoolS feeKey (working u).
Proof.
  intros Hwf Hcut Hr HF. exists (rewarded proposer cut u).
  split; [by apply handleProposerRewards_run|].
  rewrite working_rewarded by done. cbv zeta. rewrite HF, bigFloatPercent_exact by lia.
  rewrite Z.mul_0_l, Zdiv_0_l. pose proof dao_not_fee as Hne.
  split; [rewrite l_get_add_ne, l_get_add_eq, l_get_set_ne by done; lia|].
  split; [rewrite l_get_add_eq, l_get_add_ne, l_get_set_ne by congruence; lia|].
  split; [by rewrite !l_get_add_ne, l_get_set_eq by congruence|].
  autorewrite with ledger. lia.
Qed.

(** At 12000000000000000011 collected tokens and a proposer share of 100% the
    floating-point split rounds up: the proposer is paid one token more than was collected
    and the DAO pool is debited by one. *)
Theorem proposer_rewards_round_up (proposer : bytes) (u : baseUtilityUnitOfWork) :
  uow_wf u -> intParam ProposerPercentageOfFeesParamName u = Ok 100 ->
  l_get PoolS feeKey (committed u) = 12000000000000000011 ->
  exists u', handleProposerRewards proposer u = (Ok tt, u') /\
    l_get AccountS (hexEncode proposer) (working u') =
      l_get AccountS (hexEncode proposer) (working u) + 12000000000000000012 /\
    l_get PoolS daoKey (working u') = l_get PoolS daoKey (working u) - 1.
Proof.
  intros Hwf Hcut HF. exists (rewarded proposer 100 u).
  split; [apply handleProposerRewards_run; [done|done|lia]|].
  rewrite working_rewarded by done. cbv zeta. rewrite HF.
  replace (bigFloatPercent 12000000000000000011 100) with 12000000000000000012 by (vm_compute; reflexivity).
  pose proof dao_not_fee as Hne.
  split; [by rewrite l_get_add_ne, l_get_add_eq, l_get_set_ne by done|].
  rewrite l_get_add_eq, l_get_add_ne, l_get_set_ne by congruence. lia.
Qed.

(** ** Unbonding *)

(** An actor that can be unbonded: its stake parses and its output address decodes. *)
Definition unbondable (a : UnstakingActor) : option (Z * bytes) :=
  stake ← bigIntSetString (UStakeAmount a); out ← hexDecode (UOutputAddress a); Some (stake, out).

(** The effect on the ledger of unbonding one actor of the pool. *)
Definition unbondEffect (e : string * UnstakingActor) (L : Ledger) : Ledger :=
  match unbondable e.2 with
  | Some (stake, out) => l_add AccountS (hexEncode out) stake (l_add PoolS e.1 (- stake) L)
  | None => L
  end.

(** Same unit of work up to the read-write context. *)
Definition same_read (u u' : baseUtilityUnitOfWork) : Prop :=
  height u' = height u /\ persistenceReadContext u' = persistenceReadContext u.

(** [u'] is a well-formed successor of [u] whose working ledger is [f] of the one of [u]. *)
Definition evolves (f : Ledger -> Ledger) (u u' : baseUtilityUnitOfWork) : Prop :=
  uow_wf u' /\ same_read u u' /\ working u' = f (working u).

Lemma evolves_trans f g u1 u2 u3 : evolves f u1 u2 -> evolves g u2 u3 -> evolves (fun L => g (f L)) u1 u3.
Proof. intros (? & [? ?] & E1) (? & [? ?] & E2). split; [done|]. split; [split; congruence|]. by rewrite E2, E1. Qed.

Lemma evolves_ext f g u u' : (forall L, f L = g L) -> evolves f u u' -> evolves g u u'.
Proof. intros Hfg (? & ? & E). split; [done|]. split; [done|]. by rewrite <- Hfg. Qed.

Lemma storeAdd_evolves sch key v u : uow_wf u -> evolves (l_add sch key v) u (storeAdd sch key v u).
Proof. intros Hwf. split; [eauto with golib|]. split; [done|]. by apply working_storeAdd. Qed.

Section unbond.

Lemma unbondActor_run pool a u :
  uow_wf u ->
  match unbondable a with
  | Some _ => exists u', unbondActor pool a u = (Ok tt, u') /\ evolves (unbondEffect (hexEncode pool, a)) u u'
  | None => exists e, unbondActor pool a u = (Err e, u)
  end.
Proof.
  intros Hwf. unfold unbondable, unbondActor, of_text, of_res, StringToBigInt.
  destruct (bigIntSetString (UStakeAmount a)) as [stake|] eqn:Hs; [|by eexists].
  cbn [mbind option_bind]. destruct (hexDecode (UOutputAddress a)) as [out|] eqn:Ho; [|by eexists].
  cbn [mbind option_bind]. do 2 (erewrite bind_run by reflexivity).
  rewrite (bind_run _ _ _ _ _ (subPoolAmount_run _ _ _ Hwf)).
  rewrite addAccountAmount_run by eauto with golib. eexists. split; [reflexivity|].
  eapply evolves_ext; [|eapply evolves_trans; apply storeAdd_evolves; eauto with golib].
  intros L. unfold unbondEffect, unbondable. cbn [fst snd]. rewrite Hs. cbn. by rewrite Ho.
Qed.

Definition applyAll (es : list (string * UnstakingActor)) (L : Ledger) : Ledger := foldl (fun L e => unbondEffect e L) L es.

Lemma unbondActors_run pool (l : list UnstakingActor) u :
  uow_wf u ->
  if forallb (fun a => match unbondable a with Some _ => true | None => false end) l
  then exists u', forM l (unbondActor pool) u = (Ok tt, u') /\
         evolves (applyAll ((fun a => (hexEncode pool, a)) <$> l)) u u'
  else exists e u', forM l (unbondActor pool) u = (Err e, u').
Proof.
  revert u. induction l as [|a l IH]; intros u Hwf; cbn [forallb forM fmap list_fmap].
  - exists u. split; [done|]. split; [done|]. done.
  - pose proof (unbondActor_run pool a u Hwf) as Hrun. destruct (unbondable a) as [so|] eqn:Hu; cbn [andb].
    + destruct Hrun as (u1 & Hr & He1). specialize (IH u1 (proj1 He1)).
      rewrite (bind_run _ _ _ _ _ Hr). destruct (forallb _ l).
      * destruct IH as (u2 & Hr2 & He2). exists u2. split; [done|]. by apply (evolves_trans _ _ _ _ _ He1 He2).
      * done.
    + destruct Hrun as [e Hr]. exists e, u. by rewrite (bind_run_err _ _ _ _ _ Hr).
Qed.

(** The actors of one type that are ready, with the pool their stake sits in. *)
Definition readyOf (t : Z) (u : baseUtilityUnitOfWork) : list UnstakingActor :=
  match persistenceReadContext u with
  | Some p => match schemaOf t with Some s => readyToUnstake (actorTable (db p) s) (height u) | None => [] end
  | None => []
  end.
Definition poolOf (t : Z) : bytes :=
  switchActor t (Pools_Address POOLS_APP_STAKE) (Pools_Address POOLS_FISHERMAN_STAKE)
    (Pools_Address POOLS_SERVICER_STAKE) (Pools_Address POOLS_VALIDATOR_STAKE) "".
Definition readyEntries (order : list Z) (u : baseUtilityUnitOfWork) : list (string * UnstakingActor) :=
  concat ((fun t => (fun a => (hexEncode (poolOf t), a)) <$> readyOf t u) <$> order).

Lemma readyOf_same u u' t : same_read u u' -> readyOf t u' = readyOf t u.
Proof. intros [Hh Hr]. unfold readyOf. by rewrite Hh, Hr. Qed.

Lemma readyEntries_same u u' order : same_read u u' -> readyEntries order u' = readyEntries order u.
Proof.
  intros Hs. unfold readyEntries. f_equal. apply list_fmap_ext. intros i t _. by rewrite (readyOf_same u u').
Qed.

Definition allUnbondable (es : list (string * UnstakingActor)) : bool :=
  forallb (fun e => match unbondable e.2 with Some _ => true | None => false end) es.

Lemma allUnbondable_tag pool (l : list UnstakingActor) :
  allUnbondable ((fun a => (pool, a)) <$> l) =
    forallb (fun a => match unbondable a with Some _ => true | None => false end) l.
Proof. unfold allUnbondable. induction l as [|a l IH]; [done|]. cbn. by rewrite IH. Qed.

(** The read of the ready actors inside the loop. *)
Lemma ready_read_run t u :
  uow_wf u -> t ≠ 0 ->
  switchActor t
    (read ErrGetReadyToUnstake (fun p => GetAppsReadyToUnstake p (height u) StakeStatus_Unstaking))
    (read ErrGetReadyToUnstake (fun p => GetFishermenReadyToUnstake p (height u) StakeStatus_Unstaking))
    (read ErrGetReadyToUnstake (fun p => GetServicersReadyToUnstake p (height u) StakeStatus_Unstaking))
    (read ErrGetReadyToUnstake (fun p => GetValidatorsReadyToUnstake p (height u) StakeStatus_Unstaking))
    (mret []) u = (Ok (readyOf t u), u).
Proof.
  intros [Hr _] Ht. unfold switchActor, readyOf, schemaOf, read.
  destruct (persistenceReadContext u) as [p|] eqn:Hp; [|done].
  unfold ACTOR_TYPE_APP, ACTOR_TYPE_SERVICER, ACTOR_TYPE_FISH, ACTOR_TYPE_VAL.
  repeat case_bool_decide; subst; try lia; rewrite ?Hp; done.
Qed.

Lemma readyOf_zero u : readyOf 0 u = [].
Proof. unfold readyOf. by destruct (persistenceReadContext u). Qed.

Lemma unbondUnstakingActors_run order u :
  uow_wf u ->
  if allUnbondable (readyEntries order u)
  then exists u', unbondUnstakingActors order u = (Ok tt, u') /\ evolves (applyAll (readyEntries order u)) u u'
  else exists e u', unbondUnstakingActors order u = (Err e, u').
Proof.
  revert u. induction order as [|t order IH]; intros u Hwf.
  - exists u. split; [done|]. split; [done|]. done.
  - unfold unbondUnstakingActors. cbn [forM]. fold (unbondUnstakingActors order).
    unfold readyEntries. cbn [fmap list_fmap concat]. fold (readyEntries order u).
    unfold allUnbondable. rewrite forallb_app. fold (allUnbondable (readyEntries order u)).
    fold (allUnbondable ((fun a => (hexEncode (poolOf t), a)) <$> readyOf t u)). rewrite allUnbondable_tag.
    case_bool_decide as Ht; [subst t; rewrite readyOf_zero; erewrite bind_run by reflexivity; by apply IH|].
    pose proof (unbondActors_run (poolOf t) (readyOf t u) u Hwf) as Hrun.
    destruct (forallb _ (readyOf t u)); cbn [andb].
    + destruct Hrun as (u1 & Hr & He1). pose proof He1 as (Hwf1 & Hs1 & _). specialize (IH u1 Hwf1).
      rewrite (readyEntries_same u u1) in IH by done.
      erewrite (bind_run _ _ _ _ u1); cycle 1.
      { erewrite bind_run by reflexivity. rewrite (bind_run _ _ _ _ _ (ready_read_run t u Hwf Ht)). exact Hr. }
      destruct (allUnbondable (readyEntries order u)); [|done].
      destruct IH as (u2 & Hr2 & He2). exists u2. split; [done|].
      eapply evolves_ext; [|exact (evolves_trans _ _ _ _ _ He1 He2)].
      intros L. unfold applyAll. by rewrite foldl_app.
    + destruct Hrun as (e & u1 & Hr). exists e, u1. apply bind_run_err.
      erewrite bind_run by reflexivity. rewrite (bind_run _ _ _ _ _ (ready_read_run t u Hwf Ht)). exact Hr.
Qed.
End unbond.

(** *** Order independence *)
Lemma l_add_comm s1 k1 v1 s2 k2 v2 L :
  l_add s1 k1 v1 (l_add s2 k2 v2 L) = l_add s2 k2 v2 (l_add s1 k1 v1 L).
Proof.
  destruct (decide ((s1, k1) = (s2, k2))) as [[= <- <-]|Hne].
  - unfold l_add. rewrite !l_get_set_eq. destruct s1; cbn; rewrite !insert_insert_eq; do 2 f_equal; lia.
  - unfold l_add. rewrite !l_get_set_ne by congruence.
    destruct s1, s2; cbn; f_equal; try done; apply insert_insert_ne; congruence.
Qed.

Lemma unbondEffect_comm e1 e2 L : unbondEffect e1 (unbondEffect e2 L) = unbondEffect e2 (unbondEffect e1 L).
Proof.
  unfold unbondEffect. destruct (unbondable e1.2) as [[s1 o1]|], (unbondable e2.2) as [[s2 o2]|]; try done.
  rewrite (l_add_comm PoolS e1.1 (- s1) AccountS (hexEncode o2) s2).
  rewrite (l_add_comm AccountS (hexEncode o1) s1 AccountS (hexEncode o2) s2). f_equal.
  rewrite (l_add_comm PoolS e1.1 (- s1) PoolS e2.1 (- s2)).
  by rewrite (l_add_comm AccountS (hexEncode o1) s1 PoolS e2.1 (- s2)).
Qed.

Lemma applyAll_perm es1 es2 L : es1 ≡ₚ es2 -> applyAll es1 L = applyAll es2 L.
Proof.
  unfold applyAll. intros Hp. revert L. induction Hp as [|e l1 l2 _ IH|e1 e2 l|l1 l2 l3 _ IH1 _ IH2]; intros L; cbn.
  - done.
  - apply IH.
  - by rewrite unbondEffect_comm.
  - by rewrite IH1.
Qed.

Lemma supply_applyAll es L : supply (applyAll es L) = supply L.
Proof.
  unfold applyAll. revert L. induction es as [|e es IH]; intros L; [done|]. cbn. rewrite IH.
  unfold unbondEffect. destruct (unbondable e.2) as [[s o]|]; [|done]. rewrite !supply_add. lia.
Qed.

Lemma readyEntries_perm o1 o2 u : o1 ≡ₚ o2 -> readyEntries o1 u ≡ₚ readyEntries o2 u.
Proof.
  unfold readyEntries. induction 1 as [|t l1 l2 _ IH|t1 t2 l|l1 l2 l3 _ IH1 _ IH2]; cbn.
  - done.
  - by rewrite IH.
  - rewrite !app_assoc. by rewrite (Permutation_app_comm (_ <$> readyOf t2 u)).
  - by rewrite IH1.
Qed.

Lemma allUnbondable_perm es1 es2 : es1 ≡ₚ es2 -> allUnbondable es1 = allUnbondable es2.
Proof.
  unfold allUnbondable. induction 1 as [|e l1 l2 _ IH|e1 e2 l|l1 l2 l3 _ IH1 _ IH2]; cbn; try congruence.
  by destruct (unbondable e1.2), (unbondable e2.2).
Qed.

(** C33: unbonding does not depend on the order in which Go iterates over the map of actor
    types, and conserves tokens.  For any two orders that are permutations of each other, if
    unbonding succeeds in one it succeeds in the other with the same ledger, and the supply
    is that of before: every ready actor's stake moves from its pool to its output address. *)
Theorem unbonding_order_independent (order1 order2 : list Z) (u u1 : baseUtilityUnitOfWork) :
  uow_wf u -> order1 ≡ₚ order2 -> unbondUnstakingActors order1 u = (Ok tt, u1) ->
  exists u2, unbondUnstakingActors order2 u = (Ok tt, u2) /\ working u2 = working u1 /\
    working u1 = applyAll (readyEntries order1 u) (working u) /\ supply (working u1) = supply (working u).
Proof.
  intros Hwf Hp Hr1. pose proof (unbondUnstakingActors_run order1 u Hwf) as H1.
  pose proof (unbondUnstakingActors_run order2 u Hwf) as H2.
  rewrite <- (allUnbondable_perm _ _ (readyEntries_perm order1 order2 u Hp)) in H2.
  destruct (allUnbondable _).
  - destruct H1 as (u1' & Hr1' & _ & _ & E1). rewrite Hr1' in Hr1. injection Hr1 as <-.
    destruct H2 as (u2 & Hr2 & _ & _ & E2). exists u2. split; [done|].
    rewrite E1, E2, supply_applyAll. split; [|done]. apply applyAll_perm. by apply readyEntries_perm.
  - destruct H1 as (e & u1' & Hr1'). congruence.
Qed.

(** ** Burning *)

Lemma write_run {A} wrap (m : PM A) u q r q' :
  persistenceRWContext u = Some q -> m q = (r, q') ->
  write wrap m u = (match r with Ok a => Ok a | Err e => Err (wrap e) | Panic => Panic end, set_rw (Some q') u).
Proof. intros Hq Hm. unfold write. by rewrite Hq, Hm. Qed.

(** The validator as the read-write context sees it. *)
Definition workingValidator (addr : bytes) (u : baseUtilityUnitOfWork) : option ActorRow :=
  match persistenceRWContext u with
  | Some q => actorView ValidatorActor (db q) (height u) !! hexEncode addr
  | None => None
  end.
Definition committedValidatorStake (addr : bytes) (u : baseUtilityUnitOfWork) : option Z :=
  match persistenceReadContext u with
  | Some p => r ← actorView ValidatorActor (db p) (height u) !! hexEncode addr; bigIntSetString (staked_tokens r)
  | None => None
  end.

Lemma getValidatorStake_run addr u stake :
  committedValidatorStake addr u = Some stake ->
  UnitOfWork.getActorStakeAmount ACTOR_TYPE_VAL addr u = (Ok stake, u).
Proof.
  unfold committedValidatorStake, UnitOfWork.getActorStakeAmount. cbv [mbind M_bind gets].
  change (switchActor ACTOR_TYPE_VAL ?a ?b ?c ?d ?e) with d.
  unfold read, GetValidatorStakeAmount, Persistence.getActorStakeAmount, selectActor.
  destruct (persistenceReadContext u) as [p|]; [|done].
  rewrite actorView_lookup.
  destruct (selectLatest _ _ _) as [[k r]|]; [|done]. cbn.
  unfold of_text, of_res, StringToBigInt. by destruct (bigIntSetString (staked_tokens r)) as [?|]; intros [= ->].
Qed.

(** Writing a column of the validator row through the unit of work. *)
Lemma validator_update_run wrap upd addr u :
  uow_wf u ->
  exists u', write wrap (actorUpdProgram ValidatorActor upd addr) u = (Ok tt, u') /\ uow_wf u' /\ same_read u u' /\
    working u' = working u /\
    workingValidator addr u' = actorUpdSpec upd <$> workingValidator addr u.
Proof.
  intros Hwf. pose proof Hwf as [Hr Hw]. destruct (persistenceRWContext u) as [q|] eqn:Hq; [|done].
  destruct Hw as [HH Hok].
  pose proof (write_run wrap _ u q _ _ Hq (actorUpd_run ValidatorActor upd addr q)) as Hwr.
  eexists. split; [exact Hwr|].
  split; [|split; [done|split]].
  - split; [exact Hr|]. split; [exact HH|]. cbn [set_db db]. intros sch key k txt Hs. apply (Hok sch key k txt).
    by destruct sch.
  - unfold working. rewrite Hq. cbn [set_rw persistenceRWContext height set_db db]. by apply view_ext.
  - unfold workingValidator. rewrite Hq. cbn [set_rw persistenceRWContext height set_db db].
    rewrite <- HH, actorView_copyLatest, lookup_alter_eq. done.
Qed.

Lemma intParam_same name u u' : same_read u u' -> intParam name u' = intParam name u.
Proof. intros [Hh Hr]. unfold intParam, readRes. by rewrite Hh, Hr. Qed.
Lemma bigIntParam_same name u u' : same_read u u' -> bigIntParam name u' = bigIntParam name u.
Proof. intros [Hh Hr]. unfold bigIntParam, stringParam, readRes. by rewrite Hh, Hr. Qed.

Lemma getUnbondingHeight_run u blocks :
  intParam ValidatorUnstakingBlocksParamName u = Ok blocks ->
  getUnbondingHeight ACTOR_TYPE_VAL u = (Ok (i64 (height u + blocks)), u).
Proof.
  intros Hb. unfold getUnbondingHeight.
  erewrite bind_run; cycle 1.
  { change (actorIntParam ACTOR_TYPE_VAL ?a ?b ?c (Some ?n)) with
      (wrap_err (fun e => ErrGetParam n (Error_string e)) (getIntParam n)).
    unfold wrap_err. rewrite getIntParam_run, Hb. reflexivity. }
  reflexivity.
Qed.

Lemma storeAdd_workingValidator sch key v addr u :
  workingValidator addr (storeAdd sch key v u) = workingValidator addr u.
Proof.
  unfold workingValidator, storeAdd, store. cbn [set_rw persistenceRWContext height].
  destruct (persistenceRWContext u) as [q|]; [|done]. by destruct sch.
Qed.

(** burning a validator takes the exact floor of the burn percentage from its stake and
    from the validator stake pool, and then starts unstaking the validator exactly when the
    remaining stake is *above* the required minimum: a validator that fell below the minimum
    stays staked, one that is still above is unstaked (the comparison is the reverse of what
    its comment and the function's documentation say). *)
Theorem burn_validator_inverted_check (addr : bytes) (u : baseUtilityUnitOfWork)
    (stake pct minStake blocks : Z) (r : ActorRow) :
  uow_wf u -> committedValidatorStake addr u = Some stake -> 0 <= stake < 2 ^ 57 ->
  intParam MissedBlocksBurnPercentageParamName u = Ok pct -> 0 <= pct <= 100 ->
  bigIntParam ValidatorMinimumStakeParamName u = Ok minStake ->
  intParam ValidatorUnstakingBlocksParamName u = Ok blocks ->
  workingValidator addr u = Some r ->
  let after := stake - stake * pct / 100 in
  exists u' r', burnValidator addr u = (Ok tt, u') /\ workingValidator addr u' = Some r' /\
    staked_tokens r' = BigIntToString after /\
    unstaking_height r' = (if decide (minStake < after) then i64 (height u + blocks) else unstaking_height r) /\
    l_get PoolS (poolKey POOLS_VALIDATOR_STAKE) (working u') =
      l_get PoolS (poolKey POOLS_VALIDATOR_STAKE) (working u) - stake * pct / 100.
Proof.
  intros Hwf Hst Hs0 Hpct Hp Hmin Hbl Hr after. unfold burnValidator.
  rewrite (bind_run _ _ _ _ _ (getValidatorStake_run _ _ _ Hst)).
  erewrite bind_run by (rewrite getIntParam_run, Hpct; reflexivity). cbv zeta.
  rewrite bigFloatPercent_exact by done.
  assert (0 <= stake * pct / 100) by (apply Z.div_pos; nia). rewrite Z.max_r by done. fold after.
  rewrite (bind_run _ _ _ _ _ (subPoolAmount_run _ _ _ Hwf)).
  set (u1 := storeAdd PoolS (hexEncode (Pools_Address POOLS_VALIDATOR_STAKE)) (- (stake * pct / 100)) u).
  assert (uow_wf u1) as Hwf1 by (unfold u1; eauto with golib).
  destruct (validator_update_run ErrSetValidatorStakedAmount (UpdStake (BigIntToString after)) addr u1 Hwf1)
    as (u2 & Hr2 & Hwf2 & Hs2 & Hw2 & Hv2).
  erewrite (bind_run _ _ _ _ u2) by exact Hr2.
  assert (same_read u u2) as Hsr by (destruct Hs2; split; done).
  erewrite bind_run by (rewrite getBigIntParam_run, (bigIntParam_same _ u u2 Hsr), Hmin; reflexivity).
  assert (workingValidator addr u2 = Some (with_stake (BigIntToString after) r)) as Hv2'.
  { rewrite Hv2. unfold u1. rewrite storeAdd_workingValidator, Hr. done. }
  assert (l_get PoolS (poolKey POOLS_VALIDATOR_STAKE) (working u2) =
          l_get PoolS (poolKey POOLS_VALIDATOR_STAKE) (working u) - stake * pct / 100) as Hpool.
  { rewrite Hw2. unfold u1. rewrite working_storeAdd, l_get_add_eq by done. unfold poolKey. lia. }
  case_bool_decide as Hlt; case_decide; try lia.
  - erewrite bind_run; [| apply getUnbondingHeight_run; rewrite (intParam_same _ u u2 Hsr); exact Hbl].
    destruct (validator_update_run ErrSetUnstakingHeightAndStatus (UpdUnstaking (i64 (height u2 + blocks))) addr u2 Hwf2)
      as (u3 & Hr3 & Hwf3 & _ & Hw3 & Hv3).
    exists u3, (with_unstaking (i64 (height u2 + blocks)) (with_stake (BigIntToString after) r)).
    split; [exact Hr3|]. rewrite Hv3, Hv2', Hw3. split; [done|]. split; [done|]. split; [|done].
    cbn. by rewrite (proj1 Hsr).
  - exists u2, (with_stake (BigIntToString after) r). done.
Qed.

(** *** Witnesses *)
Section witnesses.
Import UowSend.
Let setup (fees : string) (cut : Z) : PostgresContext :=
  ((SetPoolAmount (Pools_Address POOLS_FEE_COLLECTOR) fees ;;
    SetPoolAmount (Pools_Address POOLS_APP_STAKE) "100" ;;
    SetParam ProposerPercentageOfFeesParamName (PVInt cut) ;;
    SetParam MissedBlocksBurnPercentageParamName (PVInt 5) ;;
    SetParam ValidatorMinimumStakeParamName (PVString "900") ;;
    SetParam ValidatorUnstakingBlocksParamName (PVInt 21) ;;
    InsertValidator "V" "K" "O" "url" "1000" (-1) (-1) ;;
    InsertApp "A" "K" "O" "40" (Some ["0001"]) (-1) 2) (emptyContext 1)).2.
Let uowOf (read rw : PostgresContext) : baseUtilityUnitOfWork := newUOW 2 (at_height 2 read) (at_height 2 rw).

Definition ub : baseUtilityUnitOfWork := uowOf (setup "200" 10) (setup "200" 10).
Definition ub0 : baseUtilityUnitOfWork := uowOf (setup "0" 10) (setup "200" 10).
Definition ubBig : baseUtilityUnitOfWork :=
  uowOf (setup "12000000000000000011" 100) (setup "12000000000000000011" 100).

Let wf_of (read rw : PostgresContext) :
  balances_okb (db read) 2 = true -> balances_okb (db rw) 2 = true -> uow_wf (uowOf read rw).
Proof. intros Hr Hw. split; (split; [reflexivity | by apply balances_okb_ok]). Qed.

Lemma ub_wf : uow_wf ub.
Proof. apply wf_of; vm_compute; reflexivity. Qed.
Lemma ub0_wf : uow_wf ub0.
Proof. apply wf_of; vm_compute; reflexivity. Qed.
Lemma ubBig_wf : uow_wf ubBig.
Proof. apply wf_of; vm_compute; reflexivity. Qed.

Lemma proposer_rewards_split_witness :
  exists u', handleProposerRewards "P" ub = (Ok tt, u') /\
    l_get AccountS (hexEncode "P") (working u') = l_get AccountS (hexEncode "P") (working ub) + 20.
Proof.
  destruct (proposer_rewards_split "P" ub 10 ub_wf) as (u' & Hr & Hp & _);
    [vm_compute; reflexivity | lia | vm_compute; split; congruence | exists u'; split; [exact Hr | exact Hp]].
Defined.

Lemma block_fees_destroyed_witness :
  exists u', handleProposerRewards "P" ub0 = (Ok tt, u') /\
    supply (working u') = supply (working ub0) - 200.
Proof.
  destruct (block_fees_destroyed "P" ub0 10 ub0_wf) as (u' & Hr & _ & _ & _ & Hs);
    [vm_compute; reflexivity | lia | vm_compute; reflexivity | exists u'; split; [exact Hr | exact Hs]].
Defined.

Lemma proposer_rewards_round_up_witness :
  exists u', handleProposerRewards "P" ubBig = (Ok tt, u') /\
    l_get PoolS daoKey (working u') = l_get PoolS daoKey (working ubBig) - 1.
Proof.
  destruct (proposer_rewards_round_up "P" ubBig ubBig_wf) as (u' & Hr & _ & Hd);
    [vm_compute; reflexivity | vm_compute; reflexivity | exists u'; split; [exact Hr | exact Hd]].
Defined.

Lemma unbonding_order_independent_witness :
  exists u1 u2, unbondUnstakingActors [0; 1; 2; 3; 4] ub = (Ok tt, u1) /\
    unbondUnstakingActors [4; 2; 1; 0; 3] ub = (Ok tt, u2) /\ working u2 = working u1.
Proof.
  destruct (unbondUnstakingActors [0; 1; 2; 3; 4] ub) as [r u1] eqn:Hr.
  assert (r = Ok tt) as -> by (apply (f_equal fst) in Hr; vm_compute in Hr; congruence).
  destruct (unbonding_order_independent [0; 1; 2; 3; 4] [4; 2; 1; 0; 3] ub u1 ub_wf) as (u2 & Hr2 & Hw & _).
  - apply (bool_decide_unpack _). vm_compute. exact I.
  - exact Hr.
  - exists u1, u2. split; [reflexivity|]. split; [exact Hr2 | exact Hw].
Defined.

Lemma burn_validator_inverted_check_witness :
  exists u' r', burnValidator "V" ub = (Ok tt, u') /\ workingValidator "V" u' = Some r' /\
    staked_tokens r' = "950" /\ unstaking_height r' = 23.
Proof.
  destruct (burn_validator_inverted_check "V" ub 1000 5 900 21
    {| public_key := "4b"; staked_tokens := "1000"; specific := "url"; output_address := "4f";
       paused_height := -1; unstaking_height := -1 |} ub_wf) as (u' & r' & Hr & Hv & Ht & Hu & _);
    [vm_compute; reflexivity | lia | vm_compute; reflexivity | lia | vm_compute; reflexivity
    | vm_compute; reflexivity | vm_compute; reflexivity |].
  exists u', r'. split; [exact Hr|]. split; [exact Hv|].
  split; [rewrite Ht; vm_compute; reflexivity | rewrite Hu; vm_compute; reflexivity].
Defined.
End witnesses.
End UowBlock.
