(* ===== verification/UowTx.v ===== *)
(** Transactions in the unit of work: who may sign, what a block applies, and what the
    leader reaps from the mempool (src/utility/unit_of_work/transaction.go, module.go,
    uow_leader.go). *)

From S2P Require Import Prelude GoStd Errors Crypto CoreTypes Gov Messages Sql Persistence Ledger FifoSet TxMempool UnitOfWork UowLedger UowSend.
#[local] Open Scope string_scope.
#[local] Open Scope list_scope.
#[local] Open Scope Z_scope.

Module UowTx.
Import UnitOfWork.

(** ** Read-only programs *)
Definition read_only {A} (m : UM A) : Prop := forall u, (m u).2 = u.

Section read_only.
Lemma ro_ret {A} (a : A) : read_only (mret a).
Proof. done. Qed.
Lemma ro_fail {A} e : read_only (fail e : UM A).
Proof. done. Qed.
Lemma ro_panic {A} : read_only (panic : UM A).
Proof. done. Qed.
Lemma ro_gets {A} (f : baseUtilityUnitOfWork -> A) : read_only (gets f).
Proof. done. Qed.
Lemma ro_read {A} wrap (f : PostgresContext -> res string A) : read_only (read wrap f).
Proof. intros u. unfold read. by destruct (persistenceReadContext u). Qed.
Lemma ro_of_text {A} wrap (r : res string A) : read_only (of_text wrap r).
Proof. done. Qed.
Lemma ro_bind {A B} (m : UM A) (k : A -> UM B) :
  read_only m -> (forall a, read_only (k a)) -> read_only (m ≫= k).
Proof.
  intros Hm Hk u. unfold mbind, M_bind. pose proof (Hm u) as Hu.
  destruct (m u) as [[a|e|] u']; cbn in Hu; subst u'; [apply Hk | done | done].
Qed.
Lemma ro_wrap {A} (f : Error -> Error) (m : UM A) : read_only m -> read_only (wrap_err f m).
Proof. intros Hm u. unfold wrap_err. pose proof (Hm u) as Hu. by destruct (m u) as [[a|e|] u']. Qed.
Lemma ro_switch {A} t (a b c d e : UM A) :
  read_only a -> read_only b -> read_only c -> read_only d -> read_only e -> read_only (switchActor t a b c d e).
Proof. intros. unfold switchActor. by repeat case_bool_decide. Qed.
End read_only.

Create HintDb ro discriminated.
#[export] Hint Resolve ro_ret ro_fail ro_panic ro_gets ro_read ro_of_text ro_wrap ro_switch : ro.
Ltac ro := repeat first [simple apply ro_bind; [|intros ?] | simple apply ro_wrap | progress eauto with ro].

Lemma getActorOutputAddress_ro t op : read_only (getActorOutputAddress t op).
Proof. unfold getActorOutputAddress. ro. Qed.
Lemma getByteArrayParam_ro n : read_only (getByteArrayParam n).
Proof. unfold getByteArrayParam. ro. Qed.
Lemma getParamOwner_ro n : read_only (getParamOwner n).
Proof. unfold getParamOwner. case_bool_decide; [apply getByteArrayParam_ro | ro]. Qed.
#[export] Hint Resolve getActorOutputAddress_ro getParamOwner_ro : ro.

Section authorisation.
Context `{CryptoPrims} `{Codec}.

Lemma getSignerCandidates_ro m : read_only (getSignerCandidates m).
Proof.
  destruct m; cbn; unfold getMessageSendSignerCandidates, getMessageStakeSignerCandidates,
    getMessageUnstakeSignerCandidates, getMessageUnpauseSignerCandidates,
    getMessageChangeParameterSignerCandidates; ro.
Qed.

(** The message of a transaction, if it carries one. *)
Definition txMessage (tx : Transaction) : option Message :=
  match GetMessage tx with inl (PMessage m) => Some m | _ => None end.

(** The address of the key that signed a transaction. *)
Definition txSigner (tx : Transaction) : option bytes :=
  match tx_Signature tx with
  | Some sig => match NewPublicKeyFromBytes (bz (sig_PublicKey sig)) with
                | Ok pk => Some (PublicKey_Address pk) | _ => None end
  | None => None
  end.

Lemma basicValidate_ok tx u m u' :
  basicValidateTransaction tx u = (Ok m, u') ->
  exists m0 addr cands, txMessage tx = Some m0 /\ txSigner tx = Some addr /\
    getSignerCandidates m0 u = (Ok cands, u) /\ addr ∈ cands /\ m = SetSigner (Some addr) m0.
Proof.
  unfold basicValidateTransaction, txMessage, txSigner. rewrite bind_ok. intros (m0 & u1 & Hm & Hk).
  unfold validateTxMessage in Hm. destruct (GetMessage tx) as [[m1| | | |]|]; try discriminate Hm.
  injection Hm as <- <-. destruct (tx_Signature tx) as [sig|]; [|discriminate Hk].
  destruct (NewPublicKeyFromBytes (bz (sig_PublicKey sig))) as [pk| |]; try discriminate Hk.
  apply bind_ok in Hk as (addr & u2 & Hsig & Hk). unfold validateTxSignature in Hsig.
  apply bind_ok in Hsig as (cands & u3 & Hc & Hin).
  pose proof (getSignerCandidates_ro m1 u) as Hro. rewrite Hc in Hro. cbn in Hro. subst u3.
  case_bool_decide as Hmem; [|discriminate Hin]. injection Hin as <- <-.
  apply bind_ok in Hk as (? & u4 & _ & Hret). injection Hret as <- _.
  exists m1, (PublicKey_Address pk), cands. done.
Qed.

(** C29: a transaction is only executed for an authorised signer: if [HandleTransaction]
    returns a result, the transaction carries a supported message and the address of the
    key in its signature is one of the message's signer candidates in that state. *)
Theorem handle_tx_authorised (tx : Transaction) (index : Z) (u u' : baseUtilityUnitOfWork) (idx : IndexedTransaction) :
  HandleTransaction tx index u = (Ok idx, u') ->
  exists m addr cands, txMessage tx = Some m /\ txSigner tx = Some addr /\
    getSignerCandidates m u = (Ok cands, u) /\ addr ∈ cands.
Proof.
  unfold HandleTransaction. rewrite bind_ok. intros (m & u1 & Hb & _).
  apply basicValidate_ok in Hb as (m0 & addr & cands & ? & ? & ? & ? & _). by exists m0, addr, cands.
Qed.

(** no edit-stake transaction can ever be executed: its message type is missing from
    the switch that finds the authorised signers, so every correctly signed one is rejected
    as an unknown message before anything is changed. *)
Theorem edit_stake_always_rejected (tx : Transaction) (e : MessageEditStake) (addr : bytes) (index : Z)
    (u : baseUtilityUnitOfWork) :
  txMessage tx = Some (MEditStake e) -> txSigner tx = Some addr ->
  HandleTransaction tx index u = (Err (ErrUnknownMessage "*types.MessageEditStake"), u).
Proof.
  unfold txMessage, txSigner, HandleTransaction, basicValidateTransaction, validateTxMessage.
  destruct (GetMessage tx) as [[m1| | | |]|]; try discriminate. intros [= ->].
  destruct (tx_Signature tx) as [sig|]; [|discriminate].
  destruct (NewPublicKeyFromBytes (bz (sig_PublicKey sig))) as [pk| |]; try discriminate.
  intros [= <-]. apply bind_run_err. erewrite bind_run by reflexivity. reflexivity.
Qed.

(** ** Applying the transactions of a block *)

Lemma onUow_ok {A} (m : UM A) s a s' :
  onUow PocketErr m s = (Ok a, s') -> m (uow s) = (Ok a, uow s') /\ mempool s' = mempool s.
Proof.
  unfold onUow. destruct (m (uow s)) as [[x|e|] u'] eqn:Hm; intros [= ]; by subst.
Qed.

(** What a replica has checked about a transaction it applies in the unit of work [u]: the
    authorised signers are read from [u]. *)
Definition tx_checked (u : baseUtilityUnitOfWork) (b : bytes) : Prop :=
  exists tx m addr cands, TxFromBytes b = inl tx /\ Tx_ValidateBasic tx = None /\
    txMessage tx = Some m /\ txSigner tx = Some addr /\
    getSignerCandidates m u = (Ok cands, u) /\ addr ∈ cands.

(** Transactions that are executed one after the other, from the index [i] on, each of them
    checked in the state that the ones before have left. *)
Inductive runs_checked : Z -> list bytes -> US -> US -> Prop :=
| runs_nil i s : runs_checked i [] s s
| runs_cons i b txs s s1 s2 :
    tx_checked (uow s) b -> processTx i b s = (Ok tt, s1) -> runs_checked (i + 1) txs s1 s2 ->
    runs_checked i (b :: txs) s s2.

Lemma processTx_checked i b s s' : processTx i b s = (Ok tt, s') -> tx_checked (uow s) b.
Proof.
  unfold processTx. rewrite bind_ok. intros (tx & s1 & Htx & Hk).
  destruct (TxFromBytes b) as [tx0|] eqn:Hb; [|discriminate Htx]. injection Htx as <- <-.
  apply bind_ok in Hk as ([] & s2 & Hv & Hk).
  destruct (Tx_ValidateBasic tx0) eqn:Hvb; [discriminate Hv|]. injection Hv as <-.
  apply bind_ok in Hk as (idx & s3 & Hh & _). apply onUow_ok in Hh as [Hh _].
  unfold HandleTransaction in Hh. apply bind_ok in Hh as (m & u1 & Hbv & _).
  apply basicValidate_ok in Hbv as (m0 & addr & cands & ? & ? & ? & ? & _).
  by exists tx0, m0, addr, cands.
Qed.

Lemma processTxs_checked i txs s s' : processTxs i txs s = (Ok tt, s') -> runs_checked i txs s s'.
Proof.
  revert i s. induction txs as [|b txs IH]; intros i s; cbn; [intros [= ->]; constructor|].
  rewrite bind_ok. intros ([] & s1 & Hp & Hr). econstructor; [by eapply processTx_checked | done | by apply IH].
Qed.

Lemma bind_gets_ok {St E A B} (f : St -> A) (k : A -> M St E B) s b s' :
  (gets f ≫= k) s = (Ok b, s') -> k (f s) s = (Ok b, s').
Proof. done. Qed.
End authorisation.

(** ** Frame: everything but the read-write context and the final state hash stays *)
Definition same_frame (u u' : baseUtilityUnitOfWork) : Prop :=
  height u' = height u /\ persistenceReadContext u' = persistenceReadContext u /\
  proposalStateHash u' = proposalStateHash u /\ proposalProposerAddr u' = proposalProposerAddr u /\
  proposalBlockTxs u' = proposalBlockTxs u /\ stateHash u' = stateHash u.

#[global] Instance same_frame_preorder : PreOrder same_frame.
Proof. split; [intros u; repeat split | intros u1 u2 u3 (?&?&?&?&?&?) (?&?&?&?&?&?); repeat split; congruence]. Qed.

Definition framed {A} (m : UM A) : Prop := forall u, same_frame u (m u).2.

Section frame.
Lemma fr_ro {A} (m : UM A) : read_only m -> framed m.
Proof. intros Hm u. by rewrite Hm. Qed.
Lemma fr_write {A} wrap (m : PM A) : framed (write wrap m).
Proof. intros u. unfold write. destruct (persistenceRWContext u) as [q|]; [|done]. by destruct (m q) as [[?|?|] ?]. Qed.
Lemma fr_bind {A B} (m : UM A) (k : A -> UM B) : framed m -> (forall a, framed (k a)) -> framed (m ≫= k).
Proof.
  intros Hm Hk u. unfold mbind, M_bind. pose proof (Hm u) as Hu.
  destruct (m u) as [[a|e|] u']; cbn in Hu |- *; [|done|done]. etransitivity; [done | apply Hk].
Qed.
Lemma fr_wrap {A} (f : Error -> Error) (m : UM A) : framed m -> framed (wrap_err f m).
Proof. intros Hm u. unfold wrap_err. pose proof (Hm u). by destruct (m u) as [[?|?|] ?]. Qed.
Lemma fr_switch {A} t (a b c d e : UM A) :
  framed a -> framed b -> framed c -> framed d -> framed e -> framed (switchActor t a b c d e).
Proof. intros. unfold switchActor. by repeat case_bool_decide. Qed.
Lemma fr_forM {A} (l : list A) (body : A -> UM unit) : (forall x, framed (body x)) -> framed (forM l body).
Proof. intros Hb. induction l as [|x l IH]; [apply fr_ro; done|]. cbn. apply fr_bind; [done|]. by intros _. Qed.
Lemma fr_catch (m : UM unit) : framed m -> framed (catch m).
Proof. intros Hm u. unfold catch. pose proof (Hm u). by destruct (m u) as [[?|?|] ?]. Qed.
Lemma fr_fatal {A} (m : UM A) : framed m -> framed (fatal m).
Proof. intros Hm u. unfold fatal. pose proof (Hm u). by destruct (m u) as [[?|?|] ?]. Qed.
Lemma fr_if {A} (b : bool) (m n : UM A) : framed m -> framed n -> framed (if b then m else n).
Proof. by destruct b. Qed.
End frame.

Create HintDb fr discriminated.
#[local] Hint Resolve fr_write fr_wrap fr_switch fr_forM fr_catch fr_fatal fr_if : fr.
#[local] Hint Extern 1 (framed (mret _)) => (apply fr_ro, ro_ret) : fr.
#[local] Hint Extern 1 (framed (fail _)) => (apply fr_ro, ro_fail) : fr.
#[local] Hint Extern 1 (framed panic) => (apply fr_ro, ro_panic) : fr.
#[local] Hint Extern 1 (framed (gets _)) => (apply fr_ro, ro_gets) : fr.
#[local] Hint Extern 1 (framed (read _ _)) => (apply fr_ro, ro_read) : fr.
#[local] Hint Extern 1 (framed (of_text _ _)) => (apply fr_ro, ro_of_text) : fr.
(** Splits a program into its calls and closes those the hints know. *)
Ltac fr := repeat first
  [ solve [eauto 2 with fr]
  | simple apply fr_bind; [|intros ?]
  | simple apply fr_forM; intros ?
  | simple apply fr_catch | simple apply fr_fatal | simple apply fr_wrap | simple apply fr_if | simple apply fr_switch
  | progress cbv zeta
  | match goal with |- framed (match ?x with _ => _ end) => destruct x end ].

Lemma getAccountAmount_fr a : framed (UnitOfWork.getAccountAmount a).
Proof. unfold UnitOfWork.getAccountAmount. fr. Qed.
Lemma getPoolAmount_fr a : framed (UnitOfWork.getPoolAmount a).
Proof. unfold UnitOfWork.getPoolAmount. fr. Qed.
Lemma addAccountAmount_fr a v : framed (addAccountAmount a v).
Proof. unfold addAccountAmount. fr. Qed.
Lemma setAccountAmount_fr a v : framed (setAccountAmount a v).
Proof. unfold setAccountAmount. fr. Qed.
Lemma addPoolAmount_fr a v : framed (addPoolAmount a v).
Proof. unfold addPoolAmount. fr. Qed.
Lemma subPoolAmount_fr a v : framed (subPoolAmount a v).
Proof. unfold subPoolAmount. fr. Qed.
Lemma setPoolAmount_fr a v : framed (setPoolAmount a v).
Proof. unfold setPoolAmount. fr. Qed.
Lemma getIntParam_fr n : framed (getIntParam n).
Proof. unfold getIntParam. fr. Qed.
Lemma getBigIntParam_fr n : framed (getBigIntParam n).
Proof. unfold getBigIntParam, getStringParam. fr. Qed.
Lemma actorIntParam_fr t a b c d : framed (actorIntParam t a b c d).
Proof. unfold actorIntParam, getIntParam. fr. Qed.
#[local] Hint Resolve getAccountAmount_fr getPoolAmount_fr addAccountAmount_fr setAccountAmount_fr addPoolAmount_fr
  subPoolAmount_fr setPoolAmount_fr getIntParam_fr getBigIntParam_fr actorIntParam_fr : fr.

Lemma getUnbondingHeight_fr t : framed (getUnbondingHeight t).
Proof. unfold getUnbondingHeight. fr. Qed.
Lemma setActorUnbondingHeight_fr t a h : framed (setActorUnbondingHeight t a h).
Proof. unfold setActorUnbondingHeight. fr. Qed.
Lemma setActorPausedHeight_fr t a h : framed (setActorPausedHeight t a h).
Proof. unfold setActorPausedHeight. fr. Qed.
Lemma setActorStakeAmount_fr t a v : framed (UnitOfWork.setActorStakeAmount t a v).
Proof. unfold UnitOfWork.setActorStakeAmount. fr. Qed.
Lemma getActorStakeAmount_fr t a : framed (UnitOfWork.getActorStakeAmount t a).
Proof. unfold UnitOfWork.getActorStakeAmount. fr. Qed.
Lemma getActorExists_fr t a : framed (getActorExists t a).
Proof. unfold getActorExists. fr. Qed.
Lemma getActorStatus_fr t a : framed (UnitOfWork.getActorStatus t a).
Proof. unfold UnitOfWork.getActorStatus. fr. Qed.
Lemma checkBelowMaxChains_fr t c : framed (checkBelowMaxChains t c).
Proof. unfold checkBelowMaxChains, getMaxAllowedChains. fr. Qed.
Lemma checkAboveMinStake_fr t a : framed (checkAboveMinStake t a).
Proof. unfold checkAboveMinStake, getMinRequiredStakeAmount, getStringParam. fr. Qed.
Lemma getPausedHeightIfExists_fr t a : framed (getPausedHeightIfExists t a).
Proof. unfold getPausedHeightIfExists. fr. Qed.
#[local] Hint Resolve getUnbondingHeight_fr setActorUnbondingHeight_fr setActorPausedHeight_fr setActorStakeAmount_fr
  getActorStakeAmount_fr getActorExists_fr getActorStatus_fr checkBelowMaxChains_fr checkAboveMinStake_fr
  getPausedHeightIfExists_fr : fr.

Section framed_handlers.
Context `{CryptoPrims} `{Codec}.

Lemma handleMessage_fr m : framed (handleMessage m).
Proof.
  destruct m; cbn; unfold handleMessageSend, handleStakeMessage, handleEditStakeMessage, handleUnstakeMessage,
    handleUnpauseMessage, getMinRequiredPausedBlocks, handleMessageChangeParameter, updateParam; fr.
Qed.

Lemma getFee_fr m t : framed (getFee m t).
Proof. unfold getFee. fr. Qed.

Lemma getSignerCandidates_fr m : framed (getSignerCandidates m).
Proof. apply fr_ro, getSignerCandidates_ro. Qed.
#[local] Hint Resolve getFee_fr handleMessage_fr getSignerCandidates_fr : fr.

Lemma basicValidate_fr tx : framed (basicValidateTransaction tx).
Proof.
  unfold basicValidateTransaction, validateTxMessage, validateTxSignature, validateAndDeductTxFees. fr.
Qed.

#[local] Hint Resolve basicValidate_fr : fr.
Lemma HandleTransaction_fr tx i : framed (HandleTransaction tx i).
Proof. unfold HandleTransaction. fr. Qed.

Lemma beginBlock_ro : read_only beginBlock.
Proof.
  intros u. unfold beginBlock, prevBlockByzantineValidators. erewrite bind_run by reflexivity.
  revert u. change (read_only (handleByzantineValidators [])).
  unfold handleByzantineValidators, getIntParam. cbn [forM]. ro.
Qed.

Lemma endBlock_fr o1 o2 p : framed (endBlock o1 o2 p).
Proof.
  unfold endBlock, handleProposerRewards, unbondUnstakingActors, unbondActor, beginUnstakingMaxPausedActors,
    beginUnstakingActorsPausedBefore, getMaxAllowedPausedBlocks. fr.
Qed.
End framed_handlers.

(** reads never see writes: executing any transaction, successfully or not, leaves the
    context the unit of work reads from exactly as it was, so every later check of the same
    block (balances, nonces, actor status) is made against the state committed before the
    block. *)
Theorem reads_see_committed_state `{CryptoPrims} `{Codec} (tx : Transaction) (index : Z) (u : baseUtilityUnitOfWork) :
  let u' := (HandleTransaction tx index u).2 in
  persistenceReadContext u' = persistenceReadContext u /\ height u' = height u /\
  (forall address, UnitOfWork.getAccountAmount address u' = ((UnitOfWork.getAccountAmount address u).1, u')).
Proof.
  intros u'. destruct (HandleTransaction_fr tx index u) as (Hh & Hr & _). fold u' in Hh, Hr.
  split; [done|]. split; [done|]. intros address.
  unfold UnitOfWork.getAccountAmount, read. cbv [mbind M_bind gets]. rewrite Hh, Hr.
  by destruct (persistenceReadContext u) as [p|].
Qed.

(** ** Applying a block *)
Section apply.
Context `{CryptoPrims} `{Codec} (treesUpdate : DB -> TxIndexer -> Z -> res string string).

(** Every transaction of the proposal was validated, verified and authorised. *)
Lemma ApplyBlock_steps o1 o2 s s' :
  ApplyBlock treesUpdate o1 o2 s = (Ok tt, s') ->
  isProposalBlockSet (uow s) = true /\
  exists s1 s2 s3 s4 h,
    onUow PocketErr beginBlock s = (Ok tt, s1) /\ processProposalBlockTransactions s1 = (Ok tt, s2) /\
    onUow PocketErr (endBlock o1 o2 (bz (proposalProposerAddr (uow s)))) s2 = (Ok tt, s3) /\
    onUow PocketErr (fatal (write ErrAppHash (ComputeStateHash treesUpdate))) s3 = (Ok h, s4) /\
    stateHash (uow s') = h /\
    (proposalStateHash (uow s4) = IgnoreProposalBlockCheckHash \/ proposalStateHash (uow s4) = h).
Proof.
  unfold ApplyBlock. rewrite bind_ok. intros (s0 & s0' & Hget & Hk). injection Hget as <- <-.
  destruct (isProposalBlockSet (uow s)); [|discriminate Hk]. split; [done|].
  apply bind_ok in Hk as ([] & s1 & H1 & Hk). apply bind_ok in Hk as ([] & s2 & H2 & Hk).
  apply bind_ok in Hk as ([] & s3 & H3 & Hk). apply bind_ok in Hk as (h & s4 & H4 & Hk).
  apply bind_ok in Hk as (s5 & s5' & Hget & Hk). injection Hget as <- <-.
  exists s1, s2, s3, s4, h. split; [done|]. split; [done|]. split; [done|]. split; [done|].
  destruct (decide (proposalStateHash (uow s4) = IgnoreProposalBlockCheckHash)) as [Hi|Hi];
    [|destruct (decide (proposalStateHash (uow s4) = h)) as [Hj|Hj]].
  - rewrite bool_decide_eq_false_2 in Hk by tauto. cbn [andb] in Hk. injection Hk as <-. split; [done | by left].
  - rewrite (bool_decide_eq_false_2 (proposalStateHash (uow s4) ≠ h)), andb_false_r in Hk by tauto.
    injection Hk as <-. split; [done | by right].
  - rewrite !bool_decide_eq_true_2 in Hk by done. discriminate Hk.
Qed.

Lemma onUow_frame {A} (m : UM A) s : framed m -> same_frame (uow s) (uow (onUow PocketErr m s).2).
Proof. intros Hm. unfold onUow. pose proof (Hm (uow s)). by destruct (m (uow s)) as [[?|?|] ?]. Qed.

Lemma processTx_frame i b s s' : processTx i b s = (Ok tt, s') -> same_frame (uow s) (uow s').
Proof.
  unfold processTx. rewrite bind_ok. intros (tx & s1 & Htx & Hk).
  destruct (TxFromBytes b) as [tx0|]; [|discriminate Htx]. injection Htx as <- <-.
  apply bind_ok in Hk as ([] & s2 & Hv & Hk).
  destruct (Tx_ValidateBasic tx0); [discriminate Hv|]. injection Hv as <-.
  apply bind_ok in Hk as (idx & s3 & Hh & Hk).
  pose proof (onUow_frame _ s (HandleTransaction_fr tx0 i)) as F1. rewrite Hh in F1. cbn in F1.
  apply bind_ok in Hk as (hash & s4 & Hhash & Hk).
  destruct (Tx_Hash tx0); [|discriminate Hhash]. injection Hhash as <- <-.
  apply bind_ok in Hk as ([] & s5 & Hmod & Hk). injection Hmod as <-.
  pose proof (onUow_frame (indexTx idx)) as F2. specialize (F2 (if TxMempool.ContainsTx s0 (mempool s3)
     then {| uow := uow s3; mempool := TxMempool.RemoveTx b (mempool s3) |} else s3)).
  rewrite Hk in F2. cbn in F2. etransitivity; [exact F1|].
  assert (framed (indexTx idx)) as Hfi by (unfold indexTx; fr).
  specialize (F2 Hfi). by destruct (TxMempool.ContainsTx s0 (mempool s3)).
Qed.

Lemma processTxs_frame i txs s s' : processTxs i txs s = (Ok tt, s') -> same_frame (uow s) (uow s').
Proof.
  revert i s. induction txs as [|b txs IH]; intros i s; cbn; [intros [= <-]; reflexivity|].
  rewrite bind_ok. intros ([] & s1 & Hp & Hr). etransitivity; [by eapply processTx_frame | by eapply IH].
Qed.

(** A replica only accepts a block it has fully checked.  If [ApplyBlock] succeeds,
    then a proposal was set, every transaction of the proposal decodes, passes
    [ValidateBasic] (so its signature verifies) and was signed by an authorised key, and the
    resulting state hash is the one proposed (or the check was switched off by the sentinel
    hash); any other hash ends the process. *)
Lemma apply_block_sound (o1 o2 : list Z) (s s' : US) :
  ApplyBlock treesUpdate o1 o2 s = (Ok tt, s') ->
  isProposalBlockSet (uow s) = true /\
  (exists s2, runs_checked 0 (proposalBlockTxs (uow s)) s s2) /\
  (proposalStateHash (uow s) = IgnoreProposalBlockCheckHash \/
   proposalStateHash (uow s) = GetStateHash (uow s')).
Proof.
  intros Hrun. destruct (ApplyBlock_steps _ _ _ _ Hrun) as (Hset & s1 & s2 & s3 & s4 & h & H1 & H2 & H3 & H4 & Hh & Hhash).
  split; [done|].
  assert (s1 = s) as ->.
  { apply onUow_ok in H1 as [H1 Hm]. pose proof (beginBlock_ro (uow s)) as Hro. rewrite H1 in Hro. cbn in Hro.
    destruct s, s1. cbn in *. by subst. }
  unfold processProposalBlockTransactions in H2. apply bind_gets_ok in H2. pose proof (processTxs_checked _ _ _ _ H2) as Hck.
  pose proof (processTxs_frame _ _ _ _ H2) as F2.
  pose proof (onUow_frame _ s2 (endBlock_fr o1 o2 (bz (proposalProposerAddr (uow s))))) as F3. rewrite H3 in F3.
  pose proof (onUow_frame _ s3 (fr_fatal _ (fr_write ErrAppHash (ComputeStateHash treesUpdate)))) as F4. rewrite H4 in F4.
  cbn in F3, F4. split; [by exists s2|].
  assert (same_frame (uow s) (uow s4)) as (_ & _ & Hp & _) by (by repeat (etransitivity; [eassumption|])).
  unfold GetStateHash. rewrite Hh, <- Hp. done.
Qed.
End apply.

(** ** Reaping *)
Section reap.
Context `{CryptoPrims} `{Codec}.

Definition mq (s : US) : list bytes := FIFOSet.queue (TxMempool.g (mempool s)).
Definition totalBytes (l : list bytes) : Z := lsum (blen <$> l).

Lemma totalBytes_app l1 l2 : totalBytes (l1 ++ l2) = totalBytes l1 + totalBytes l2.
Proof. unfold totalBytes. by rewrite fmap_app, lsum_app. Qed.
Lemma totalBytes_cons b l : totalBytes (b :: l) = blen b + totalBytes l.
Proof. done. Qed.
Lemma totalBytes_nil : totalBytes [] = 0.
Proof. done. Qed.
Lemma totalBytes_nonneg l : 0 <= totalBytes l.
Proof. apply lsum_nonneg, Forall_fmap, Forall_forall. intros b _. cbn. unfold blen. lia. Qed.
#[local] Arguments totalBytes : simpl never.

Lemma PopTx_inv m b m' :
  TxMempool.PopTx m = (inl b, m') -> FIFOSet.queue (TxMempool.g m) = b :: FIFOSet.queue (TxMempool.g m').
Proof.
  unfold TxMempool.PopTx, FIFOSet.Pop. destruct (FIFOSet.queue (TxMempool.g m)) as [|x q]; [discriminate|].
  by intros [= <- <-].
Qed.

Lemma onUow_mempool {A} (m : UM A) s r s' : onUow PocketErr m s = (r, s') -> mempool s' = mempool s.
Proof. unfold onUow. destruct (m (uow s)) as [? ?]. by intros [= <- <-]. Qed.

(** One iteration: it consumes the front transaction and either keeps it, within the limit,
    or drops it. *)
Lemma reapStep_spec maxB st s st' s' :
  reapStep maxB st s = (Ok (Some st'), s') ->
  txsTotalBz st = totalBytes (reaped st) -> totalBytes (reaped st) + totalBytes (mq s) < 2 ^ 64 ->
  exists b, mq s = b :: mq s' /\ txsTotalBz st' = totalBytes (reaped st') /\
    (reaped st' = reaped st \/ reaped st' = reaped st ++ [b] /\ totalBytes (reaped st') < maxB).
Proof.
  intros Hstep Ht Hlt. unfold reapStep in Hstep.
  destruct (TxMempool.PopTx (mempool s)) as [[b|e] m'] eqn:Hpop; [|discriminate Hstep].
  apply PopTx_inv in Hpop. destruct (TxFromBytes b) as [tx|]; [|discriminate Hstep].
  assert (mq s = b :: FIFOSet.queue (TxMempool.g m')) as Hq by exact Hpop.
  rewrite Hq, totalBytes_cons in Hlt. rewrite Ht in Hstep.
  pose proof (totalBytes_nonneg (reaped st)). pose proof (totalBytes_nonneg (FIFOSet.queue (TxMempool.g m'))).
  assert (0 <= blen b) by (unfold blen; lia).
  rewrite (u64_small (totalBytes (reaped st) + blen b)) in Hstep by (unfold in_u64; lia).
  case_bool_decide as Hmax; [destruct (TxMempool.AddTx b m') as [[?|] ?]; discriminate Hstep|].
  destruct (onUow PocketErr (HandleTransaction tx (txIdx st)) _) as [[idx|e|] s2] eqn:Hh; [| |discriminate Hstep].
  - destruct (onUow PocketErr (indexTx idx) s2) as [[x|e|] s3] eqn:Hi; try discriminate Hstep.
    injection Hstep as <- <-. apply onUow_mempool in Hh, Hi. exists b. cbn [reaped txsTotalBz].
    split; [unfold mq; by rewrite Hi, Hh|]. rewrite totalBytes_app, totalBytes_cons, totalBytes_nil.
    split; [lia|]. right. split; [done | lia].
  - injection Hstep as <- <-. apply onUow_mempool in Hh. exists b. cbn [reaped txsTotalBz].
    split; [unfold mq; by rewrite Hh|]. rewrite u64_small by (unfold in_u64; lia). split; [lia | by left].
Qed.

Lemma reapLoop_spec fuel maxB st s txs s' :
  reapLoop fuel maxB st s = (Ok txs, s') ->
  txsTotalBz st = totalBytes (reaped st) -> totalBytes (reaped st) + totalBytes (mq s) < 2 ^ 64 ->
  exists l, txs = reaped st ++ l /\ l `sublist_of` mq s /\ (l = [] \/ totalBytes txs < maxB).
Proof.
  revert st s. induction fuel as [|fuel IH]; intros st s Hrun Ht Hlt; cbn in Hrun.
  - injection Hrun as <- <-. exists []. rewrite app_nil_r. split; [done|]. split; [apply sublist_nil_l | by left].
  - destruct (TxMempool.IsEmptyTxs (mempool s)).
    { injection Hrun as <- <-. exists []. rewrite app_nil_r. split; [done|]. split; [apply sublist_nil_l | by left]. }
    destruct (reapStep maxB st s) as [[[st1|]| |] s1] eqn:Hstep; try discriminate Hrun.
    + destruct (reapStep_spec _ _ _ _ _ Hstep Ht Hlt) as (b & Hq & Ht1 & Hcase).
      rewrite Hq, totalBytes_cons in Hlt. assert (0 <= blen b) by (unfold blen; lia).
      destruct Hcase as [He|[He Hb]].
      * rewrite He in *. destruct (IH st1 s1 Hrun) as (l & -> & Hl & Hor); [by rewrite He | rewrite He; lia |].
        rewrite He in *. exists l. split; [done|]. split; [rewrite Hq; by apply sublist_cons | done].
      * destruct (IH st1 s1 Hrun) as (l & -> & Hl & Hor); [done | rewrite He, totalBytes_app, totalBytes_cons, totalBytes_nil; lia |].
        exists (b :: l). rewrite He, <- app_assoc. split; [done|]. split; [rewrite Hq; by apply sublist_skip|]. right.
        destruct Hor as [->|Hor]; [by rewrite app_nil_r, <- He in * | by rewrite He, <- app_assoc in Hor].
    + injection Hrun as <- <-. exists []. rewrite app_nil_r. split; [done|]. split; [apply sublist_nil_l | by left].
Qed.

(** the leader never exceeds the block size.  When [reapMempool] returns, the
    transactions it returns are a subsequence of the mempool in queue order, and their total
    size is below the limit (or there are none), provided the mempool holds less than 2^64
    bytes. *)
Theorem reap_mempool_bounded (maxTxBytes : Z) (s s' : US) (txs : list bytes) :
  totalBytes (mq s) < 2 ^ 64 -> reapMempool maxTxBytes s = (Ok txs, s') ->
  txs `sublist_of` mq s /\ (txs = [] \/ totalBytes txs < maxTxBytes).
Proof.
  intros Hlt Hrun. unfold reapMempool in Hrun.
  destruct (reapLoop_spec _ _ _ _ _ _ Hrun) as (l & -> & Hl & Hor); [done | cbn; rewrite totalBytes_nil; lia |].
  done.
Qed.

(** The loop is really run to its end: more fuel does not change the result. *)
Lemma reapLoop_fuel fuel extra maxB st s :
  (length (mq s) <= fuel)%nat -> reapLoop (fuel + extra) maxB st s = reapLoop fuel maxB st s.
Proof.
  revert st s. induction fuel as [|fuel IH]; intros st s Hf.
  - destruct extra as [|extra]; [done|]. cbn.
    assert (TxMempool.IsEmptyTxs (mempool s) = true) as ->; [|done].
    unfold TxMempool.IsEmptyTxs, FIFOSet.IsEmpty. unfold mq in Hf. by destruct (FIFOSet.queue _); [|cbn in Hf; lia].
  - cbn. destruct (TxMempool.IsEmptyTxs (mempool s)); [done|].
    destruct (reapStep maxB st s) as [[[st1|]| |] s1] eqn:Hstep; try done.
    apply IH. enough (exists b, mq s = b :: mq s1) as [b Hb] by (rewrite Hb in Hf; cbn in Hf; lia).
    unfold reapStep in Hstep.
    destruct (TxMempool.PopTx (mempool s)) as [[b|e] m'] eqn:Hpop; [|discriminate Hstep].
    apply PopTx_inv in Hpop. destruct (TxFromBytes b) as [tx|]; [|discriminate Hstep].
    case_bool_decide; [destruct (TxMempool.AddTx b m') as [[?|] ?]; discriminate Hstep|].
    destruct (onUow PocketErr (HandleTransaction tx (txIdx st)) _) as [[idx|e|] s2] eqn:Hh; [| |discriminate Hstep].
    + destruct (onUow PocketErr (indexTx idx) s2) as [[x|e|] s3] eqn:Hi; try discriminate Hstep.
      injection Hstep as <- <-. apply onUow_mempool in Hh, Hi. exists b. unfold mq. rewrite Hi, Hh. exact Hpop.
    + injection Hstep as <- <-. apply onUow_mempool in Hh. exists b. unfold mq. rewrite Hh. exact Hpop.
Qed.

(** C36: the reaping loop terminates: the number of transactions in the mempool bounds its
    iterations, since every iteration that continues takes one transaction out; running it
    with any larger bound gives the same outcome. *)
Theorem reap_mempool_terminates (maxTxBytes : Z) (s : US) (n : nat) :
  reapLoop (length (mq s) + n) maxTxBytes {| reaped := []; txsTotalBz := 0; txIdx := 0 |} s
    = reapMempool maxTxBytes s.
Proof. by apply reapLoop_fuel. Qed.
End reap.

(** *** Witnesses *)
Section witnesses.
Import ToyCodec UowSend.

Lemma handle_tx_authorised_witness :
  exists m addr cands, @txMessage codec sendTx = Some m /\ @txSigner ToyCrypto.prims sendTx = Some addr /\
    @getSignerCandidates ToyCrypto.prims m u0 = (Ok cands, u0) /\ addr ∈ cands.
Proof.
  destruct (@HandleTransaction ToyCrypto.prims codec sendTx 0 u0) as [r u'] eqn:Hr.
  destruct r as [idx|e|]; [| apply (f_equal fst) in Hr; vm_compute in Hr; discriminate Hr
                           | apply (f_equal fst) in Hr; vm_compute in Hr; discriminate Hr].
  exact (@handle_tx_authorised ToyCrypto.prims codec sendTx 0 u0 u' idx Hr).
Defined.

Definition editMsg : MessageEditStake :=
  {| edit_ActorType := ACTOR_TYPE_APP; edit_Address := Some alice; edit_Chains := None; edit_Amount := "7";
     edit_ServiceUrl := ""; edit_Signer := None |}.
Definition editCodec : Codec := {|
  unmarshalTx := unmarshal; marshalTx := marshal; fromAny _ := inl (PMessage (MEditStake editMsg));
  parseRequestURI _ := None |}.

Lemma edit_stake_always_rejected_witness :
  @HandleTransaction ToyCrypto.prims editCodec sendTx 0 u0 =
    (Err (ErrUnknownMessage "*types.MessageEditStake"), u0).
Proof.
  apply (@edit_stake_always_rejected ToyCrypto.prims editCodec sendTx editMsg alice 0 u0);
    vm_compute; reflexivity.
Defined.

(** A block with one transfer by Alice, on a state with the parameters a block needs. *)
Definition blockParams : list string := [
  ValidatorMaximumMissedBlocksParamName; ProposerPercentageOfFeesParamName;
  AppMaxPauseBlocksParamName; FishermanMaxPauseBlocksParamName; ServicerMaxPauseBlocksParamName;
  ValidatorMaxPausedBlocksParamName; AppUnstakingBlocksParamName; FishermanUnstakingBlocksParamName;
  ServicerUnstakingBlocksParamName; ValidatorUnstakingBlocksParamName].
Definition base1 : PostgresContext :=
  (forM blockParams (fun name => SetParam name (PVInt 10)) base0).2.
Definition blockUow : baseUtilityUnitOfWork :=
  ((SetProposalBlock IgnoreProposalBlockCheckHash (Some bob) ["17"]) (newUOW 2 (at_height 2 base1) (at_height 2 base1))).2.
Definition blockState : US := {| uow := blockUow; mempool := TxMempool.NewTxFIFOMempool 1000 10 |}.
Definition toyTrees (_ : DB) (_ : Z) : res string string := Ok "root".

Definition reapStart : US :=
  {| uow := newUOW 2 (at_height 2 base1) (at_height 2 base1);
     mempool := (@TxMempool.AddTx ToyCrypto.prims "17" (TxMempool.NewTxFIFOMempool 1000 10)).2 |}.

Lemma reap_mempool_bounded_witness :
  exists txs s', @reapMempool ToyCrypto.prims codec 100 reapStart = (Ok txs, s') /\
    txs `sublist_of` mq reapStart /\ (txs = [] \/ totalBytes txs < 100).
Proof.
  destruct (@reapMempool ToyCrypto.prims codec 100 reapStart) as [r s'] eqn:Hr.
  destruct r as [txs|e|]; [| apply (f_equal fst) in Hr; vm_compute in Hr; discriminate Hr
                           | apply (f_equal fst) in Hr; vm_compute in Hr; discriminate Hr].
  exists txs, s'. split; [reflexivity|].
  apply (@reap_mempool_bounded ToyCrypto.prims codec 100 reapStart s' txs); [vm_compute; reflexivity | exact Hr].
Defined.
End witnesses.
End UowTx.
