(* ===== verification/UowStake.v ===== *)
(** Staking, unstaking and unpausing of actors
    (src/utility/unit_of_work/tx_message_handler.go) on the abstract ledger and actor maps. *)

From S2P Require Import Prelude GoStd Errors Crypto CoreTypes Gov Messages Sql Persistence Ledger ActorStore FifoSet TxMempool UnitOfWork UowLedger UowSend UowBlock UowTx.
#[local] Open Scope string_scope.
#[local] Open Scope Z_scope.

Module UowStake.
Import UnitOfWork UowLedger UowTx.

(** The actors of a type as the two contexts see them. *)
Definition workingActors (s : ProtocolActorSchema) (u : baseUtilityUnitOfWork) : gmap string ActorRow :=
  match persistenceRWContext u with Some q => actorView s (db q) (height u) | None => ∅ end.
Definition committedActors (s : ProtocolActorSchema) (u : baseUtilityUnitOfWork) : gmap string ActorRow :=
  match persistenceReadContext u with Some p => actorView s (db p) (height u) | None => ∅ end.

(** A schema that [schemaOf] returns is one of the four the switches know. *)
Lemma switch_schema {A} t s (f : ProtocolActorSchema -> A) d :
  schemaOf t = Some s ->
  switchActor t (f ApplicationActor) (f FishermanActor) (f ServicerActor) (f ValidatorActor) d = f s.
Proof.
  unfold schemaOf, switchActor, ACTOR_TYPE_APP, ACTOR_TYPE_SERVICER, ACTOR_TYPE_FISH, ACTOR_TYPE_VAL.
  repeat case_bool_decide; try lia; congruence.
Qed.
Lemma switch_none {A} t (a b c d e : A) : schemaOf t = None -> switchActor t a b c d e = e.
Proof.
  unfold schemaOf, switchActor, ACTOR_TYPE_APP, ACTOR_TYPE_SERVICER, ACTOR_TYPE_FISH, ACTOR_TYPE_VAL.
  repeat case_bool_decide; try lia; congruence.
Qed.

(** ** Read-only checks *)
Lemma getIntParam_ro n : read_only (getIntParam n).
Proof. unfold getIntParam. ro. Qed.
#[export] Hint Resolve getIntParam_ro : ro.
Lemma actorIntParam_ro t a b c d : read_only (actorIntParam t a b c d).
Proof. unfold actorIntParam. destruct (switchActor t a b c d None); ro. Qed.
#[export] Hint Resolve actorIntParam_ro : ro.
Lemma checkBelowMaxChains_ro t c : read_only (checkBelowMaxChains t c).
Proof. unfold checkBelowMaxChains, getMaxAllowedChains. case_bool_decide; ro. case_bool_decide; ro. Qed.
Lemma getActorExists_ro t a : read_only (getActorExists t a).
Proof. unfold getActorExists. ro. Qed.
Lemma getMinRequiredStakeAmount_ro t : read_only (getMinRequiredStakeAmount t).
Proof. unfold getMinRequiredStakeAmount, getStringParam. destruct (switchActor _ _ _ _ _ _); ro. Qed.

(** A read-only program that succeeds has not moved the state. *)
Lemma ro_ok {A} (m : UM A) u a u' : read_only m -> m u = (Ok a, u') -> u' = u.
Proof. intros Hm Hr. pose proof (Hm u) as Hu. by rewrite Hr in Hu. Qed.

Lemma checkAboveMinStake_ok t amountStr u amount u' :
  checkAboveMinStake t amountStr u = (Ok amount, u') ->
  u' = u /\ bigIntSetString amountStr = Some amount /\
  exists minStake, getMinRequiredStakeAmount t u = (Ok minStake, u) /\ minStake <= amount.
Proof.
  unfold checkAboveMinStake. rewrite bind_ok. intros (minStake & u1 & Hmin & Hk).
  pose proof (ro_ok _ _ _ _ (getMinRequiredStakeAmount_ro t) Hmin) as ->.
  unfold StringToBigInt in Hk. destruct (bigIntSetString amountStr) as [z|]; [|discriminate Hk].
  unfold BigIntLessThan in Hk. case_bool_decide; [discriminate Hk|]. injection Hk as <- <-.
  split; [done|]. split; [done|]. exists minStake. split; [done | lia].
Qed.

(** ** Inserting an actor *)
Lemma InsertActor_ok s a p p' :
  InsertActor s a p = (Ok tt, p') ->
  Height p' = Height p /\ accounts (db p') = accounts (db p) /\ pools (db p') = pools (db p) /\
  exists r, actorView s (db p') (Height p) !! Address a = Some r /\ staked_tokens r = StakedAmount a /\
    paused_height r = PausedHeight a /\ unstaking_height r = UnstakingHeight a.
Proof.
  unfold InsertActor, GetHeight, of_res, get. cbv [mbind M_bind].
  set (row := {| public_key := PublicKey a |}).
  assert (forall d, exists r, actorView s (set_actors s (InsertRow (actorTable d s) (Address a) row (Height p)) d)
            (Height p) !! Address a = Some r /\ staked_tokens r = StakedAmount a /\
            paused_height r = PausedHeight a /\ unstaking_height r = UnstakingHeight a) as Hins.
  { intros d. rewrite actorView_lookup, actorTable_set_eq. unfold InsertRow.
    destruct (rowAt _ _ _); rewrite select_upsert_eq; eexists; (split; [reflexivity|]); done. }
  destruct (if bool_decide (actorType s = ACTOR_TYPE_VAL) then None else Chains a) as [cs|].
  - destruct (insertChains _ _ _ _) as [ct|e|]; [|discriminate|discriminate]. intros [= <-].
    split; [done|]. split; [done|]. split; [done|]. apply Hins.
  - intros [= <-]. split; [done|]. split; [done|]. split; [done|]. apply Hins.
Qed.

Section stake.
Context `{CryptoPrims}.

(** a successful stake.  If [handleStakeMessage] succeeds then the amount parses and
    reaches the required minimum, the signer's committed balance covers it, and the result
    is: the signer's balance set to the committed balance less the amount, the *application*
    stake pool credited with the amount whatever the type of the actor, the supply unchanged
    if the signer's working balance was the committed one, and the actor stored with that
    stake, neither paused nor unstaking. *)
Theorem stake_moves_funds (m : MessageStake) (u u' : baseUtilityUnitOfWork) (s : ProtocolActorSchema) :
  uow_wf u -> schemaOf (stake_ActorType m) = Some s -> handleStakeMessage m u = (Ok tt, u') ->
  exists pk amount, NewPublicKeyFromBytes (bz (stake_PublicKey m)) = Ok pk /\
    bigIntSetString (stake_Amount m) = Some amount /\
    (exists minStake, getMinRequiredStakeAmount (stake_ActorType m) u = (Ok minStake, u) /\ minStake <= amount) /\
    let key := hexEncode (bz (stake_Signer m)) in
    amount <= l_get AccountS key (committed u) /\
    working u' = l_add PoolS (poolKey POOLS_APP_STAKE) amount
                   (l_set AccountS key (l_get AccountS key (committed u) - amount) (working u)) /\
    supply (working u') = supply (working u) + l_get AccountS key (committed u) - l_get AccountS key (working u) /\
    exists r, workingActors s u' !! hexEncode (PublicKey_Address pk) = Some r /\
      staked_tokens r = stake_Amount m /\ paused_height r = -1 /\ unstaking_height r = -1.
Proof.
  intros Hwf Hsch. unfold handleStakeMessage. rewrite bind_ok. intros (pk & u0 & Hpk & Hk).
  unfold of_text, of_res in Hpk. destruct (NewPublicKeyFromBytes (bz (stake_PublicKey m))) as [pk0| |] eqn:Epk; try discriminate Hpk.
  injection Hpk as <- <-. apply bind_ok in Hk as (amount & u1 & Hmin & Hk).
  apply checkAboveMinStake_ok in Hmin as (-> & Hamt & Hms).
  rewrite (bind_run _ _ _ _ _ (getAccountAmount_run _ _ Hwf)) in Hk. cbv zeta in Hk.
  set (key := hexEncode (bz (stake_Signer m))) in *.
  case_bool_decide as Hlt; [discriminate Hk|].
  apply bind_ok in Hk as ([] & u2 & Hch & Hk). apply ro_ok in Hch as ->; [|apply checkBelowMaxChains_ro].
  apply bind_ok in Hk as (ex & u3 & Hex & Hk). apply ro_ok in Hex as ->; [|apply getActorExists_ro].
  destruct ex; [discriminate Hk|].
  rewrite (bind_run _ _ _ _ _ (setAccountAmount_run _ _ _ Hwf)) in Hk. fold key in Hk.
  rewrite (bind_run _ _ _ _ _ (addPoolAmount_run _ _ _ (store_wf _ _ _ _ Hwf))) in Hk.
  set (u4 := storeAdd PoolS _ amount (store AccountS key _ u)) in Hk.
  assert (uow_wf u4) as Hwf4 by (unfold u4; eauto with golib).
  assert (exists a, Address a = hexEncode (PublicKey_Address pk0) /\ StakedAmount a = stake_Amount m /\
            PausedHeight a = -1 /\ UnstakingHeight a = -1 /\
            write ErrInsert (InsertActor s a) u4 = (Ok tt, u')) as (a & Ha1 & Ha2 & Ha3 & Ha4 & Hw).
  { revert Hsch Hk. unfold schemaOf, switchActor, ACTOR_TYPE_APP, ACTOR_TYPE_SERVICER, ACTOR_TYPE_FISH, ACTOR_TYPE_VAL.
    repeat case_bool_decide; try lia; intros [= <-] Hk; eexists; (split; [|split; [|split; [|split; [|exact Hk]]]]); done. }
  destruct (persistenceRWContext u4) as [q|] eqn:Hq; [|by destruct Hwf4 as [_ Hn]; rewrite Hq in Hn].
  unfold write in Hw. rewrite Hq in Hw. destruct (InsertActor s a q) as [[[]| |] q'] eqn:Hins; try discriminate Hw.
  injection Hw as <-. apply InsertActor_ok in Hins as (HH & Hacc & Hpool & r & Hr & Hst & Hph & Huh).
  assert (Height q = height u4) as HQ by (destruct Hwf4 as [_ Hn]; rewrite Hq in Hn; apply Hn).
  assert (working (set_rw (Some q') u4) = working u4) as Hwk.
  { unfold working. rewrite Hq. cbn [set_rw persistenceRWContext height]. by apply view_ext. }
  exists pk0, amount. split; [done|]. split; [done|]. split; [done|]. split; [lia|].
  assert (working u4 = l_add PoolS (poolKey POOLS_APP_STAKE) amount
            (l_set AccountS key (l_get AccountS key (committed u) - amount) (working u))) as E4.
  { unfold u4. autorewrite with uow; eauto with golib. }
  split; [by rewrite Hwk|]. split; [rewrite Hwk, E4; autorewrite with ledger; lia|].
  exists r. unfold workingActors. cbn [set_rw persistenceRWContext height].
  rewrite <- HQ, <- Ha1. split; [done|]. rewrite Hst, Hph, Huh. done.
Qed.
End stake.

(** ** Unstaking and unpausing *)

(** A column update of the actor of a type through the unit of work. *)
Lemma actor_update_run wrap s upd addr u :
  uow_wf u ->
  exists u', write wrap (actorUpdProgram s upd addr) u = (Ok tt, u') /\ uow_wf u' /\
    working u' = working u /\
    workingActors s u' = alter (actorUpdSpec upd) (hexEncode addr) (workingActors s u).
Proof.
  intros Hwf. pose proof Hwf as [Hr Hw]. destruct (persistenceRWContext u) as [q|] eqn:Hq; [|done].
  destruct Hw as [HH Hok].
  pose proof (UowBlock.write_run wrap _ u q _ _ Hq (actorUpd_run s upd addr q)) as Hwr.
  eexists. split; [exact Hwr|]. split; [|split].
  - split; [exact Hr|]. split; [exact HH|]. cbn [set_db db]. intros sch key k txt Hs. apply (Hok sch key k txt).
    by destruct sch.
  - unfold working. rewrite Hq. cbn [set_rw persistenceRWContext height set_db db]. by apply view_ext.
  - unfold workingActors. rewrite Hq. cbn [set_rw persistenceRWContext height set_db db].
    by rewrite <- HH, actorView_copyLatest.
Qed.

Lemma getActorStatus_run t s addr u :
  schemaOf t = Some s -> uow_wf u ->
  UnitOfWork.getActorStatus t addr u =
    (match unstaking_height <$> committedActors s u !! hexEncode addr with
     | None => Err (ErrGetStatus ErrNoRows)
     | Some h => Ok (if decide (h = -1) then StakeStatus_Staked
                     else if decide (height u < h) then StakeStatus_Unstaking else StakeStatus_Unstaked)
     end, u).
Proof.
  intros Hs [Hr _]. unfold UnitOfWork.getActorStatus, GetAppStatus, GetFishermanStatus, GetServicerStatus, GetValidatorStatus.
  cbv [mbind M_bind gets].
  rewrite (switch_schema t s (fun s => read ErrGetStatus (fun p => GetActorStatus s p addr (height u))) _ Hs).
  unfold read, committedActors. destruct (persistenceReadContext u) as [p|]; [|done].
  rewrite actor_status_eq.
  destruct (unstaking_height <$> actorView s (db p) (height u) !! hexEncode addr) as [h|]; [|done].
  repeat case_decide; done.
Qed.

(** unstaking.  For a known actor type whose unbonding height is [ubh], the handler
    refuses an address that is not a staked actor in the committed state, with the status it
    found (unknown when there is no such actor) and no change; for a staked actor it succeeds
    and sets exactly that actor's unstaking height, moving no tokens. *)
Theorem unstake_cases (m : MessageUnstake) (u : baseUtilityUnitOfWork) (s : ProtocolActorSchema) (ubh : Z) :
  uow_wf u -> schemaOf (unstake_ActorType m) = Some s ->
  getUnbondingHeight (unstake_ActorType m) u = (Ok ubh, u) ->
  let key := hexEncode (bz (unstake_Address m)) in
  match unstaking_height <$> committedActors s u !! key with
  | None => handleUnstakeMessage m u = (Err (ErrInvalidStatus StakeStatus_UnknownStatus StakeStatus_Staked), u)
  | Some h =>
      if decide (h = -1)
      then exists u', handleUnstakeMessage m u = (Ok tt, u') /\ working u' = working u /\
             workingActors s u' = alter (with_unstaking ubh) key (workingActors s u)
      else exists st, st ≠ StakeStatus_Staked /\
             handleUnstakeMessage m u = (Err (ErrInvalidStatus st StakeStatus_Staked), u)
  end.
Proof.
  intros Hwf Hs Hub key. pose proof (getActorStatus_run _ s (bz (unstake_Address m)) _ Hs Hwf) as Hst. fold key in Hst.
  unfold handleUnstakeMessage.
  destruct (unstaking_height <$> committedActors s u !! key) as [h|].
  - rewrite (bind_run _ _ _ _ _ (proj2 (wrap_err_ok _ _ _ _ _) Hst)). case_decide as Hh.
    + rewrite bool_decide_eq_false_2 by (intros Hc; by apply Hc).
      destruct (actor_update_run ErrSetUnstakingHeightAndStatus s (UpdUnstaking ubh) (bz (unstake_Address m)) u Hwf)
        as (u' & Hr & _ & Hw & Ha).
      exists u'. split; [|done]. rewrite (bind_run _ _ _ _ _ Hub). unfold setActorUnbondingHeight,
        SetAppUnstakingHeightAndStatus, SetFishermanUnstakingHeightAndStatus, SetServicerUnstakingHeightAndStatus,
        SetValidatorUnstakingHeightAndStatus.
      rewrite (switch_schema _ s (fun s => write ErrSetUnstakingHeightAndStatus
        (SetActorUnstakingHeightAndStatus s (bz (unstake_Address m)) ubh)) _ Hs). exact Hr.
    + case_decide; [exists StakeStatus_Unstaking | exists StakeStatus_Unstaked]; (split; [done|]);
        by rewrite bool_decide_eq_true_2 by done.
  - apply bind_run_err. unfold wrap_err. by rewrite Hst.
Qed.

(** unpausing.  An actor that is not paused in the committed state is refused, so is one
    that has not been paused for the minimum number of blocks; otherwise the handler succeeds
    and resets exactly that actor's pause height, moving no tokens. *)
Theorem unpause_cases (m : MessageUnpause) (u : baseUtilityUnitOfWork) (s : ProtocolActorSchema)
    (r : ActorRow) (minBlocks : Z) :
  uow_wf u -> schemaOf (unpause_ActorType m) = Some s ->
  committedActors s u !! hexEncode (bz (unpause_Address m)) = Some r ->
  getMinRequiredPausedBlocks (unpause_ActorType m) u = (Ok minBlocks, u) ->
  if decide (paused_height r = -1) then handleUnpauseMessage m u = (Err ErrNotPaused, u)
  else if decide (height u < i64 (minBlocks + paused_height r)) then handleUnpauseMessage m u = (Err ErrNotReadyToUnpause, u)
  else exists u', handleUnpauseMessage m u = (Ok tt, u') /\ working u' = working u /\
    workingActors s u' = alter (with_paused (-1)) (hexEncode (bz (unpause_Address m))) (workingActors s u).
Proof.
  intros Hwf Hs Hr Hmin.
  assert (getPausedHeightIfExists (unpause_ActorType m) (bz (unpause_Address m)) u = (Ok (paused_height r), u)) as Hp.
  { unfold getPausedHeightIfExists, GetAppPauseHeightIfExists, GetFishermanPauseHeightIfExists,
      GetServicerPauseHeightIfExists, GetValidatorPauseHeightIfExists. cbv [mbind M_bind gets].
    rewrite (switch_schema _ s (fun s => read ErrGetPauseHeight
      (fun p => GetActorPauseHeightIfExists s p (bz (unpause_Address m)) (height u))) _ Hs).
    unfold read, committedActors in *. destruct (persistenceReadContext u) as [p|]; [|done].
    unfold GetActorPauseHeightIfExists, selectActor. rewrite actorView_lookup in Hr.
    destruct (selectLatest _ _ _) as [[k r']|]; [|done]. injection Hr as ->. done. }
  unfold handleUnpauseMessage. rewrite (bind_run _ _ _ _ _ Hp). unfold HeightNotUsed.
  case_decide as H1; [by rewrite bool_decide_eq_true_2|]. rewrite bool_decide_eq_false_2 by done.
  rewrite (bind_run _ _ _ _ _ Hmin). erewrite bind_run by reflexivity.
  case_decide as H2; [by rewrite bool_decide_eq_true_2|]. rewrite bool_decide_eq_false_2 by done.
  destruct (actor_update_run ErrSetPauseHeight s (UpdPause (-1)) (bz (unpause_Address m)) u Hwf)
    as (u' & Hrun & _ & Hw & Ha).
  exists u'. split; [|done]. unfold setActorPausedHeight, SetAppPauseHeight, SetFishermanPauseHeight,
    SetServicerPauseHeight, SetValidatorPauseHeight.
  rewrite (switch_schema _ s (fun s => write ErrSetPauseHeight (SetActorPauseHeight s (bz (unpause_Address m)) (-1))) _ Hs).
  exact Hrun.
Qed.

(** *** Witnesses: a servicer key to stake, a staked application, a paused fisherman. *)
Section witnesses.
Import ToyCodec UowSend.
Let base2 : PostgresContext :=
  ((SetAccountAmount alice "100" ;;
    SetParam ServicerMinimumStakeParamName (PVString "15") ;;
    SetParam ServicerMaxChainsParamName (PVInt 4) ;;
    SetParam AppUnstakingBlocksParamName (PVInt 7) ;;
    SetParam FishermanMinimumPauseBlocksParamName (PVInt 1) ;;
    InsertApp "A" "K" "O" "40" (Some ["0001"]) (-1) (-1) ;;
    InsertFisherman "F" "K" "O" "url" "40" (Some ["0001"]) 0 (-1)) (emptyContext 1)).2.
Definition u2 : baseUtilityUnitOfWork := newUOW 2 (at_height 2 base2) (at_height 2 base2).

Lemma u2_wf : uow_wf u2.
Proof. split; (split; [reflexivity | apply balances_okb_ok; vm_compute; reflexivity]). Qed.

Definition stakeMsg : MessageStake :=
  {| stake_ActorType := ACTOR_TYPE_SERVICER; stake_PublicKey := Some "SSSSSSSSSSSSSSSSSSSSSSSSSSSSSSSS";
     stake_Chains := Some ["0001"]; stake_Amount := "30"; stake_ServiceUrl := "url";
     stake_OutputAddress := Some alice; stake_Signer := Some alice |}.

(** The servicer's stake goes to the application pool; the servicer pool stays empty. *)
Lemma stake_moves_funds_witness :
  exists u', @handleStakeMessage ToyCrypto.prims stakeMsg u2 = (Ok tt, u') /\
    l_get PoolS (poolKey POOLS_APP_STAKE) (working u') = 30 /\
    l_get PoolS (poolKey POOLS_SERVICER_STAKE) (working u') = 0.
Proof.
  destruct (@handleStakeMessage ToyCrypto.prims stakeMsg u2) as [r u'] eqn:Hr.
  destruct r as [[]|e|]; [| apply (f_equal fst) in Hr; vm_compute in Hr; discriminate Hr
                          | apply (f_equal fst) in Hr; vm_compute in Hr; discriminate Hr].
  destruct (@stake_moves_funds ToyCrypto.prims stakeMsg u2 u' ServicerActor u2_wf eq_refl Hr)
    as (pk & amount & _ & Ha & _ & _ & Hw & _).
  vm_compute in Ha. injection Ha as <-. exists u'. split; [reflexivity|]. rewrite Hw. split; vm_compute; reflexivity.
Defined.

Lemma unstake_cases_witness :
  exists u', handleUnstakeMessage {| unstake_ActorType := ACTOR_TYPE_APP; unstake_Address := Some "A"; unstake_Signer := None |} u2
    = (Ok tt, u') /\ working u' = working u2.
Proof.
  pose proof (unstake_cases {| unstake_ActorType := ACTOR_TYPE_APP; unstake_Address := Some "A"; unstake_Signer := None |}
    u2 ApplicationActor 9 u2_wf eq_refl ltac:(vm_compute; reflexivity)) as Hc.
  cbv zeta in Hc. destruct (unstaking_height <$> _) as [h|] eqn:Hh in Hc; vm_compute in Hh; [|discriminate Hh].
  injection Hh as <-. rewrite decide_True in Hc by reflexivity. destruct Hc as (u' & Hr & Hw & _). exists u'. split; [exact Hr | exact Hw].
Defined.

Lemma unpause_cases_witness :
  exists u', handleUnpauseMessage {| unpause_ActorType := ACTOR_TYPE_FISH; unpause_Address := Some "F"; unpause_Signer := None |} u2
    = (Ok tt, u') /\ working u' = working u2.
Proof.
  pose proof (unpause_cases {| unpause_ActorType := ACTOR_TYPE_FISH; unpause_Address := Some "F"; unpause_Signer := None |}
    u2 FishermanActor
    {| public_key := "4b"; staked_tokens := "40"; specific := "url"; output_address := "4f";
       paused_height := 0; unstaking_height := -1 |} 1 u2_wf eq_refl
    ltac:(vm_compute; reflexivity) ltac:(vm_compute; reflexivity)) as Hc.
  rewrite !decide_False in Hc by (vm_compute; congruence).
  destruct Hc as (u' & Hr & Hw & _). exists u'. split; [exact Hr | exact Hw].
Defined.
End witnesses.
End UowStake.
