(* ===== verification/SqlText.v ===== *)
(** The text of the SQL statements (src/persistence/types).

    The persistence module builds its statements with [fmt.Sprintf]: a statement is a list of
    pieces, the text of the format, a number ([%d]) or a value that the format puts between
    quotes (['%s']), and [render] is the string that is sent.  What the statements do to the
    tables is in Sql.v; here is what the server reads: [lex] follows the lexical rules of SQL
    for quoted literals, line comments and the semicolon.

    A value between quotes is read as one literal if it has no quote of its own, so for such
    values the text of a statement is the statement meant.  Nothing doubles the quotes of other
    values. *)

From S2P Require Import Prelude GoStd Errors Crypto CoreTypes Gov Messages Sql Persistence UnitOfWork.
From Stdlib Require Import Ascii DecimalString DecimalZ.
#[local] Open Scope string_scope.
#[local] Open Scope list_scope.
#[local] Open Scope Z_scope.

(** ** Formats *)
Inductive piece :=
| T (s : string)     (* text of the format, names of tables and columns *)
| D (z : Z)          (* a number *)
| Q (s : string).    (* a value between quotes *)
Abbreviation SQL := (list piece).

Definition quote : ascii := "'".
Definition quoted (s : string) : string := String quote (s +:+ String quote EmptyString).
Definition renderPiece (p : piece) : string :=
  match p with T s => s | D z => bigIntText z | Q s => quoted s end.
Fixpoint render (l : SQL) : string := match l with [] => EmptyString | p :: l' => renderPiece p +:+ render l' end.

Module SqlText.
(** ** Columns (actor_shared_sql.go) *)
Definition DefaultBigInt : Z := -1.
Definition AllColsSelector := "*".
Definition AnyValueSelector := "1".
Definition AddressCol := "address".
Definition BalanceCol := "balance".
Definition PublicKeyCol := "public_key".
Definition NameCol := "name".
Definition StakedTokensCol := "staked_tokens".
Definition ServiceURLCol := "service_url".
Definition UnusedCol := "unused".
Definition OutputAddressCol := "output_address".
Definition UnstakingHeightCol := "unstaking_height".
Definition PausedHeightCol := "paused_height".
Definition ChainIDCol := "chain_id".
Definition HeightCol := "height".

(** ** Tables *)
Definition protocolActorTableSchema (actorSpecificColName constraintName : string) : SQL :=
  [T "(
			"; T AddressCol; T " TEXT NOT NULL,
			"; T PublicKeyCol; T " TEXT NOT NULL,
			"; T StakedTokensCol; T " TEXT NOT NULL,
			"; T actorSpecificColName; T " TEXT NOT NULL,
			"; T OutputAddressCol; T " TEXT NOT NULL,
			"; T PausedHeightCol; T " BIGINT NOT NULL default "; D DefaultBigInt; T ",
			"; T UnstakingHeightCol; T " BIGINT NOT NULL default "; D DefaultBigInt; T ",
			"; T HeightCol; T " BIGINT NOT NULL default "; D DefaultBigInt; T ",

			CONSTRAINT "; T constraintName; T " UNIQUE ("; T AddressCol; T ", "; T HeightCol; T ")
		)"].
Definition protocolActorChainsTableSchema (constraintName : string) : SQL :=
  [T "(
			"; T AddressCol; T " TEXT NOT NULL,
			"; T ChainIDCol; T " CHAR(4) NOT NULL,
			"; T HeightCol; T " BIGINT NOT NULL default "; D DefaultBigInt; T ",

			CONSTRAINT "; T constraintName; T " UNIQUE ("; T AddressCol; T ", "; T ChainIDCol; T ", "; T HeightCol; T ")
		)"].
Definition protocolAccountTableSchema (accountSpecificColName constraintName : string) : SQL :=
  [T "(
			"; T accountSpecificColName; T " TEXT NOT NULL,
			"; T BalanceCol; T " TEXT NOT NULL,
			"; T HeightCol; T " BIGINT NOT NULL,

		    CONSTRAINT "; T constraintName; T " UNIQUE ("; T accountSpecificColName; T ", "; T HeightCol; T ")
		)"].

(** ** Reading *)
Definition SelectAtHeight (selector : string) (height : Z) (tableName : string) : SQL :=
  [T "SELECT "; T selector; T " FROM "; T tableName; T " WHERE height="; D height].
Definition Select (selector address : string) (height : Z) (tableName : string) : SQL :=
  [T "SELECT "; T selector; T " FROM "; T tableName; T " WHERE address="; Q address; T " AND height<="; D height;
   T " ORDER BY height DESC LIMIT 1"].
Definition SelectActors (actorSpecificParam : string) (height : Z) (tableName : string) : SQL :=
  [T "
			SELECT DISTINCT ON (address) address, public_key, staked_tokens, "; T actorSpecificParam; T ", output_address, paused_height, unstaking_height, height
			FROM "; T tableName; T "
			WHERE height<="; D height; T "
			ORDER BY address, height DESC
       "].
Definition selectChains (selector address : string) (height : Z) (actorTableName chainsTableName : string) : SQL :=
  [T "SELECT "; T selector; T " FROM "; T chainsTableName; T " WHERE address="; Q address; T " AND height=("]
    ++ Select HeightCol address height actorTableName ++ [T ");"].
Definition Exists (address : string) (height : Z) (tableName : string) : SQL :=
  [T "SELECT EXISTS("] ++ Select AnyValueSelector address height tableName ++ [T ")"].
Definition readyToUnstake (unstakingHeight : Z) (tableName : string) : SQL :=
  [T "
		SELECT address, staked_tokens, output_address
		FROM "; T tableName; T " WHERE unstaking_height="; D unstakingHeight; T "
			AND (height, address) IN (SELECT MAX(height), address FROM "; T tableName; T " GROUP BY address)"].

(** ** Writing *)
Fixpoint chainRows (address : string) (chains : list string) (height : Z) : SQL :=
  match chains with
  | [] => []
  | chain :: rest =>
      [T "
("; Q address; T ", "; Q chain; T ", "; D height; T ")"] ++ match rest with [] => [] | _ => [T ","] end ++ chainRows address rest height
  end.
Definition insertChains (address : string) (chains : list string) (height : Z) (tableName constraintName : string) : SQL :=
  [T "INSERT INTO "; T tableName; T " (address, chain_id, height) VALUES"] ++ chainRows address chains height ++
  [T "
ON CONFLICT ON CONSTRAINT "; T constraintName; T " DO NOTHING"].

Definition Insert (actor : Actor) (actorSpecificParam actorSpecificParamValue constraintName chainsConstraintName tableName chainsTableName : string)
    (height : Z) : SQL :=
  let insertStatement :=
    [T "INSERT INTO "; T tableName; T " (address, public_key, staked_tokens, "; T actorSpecificParam; T ", output_address, paused_height, unstaking_height, height)
				VALUES("; Q (Address actor); T ", "; Q (PublicKey actor); T ", "; Q (StakedAmount actor); T ", "; Q actorSpecificParamValue; T ", ";
     Q (Output actor); T ", "; D (PausedHeight actor); T ", "; D (UnstakingHeight actor); T ", "; D height; T ")
				ON CONFLICT ON CONSTRAINT "; T constraintName; T "
				DO UPDATE SET staked_tokens=EXCLUDED.staked_tokens, "; T actorSpecificParam; T "=EXCLUDED."; T actorSpecificParam; T ",
							  paused_height=EXCLUDED.paused_height, unstaking_height=EXCLUDED.unstaking_height,
							  height=EXCLUDED.height"] in
  match Chains actor with
  | None => insertStatement
  | Some chains => [T "WITH baseTableInsert AS ("] ++ insertStatement ++ [T ")
"] ++ insertChains (Address actor) chains height chainsTableName chainsConstraintName
  end.

Definition Update (address stakedTokens actorSpecificParam actorSpecificParamValue : string) (height : Z) (tableName constraintName : string) : SQL :=
  [T "INSERT INTO "; T tableName; T "(address, public_key, staked_tokens, "; T actorSpecificParam; T ", output_address, paused_height, unstaking_height, height)
			(
				SELECT address, public_key, "; Q stakedTokens; T ", "; Q actorSpecificParamValue; T ", output_address, paused_height, unstaking_height, "; D height; T "
				FROM "; T tableName; T " WHERE address="; Q address; T " AND height<="; D height; T " ORDER BY height DESC LIMIT 1
			)
		    ON CONFLICT ON CONSTRAINT "; T constraintName; T "
			DO UPDATE SET staked_tokens=EXCLUDED.staked_tokens, "; T actorSpecificParam; T "=EXCLUDED."; T actorSpecificParam; T ", height=EXCLUDED.height"].
Definition updateUnstakingHeight (address actorSpecificParam : string) (unstakingHeight height : Z) (tableName constraintName : string) : SQL :=
  [T "
		INSERT INTO "; T tableName; T "(address, public_key, staked_tokens, "; T actorSpecificParam; T ", output_address, paused_height, unstaking_height, height)
		(
			SELECT address, public_key, staked_tokens, "; T actorSpecificParam; T ", output_address, paused_height, "; D unstakingHeight; T ", "; D height; T "
			FROM "; T tableName; T " WHERE address="; Q address; T " AND height<="; D height; T " ORDER BY height DESC LIMIT 1
		)
		ON CONFLICT ON CONSTRAINT "; T constraintName; T "
			DO UPDATE SET unstaking_height=EXCLUDED.unstaking_height, height=EXCLUDED.height"].
Definition updateStakeAmount (address actorSpecificParam stakeAmount : string) (height : Z) (tableName constraintName : string) : SQL :=
  [T "
		INSERT INTO "; T tableName; T "(address, public_key, staked_tokens, "; T actorSpecificParam; T ", output_address, paused_height, unstaking_height, height)
		(
			SELECT address, public_key, "; Q stakeAmount; T ", "; T actorSpecificParam; T ", output_address, paused_height, unstaking_height, "; D height; T "
			FROM "; T tableName; T " WHERE address="; Q address; T " AND height<="; D height; T " ORDER BY height DESC LIMIT 1
		)
		ON CONFLICT ON CONSTRAINT "; T constraintName; T "
			DO UPDATE SET staked_tokens=EXCLUDED.staked_tokens, height=EXCLUDED.height"].
Definition updatePausedHeight (address actorSpecificParam : string) (pausedHeight height : Z) (tableName constraintName : string) : SQL :=
  [T "
		INSERT INTO "; T tableName; T "(address, public_key, staked_tokens, "; T actorSpecificParam; T ", output_address, paused_height, unstaking_height, height)
		(
			SELECT address, public_key, staked_tokens, "; T actorSpecificParam; T ", output_address, "; D pausedHeight; T ", unstaking_height, "; D height; T "
			FROM "; T tableName; T " WHERE address="; Q address; T " AND height<="; D height; T " ORDER BY height DESC LIMIT 1
		)
		ON CONFLICT ON CONSTRAINT "; T constraintName; T "
			DO UPDATE SET paused_height=EXCLUDED.paused_height, height=EXCLUDED.height"].
Definition updateUnstakedHeightIfPausedBefore (actorSpecificParam : string) (unstakingHeight pausedBeforeHeight height : Z) (tableName constraintName : string) : SQL :=
  [T "
		INSERT INTO "; T tableName; T " (address, public_key, staked_tokens, "; T actorSpecificParam; T ", output_address, paused_height, unstaking_height, height)
		(
			SELECT address, public_key, staked_tokens, "; T actorSpecificParam; T ", output_address, paused_height, "; D unstakingHeight; T ", "; D height; T "
			FROM "; T tableName; T " WHERE paused_height<"; D pausedBeforeHeight; T " AND paused_height>=0
				AND (height,address) IN (SELECT MAX(height),address from "; T tableName; T " GROUP BY address)
        )
		ON CONFLICT ON CONSTRAINT "; T constraintName; T "
			DO UPDATE SET unstaking_height=EXCLUDED.unstaking_height"].
Definition NullifyChains (address : string) (height : Z) (tableName : string) : SQL :=
  [T "DELETE FROM "; T tableName; T " WHERE address="; Q address; T " AND height="; D height].
Definition ClearAll (tableName : string) : SQL := [T "DELETE FROM "; T tableName].

(** ** Accounts and pools (account_shared_sql.go) *)
Definition SelectAccounts (height : Z) (colName tableName : string) : SQL :=
  [T "
			SELECT DISTINCT ON ("; T colName; T ") "; T colName; T ", balance, height
			FROM "; T tableName; T "
			WHERE height<="; D height; T "
			ORDER BY "; T colName; T ", height DESC
       "].
Definition SelectBalance (accountSpecificParam accountSpecificParamValue : string) (height : Z) (tableName : string) : SQL :=
  [T "SELECT balance FROM "; T tableName; T " WHERE "; T accountSpecificParam; T "="; Q accountSpecificParamValue; T " AND height<="; D height;
   T " ORDER BY height DESC LIMIT 1"].
Definition InsertAccount (accountSpecificParam accountSpecificParamValue amount : string) (height : Z) (tableName constraintName : string) : SQL :=
  [T "
		INSERT INTO "; T tableName; T " ("; T accountSpecificParam; T ", balance, height)
			VALUES ("; Q accountSpecificParamValue; T ","; Q amount; T ","; D height; T ")
			ON CONFLICT ON CONSTRAINT "; T constraintName; T "
			DO UPDATE SET balance=EXCLUDED.balance, height=EXCLUDED.height
		"].

(** ** Governance (gov.go) *)
Definition ValTypeName := "val_type".
Definition ParamsTableName := "params".
Definition ParamsTableSchema : SQL := [T "(
		name VARCHAR(64) NOT NULL,
		height BIGINT NOT NULL,
		type val_type NOT NULL,
		value TEXT NOT NULL,
		PRIMARY KEY(name, height)
		)"].
Definition FlagsTableName := "flags".
Definition FlagsTableSchema : SQL := [T "(
		name VARCHAR(64) NOT NULL,
		height BIGINT NOT NULL,
		type val_type NOT NULL,
		value TEXT NOT NULL,
		enabled BOOLEAN NOT NULL,
		PRIMARY KEY(name, height)
		)"].
Definition ValTypeEnumTypes : SQL := [T "(
		"; Q "STRING"; T ",
		"; Q "BIGINT"; T ",
		"; Q "SMALLINT"; T "
		)"].

(** One tuple per parameter, in the order of the names.  The value of a number column is written
    without quotes: with [%d] a text would come out as [%!d(string=...)], a list of bytes as a
    list of numbers. *)
Definition paramTuple (k poktType : string) (height : Z) (v : ParamValue) : res string SQL :=
  let start := [T "("; Q k; T ", "; D height; T ", "; Q poktType; T ", "] in
  if bool_decide (poktType = "STRING") then
    match v with
    | PVBytes vt => Ok (start ++ [Q (hexEncode (bz vt)); T ")"])
    | PVString vt => Ok (start ++ [Q vt; T ")"])
    | _ => Panic
    end
  else if bool_decide (poktType = "SMALLINT") || bool_decide (poktType = "BIGINT") then
    match v with
    | PVInt z | PVInt32 z | PVInt64 z => Ok (start ++ [D z; T ")"])
    | _ => Err "not a number"
    end
  else Panic.
Fixpoint paramTuples (params : string -> ParamValue) (height : Z) (keys : list (string * GovParamMetadata)) : res string SQL :=
  match keys with
  | [] => Ok []
  | (k, pnt) :: rest =>
      match paramTuple k (PoktType pnt) height (params k) with
      | Ok t => match paramTuples params height rest with Ok ts => Ok (t ++ match rest with [] => [] | _ => [T ","] end ++ ts) | e => e end
      | e => e
      end
  end.
Definition InsertParams (params : string -> ParamValue) (height : Z) : res string SQL :=
  match paramTuples params height GovParamMetadataMap with
  | Ok ts => Ok ([T "INSERT INTO "; T ParamsTableName; T " VALUES "] ++ ts ++
      [T " ON CONFLICT ON CONSTRAINT "; T (ParamsTableName +:+ "_pkey"); T " DO UPDATE SET value=EXCLUDED.value, type=EXCLUDED.type"])
  | e => e
  end.

Definition GetParamOrFlagQuery (tableName flagName : string) (height : Z) : SQL :=
  let fields := if bool_decide (tableName = FlagsTableName) then "value,enabled" else "value" in
  [T "SELECT "; T fields; T " FROM "; T tableName; T " WHERE name="; Q flagName; T " AND height<="; D height; T " ORDER BY height DESC LIMIT 1"].

Definition typedValue (value : ParamValue) : SQL :=
  match value with
  | PVInt v | PVInt32 v => [Q "SMALLINT"; T ", "; D v]
  | PVInt64 v => [Q "BIGINT"; T ", "; D v]
  | PVBytes v => [Q "BIGINT"; T ", "; Q (hexEncode (bz v))]
  | PVString v => [Q "STRING"; T ", "; Q v]
  end.
Definition InsertParamOrFlag (tableName name : string) (height : Z) (value : ParamValue) (enabled : option bool) : SQL :=
  let isFlags := bool_decide (tableName = FlagsTableName) in
  let fields := if isFlags then "name,height,type,value,enabled" else "name,height,type,value" in
  let upsertFields := if isFlags then "type=EXCLUDED.type,value=EXCLUDED.value,enabled=EXCLUDED.enabled" else "type=EXCLUDED.type,value=EXCLUDED.value" in
  [T "INSERT INTO "; T tableName; T "("; T fields; T ") VALUES ("; Q name; T ", "; D height; T ", "] ++ typedValue value ++
  match enabled with None => [] | Some b => [T ","; T (if b : bool then "true" else "false")] end ++
  [T ")"; T "ON CONFLICT ON CONSTRAINT "; T (tableName +:+ "_pkey"); T " DO UPDATE SET "; T upsertFields].
Definition ClearAllGovParamsQuery : SQL := [T "DELETE FROM "; T ParamsTableName].
Definition ClearAllGovFlagsQuery : SQL := [T "DELETE FROM "; T FlagsTableName].

(** ** Blocks (block.go) *)
Definition BlockTableName := "block".
Definition BlockTableSchema : SQL := [T "(
			height             BIGINT PRIMARY KEY,
			hash 	           TEXT NOT NULL,
			proposer_address   BYTEA NOT NULL,
			quorum_certificate BYTEA NOT NULL
		)"].

(** The verb [%b] prints a slice of bytes as its binary numerals between brackets. *)
Fixpoint binaryDigits (p : positive) (acc : string) : string :=
  match p with
  | xH => String "1" acc
  | xO p' => binaryDigits p' (String "0" acc)
  | xI p' => binaryDigits p' (String "1" acc)
  end.
Definition binaryNumeral (c : ascii) : string :=
  match N_of_ascii c with N0 => "0" | Npos p => binaryDigits p EmptyString end.
Fixpoint numerals (s : bytes) : string :=
  match s with
  | EmptyString => EmptyString
  | String c EmptyString => binaryNumeral c
  | String c s' => binaryNumeral c +:+ String " " (numerals s')
  end.
Definition formatB (s : slice) : string := String "[" (numerals (bz s) +:+ "]").

Definition InsertBlockQuery (height : Z) (hashString : string) (proposerAddr quorumCert : slice) : SQL :=
  [T "INSERT INTO "; T BlockTableName; T "(height, hash, proposer_address, quorum_certificate)
			VALUES("; D height; T ", "; Q hashString; T ", "; Q (formatB proposerAddr); T ", "; Q (formatB quorumCert); T ")"].
Definition GetBlockHashQuery (height : Z) : SQL := [T "SELECT hash FROM "; T BlockTableName; T " WHERE height="; D height].
Definition GetMaximumBlockHeightQuery : SQL := [T "SELECT MAX(height) FROM "; T BlockTableName].
Definition GetMinimumBlockHeightQuery : SQL := [T "SELECT MIN(height) FROM "; T BlockTableName].
Definition ClearAllBlocksQuery : SQL := [T "DELETE FROM "; T BlockTableName].
End SqlText.

(** ** The schema of an actor (base_actor.go, validator.go) *)
Module ActorSchema.
Import SqlText.
Implicit Types (actor : ProtocolActorSchema) (address : string) (height : Z).

Definition GetActorType actor : Z := actorType actor.
Definition GetTableName actor : string := tableName actor.
Definition GetChainsTableName actor : string := chainsTableName actor.
Definition GetActorSpecificColName actor : string := actorSpecificColName actor.
Definition GetTableSchema actor : SQL := protocolActorTableSchema (actorSpecificColName actor) (heightConstraintName actor).
Definition GetUpdatedAtHeightQuery actor height : SQL := SelectAtHeight AddressCol height (tableName actor).
Definition GetQuery actor address height : SQL := Select AllColsSelector address height (tableName actor).
Definition GetAllQuery actor height : SQL := SelectActors (GetActorSpecificColName actor) height (tableName actor).
Definition GetExistsQuery actor address height : SQL := Exists address height (tableName actor).
Definition GetReadyToUnstakeQuery actor (unstakingHeight : Z) : SQL := readyToUnstake unstakingHeight (tableName actor).
Definition GetOutputAddressQuery actor address height : SQL := Select OutputAddressCol address height (tableName actor).
Definition GetStakeAmountQuery actor address height : SQL := Select StakedTokensCol address height (tableName actor).
Definition GetPausedHeightQuery actor address height : SQL := Select PausedHeightCol address height (tableName actor).
Definition GetUnstakingHeightQuery actor address height : SQL := Select UnstakingHeightCol address height (tableName actor).
Definition UpdateQuery actor address (stakedTokens generic : string) height : SQL :=
  Update address stakedTokens (actorSpecificColName actor) generic height (tableName actor) (heightConstraintName actor).
Definition UpdateUnstakingHeightQuery actor address (unstakingHeight height : Z) : SQL :=
  updateUnstakingHeight address (actorSpecificColName actor) unstakingHeight height (tableName actor) (heightConstraintName actor).
Definition UpdatePausedHeightQuery actor address (pausedHeight height : Z) : SQL :=
  updatePausedHeight address (actorSpecificColName actor) pausedHeight height (tableName actor) (heightConstraintName actor).
Definition UpdateUnstakedHeightIfPausedBeforeQuery actor (pauseBeforeHeight unstakingHeight height : Z) : SQL :=
  updateUnstakedHeightIfPausedBefore (actorSpecificColName actor) unstakingHeight pauseBeforeHeight height (tableName actor) (heightConstraintName actor).
Definition SetStakeAmountQuery actor address (stakedTokens : string) height : SQL :=
  updateStakeAmount address (actorSpecificColName actor) stakedTokens height (tableName actor) (heightConstraintName actor).
Definition ClearAllQuery actor : SQL := ClearAll (tableName actor).

(** *** The operations on chains: the validator schema has none *)
Definition isValidatorSchema actor : bool := bool_decide (actorType actor = ACTOR_TYPE_VAL).
Definition onChains actor (q : SQL) : res string SQL := if isValidatorSchema actor then Panic else Ok q.
Definition GetChainsTableSchema actor : res string SQL := onChains actor (protocolActorChainsTableSchema (chainsHeightConstraintName actor)).
Definition GetChainsQuery actor address height : res string SQL :=
  onChains actor (selectChains AllColsSelector address height (tableName actor) (chainsTableName actor)).
Definition UpdateChainsQuery actor address (chains : list string) height : res string SQL :=
  onChains actor (insertChains address chains height (chainsTableName actor) (chainsHeightConstraintName actor)).
Definition ClearAllChainsQuery actor : res string SQL := onChains actor (ClearAll (chainsTableName actor)).

(** The validator schema drops the chains it is given. *)
Definition InsertQuery actor address (publicKey stakedTokens generic outputAddress : string) (pausedHeight unstakingHeight : Z)
    (chains : option (list string)) height : SQL :=
  Insert {| ActorType := 0; Address := address; PublicKey := publicKey;
            Chains := if isValidatorSchema actor then None else chains; ServiceUrl := generic; StakedAmount := stakedTokens;
            PausedHeight := pausedHeight; UnstakingHeight := unstakingHeight; Output := outputAddress |}
    (actorSpecificColName actor) generic (heightConstraintName actor) (chainsHeightConstraintName actor)
    (tableName actor) (chainsTableName actor) height.
End ActorSchema.

(** ** The schema of accounts and of pools (base_account.go, account.go, pool.go) *)
Module AccountText.
Import SqlText.
Definition tableName (account : AccountSchema) : string := match account with AccountS => "account" | PoolS => "pool" end.
Definition accountSpecificColName (account : AccountSchema) : string := match account with AccountS => AddressCol | PoolS => NameCol end.
Definition heightConstraintName (account : AccountSchema) : string :=
  match account with AccountS => "account_create_height" | PoolS => "pool_create_height" end.
Implicit Types (account : AccountSchema) (identifier : string) (height : Z).

Definition GetTableSchema account : SQL := protocolAccountTableSchema (accountSpecificColName account) (heightConstraintName account).
Definition GetAccountAmountQuery account identifier height : SQL :=
  SelectBalance (accountSpecificColName account) identifier height (tableName account).
Definition GetAccountsUpdatedAtHeightQuery account height : SQL :=
  SelectAtHeight (accountSpecificColName account +:+ "," +:+ BalanceCol) height (tableName account).
Definition GetAllQuery account height : SQL := SelectAccounts height (accountSpecificColName account) (tableName account).
Definition InsertAccountQuery account identifier (amount : string) height : SQL :=
  InsertAccount (accountSpecificColName account) identifier amount height (tableName account) (heightConstraintName account).
Definition ClearAllAccounts account : SQL := [T "DELETE FROM "; T (tableName account)].
End AccountText.
