(* ===== verification/SqlTextFacts.v ===== *)
(** What the server reads in the statements of SqlText.v.

    [lex] splits the text of a statement into characters outside and literals inside of quotes,
    by the rules of SQL: a literal ends at a quote that is not doubled, two hyphens start a
    comment that ends with the line.  For values without quotes every statement is read as the
    format it was made from, with the values as its literals ([template_lexed]); so is the
    statement that a staking message makes the persistence module execute, if its service URL and
    its chains have no quotes, which is not checked ([stake_statement_read_back],
    [stake_statement_injection]). *)

From S2P Require Import Prelude GoStd Errors Crypto CoreTypes Gov Messages Sql Persistence UnitOfWork SqlText.
From Stdlib Require Import Ascii DecimalString DecimalZ.
#[local] Open Scope string_scope.
#[local] Open Scope list_scope.
#[local] Open Scope Z_scope.

(** ** The lexical rules *)
Module SqlLexer.
Inductive token := Ch (c : ascii) | Lit (s : string).
Inductive lexState := Normal | Dash | Comment | InQuote (acc : string) | QuoteSeen (acc : string).
#[global] Instance token_eq_dec : EqDecision token.
Proof. solve_decision. Defined.

Definition hyphen : ascii := "-".
Definition newline : ascii := ascii_of_nat 10.
Definition semicolon : ascii := ";".
Definition snoc (s : string) (c : ascii) : string := s +:+ String c EmptyString.

Definition outside (c : ascii) : lexState * list token :=
  if bool_decide (c = quote) then (InQuote EmptyString, [])
  else if bool_decide (c = hyphen) then (Dash, [])
  else (Normal, [Ch c]).
Definition after (t : token) (r : lexState * list token) : lexState * list token := (r.1, t :: r.2).
Definition lexStep (st : lexState) (c : ascii) : lexState * list token :=
  match st with
  | Normal => outside c
  | Dash => if bool_decide (c = hyphen) then (Comment, []) else after (Ch hyphen) (outside c)
  | Comment => if bool_decide (c = newline) then (Normal, [Ch newline]) else (Comment, [])
  | InQuote acc => if bool_decide (c = quote) then (QuoteSeen acc, []) else (InQuote (snoc acc c), [])
  | QuoteSeen acc => if bool_decide (c = quote) then (InQuote (snoc acc quote), []) else after (Lit acc) (outside c)
  end.
Fixpoint run (st : lexState) (s : string) : lexState * list token :=
  match s with
  | EmptyString => (st, [])
  | String c s' => let '(st1, t1) := lexStep st c in let '(st2, t2) := run st1 s' in (st2, t1 ++ t2)
  end.
(** A literal without its last quote is an error. *)
Definition finish (st : lexState) : option (list token) :=
  match st with
  | Normal | Comment => Some []
  | Dash => Some [Ch hyphen]
  | InQuote _ => None
  | QuoteSeen acc => Some [Lit acc]
  end.
Definition lexFrom (st : lexState) (s : string) : option (list token) := let '(st', t) := run st s in (app t) <$> finish st'.
Definition lex (s : string) : option (list token) := lexFrom Normal s.

(** The statements of a text, without the blank ones. *)
Definition isBlank (t : token) : bool :=
  match t with Ch c => bool_decide (c ∈ [" "%char; newline; ascii_of_nat 9]) | Lit _ => false end.
Fixpoint splitStatements (l : list token) (current : list token) : list (list token) :=
  match l with
  | [] => [rev current]
  | t :: l' => if bool_decide (t = Ch semicolon) then rev current :: splitStatements l' [] else splitStatements l' (t :: current)
  end.
Definition statements (s : string) : option (list (list token)) :=
  (fun l => List.filter (fun st => negb (forallb isBlank st)) (splitStatements l [])) <$> lex s.
Definition literals (l : list token) : list string := omap (fun t => match t with Lit s => Some s | Ch _ => None end) l.

(** ** Reading a format back *)
Fixpoint chars (s : string) : list token := match s with EmptyString => [] | String c s' => Ch c :: chars s' end.
Definition tokensOf (p : piece) : list token := match p with T s => chars s | D z => chars (bigIntText z) | Q s => [Lit s] end.
Definition tokens (l : SQL) : list token := l ≫= tokensOf.

Fixpoint avoids (bad : list ascii) (s : string) : bool :=
  match s with EmptyString => true | String c s' => bool_decide (c ∉ bad) && avoids bad s' end.
Definition noQuote (s : string) : bool := avoids [quote] s.
Definition plain (s : string) : bool := avoids [quote; hyphen] s.
Definition nextOk (l : SQL) : bool :=
  match l with [] => true | T (String _ _) :: _ | D _ :: _ => true | _ => false end.
(** The format has no quotes and hyphens of its own but those around values, the values have no
    quotes, and something follows a value. *)
Fixpoint template (l : SQL) : bool :=
  match l with
  | [] => true
  | T s :: l' => plain s && template l'
  | D _ :: l' => template l'
  | Q s :: l' => noQuote s && nextOk l' && template l'
  end.

Lemma append_cons c s1 s2 : String c s1 +:+ s2 = String c (s1 +:+ s2).
Proof. reflexivity. Qed.

Lemma snoc_append acc c s : snoc acc c +:+ s = acc +:+ String c s.
Proof. unfold snoc. induction acc as [|a acc IH]; [done|]. rewrite !append_cons. by rewrite IH. Qed.

Lemma run_app st s1 s2 :
  run st (s1 +:+ s2) = let '(st1, t1) := run st s1 in let '(st2, t2) := run st1 s2 in (st2, t1 ++ t2).
Proof.
  revert st. induction s1 as [|c s1 IH]; intros st; [change (EmptyString +:+ s2) with s2; cbn [run]; by destruct (run st s2)|].
  rewrite append_cons. cbn [run].
  destruct (lexStep st c) as [st1 t1]. rewrite IH. destruct (run st1 s1) as [st2 t2], (run st2 s2) as [st3 t3]. by rewrite app_assoc.
Qed.

Lemma lexFrom_app st s1 s2 : lexFrom st (s1 +:+ s2) = let '(st1, t1) := run st s1 in (app t1) <$> lexFrom st1 s2.
Proof.
  unfold lexFrom. rewrite run_app. destruct (run st s1) as [st1 t1], (run st1 s2) as [st2 t2].
  destruct (finish st2); [|done]. cbn. by rewrite app_assoc.
Qed.

(** A character that is avoided is none of the bad ones. *)
Ltac avoid := let Heq := fresh in intros Heq; subst; match goal with Hc : _ ∉ _ |- _ => apply Hc; rewrite !elem_of_cons; tauto end.

Lemma run_plain s : plain s = true -> run Normal s = (Normal, chars s).
Proof.
  unfold plain. induction s as [|c s IH]; [done|]. cbn [avoids]. intros [Hc Hs]%andb_prop. apply bool_decide_eq_true in Hc.
  cbn [run lexStep chars]. unfold outside. rewrite !bool_decide_eq_false_2 by avoid. by rewrite IH.
Qed.

Lemma run_value acc s : noQuote s = true -> run (InQuote acc) (s +:+ String quote EmptyString) = (QuoteSeen (acc +:+ s), []).
Proof.
  unfold noQuote. revert acc. induction s as [|c s IH]; intros acc; cbn [avoids].
  - intros _. change (EmptyString +:+ String quote EmptyString) with (String quote EmptyString). cbn [run lexStep]. rewrite bool_decide_eq_true_2 by done. by rewrite string_nil_r.
  - intros [Hc%bool_decide_eq_true Hs]%andb_prop. rewrite append_cons. cbn [run lexStep]. rewrite bool_decide_eq_false_2 by avoid.
    rewrite IH by done. by rewrite snoc_append.
Qed.
Lemma run_quoted s : noQuote s = true -> run Normal (quoted s) = (QuoteSeen s, []).
Proof. intros Hs. unfold quoted. cbn [run lexStep]. unfold outside. rewrite bool_decide_eq_true_2 by done. by rewrite run_value. Qed.

Lemma lexFrom_seen v c s : c ≠ quote -> lexFrom (QuoteSeen v) (String c s) = (cons (Lit v)) <$> lexFrom Normal (String c s).
Proof.
  intros Hc. unfold lexFrom. cbn [run lexStep]. rewrite bool_decide_eq_false_2 by done. unfold after.
  destruct (outside c) as [st t]. cbn. destruct (run st s) as [st' t']. by destruct (finish st').
Qed.

(** *** Numbers *)
Lemma avoids_weaken bad bad' s : (forall c, c ∈ bad' -> c ∈ bad) -> avoids bad s = true -> avoids bad' s = true.
Proof.
  intros Hsub. induction s as [|c s IH]; [done|]. cbn. intros [Hc%bool_decide_eq_true Hs]%andb_prop. rewrite IH by done.
  rewrite bool_decide_eq_true_2; [done|]. auto.
Qed.
Lemma digits_plain u : plain (NilEmpty.string_of_uint u) = true.
Proof. unfold plain. induction u; cbn [NilEmpty.string_of_uint avoids]; [done|..]; rewrite IHu; by rewrite bool_decide_eq_true_2 by (rewrite !elem_of_cons, elem_of_nil; intuition discriminate). Qed.
Lemma numeral_plain u : plain (NilZero.string_of_uint u) = true.
Proof. destruct u; [done|apply digits_plain..]. Qed.
Lemma numeral_nonempty u : exists c s, NilZero.string_of_uint u = String c s.
Proof. destruct u; cbn; eauto. Qed.

Lemma run_number z : run Normal (bigIntText z) = (Normal, chars (bigIntText z)).
Proof.
  unfold bigIntText. destruct (Z.to_int z) as [u|u]; cbn [NilZero.string_of_int]; [by apply run_plain, numeral_plain|].
  destruct (numeral_nonempty u) as (c & s & Hu). pose proof (numeral_plain u) as Hp. rewrite Hu in *.
  pose proof (run_plain _ Hp) as Hr. cbn [run lexStep] in Hr |- *. change (outside "-") with (Dash, @nil token). cbn [lexStep].
  unfold plain in Hp. cbn [avoids] in Hp. apply andb_prop in Hp as [Hc%bool_decide_eq_true _].
  rewrite bool_decide_eq_false_2 by avoid. unfold after. destruct (outside c) as [st t]. cbn [fst snd].
  destruct (run st s) as [st' t']. injection Hr as -> Hr. cbn [app chars]. by rewrite Hr.
Qed.

(** What follows a value does not start with a quote. *)
Lemma nextOk_first l : nextOk l = true -> template l = true -> l ≠ [] -> exists c r, render l = String c r /\ c ≠ quote.
Proof.
  destruct l as [|[[|c s]|z|s] l]; try done; intros _ Ht _; cbn [render renderPiece].
  - cbn [template] in Ht. apply andb_prop in Ht as [Hp _]. unfold plain in Hp. cbn [avoids] in Hp. apply andb_prop in Hp as [Hc%bool_decide_eq_true _].
    rewrite append_cons. do 2 eexists. split; [done|]. avoid.
  - unfold bigIntText. destruct (Z.to_int z) as [u|u]; cbn [NilZero.string_of_int]; [|rewrite append_cons; by do 2 eexists].
    destruct (numeral_nonempty u) as (c & s & Hu). pose proof (numeral_plain u) as Hp. rewrite Hu in *. unfold plain in Hp. cbn [avoids] in Hp.
    apply andb_prop in Hp as [Hc%bool_decide_eq_true _]. rewrite append_cons. do 2 eexists. split; [done|]. avoid.
Qed.
Lemma nextOk_lexed v l : nextOk l = true -> template l = true -> lexFrom (QuoteSeen v) (render l) = (cons (Lit v)) <$> lexFrom Normal (render l).
Proof.
  intros Hn Ht. destruct (decide (l = [])) as [->|Hne]; [done|]. destruct (nextOk_first l Hn Ht Hne) as (c & r & -> & Hc). by apply lexFrom_seen.
Qed.

(** Every format that is a template is read back. *)
Lemma template_lexed l : template l = true -> lex (render l) = Some (tokens l).
Proof.
  unfold lex. induction l as [|p l IH]; [done|]. intros Ht. unfold tokens. cbn [mbind list_bind]. fold (tokens l).
  cbn [render]. rewrite lexFrom_app. destruct p as [s|z|s]; cbn [template renderPiece tokensOf] in *.
  - apply andb_prop in Ht as [Hp Ht]. by rewrite run_plain, IH.
  - by rewrite run_number, IH.
  - apply andb_prop in Ht as [[Hq Hn]%andb_prop Ht]. rewrite run_quoted by done. rewrite nextOk_lexed, IH by done. done.
Qed.

Lemma template_app l1 l2 : template l1 = true -> template l2 = true -> nextOk l2 = true -> l2 ≠ [] -> template (l1 ++ l2) = true.
Proof.
  intros H1 H2 Hn Hne. induction l1 as [|p l1 IH]; [done|]. destruct p as [s|z|s]; cbn [template app] in *.
  - apply andb_prop in H1 as [-> H1]. by rewrite IH.
  - by apply IH.
  - apply andb_prop in H1 as [[-> Hl]%andb_prop H1]. rewrite IH by done. destruct l1 as [|p1 l1]; [cbn [app]; by rewrite Hn|]. destruct p1 as [[|]| |]; done.
Qed.
End SqlLexer.

(** ** The statements of the persistence module *)
Module SqlSafety.
Import SqlLexer SqlText.

(** Every piece of text is without semicolons: a statement is one statement. *)
Definition single (l : SQL) : bool := forallb (fun p => match p with T s => avoids [semicolon] s | _ => true end) l.
Definition values (l : SQL) : list string := omap (fun p => match p with Q s => Some s | _ => None end) l.

Lemma literals_chars s : literals (chars s) = [].
Proof. induction s as [|c s IH]; [done|]. cbn. exact IH. Qed.
Lemma literals_app l1 l2 : literals (l1 ++ l2) = literals l1 ++ literals l2.
Proof. unfold literals. induction l1 as [|[c|s] l1 IH]; [done|..]; cbn; by rewrite IH. Qed.
Lemma literals_tokens l : literals (tokens l) = values l.
Proof.
  unfold tokens, values. induction l as [|p l IH]; [done|]. cbn [mbind list_bind omap list_omap]. rewrite literals_app, IH.
  destruct p; cbn [tokensOf]; by rewrite ?literals_chars.
Qed.

Lemma avoids_chars bad s c : avoids bad s = true -> c ∈ bad -> Ch c ∉ chars s.
Proof.
  induction s as [|x s IH]; intros Ha Hc; [by apply not_elem_of_nil|]. cbn [avoids chars] in *. apply andb_prop in Ha as [Hx%bool_decide_eq_true Ha].
  apply not_elem_of_cons. split; [congruence|by apply IH].
Qed.
Lemma digits_no_semicolon u : avoids [semicolon] (NilEmpty.string_of_uint u) = true.
Proof. induction u; cbn [NilEmpty.string_of_uint avoids]; [done|..]; rewrite IHu; by rewrite bool_decide_eq_true_2 by (rewrite !elem_of_cons, elem_of_nil; intuition discriminate). Qed.
Lemma number_no_semicolon z : avoids [semicolon] (bigIntText z) = true.
Proof. unfold bigIntText. destruct (Z.to_int z) as [u|u]; cbn [NilZero.string_of_int]; destruct u; try done; first [apply digits_no_semicolon | apply (digits_no_semicolon)]. Qed.

Lemma single_tokens l : single l = true -> Ch semicolon ∉ tokens l.
Proof.
  unfold single, tokens. induction l as [|p l IH]; intros Hs; [by apply not_elem_of_nil|]. cbn [forallb mbind list_bind] in *.
  apply andb_prop in Hs as [Hp Hs]. rewrite elem_of_app. intros [Hin|Hin]; [|by apply IH].
  destruct p as [s|z|s]; cbn [tokensOf] in Hin.
  - eapply avoids_chars in Hin; [done|done|by left].
  - eapply avoids_chars in Hin; [done|apply number_no_semicolon|by left].
  - by apply list_elem_of_singleton in Hin.
Qed.

Lemma split_single l cur : Ch semicolon ∉ l -> splitStatements l cur = [rev cur ++ l].
Proof.
  revert cur. induction l as [|t l IH]; intros cur Hl; cbn [splitStatements]; [by rewrite app_nil_r|].
  apply not_elem_of_cons in Hl as [Ht Hl]. rewrite bool_decide_eq_false_2 by congruence. rewrite IH by done. cbn [rev]. by rewrite <- app_assoc.
Qed.

Lemma lit_not_blank l v : Lit v ∈ l -> forallb isBlank l = false.
Proof. induction l as [|t l IH]; [by intros ?%elem_of_nil|]. intros [<-|Hin]%elem_of_cons; [done|]. cbn. by rewrite IH, andb_false_r. Qed.

Lemma lit_in_tokens l v : Q v ∈ l -> Lit v ∈ tokens l.
Proof. intros Hv. apply list_elem_of_bind. exists (Q v). by split; [apply list_elem_of_singleton|]. Qed.

(** A template without semicolons and with a value is read as one statement, whose literals are
    the values. *)
Lemma template_one_statement l v :
  template l = true -> single l = true -> Q v ∈ l ->
  statements (render l) = Some [tokens l] /\ literals (tokens l) = values l.
Proof.
  intros Ht Hs Hv. split; [|apply literals_tokens]. unfold statements. rewrite template_lexed by done. cbn [fmap option_fmap option_map].
  rewrite split_single by by apply single_tokens. cbn [rev app List.filter]. by rewrite (lit_not_blank _ v) by by apply lit_in_tokens.
Qed.

(** *** Values that never have quotes *)
Lemma noQuote_cons c s : c ≠ quote -> noQuote s = true -> noQuote (String c s) = true.
Proof. intros Hc Hs. unfold noQuote. cbn [avoids]. rewrite bool_decide_eq_true_2; [exact Hs|]. by rewrite list_elem_of_singleton. Qed.
Lemma noQuote_plain s : plain s = true -> noQuote s = true.
Proof. apply avoids_weaken. intros c ->%list_elem_of_singleton. by left. Qed.
Lemma hexDigit_no_quote n : hexDigit n ≠ quote.
Proof. do 16 (destruct n as [|n]; [done|]). unfold hexDigit. replace (String.get _ _) with (@None ascii); [done|]. by destruct n. Qed.
Lemma hex_no_quote s : noQuote (hexEncode s) = true.
Proof. induction s as [|c s IH]; [done|]. cbn [hexEncode]. by do 2 (apply noQuote_cons; [apply hexDigit_no_quote|]). Qed.

Lemma uint_text_plain s d : NilZero.uint_of_string s = Some d -> plain s = true.
Proof.
  destruct s as [|c s]; [done|]. change (NilZero.uint_of_string (String c s)) with (NilEmpty.uint_of_string (String c s)).
  intros Hd%NilEmpty.sus. rewrite <- Hd. apply digits_plain.
Qed.
Lemma int_text_no_quote s z : bigIntSetString s = Some z -> noQuote s = true.
Proof.
  assert (forall s d, NilZero.int_of_string s = Some d -> noQuote s = true) as Hint.
  { intros s' d. destruct s' as [|c s']; [done|]. unfold NilZero.int_of_string. destruct (Ascii.eqb c "-") eqn:Hc.
    - apply Ascii.eqb_eq in Hc as ->. destruct (NilZero.uint_of_string s') eqn:Hu; [|done]. intros _.
      apply noQuote_cons; [done|]. by eapply noQuote_plain, uint_text_plain.
    - destruct (NilZero.uint_of_string (String c s')) eqn:Hu; [|done]. intros _. by eapply noQuote_plain, uint_text_plain. }
  destruct s as [|c s']; [done|]. destruct (decide (c = "+"%char)) as [->|Hc].
  - cbn [bigIntSetString]. destruct (NilZero.uint_of_string s') eqn:Hu; [|done]. intros _. apply noQuote_cons; [done|].
    by eapply noQuote_plain, uint_text_plain.
  - replace (bigIntSetString (String c s')) with (Z.of_int <$> NilZero.int_of_string (String c s')).
    + destruct (NilZero.int_of_string _) eqn:Hi; [|done]. intros _. by eapply Hint.
    + destruct c as [b0 b1 b2 b3 b4 b5 b6 b7]; destruct b0, b1, b2, b3, b4, b5, b6, b7; done.
Qed.

(** *** Inserting an actor *)

(** The statement of [InsertActor]. *)
Definition InsertActorStatement (actorSchema : ProtocolActorSchema) (actor : Actor) (height : Z) : SQL :=
  ActorSchema.InsertQuery actorSchema (Address actor) (PublicKey actor) (StakedAmount actor) (ServiceUrl actor) (Output actor)
    (PausedHeight actor) (UnstakingHeight actor) (Chains actor) height.

(** The row a staking message inserts, with its schema. *)
Definition stakeInsert `{CryptoPrims} (message : MessageStake) (publicKey : bytes) : option (ProtocolActorSchema * Actor) :=
  let address := PublicKey_Address publicKey in
  let output := bz (stake_OutputAddress message) in
  let row atype url chains := mkActor atype address publicKey output url (stake_Amount message) chains UnitOfWork.HeightNotUsed UnitOfWork.HeightNotUsed in
  UnitOfWork.switchActor (stake_ActorType message)
    (Some (ApplicationActor, row ACTOR_TYPE_APP "" (stake_Chains message)))
    (Some (FishermanActor, row ACTOR_TYPE_FISH (stake_ServiceUrl message) (stake_Chains message)))
    (Some (ServicerActor, row ACTOR_TYPE_SERVICER (stake_ServiceUrl message) (stake_Chains message)))
    (Some (ValidatorActor, row ACTOR_TYPE_VAL (stake_ServiceUrl message) None)) None.

Ltac solve_template := cbn [template app]; repeat (apply andb_true_intro; split); first [done | vm_compute; reflexivity | assumption].

Lemma chainRows_template address chains h :
  noQuote address = true -> Forall (fun c => noQuote c = true) chains -> template (chainRows address chains h) = true /\ single (chainRows address chains h) = true.
Proof.
  intros Ha. induction 1 as [|c chains Hc _ [IHt IHs]]; [done|]. cbn [chainRows]. destruct chains as [|c' chains].
  - split; [solve_template|done].
  - set (rest := chainRows address (c' :: chains) h) in *. split; [|done].
    cbn [template app]. rewrite IHt. solve_template.
Qed.

Lemma values_app l1 l2 : values (l1 ++ l2) = values l1 ++ values l2.
Proof. unfold values. induction l1 as [|[s|z|s] l1 IH]; [done|..]; cbn; by rewrite IH. Qed.
Lemma single_app l1 l2 : single (l1 ++ l2) = single l1 && single l2.
Proof. unfold single. apply forallb_app. Qed.
Lemma chainRows_values address chains h : values (chainRows address chains h) = chains ≫= (fun c => [address; c]).
Proof.
  induction chains as [|c chains IH]; [done|]. cbn [chainRows]. rewrite !values_app, IH. by destruct chains.
Qed.

Definition quotelessActor (a : Actor) : Prop :=
  Forall (fun v => noQuote v = true) ([Address a; PublicKey a; StakedAmount a; ServiceUrl a; Output a] ++ default [] (Chains a)).

Lemma insert_template s a h :
  s ∈ [ApplicationActor; FishermanActor; ServicerActor; ValidatorActor] -> quotelessActor a ->
  template (InsertActorStatement s a h) = true /\ single (InsertActorStatement s a h) = true.
Proof.
  unfold quotelessActor. rewrite !Forall_app, !Forall_cons. intros Hs [(Ha & Hk & Ht & Hu & Ho & _) Hc].
  unfold InsertActorStatement, ActorSchema.InsertQuery, Insert, insertChains.
  assert (forall chains, Chains a = Some chains -> template (chainRows (Address a) chains h) = true /\ single (chainRows (Address a) chains h) = true) as Hrows.
  { intros chains Hch. rewrite Hch in Hc. by apply chainRows_template. }
  rewrite !elem_of_cons, elem_of_nil in Hs. destruct Hs as [->|[->|[->|[->|[]]]]]; cbn [ActorSchema.isValidatorSchema actorType Address PublicKey StakedAmount ServiceUrl Output Chains PausedHeight UnstakingHeight
      ApplicationActor FishermanActor ServicerActor ValidatorActor actorSpecificColName heightConstraintName chainsHeightConstraintName tableName chainsTableName];
    unfold ActorSchema.isValidatorSchema; cbn [actorType ApplicationActor FishermanActor ServicerActor ValidatorActor];
    try (rewrite bool_decide_eq_false_2 by done; destruct (Chains a) as [chains|] eqn:Hch;
      [destruct (Hrows _ eq_refl) as [Hrt Hrs]; split;
        [cbn [template app]; repeat (apply andb_true_intro; split); first [done | assumption | apply template_app; [exact Hrt|solve_template|done|done] | vm_compute; reflexivity]
        |rewrite !single_app, Hrs; vm_compute; reflexivity]
      |split; [solve_template|vm_compute; reflexivity]]).
  rewrite bool_decide_eq_true_2 by done. split; [solve_template|vm_compute; reflexivity].
Qed.

(** The values of the statement: the columns, and the address with each of the chains. *)
Definition insertedValues (s : ProtocolActorSchema) (a : Actor) : list string :=
  [Address a; PublicKey a; StakedAmount a; ServiceUrl a; Output a] ++
  (if ActorSchema.isValidatorSchema s then [] else default [] (Chains a) ≫= (fun c => [Address a; c])).
Lemma insert_values s a h : values (InsertActorStatement s a h) = insertedValues s a.
Proof.
  unfold InsertActorStatement, ActorSchema.InsertQuery, Insert, insertChains, insertedValues. cbn [Address PublicKey StakedAmount ServiceUrl Output Chains PausedHeight UnstakingHeight].
  destruct (ActorSchema.isValidatorSchema s); [done|]. destruct (Chains a) as [chains|]; [|done].
  rewrite !values_app, chainRows_values. cbn. by rewrite app_nil_r.
Qed.
Lemma insert_has_value s a h : Q (Address a) ∈ InsertActorStatement s a h.
Proof.
  unfold InsertActorStatement, ActorSchema.InsertQuery, Insert. cbn [Address PublicKey StakedAmount ServiceUrl Output Chains PausedHeight UnstakingHeight].
  destruct (if _ : bool then None else Chains a); rewrite ?elem_of_app; [right; left|]; rewrite !elem_of_cons; tauto.
Qed.

Section staking.
Context `{Codec} `{CryptoPrims}.

(** The message that is inserted is the row of [handleStakeMessage]. *)
Lemma stake_inserts message publicKey (dflt : UnitOfWork.UM unit) :
  let address := PublicKey_Address publicKey in
  let output := bz (stake_OutputAddress message) in
  UnitOfWork.switchActor (stake_ActorType message)
    (UnitOfWork.write ErrInsert (InsertApp address publicKey output (stake_Amount message) (stake_Chains message) UnitOfWork.HeightNotUsed UnitOfWork.HeightNotUsed))
    (UnitOfWork.write ErrInsert (InsertFisherman address publicKey output (stake_ServiceUrl message) (stake_Amount message) (stake_Chains message) UnitOfWork.HeightNotUsed UnitOfWork.HeightNotUsed))
    (UnitOfWork.write ErrInsert (InsertServicer address publicKey output (stake_ServiceUrl message) (stake_Amount message) (stake_Chains message) UnitOfWork.HeightNotUsed UnitOfWork.HeightNotUsed))
    (UnitOfWork.write ErrInsert (InsertValidator address publicKey output (stake_ServiceUrl message) (stake_Amount message) UnitOfWork.HeightNotUsed UnitOfWork.HeightNotUsed))
    dflt
  = match stakeInsert message publicKey with Some (s, a) => UnitOfWork.write ErrInsert (InsertActor s a) | None => dflt end.
Proof. unfold stakeInsert, UnitOfWork.switchActor. by repeat case_bool_decide. Qed.

Lemma valid_stake_amount message :
  Message_ValidateBasic (MStake message) = Ok None -> noQuote (stake_Amount message) = true.
Proof.
  cbn [Message_ValidateBasic]. destruct (validatePublicKey _); [done|]. destruct (validateOutputAddress _); [done|].
  unfold validateStaker, validateAmount. destruct (validateActorType _); [done|]. case_bool_decide; [done|].
  unfold StringToBigInt. destruct (bigIntSetString (stake_Amount message)) eqn:Ha; [|done]. intros _. by eapply int_text_no_quote.
Qed.

(** C14: a staking message that passes validation, and whose service URL and chains have no
    quotes, makes the persistence module send a text that the server reads as one statement: the
    insertion of the row, with exactly the values of the message as its literals.  Address, key,
    amount and output address can have no quotes, so nothing is asked of them. *)
Theorem stake_statement_read_back (message : MessageStake) (publicKey : bytes) (s : ProtocolActorSchema) (a : Actor) (h : Z) :
  Message_ValidateBasic (MStake message) = Ok None ->
  stakeInsert message publicKey = Some (s, a) ->
  noQuote (stake_ServiceUrl message) = true -> Forall (fun c => noQuote c = true) (default [] (stake_Chains message)) ->
  exists ts, statements (render (InsertActorStatement s a h)) = Some [ts] /\ ts = tokens (InsertActorStatement s a h) /\ literals ts = insertedValues s a.
Proof.
  intros Hv Hi Hu Hc. eexists. split; [|split; [reflexivity|by rewrite literals_tokens, insert_values]].
  assert (quotelessActor a /\ s ∈ [ApplicationActor; FishermanActor; ServicerActor; ValidatorActor]) as [Hq Hs].
  { apply valid_stake_amount in Hv. unfold stakeInsert, UnitOfWork.switchActor in Hi. unfold quotelessActor.
    repeat case_bool_decide; try done; injection Hi as <- <-; cbn [Address PublicKey StakedAmount ServiceUrl Output Chains mkActor];
      (split; [|rewrite !elem_of_cons; tauto]); rewrite Forall_app, !Forall_cons; split_and!; try apply hex_no_quote; done. }
  destruct (insert_template s a h Hs Hq) as [Ht Hsg]. eapply template_one_statement; [done|done|apply insert_has_value].
Qed.
End staking.

(** *** A value with quotes *)
Lemma append_assoc s1 s2 s3 : (s1 +:+ s2) +:+ s3 = s1 +:+ (s2 +:+ s3).
Proof. induction s1 as [|c s1 IH]; [done|]. rewrite !append_cons. by rewrite IH. Qed.

Lemma quoted_append s rest : quoted s +:+ rest = String quote (s +:+ String quote rest).
Proof. unfold quoted. rewrite append_cons, append_assoc. done. Qed.

Lemma run_comment s : avoids [newline] s = true -> run Comment s = (Comment, []).
Proof.
  induction s as [|c s IH]; [done|]. cbn [avoids]. intros [Hc%bool_decide_eq_true Hs]%andb_prop. cbn [run lexStep].
  rewrite bool_decide_eq_false_2 by (by rewrite list_elem_of_singleton in Hc). by rewrite IH.
Qed.
Lemma hex_no_newline s : avoids [newline] (hexEncode s) = true.
Proof.
  assert (forall n, hexDigit n ∉ [newline]) as Hd.
  { intros n. rewrite list_elem_of_singleton. do 16 (destruct n as [|n]; [done|]). unfold hexDigit. replace (String.get _ _) with (@None ascii); [done|]. by destruct n. }
  induction s as [|c s IH]; [done|]. cbn [hexEncode avoids]. by rewrite !bool_decide_eq_true_2, IH.
Qed.
Lemma avoids_append bad s1 s2 : avoids bad (s1 +:+ s2) = avoids bad s1 && avoids bad s2.
Proof. induction s1 as [|c s1 IH]; [done|]. rewrite append_cons. cbn [avoids]. by rewrite IH, andb_assoc. Qed.

(** A comment up to the end of the line is not read. *)
Lemma lex_comment s rest : avoids [newline] s = true -> lexFrom Normal ("--" +:+ s +:+ String newline rest) = (cons (Ch newline)) <$> lexFrom Normal rest.
Proof.
  intros Hs. rewrite lexFrom_app. change (run Normal "--") with (Comment, @nil token). cbn [app]. rewrite lexFrom_app, run_comment by done.
  unfold lexFrom at 1. cbn [run lexStep]. rewrite bool_decide_eq_true_2 by done. unfold lexFrom. destruct (run Normal rest) as [st t]. by destruct (finish st).
Qed.

(** A template that ends with text, followed by something else. *)
Definition closed (l : SQL) : bool := match last l with Some (Q _) => false | _ => true end.
Lemma template_then l rest : template l = true -> closed l = true -> lexFrom Normal (render l +:+ rest) = (app (tokens l)) <$> lexFrom Normal rest.
Proof.
  induction l as [|p l IH]; intros Ht Hcl; [change (render [] +:+ rest) with rest; by destruct (lexFrom _ _)|].
  unfold tokens. cbn [render mbind list_bind]. fold (tokens l). rewrite append_assoc, lexFrom_app.
  assert (template l = true) as Htl by (destruct p; cbn [template] in Ht; [by apply andb_prop in Ht as [_ ?]|done|by apply andb_prop in Ht as [_ ?]]).
  assert (lexFrom Normal (render l +:+ rest) = (app (tokens l)) <$> lexFrom Normal rest) as Hr.
  { destruct l as [|p' l']; [by apply IH|]. by apply IH. }
  destruct p as [s|z|s]; cbn [renderPiece tokensOf template] in *.
  - apply andb_prop in Ht as [Hp _]. rewrite run_plain, Hr by done. destruct (lexFrom Normal rest); [|done]. cbn. by rewrite app_assoc.
  - rewrite run_number, Hr by done. destruct (lexFrom Normal rest); [|done]. cbn. by rewrite app_assoc.
  - apply andb_prop in Ht as [[Hq Hn]%andb_prop _]. rewrite run_quoted by done. destruct (decide (l = [])) as [->|Hne]; [done|].
    destruct (nextOk_first l Hn Htl Hne) as (c & r & Hl & Hc). rewrite Hl, append_cons in Hr |- *. rewrite lexFrom_seen, Hr by done. by destruct (lexFrom Normal rest).
Qed.

(** The service URL of a message that is valid and brings its own statements.  It closes the
    literal and the statement, adds an update of a balance and starts another insertion, which the
    rest of the format completes. *)
Definition evilURL : string := "https://a.b/', '', 0, 0, 0); UPDATE account SET balance='1000000000' WHERE address='cafe'; INSERT INTO validator (address, public_key, staked_tokens, service_url, output_address, paused_height, unstaking_height, height) VALUES('x', 'x', '1', 'x', 'x', 0, 0, 7) --:8080".
Definition evilStake (publicKey output : bytes) : MessageStake :=
  {| stake_ActorType := ACTOR_TYPE_VAL; stake_PublicKey := Some publicKey; stake_Chains := Some ["0001"]; stake_Amount := "1000000";
     stake_ServiceUrl := evilURL; stake_OutputAddress := Some output; stake_Signer := Some output |}.

Section injection.
Context `{Codec} `{CryptoPrims}.

Definition evilHead (publicKey : bytes) : SQL :=
  [T "INSERT INTO "; T "validator"; T " (address, public_key, staked_tokens, "; T "service_url"; T ", output_address, paused_height, unstaking_height, height)
				VALUES("; Q (hexEncode (PublicKey_Address publicKey)); T ", "; Q (hexEncode publicKey); T ", "; Q "1000000"; T ", ";
   Q "https://a.b/"; T ", "; Q ""; T ", 0, 0, 0)"].
Definition evilUpdate : SQL := [T " UPDATE account SET balance="; Q "1000000000"; T " WHERE address="; Q "cafe"].
Definition evilTail : SQL :=
  [T " INSERT INTO validator (address, public_key, staked_tokens, service_url, output_address, paused_height, unstaking_height, height) VALUES(";
   Q "x"; T ", "; Q "x"; T ", "; Q "1"; T ", "; Q "x"; T ", "; Q "x"; T ", 0, 0, 7) "].
Definition evilComment (output : bytes) : string := ":8080', '" +:+ hexEncode output +:+ "', -1, -1, 7)".
Definition evilRest : SQL :=
  [T "				ON CONFLICT ON CONSTRAINT "; T "validator_node_height"; T "
				DO UPDATE SET staked_tokens=EXCLUDED.staked_tokens, "; T "service_url"; T "=EXCLUDED."; T "service_url"; T ",
							  paused_height=EXCLUDED.paused_height, unstaking_height=EXCLUDED.unstaking_height,
							  height=EXCLUDED.height"].

Lemma evil_text publicKey output :
  exists a, stakeInsert (evilStake publicKey output) publicKey = Some (ValidatorActor, a) /\
  render (InsertActorStatement ValidatorActor a 7) =
  render (evilHead publicKey ++ [T (String semicolon EmptyString)] ++ evilUpdate ++ [T (String semicolon EmptyString)] ++ evilTail) +:+ "--" +:+ evilComment output +:+ String newline (render evilRest).
Proof.
  eexists. split; [reflexivity|]. unfold InsertActorStatement, ActorSchema.InsertQuery, Insert, ActorSchema.isValidatorSchema.
  cbn [actorType ValidatorActor]. rewrite bool_decide_eq_true_2 by done.
  cbn [Address PublicKey StakedAmount ServiceUrl Output Chains PausedHeight UnstakingHeight mkActor bz default stake_OutputAddress stake_Amount stake_ServiceUrl evilStake
    actorSpecificColName heightConstraintName tableName ValidatorActor evilHead evilUpdate evilTail evilRest app render renderPiece].
  unfold evilComment. rewrite ?append_assoc, !quoted_append. reflexivity.
Qed.

Lemma split_at l1 l2 cur : Ch semicolon ∉ l1 -> splitStatements (l1 ++ Ch semicolon :: l2) cur = (rev cur ++ l1) :: splitStatements l2 [].
Proof.
  revert cur. induction l1 as [|t l1 IH]; intros cur Hl; cbn [splitStatements app].
  - rewrite bool_decide_eq_true_2 by done. by rewrite app_nil_r.
  - apply not_elem_of_cons in Hl as [Ht Hl]. rewrite bool_decide_eq_false_2 by congruence. rewrite IH by done. cbn [rev]. by rewrite <- app_assoc.
Qed.
Lemma tokens_app l1 l2 : tokens (l1 ++ l2) = tokens l1 ++ tokens l2.
Proof. apply bind_app. Qed.

(** C15: a staking message that is valid makes the persistence module send three statements,
    one of which sets the balance of an account, whatever the key and the output address: the
    validation of the service URL looks at its prefix, its colons and its port only, and the
    statement is made by pasting the URL between quotes. *)
Theorem stake_statement_injection (publicKey output : bytes) :
  blen publicKey = Crypto.PublicKeySize -> blen output = Crypto.AddressLen -> parseRequestURI (stringsToLower evilURL) = None ->
  Message_ValidateBasic (MStake (evilStake publicKey output)) = Ok None /\
  exists a s1 s3, stakeInsert (evilStake publicKey output) publicKey = Some (ValidatorActor, a) /\
    statements (render (InsertActorStatement ValidatorActor a 7)) = Some [s1; tokens evilUpdate; s3].
Proof.
  intros Hk Ho Hp. split.
  { cbn [Message_ValidateBasic evilStake stake_PublicKey stake_OutputAddress validatePublicKey validateOutputAddress].
    rewrite !bool_decide_eq_false_2 by (rewrite ?Hk, ?Ho; congruence). unfold validateStaker. cbn [stake_ActorType stake_Amount stake_Chains stake_ServiceUrl].
    unfold validateServiceURL. cbv zeta. change (stake_ServiceUrl (evilStake publicKey output)) with evilURL. rewrite Hp. vm_compute. reflexivity. }
  destruct (evil_text publicKey output) as (a & Ha & Htext). exists a. do 2 eexists. split; [exact Ha|]. rewrite Htext.
  unfold statements, lex. rewrite template_then; [|cbn [app evilHead evilUpdate evilTail]; pose proof (hex_no_quote publicKey); pose proof (hex_no_quote (PublicKey_Address publicKey)); solve_template|reflexivity].
  rewrite lex_comment by (unfold evilComment; rewrite !avoids_append, hex_no_newline; vm_compute; reflexivity).
  change (lexFrom Normal) with lex. rewrite template_lexed by (vm_compute; reflexivity). cbn [fmap option_fmap option_map].
  rewrite !tokens_app. change (tokens [T (String semicolon EmptyString)]) with [Ch semicolon]. rewrite <- !app_assoc. cbn [app].
  rewrite split_at by (apply single_tokens; vm_compute; reflexivity). rewrite split_at by (apply single_tokens; vm_compute; reflexivity).
  rewrite split_single; [|rewrite elem_of_app, elem_of_cons; intros [Hin|[Hin|Hin]]; [revert Hin; apply single_tokens; vm_compute; reflexivity|done|revert Hin; apply single_tokens; vm_compute; reflexivity]].
  cbn [rev app List.filter]. reflexivity.
Qed.
End injection.
End SqlSafety.

(** ** Concrete messages *)
Module ToySql.
Import SqlLexer SqlSafety.
#[local] Instance prims : CryptoPrims := ToyCrypto.prims.
#[local] Instance codec : Codec := ToyCodec.codec.

Definition key : bytes := "0123456789abcdef0123456789abcdef".
Definition out : bytes := "0123456789abcdef0123".
Definition stake : MessageStake :=
  {| stake_ActorType := ACTOR_TYPE_SERVICER; stake_PublicKey := Some key; stake_Chains := Some ["0001"]; stake_Amount := "500";
     stake_ServiceUrl := "https://a.b:8080"; stake_OutputAddress := Some out; stake_Signer := Some out |}.
Definition row : Actor := mkActor ACTOR_TYPE_SERVICER (PublicKey_Address key) key out "https://a.b:8080" "500" (Some ["0001"]) (-1) (-1).

Lemma stake_statement_read_back_witness :
  exists ts, statements (render (InsertActorStatement ServicerActor row 7)) = Some [ts] /\ ts = tokens (InsertActorStatement ServicerActor row 7) /\
    literals ts = [Address row; PublicKey row; "500"; "https://a.b:8080"; Output row; Address row; "0001"].
Proof.
  apply (stake_statement_read_back stake key ServicerActor row 7); [vm_compute; reflexivity|reflexivity|reflexivity|].
  constructor; [reflexivity|constructor].
Defined.

Lemma stake_statement_injection_witness :
  Message_ValidateBasic (MStake (evilStake key out)) = Ok None /\
  exists a s1 s3, stakeInsert (evilStake key out) key = Some (ValidatorActor, a) /\
    statements (render (InsertActorStatement ValidatorActor a 7)) = Some [s1; tokens evilUpdate; s3].
Proof. apply (stake_statement_injection key out); vm_compute; reflexivity. Defined.
End ToySql.
