(* ===== verification/ConsTypes.v ===== *)
(** The vocabulary of the consensus module (src/consensus/types, src/consensus/leader_election,
    the pure helpers of src/consensus/helpers.go): messages, quorum certificates, errors, the
    numbering of validators, leader election and the quorum threshold.

    Protobuf enums are open, so steps and message types are integers; a pointer that the code
    tests against nil is an [option]; [bytes] fields are [slice]s (nil or bytes).  The encoder
    is the class [HotstuffCodec]. *)

From S2P Require Import Prelude GoStd GoSort Errors Crypto CoreTypes Persistence.
#[local] Open Scope string_scope.
#[local] Open Scope Z_scope.

(** ** Steps and message types *)
Definition NewRound : Z := 1.
Definition Prepare : Z := 2.
Definition PreCommit : Z := 3.
Definition Commit_ : Z := 4.
Definition Decide : Z := 5.
Definition HotstuffSteps : list Z := [NewRound; Prepare; PreCommit; Commit_; Decide].

Definition Propose : Z := 1.
Definition Vote : Z := 2.

(** ** Messages (types/proto/hotstuff.proto) *)
Record PartialSignature := { ps_Signature : slice; ps_Address : string }.

Record QuorumCertificate := {
  qc_Height : Z; qc_Round : Z; qc_Step : Z; qc_Block : option Block;
  qc_ThresholdSignature : option (list PartialSignature) }.

Inductive Justification :=
| JNone
| JQuorumCertificate (qc : QuorumCertificate)
| JThresholdSignature (sigs : list PartialSignature)
| JPartialSignature (ps : PartialSignature).

Record HotstuffMessage := {
  hm_Type : Z; hm_Height : Z; hm_Step : Z; hm_Round : Z; hm_Block : option Block;
  hm_Justification : Justification }.

Definition GetQuorumCertificate (msg : HotstuffMessage) : option QuorumCertificate :=
  match hm_Justification msg with JQuorumCertificate qc => Some qc | _ => None end.
Definition GetPartialSignature (msg : HotstuffMessage) : option PartialSignature :=
  match hm_Justification msg with JPartialSignature ps => Some ps | _ => None end.

(** State-sync messages (types/proto/state_sync.proto). *)
Inductive StateSyncMessage :=
| MetadataReq (peerAddress : string)
| MetadataRes (peerAddress : string) (minHeight maxHeight : Z)
| GetBlockReq (peerAddress : string) (height : Z)
| GetBlockRes (peerAddress : string) (block : Block)
| UnspecifiedStateSync.

(** ** The encoder: [None] where [proto.Marshal] or [proto.Unmarshal] fails *)
Class HotstuffCodec := {
  marshalBlock : Block -> option bytes;
  marshalMsg : HotstuffMessage -> option bytes;
  unmarshalMsg : bytes -> option HotstuffMessage;
  marshalQC : QuorumCertificate -> option bytes;
  unmarshalQC : bytes -> option QuorumCertificate;
}.

(** Decoding an encoded message gives back its view (its other fields up to nil slices). *)
Class HotstuffCodecLaws (HC : HotstuffCodec) : Prop := {
  codec_msg_view : forall msg b, marshalMsg msg = Some b ->
    exists msg', unmarshalMsg b = Some msg' /\ hm_Type msg' = hm_Type msg /\ hm_Height msg' = hm_Height msg /\
      hm_Step msg' = hm_Step msg /\ hm_Round msg' = hm_Round msg;
}.

(** What decoding makes of a block: an empty bytes field of the header is nil afterwards. *)
Definition wireSlice (s : slice) : slice :=
  match s with Some EmptyString => None | _ => s end.
Definition wireBlock (b : Block) : Block := {|
  b_Header := (fun h => {| bh_Height := bh_Height h; bh_NetworkId := bh_NetworkId h; bh_StateHash := bh_StateHash h;
    bh_PrevStateHash := bh_PrevStateHash h; bh_ProposerAddress := wireSlice (bh_ProposerAddress h);
    bh_QuorumCertificate := wireSlice (bh_QuorumCertificate h); bh_Timestamp := bh_Timestamp h |}) <$> b_Header b;
  b_Transactions := b_Transactions b |}.

(** Decoding an encoded message gives back its block. *)
Class HotstuffCodecBlocks (HC : HotstuffCodec) : Prop := {
  codec_msg_block : forall msg b msg', marshalMsg msg = Some b -> unmarshalMsg b = Some msg' ->
    hm_Block msg' = wireBlock <$> hm_Block msg;
}.

(** ** Errors (types/messages.go): one constructor per error value or error function *)
Inductive ConsErr :=
| ErrNilBlock | ErrBlockExists | ErrNilBlockProposal | ErrNilBlockVote | ErrProposalNotValidInPrepare
| ErrNilQC | ErrNilQCProposal | ErrNilBlockInQC | ErrNilThresholdSigInQC | ErrNotEnoughSignatures
| ErrNodeLockedPastHeight | ErrNodeLockedPastRound | ErrUnhandledProposalCase
| ErrUnnecessaryPartialSigForNewRound | ErrUnnecessaryPartialSigForLeaderProposal
| ErrNilPartialSig | ErrNilPartialSigOrSourceNotSpecified | ErrOlderMessage | ErrFutureMessage
| ErrSelfProposal | ErrOlderStepRound | ErrUnexpectedPacemakerCase | ErrConsensusMempoolFull
| ErrApplyBlock | ErrPrepareBlock | ErrCommitBlock | ErrReplicaPrepareBlock | ErrSendMessage
| ErrBroadcastMessage | ErrCreateConsensusMessage | ErrCreateStateSyncMessage | ErrNoQcInReceivedBlock
| ErrBlockRetrievalMessage | ErrHotstuffValidation | ErrNilLeaderId | ErrNewPersistenceReadContext
| ErrPersistenceGetAllValidators | ErrSendingStateTransition
| ErrInvalidBlockSize (blockSize maxSize : Z)
| ErrInvalidStateHash (blockHeaderHash stateHash : string)
| ErrByzantineThresholdCheck (n : Z) (threshold : bigFloat)
| ErrSendingStateTransitionEvent (event : Z)
| ErrMissingValidator (address : string) (nodeId : Z)
| ErrValidatingPartialSig (senderAddr : string) (senderNodeId : Z) (msg : HotstuffMessage) (pubKey : string)
| ErrPacemakerUnexpectedMessageHeight (err : string) (heightCurrent heightMessage : Z)
| ErrPacemakerUnexpectedMessageStepRound (err : string) (step round : Z) (msg : HotstuffMessage)
| ErrUnknownConsensusMessageType (msg : string)
| ErrUnknownStateSyncMessageType (msg : string)
| ErrCreateProposeMessage (step : Z)
| ErrCreateVoteMessage (step : Z)
| ErrQCInvalid (step : Z)
| ErrLeaderElection (msg : HotstuffMessage)
(** errors made in place with [fmt.Errorf], and errors of the other modules *)
| ErrBlockNilInStep (step : Z)
| ErrBlockNotNilInStep (step : Z)
| ErrBlockHashDiffers
| ErrLeaderNotFound (leaderId : Z)
| ErrMempool (e : Error)
| ErrText (s : string).

(** ** base64.StdEncoding *)
Definition base64Digit (n : nat) : Ascii.ascii :=
  default Ascii.zero (String.get n "ABCDEFGHIJKLMNOPQRSTUVWXYZabcdefghijklmnopqrstuvwxyz0123456789+/").

Fixpoint base64Encode (s : bytes) : string :=
  let d n := base64Digit n in
  match s with
  | EmptyString => EmptyString
  | String a EmptyString =>
      let x := Ascii.nat_of_ascii a in
      String (d (x / 4)%nat) (String (d ((x mod 4) * 16)%nat) "==")
  | String a (String b EmptyString) =>
      let x := Ascii.nat_of_ascii a in
      let y := Ascii.nat_of_ascii b in
      String (d (x / 4)%nat) (String (d ((x mod 4) * 16 + y / 16)%nat) (String (d ((y mod 16) * 4)%nat) "="))
  | String a (String b (String c rest)) =>
      let x := Ascii.nat_of_ascii a in
      let y := Ascii.nat_of_ascii b in
      let z := Ascii.nat_of_ascii c in
      String (d (x / 4)%nat) (String (d ((x mod 4) * 16 + y / 16)%nat)
        (String (d ((y mod 16) * 4 + z / 64)%nat) (String (d (z mod 64)%nat) (base64Encode rest))))
  end.

(** ** The numbering of validators (types/actor_mapper.go, types/types.go) *)
Record actorMapper := {
  valAddrToIdMap : gmap string Z;
  idToValAddrMap : gmap Z string;
  validatorMap : gmap string Actor }.

(** The loop over the sorted addresses; [i] is the loop index. *)
Fixpoint numberAddresses (i : Z) (addrs : list string) (am : actorMapper) : actorMapper :=
  match addrs with
  | [] => am
  | addr :: rest =>
      let nodeId := u64 (i + 1) in
      numberAddresses (i + 1) rest {|
        valAddrToIdMap := <[addr := nodeId]> (valAddrToIdMap am);
        idToValAddrMap := <[nodeId := addr]> (idToValAddrMap am);
        validatorMap := validatorMap am |}
  end.

Definition ActorListToValidatorMap (actors : list Actor) : gmap string Actor :=
  foldl (fun m a => <[Address a := a]> m) ∅ actors.

Definition NewActorMapper (validators : list Actor) : actorMapper :=
  numberAddresses 0 (sortStrings (Address <$> validators))
    {| valAddrToIdMap := ∅; idToValAddrMap := ∅; validatorMap := ActorListToValidatorMap validators |}.

(** A missing key of a Go map reads as the zero value. *)
Definition idOf (am : actorMapper) (address : string) : Z := default 0 (valAddrToIdMap am !! address).

(** ** Leader election (leader_election/module.go)

    [numVals] is the number of validators at the message's height; Go's remainder truncates
    towards zero and panics on a zero divisor; the node id is a uint64. *)
Definition electNextLeaderDeterministicRoundRobin (msg : HotstuffMessage) (numVals : Z) : res ConsErr Z :=
  let value := i64 (i64 (hm_Height msg) + i64 (hm_Round msg) + i64 (hm_Step msg) - 1) in
  if bool_decide (numVals = 0) then Panic
  else Ok (u64 (Z.rem value numVals + 1)).

(** ** The quorum threshold (helpers.go)

    [ByzantineThreshold] is the float64 nearest to 2/3; its product with the number of
    validators is rounded to 53 bits; the comparison is exact. *)
Definition ByzantineThreshold : bigFloat := {| fmant := 6004799503160661; fexp := -53; fprec := 53 |}.

Definition floatGt (num : Z) (x : bigFloat) : bool :=
  if bool_decide (0 <= fexp x) then bool_decide (fmant x * 2 ^ fexp x < num)
  else bool_decide (fmant x < num * 2 ^ (- fexp x)).

Definition validateOptimisticThresholdMet (num : Z) (currentValidators : list Actor) : res ConsErr unit :=
  let numValidators := Z.of_nat (length currentValidators) in
  let threshold := bigFloatMul ByzantineThreshold (bigNewFloat numValidators) in
  if negb (floatGt num threshold) then Err (ErrByzantineThresholdCheck num threshold) else Ok tt.

(** ** Pure helpers *)
Fixpoint findHighQC_from (qc : option QuorumCertificate) (msgs : list HotstuffMessage) : option QuorumCertificate :=
  match msgs with
  | [] => qc
  | m :: rest =>
      match GetQuorumCertificate m with
      | None => findHighQC_from qc rest
      | Some q =>
          let better := match qc with None => true | Some qc => bool_decide (qc_Height qc < qc_Height q) end in
          findHighQC_from (if better then Some q else qc) rest
      end
  end.
Definition findHighQC (msgs : list HotstuffMessage) : option QuorumCertificate := findHighQC_from None msgs.

Definition getThresholdSignature (partialSigs : list PartialSignature) : list PartialSignature := partialSigs.

Definition isLockedOnPastHeight (justifyQC lockedQC : QuorumCertificate) : bool :=
  bool_decide (qc_Height lockedQC < qc_Height justifyQC).
Definition isLockedOnCurrHeightAndPastRound (justifyQC lockedQC : QuorumCertificate) : bool :=
  bool_decide (qc_Height justifyQC = qc_Height lockedQC) && bool_decide (qc_Round lockedQC < qc_Round justifyQC).
Definition isNodeLockedOnPastQC (justifyQC lockedQC : QuorumCertificate) : bool * option ConsErr :=
  if isLockedOnPastHeight justifyQC lockedQC then (true, Some ErrNodeLockedPastHeight)
  else if isLockedOnCurrHeightAndPastRound justifyQC lockedQC then (true, Some ErrNodeLockedPastHeight)
  else (false, None).

Definition qcToHotstuffMessage (qc : QuorumCertificate) : HotstuffMessage := {|
  hm_Type := 0; hm_Height := qc_Height qc; hm_Step := qc_Step qc; hm_Round := qc_Round qc;
  hm_Block := qc_Block qc; hm_Justification := JQuorumCertificate qc |}.

Section messages.
Context `{CryptoPrims} `{HotstuffCodec}.

(** An encoding failure is [logger.Fatal]; a nil block encodes as no bytes. *)
Definition protoHash (b : option Block) : res ConsErr string :=
  match b with
  | None => Ok (base64Encode EmptyString)
  | Some b => match marshalBlock b with Some bs => Ok (base64Encode bs) | None => Panic end
  end.

(** *** messages.go *)
Definition getSignableBytes (msg : HotstuffMessage) : option bytes :=
  marshalMsg {| hm_Type := 0; hm_Height := hm_Height msg; hm_Step := hm_Step msg; hm_Round := hm_Round msg;
                hm_Block := hm_Block msg; hm_Justification := JNone |}.

(** [nil] when the bytes cannot be encoded. *)
Definition getMessageSignature (msg : HotstuffMessage) (privKey : bytes) : slice :=
  match getSignableBytes msg with
  | None => None
  | Some bytesToSign => Some (PrivateKey_Sign privKey bytesToSign)
  end.

Definition CreateProposeMessage (height round step : Z) (block : option Block) (qc : option QuorumCertificate)
    : res ConsErr HotstuffMessage :=
  match block with
  | None => Err ErrNilBlockVote
  | Some _ =>
      match qc with
      | None => if bool_decide (step ≠ Prepare) then Err ErrNilQCProposal
                else Ok {| hm_Type := Propose; hm_Height := height; hm_Step := step; hm_Round := round;
                           hm_Block := block; hm_Justification := JNone |}
      | Some q => Ok {| hm_Type := Propose; hm_Height := height; hm_Step := step; hm_Round := round;
                        hm_Block := block; hm_Justification := JQuorumCertificate q |}
      end
  end.

Definition CreateVoteMessage (height round step : Z) (block : option Block) (privKey : bytes)
    : res ConsErr HotstuffMessage :=
  match block with
  | None => Err ErrNilBlockVote
  | Some _ =>
      let msg := {| hm_Type := Vote; hm_Height := height; hm_Step := step; hm_Round := round;
                    hm_Block := block; hm_Justification := JNone |} in
      Ok {| hm_Type := Vote; hm_Height := height; hm_Step := step; hm_Round := round; hm_Block := block;
            hm_Justification := JPartialSignature {|
              ps_Signature := getMessageSignature msg privKey;
              ps_Address := Address_String (PublicKey_Address (PrivateKey_PublicKey privKey)) |} |}
  end.

Definition isSignatureValid (msg : HotstuffMessage) (pubKeyString : string) (signature : slice) : bool :=
  match NewPublicKey pubKeyString with
  | Ok pubKey =>
      match getSignableBytes msg with
      | Some bytesToVerify => PublicKey_Verify pubKey bytesToVerify (bz signature)
      | None => false
      end
  | _ => false
  end.
End messages.
