(* ===== verification/Consensus.v ===== *)
(** The consensus module (src/consensus): the HotStuff state machine of one validator, its
    pacemaker (src/consensus/pacemaker) and the state-sync message handlers.

    The state of a node is the record [consensusModule].  What the module asks of its
    neighbours through the bus is stated by two interfaces, [PersistenceUtilityModules] and
    [UtilityUnitOfWork]; they act on the state [W] of the other modules.  Messages handed to
    the P2P module are appended to [sent] (its errors are only logged), height events to
    [events].  Logging and telemetry are not modelled.

    A handler runs to completion under the module's lock, so it is one transition of the node;
    the pacemaker's timer is a generation number ([RestartTimer] cancels the running timer and
    arms the next one), and its expiry is the transition [InterruptRound].

    [m.block] is shared: the certificates the leader builds point to the same block, and the
    write of the commit certificate to the header of [m.block] is visible through them.
    [prepareShares] and [lockedShares] say whether the block of [prepareQC] and [lockedQC] is
    that pointer. *)

From S2P Require Import Prelude GoStd Errors Crypto CoreTypes Sql Persistence FifoList HotstuffMempool ConsTypes.
#[local] Open Scope string_scope.
#[local] Open Scope Z_scope.

Module Consensus.

(** ** Interfaces to the other modules *)
Class PersistenceUtilityModules (W U : Type) := {
  NewReadContext : Z -> W -> res string PostgresContext;
  ReleaseWriteContext : M W string unit;
  (** the flag is [IsLeader()] of the consensus module *)
  NewUnitOfWork : Z -> bool -> M W string U;
  BlockStoreGetBlock : Z -> W -> res string Block;
  ResetToGenesis : M W string unit;
  MempoolClear : W -> W;
  SendEvent : string -> M W string unit;
}.

Class UtilityUnitOfWork (W U : Type) := {
  isLeaderUnitOfWork : U -> bool;
  SetProposalBlock : string -> slice -> list bytes -> M (U * W) string unit;
  ApplyBlock : M (U * W) string unit;
  GetStateHash : U -> string;
  CreateProposalBlock : bytes -> Z -> M (U * W) string (string * list bytes);
  UowCommit : slice -> M (U * W) string unit;
  Release : M (U * W) string unit;
}.

(** Events of the node's state machine. *)
Definition StateMachineEvent_Consensus_IsUnsynced : string := "Consensus_IsUnsynced".
Definition StateMachineEvent_Consensus_IsSyncing : string := "Consensus_IsSyncing".

Inductive OutMsg := OHotstuff (msg : HotstuffMessage) | OStateSync (msg : StateSyncMessage).

(** Configuration of the node, fixed when the module is created.  [sizeofBlock] is
    [unsafe.Sizeof] of the generated block struct. *)
Record Config := {
  privateKey : bytes; nodeId : Z; nodeAddress : string;
  MaxMempoolBytes : Z; MaxBlockBytes : Z; sizeofBlock : Z; serverModeEnabled : bool;
  pacemakerManual : bool }.

Abbreviation Pool := (FIFOList.ST HotstuffMessage HotstuffMempool.counters).

Section consensus.
Context {W U : Type}.

Record consensusModule := {
  height : Z;
  round : Z;
  step : Z;
  block : option Block;
  prepareQC : option QuorumCertificate;
  prepareShares : bool;
  lockedQC : option QuorumCertificate;
  lockedShares : bool;
  leaderId : option Z;
  utilityUnitOfWork : option U;
  hotstuffMempool : gmap Z Pool;
  manualMode : bool;
  debugQC : option QuorumCertificate;
  timer : Z;
  metadataReceived : list StateSyncMessage;
  blocksReceived : list StateSyncMessage;
  sent : list (bytes * OutMsg);
  events : list Z;
  world : W;
}.

Definition set_height (x : Z) (m : consensusModule) : consensusModule := {|
  height := x; round := round m; step := step m; block := block m; prepareQC := prepareQC m;
  prepareShares := prepareShares m; lockedQC := lockedQC m; lockedShares := lockedShares m;
  leaderId := leaderId m; utilityUnitOfWork := utilityUnitOfWork m;
  hotstuffMempool := hotstuffMempool m; manualMode := manualMode m; debugQC := debugQC m;
  timer := timer m; metadataReceived := metadataReceived m; blocksReceived := blocksReceived m;
  sent := sent m; events := events m; world := world m |}.
Definition set_round (x : Z) (m : consensusModule) : consensusModule := {|
  height := height m; round := x; step := step m; block := block m; prepareQC := prepareQC m;
  prepareShares := prepareShares m; lockedQC := lockedQC m; lockedShares := lockedShares m;
  leaderId := leaderId m; utilityUnitOfWork := utilityUnitOfWork m;
  hotstuffMempool := hotstuffMempool m; manualMode := manualMode m; debugQC := debugQC m;
  timer := timer m; metadataReceived := metadataReceived m; blocksReceived := blocksReceived m;
  sent := sent m; events := events m; world := world m |}.
Definition set_step (x : Z) (m : consensusModule) : consensusModule := {|
  height := height m; round := round m; step := x; block := block m; prepareQC := prepareQC m;
  prepareShares := prepareShares m; lockedQC := lockedQC m; lockedShares := lockedShares m;
  leaderId := leaderId m; utilityUnitOfWork := utilityUnitOfWork m;
  hotstuffMempool := hotstuffMempool m; manualMode := manualMode m; debugQC := debugQC m;
  timer := timer m; metadataReceived := metadataReceived m; blocksReceived := blocksReceived m;
  sent := sent m; events := events m; world := world m |}.
Definition set_block (x : option Block) (m : consensusModule) : consensusModule := {|
  height := height m; round := round m; step := step m; block := x; prepareQC := prepareQC m;
  prepareShares := prepareShares m; lockedQC := lockedQC m; lockedShares := lockedShares m;
  leaderId := leaderId m; utilityUnitOfWork := utilityUnitOfWork m;
  hotstuffMempool := hotstuffMempool m; manualMode := manualMode m; debugQC := debugQC m;
  timer := timer m; metadataReceived := metadataReceived m; blocksReceived := blocksReceived m;
  sent := sent m; events := events m; world := world m |}.
Definition set_prepareQC (x : option QuorumCertificate) (m : consensusModule) : consensusModule := {|
  height := height m; round := round m; step := step m; block := block m; prepareQC := x;
  prepareShares := prepareShares m; lockedQC := lockedQC m; lockedShares := lockedShares m;
  leaderId := leaderId m; utilityUnitOfWork := utilityUnitOfWork m;
  hotstuffMempool := hotstuffMempool m; manualMode := manualMode m; debugQC := debugQC m;
  timer := timer m; metadataReceived := metadataReceived m; blocksReceived := blocksReceived m;
  sent := sent m; events := events m; world := world m |}.
Definition set_prepareShares (x : bool) (m : consensusModule) : consensusModule := {|
  height := height m; round := round m; step := step m; block := block m; prepareQC := prepareQC m;
  prepareShares := x; lockedQC := lockedQC m; lockedShares := lockedShares m; leaderId := leaderId m;
  utilityUnitOfWork := utilityUnitOfWork m; hotstuffMempool := hotstuffMempool m;
  manualMode := manualMode m; debugQC := debugQC m; timer := timer m;
  metadataReceived := metadataReceived m; blocksReceived := blocksReceived m; sent := sent m;
  events := events m; world := world m |}.
Definition set_lockedQC (x : option QuorumCertificate) (m : consensusModule) : consensusModule := {|
  height := height m; round := round m; step := step m; block := block m; prepareQC := prepareQC m;
  prepareShares := prepareShares m; lockedQC := x; lockedShares := lockedShares m;
  leaderId := leaderId m; utilityUnitOfWork := utilityUnitOfWork m;
  hotstuffMempool := hotstuffMempool m; manualMode := manualMode m; debugQC := debugQC m;
  timer := timer m; metadataReceived := metadataReceived m; blocksReceived := blocksReceived m;
  sent := sent m; events := events m; world := world m |}.
Definition set_lockedShares (x : bool) (m : consensusModule) : consensusModule := {|
  height := height m; round := round m; step := step m; block := block m; prepareQC := prepareQC m;
  prepareShares := prepareShares m; lockedQC := lockedQC m; lockedShares := x; leaderId := leaderId m;
  utilityUnitOfWork := utilityUnitOfWork m; hotstuffMempool := hotstuffMempool m;
  manualMode := manualMode m; debugQC := debugQC m; timer := timer m;
  metadataReceived := metadataReceived m; blocksReceived := blocksReceived m; sent := sent m;
  events := events m; world := world m |}.
Definition set_leaderId (x : option Z) (m : consensusModule) : consensusModule := {|
  height := height m; round := round m; step := step m; block := block m; prepareQC := prepareQC m;
  prepareShares := prepareShares m; lockedQC := lockedQC m; lockedShares := lockedShares m;
  leaderId := x; utilityUnitOfWork := utilityUnitOfWork m; hotstuffMempool := hotstuffMempool m;
  manualMode := manualMode m; debugQC := debugQC m; timer := timer m;
  metadataReceived := metadataReceived m; blocksReceived := blocksReceived m; sent := sent m;
  events := events m; world := world m |}.
Definition set_utilityUnitOfWork (x : option U) (m : consensusModule) : consensusModule := {|
  height := height m; round := round m; step := step m; block := block m; prepareQC := prepareQC m;
  prepareShares := prepareShares m; lockedQC := lockedQC m; lockedShares := lockedShares m;
  leaderId := leaderId m; utilityUnitOfWork := x; hotstuffMempool := hotstuffMempool m;
  manualMode := manualMode m; debugQC := debugQC m; timer := timer m;
  metadataReceived := metadataReceived m; blocksReceived := blocksReceived m; sent := sent m;
  events := events m; world := world m |}.
Definition set_hotstuffMempool (x : gmap Z Pool) (m : consensusModule) : consensusModule := {|
  height := height m; round := round m; step := step m; block := block m; prepareQC := prepareQC m;
  prepareShares := prepareShares m; lockedQC := lockedQC m; lockedShares := lockedShares m;
  leaderId := leaderId m; utilityUnitOfWork := utilityUnitOfWork m; hotstuffMempool := x;
  manualMode := manualMode m; debugQC := debugQC m; timer := timer m;
  metadataReceived := metadataReceived m; blocksReceived := blocksReceived m; sent := sent m;
  events := events m; world := world m |}.
Definition set_manualMode (x : bool) (m : consensusModule) : consensusModule := {|
  height := height m; round := round m; step := step m; block := block m; prepareQC := prepareQC m;
  prepareShares := prepareShares m; lockedQC := lockedQC m; lockedShares := lockedShares m;
  leaderId := leaderId m; utilityUnitOfWork := utilityUnitOfWork m;
  hotstuffMempool := hotstuffMempool m; manualMode := x; debugQC := debugQC m; timer := timer m;
  metadataReceived := metadataReceived m; blocksReceived := blocksReceived m; sent := sent m;
  events := events m; world := world m |}.
Definition set_debugQC (x : option QuorumCertificate) (m : consensusModule) : consensusModule := {|
  height := height m; round := round m; step := step m; block := block m; prepareQC := prepareQC m;
  prepareShares := prepareShares m; lockedQC := lockedQC m; lockedShares := lockedShares m;
  leaderId := leaderId m; utilityUnitOfWork := utilityUnitOfWork m;
  hotstuffMempool := hotstuffMempool m; manualMode := manualMode m; debugQC := x; timer := timer m;
  metadataReceived := metadataReceived m; blocksReceived := blocksReceived m; sent := sent m;
  events := events m; world := world m |}.
Definition set_timer (x : Z) (m : consensusModule) : consensusModule := {|
  height := height m; round := round m; step := step m; block := block m; prepareQC := prepareQC m;
  prepareShares := prepareShares m; lockedQC := lockedQC m; lockedShares := lockedShares m;
  leaderId := leaderId m; utilityUnitOfWork := utilityUnitOfWork m;
  hotstuffMempool := hotstuffMempool m; manualMode := manualMode m; debugQC := debugQC m; timer := x;
  metadataReceived := metadataReceived m; blocksReceived := blocksReceived m; sent := sent m;
  events := events m; world := world m |}.
Definition set_metadataReceived (x : list StateSyncMessage) (m : consensusModule) : consensusModule := {|
  height := height m; round := round m; step := step m; block := block m; prepareQC := prepareQC m;
  prepareShares := prepareShares m; lockedQC := lockedQC m; lockedShares := lockedShares m;
  leaderId := leaderId m; utilityUnitOfWork := utilityUnitOfWork m;
  hotstuffMempool := hotstuffMempool m; manualMode := manualMode m; debugQC := debugQC m;
  timer := timer m; metadataReceived := x; blocksReceived := blocksReceived m; sent := sent m;
  events := events m; world := world m |}.
Definition set_blocksReceived (x : list StateSyncMessage) (m : consensusModule) : consensusModule := {|
  height := height m; round := round m; step := step m; block := block m; prepareQC := prepareQC m;
  prepareShares := prepareShares m; lockedQC := lockedQC m; lockedShares := lockedShares m;
  leaderId := leaderId m; utilityUnitOfWork := utilityUnitOfWork m;
  hotstuffMempool := hotstuffMempool m; manualMode := manualMode m; debugQC := debugQC m;
  timer := timer m; metadataReceived := metadataReceived m; blocksReceived := x; sent := sent m;
  events := events m; world := world m |}.
Definition set_sent (x : list (bytes * OutMsg)) (m : consensusModule) : consensusModule := {|
  height := height m; round := round m; step := step m; block := block m; prepareQC := prepareQC m;
  prepareShares := prepareShares m; lockedQC := lockedQC m; lockedShares := lockedShares m;
  leaderId := leaderId m; utilityUnitOfWork := utilityUnitOfWork m;
  hotstuffMempool := hotstuffMempool m; manualMode := manualMode m; debugQC := debugQC m;
  timer := timer m; metadataReceived := metadataReceived m; blocksReceived := blocksReceived m;
  sent := x; events := events m; world := world m |}.
Definition set_events (x : list Z) (m : consensusModule) : consensusModule := {|
  height := height m; round := round m; step := step m; block := block m; prepareQC := prepareQC m;
  prepareShares := prepareShares m; lockedQC := lockedQC m; lockedShares := lockedShares m;
  leaderId := leaderId m; utilityUnitOfWork := utilityUnitOfWork m;
  hotstuffMempool := hotstuffMempool m; manualMode := manualMode m; debugQC := debugQC m;
  timer := timer m; metadataReceived := metadataReceived m; blocksReceived := blocksReceived m;
  sent := sent m; events := x; world := world m |}.
Definition set_world (x : W) (m : consensusModule) : consensusModule := {|
  height := height m; round := round m; step := step m; block := block m; prepareQC := prepareQC m;
  prepareShares := prepareShares m; lockedQC := lockedQC m; lockedShares := lockedShares m;
  leaderId := leaderId m; utilityUnitOfWork := utilityUnitOfWork m;
  hotstuffMempool := hotstuffMempool m; manualMode := manualMode m; debugQC := debugQC m;
  timer := timer m; metadataReceived := metadataReceived m; blocksReceived := blocksReceived m;
  sent := sent m; events := events m; world := x |}.

Context `{CryptoPrims} `{HotstuffCodec} `{PersistenceUtilityModules W U} `{UtilityUnitOfWork W U}.
Context (cfg : Config).

Abbreviation CM := (M consensusModule ConsErr).

(** A result of another module whose error is passed on. *)
Definition of_module {A} (r : res string A) : CM A :=
  of_res (match r with Ok a => Ok a | Err e => Err (ErrText e) | Panic => Panic end).

(** [if err := f(); err != nil { handler } else continue]. *)
Definition onError {A} (m : CM A) (handler : ConsErr -> CM unit) (k : A -> CM unit) : CM unit := fun s =>
  match m s with
  | (Ok a, s') => k a s'
  | (Err e, s') => handler e s'
  | (Panic, s') => (Panic, s')
  end.

(** The error is only logged. *)
Definition logError {A} (m : CM A) : CM unit := onError m (fun _ => mret tt) (fun _ => mret tt).

(** A call that changes the state of another module. *)
Definition onWorld {A} (f : M W string A) : CM A := fun m =>
  let '(r, w') := f (world m) in
  (match r with Ok a => Ok a | Err e => Err (ErrText e) | Panic => Panic end, set_world w' m).

(** A call on the unit of work [u] held by the module. *)
Definition onUow {A} (u : U) (f : M (U * W) string A) : CM A := fun m =>
  let '(r, (u', w')) := f (u, world m) in
  (match r with Ok a => Ok a | Err e => Err (ErrText e) | Panic => Panic end,
   set_world w' (set_utilityUnitOfWork (Some u') m)).

(** A call on the mempool of a step; a step without a mempool is a nil pointer. *)
Definition onPool {A} (st : Z) (f : M Pool Error A) : CM A := fun m =>
  match hotstuffMempool m !! st with
  | None => (Panic, m)
  | Some p =>
      let '(r, p') := f p in
      (match r with Ok a => Ok a | Err e => Err (ErrMempool e) | Panic => Panic end,
       set_hotstuffMempool (<[st := p']> (hotstuffMempool m)) m)
  end.
Definition readPool {A} (st : Z) (f : Pool -> A) : CM A := fun m =>
  match hotstuffMempool m !! st with None => (Panic, m) | Some p => (Ok (f p), m) end.

(** ** module.go, module_consensus_pacemaker.go, module_consensus_debugging.go: accessors *)
Definition CurrentHeight (m : consensusModule) : Z := height m.
Definition CurrentRound (m : consensusModule) : Z := round m.
Definition CurrentStep (m : consensusModule) : Z := u64 (step m).
Definition IsLeader (m : consensusModule) : bool := bool_decide (leaderId m = Some (nodeId cfg)).
Definition isReplica (m : consensusModule) : bool := negb (IsLeader m).
Definition IsLeaderSet (m : consensusModule) : bool := match leaderId m with Some _ => true | None => false end.
Definition IsPrepareQCNil (m : consensusModule) : bool := match prepareQC m with Some _ => false | None => true end.

Definition publishNewHeightEvent (h : Z) : CM unit := modify (fun m => set_events (events m ++ [h]) m).
Definition SetHeight (h : Z) : CM unit := modify (set_height h) ;; publishNewHeightEvent h.
Definition SetRound (r : Z) : CM unit := modify (set_round r).
Definition SetStep (s : Z) : CM unit := modify (set_step s).
(** The certificates keep pointing to the previous block. *)
Definition SetBlock (b : option Block) : CM unit :=
  modify (fun m => set_block b (set_prepareShares false (set_lockedShares false m))).
Definition SetUtilityUnitOfWork (u : option U) : CM unit := modify (set_utilityUnitOfWork u).

(** ** helpers.go *)
Definition validatorsAt (h : Z) (m : consensusModule) : res string (list Actor) :=
  match NewReadContext (i64 h) (world m) with
  | Ok p => Ok (GetAllValidators p (i64 h))
  | Err e => Err e
  | Panic => Panic
  end.
Definition getValidatorsAtHeight (h : Z) : CM (list Actor) :=
  m ← get; of_module (validatorsAt h m).

Definition IsValidator : CM bool :=
  m ← get;
  validators ← getValidatorsAtHeight (CurrentHeight m);
  mret (existsb (fun a => bool_decide (Address a = nodeAddress cfg)) validators).

Definition didReceiveEnoughMessageForStep (st : Z) : CM unit :=
  m ← get;
  validators ← getValidatorsAtHeight (CurrentHeight m);
  numMessages ← readPool st HotstuffMempool.Size;
  of_res (validateOptimisticThresholdMet numMessages validators).

(** The loop of [getQuorumCertificate] empties the mempool of the step; [fuel] is its size. *)
Fixpoint collectPartialSignatures (fuel : nat) (h st r : Z) (pss : list PartialSignature) : CM (list PartialSignature) :=
  match fuel with
  | O => mret pss
  | S fuel' =>
      empty ← readPool st HotstuffMempool.IsEmpty;
      if (empty : bool) then mret pss
      else
        popped ← onPool st (HotstuffMempool.Pop marshalMsg);
        msg ← of_option (ErrText "empty set") popped;
        match GetPartialSignature msg with
        | None => collectPartialSignatures fuel' h st r pss
        | Some ps =>
            if negb (bool_decide (hm_Height msg = h) && bool_decide (hm_Step msg = st) && bool_decide (hm_Round msg = r))
            then collectPartialSignatures fuel' h st r pss
            else
              match ps_Signature ps with
              | None => collectPartialSignatures fuel' h st r pss
              | Some _ =>
                  if bool_decide (ps_Address ps = "") then collectPartialSignatures fuel' h st r pss
                  else collectPartialSignatures fuel' h st r (pss ++ [ps])
              end
        end
  end.

Definition getQuorumCertificate (h st r : Z) : CM QuorumCertificate :=
  n ← readPool st (fun p => length (HotstuffMempool.GetAll p));
  pss ← collectPartialSignatures n h st r [];
  validators ← getValidatorsAtHeight h;
  of_res (validateOptimisticThresholdMet (Z.of_nat (length pss)) validators) ;;
  m ← get;
  mret {| qc_Height := h; qc_Step := st; qc_Round := r; qc_Block := block m;
          qc_ThresholdSignature := Some (getThresholdSignature pss) |}.

(** *** P2P helpers: errors of the P2P module are logged *)
Definition send (dst : bytes) (out : OutMsg) : CM unit := modify (fun m => set_sent (sent m ++ [(dst, out)]) m).

(** A failed query is logged and leaves no validators. *)
Definition validatorsOrNone (h : Z) : CM (list Actor) := fun m =>
  match validatorsAt h m with Ok l => (Ok l, m) | Err _ => (Ok [], m) | Panic => (Panic, m) end.

Definition sendToLeader (msg : HotstuffMessage) : CM unit :=
  m ← get;
  match leaderId m with
  | None => mret tt
  | Some leader =>
      match marshalMsg msg with
      | None => mret tt
      | Some _ =>
          validators ← validatorsOrNone (CurrentHeight m);
          leaderAddr ← of_module (AddressFromString (default "" (idToValAddrMap (NewActorMapper validators) !! leader)));
          send leaderAddr (OHotstuff msg)
      end
  end.

Definition broadcastToValidators (msg : HotstuffMessage) : CM unit :=
  match marshalMsg msg with
  | None => mret tt
  | Some _ =>
      m ← get;
      validators ← validatorsOrNone (CurrentHeight m);
      forM validators (fun val =>
        dst ← of_module (AddressFromString (Address val));
        send dst (OHotstuff msg))
  end.

Definition clearMessagesPool : CM unit := forM HotstuffSteps (fun st => onPool st HotstuffMempool.Clear).
Definition initMessagesPool : CM unit :=
  forM HotstuffSteps (fun st => modify (fun m => set_hotstuffMempool
    (<[st := HotstuffMempool.NewHotstuffFIFOMempool (MaxMempoolBytes cfg)]> (hotstuffMempool m)) m)).

(** *** Leader election *)
Definition ElectNextLeader (msg : HotstuffMessage) : CM Z :=
  m ← get;
  vals ← of_module (validatorsAt (hm_Height msg) m);
  of_res (electNextLeaderDeterministicRoundRobin msg (Z.of_nat (length vals))).

Definition electNextLeader (msg : HotstuffMessage) : CM unit :=
  modify (set_leaderId None) ;;
  leader ← ElectNextLeader msg;
  if bool_decide (leader = 0) then mret tt
  else
    m ← get;
    validators ← getValidatorsAtHeight (CurrentHeight m);
    match idToValAddrMap (NewActorMapper validators) !! leader with
    | None => fail (ErrLeaderNotFound leader)
    | Some _ => modify (set_leaderId (Some leader))
    end.

Definition GetLeaderForView (h r st : Z) : CM Z := fun m =>
  match ElectNextLeader {| hm_Type := 0; hm_Height := h; hm_Step := st; hm_Round := r; hm_Block := None;
                           hm_Justification := JNone |} m with
  | (Err _, m') => (Ok 0, m')
  | r => r
  end.

(** ** block.go *)
Definition BlockHeaderOf (b : option Block) : CM BlockHeader :=
  match b with
  | Some b => match b_Header b with Some h => mret h | None => panic end
  | None => panic
  end.

Definition commitBlock (b : option Block) : CM unit :=
  m ← get;
  match utilityUnitOfWork m with
  | None => fail (ErrText "utility uow is nil")
  | Some u =>
      header ← BlockHeaderOf b;
      onUow u (UowCommit (bh_QuorumCertificate header)) ;;
      m ← get;
      match utilityUnitOfWork m with Some u' => logError (onUow u' Release) | None => mret tt end ;;
      modify (set_utilityUnitOfWork None)
  end.

Definition isValidMessageBlock (msg : HotstuffMessage) : CM unit :=
  m ← get;
  match hm_Block msg with
  | None => if bool_decide (hm_Step msg ≠ NewRound) then fail (ErrBlockNilInStep (step m)) else mret tt
  | Some b =>
      if bool_decide (hm_Step msg = NewRound) then fail (ErrBlockNotNilInStep (step m))
      else if bool_decide (u64 (MaxBlockBytes cfg) < sizeofBlock cfg) then
        fail (ErrInvalidBlockSize (sizeofBlock cfg) (MaxBlockBytes cfg))
      else
        match block m with
        | None => mret tt
        | Some mb =>
            mh ← BlockHeaderOf (Some mb);
            bh ← BlockHeaderOf (Some b);
            if bool_decide (bh_StateHash mh ≠ bh_StateHash bh) then fail ErrBlockHashDiffers
            else
              (* a difference between the two encodings is only logged *)
              of_res (protoHash (Some mb)) ;; of_res (protoHash (Some b)) ;; mret tt
        end
  end.

Definition refreshUtilityUnitOfWork : CM unit :=
  m ← get;
  match utilityUnitOfWork m with
  | Some u => logError (onUow u Release) ;; modify (set_utilityUnitOfWork None)
  | None => mret tt
  end ;;
  logError (onWorld ReleaseWriteContext) ;;
  m ← get;
  utilityUOW ← onWorld (NewUnitOfWork (i64 (height m)) (IsLeader m));
  modify (set_utilityUnitOfWork (Some utilityUOW)).

(** ** module_consensus_pacemaker.go *)
Definition ResetRound (isNewHeight : bool) : CM unit :=
  modify (set_leaderId None) ;;
  clearMessagesPool ;;
  modify (set_step 0) ;;
  if isNewHeight then
    modify (set_round 0) ;; SetBlock None ;; modify (set_prepareQC None) ;; modify (set_lockedQC None)
  else mret tt.

Definition ReleaseUtilityUnitOfWork : CM unit :=
  m ← get;
  match utilityUnitOfWork m with
  | None => mret tt
  | Some u => onUow u Release ;; modify (set_utilityUnitOfWork None)
  end.

(** The argument is the encoded message inside an [anypb.Any]. *)
Definition BroadcastMessageToValidators (b : bytes) : CM unit :=
  broadcastMessage ← of_option (ErrText "proto: unmarshal") (unmarshalMsg b);
  broadcastToValidators broadcastMessage.

Definition NewLeader (b : bytes) : CM unit :=
  message ← of_option (ErrText "proto: unmarshal") (unmarshalMsg b);
  electNextLeader message.

Definition GetPrepareQC : CM bytes :=
  m ← get;
  match prepareQC m with
  | None => mret EmptyString
  | Some qc => of_option (ErrText "failed to convert paceMaker message to proto") (marshalQC qc)
  end.

(** ** The pacemaker (pacemaker/module.go, pacemaker/debug.go) *)
Definition RestartTimer : CM unit := modify (fun m => set_timer (timer m + 1) m).

(** [(false, err)] is the error [err]. *)
Definition ShouldHandleMessage (msg : HotstuffMessage) : CM bool :=
  m ← get;
  let currentHeight := CurrentHeight m in
  let currentRound := CurrentRound m in
  let currentStep := CurrentStep m in
  if bool_decide (hm_Height msg < currentHeight) then mret false
  else if bool_decide (currentHeight < hm_Height msg) then
    onWorld (SendEvent StateMachineEvent_Consensus_IsUnsynced) ;; mret false
  else if IsLeader m && bool_decide (hm_Type msg = Propose) && bool_decide (hm_Step msg ≠ NewRound) then mret false
  else if bool_decide (hm_Round msg < currentRound)
          || (bool_decide (hm_Round msg = currentRound) && bool_decide (hm_Step msg < currentStep)) then mret false
  else if bool_decide (hm_Height msg = currentHeight) && bool_decide (hm_Step msg = currentStep)
          && bool_decide (hm_Round msg = currentRound) then mret true
  else if bool_decide (currentRound < hm_Round msg)
          || (bool_decide (hm_Round msg = currentRound) && bool_decide (currentStep < hm_Step msg)) then
    SetStep (u8 (hm_Step msg)) ;;
    SetRound (hm_Round msg) ;;
    m ← get;
    (if bool_decide (currentRound ≠ hm_Round msg) || negb (IsLeaderSet m) then
       anyProto ← of_option (ErrText "proto: marshal") (marshalMsg msg);
       NewLeader anyProto
     else mret tt) ;;
    mret true
  else fail ErrUnexpectedPacemakerCase.

Definition startNextView (qc : option QuorumCertificate) (forceNextView : bool) : CM unit :=
  ResetRound false ;;
  logError ReleaseUtilityUnitOfWork ;;
  SetStep NewRound ;;
  m ← get;
  (if manualMode m && negb forceNextView then modify (set_debugQC qc)
   else
     let hotstuffMessage := {| hm_Type := Propose; hm_Height := CurrentHeight m; hm_Step := NewRound;
       hm_Round := CurrentRound m; hm_Block := None;
       hm_Justification := match qc with Some qc => JQuorumCertificate qc | None => JNone end |} in
     match marshalMsg hotstuffMessage with
     | None => mret tt
     | Some anyProto => logError (BroadcastMessageToValidators anyProto)
     end) ;;
  RestartTimer.

Definition InterruptRound : CM unit :=
  m ← get;
  SetRound (u64 (CurrentRound m + 1)) ;;
  (if IsPrepareQCNil m then startNextView None false
   else
     onError GetPrepareQC (fun _ => mret tt) (fun b =>
       match unmarshalQC b with
       | None => mret tt
       | Some qc => startNextView (Some qc) false
       end)) ;;
  RestartTimer.

Definition NewHeight : CM unit :=
  ResetRound true ;;
  m ← get;
  SetHeight (u64 (CurrentHeight m + 1)) ;;
  startNextView None false ;;
  RestartTimer.

Definition IsManualMode (m : consensusModule) : bool := manualMode m.
Definition SetManualMode (b : bool) : CM unit := modify (set_manualMode b).
Definition ForceNextView : CM unit := m ← get; startNextView (debugQC m) true.

(** ** hotstuff_replica.go: validation *)
Definition validSignature (am : actorMapper) (msgToJustify : HotstuffMessage) (ps : PartialSignature) : bool :=
  match validatorMap am !! ps_Address ps with
  | None => false
  | Some validator => isSignatureValid msgToJustify (PublicKey validator) (ps_Signature ps)
  end.

(** The loop of [validateQuorumCertificate]. *)
Definition countValid (am : actorMapper) (msgToJustify : HotstuffMessage) (sigs : list PartialSignature) : Z :=
  foldl (fun numValid ps => if validSignature am msgToJustify ps then numValid + 1 else numValid) 0 sigs.

Definition validateQuorumCertificate (qc : option QuorumCertificate) : CM unit :=
  match qc with
  | None => fail ErrNilQC
  | Some qc =>
      match qc_Block qc with
      | None => fail ErrNilBlockInQC
      | Some _ =>
          match qc_ThresholdSignature qc with
          | None | Some [] => fail ErrNilThresholdSigInQC
          | Some sigs =>
              m ← get;
              validators ← getValidatorsAtHeight (CurrentHeight m);
              of_res (validateOptimisticThresholdMet
                        (countValid (NewActorMapper validators) (qcToHotstuffMessage qc) sigs) validators)
          end
      end
  end.

(** A nil [justifyQC] is dereferenced once the node is locked. *)
Definition validateProposal (msg : HotstuffMessage) : CM unit :=
  if negb (bool_decide (hm_Type msg = Propose) && bool_decide (hm_Step msg = Prepare))
  then fail ErrProposalNotValidInPrepare
  else
    let quorumCert := GetQuorumCertificate msg in
    match quorumCert with Some qc => validateQuorumCertificate (Some qc) | None => mret tt end ;;
    m ← get;
    match lockedQC m with
    | None => mret tt
    | Some locked =>
        lockedHash ← of_res (protoHash (qc_Block locked));
        match quorumCert with
        | None => panic
        | Some justifyQC =>
            justifyHash ← of_res (protoHash (qc_Block justifyQC));
            if bool_decide (lockedHash = justifyHash) then mret tt
            else
              let '(isLocked, err) := isNodeLockedOnPastQC justifyQC locked in
              if isLocked then match err with Some e => fail e | None => mret tt end
              else fail ErrUnhandledProposalCase
        end
    end.

Definition applyBlock (b : Block) : CM unit :=
  m ← get;
  match utilityUnitOfWork m with
  | None => fail (ErrText "utility unit of work is nil")
  | Some u =>
      blockHeader ← BlockHeaderOf (Some b);
      onUow u (SetProposalBlock (bh_StateHash blockHeader) (bh_ProposerAddress blockHeader) (b_Transactions b)) ;;
      m ← get;
      match utilityUnitOfWork m with
      | None => panic
      | Some u => onUow u ApplyBlock
      end ;;
      m ← get;
      match utilityUnitOfWork m with
      | None => panic
      | Some u =>
          let stateHash := GetStateHash u in
          if bool_decide (bh_StateHash blockHeader ≠ stateHash)
          then fail (ErrInvalidStateHash (bh_StateHash blockHeader) stateHash) else mret tt
      end
  end.

(** [m.block.BlockHeader.QuorumCertificate = qcBytes], seen through every certificate that
    points to the block. *)
Definition withQC (qcBytes : bytes) (b : Block) : Block :=
  {| b_Header := (fun h => {| bh_Height := bh_Height h; bh_NetworkId := bh_NetworkId h; bh_StateHash := bh_StateHash h;
       bh_PrevStateHash := bh_PrevStateHash h; bh_ProposerAddress := bh_ProposerAddress h;
       bh_QuorumCertificate := Some qcBytes; bh_Timestamp := bh_Timestamp h |}) <$> b_Header b;
     b_Transactions := b_Transactions b |}.
Definition qcWithQC (qcBytes : bytes) (qc : QuorumCertificate) : QuorumCertificate :=
  {| qc_Height := qc_Height qc; qc_Round := qc_Round qc; qc_Step := qc_Step qc;
     qc_Block := withQC qcBytes <$> qc_Block qc; qc_ThresholdSignature := qc_ThresholdSignature qc |}.
Definition setBlockQuorumCertificate (qcBytes : bytes) : CM unit :=
  m ← get;
  BlockHeaderOf (block m) ;;
  modify (fun m =>
    set_block (withQC qcBytes <$> block m)
      (set_prepareQC (if prepareShares m then qcWithQC qcBytes <$> prepareQC m else prepareQC m)
        (set_lockedQC (if lockedShares m then qcWithQC qcBytes <$> lockedQC m else lockedQC m) m))).

(** ** hotstuff_leader.go: helpers *)
Definition validateMessageSignature (msg : HotstuffMessage) : CM unit :=
  if bool_decide (hm_Step msg = NewRound) then mret tt
  else if bool_decide (hm_Type msg = Propose) then mret tt
  else
    match GetPartialSignature msg with
    | None => fail ErrNilPartialSig
    | Some partialSig =>
        if bool_decide (ps_Signature partialSig = None) || bool_decide (ps_Address partialSig = "")
        then fail ErrNilPartialSigOrSourceNotSpecified
        else
          let address := ps_Address partialSig in
          m ← get;
          validators ← getValidatorsAtHeight (CurrentHeight m);
          let actorMapper := NewActorMapper validators in
          match validatorMap actorMapper !! address with
          | None => fail (ErrMissingValidator address (idOf actorMapper address))
          | Some validator =>
              let pubKey := PublicKey validator in
              if isSignatureValid msg pubKey (ps_Signature partialSig) then mret tt
              else
                (* the error text hashes the block *)
                of_res (protoHash (hm_Block msg)) ;;
                fail (ErrValidatingPartialSig address (idOf actorMapper address) msg pubKey)
          end
    end.

(** The mempool whose size is checked is selected by the message *type*. *)
Definition indexHotstuffMessage (msg : HotstuffMessage) : CM unit :=
  total ← readPool (hm_Type msg) HotstuffMempool.TotalMsgBytes;
  if bool_decide (MaxMempoolBytes cfg < total) then fail ErrConsensusMempoolFull
  else onPool (hm_Step msg) (HotstuffMempool.Push marshalMsg msg).

Definition isPrepareQCFromPast (highPrepareQC : QuorumCertificate) (m : consensusModule) : bool :=
  bool_decide (qc_Height highPrepareQC < height m) || bool_decide (qc_Round highPrepareQC < round m).

Definition shouldPrepareNewBlock (highPrepareQC : option QuorumCertificate) (m : consensusModule) : bool :=
  match highPrepareQC with
  | None => true
  | Some qc => if isPrepareQCFromPast qc m then true
               else match qc_Block qc with None => true | Some _ => false end
  end.

(** The header is built without a network id and without a timestamp. *)
Definition prepareBlock (qc : option QuorumCertificate) : CM Block :=
  m ← get;
  if isReplica m then fail ErrReplicaPrepareBlock
  else
    match utilityUnitOfWork m with
    | None => fail (ErrText "utility unit of work is nil")
    | Some u =>
        if negb (isLeaderUnitOfWork u) then
          fail (ErrText "invalid utility unitOfWork, should be of type LeaderUtilityUnitOfWork")
        else
          '(stateHash, txs) ← onUow u (CreateProposalBlock (PrivateKey_Address (privateKey cfg)) (MaxMempoolBytes cfg));
          m ← get;
          let prevHeight := i64 (i64 (height m) - 1) in
          readCtx ← of_module (NewReadContext prevHeight (world m));
          prevBlockHash ← of_module (GetBlockHash readCtx prevHeight);
          qcBytes ← match qc with
                    | None => mret None
                    | Some qc => b ← of_option (ErrText "proto: marshal") (marshalQC qc); mret (Some b)
                    end;
          let blockHeader := {| bh_Height := height m; bh_NetworkId := ""; bh_StateHash := stateHash;
            bh_PrevStateHash := prevBlockHash; bh_ProposerAddress := Some (PrivateKey_Address (privateKey cfg));
            bh_QuorumCertificate := qcBytes; bh_Timestamp := 0 |} in
          match utilityUnitOfWork m with
          | None => panic
          | Some u => onUow u (SetProposalBlock stateHash (bh_ProposerAddress blockHeader) txs)
          end ;;
          mret {| b_Header := Some blockHeader; b_Transactions := txs |}
    end.

(** ** hotstuff_replica.go: handlers.  Every handler ends with the deferred
    [RestartTimer]; a failed check is logged and ends the handler. *)
Definition replica_anteHandle (msg : HotstuffMessage) : CM unit := isValidMessageBlock msg.

Definition discard : ConsErr -> CM unit := fun _ => mret tt.
Definition interrupt : ConsErr -> CM unit := fun _ => InterruptRound.

(** Create a vote for the current block and send it to the leader. *)
Definition vote (st : Z) : CM unit :=
  m ← get;
  onError (of_res (CreateVoteMessage (height m) (round m) st (block m) (privateKey cfg))) discard sendToLeader.

Definition replica_HandleNewRoundMessage (msg : HotstuffMessage) : CM unit :=
  onError (replica_anteHandle msg) discard (fun _ =>
  onError refreshUtilityUnitOfWork discard (fun _ =>
  SetStep Prepare)) ;;
  RestartTimer.

Definition replica_HandlePrepareMessage (msg : HotstuffMessage) : CM unit :=
  onError (replica_anteHandle msg) discard (fun _ =>
  onError (validateProposal msg) interrupt (fun _ =>
  match hm_Block msg with
  | None => panic
  | Some b =>
      onError (applyBlock b) interrupt (fun _ =>
      SetBlock (Some b) ;;
      SetStep PreCommit ;;
      vote Prepare)
  end)) ;;
  RestartTimer.

Definition replica_HandlePrecommitMessage (msg : HotstuffMessage) : CM unit :=
  onError (replica_anteHandle msg) discard (fun _ =>
  let quorumCert := GetQuorumCertificate msg in
  onError (validateQuorumCertificate quorumCert) interrupt (fun _ =>
  SetStep Commit_ ;;
  modify (fun m => set_prepareQC quorumCert (set_prepareShares false m)) ;;
  vote PreCommit)) ;;
  RestartTimer.

Definition replica_HandleCommitMessage (msg : HotstuffMessage) : CM unit :=
  onError (replica_anteHandle msg) discard (fun _ =>
  let quorumCert := GetQuorumCertificate msg in
  onError (validateQuorumCertificate quorumCert) interrupt (fun _ =>
  SetStep Decide ;;
  modify (fun m => set_lockedQC quorumCert (set_lockedShares false m)) ;;
  vote Commit_)) ;;
  RestartTimer.

Definition replica_HandleDecideMessage (msg : HotstuffMessage) : CM unit :=
  onError (replica_anteHandle msg) discard (fun _ =>
  let quorumCert := GetQuorumCertificate msg in
  onError (validateQuorumCertificate quorumCert) interrupt (fun _ =>
  match quorumCert with
  | None => panic
  | Some qc =>
      match marshalQC qc with
      | None => mret tt
      | Some quorumCertBytes =>
          setBlockQuorumCertificate quorumCertBytes ;;
          m ← get;
          onError (commitBlock (block m)) interrupt (fun _ => NewHeight)
      end
  end)) ;;
  RestartTimer.

(** ** hotstuff_leader.go: handlers *)
Definition leader_anteHandle (msg : HotstuffMessage) : CM unit :=
  isValidMessageBlock msg ;;
  validateMessageSignature msg ;;
  indexHotstuffMessage msg.

(** Broadcast a proposal for the current block. *)
Definition propose (st : Z) (qc : option QuorumCertificate) (k : CM unit) : CM unit :=
  m ← get;
  onError (of_res (CreateProposeMessage (height m) (round m) st (block m) qc)) interrupt (fun msg =>
  broadcastToValidators msg ;; k).

Definition leader_HandleNewRoundMessage (msg : HotstuffMessage) : CM unit :=
  onError (leader_anteHandle msg) discard (fun _ =>
  onError (didReceiveEnoughMessageForStep NewRound) discard (fun _ =>
  onError refreshUtilityUnitOfWork discard (fun _ =>
  msgs ← readPool NewRound HotstuffMempool.GetAll;
  let highPrepareQC := findHighQC msgs in
  let continue :=
    SetStep Prepare ;;
    onPool NewRound HotstuffMempool.Clear ;;
    propose Prepare highPrepareQC (vote Prepare) in
  m ← get;
  if shouldPrepareNewBlock highPrepareQC m then
    onError (prepareBlock highPrepareQC) interrupt (fun b => SetBlock (Some b) ;; continue)
  else
    match highPrepareQC ≫= qc_Block with
    | None => panic
    | Some b => onError (applyBlock b) interrupt (fun _ => SetBlock (Some b) ;; continue)
    end))) ;;
  RestartTimer.

Definition leader_HandlePrepareMessage (msg : HotstuffMessage) : CM unit :=
  onError (leader_anteHandle msg) discard (fun _ =>
  onError (didReceiveEnoughMessageForStep Prepare) discard (fun _ =>
  m ← get;
  onError (getQuorumCertificate (height m) Prepare (round m)) discard (fun qc =>
  SetStep PreCommit ;;
  modify (fun m => set_prepareQC (Some qc) (set_prepareShares true m)) ;;
  onPool Prepare HotstuffMempool.Clear ;;
  propose PreCommit (Some qc) (vote PreCommit)))) ;;
  RestartTimer.

Definition leader_HandlePrecommitMessage (msg : HotstuffMessage) : CM unit :=
  onError (leader_anteHandle msg) discard (fun _ =>
  onError (didReceiveEnoughMessageForStep PreCommit) discard (fun _ =>
  m ← get;
  onError (getQuorumCertificate (height m) PreCommit (round m)) discard (fun qc =>
  SetStep Commit_ ;;
  modify (fun m => set_lockedQC (Some qc) (set_lockedShares true m)) ;;
  onPool PreCommit HotstuffMempool.Clear ;;
  propose Commit_ (Some qc) (vote Commit_)))) ;;
  RestartTimer.

Definition leader_HandleCommitMessage (msg : HotstuffMessage) : CM unit :=
  onError (leader_anteHandle msg) discard (fun _ =>
  onError (didReceiveEnoughMessageForStep Commit_) discard (fun _ =>
  m ← get;
  onError (getQuorumCertificate (height m) Commit_ (round m)) discard (fun qc =>
  SetStep Decide ;;
  onPool Commit_ HotstuffMempool.Clear ;;
  propose Decide (Some qc) (
    match marshalQC qc with
    | None => mret tt
    | Some commitQcBytes =>
        setBlockQuorumCertificate commitQcBytes ;;
        m ← get;
        onError (commitBlock (block m)) interrupt (fun _ => NewHeight)
    end)))) ;;
  RestartTimer.

Definition leader_HandleDecideMessage (msg : HotstuffMessage) : CM unit :=
  onError (leader_anteHandle msg) discard (fun _ => mret tt) ;;
  RestartTimer.

(** ** hotstuff_handler.go, module.go *)
Definition leaderHandlers (st : Z) : option (HotstuffMessage -> CM unit) :=
  if bool_decide (st = NewRound) then Some leader_HandleNewRoundMessage
  else if bool_decide (st = Prepare) then Some leader_HandlePrepareMessage
  else if bool_decide (st = PreCommit) then Some leader_HandlePrecommitMessage
  else if bool_decide (st = Commit_) then Some leader_HandleCommitMessage
  else if bool_decide (st = Decide) then Some leader_HandleDecideMessage
  else None.
Definition replicaHandlers (st : Z) : option (HotstuffMessage -> CM unit) :=
  if bool_decide (st = NewRound) then Some replica_HandleNewRoundMessage
  else if bool_decide (st = Prepare) then Some replica_HandlePrepareMessage
  else if bool_decide (st = PreCommit) then Some replica_HandlePrecommitMessage
  else if bool_decide (st = Commit_) then Some replica_HandleCommitMessage
  else if bool_decide (st = Decide) then Some replica_HandleDecideMessage
  else None.

Definition shouldElectNextLeader (m : consensusModule) : bool :=
  bool_decide (step m = NewRound) && negb (IsLeaderSet m).

(** A missing handler is a nil function; calling it panics. *)
Definition handleHotstuffMessage (msg : HotstuffMessage) : CM unit :=
  shouldHandle ← ShouldHandleMessage msg;
  if negb shouldHandle then mret tt
  else
    m ← get;
    (if shouldElectNextLeader m then electNextLeader msg else mret tt) ;;
    m ← get;
    match (if IsLeader m then leaderHandlers else replicaHandlers) (hm_Step msg) with
    | Some handler => handler msg
    | None => panic
    end.

Definition HotstuffMessageContentType : string := "consensus.HotstuffMessage".

(** An [anypb.Any] is the name of a message and its encoding. *)
Definition HandleMessage (messageName : string) (value : bytes) : CM unit :=
  if bool_decide (messageName = HotstuffMessageContentType) then
    msg ← of_option (ErrText "proto: unmarshal") (unmarshalMsg value);
    handleHotstuffMessage msg
  else fail (ErrUnknownConsensusMessageType messageName).

(** The module as [Create] leaves it, before [Start]. *)
Definition newModule (w : W) : consensusModule := {|
  height := 0; round := 0; step := NewRound; block := None; prepareQC := None; prepareShares := false;
  lockedQC := None; lockedShares := false; leaderId := None; utilityUnitOfWork := None;
  hotstuffMempool := list_to_map ((fun st => (st, HotstuffMempool.NewHotstuffFIFOMempool (MaxMempoolBytes cfg))) <$> HotstuffSteps);
  manualMode := pacemakerManual cfg; debugQC := None; timer := 0; metadataReceived := []; blocksReceived := [];
  sent := []; events := []; world := w |}.

(** The height of the block after the last committed one; errors leave the height at 0. *)
Definition loadPersistedState : CM unit :=
  m ← get;
  match NewReadContext (-1) (world m) with
  | Panic => panic
  | Err _ => mret tt
  | Ok readCtx =>
      match GetMaximumBlockHeight readCtx with
      | Ok latestHeight => if bool_decide (latestHeight = 0) then mret tt
                           else modify (set_height (u64 (latestHeight + 1)))
      | _ => mret tt
      end
  end.

(** ** debugging.go, module_consensus_debugging.go *)
Definition resetToGenesis : CM unit :=
  onWorld ResetToGenesis ;;
  modify (fun m => set_world (MempoolClear (world m)) m) ;;
  ResetRound true ;;
  SetHeight 0.

Definition triggerNextView : CM unit :=
  m ← get;
  (if bool_decide (height m = 0) || (bool_decide (step m = Decide) && IsManualMode m) then NewHeight
   else InterruptRound) ;;
  m ← get;
  if IsManualMode m then ForceNextView else mret tt.

Definition togglePacemakerManualMode : CM unit := m ← get; SetManualMode (negb (IsManualMode m)).

Definition sendToOthers (msg : StateSyncMessage) : CM unit :=
  m ← get;
  validators ← validatorsOrNone (CurrentHeight m);
  forM validators (fun val =>
    if bool_decide (nodeAddress cfg = Address val) then mret tt
    else dst ← of_module (AddressFromString (Address val)); send dst (OStateSync msg)).
Definition sendGetBlockStateSyncMessage : CM unit :=
  m ← get; sendToOthers (GetBlockReq (nodeAddress cfg) (u64 (CurrentHeight m - 1))).
Definition sendGetMetadataStateSyncMessage : CM unit := sendToOthers (MetadataReq (nodeAddress cfg)).

(** Actions by their protobuf number. *)
Definition HandleDebugMessage (action : Z) : CM unit :=
  if bool_decide (action = 1) then resetToGenesis
  else if bool_decide (action = 2) then mret tt
  else if bool_decide (action = 3) then triggerNextView
  else if bool_decide (action = 4) then togglePacemakerManualMode
  else if bool_decide (action = 6) then sendGetBlockStateSyncMessage
  else if bool_decide (action = 5) then sendGetMetadataStateSyncMessage
  else mret tt.

(** ** fsm_handler.go: [stateSync.Start] does nothing yet *)
Definition stateSyncStart : CM unit := mret tt.
Definition HandleUnsynced : CM unit := onWorld (SendEvent StateMachineEvent_Consensus_IsSyncing).
Definition HandleSyncMode : CM unit := stateSyncStart.
Definition handleStateTransitionEvent (newState : string) : CM unit :=
  if bool_decide (newState = "P2P_Bootstrapped") then mret tt
  else if bool_decide (newState = "Consensus_Unsynced") then HandleUnsynced
  else if bool_decide (newState = "Consensus_SyncMode") then HandleSyncMode
  else mret tt.

(** ** state_sync_handler.go, state_sync/server.go *)
Definition metadataChannelSize : Z := 1000.
Definition blocksChannelSize : Z := 1000.

Definition sendStateSyncMessage (msg : StateSyncMessage) (peer : string) : CM unit :=
  dst ← of_module (AddressFromString peer); send dst (OStateSync msg).

Definition HandleStateSyncMetadataRequest (peer : string) : CM unit :=
  m ← get;
  let prevPersistedBlockHeight := u64 (CurrentHeight m - 1) in
  match NewReadContext (i64 prevPersistedBlockHeight) (world m) with
  | Panic => panic
  | Err _ => mret tt
  | Ok readCtx =>
      maxHeight ← of_module (GetMaximumBlockHeight readCtx);
      minHeight ← of_module (GetMinimumBlockHeight readCtx);
      sendStateSyncMessage (MetadataRes (nodeAddress cfg) minHeight (u64 maxHeight)) peer
  end.

Definition HandleGetBlockRequest (peer : string) (h : Z) : CM unit :=
  m ← get;
  let prevPersistedBlockHeight := u64 (CurrentHeight m - 1) in
  if bool_decide (prevPersistedBlockHeight < h) then
    fail (ErrText "requested block height is higher than current persisted block height")
  else
    b ← of_module (BlockStoreGetBlock h (world m));
    sendStateSyncMessage (GetBlockRes (nodeAddress cfg) b) peer.

(** [false]: the send to a full channel blocks, with the module's lock held. *)
Definition handleStateSyncMessage (msg : StateSyncMessage) : CM bool :=
  match msg with
  | MetadataReq peer => if serverModeEnabled cfg then HandleStateSyncMetadataRequest peer ;; mret true else mret true
  | MetadataRes _ _ _ =>
      m ← get;
      if bool_decide (metadataChannelSize <= Z.of_nat (length (metadataReceived m))) then mret false
      else modify (fun m => set_metadataReceived (metadataReceived m ++ [msg]) m) ;; mret true
  | GetBlockReq peer h => if serverModeEnabled cfg then HandleGetBlockRequest peer h ;; mret true else mret true
  | GetBlockRes _ _ =>
      m ← get;
      if bool_decide (blocksChannelSize <= Z.of_nat (length (blocksReceived m))) then mret false
      else modify (fun m => set_blocksReceived (blocksReceived m ++ [msg]) m) ;; mret true
  | UnspecifiedStateSync => fail (ErrText "unspecified state sync message type")
  end.
End consensus.
Arguments consensusModule W U : clear implicits.
End Consensus.
