(* ===== verification/Fsm.v ===== *)
(** The node's finite state machine (src/state_machine/fsm.go, module.go,
    src/shared/core/types/fsm_events.go, fsm_states.go).

    The transition table is the source's.  The machine itself is the library looplab/fsm: it
    is the operation [fsmEvent], with its documented behaviour in [FsmLaws]: an event moves
    the machine along the transition that is declared for it in the current state, and is an
    error when there is none. *)

From S2P Require Import Prelude.
#[local] Open Scope string_scope.

Module Fsm.

Definition StateMachineEvent_Start : string := "Start".
Definition StateMachineEvent_P2P_IsBootstrapped : string := "P2P_IsBootstrapped".
Definition StateMachineEvent_Consensus_IsUnsynced : string := "Consensus_IsUnsynced".
Definition StateMachineEvent_Consensus_IsSyncing : string := "Consensus_IsSyncing".
Definition StateMachineEvent_Consensus_IsSyncedValidator : string := "Consensus_IsSyncedValidator".
Definition StateMachineEvent_Consensus_IsSyncedNonValidator : string := "Consensus_IsSyncedNonValidator".

Definition StateMachineState_Stopped : string := "Stopped".
Definition StateMachineState_P2P_Bootstrapping : string := "P2P_Bootstrapping".
Definition StateMachineState_P2P_Bootstrapped : string := "P2P_Bootstrapped".
Definition StateMachineState_Consensus_Unsynced : string := "Consensus_Unsynced".
Definition StateMachineState_Consensus_SyncMode : string := "Consensus_SyncMode".
Definition StateMachineState_Consensus_Synced : string := "Consensus_Synced".
Definition StateMachineState_Consensus_Pacemaker : string := "Consensus_Pacemaker".

Record EventDesc := { Name : string; Src : list string; Dst : string }.

Definition NewNodeFSM : list EventDesc := [
  {| Name := StateMachineEvent_Start; Src := [StateMachineState_Stopped];
     Dst := StateMachineState_P2P_Bootstrapping |};
  {| Name := StateMachineEvent_P2P_IsBootstrapped; Src := [StateMachineState_P2P_Bootstrapping];
     Dst := StateMachineState_P2P_Bootstrapped |};
  {| Name := StateMachineEvent_Consensus_IsSyncing; Src := [StateMachineState_Consensus_Unsynced];
     Dst := StateMachineState_Consensus_SyncMode |};
  {| Name := StateMachineEvent_Consensus_IsSyncedValidator; Src := [StateMachineState_Consensus_SyncMode];
     Dst := StateMachineState_Consensus_Pacemaker |};
  {| Name := StateMachineEvent_Consensus_IsSyncedNonValidator; Src := [StateMachineState_Consensus_SyncMode];
     Dst := StateMachineState_Consensus_Synced |};
  {| Name := StateMachineEvent_Consensus_IsUnsynced;
     Src := [StateMachineState_Consensus_Pacemaker; StateMachineState_Consensus_Synced; StateMachineState_P2P_Bootstrapped];
     Dst := StateMachineState_Consensus_Unsynced |}].

(** The declared transition of an event in a state; a later declaration wins. *)
Fixpoint declared (table : list EventDesc) (current event : string) : option string :=
  match table with
  | [] => None
  | d :: rest =>
      match declared rest current event with
      | Some dst => Some dst
      | None => if bool_decide (Name d = event) && bool_decide (current ∈ Src d) then Some (Dst d) else None
      end
  end.

(** [fsmEvent table current event]: the new state, or the text of the error. *)
Class FsmLib := { fsmEvent : list EventDesc -> string -> string -> res string string }.
Class FsmLaws (L : FsmLib) : Prop := {
  fsm_declared : forall table current event dst,
    declared table current event = Some dst -> dst ≠ current -> fsmEvent table current event = Ok dst;
  fsm_undeclared : forall table current event,
    declared table current event = None -> exists e, fsmEvent table current event = Err e;
}.

(** The state of the module: the current state and the transition events published on the bus
    (event, previous state, new state), by the callback [enter_state]. *)
Record stateMachineModule := { current : string; published : list (string * string * string) }.

Definition initial : stateMachineModule := {| current := StateMachineState_Stopped; published := [] |}.

Definition SendEvent `{FsmLib} (event : string) : M stateMachineModule string unit := fun m =>
  match fsmEvent NewNodeFSM (current m) event with
  | Ok dst => (Ok tt, {| current := dst; published := (published m ++ [(event, current m, dst)])%list |})
  | Err e => (Err e, m)
  | Panic => (Panic, m)
  end.

(** ** The machine as a step relation *)
Inductive step `{FsmLib} : stateMachineModule -> string -> stateMachineModule -> Prop :=
| step_event m e m' : SendEvent e m = (Ok tt, m') -> step m e m'.

Inductive reachable `{FsmLib} : stateMachineModule -> Prop :=
| reach_initial : reachable initial
| reach_step m e m' : reachable m -> step m e m' -> reachable m'.

(** The published events form a path from [Stopped] to the current state, and each of them
    is a declared transition. *)
Fixpoint path_ok (from : string) (p : list (string * string * string)) (to : string) : Prop :=
  match p with
  | [] => from = to
  | (e, src, dst) :: rest => src = from /\ declared NewNodeFSM src e = Some dst /\ path_ok dst rest to
  end.

Lemma path_ok_snoc from p to e dst :
  path_ok from p to -> declared NewNodeFSM to e = Some dst -> path_ok from (p ++ [(e, to, dst)])%list dst.
Proof.
  revert from. induction p as [|[[e' s'] d'] p IH]; intros from; cbn.
  - intros <- Hd. done.
  - intros (-> & Hd' & Hp) Hd. split; [done|]. split; [done|]. by apply IH.
Qed.

Lemma declared_in table current event dst :
  declared table current event = Some dst -> exists d, d ∈ table /\ Name d = event /\ current ∈ Src d /\ Dst d = dst.
Proof.
  induction table as [|d table IH]; [done|]. cbn. destruct (declared table current event) as [dst'|].
  - intros [= ->]. destruct (IH eq_refl) as (d' & Hd' & ?). exists d'. split; [by apply list_elem_of_further|done].
  - clear IH. destruct (_ && _) eqn:Hb; [|done]. intros [= <-]. apply andb_prop in Hb as [?%bool_decide_eq_true ?%bool_decide_eq_true].
    exists d. split; [by apply list_elem_of_here|done].
Qed.

(** Every declared transition leaves its state. *)
Lemma node_fsm_no_loop current event dst : declared NewNodeFSM current event = Some dst -> dst ≠ current.
Proof.
  intros (d & Hd & _ & Hc & <-)%declared_in <-. assert (Forall (fun d => Dst d ∉ Src d) NewNodeFSM) as Hall.
  { apply (bool_decide_unpack _). by vm_compute. }
  rewrite Forall_forall in Hall. by apply (Hall d Hd).
Qed.

Lemma send_event_declared `{FsmLaws} e m m' :
  SendEvent e m = (Ok tt, m') ->
  declared NewNodeFSM (current m) e = Some (current m') /\
  published m' = (published m ++ [(e, current m, current m')])%list.
Proof.
  unfold SendEvent. destruct (declared NewNodeFSM (current m) e) as [dst|] eqn:Hd.
  - rewrite (fsm_declared _ _ _ _ Hd (node_fsm_no_loop _ _ _ Hd)). by intros [= <-].
  - destruct (fsm_undeclared _ _ _ Hd) as [err ->]. done.
Qed.

(** in every reachable state of the node's state machine the events published on the bus
    are a path of declared transitions from [Stopped] to the current state. *)
Theorem fsm_published_is_path `{FsmLaws} (m : stateMachineModule) :
  reachable m -> path_ok StateMachineState_Stopped (published m) (current m).
Proof.
  induction 1 as [|m e m' Hm IH Hs]; [done|]. destruct Hs as [m e m' Hs].
  apply send_event_declared in Hs as [Hd ->]. by apply path_ok_snoc.
Qed.

(** A reference implementation of the library operation. *)
#[local] Instance refFsm : FsmLib := {|
  fsmEvent table current event :=
    match declared table current event with
    | Some dst => if bool_decide (dst = current) then Err "no transition" else Ok dst
    | None => Err ("event " +:+ event +:+ " inappropriate in current state " +:+ current)
    end |}.
#[local] Instance refFsmLaws : FsmLaws refFsm.
Proof.
  constructor.
  - intros table current event dst Hd Hne. cbn. rewrite Hd. by rewrite bool_decide_eq_false_2.
  - intros table current event Hd. cbn. rewrite Hd. by eexists.
Qed.

Lemma reachable_send m e : reachable m -> is_ok (SendEvent e m).1 = true -> reachable (SendEvent e m).2.
Proof.
  intros Hm Hok. eapply reach_step; [exact Hm|]. apply (step_event m e).
  destruct (SendEvent e m) as [[[]|?|] ?]; done.
Qed.

Definition run (es : list string) : stateMachineModule := foldl (fun m e => (SendEvent e m).2) initial es.

Lemma fsm_published_is_path_witness :
  let m := run [StateMachineEvent_Start; StateMachineEvent_P2P_IsBootstrapped;
                StateMachineEvent_Consensus_IsUnsynced; StateMachineEvent_Consensus_IsSyncing] in
  current m = StateMachineState_Consensus_SyncMode /\
  path_ok StateMachineState_Stopped (published m) (current m).
Proof.
  split; [reflexivity|]. apply fsm_published_is_path. cbn [run foldl].
  repeat (apply reachable_send; [|vm_compute; reflexivity]). apply reach_initial.
Defined.
End Fsm.
