(* ===== verification/Node.v ===== *)
(** The modules of a node put together: the interfaces of the consensus module implemented by
    the persistence contexts, the unit of work, the transaction mempool and the state machine
    (src/persistence/module.go, src/utility/unit_of_work.go, module.go of the utility module).

    The database is a committed state and at most one open write transaction; the block store
    and the transaction index live outside of transactions, so what a unit of work writes to
    them stays even if it is released.  The state trees, the order of Go map iteration, the
    clock and the genesis state are parameters. *)

From S2P Require Import Prelude GoStd Errors Crypto CoreTypes Gov Messages Sql Persistence FifoSet TxMempool UnitOfWork Fsm ConsTypes Consensus.
#[local] Open Scope string_scope.
#[local] Open Scope Z_scope.

Module Node.

Record Modules := {
  committedDB : PostgresContext;
  writeContextOpen : bool;
  txMempool : TxMempool.txFIFOMempool;
  fsm : Fsm.stateMachineModule;
}.

Record Uow := { leaderUow : bool; base : UnitOfWork.baseUtilityUnitOfWork }.

Definition set_committedDB (p : PostgresContext) (w : Modules) : Modules :=
  {| committedDB := p; writeContextOpen := writeContextOpen w; txMempool := txMempool w; fsm := fsm w |}.
Definition set_writeContextOpen (b : bool) (w : Modules) : Modules :=
  {| committedDB := committedDB w; writeContextOpen := b; txMempool := txMempool w; fsm := fsm w |}.
Definition set_txMempool (t : TxMempool.txFIFOMempool) (w : Modules) : Modules :=
  {| committedDB := committedDB w; writeContextOpen := writeContextOpen w; txMempool := t; fsm := fsm w |}.
Definition set_fsm (f : Fsm.stateMachineModule) (w : Modules) : Modules :=
  {| committedDB := committedDB w; writeContextOpen := writeContextOpen w; txMempool := txMempool w; fsm := f |}.

(** A new context at a height, on the committed state. *)
Definition contextAt (h : Z) (p : PostgresContext) : PostgresContext :=
  {| Height := h; db := db p; ctx_stateHash := ""; blockStore := blockStore p; txIndexer := txIndexer p;
     networkId := networkId p |}.

Definition NewReadContext (h : Z) (w : Modules) : res string PostgresContext := Ok (contextAt h (committedDB w)).

Definition NewRWContext (h : Z) : M Modules string PostgresContext := fun w =>
  if writeContextOpen w then (Err "cannot create a new write context if one already exists", w)
  else (Ok (contextAt h (committedDB w)), set_writeContextOpen true w).

Definition ReleaseWriteContext : M Modules string unit := modify (set_writeContextOpen false).

Definition NewUnitOfWork (h : Z) (isLeader : bool) : M Modules string Uow :=
  w ← get;
  readContext ← of_res (NewReadContext h w);
  rwContext ← NewRWContext h;
  mret {| leaderUow := isLeader;
          base := if isLeader then UnitOfWork.NewLeaderUOW h readContext rwContext
                  else UnitOfWork.NewReplicaUOW h readContext rwContext |}.

Definition goErrText (e : UnitOfWork.goErr) : string :=
  match e with UnitOfWork.PocketErr e => error_text e | UnitOfWork.PlainErr s => s end.

(** The key-value stores as the unit of work left them. *)
Definition syncStores (u : UnitOfWork.baseUtilityUnitOfWork) (w : Modules) : Modules :=
  match UnitOfWork.persistenceRWContext u with
  | None => w
  | Some p => set_committedDB {| Height := Height (committedDB w); db := db (committedDB w);
      ctx_stateHash := ctx_stateHash (committedDB w); blockStore := blockStore p; txIndexer := txIndexer p;
      networkId := networkId (committedDB w) |} w
  end.

(** An operation of the unit of work that also uses the mempool. *)
Definition onUowMempool {A} (f : M UnitOfWork.US UnitOfWork.goErr A) : M (Uow * Modules) string A := fun '(u, w) =>
  let '(r, s') := f {| UnitOfWork.uow := base u; UnitOfWork.mempool := txMempool w |} in
  (match r with Ok a => Ok a | Err e => Err (goErrText e) | Panic => Panic end,
   ({| leaderUow := leaderUow u; base := UnitOfWork.uow s' |},
    syncStores (UnitOfWork.uow s') (set_txMempool (UnitOfWork.mempool s') w))).

Definition onBase {A} (f : UnitOfWork.UM A) : M (Uow * Modules) string A := fun '(u, w) =>
  let '(r, b') := f (base u) in
  (match r with Ok a => Ok a | Err e => Err (error_text e) | Panic => Panic end,
   ({| leaderUow := leaderUow u; base := b' |}, w)).

(** A commit makes the transaction's state the committed one and closes the write context. *)
Definition UowCommit (now : Z) (quorumCert : slice) : M (Uow * Modules) string unit := fun '(u, w) =>
  match UnitOfWork.Commit now quorumCert (base u) with
  | (Ok p', b') => (Ok tt, ({| leaderUow := leaderUow u; base := b' |}, set_writeContextOpen false (set_committedDB p' w)))
  | (Err e, b') => (Err e, ({| leaderUow := leaderUow u; base := b' |}, syncStores b' w))
  | (Panic, b') => (Panic, ({| leaderUow := leaderUow u; base := b' |}, syncStores b' w))
  end.

(** Releasing the read-write context rolls its transaction back. *)
Definition UowRelease : M (Uow * Modules) string unit := fun '(u, w) =>
  let w' := match UnitOfWork.persistenceRWContext (base u) with
            | Some _ => set_writeContextOpen false w | None => w end in
  onBase UnitOfWork.Release (u, w').

Section instances.
Context `{CryptoPrims} `{Codec} `{Fsm.FsmLib}.
Context (treesUpdate : DB -> TxIndexer -> Z -> res string string) (order1 order2 : list Z) (now : Z) (genesis : PostgresContext).

#[global] Instance nodeModules : Consensus.PersistenceUtilityModules Modules Uow := {|
  Consensus.NewReadContext := NewReadContext;
  Consensus.ReleaseWriteContext := ReleaseWriteContext;
  Consensus.NewUnitOfWork := NewUnitOfWork;
  Consensus.BlockStoreGetBlock h w :=
    match blockStore (committedDB w) !! h with Some b => Ok b | None => Err "Key not found" end;
  Consensus.ResetToGenesis := modify (fun w => set_writeContextOpen false (set_committedDB genesis w));
  Consensus.MempoolClear w := set_txMempool (TxMempool.ClearTxs (txMempool w)) w;
  Consensus.SendEvent e w := let '(r, f') := Fsm.SendEvent e (fsm w) in (r, set_fsm f' w);
|}.

#[global] Instance nodeUow : Consensus.UtilityUnitOfWork Modules Uow := {|
  Consensus.isLeaderUnitOfWork := leaderUow;
  Consensus.SetProposalBlock blockHash proposer txs := onBase (UnitOfWork.SetProposalBlock blockHash proposer txs);
  Consensus.ApplyBlock := onUowMempool (UnitOfWork.ApplyBlock treesUpdate order1 order2);
  Consensus.GetStateHash u := UnitOfWork.GetStateHash (base u);
  Consensus.CreateProposalBlock proposer maxTxBytes :=
    onUowMempool (UnitOfWork.CreateProposalBlock treesUpdate order1 order2 (Some proposer) maxTxBytes);
  Consensus.UowCommit qc := UowCommit now qc;
  Consensus.Release := UowRelease;
|}.
End instances.
End Node.

(** A concrete node for the witnesses of the consensus theorems: four validators with toy
    keys, the modules of [Node] with a trivial state tree, and an encoder of hotstuff messages
    that keeps the view of a message. *)
Module NodeToy.

(** *** An encoder *)
Definition viewOf (msg : HotstuffMessage) : Z * Z * Z * Z := (hm_Type msg, hm_Height msg, hm_Step msg, hm_Round msg).

Definition marshalView (msg : HotstuffMessage) : option bytes := Some (bigIntText (Z.pos (encode (viewOf msg)))).
Definition unmarshalView (b : bytes) : option HotstuffMessage :=
  match bigIntSetString b with
  | Some (Z.pos p) =>
      '(t, h, s, r) ← decode (A := Z * Z * Z * Z) p;
      Some {| hm_Type := t; hm_Height := h; hm_Step := s; hm_Round := r; hm_Block := None; hm_Justification := JNone |}
  | _ => None
  end.

Definition hcodec : HotstuffCodec := {|
  marshalBlock b := Some (from_option bh_StateHash "" (b_Header b));
  marshalMsg := marshalView;
  unmarshalMsg := unmarshalView;
  marshalQC qc := Some (bigIntText (qc_Height qc));
  unmarshalQC b := h ← bigIntSetString b;
    Some {| qc_Height := h; qc_Round := 0; qc_Step := Prepare; qc_Block := None; qc_ThresholdSignature := None |};
|}.

Lemma hcodec_laws : HotstuffCodecLaws hcodec.
Proof.
  split. intros msg b. cbn. intros [= <-]. unfold unmarshalView.
  rewrite bigInt_text_parse, decode_encode. cbn. eexists. done.
Qed.

(** *** Four validators *)
Fixpoint repeatChar (c : Ascii.ascii) (n : nat) : string :=
  match n with O => EmptyString | S n' => String c (repeatChar c n') end.
Definition key (i : nat) : bytes := repeatChar (Ascii.ascii_of_nat (64 + i)) 64.
Definition pubKey (i : nat) : bytes := repeatChar (Ascii.ascii_of_nat (64 + i)) 32.
Definition addr (i : nat) : bytes := repeatChar (Ascii.ascii_of_nat (64 + i)) 20.

Definition emptyContext : PostgresContext := {| Height := 0; db := emptyDB; ctx_stateHash := ""; blockStore := ∅;
  txIndexer := {| txByHash := ∅; txByHeight := ∅ |}; networkId := "toy" |}.

Definition insertVal (i : nat) : PM unit :=
  InsertValidator (addr i) (pubKey i) (addr i) "https://val" "100" (-1) (-1).
Definition genesis : PostgresContext :=
  ((insertVal 1 ;; insertVal 2 ;; insertVal 3 ;; insertVal 4 ;;
    SetAccountAmount (addr 1) "100" ;; SetParam MessageSendFee (PVString "10") ;;
    SetParam ValidatorMaximumMissedBlocksParamName (PVInt 5) ;; SetParam ProposerPercentageOfFeesParamName (PVInt 10) ;;
    insertBlock {| b_Header := Some {| bh_Height := 0; bh_NetworkId := "toy"; bh_StateHash := "genesis";
      bh_PrevStateHash := ""; bh_ProposerAddress := None; bh_QuorumCertificate := None; bh_Timestamp := 0 |};
      b_Transactions := [] |}) emptyContext).2.

Definition modules : Node.Modules := {| Node.committedDB := genesis; Node.writeContextOpen := false;
  Node.txMempool := TxMempool.NewTxFIFOMempool 1000 10; Node.fsm := Fsm.initial |}.

Definition treesUpdate (_ : DB) (_ : TxIndexer) (_ : Z) : res string string := Ok "root".

Definition pum : Consensus.PersistenceUtilityModules Node.Modules Node.Uow :=
  @Node.nodeModules Fsm.refFsm genesis.
Definition uowOps : Consensus.UtilityUnitOfWork Node.Modules Node.Uow :=
  @Node.nodeUow ToyCrypto.prims ToyCodec.codec treesUpdate [] [] 0.

Definition cfg (i : nat) : Consensus.Config := {|
  Consensus.privateKey := key i; Consensus.nodeId := Z.of_nat i; Consensus.nodeAddress := hexEncode (addr i);
  Consensus.MaxMempoolBytes := 10000; Consensus.MaxBlockBytes := 4000; Consensus.sizeofBlock := 72;
  Consensus.serverModeEnabled := false; Consensus.pacemakerManual := false |}.

(** A node at height 1 that has not started a round yet. *)
Definition start (i : nat) : Consensus.consensusModule Node.Modules Node.Uow :=
  Consensus.set_height 1 (Consensus.newModule (cfg i) modules).

Definition validators : list Actor := GetAll ValidatorActor (Node.contextAt 1 genesis) 1.

(** A block and a vote for it. *)
Definition blockWith (h : string) : Block := {|
  b_Header := Some {| bh_Height := 1; bh_NetworkId := ""; bh_StateHash := h; bh_PrevStateHash := "genesis";
    bh_ProposerAddress := Some (addr 1); bh_QuorumCertificate := None; bh_Timestamp := 0 |};
  b_Transactions := [] |}.

Definition voteMsg (st : Z) (b : Block) (i : nat) : HotstuffMessage :=
  match @CreateVoteMessage ToyCrypto.prims hcodec 1 0 st (Some b) (key i) with
  | Ok v => v
  | _ => {| hm_Type := 0; hm_Height := 0; hm_Step := 0; hm_Round := 0; hm_Block := None; hm_Justification := JNone |}
  end.
Definition sigOf (st : Z) (b : Block) (i : nat) : PartialSignature :=
  default {| ps_Signature := None; ps_Address := "" |} (GetPartialSignature (voteMsg st b i)).

Definition qcBy (st : Z) (b : Block) (signers : list nat) : QuorumCertificate := {|
  qc_Height := 1; qc_Round := 0; qc_Step := st; qc_Block := Some b;
  qc_ThresholdSignature := Some (sigOf st b <$> signers) |}.
End NodeToy.
