(* ===== verification/Genesis.v ===== *)
(** Start of the persistence module: hydrating the state from genesis, clearing it, and the debug
    messages that do so (src/persistence/genesis.go, debug.go, the creation functions of
    module.go, [InitGenesisParams] of gov.go and [InsertParams] of types/gov.go).

    Everything here calls [Fatal] on an error, which ends the process.  The state trees are
    third-party: the root hash after an update and the outcome of clearing them are arguments. *)

From S2P Require Import Prelude GoStd Crypto CoreTypes Gov Messages Sql Persistence Ledger ActorStore UnitOfWork UowStake Node.
#[local] Open Scope string_scope.
#[local] Open Scope Z_scope.

Module Genesis.
Import Node.

(** [genesis.GenesisState]; a field of [genesis.Params] is looked up by its protobuf name. *)
Record GenesisState := {
  gPools : list Account;
  gAccounts : list Account;
  gApplications : list Actor;
  gValidators : list Actor;
  gServicers : list Actor;
  gFishermen : list Actor;
  gParams : string -> ParamValue;
}.

(** ** Parameters *)

(** The value written in the statement for a parameter of the given column type: a text where a
    number is expected is a syntax error of the statement, any other mismatch ends the process. *)
Definition genesisParamRow (poktType : string) (v : ParamValue) : res string ParamRow :=
  if bool_decide (poktType = "STRING") then
    match v with
    | PVBytes vt => Ok {| val_type := ValTypeString; param_value := hexEncode (bz vt); enabled := false |}
    | PVString vt => Ok {| val_type := ValTypeString; param_value := vt; enabled := false |}
    | _ => Panic
    end
  else if bool_decide (poktType = "SMALLINT") || bool_decide (poktType = "BIGINT") then
    match v with
    | PVInt z | PVInt32 z | PVInt64 z =>
        Ok {| val_type := if bool_decide (poktType = "BIGINT") then ValTypeBigInt else ValTypeSmallInt; param_value := bigIntText z; enabled := false |}
    | _ => Err "syntax error"
    end
  else Panic.

Fixpoint insertParamRows (params : string -> ParamValue) (height : Z) (keys : list (string * GovParamMetadata)) (t : Table ParamRow) : res string (Table ParamRow) :=
  match keys with
  | [] => Ok t
  | (k, pnt) :: rest =>
      match genesisParamRow (PoktType pnt) (params k) with
      | Ok row => insertParamRows params height rest (upsert t k height row)
      | Err e => Err e
      | Panic => Panic
      end
  end.
Definition InsertParams (params : string -> ParamValue) (height : Z) (t : Table ParamRow) : res string (Table ParamRow) :=
  insertParamRows params height GovParamMetadataMap t.

Definition InitGenesisParams (params : string -> ParamValue) : PM unit :=
  p ← get;
  if bool_decide (Height p ≠ 0) then fail "cannot initialize params" else
  t ← of_res (InsertParams params (Height p) (Persistence.params (db p)));
  modify (fun p => set_db (set_params t (db p)) p).

Definition InitFlags : PM unit := mret tt.

(** ** The genesis state *)

(** The closure [addValueToPool] on the map of pool values. *)
Definition addValueToPool (address : bytes) (valueToAdd : string) (poolValues : gmap string Z) : res string (gmap string Z) :=
  match StringToBigInt valueToAdd with
  | Err e => Err e
  | Panic => Panic
  | Ok value => Ok (<[hexEncode address := default 0 (poolValues !! hexEncode address) + value]> poolValues)
  end.

(** A failure in the following is fatal. *)
Definition fatal {A} (m : PM A) : PM A := fun p => match m p with (Err _, p') => (Panic, p') | r => r end.
Definition decodeHex (s : string) : PM bytes := match hexDecode s with Some b => mret b | None => panic end.

Definition genesisAccount (acc : Account) : PM unit :=
  addrBz ← decodeHex (AccAddress acc);
  fatal (SetAccountAmount addrBz (AccAmount acc)).

Definition genesisPool (pool : Account) : PM unit :=
  addrBz ← decodeHex (AccAddress pool);
  fatal (InsertPool addrBz (AccAmount pool)).

Record stakedActorsInsertConfig := {
  saicGetter : GenesisState -> list Actor;
  saicInsertFn : bytes -> bytes -> bytes -> string -> string -> option (list string) -> Z -> Z -> PM unit;
  saicPool : Z;
}.

Definition stakedActorsInsertConfigs : list stakedActorsInsertConfig := [
  {| saicGetter := gApplications; saicInsertFn a pk o _ st ch ph uh := InsertApp a pk o st ch ph uh; saicPool := POOLS_APP_STAKE |};
  {| saicGetter := gServicers; saicInsertFn := InsertServicer; saicPool := POOLS_SERVICER_STAKE |};
  {| saicGetter := gFishermen; saicInsertFn := InsertFisherman; saicPool := POOLS_FISHERMAN_STAKE |};
  {| saicGetter := gValidators; saicInsertFn a pk o url st _ ph uh := InsertValidator a pk o url st ph uh; saicPool := POOLS_VALIDATOR_STAKE |}].

Definition genesisActor (saic : stakedActorsInsertConfig) (act : Actor) (poolValues : gmap string Z) : PM (gmap string Z) :=
  addrBz ← decodeHex (Address act);
  pubKeyBz ← decodeHex (PublicKey act);
  outputBz ← decodeHex (Output act);
  fatal (saicInsertFn saic addrBz pubKeyBz outputBz (ServiceUrl act) (StakedAmount act) (Chains act) (PausedHeight act) (UnstakingHeight act)) ;;
  fatal (of_res (addValueToPool (Pools_Address (saicPool saic)) (StakedAmount act) poolValues)).

Fixpoint genesisActors (saic : stakedActorsInsertConfig) (l : list Actor) (poolValues : gmap string Z) : PM (gmap string Z) :=
  match l with
  | [] => mret poolValues
  | act :: rest => v ← genesisActor saic act poolValues; genesisActors saic rest v
  end.

Fixpoint genesisActorTypes (state : GenesisState) (l : list stakedActorsInsertConfig) (poolValues : gmap string Z) : PM (gmap string Z) :=
  match l with
  | [] => mret poolValues
  | saic :: rest => v ← genesisActors saic (saicGetter saic state) poolValues; genesisActorTypes state rest v
  end.

Section module.
Context (treesUpdate : DB -> TxIndexer -> Z -> res string string) (treesClear : res string unit).

(** The write transaction of genesis, up to its commit; [poolValues] is computed and dropped. *)
Definition genesisTx (now : Z) (state : GenesisState) : PM unit :=
  forM (gAccounts state) genesisAccount ;;
  forM (gPools state) genesisPool ;;
  _ ← genesisActorTypes state stakedActorsInsertConfigs ∅;
  fatal (InitGenesisParams (gParams state)) ;;
  fatal InitFlags ;;
  _ ← fatal (UnitOfWork.ComputeStateHash treesUpdate);
  fatal (Commit now None None).

Definition populateGenesisState (now : Z) (state : GenesisState) : M Modules string unit := fun w =>
  match NewRWContext 0 w with
  | (Ok rwCtx, w1) =>
      match genesisTx now state rwCtx with
      | (Ok _, p') => (Ok tt, set_writeContextOpen false (set_committedDB p' w1))
      | (_, _) => (Panic, w1)
      end
  | (_, w1) => (Panic, w1)
  end.

(** ** Clearing *)
Definition protocolActorSchemas : list ProtocolActorSchema := [ApplicationActor; FishermanActor; ServicerActor; ValidatorActor].

Definition clearActor (d : DB) (s : ProtocolActorSchema) : DB :=
  let d := set_actors s ∅ d in
  if bool_decide (chainsTableName s ≠ "") then set_chains s ∅ d else d.

Definition clearAllSQLState (d : DB) : DB :=
  set_blocks ∅ (set_flags ∅ (set_params ∅ (set_pools ∅ (set_accounts ∅ (foldl clearActor d protocolActorSchemas))))).

(** The write context stays open if the trees cannot be cleared; the block store is cleared after
    the transaction, the transaction index is not touched. *)
Definition clearAllState : M Modules string unit := fun w =>
  match NewRWContext (-1) w with
  | (Ok rwCtx, w1) =>
      match treesClear with
      | Err e => (Err e, w1)
      | Panic => (Panic, w1)
      | Ok _ =>
          let p' := set_db (clearAllSQLState (db rwCtx)) rwCtx in
          (Ok tt, set_writeContextOpen false (set_committedDB (set_blockStore ∅ p') w1))
      end
  | (Err e, w1) => (Err e, w1)
  | (Panic, w1) => (Panic, w1)
  end.

(** Is the genesis state to be loaded?  Not if blocks above genesis are stored. *)
Definition shouldHydrateGenesisDb : M Modules string bool :=
  w ← get;
  readCtx ← of_res (NewReadContext (-1) w);
  match GetMaximumBlockHeight readCtx with
  | Ok blockHeight => if bool_decide (0 < blockHeight) then mret false else clearAllState ;; mret true
  | Err _ => mret true
  | Panic => panic
  end.

(** The part of [Create] after the stores are opened. *)
Definition hydrate (now : Z) (genesisState : GenesisState) : M Modules string unit :=
  should ← shouldHydrateGenesisDb;
  if should : bool then populateGenesisState now genesisState else mret tt.

Inductive DebugAction := SHOW_LATEST_BLOCK_IN_STORE | PERSISTENCE_CLEAR_STATE | PERSISTENCE_RESET_TO_GENESIS | OtherAction.

Definition HandleDebugMessage (now : Z) (genesisState : GenesisState) (action : DebugAction) : M Modules string unit :=
  match action with
  | SHOW_LATEST_BLOCK_IN_STORE => mret tt
  | PERSISTENCE_CLEAR_STATE => clearAllState
  | PERSISTENCE_RESET_TO_GENESIS => clearAllState ;; populateGenesisState now genesisState
  | OtherAction => mret tt
  end.
End module.

(** All accounts and pools, by address ([GetAllAccounts], [GetAllPools]). *)
Definition selectAccounts (sch : AccountSchema) (p : PostgresContext) (height : Z) : list Account :=
  (fun r : string * (Z * string) => {| AccAddress := r.1; AccAmount := r.2.2 |}) <$> SelectAllLatest (accTable sch (db p)) height.
Definition GetAllAccounts := selectAccounts AccountS.
Definition GetAllPools := selectAccounts PoolS.
End Genesis.

(** ** Facts *)
Module GenesisFacts.
Import Node Genesis.

(** *** Programs that leave a part of the context alone *)
Lemma keeps_fatal {X A} (f : PostgresContext -> X) (m : PM A) : keeps f m -> keeps f (fatal m).
Proof. intros Hm p. specialize (Hm p). unfold fatal. by destruct (m p) as [[] ?]. Qed.
Lemma keeps_decodeHex {X} (f : PostgresContext -> X) s : keeps f (decodeHex s).
Proof. unfold decodeHex. by destruct (hexDecode s). Qed.
#[local] Hint Resolve keeps_fatal keeps_decodeHex : keeps.

Lemma keeps_insertAccount {X} (f : PostgresContext -> X) sch k a :
  (forall t p, f (set_db (set_accTable sch t (db p)) p) = f p) -> keeps f (insertAccount sch k a).
Proof. intros Hf. unfold insertAccount. apply keeps_bind; [solve_keeps|]. intros p. apply keeps_bind; [solve_keeps|]. intros h. apply keeps_modify. intros q. apply Hf. Qed.

(** Databases that differ in the actors and their chains only. *)
Definition sameButActors (d d' : DB) : Prop :=
  accounts d = accounts d' /\ pools d = pools d' /\ params d = params d' /\ flags d = flags d' /\ blocks d = blocks d'.

Lemma keeps_InsertActor {X} (f : PostgresContext -> X) s a :
  (forall d p, sameButActors d (db p) -> f (set_db d p) = f p) -> keeps f (InsertActor s a).
Proof.
  intros Hf. unfold InsertActor. apply keeps_bind; [solve_keeps|]. intros p. apply keeps_bind; [solve_keeps|]. intros h.
  destruct (if bool_decide _ then _ else _) as [cs|].
  - apply keeps_bind; [solve_keeps|]. intros ct. apply keeps_modify. intros q. by apply Hf.
  - apply keeps_modify. intros q. by apply Hf.
Qed.

Lemma keeps_actors {X} (f : PostgresContext -> X) st v :
  (forall d p, sameButActors d (db p) -> f (set_db d p) = f p) ->
  keeps f (genesisActorTypes st stakedActorsInsertConfigs v).
Proof.
  intros Hf. assert (forall saic, saic ∈ stakedActorsInsertConfigs -> forall l v, keeps f (genesisActors saic l v)) as Hs.
  { intros saic Hin l. induction l as [|act l IH]; intros v'; cbn [genesisActors]; [solve_keeps|]. apply keeps_bind; [|intros ?; apply IH].
    unfold genesisActor. do 3 (apply keeps_bind; [solve_keeps|intros ?]). apply keeps_bind; [|intros _; solve_keeps]. apply keeps_fatal.
    unfold stakedActorsInsertConfigs in Hin. rewrite !elem_of_cons in Hin. destruct Hin as [->|[->|[->|[->|Hn%elem_of_nil]]]]; cbn; [by apply keeps_InsertActor..|done]. }
  revert v. assert (forall saics v, (forall s, s ∈ saics -> s ∈ stakedActorsInsertConfigs) -> keeps f (genesisActorTypes st saics v)) as Hg; [|intros v; by apply Hg].
  induction saics as [|s saics IH]; intros v Hin; cbn [genesisActorTypes]; [solve_keeps|].
  apply keeps_bind; [apply Hs, Hin; left|]. intros v'. apply IH. intros s' Hs'. apply Hin. by right.
Qed.

(** What the accounts, the pools and the actors of genesis leave alone. *)
Definition rest (p : PostgresContext) :=
  (Height p, params (db p), blocks (db p), blockStore p, txIndexer p, flags (db p), actorTables (db p), chainTables (db p)).

Lemma keeps_account acc : keeps rest (genesisAccount acc).
Proof.
  unfold genesisAccount. apply keeps_bind; [solve_keeps|intros a]. apply keeps_fatal. unfold SetAccountAmount, operationAccountAmount.
  do 5 (apply keeps_bind; [solve_keeps|intros ?]). by apply keeps_insertAccount.
Qed.
Lemma keeps_pool acc : keeps rest (genesisPool acc).
Proof. unfold genesisPool. apply keeps_bind; [solve_keeps|intros a]. apply keeps_fatal. by apply keeps_insertAccount. Qed.

Lemma fatal_ok {A} (m : PM A) p a p' : fatal m p = (Ok a, p') <-> m p = (Ok a, p').
Proof. unfold fatal. destruct (m p) as [[] ?]; naive_solver. Qed.

(** *** The ledger *)
Definition emptyLedger : Ledger := {| lacc := ∅; lpool := ∅ |}.

Definition listed (sch : AccountSchema) (l : list Account) (L : Ledger) : Ledger :=
  foldl (fun L acc => match hexDecode (AccAddress acc), bigIntSetString (AccAmount acc) with
                      | Some a, Some v => l_set sch (hexEncode a) v L
                      | _, _ => L
                      end) L l.

Lemma viewSide_insert_text t key txt v h :
  bigIntSetString txt = Some v -> viewSide (InsertAccount t key txt h) h = <[key := v]> (viewSide t h).
Proof.
  intros Hv. apply map_eq. intros key'. rewrite viewSide_lookup. unfold InsertAccount. destruct (decide (key = key')) as [<-|Hne].
  - by rewrite select_upsert_eq, lookup_insert_eq.
  - by rewrite select_upsert_ne, lookup_insert_ne, viewSide_lookup.
Qed.

Lemma accounts_listed l p p' :
  forM l genesisAccount p = (Ok tt, p') -> balances_ok (db p) (Height p) ->
  Height p' = Height p /\ view (db p') (Height p) = listed AccountS l (view (db p) (Height p)).
Proof.
  revert p. induction l as [|acc l IH]; intros p Hrun Hok; [by injection Hrun as <-|].
  cbn [forM] in Hrun. apply bind_ok in Hrun as ([] & p1 & H1 & Hrun). unfold genesisAccount, decodeHex in H1.
  destruct (hexDecode (AccAddress acc)) as [a|] eqn:Ha; [|done]. change (fatal (SetAccountAmount a (AccAmount acc)) p = (Ok tt, p1)) in H1. rewrite fatal_ok in H1.
  destruct (bigIntSetString (AccAmount acc)) as [v|] eqn:Hv.
  - unfold SetAccountAmount in H1. rewrite (operation_run AccountS (hexEncode a) (AccAmount acc) v _ p Hok Hv) in H1. injection H1 as <-.
    destruct (IH _ Hrun (balances_ok_write AccountS (hexEncode a) v p Hok)) as [Hh Hview]. split; [done|].
    etrans; [exact Hview|]. unfold listed. cbn [foldl]. rewrite Ha, Hv. apply (f_equal (fun L => foldl _ L l)), (view_writeBalance AccountS (hexEncode a) v p).
  - exfalso. destruct (getAccountAmount_view AccountS p (hexEncode a) (Height p) Hok) as (txt & Hg & Ht).
    unfold SetAccountAmount, operationAccountAmount, get, GetHeight, of_res in H1. cbv [mbind M_bind] in H1. rewrite Hg in H1.
    unfold StringToBigInt in H1. by rewrite Ht, Hv in H1.
Qed.

Lemma pools_listed l p p' :
  forM l genesisPool p = (Ok tt, p') -> Forall (fun a => is_Some (bigIntSetString (AccAmount a))) l ->
  Height p' = Height p /\ view (db p') (Height p) = listed PoolS l (view (db p) (Height p)).
Proof.
  intros Hrun Hl. revert p Hrun. induction Hl as [|acc l [v Hv] Hl IH]; intros p Hrun; [by injection Hrun as <-|].
  cbn [forM] in Hrun. apply bind_ok in Hrun as ([] & p1 & H1 & Hrun). unfold genesisPool, decodeHex in H1.
  destruct (hexDecode (AccAddress acc)) as [a|] eqn:Ha; [|done]. change (fatal (InsertPool a (AccAmount acc)) p = (Ok tt, p1)) in H1. rewrite fatal_ok in H1.
  injection H1 as <-. destruct (IH _ Hrun) as [Hh Hview]. split; [done|]. etrans; [exact Hview|]. unfold listed. cbn [foldl]. rewrite Ha, Hv. apply (f_equal (fun L => foldl _ L l)).
  unfold view, l_set. cbn [set_db set_accTable set_pools db accounts pools accTable lacc lpool]. f_equal. by apply viewSide_insert_text.
Qed.

(** *** The parameters *)
Lemma insertParamRows_ne params h keys t t' k :
  insertParamRows params h keys t = Ok t' -> k ∉ keys.*1 -> GetParamOrFlag t' k h = GetParamOrFlag t k h.
Proof.
  revert t. induction keys as [|[k0 m] keys IH]; intros t Hi Hk; cbn in *; [by injection Hi as ->|].
  apply not_elem_of_cons in Hk as [Hne Hk]. destruct (genesisParamRow _ _) as [row| |]; [|done..].
  rewrite (IH _ Hi Hk). unfold GetParamOrFlag. by rewrite select_upsert_ne.
Qed.

Lemma insertParamRows_eq params h keys t t' k m row :
  insertParamRows params h keys t = Ok t' -> NoDup keys.*1 -> (k, m) ∈ keys ->
  genesisParamRow (PoktType m) (params k) = Ok row -> GetParamOrFlag t' k h = Some row.
Proof.
  revert t. induction keys as [|[k0 m0] keys IH]; intros t Hi Hnd Hin Hrow; cbn in *; [by apply elem_of_nil in Hin|].
  apply NoDup_cons in Hnd as [Hn Hnd]. destruct (genesisParamRow (PoktType m0) (params k0)) as [row0| |] eqn:H0; [|done..].
  apply elem_of_cons in Hin as [[= <- <-]|Hin]; [|by eapply IH]. rewrite Hrow in H0. injection H0 as <-.
  rewrite (insertParamRows_ne _ _ _ _ _ k Hi Hn). unfold GetParamOrFlag. by rewrite select_upsert_eq.
Qed.

Lemma param_keys_nodup : NoDup GovParamMetadataMap.*1.
Proof. apply (bool_decide_unpack _). vm_compute. reflexivity. Qed.

Lemma insertParamRows_none params h keys t t' k :
  insertParamRows params h keys t = Ok t' -> k ∉ keys.*1 -> t !! k = None -> t' !! k = None.
Proof.
  revert t. induction keys as [|[k0 m] keys IH]; intros t Hi Hk Ht; cbn in *; [by injection Hi as <-|].
  apply not_elem_of_cons in Hk as [Hne Hk]. destruct (genesisParamRow _ _) as [row| |]; [|done..].
  apply (IH _ Hi Hk). unfold upsert. by rewrite lookup_insert_ne.
Qed.

(** *** Tables with rows of height 0 only *)
Definition atZero {R} (t : Table R) : Prop := map_Forall (fun _ hist => exists r, hist = {[0 := r]}) t.

Lemma atZero_upsert {R} (t : Table R) k r : atZero t -> atZero (upsert t k 0 r).
Proof.
  intros Ht k' hist. unfold upsert. intros [[<- <-]|[_ Hk]]%lookup_insert_Some; [|by eapply Ht]. exists r.
  destruct (t !! k) as [hist0|] eqn:Hk; [|done]. destruct (Ht _ _ Hk) as [r0 ->]. cbn. by rewrite insert_singleton_eq.
Qed.
Lemma atZero_params params keys (t t' : Table ParamRow) : insertParamRows params 0 keys t = Ok t' -> atZero t -> atZero t'.
Proof.
  revert t. induction keys as [|[k m] keys IH]; intros t Hi Ht; cbn in *; [by injection Hi as <-|].
  destruct (genesisParamRow _ _) as [row| |]; [|done..]. apply (IH _ Hi). by apply atZero_upsert.
Qed.

Definition balancesAtZero (p : PostgresContext) : Prop :=
  Height p = 0 /\ atZero (accounts (db p)) /\ atZero (pools (db p)).
Lemma atZero_insertAccount sch k a : maintains balancesAtZero anything (insertAccount sch k a).
Proof.
  intros p (Hh & Ha & Hp). unfold insertAccount, GetHeight. rewrite bind_get. cbn. rewrite Hh. split; [|done].
  destruct sch; split_and!; cbn; try done; by apply atZero_upsert.
Qed.
Lemma maintains_fatal {A} (I : PostgresContext -> Prop) (m : PM A) : maintains I anything m -> maintains I anything (fatal m).
Proof. intros Hm p Hp. specialize (Hm p Hp). unfold fatal. by destruct (m p) as [[] ?]. Qed.
Lemma maintains_decodeHex I (x : string) : maintains I anything (decodeHex x).
Proof. intros p Hp. unfold decodeHex. by destruct (hexDecode x). Qed.
Lemma atZero_account acc : maintains balancesAtZero anything (genesisAccount acc).
Proof.
  unfold genesisAccount. apply (maintains_bind _ anything); [apply maintains_decodeHex|intros a _]. apply maintains_fatal.
  unfold SetAccountAmount, operationAccountAmount.
  do 5 (apply (maintains_bind _ anything); [first [by intros q Hq|eapply maintains_any, maintains_of_res]|intros ? _]). apply atZero_insertAccount.
Qed.
Lemma atZero_pool acc : maintains balancesAtZero anything (genesisPool acc).
Proof.
  unfold genesisPool. apply (maintains_bind _ anything); [apply maintains_decodeHex|intros a _]. apply maintains_fatal, atZero_insertAccount.
Qed.

(** *** The actors *)
Definition hexNorm (x : string) : string := from_option hexEncode "" (hexDecode x).
Definition actorKey (act : Actor) : string := hexNorm (Address act).

(** The row and the chains of a listed actor: addresses and keys in lower case; applications have
    no service URL, validators no chains. *)
Definition genesisRow (s : ProtocolActorSchema) (act : Actor) : ActorRow := {|
  public_key := hexNorm (PublicKey act); staked_tokens := StakedAmount act;
  specific := if bool_decide (actorType s = ACTOR_TYPE_APP) then "" else ServiceUrl act;
  output_address := hexNorm (Output act); paused_height := PausedHeight act; unstaking_height := UnstakingHeight act |}.
Definition genesisChains (s : ProtocolActorSchema) (act : Actor) : option (list string) :=
  if bool_decide (actorType s = ACTOR_TYPE_VAL) then None else Chains act.

(** The tables with exactly the listed actors, in rows of height 0; the CHAR(4) column of the
    chains pads with blanks and drops repetitions. *)
Definition addActor (s : ProtocolActorSchema) (t : Table ActorRow) (act : Actor) : Table ActorRow :=
  <[actorKey act := {[0 := genesisRow s act]}]> t.
Definition addActorChains (s : ProtocolActorSchema) (t : Table (list string)) (act : Actor) : Table (list string) :=
  match genesisChains s act with
  | Some cs => <[actorKey act := {[0 := default [] (addChains [] cs)]}]> t
  | None => t
  end.
Definition listedActors (s : ProtocolActorSchema) (l : list Actor) : Table ActorRow := foldl (addActor s) ∅ l.
Definition listedChains (s : ProtocolActorSchema) (l : list Actor) : Table (list string) := foldl (addActorChains s) ∅ l.

(** The lists of the genesis file and the tables they go to. *)
Definition configSchemas : list (stakedActorsInsertConfig * ProtocolActorSchema) :=
  zip stakedActorsInsertConfigs [ApplicationActor; ServicerActor; FishermanActor; ValidatorActor].

Lemma config_insert saic s a pk o url st ch ph uh :
  (saic, s) ∈ configSchemas ->
  saicInsertFn saic a pk o url st ch ph uh =
    InsertActor s (mkActor (actorType s) a pk o (if bool_decide (actorType s = ACTOR_TYPE_APP) then "" else url) st
      (if bool_decide (actorType s = ACTOR_TYPE_VAL) then None else ch) ph uh).
Proof.
  unfold configSchemas. cbn [zip zip_with stakedActorsInsertConfigs]. rewrite !elem_of_cons.
  intros [[= -> ->]|[[= -> ->]|[[= -> ->]|[[= -> ->]|[]%elem_of_nil]]]]; reflexivity.
Qed.

Lemma InsertRow_new t k r : t !! k = None -> InsertRow t k r 0 = <[k := {[0 := r]}]> t.
Proof. intros Hk. unfold InsertRow, rowAt, upsert. by rewrite Hk. Qed.
Lemma insertChains_new t k cs t' : t !! k = None -> insertChains t k cs 0 = Ok t' -> t' = <[k := {[0 := default [] (addChains [] cs)]}]> t.
Proof.
  intros Hk. unfold insertChains, rowAt, upsert. rewrite Hk. destruct cs as [|c cs]; [done|]. cbn [default].
  destruct (addChains _ _) as [rows|]; [|done]. by intros [= <-].
Qed.

(** What one listed actor changes: the tables of its type, at height 0. *)
Definition actorStep (s : ProtocolActorSchema) (t : Table ActorRow) (ct : Table (list string)) (p p' : PostgresContext) : Prop :=
  Height p' = Height p /\ actorTables (db p') = <[tableName s := t]> (actorTables (db p)) /\
  (chainTables (db p') = chainTables (db p) /\ ct = chainTable (db p) s \/
   chainTables (db p') = <[chainsTableName s := ct]> (chainTables (db p))).

Lemma genesisActor_run saic s act v p v' p' :
  (saic, s) ∈ configSchemas -> genesisActor saic act v p = (Ok v', p') -> Height p = 0 ->
  actorTable (db p) s !! actorKey act = None ->
  (is_Some (genesisChains s act) -> chainTable (db p) s !! actorKey act = None) ->
  actorStep s (addActor s (actorTable (db p) s) act) (addActorChains s (chainTable (db p) s) act) p p'.
Proof.
  intros Hc Hrun Hh Ha Hch. unfold genesisActor, decodeHex in Hrun. unfold genesisChains, actorKey, hexNorm in Ha, Hch.
  unfold actorStep, addActor, addActorChains, genesisRow, genesisChains, actorKey, hexNorm.
  destruct (hexDecode (Address act)) as [a|]; [|done]. erewrite bind_run in Hrun by done. cbn [from_option] in *.
  destruct (hexDecode (PublicKey act)) as [pk|]; [|done]. erewrite bind_run in Hrun by done.
  destruct (hexDecode (Output act)) as [o|]; [|done]. erewrite bind_run in Hrun by done. cbn [from_option].
  apply bind_ok in Hrun as ([] & p1 & Hi & Hrun). rewrite fatal_ok in Hi. rewrite fatal_ok in Hrun.
  injection Hrun as _ <-. rewrite (config_insert _ s) in Hi by done.
  unfold InsertActor, GetHeight in Hi. rewrite bind_get, Hh in Hi. erewrite bind_run in Hi by done.
  cbn [mkActor Chains Address PublicKey Output ServiceUrl StakedAmount PausedHeight UnstakingHeight] in Hi.
  destruct (bool_decide (actorType s = ACTOR_TYPE_VAL)).
  { injection Hi as <-. rewrite InsertRow_new by done. split; [done|]. split; [done|]. by left. }
  destruct (Chains act) as [cs|].
  2: { injection Hi as <-. rewrite InsertRow_new by done. split; [done|]. split; [done|]. by left. }
  apply bind_ok in Hi as (ct & p2 & Hct & Hi). injection Hct as Hct <-. injection Hi as <-.
  apply insertChains_new in Hct as ->; [|by apply Hch]. rewrite InsertRow_new by done. split; [done|]. split; [done|]. by right.
Qed.

Lemma actorStep_tables s t ct p p' : actorStep s t ct p p' -> actorTable (db p') s = t /\ chainTable (db p') s = ct.
Proof.
  intros (_ & Ha & Hc). unfold actorTable, chainTable. rewrite Ha, lookup_insert_eq. split; [done|].
  destruct Hc as [[-> ->]| ->]; [done|by rewrite lookup_insert_eq].
Qed.
Lemma actorStep_others s s' t ct p p' :
  actorStep s t ct p p' -> tableName s' ≠ tableName s -> chainsTableName s' ≠ chainsTableName s ->
  actorTable (db p') s' = actorTable (db p) s' /\ chainTable (db p') s' = chainTable (db p) s'.
Proof.
  intros (_ & Ha & Hc) Hn Hcn. unfold actorTable, chainTable. rewrite Ha, lookup_insert_ne by done. split; [done|].
  destruct Hc as [[-> _]| ->]; [done|by rewrite lookup_insert_ne].
Qed.

(** A list of actors with different addresses, none of them in the tables yet. *)
Lemma genesisActors_run saic s : (saic, s) ∈ configSchemas ->
  forall l v p v' p', genesisActors saic l v p = (Ok v', p') -> Height p = 0 -> NoDup (actorKey <$> l) ->
  (forall act, act ∈ l -> actorTable (db p) s !! actorKey act = None /\
     (is_Some (genesisChains s act) -> chainTable (db p) s !! actorKey act = None)) ->
  Height p' = 0 /\
  actorTable (db p') s = foldl (addActor s) (actorTable (db p) s) l /\
  chainTable (db p') s = foldl (addActorChains s) (chainTable (db p) s) l /\
  (forall s', tableName s' ≠ tableName s -> chainsTableName s' ≠ chainsTableName s ->
     actorTable (db p') s' = actorTable (db p) s' /\ chainTable (db p') s' = chainTable (db p) s').
Proof.
  intros Hc. induction l as [|act l IH]; intros v p v' p' Hrun Hh Hnd Hnew; cbn [genesisActors] in Hrun.
  { injection Hrun as _ <-. done. }
  apply bind_ok in Hrun as (v1 & p1 & H1 & Hrun). destruct (Hnew act ltac:(by left)) as [Ha Hch].
  pose proof (genesisActor_run saic s act v p v1 p1 Hc H1 Hh Ha Hch) as Hs.
  destruct (actorStep_tables _ _ _ _ _ Hs) as [Et Ec]. rewrite fmap_cons in Hnd. apply NoDup_cons in Hnd as [Hn Hnd].
  destruct (IH v1 p1 v' p' Hrun) as (Hh' & Et' & Ec' & Ho); [destruct Hs as [-> _]; done|done| |].
  - intros act' Hin. assert (actorKey act ≠ actorKey act') as Hne.
    { intros He. apply Hn. rewrite He. by apply list_elem_of_fmap_2. }
    destruct (Hnew act' ltac:(by right)) as [Ha' Hch']. rewrite Et, Ec. unfold addActor, addActorChains.
    rewrite lookup_insert_ne by done. split; [done|]. intros Hsome. destruct (genesisChains s act); [|by apply Hch'].
    rewrite lookup_insert_ne by done. by apply Hch'.
  - rewrite Et', Ec', Et, Ec. split; [done|]. split; [done|]. split; [done|].
    intros s' H2 H3. destruct (actorStep_others _ s' _ _ _ _ Hs H2 H3) as [E1 E2]. rewrite <- E1, <- E2. by apply Ho.
Qed.

(** The lists of the file, from empty tables. *)
Lemma chains_have_table saic s act : (saic, s) ∈ configSchemas -> is_Some (genesisChains s act) -> chainsTableName s ≠ "".
Proof.
  unfold configSchemas. cbn [zip zip_with stakedActorsInsertConfigs]. rewrite !elem_of_cons.
  intros [[= -> ->]|[[= -> ->]|[[= -> ->]|[[= -> ->]|[]%elem_of_nil]]]]; cbn; [done..|]. by intros [].
Qed.

Definition emptyTables (p : PostgresContext) (s : ProtocolActorSchema) : Prop :=
  actorTable (db p) s = ∅ /\ (chainsTableName s ≠ "" -> chainTable (db p) s = ∅).
Definition genesisTables (st : GenesisState) (p : PostgresContext) (c : stakedActorsInsertConfig * ProtocolActorSchema) : Prop :=
  actorTable (db p) c.2 = listedActors c.2 (saicGetter c.1 st) /\
  (chainsTableName c.2 ≠ "" -> chainTable (db p) c.2 = listedChains c.2 (saicGetter c.1 st)).

Lemma genesisActorTypes_run st (cs : list (stakedActorsInsertConfig * ProtocolActorSchema)) :
  (forall c, c ∈ cs -> c ∈ configSchemas) ->
  NoDup (tableName <$> cs.*2) -> NoDup (chainsTableName <$> cs.*2) ->
  (forall c, c ∈ cs -> NoDup (actorKey <$> saicGetter c.1 st)) ->
  forall v p v' p', genesisActorTypes st cs.*1 v p = (Ok v', p') -> Height p = 0 -> (forall c, c ∈ cs -> emptyTables p c.2) ->
  (forall c, c ∈ cs -> genesisTables st p' c) /\
  (forall s', tableName s' ∉ (tableName <$> cs.*2) -> chainsTableName s' ∉ (chainsTableName <$> cs.*2) ->
     actorTable (db p') s' = actorTable (db p) s' /\ chainTable (db p') s' = chainTable (db p) s').
Proof.
  induction cs as [|[saic s] cs IH]; intros Hin Hn1 Hn2 Hnd v p v' p' Hrun Hh He; cbn [fmap list_fmap genesisActorTypes fst snd] in *.
  { injection Hrun as _ <-. split; [|done]. by intros c []%elem_of_nil. }
  apply bind_ok in Hrun as (v1 & p1 & H1 & Hrun). apply NoDup_cons in Hn1 as [Ht1 Hn1]. apply NoDup_cons in Hn2 as [Ht2 Hn2].
  assert ((saic, s) ∈ configSchemas) as Hc by (apply Hin; by left). destruct (He (saic, s) ltac:(by left)) as [Ea Ec]. cbn [snd] in Ea, Ec.
  destruct (genesisActors_run saic s Hc _ v p v1 p1 H1 Hh (Hnd (saic, s) ltac:(by left))) as (Hh1 & Ra & Rc & Ro).
  { intros act _. rewrite Ea. split; [done|]. intros Hsome. by rewrite Ec by (by eapply chains_have_table). }
  assert (forall c, c ∈ cs -> tableName c.2 ≠ tableName s /\ chainsTableName c.2 ≠ chainsTableName s) as Hother.
  { intros c Hcs. split; intros E; [apply Ht1|apply Ht2]; rewrite <- E; by do 2 apply list_elem_of_fmap_2. }
  destruct (IH ltac:(intros c ?; apply Hin; by right) Hn1 Hn2 ltac:(intros c ?; apply Hnd; by right) v1 p1 v' p' Hrun Hh1) as [Rs Rest].
  { intros c Hcs. destruct (Hother c Hcs) as [O1 O2]. destruct (Ro c.2 O1 O2) as [E1 E2]. unfold emptyTables. rewrite E1, E2. apply He. by right. }
  split.
  - intros c [->|Hcs]%elem_of_cons; [|by apply Rs]. destruct (Rest s Ht1 Ht2) as [E1 E2]. unfold genesisTables. cbn [fst snd].
    rewrite E1, E2, Ra, Rc, Ea. split; [done|]. intros Hcn. by rewrite Ec.
  - intros s' [N1 N1']%not_elem_of_cons [N2 N2']%not_elem_of_cons. destruct (Rest s' N1' N2') as [-> ->]. by apply Ro.
Qed.

(** *** Genesis as a whole *)
Lemma commit_genesis now p p' :
  Commit now None None p = (Ok tt, p') -> Height p = 0 ->
  exists b row txs, GetByHeight (txIndexer p) 0 = Ok txs /\ b_Transactions b = idx_Tx <$> txs /\
    p' = set_db (set_blocks (<[0 := row]> (blocks (db p))) (db p)) (set_blockStore (<[0 := b]> (blockStore p)) p).
Proof.
  intros Hrun Hh. unfold Commit in Hrun. rewrite bind_get in Hrun. apply bind_ok in Hrun as (b & p1 & Hb & Hrun). injection Hb as Hb <-.
  rewrite bind_modify in Hrun. unfold prepareBlock in Hb. rewrite Hh in Hb. cbn in Hb.
  destruct (GetByHeight (txIndexer p) 0) as [txs| |] eqn:Ht; [|done..]. injection Hb as <-. cbn [insertBlock b_Header] in Hrun. rewrite bind_get in Hrun.
  apply bind_ok in Hrun as (t & p2 & Hi & Hrun). injection Hi as Hi <-. unfold InsertBlockRow in Hi. cbn [bh_Height set_blockStore db] in Hi.
  destruct (blocks (db p) !! _) eqn:Hl; [done|]. injection Hi as <-. injection Hrun as <-. do 3 eexists. split; [done|]. split; [|by rewrite Hh]. done.
Qed.

Lemma genesisTx_ok (treesUpdate : DB -> TxIndexer -> Z -> res string string) now st p p' :
  genesisTx treesUpdate now st p = (Ok tt, p') -> Height p = 0 -> balances_ok (db p) 0 ->
  Forall (fun a => is_Some (bigIntSetString (AccAmount a))) (gPools st) ->
  view (db p') 0 = listed PoolS (gPools st) (listed AccountS (gAccounts st) (view (db p) 0)) /\
  (forall k m row, (k, m) ∈ GovParamMetadataMap -> genesisParamRow (PoktType m) (gParams st k) = Ok row ->
     GetParamOrFlag (params (db p')) k 0 = Some row) /\
  txIndexer p' = txIndexer p /\
  exists b row txs, blockStore p' = <[0 := b]> (blockStore p) /\ blocks (db p') = <[0 := row]> (blocks (db p)) /\
    GetByHeight (txIndexer p) 0 = Ok txs /\ b_Transactions b = idx_Tx <$> txs.
Proof.
  intros Hrun Hh0 Hok Hpools. unfold genesisTx in Hrun.
  apply bind_ok in Hrun as ([] & p1 & H1 & Hrun). apply bind_ok in Hrun as ([] & p2 & H2 & Hrun).
  apply bind_ok in Hrun as (pv & p3 & H3 & Hrun). apply bind_ok in Hrun as ([] & p4 & H4 & Hrun). rewrite fatal_ok in H4.
  apply bind_ok in Hrun as ([] & p5 & H5 & Hrun). injection H5 as <-. apply bind_ok in Hrun as (h & p6 & H6 & H7). rewrite fatal_ok in H6. rewrite fatal_ok in H7.
  destruct (accounts_listed _ _ _ H1) as [Hh1 Hv1]; [by rewrite Hh0|]. destruct (pools_listed _ _ _ H2 Hpools) as [Hh2 Hv2]. rewrite Hh1, Hh0 in *.
  pose proof (keeps_forM rest (gAccounts st) genesisAccount keeps_account p) as K1. rewrite H1 in K1. cbn in K1.
  pose proof (keeps_forM rest (gPools st) genesisPool keeps_pool p1) as K2. rewrite H2 in K2. cbn in K2.
  pose proof (keeps_actors (fun p => (Height p, accounts (db p), pools (db p), blocks (db p), blockStore p, txIndexer p)) st ∅ ltac:(by intros d q (<- & <- & _ & _ & <-)) p2) as K3. rewrite H3 in K3. cbn in K3.
  unfold InitGenesisParams in H4. rewrite bind_get in H4. case_bool_decide; [done|]. apply bind_ok in H4 as (t & p3' & Ht & H4). injection Ht as Ht <-. injection H4 as <-.
  unfold UnitOfWork.ComputeStateHash in H6. rewrite bind_get in H6. apply bind_ok in H6 as (h' & p4' & Hh' & H6). injection Hh' as Hh' <-. injection H6 as <- <-.
  destruct (commit_genesis now _ p' H7 H) as (b & row & txs & Htx & Hb & ->). cbn [txIndexer blockStore db set_db set_blockStore set_blocks set_params blocks params accounts pools] in *.
  injection K3 as _ Ka Kp Kb Ks Ki. injection K1 as _ _ Kb1 Ks1 Ki1. injection K2 as _ _ Kb2 Ks2 Ki2.
  split; [|split; [|split]].
  - rewrite <- Hv1, <- Hv2. by apply view_ext.
  - intros k m row0 Hin Hrow. rewrite H in Ht. eapply insertParamRows_eq; [exact Ht|apply param_keys_nodup|done|done].
  - congruence.
  - exists b, row, txs. rewrite Ks, Ks2, Ks1, Kb, Kb2, Kb1. split; [done|]. split; [done|]. by rewrite <- Ki1, <- Ki2, <- Ki.
Qed.

(** The tables of the actors and the flags, and no row of another height. *)
Lemma genesisTx_tables (treesUpdate : DB -> TxIndexer -> Z -> res string string) now st p p' :
  genesisTx treesUpdate now st p = (Ok tt, p') -> balancesAtZero p -> params (db p) = ∅ ->
  (forall c, c ∈ configSchemas -> NoDup (actorKey <$> saicGetter c.1 st)) -> (forall c, c ∈ configSchemas -> emptyTables p c.2) ->
  balancesAtZero p' /\ atZero (params (db p')) /\ flags (db p') = flags (db p) /\
  (forall k, k ∉ GovParamMetadataMap.*1 -> params (db p') !! k = None) /\
  (forall c, c ∈ configSchemas -> genesisTables st p' c).
Proof.
  intros Hrun Hz Hparams Hnd Hempty. unfold genesisTx in Hrun.
  apply bind_ok in Hrun as ([] & p1 & H1 & Hrun). apply bind_ok in Hrun as ([] & p2 & H2 & Hrun).
  apply bind_ok in Hrun as (pv & p3 & H3 & Hrun). apply bind_ok in Hrun as ([] & p4 & H4 & Hrun). rewrite fatal_ok in H4.
  apply bind_ok in Hrun as ([] & p5 & H5 & Hrun). injection H5 as <-. apply bind_ok in Hrun as (h & p6 & H6 & H7). rewrite fatal_ok in H6. rewrite fatal_ok in H7.
  pose proof (maintains_run _ _ _ _ _ _ (maintains_forM _ (gAccounts st) genesisAccount (fun a _ => atZero_account a)) Hz H1) as [Hz1 _].
  pose proof (maintains_run _ _ _ _ _ _ (maintains_forM _ (gPools st) genesisPool (fun a _ => atZero_pool a)) Hz1 H2) as [Hz2 _].
  pose proof (keeps_forM rest (gAccounts st) genesisAccount keeps_account p) as K1. rewrite H1 in K1. cbn in K1.
  pose proof (keeps_forM rest (gPools st) genesisPool keeps_pool p1) as K2. rewrite H2 in K2. cbn in K2. rewrite K1 in K2.
  injection K2 as _ Kp2 _ _ _ Kf2 Ka2 Kc2.
  pose proof (keeps_actors (fun p => (Height p, accounts (db p), pools (db p), params (db p), flags (db p))) st ∅ ltac:(by intros d q (<- & <- & <- & <- & _)) p2) as K3.
  rewrite H3 in K3. cbn in K3. injection K3 as Kh Ka Kp Kpa Kf.
  assert (forall c, c ∈ configSchemas -> genesisTables st p3 c) as Ht3.
  { change stakedActorsInsertConfigs with (configSchemas.*1) in H3.
    refine (proj1 (genesisActorTypes_run st configSchemas _ _ _ Hnd _ _ _ _ H3 (proj1 Hz2) _)); [done|apply (bool_decide_unpack _); vm_compute; exact I..|].
    intros c Hc. unfold emptyTables, actorTable, chainTable. rewrite Ka2, Kc2. by apply Hempty. }
  unfold InitGenesisParams in H4. rewrite bind_get in H4. case_bool_decide; [done|]. apply bind_ok in H4 as (t & p3' & Htp & H4). injection Htp as Htp <-. injection H4 as <-.
  unfold UnitOfWork.ComputeStateHash in H6. rewrite bind_get in H6. apply bind_ok in H6 as (h' & p4' & Hh' & H6). injection Hh' as Hh' <-. injection H6 as <- <-.
  destruct (commit_genesis now _ p' H7 H) as (b & row & txs & _ & _ & ->).
  unfold InsertParams in Htp. rewrite H, Kpa, Kp2, Hparams in Htp.
  unfold balancesAtZero, genesisTables, actorTable, chainTable in *. cbn [Height db set_db set_blockStore set_blocks set_params blocks params accounts pools flags actorTables chainTables] in *.
  rewrite Ka, Kp, Kf, Kf2. destruct Hz2 as (_ & ? & ?). split; [by split_and!|]. split; [by eapply atZero_params|]. split; [done|]. split; [|done].
  intros k Hk. eapply insertParamRows_none; [exact Htp|done|done].
Qed.

Lemma cleared_tables d c : c ∈ configSchemas ->
  actorTable (clearAllSQLState d) c.2 = ∅ /\ (chainsTableName c.2 ≠ "" -> chainTable (clearAllSQLState d) c.2 = ∅).
Proof.
  unfold actorTable, chainTable.
  change (actorTables (clearAllSQLState d)) with
    (<["validator" := ∅]> (<["servicer" := ∅]> (<["fisherman" := ∅]> (<["app" := ∅]> (actorTables d))))).
  change (chainTables (clearAllSQLState d)) with
    (<["servicer_chains" := ∅]> (<["fisherman_chains" := ∅]> (<["app_chains" := ∅]> (chainTables d)))).
  unfold configSchemas. cbn [zip zip_with stakedActorsInsertConfigs]. rewrite !elem_of_cons.
  intros [->|[->|[->|[->|[]%elem_of_nil]]]]; cbn [snd tableName chainsTableName ApplicationActor ServicerActor FishermanActor ValidatorActor];
    (split; [|intros Hn]); try (by destruct Hn); repeat rewrite lookup_insert_ne by done; by rewrite lookup_insert_eq.
Qed.
Lemma cleared_accounts d : accounts (clearAllSQLState d) = ∅.
Proof. done. Qed.
Lemma cleared_balances d h : balances_ok (clearAllSQLState d) h.
Proof. intros [] key k txt; unfold selectLatest; cbn; by rewrite lookup_empty. Qed.
Lemma cleared_view d h : view (clearAllSQLState d) h = emptyLedger.
Proof. unfold view, viewSide. cbn [clearAllSQLState set_blocks set_flags set_params set_pools set_accounts accounts pools]. by rewrite !omap_empty. Qed.

(** C13: Resetting to genesis replaces the whole SQL state, if it succeeds, the pool amounts
    are decimal numbers and no address is listed twice for one actor type.  The ledger is
    exactly the accounts and pools that the genesis file lists, the staked amounts of its actors
    being credited to no pool; the table of each of the four actor types holds exactly the
    listed actors, with their stakes, service URLs, output addresses and heights, and its table of
    chains their chains; the parameters are those of the file and no others; no flag is set; no
    account, pool or parameter has a row of a height other than 0; and the only block is the
    one at height 0.  The index of transactions is not reset: the transactions of the
    old chain stay in it. *)
Theorem reset_to_genesis (treesUpdate : DB -> TxIndexer -> Z -> res string string) (treesClear : res string unit) (now : Z) (st : GenesisState) (w w' : Modules) :
  HandleDebugMessage treesUpdate treesClear now st PERSISTENCE_RESET_TO_GENESIS w = (Ok tt, w') ->
  Forall (fun a => is_Some (bigIntSetString (AccAmount a))) (gPools st) ->
  (forall l, l ∈ [gApplications st; gServicers st; gFishermen st; gValidators st] -> NoDup (actorKey <$> l)) ->
  let p' := committedDB w' in
  view (db p') 0 = listed PoolS (gPools st) (listed AccountS (gAccounts st) emptyLedger) /\
  (actorTable (db p') ApplicationActor = listedActors ApplicationActor (gApplications st) /\
   actorTable (db p') ServicerActor = listedActors ServicerActor (gServicers st) /\
   actorTable (db p') FishermanActor = listedActors FishermanActor (gFishermen st) /\
   actorTable (db p') ValidatorActor = listedActors ValidatorActor (gValidators st)) /\
  (chainTable (db p') ApplicationActor = listedChains ApplicationActor (gApplications st) /\
   chainTable (db p') ServicerActor = listedChains ServicerActor (gServicers st) /\
   chainTable (db p') FishermanActor = listedChains FishermanActor (gFishermen st)) /\
  (forall k m row, (k, m) ∈ GovParamMetadataMap -> genesisParamRow (PoktType m) (gParams st k) = Ok row ->
     GetParamOrFlag (params (db p')) k 0 = Some row) /\
  (forall k, k ∉ GovParamMetadataMap.*1 -> params (db p') !! k = None) /\
  flags (db p') = ∅ /\
  (atZero (accounts (db p')) /\ atZero (pools (db p')) /\ atZero (params (db p'))) /\
  GetMaximumBlockHeight p' = Ok 0 /\ (exists row, blocks (db p') = {[0 := row]}) /\ (exists b, blockStore p' = {[0 := b]}) /\
  writeContextOpen w' = false /\ txIndexer p' = txIndexer (committedDB w).
Proof.
  intros Hrun Hpools Hnd. cbn [HandleDebugMessage] in Hrun. apply bind_ok in Hrun as ([] & w1 & Hclear & Hrun).
  unfold clearAllState, NewRWContext in Hclear. destruct (writeContextOpen w); [done|]. destruct treesClear as [[]| |]; [|done..]. injection Hclear as <-.
  unfold populateGenesisState, NewRWContext in Hrun. cbn [writeContextOpen set_writeContextOpen set_committedDB committedDB contextAt] in Hrun.
  destruct (genesisTx _ _ _ _) as [[[]| |] p'] eqn:Htx; [|done..]. injection Hrun as <-. cbv zeta. cbn [committedDB set_writeContextOpen set_committedDB writeContextOpen].
  destruct (genesisTx_ok treesUpdate now st _ p' Htx eq_refl (cleared_balances _ 0) Hpools) as (Hv & Hp & Hi & b & row & txs & Hs & Hb & _ & _).
  destruct (genesisTx_tables treesUpdate now st _ p' Htx) as ((_ & Z1 & Z2) & Z3 & Hf & Hnone & Ht);
    [by split_and!|done| |intros c Hc; by apply cleared_tables|].
  { unfold configSchemas. cbn [zip zip_with stakedActorsInsertConfigs]. intros c. rewrite !elem_of_cons.
    intros [->|[->|[->|[->|[]%elem_of_nil]]]]; apply Hnd; cbn [fst saicGetter]; rewrite !elem_of_cons; tauto. }
  cbn in Hv, Hi, Hs, Hb. change (<[0 := row]> ∅) with ({[0 := row]} : gmap Z BlockRow) in Hb.
  assert (forall saic s, (saic, s) ∈ configSchemas -> genesisTables st p' (saic, s)) as Ht' by (intros; by apply Ht).
  unfold configSchemas in Ht'. cbn [zip zip_with stakedActorsInsertConfigs] in Ht'. setoid_rewrite elem_of_cons in Ht'.
  destruct (Ht' _ ApplicationActor ltac:(by left)) as [T1 C1].
  destruct (Ht' _ ServicerActor ltac:(right; by left)) as [T2 C2].
  destruct (Ht' _ FishermanActor ltac:(do 2 right; by left)) as [T3 C3].
  destruct (Ht' _ ValidatorActor ltac:(do 3 right; by left)) as [T4 _].
  split; [by rewrite Hv; f_equal|]. split; [by split_and!|]. split; [by split_and!; [apply C1|apply C2|apply C3]|].
  split; [done|]. split; [done|]. split; [done|]. split; [done|]. split; [|split; [by exists row|split; [by exists b|by split]]].
  unfold GetMaximumBlockHeight, maxHeight, newest. rewrite Hb. by rewrite map_fold_singleton.
Qed.

(** A node whose database holds a block above genesis starts from it unchanged. *)
Theorem restart_keeps_state (treesUpdate : DB -> TxIndexer -> Z -> res string string) (treesClear : res string unit) (now : Z) (st : GenesisState) (w : Modules) (h : Z) :
  GetMaximumBlockHeight (committedDB w) = Ok h -> 0 < h -> hydrate treesUpdate treesClear now st w = (Ok tt, w).
Proof.
  intros Hm Hh. unfold hydrate, shouldHydrateGenesisDb. change (GetMaximumBlockHeight (contextAt (-1) (committedDB w)) = Ok h) in Hm.
  erewrite bind_run; [|rewrite bind_get; erewrite bind_run; [|reflexivity]; rewrite Hm, bool_decide_eq_true_2 by done; reflexivity]. done.
Qed.
End GenesisFacts.

(** ** A concrete genesis file *)
Module ToyGenesis.
Import Node Genesis GenesisFacts.

Definition state : GenesisState := {|
  gAccounts := [{| AccAddress := "0a"; AccAmount := "100" |}; {| AccAddress := "0b"; AccAmount := "7" |}];
  gPools := [{| AccAddress := "ff"; AccAmount := "5" |}];
  gApplications := [{| ActorType := ACTOR_TYPE_APP; Address := "0c"; PublicKey := "0d"; Chains := Some ["0001"]; ServiceUrl := "";
                       StakedAmount := "1000"; PausedHeight := -1; UnstakingHeight := -1; Output := "0a" |}];
  gValidators := []; gServicers := []; gFishermen := [];
  gParams k := match lookupS k GovParamMetadataMap with
               | Some m => if bool_decide (PoktType m = "STRING") then PVString "10000" else PVInt32 4
               | None => PVString "" end |}.

Definition final : Modules := (HandleDebugMessage NodeToy.treesUpdate (Ok tt) 0 state PERSISTENCE_RESET_TO_GENESIS NodeToy.modules).2.

Lemma run_ok : HandleDebugMessage NodeToy.treesUpdate (Ok tt) 0 state PERSISTENCE_RESET_TO_GENESIS NodeToy.modules = (Ok tt, final).
Proof.
  etrans; [apply surjective_pairing|]. apply (f_equal (fun r => (r, final))). vm_compute. reflexivity.
Qed.
Lemma pools_ok : Forall (fun a => is_Some (bigIntSetString (AccAmount a))) (gPools state).
Proof. apply Forall_cons_2; [by exists 5|apply Forall_nil_2]. Qed.
Lemma supply_listed : supply (listed PoolS (gPools state) (listed AccountS (gAccounts state) emptyLedger)) = 112.
Proof. vm_compute. reflexivity. Qed.

Lemma actors_nodup : forall l, l ∈ [gApplications state; gServicers state; gFishermen state; gValidators state] -> NoDup (actorKey <$> l).
Proof.
  intros l. rewrite !elem_of_cons. intros [->|[->|[->|[->|[]%elem_of_nil]]]]; apply (bool_decide_unpack _); vm_compute; exact I.
Qed.

(** The network of four validators is reset to a genesis file without validators. *)
Lemma reset_to_genesis_witness :
  supply (view (db (committedDB final)) 0) = 112 /\ GetMaximumBlockHeight (committedDB final) = Ok 0 /\
  actorTable (db (committedDB final)) ValidatorActor = ∅ /\ chainTable (db (committedDB final)) ApplicationActor = {["0c" := {[0 := ["0001"]]}]}.
Proof.
  destruct (reset_to_genesis NodeToy.treesUpdate (Ok tt) 0 state NodeToy.modules final run_ok pools_ok actors_nodup)
    as (Hv & (_ & _ & _ & Ht) & (Hc & _) & _ & _ & _ & _ & Hm & _).
  split; [rewrite Hv; exact supply_listed|]. split; [exact Hm|]. split; [exact Ht|]. rewrite Hc. vm_compute. reflexivity.
Defined.
End ToyGenesis.
