(* ===== verification/TreesChain.v ===== *)
(** The state hashes of a chain.

    A node starts with empty trees, loads genesis and applies block after block, computing each
    state hash with the trees the previous block left.  [chain_state_hashes] shows that every hash
    it stores is the reference hash of the state at that height. *)

From S2P Require Import Prelude GoStd GoSort Errors Crypto CoreTypes Gov Messages Sql Persistence KvStore SqlQueries Trees TreesSpec FifoSet TxMempool UnitOfWork TreesFacts OwnRows Node Genesis.
#[local] Open Scope string_scope.
#[local] Open Scope Z_scope.

Module TreesChain.
Import Trees TreesSpec TreesFacts OwnRows.

Section encodable.
Context `{CP : CryptoPrims} {B : Badger} {S : SmtLib} `{PS : PgxScan} `{TC : TreeCodec} `{GO : GoMapOrder}.
Context {BL : BadgerLaws B} {L : SmtLaws S}.
Implicit Types (ts : treeStore) (n : string) (d : DB) (i : TxIndexer) (h : Z).

(** ** A state hash that was computed shows that all rows could be encoded *)
Lemma forM_ok_each {St E A} (l : list A) (body : A -> M St E unit) s s' x :
  forM l body s = (Ok tt, s') -> x ∈ l -> exists s1 s2, body x s1 = (Ok tt, s2).
Proof.
  revert s. induction l as [|y l IH]; intros s Hr Hx; [by apply elem_of_nil in Hx|]. cbn [forM] in Hr.
  apply bind_ok in Hr as ([] & s1 & H1 & H2). apply elem_of_cons in Hx as [->|Hx]; [by exists s, s1|by eapply IH].
Qed.

(** A query followed by a loop over what it returned. *)
Lemma queried_ok {A} (q : res string (list A)) (f g : string -> string) (body : A -> M treeStore string unit) ts ts' :
  (xs ← wrap_err f (of_res q); wrap_err g (forM xs body)) ts = (Ok tt, ts') ->
  exists l, q = Ok l /\ forall x, x ∈ l -> exists s1 s2, body x s1 = (Ok tt, s2).
Proof.
  intros (l & s1 & H1 & H2)%bind_ok. apply wrap_err_ok, of_res_ok in H1 as [-> _]. apply wrap_err_ok in H2.
  exists l. split; [done|]. intros x. by eapply forM_ok_each.
Qed.

Lemma treeSum_ok {A} (r : A + string) a ts ts' : fromSum r ts = (Ok a, ts') -> r = inl a.
Proof. unfold fromSum. destruct r; [|done]. by intros [= -> _]. Qed.

Lemma account_encodable sch d h n :
  (forall x, x ∈ (fun row : string * string => {| AccAddress := row.1; AccAmount := row.2 |}) <$> SelectAtHeight (accTable sch d) h ->
    exists s1 s2, updateAccountTree n x s1 = (Ok tt, s2)) -> encodable (accountTable sch d) h.
Proof.
  intros Hx a r Hr. destruct (Hx {| AccAddress := a; AccAmount := r |}) as (s1 & s2 & Hu).
  { apply list_elem_of_fmap. exists (a, r). split; [done|]. by apply elem_of_SelectAtHeight. }
  unfold updateAccountTree in Hu. apply bind_ok in Hu as (k & s3 & Hk & Hu). apply bind_ok in Hu as (v & s4 & Hv & _).
  apply of_option_ok in Hk as [Hk _]. apply treeSum_ok in Hv. exists k, v. cbn in *. by rewrite Hv.
Qed.

Lemma actor_encodable d h t s l :
  i64 h = h -> canonical (actorTable d s) -> SqlQueries.actorTypeToSchemaName t = Some s -> SqlQueries.GetActors d t h = Ok l ->
  (forall x, x ∈ l -> exists s1 s2, updateActorTree t x s1 = (Ok tt, s2)) -> encodable (actorTreeTable s d) h.
Proof.
  intros Hh Hc Hs Hl Hx a r Hr. destruct (GetActors_ok t s d h Hh Hs Hc) as (l' & Hl' & Hin). rewrite Hl in Hl'. injection Hl' as <-.
  destruct (Hx (actorAt s d a h r)) as (s1 & s2 & Hu); [apply Hin; by exists a, r|].
  unfold updateActorTree in Hu. apply bind_ok in Hu as (k & s3 & Hk & Hu). apply bind_ok in Hu as (v & s4 & Hv & _).
  apply of_option_ok in Hk as [Hk _]. apply treeSum_ok in Hv. exists k, v. rewrite actorAt_address in Hk. cbn. by rewrite Hv.
Qed.

Lemma scanFlags_each h (rows : list (string * ParamRow)) l : SqlQueries.scanFlags h rows = Ok l ->
  forall n r, (n, r) ∈ rows -> exists text, scanBoolText (enabled r) = inl text /\
    {| flg_Name := n; flg_Value := param_value r; flg_Height := i64 h; flg_Enabled := text |} ∈ l.
Proof.
  revert l. induction rows as [|[n0 r0] rows IH]; intros l Hl n r Hin; [by apply elem_of_nil in Hin|]. cbn in Hl.
  destruct (scanBoolText (enabled r0)) as [text|] eqn:Ht; [|done]. destruct (SqlQueries.scanFlags h rows) as [l0| |] eqn:Hr; [|done..].
  injection Hl as <-. apply elem_of_cons in Hin as [[= -> ->]|Hin]; [exists text; split; [done|set_solver]|].
  destruct (IH l0 eq_refl n r Hin) as (text' & ? & ?). exists text'. split; [done|set_solver].
Qed.

Lemma tree_encodable d i h n ts ts' :
  i64 h = h -> wfState d i -> n ∈ stateTreeNames -> updateMerkleTree d i h n ts = (Ok tt, ts') -> encodable (treeTable d i n) h.
Proof.
  intros Hh W Hn Hu. unfold stateTreeNames in Hn.
  assert (forall t s, SqlQueries.actorTypeToSchemaName t = Some s -> forall f g : string -> string,
    (xs ← wrap_err f (of_res (SqlQueries.GetActors d t h)); wrap_err g (forM xs (updateActorTree t))) ts = (Ok tt, ts') -> encodable (actorTreeTable s d) h) as Hact.
  { intros t s Hs f g (l & Hl & Hx)%queried_ok. eapply actor_encodable; [done|apply (wf_actors d i W)|done..]. }
  repeat (apply elem_of_cons in Hn as [->|Hn]); [..|by apply elem_of_nil in Hn].
  - exact (Hact ACTOR_TYPE_APP ApplicationActor eq_refl _ _ Hu).
  - exact (Hact ACTOR_TYPE_VAL ValidatorActor eq_refl _ _ Hu).
  - exact (Hact ACTOR_TYPE_FISH FishermanActor eq_refl _ _ Hu).
  - exact (Hact ACTOR_TYPE_SERVICER ServicerActor eq_refl _ _ Hu).
  - apply queried_ok in Hu as (l & [= <-] & Hx). rewrite Hh in Hx. by eapply (account_encodable AccountS).
  - apply queried_ok in Hu as (l & [= <-] & Hx). rewrite Hh in Hx. by eapply (account_encodable PoolS).
  - intros hash b (j & t & _ & Ht & ->)%txRows_spec. destruct (wf_index d i W) as [Hi _]. rewrite (Hi hash t Ht).
    exists (SHA3Hash (idx_Tx t)), (idx_Tx t). split; [apply hex_decode_encode|done].
  - apply queried_ok in Hu as (l & [= <-] & Hx). rewrite Hh in Hx. change (treeTable d i ParamsTreeName) with (paramTable d). intros n r Hr.
    destruct (Hx {| prm_Name := n; prm_Value := param_value r; prm_Height := h |}) as (s1 & s2 & Hu).
    { apply list_elem_of_fmap. exists (n, r). split; [done|]. by apply elem_of_sortKeys, elem_of_SelectAtHeight. }
    apply bind_ok in Hu as (v & s3 & Hv%treeSum_ok & _). exists (SHA3Hash n), v. cbn. by rewrite Hv.
  - apply queried_ok in Hu as (l & Hl & Hx). change (treeTable d i FlagsTreeName) with (flagTable d). intros n r Hr. destruct (scanFlags_each _ _ _ Hl n r) as (text & Ht & Hin).
    { by apply elem_of_sortKeys, elem_of_SelectAtHeight. }
    rewrite Hh in Hin. destruct (Hx _ Hin) as (s1 & s2 & Hu). apply bind_ok in Hu as (v & s3 & Hv%treeSum_ok & _).
    exists (SHA3Hash n), v. cbn. rewrite Ht. cbn. by rewrite Hv.
Qed.

Lemma update_encodable d i h ts hash ts' :
  i64 h = h -> wfState d i -> wfStore ts -> Update d i h ts = (Ok hash, ts') ->
  forall n, n ∈ stateTreeNames -> encodable (treeTable d i n) h.
Proof.
  intros Hh W Ws Hu n Hn. unfold Update, updateMerkleTrees in Hu. rewrite bind_get in Hu.
  apply bind_ok in Hu as ([] & s1 & Hu & _). destruct (forM_ok_each _ _ _ _ n Hu) as (s2 & s3 & Hx); [by apply elem_of_names|].
  by eapply tree_encodable.
Qed.

(** ** The trees do not depend on the table of blocks *)
Lemma forM_ext {St E A} (l : list A) (f g : A -> M St E unit) s : (forall x s, f x s = g x s) -> forM l f s = forM l g s.
Proof.
  intros He. revert s. induction l as [|x l IH]; intros s; [done|]. cbn [forM]. rewrite !bind_eq, He. by destruct (g x s) as [[]?].
Qed.

Lemma readActors_blocks t d s (l : list bytes) h : SqlQueries.readActors (set_blocks t d) s l h = SqlQueries.readActors d s l h.
Proof. induction l as [|x l IH]; [done|]. cbn [SqlQueries.readActors]. rewrite IH. done. Qed.

Lemma GetActors_blocks t d ty h : SqlQueries.GetActors (set_blocks t d) ty h = SqlQueries.GetActors d ty h.
Proof.
  unfold SqlQueries.GetActors. destruct (SqlQueries.actorTypeToSchemaName ty) as [sc|]; [|done].
  change (actorTable (set_blocks t d) sc) with (actorTable d sc). destruct (SqlQueries.decodeAddrs _); [|done..]. apply readActors_blocks.
Qed.

Lemma update_blocks t d i h ts : Update (set_blocks t d) i h ts = Update d i h ts.
Proof.
  unfold Update, updateMerkleTrees. rewrite !bind_get, (bind_eq (forM _ (updateMerkleTree (set_blocks t d) i h))).
  rewrite (forM_ext _ (updateMerkleTree (set_blocks t d) i h) (updateMerkleTree d i h)); [done|].
  intros n ts'. unfold updateMerkleTree. case_bool_decide; [|done]. rewrite !bind_eq.
  destruct (of_option _ _ ts') as [[ty|e|] s2]; [|done..]. by rewrite GetActors_blocks.
Qed.
End encodable.

Section chain.
Context `{CP : CryptoPrims} `{CO : Codec} {B : Badger} {S : SmtLib} `{PS : PgxScan} `{TC : TreeCodec} `{GO : GoMapOrder}.
Context {BL : BadgerLaws B} {L : SmtLaws S}.
Context (X : bytes -> Prop) (HX : collisionFree X).
Implicit Types (ts : treeStore) (n : string) (d : DB) (i : TxIndexer) (h : Z) (w : Node.Modules) (p : PostgresContext).

(** ** The state hash with the trees of the node *)

(** The state hash that the trees [ts] give, and the trees afterwards. *)
Definition realTrees ts d i h : res string string := (Update d i h ts).1.
Definition treesAfter ts h w : treeStore := (Update (db (Node.committedDB w)) (txIndexer (Node.committedDB w)) h ts).2.

(** The trees hold the snapshots of the state and every stored block has the hash of its height. *)
Record sound ts d i h : Prop := {
  so_keyed : keyed X d i;
  so_trees : Reflects ts d i h;
  so_blocks : forall k row, blocks d !! k = Some row -> k <= h /\ blk_hash row = stateRoot d i k;
}.

Lemma agreeBelow_le h h' d d' i i' : agreeBelow h d d' i i' -> h' <= h -> agreeBelow h' d d' i i'.
Proof. intros A Hl. split; intros; (eapply sameRows_below; [apply A|done]). Qed.

Lemma stateRoot_below h d d' i i' k : keyed X d i -> keyed X d' i' -> agreeBelow h d d' i i' -> k < h -> stateRoot d i k = stateRoot d' i' k.
Proof.
  intros K K' A Hk. unfold stateRoot. apply rootHash_ext. intros n _. replace k with (k + 1 - 1) by lia.
  apply snapshot_below; [by eapply keyed_wf|by eapply keyed_wf|]. eapply agreeBelow_le; [done|lia].
Qed.

(** Computing the state hash on rows of the height only. *)
Lemma computed_hash ts d i h p hash p' :
  0 <= h < 2 ^ 63 -> sound ts d i (h - 1) -> ownRows X h d i p -> UnitOfWork.ComputeStateHash (realTrees ts) p = (Ok hash, p') ->
  hash = stateRoot (db p) (txIndexer p) h /\ Reflects (Update (db p) (txIndexer p) h ts).2 (db p) (txIndexer p) h /\
  db p' = db p /\ txIndexer p' = txIndexer p /\ Height p' = h /\ ctx_stateHash p' = hash.
Proof.
  intros Hh [K [W Hr] _] [Ho _ A K'] Hc. destruct (u64_i64_height h Hh) as [Hu Hi]. unfold UnitOfWork.ComputeStateHash in Hc.
  rewrite bind_get, Ho, Hu in Hc. apply bind_ok in Hc as (hash' & s1 & [Hre <-]%of_res_ok & Hc). injection Hc as <- <-.
  unfold realTrees in Hre. destruct (Update (db p) (txIndexer p) h ts) as [r ts'] eqn:Hup. cbn in *. subst r.
  pose proof (keyed_wf X _ _ HX K') as Ws. pose proof (update_encodable _ _ _ _ _ _ Hi Ws W Hup) as He.
  destruct (update_run _ _ _ _ Hi Ws W He) as (ts1 & Hup' & W' & Hov). rewrite Hup in Hup'. injection Hup' as -> ->.
  assert (Reflects ts1 (db p) (txIndexer p) h) as Hr'.
  { apply (reflects_step ts); [done|done| |done|done]. split; [done|]. intros n Hn. rewrite Hr by done. apply snapshot_below; [by eapply keyed_wf|done..]. }
  split_and!; [|done|done|done|done|done]. apply rootHash_ext, Hr'.
Qed.

(** Committing stores the block with the hash of the context. *)
Lemma commit_effect now a qc p p' : Commit now a qc p = (Ok tt, p') ->
  exists row, blk_hash row = ctx_stateHash p /\ blocks (db p) !! u64 (Height p) = None /\
    db p' = set_blocks (<[u64 (Height p) := row]> (blocks (db p))) (db p) /\ txIndexer p' = txIndexer p.
Proof.
  unfold Commit. rewrite bind_get. intros (b & s1 & [Hb <-]%of_res_ok & Hc)%bind_ok. rewrite bind_modify in Hc.
  unfold prepareBlock in Hb. destruct (if bool_decide _ then _ else _) as [prev| |]; [|done..].
  destruct (Persistence.GetByHeight _ _) as [txs| |]; [|done..]. injection Hb as <-.
  unfold insertBlock in Hc. cbn [b_Header] in Hc. rewrite bind_get in Hc. apply bind_ok in Hc as (t & s2 & [Ht <-]%of_res_ok & Hc).
  injection Hc as <-. cbn in Ht. unfold InsertBlockRow in Ht. destruct (blocks (db p) !! u64 (Height p)) eqn:Hn; [done|]. injection Ht as <-.
  eexists. cbn. split; [|split; [done|split; [reflexivity|done]]]. done.
Qed.

(** A block that was executed, hashed and committed keeps the chain sound. *)
Lemma sealed_block ts d i h p hash p1 now a qc p2 :
  0 <= h < 2 ^ 63 -> sound ts d i (h - 1) -> ownRows X h d i p -> UnitOfWork.ComputeStateHash (realTrees ts) p = (Ok hash, p1) ->
  Commit now a qc p1 = (Ok tt, p2) -> sound (Update (db p2) (txIndexer p2) h ts).2 (db p2) (txIndexer p2) h.
Proof.
  intros Hh So Ow Hc Hm. destruct (computed_hash _ _ _ _ _ _ _ Hh So Ow Hc) as (-> & Hr & Hd & Hi & Hp & Hs).
  destruct (commit_effect _ _ _ _ _ Hm) as (row & Hrow & _ & Hd2 & Hi2). rewrite Hp, (proj1 (u64_i64_height h Hh)), Hd in Hd2. rewrite Hi in Hi2.
  rewrite Hd2, Hi2. split.
  - destruct (or_keyed _ _ _ _ _ Ow). by split.
  - rewrite update_blocks. exact Hr.
  - intros k row' Hk. cbn in Hk. rewrite (or_blocks _ _ _ _ _ Ow) in Hk. apply lookup_insert_Some in Hk as [[<- <-]|[_ Hk]].
    + split; [lia|]. rewrite Hrow. exact Hs.
    + destruct (so_blocks _ _ _ _ So k row' Hk) as [Hle ->]. split; [lia|].
      change (stateRoot d i k = stateRoot (db p) (txIndexer p) k). eapply (stateRoot_below h); [apply So|apply Ow|apply Ow|lia].
Qed.

Lemma own_start h d i p : Height p = h -> db p = d -> txIndexer p = i -> keyed X d i -> ownRows X h d i p.
Proof. intros Hh <- <- K. split; [done|done| |done]. split; intros; apply sameRows_refl. Qed.

(** ** Genesis *)
Section genesis.
Context (d : DB) (i : TxIndexer) (Hgov : forall n, n ∈ GovParamMetadataMap.*1 -> X n).
Abbreviation keepsOwn := (maintains (E := string) (ownRows X 0 d i)).

Lemma own_gfatal {A} (Q : A -> Prop) (m : PM A) : keepsOwn Q m -> keepsOwn Q (Genesis.fatal m).
Proof. intros Hm p Hp. specialize (Hm p Hp). unfold Genesis.fatal. by destruct (m p) as [[a|e|] p']. Qed.

Lemma own_genesisAccount acc : keepsOwn anything (Genesis.genesisAccount acc).
Proof. unfold Genesis.genesisAccount, Genesis.decodeHex. solve_maintains. apply own_gfatal. unfold SetAccountAmount. apply own_operation. Qed.
Lemma own_genesisPool acc : keepsOwn anything (Genesis.genesisPool acc).
Proof. unfold Genesis.genesisPool, Genesis.decodeHex. solve_maintains. apply own_gfatal. unfold InsertPool. apply own_insertAccount. Qed.

Lemma own_genesisActors saic (l : list Actor) v : saic ∈ Genesis.stakedActorsInsertConfigs -> keepsOwn anything (Genesis.genesisActors saic l v).
Proof.
  intros Hs. revert v. induction l as [|a l IH]; intros v; cbn [Genesis.genesisActors]; [by apply maintains_ret|].
  eapply (maintains_bind _ anything); [|by intros ? _]. unfold Genesis.genesisActor, Genesis.decodeHex.
  repeat (eapply (maintains_bind _ anything); [first [apply own_gfatal | solve_maintains]|intros ? _]);
    [|apply own_gfatal; eapply maintains_any, maintains_of_res].
  unfold Genesis.stakedActorsInsertConfigs in Hs. repeat (apply elem_of_cons in Hs as [->|Hs]); [..|by apply elem_of_nil in Hs];
    cbn [Genesis.saicInsertFn]; unfold InsertApp, InsertServicer, InsertFisherman, InsertValidator; by eapply own_InsertActor.
Qed.

Lemma own_genesisActorTypes state (l : list Genesis.stakedActorsInsertConfig) v :
  (forall s, s ∈ l -> s ∈ Genesis.stakedActorsInsertConfigs) -> keepsOwn anything (Genesis.genesisActorTypes state l v).
Proof.
  revert v. induction l as [|s l IH]; intros v Hl; cbn [Genesis.genesisActorTypes]; [by apply maintains_ret|].
  eapply (maintains_bind _ anything); [apply own_genesisActors, Hl; set_solver|]. intros v' _. apply IH. set_solver.
Qed.

Lemma insertParamRows_step ps (keys : list (string * GovParamMetadata)) t t' :
  Genesis.insertParamRows ps 0 keys t = Ok t' ->
  sameRows t t' 0 /\ forall n, is_Some (t' !! n) -> is_Some (t !! n) \/ n ∈ keys.*1.
Proof.
  revert t. induction keys as [|[k m] keys IH]; intros t Ht; cbn in Ht; [injection Ht as <-; split; [apply sameRows_refl|by left]|].
  destruct (Genesis.genesisParamRow _ _) as [row| |]; [|done..]. destruct (IH _ Ht) as [Hs Hk]. split.
  - eapply sameRows_trans; [apply upsert_below|exact Hs].
  - intros n [Hn|Hn]%Hk; [|right; set_solver]. revert n Hn. apply upsert_keys; [right; set_solver|by left].
Qed.

Lemma own_InitGenesisParams ps : keepsOwn anything (Genesis.InitGenesisParams ps).
Proof.
  intros p Hp. split; [|by destruct (_ p).1]. unfold Genesis.InitGenesisParams. rewrite bind_get, (or_height _ _ _ _ _ Hp).
  case_bool_decide; [done|]. unfold of_res. rewrite bind_eq. destruct (Genesis.InsertParams _ _ _) as [t| |] eqn:Ht; [|done..].
  apply insertParamRows_step in Ht as [Hs Hk]. cbn. apply own_params; [done| |done].
  intros n [Hn|Hn]%Hk; [by apply (ky_params _ _ _ (or_keyed _ _ _ _ _ Hp))|by apply Hgov].
Qed.
End genesis.

Lemma gfatal_ok {A} (m : PM A) p a p' : Genesis.fatal m p = (Ok a, p') -> m p = (Ok a, p').
Proof. unfold Genesis.fatal. by destruct (m p) as [[x|e|] p1]. Qed.

Lemma genesis_sound ts now state w w' :
  (forall n, n ∈ GovParamMetadataMap.*1 -> X n) -> sound ts (db (Node.committedDB w)) (txIndexer (Node.committedDB w)) (-1) ->
  Genesis.populateGenesisState (realTrees ts) now state w = (Ok tt, w') ->
  sound (treesAfter ts 0 w') (db (Node.committedDB w')) (txIndexer (Node.committedDB w')) 0.
Proof.
  intros Hgov So. unfold Genesis.populateGenesisState, Node.NewRWContext. destruct (Node.writeContextOpen w); [done|].
  set (p := Node.contextAt 0 (Node.committedDB w)). destruct (Genesis.genesisTx _ now state p) as [[[]|e|] p'] eqn:Hg; [|done..]. intros [= <-].
  assert (ownRows X 0 (db (Node.committedDB w)) (txIndexer (Node.committedDB w)) p) as Ow by (by apply own_start; [..|apply So]).
  unfold Genesis.genesisTx in Hg.
  apply bind_ok in Hg as ([] & p1 & H1 & Hg). apply (maintains_run _ anything) with (2 := Ow) in H1 as [Ow1 _];
    [|apply maintains_forM; intros a _; apply own_genesisAccount].
  apply bind_ok in Hg as ([] & p2 & H2 & Hg). apply (maintains_run _ anything) with (2 := Ow1) in H2 as [Ow2 _];
    [|apply maintains_forM; intros a _; apply own_genesisPool].
  apply bind_ok in Hg as (v & p3 & H3 & Hg). apply (maintains_run _ anything) with (2 := Ow2) in H3 as [Ow3 _];
    [|by apply own_genesisActorTypes].
  apply bind_ok in Hg as ([] & p4 & H4 & Hg). apply (maintains_run _ anything) with (2 := Ow3) in H4 as [Ow4 _];
    [|by apply own_gfatal, own_InitGenesisParams].
  apply bind_ok in Hg as ([] & p5 & H5 & Hg). injection H5 as <-.
  apply bind_ok in Hg as (hash & p6 & H6%gfatal_ok & H7%gfatal_ok).
  eapply (sealed_block ts _ _ 0 p4); [lia|exact So|exact Ow4|exact H6|exact H7].
Qed.

(** ** Blocks *)
Import UnitOfWork.

Lemma beginBlock_state u : (beginBlock u).2 = u.
Proof.
  unfold beginBlock, prevBlockByzantineValidators, handleByzantineValidators, getIntParam. rewrite !bind_eq. cbn.
  unfold gets, mret, M_ret, mbind, M_bind, read. destruct (persistenceReadContext u) as [p|]; [|done]. by destruct (GetIntParam _ _ _).
Qed.

Lemma onUow_returns {E A} (wrap : Error -> E) (m : UM A) (s : US) a s' :
  onUow wrap m s = (Ok a, s') -> exists u', m (uow s) = (Ok a, u') /\ s' = {| uow := u'; mempool := mempool s |}.
Proof. unfold onUow. destruct (m (uow s)) as [[x|e|] u']; [|done..]. intros [= -> <-]. by exists u'. Qed.

(** What a block that was applied has done before its state hash was computed. *)
Lemma applied_block ts d i h o1 o2 (s s' : US) :
  ownUS X h d i s -> (forall b tx, b ∈ proposalBlockTxs (uow s) -> TxFromBytes b = inl tx -> knownTx X tx) ->
  ApplyBlock (realTrees ts) o1 o2 s = (Ok tt, s') ->
  exists p hash p', ownRows X h d i p /\ UnitOfWork.ComputeStateHash (realTrees ts) p = (Ok hash, p') /\
    persistenceRWContext (uow s') = Some p'.
Proof.
  intros Ow Hk Ha. unfold ApplyBlock in Ha. rewrite bind_get in Ha. destruct (negb _); [done|].
  apply bind_ok in Ha as ([] & s1 & H1 & Ha). apply onUow_returns in H1 as (u1 & H1 & ->).
  pose proof (beginBlock_state (uow s)) as Hb. rewrite H1 in Hb. cbn in Hb. subst u1.
  apply bind_ok in Ha as ([] & s2 & H2 & Ha). unfold processProposalBlockTransactions in H2. cbn in H2.
  apply bind_ok in H2 as (txs & s3 & H3 & H2). injection H3 as <- <-.
  apply (maintains_run (ownUS X h d i) anything) in H2 as [Ow2 _]; [|by apply us_processTxs|exact Ow].
  apply bind_ok in Ha as ([] & s4 & H4 & Ha).
  apply (maintains_run (ownUS X h d i) anything) with (2 := Ow2) in H4 as [[_ Ow4] _]; [|apply us_onUow, uow_endBlock].
  apply bind_ok in Ha as (hash & s5 & H5 & Ha). apply onUow_returns in H5 as (u5 & H5 & ->). unfold fatal, write in H5.
  destruct (persistenceRWContext (uow s4)) as [p|]; [|done].
  destruct (UnitOfWork.ComputeStateHash (realTrees ts) p) as [[x|e|] p'] eqn:Hc; [|done..]. injection H5 as -> <-.
  rewrite bind_get in Ha. destruct (_ && _); [done|]. injection Ha as <-. exists p, hash, p'. split_and!; [by apply Ow4|done|done].
Qed.

(** One block, as a replica that has its own trees applies and commits it. *)
Record chainBlock := { cb_hash : string; cb_proposer : slice; cb_txs : list bytes; cb_order1 : list Z; cb_order2 : list Z; cb_now : Z; cb_qc : slice }.

Definition applyBlock (b : chainBlock) h ts w : option (treeStore * Node.Modules) :=
  match Node.NewUnitOfWork h false w with
  | (Ok u, w1) =>
      match (Node.onBase (SetProposalBlock (cb_hash b) (cb_proposer b) (cb_txs b)) ;;
             Node.onUowMempool (ApplyBlock (realTrees ts) (cb_order1 b) (cb_order2 b)) ;;
             Node.UowCommit (cb_now b) (cb_qc b)) (u, w1) with
      | (Ok _, (_, w2)) => Some (treesAfter ts h w2, w2)
      | _ => None
      end
  | _ => None
  end.
Fixpoint applyBlocks (bs : list chainBlock) h ts w : option (treeStore * Node.Modules) :=
  match bs with
  | [] => Some (ts, w)
  | b :: bs' => match applyBlock b h ts w with Some (ts', w') => applyBlocks bs' (h + 1) ts' w' | None => None end
  end.

(** Genesis and the blocks after it. *)
Definition runChain (now : Z) (genesis : Genesis.GenesisState) (bs : list chainBlock) ts w : option (treeStore * Node.Modules) :=
  match Genesis.populateGenesisState (realTrees ts) now genesis w with
  | (Ok _, w') => applyBlocks bs 1 (treesAfter ts 0 w') w'
  | _ => None
  end.

Definition knownBlock (b : chainBlock) : Prop := forall t tx, t ∈ cb_txs b -> TxFromBytes t = inl tx -> knownTx X tx.

Lemma block_sound b h ts w ts' w' :
  0 <= h < 2 ^ 63 -> knownBlock b -> sound ts (db (Node.committedDB w)) (txIndexer (Node.committedDB w)) (h - 1) ->
  applyBlock b h ts w = Some (ts', w') -> sound ts' (db (Node.committedDB w')) (txIndexer (Node.committedDB w')) h.
Proof.
  intros Hh Hk So. unfold applyBlock, Node.NewUnitOfWork. rewrite bind_get. unfold Node.NewReadContext. erewrite bind_run by reflexivity.
  unfold Node.NewRWContext at 1. rewrite bind_eq. destruct (Node.writeContextOpen w); [done|]. cbn [mret M_ret].
  set (p0 := Node.contextAt h (Node.committedDB w)). set (w1 := Node.set_writeContextOpen true w).
  match goal with |- match ?r with _ => _ end = _ -> _ => destruct r as [[[]|e|] [u2 w2]] eqn:Hr end; [|done..]. intros [= <- <-].
  apply bind_ok in Hr as ([] & [u3 w3] & H3 & Hr). injection H3 as <- <-.
  apply bind_ok in Hr as ([] & [u4 w4] & H4 & H5). unfold Node.onUowMempool in H4. cbn in H4.
  destruct (ApplyBlock _ _ _ _) as [[[]|e|] s'] eqn:Ha; [|done..]. injection H4 as <- <-.
  apply applied_block with (h := h) (d := db (Node.committedDB w)) (i := txIndexer (Node.committedDB w)) in Ha as (p & hash & p' & Ow & Hc & Hp);
    [|split; [done|]; intros q [= <-]; apply own_start; [done..|apply So]|exact Hk].
  unfold Node.UowCommit, UnitOfWork.Commit in H5. cbn in H5. rewrite Hp in H5.
  destruct (Persistence.Commit _ _ _ p') as [[[]|e|] p2] eqn:Hm; [|done..]. injection H5 as <- <-.
  eapply (sealed_block ts _ _ h p); [done|exact So|exact Ow|exact Hc|exact Hm].
Qed.

Lemma blocks_sound (bs : list chainBlock) h ts w ts' w' :
  0 <= h -> h + Z.of_nat (length bs) <= 2 ^ 63 -> Forall knownBlock bs -> sound ts (db (Node.committedDB w)) (txIndexer (Node.committedDB w)) (h - 1) ->
  applyBlocks bs h ts w = Some (ts', w') -> sound ts' (db (Node.committedDB w')) (txIndexer (Node.committedDB w')) (h + Z.of_nat (length bs) - 1).
Proof.
  revert h ts w. induction bs as [|b bs IH]; intros h ts w Hh Hb Hk So Ha; cbn [applyBlocks length] in *.
  { injection Ha as <- <-. by replace (h + Z.of_nat 0 - 1) with (h - 1) by lia. }
  apply Forall_cons in Hk as [Hk1 Hk2]. destruct (applyBlock b h ts w) as [[ts1 w1]|] eqn:H1; [|done].
  replace (h + Z.of_nat (Datatypes.S (length bs)) - 1) with (h + 1 + Z.of_nat (length bs) - 1) by lia.
  eapply (IH (h + 1) ts1 w1); [lia|lia|done| |done]. replace (h + 1 - 1) with h by lia. eapply block_sound; [lia|done..].
Qed.

(** C7: the state hashes of a chain.  A node creates its trees, loads genesis into an empty
    database and applies block after block.  Then every block it has stored, genesis included,
    carries the reference state hash of the tables at the height of the block, whatever the order
    of the map iterations was; and the trees hold exactly the state of the last height. *)
Theorem chain_state_hashes (dir : string) (now : Z) (genesis : Genesis.GenesisState) (bs : list chainBlock) ts w ts' w' :
  Create dir = Ok ts -> db (Node.committedDB w) = emptyDB -> txIndexer (Node.committedDB w) = {| txByHash := ∅; txByHeight := ∅ |} ->
  (forall n, n ∈ GovParamMetadataMap.*1 -> X n) -> Forall knownBlock bs -> Z.of_nat (length bs) < 2 ^ 63 ->
  runChain now genesis bs ts w = Some (ts', w') ->
  let '(d, i) := (db (Node.committedDB w'), txIndexer (Node.committedDB w')) in
  (forall k row, blocks d !! k = Some row -> blk_hash row = stateRoot d i k) /\ Reflects ts' d i (Z.of_nat (length bs)).
Proof.
  intros [Wt Hemp]%create_ok Hd Hi Hgov Hk Hlen. unfold runChain.
  destruct (Genesis.populateGenesisState _ now genesis w) as [[[]|e|] w1] eqn:Hg; [|done..]. intros Hr.
  assert (sound ts (db (Node.committedDB w)) (txIndexer (Node.committedDB w)) (-1)) as So.
  { rewrite Hd, Hi. assert (keyed X emptyDB {| txByHash := ∅; txByHeight := ∅ |}) as K.
    { split; [intros []; by intros a [m Hm]|by intros s a [m Hm]|by intros n [m Hm]|by intros n [m Hm]| |done]. by split. }
    split; [done| |done]. apply empty_reflects; [done|by intros|by eapply keyed_wf|]. intros n x h' _. unfold treeTable. by repeat case_bool_decide. }
  pose proof (genesis_sound _ _ _ _ _ Hgov So Hg) as So1. apply blocks_sound in Hr; [|lia|lia|done|exact So1].
  replace (1 + Z.of_nat (length bs) - 1) with (Z.of_nat (length bs)) in Hr by lia. destruct Hr as [_ Ht Hb].
  split; [|done]. intros k row Hrow. by destruct (Hb k row Hrow).
Qed.
End chain.
End TreesChain.

(** ** A concrete chain: genesis, a block with a transfer, an empty block *)
Module ToyChain.
Import TreesSpec TreesFacts OwnRows TreesChain.
#[local] Existing Instances ToyTrees.scan ToyTrees.treeCodec.

(** Hashes keep the end of a text, in which the names of the parameters differ. *)
Definition reversed (b : bytes) : bytes := String.string_of_list_ascii (rev (String.list_ascii_of_string b)).
#[local] Instance prims : CryptoPrims := {|
  sha3_256 b := ToyCrypto.pad 32 (reversed b); sha256 := ToyCrypto.pad 32; ed25519_public := ToyCrypto.pad 32;
  ed25519_sign sk m := (ToyCrypto.pad 32 sk +:+ m)%string; ed25519_verify pk m sig := bool_decide (sig = (pk +:+ m)%string);
  ed25519_newKeyFromSeed := ToyCrypto.pad 64 |}.
#[local] Existing Instances ToyCodec.codec CanonicalOrder.order ToyBadger.badger ToyBadger.badgerLaws.

(** A tree is its content, its root the number of its entries and the last of its values. *)
#[local] Instance smt : SmtLib := {|
  Smt := gmap bytes bytes; NewSparseMerkleTree _ := ∅;
  smtUpdate k v s := (Ok tt, (<[k := v]> s.1, s.2)); smtCommit s := (Ok tt, s);
  smtRoot m := bigIntText (Z.of_nat (size m)) +:+ ":" +:+ map_fold (fun _ v _ => v) "" m |}.
#[local] Instance smtLaws : SmtLaws smt.
Proof.
  refine {| smtContent := fun m : @Smt _ smt => (m : gmap bytes bytes); backed _ _ := True |}.
  - done.
  - done.
  - intros t db k v _. by eexists _, _.
  - intros t db _. by eexists _, _.
  - intros t1 t2 ->. done.
Defined.
Definition fresh : Trees.treeStore := {|
  Trees.treeStoreDir := ":memory:"; Trees.rootTree := Trees.newTree Trees.RootTreeName ∅;
  Trees.merkleTrees := foldl (fun m n => <[n := Trees.newTree n ∅]> m) ∅ Trees.stateTreeNames |}.
Lemma created : Trees.Create ":memory:" = Ok fresh.
Proof. reflexivity. Qed.

Definition texts : list bytes := "17" :: GovParamMetadataMap.*1.
Definition known (b : bytes) : Prop := b ∈ texts.

Lemma known_collisionFree : collisionFree known.
Proof.
  assert (Forall (fun a => Forall (fun b => SHA3Hash a = SHA3Hash b -> a = b) texts) texts) as Hf
    by (apply (bool_decide_unpack _); vm_compute; exact Logic.I).
  intros a b Ha Hb. rewrite Forall_forall in Hf. specialize (Hf a Ha). rewrite Forall_forall in Hf. by apply Hf.
Qed.

Definition genesis : Genesis.GenesisState := {|
  Genesis.gAccounts := [{| AccAddress := hexEncode ToyCodec.alice; AccAmount := "90000" |}];
  Genesis.gPools := Genesis.gPools ToyGenesis.state; Genesis.gApplications := Genesis.gApplications ToyGenesis.state;
  Genesis.gValidators := []; Genesis.gServicers := []; Genesis.gFishermen := []; Genesis.gParams := Genesis.gParams ToyGenesis.state |}.
Definition start : Node.Modules :=
  Node.set_committedDB {| Height := 0; db := emptyDB; ctx_stateHash := ""; blockStore := ∅;
    txIndexer := {| txByHash := ∅; txByHeight := ∅ |}; networkId := "" |} NodeToy.modules.
Definition block (txs : list bytes) : chainBlock := {|
  cb_hash := UnitOfWork.IgnoreProposalBlockCheckHash; cb_proposer := Some "P"; cb_txs := txs;
  cb_order1 := [0; 1; 2; 3; 4]; cb_order2 := [4; 3; 2; 1; 0]; cb_now := 0; cb_qc := None |}.
Definition blocks3 : list chainBlock := [block ["17"]; block []].

Lemma block_known : Forall (knownBlock known) blocks3.
Proof.
  assert (knownBlock known (block ["17"])) as H1.
  { intros t tx ->%list_elem_of_singleton [= <-]. split; [intros b [= <-]; by apply list_elem_of_here|]. by intros m [= <-]. }
  apply Forall_cons_2; [done|]. apply Forall_cons_2; [|apply Forall_nil_2]. by intros t tx Ht%elem_of_nil.
Qed.

Definition hashAt (k : Z) (r : option (Trees.treeStore * Node.Modules)) : option string :=
  '(_, w) ← r; row ← blocks (db (Node.committedDB w)) !! k; Some (blk_hash row).
Lemma ran : is_Some (hashAt 2 (runChain 0 genesis blocks3 fresh start)).
Proof. apply (bool_decide_unpack _). vm_compute. exact Logic.I. Qed.

Lemma chain_state_hashes_witness : exists ts' w' row,
  runChain 0 genesis blocks3 fresh start = Some (ts', w') /\ blocks (db (Node.committedDB w')) !! 2 = Some row /\
  blk_hash row = stateRoot (db (Node.committedDB w')) (txIndexer (Node.committedDB w')) 2.
Proof.
  destruct ran as [hash Hran]. destruct (runChain 0 genesis blocks3 fresh start) as [[ts' w']|] eqn:Hr; [|discriminate Hran].
  cbn in Hran. destruct (blocks (db (Node.committedDB w')) !! 2) as [row|] eqn:Hrow; [|discriminate Hran].
  exists ts', w', row. split; [reflexivity|]. split; [exact Hrow|].
  apply (chain_state_hashes known known_collisionFree ":memory:" 0 genesis blocks3 fresh start ts' w' created eq_refl eq_refl);
    [|exact block_known|reflexivity|exact Hr|exact Hrow].
  intros n Hn. by apply list_elem_of_further.
Defined.
End ToyChain.
