(* ===== verification/ConsFrame.v ===== *)
(** What the operations of the consensus module leave alone: frame lemmas for the module's
    combinators and helpers, used by the theorems on views and on safety. *)

From S2P Require Import Prelude GoStd Errors Crypto CoreTypes Sql Persistence FifoList HotstuffMempool ConsTypes Consensus.

Module ConsFrame.
Import Consensus.

Section frame.
Context {W U : Type} `{CryptoPrims} `{HotstuffCodec} `{PersistenceUtilityModules W U} `{UtilityUnitOfWork W U}.
Context {X : Type} (f : consensusModule W U -> X).
Abbreviation CM := (M (consensusModule W U) ConsErr).

Lemma keeps_onError {A} (p : CM A) (h : ConsErr -> CM unit) (k : A -> CM unit) :
  keeps f p -> (forall e, keeps f (h e)) -> (forall a, keeps f (k a)) -> keeps f (onError p h k).
Proof.
  intros Hp Hh Hk m. unfold onError. specialize (Hp m). destruct (p m) as [[a|e|] m']; cbn in *; [| |done];
    rewrite <- Hp; [apply Hk|apply Hh].
Qed.
Lemma keeps_logError {A} (p : CM A) : keeps f p -> keeps f (logError p).
Proof. intros Hp. by apply keeps_onError; auto with keeps. Qed.

(** The parts of the state that calls to the neighbours and to the mempools do not touch, and
    those that sending a message does not touch either. *)
Class Quiet : Prop := {
  local_world : forall w m, f (set_world w m) = f m;
  local_uow : forall u m, f (set_utilityUnitOfWork u m) = f m;
  local_pool : forall p m, f (set_hotstuffMempool p m) = f m;
  local_timer : forall t m, f (set_timer t m) = f m;
}.
Class Local : Prop := {
  local_quiet :: Quiet;
  local_sent : forall l m, f (set_sent l m) = f m;
}.

Context `{!Quiet}.

Lemma keeps_onWorld {A} (g : M W string A) : keeps f (onWorld g).
Proof. intros m. unfold onWorld. destruct (g (world m)) as [r w']. cbn. apply local_world. Qed.
Lemma keeps_onUow {A} u (g : M (U * W) string A) : keeps f (onUow u g).
Proof. intros m. unfold onUow. destruct (g (u, world m)) as [r [u' w']]. cbn. by rewrite local_world, local_uow. Qed.
Lemma keeps_onPool {A} st (g : M Pool Error A) : keeps f (onPool st g).
Proof.
  intros m. unfold onPool. destruct (hotstuffMempool m !! st) as [p|]; [|done]. destruct (g p) as [r p']. cbn. apply local_pool.
Qed.
Lemma keeps_readPool {A} st (g : Pool -> A) : keeps f (readPool st g).
Proof. intros m. unfold readPool. by destruct (hotstuffMempool m !! st). Qed.
Lemma keeps_of_module {A} (r : res string A) : keeps f (of_module r : CM A).
Proof. by intros m. Qed.
Lemma keeps_validatorsOrNone h : keeps f (validatorsOrNone h).
Proof. intros m. unfold validatorsOrNone. by destruct (validatorsAt h m). Qed.
Lemma keeps_send `{!Local} dst out : keeps f (send dst out : CM unit).
Proof. apply keeps_modify. intros m. apply local_sent. Qed.
Lemma keeps_RestartTimer : keeps f (RestartTimer : CM unit).
Proof. apply keeps_modify. intros m. apply local_timer. Qed.
Lemma keeps_setUow u : keeps f (modify (set_utilityUnitOfWork u) : CM unit).
Proof. apply keeps_modify. intros m. apply local_uow. Qed.
Lemma keeps_BlockHeaderOf b : keeps f (BlockHeaderOf b : CM BlockHeader).
Proof. unfold BlockHeaderOf. solve_keeps. Qed.
End frame.

#[export] Hint Resolve local_quiet : keeps.
#[export] Hint Resolve keeps_onWorld keeps_onUow keeps_onPool keeps_readPool keeps_of_module keeps_validatorsOrNone
  keeps_send keeps_RestartTimer keeps_setUow keeps_BlockHeaderOf : keeps.

Ltac keeps_local :=
  match goal with
  | |- keeps _ (onError _ _ _) => apply keeps_onError; [|intros ?|intros ?]
  | |- keeps _ (logError _) => apply keeps_logError
  | |- _ => keeps_step
  end.
Ltac solve_local := repeat keeps_local.

Section helpers.
Context {W U : Type} `{CryptoPrims} `{HotstuffCodec} `{PersistenceUtilityModules W U} `{UtilityUnitOfWork W U}.
Context (cfg : Config) {X : Type} (f : consensusModule W U -> X).

Section quiet.
Context `{!Quiet f}.
Lemma keeps_getValidators h : keeps f (getValidatorsAtHeight h).
Proof. unfold getValidatorsAtHeight. solve_local. Qed.
Hint Resolve keeps_getValidators : keeps.
Lemma keeps_didReceiveEnough st : keeps f (didReceiveEnoughMessageForStep st).
Proof. unfold didReceiveEnoughMessageForStep. solve_local. Qed.
Lemma keeps_collect n h st r : forall pss, keeps f (collectPartialSignatures n h st r pss).
Proof. induction n as [|n IH]; intros pss; cbn [collectPartialSignatures]; solve_local. Qed.
Hint Resolve keeps_collect : keeps.
Lemma keeps_getQuorumCertificate h st r : keeps f (getQuorumCertificate h st r).
Proof. unfold getQuorumCertificate. solve_local. Qed.
Lemma keeps_isValidMessageBlock msg : keeps f (isValidMessageBlock cfg msg).
Proof. unfold isValidMessageBlock. solve_local. Qed.
Lemma keeps_refresh : keeps f (refreshUtilityUnitOfWork cfg).
Proof. unfold refreshUtilityUnitOfWork. solve_local. Qed.
Lemma keeps_commitBlock b : keeps f (commitBlock b).
Proof. unfold commitBlock. solve_local. Qed.
Lemma keeps_applyBlock b : keeps f (applyBlock b).
Proof. unfold applyBlock. solve_local. Qed.
Lemma keeps_clearMessagesPool : keeps f clearMessagesPool.
Proof. unfold clearMessagesPool. solve_local. Qed.
Lemma keeps_ReleaseUow : keeps f ReleaseUtilityUnitOfWork.
Proof. unfold ReleaseUtilityUnitOfWork. solve_local. Qed.
Lemma keeps_validateQC qc : keeps f (validateQuorumCertificate qc).
Proof. unfold validateQuorumCertificate. solve_local. Qed.
Hint Resolve keeps_validateQC : keeps.
Lemma keeps_validateProposal msg : keeps f (validateProposal msg).
Proof. unfold validateProposal. solve_local. Qed.
Lemma keeps_validateMessageSignature msg : keeps f (validateMessageSignature msg).
Proof. unfold validateMessageSignature. solve_local. Qed.
Lemma keeps_indexHotstuffMessage msg : keeps f (indexHotstuffMessage cfg msg).
Proof. unfold indexHotstuffMessage. solve_local. Qed.
Lemma keeps_prepareBlock qc : keeps f (prepareBlock cfg qc).
Proof. unfold prepareBlock. solve_local. Qed.
Lemma keeps_GetPrepareQC : keeps f GetPrepareQC.
Proof. unfold GetPrepareQC. solve_local. Qed.
End quiet.

Section sends.
Context `{!Local f}.
Hint Resolve keeps_getValidators : keeps.
Lemma keeps_sendToLeader msg : keeps f (sendToLeader msg).
Proof. unfold sendToLeader. solve_local. Qed.
Lemma keeps_broadcast msg : keeps f (broadcastToValidators msg).
Proof. unfold broadcastToValidators. solve_local. Qed.
Lemma keeps_BroadcastMessage b : keeps f (BroadcastMessageToValidators b).
Proof. unfold BroadcastMessageToValidators. solve_local. apply keeps_broadcast. Qed.
Hint Resolve keeps_sendToLeader : keeps.
Lemma keeps_vote st : keeps f (vote cfg st).
Proof. unfold vote, discard. solve_local. Qed.
End sends.
End helpers.

#[export] Hint Resolve keeps_getValidators keeps_didReceiveEnough keeps_getQuorumCertificate keeps_sendToLeader
  keeps_broadcast keeps_isValidMessageBlock keeps_refresh keeps_commitBlock keeps_applyBlock keeps_clearMessagesPool
  keeps_ReleaseUow keeps_validateQC keeps_validateProposal keeps_validateMessageSignature keeps_indexHotstuffMessage
  keeps_prepareBlock keeps_BroadcastMessage keeps_GetPrepareQC keeps_vote : keeps.
End ConsFrame.
