(* ===== verification/ConsQuorum.v ===== *)
(** Quorums: the floating-point threshold is exactly two thirds, what a valid quorum
    certificate guarantees and what it does not, and the round trip from votes to a
    certificate. *)

From S2P Require Import Prelude GoStd Errors Crypto CoreTypes Sql Persistence FifoList HotstuffMempool ConsTypes Consensus Node.
#[local] Open Scope string_scope.
#[local] Open Scope Z_scope.

Module ConsQuorum.
Import Consensus.

(** ** The threshold *)

(** The product with 2/3 is exact when the number of validators is a multiple of three: the
    distance to the exact value is at most half of the last kept bit, and a tie is rounded to
    the even neighbour. *)
Lemma threshold_multiple k :
  0 < k < 2 ^ 50 ->
  exists q s, roundBits 53 (6004799503160661 * (3 * k)) = (q, s) /\ 0 <= s <= 53 /\ q * 2 ^ s = k * 2 ^ 54.
Proof.
  intros Hk. set (m := 6004799503160661 * (3 * k)).
  assert (m = k * 2 ^ 54 - k) as Hm by (unfold m; lia).
  pose proof (bitLen_pos k ltac:(lia)) as Hb. pose proof (bitLen_le k 50 ltac:(lia) ltac:(lia)) as Hb50.
  pose proof (bitLen_nonneg k). set (b := bitLen k) in *.
  assert (1 <= b) by (destruct (decide (b = 0)) as [->|]; [cbn in Hb|]; lia).
  assert (2 ^ b = 2 * 2 ^ (b - 1)) as Hbb by (rewrite <- Z.pow_succ_r by lia; f_equal; lia).
  assert (2 ^ (b + 53) = 2 ^ (b - 1) * 2 ^ 54) as E1 by (rewrite <- Z.pow_add_r by lia; f_equal; lia).
  assert (2 ^ (b + 54) = 2 ^ b * 2 ^ 54) as E2 by (rewrite <- Z.pow_add_r by lia; f_equal; lia).
  assert (0 < 2 ^ (b - 1)) by (apply Z.pow_pos_nonneg; lia).
  unfold roundBits. destruct (decide (k = 2 ^ (b - 1))) as [Hpow|Hpow].
  - (* a power of two: a tie, and the quotient is odd *)
    assert (bitLen m = b + 53) as ->.
    { apply Z.le_antisymm; [apply bitLen_le; lia|].
      enough (b + 52 < bitLen m) by lia. apply bitLen_ge; [|lia].
      assert (2 ^ (b + 53) = 2 * 2 ^ (b + 52)) by (rewrite <- Z.pow_succ_r by lia; f_equal; lia). lia. }
    rewrite bool_decide_eq_false_2 by lia. replace (b + 53 - 53) with b by lia.
    assert (m = (2 ^ 53 - 1) * 2 ^ b + 2 ^ (b - 1)) as -> by lia.
    rewrite Z.div_add_l, (Z.div_small (2 ^ (b - 1))) by lia.
    rewrite Z.add_comm, Z.mod_add, Z.mod_small by lia.
    rewrite (bool_decide_eq_true_2 (2 ^ (b - 1) = 2 ^ (b - 1))) by done.
    rewrite bool_decide_eq_false_2 by lia. cbn -[Z.pow].
    exists (2 ^ 53 - 1 + 0 + 1), b. repeat split; lia.
  - assert (bitLen m = b + 54) as ->.
    { apply Z.le_antisymm; [apply bitLen_le; lia|].
      enough (b + 53 < bitLen m) by lia. apply bitLen_ge; [|lia]. lia. }
    rewrite bool_decide_eq_false_2 by lia. replace (b + 54 - 53) with (b + 1) by lia.
    assert (2 ^ (b + 1) = 2 * 2 ^ b) as E3 by (rewrite <- Z.pow_succ_r by lia; f_equal; lia).
    replace (b + 1 - 1) with b by lia.
    assert (m = (k * 2 ^ (53 - b) - 1) * 2 ^ (b + 1) + (2 ^ (b + 1) - k)) as ->.
    { assert (k * 2 ^ (53 - b) * 2 ^ (b + 1) = k * 2 ^ 54); [|lia].
      rewrite <- Z.mul_assoc, <- Z.pow_add_r by lia. do 2 f_equal. lia. }
    rewrite Z.div_add_l, (Z.div_small (2 ^ (b + 1) - k)) by lia.
    rewrite (Z.add_comm _ (2 ^ (b + 1) - k)), Z.mod_add, Z.mod_small by lia.
    rewrite bool_decide_eq_true_2 by lia. cbn -[Z.pow].
    exists (k * 2 ^ (53 - b) - 1 + 0 + 1), (b + 1). repeat split; [lia..|].
    replace (k * 2 ^ (53 - b) - 1 + 0 + 1) with (k * 2 ^ (53 - b)) by lia.
    rewrite <- Z.mul_assoc, <- Z.pow_add_r by lia. do 2 f_equal. lia.
Qed.

(** In general rounding moves the product by less than a validator. *)
Lemma threshold_error n :
  0 < n < 2 ^ 50 ->
  exists q s, roundBits 53 (6004799503160661 * n) = (q, s) /\ 0 <= s <= 53 /\
    Z.abs (q * 2 ^ s - 6004799503160661 * n) <= n.
Proof.
  intros Hn. set (m := 6004799503160661 * n).
  assert (bitLen m <= 103) by (apply bitLen_le; [unfold m|]; lia).
  destruct (roundBits_spec 53 m) as (q & s & Hr & Hs & _ & H0 & Hq); [unfold m; lia..|].
  exists q, s. split; [done|]. split; [lia|]. destruct (decide (s = 0)) as [->|Hnz].
  - rewrite (H0 eq_refl). rewrite Z.pow_0_r. lia.
  - specialize (Hq ltac:(lia)). pose proof (bitLen_pos m ltac:(unfold m; lia)) as Hb.
    assert (2 ^ (bitLen m - 1) = 2 ^ s * 2 ^ 52) as He by (rewrite <- Z.pow_add_r by lia; f_equal; lia).
    assert (0 < 2 ^ s) by (apply Z.pow_pos_nonneg; lia). unfold m in *. lia.
Qed.

(** The comparison with a rounded product, on integers. *)
Lemma floatGt_product num n q s :
  0 <= n < 2 ^ 53 -> roundBits 53 (6004799503160661 * n) = (q, s) -> 0 < n -> 0 <= s <= 53 ->
  floatGt num (bigFloatMul ByzantineThreshold (bigNewFloat n)) = bool_decide (q * 2 ^ s < num * 2 ^ 53).
Proof.
  intros Hn Hr Hp Hs. rewrite bigNewFloat_small by done. unfold bigFloatMul, ByzantineThreshold.
  cbn [fmant fexp fprec]. unfold roundFloat. rewrite Z.abs_eq by lia. rewrite Hr.
  rewrite Z.sgn_pos by lia. unfold floatGt. cbn [fmant fexp]. rewrite Z.mul_1_l.
  assert (0 < 2 ^ s) by (apply Z.pow_pos_nonneg; lia).
  assert (2 ^ 53 = 2 ^ s * 2 ^ (53 - s)) as He by (rewrite <- Z.pow_add_r by lia; f_equal; lia).
  destruct (decide (s = 53)) as [->|Hs'].
  - rewrite bool_decide_eq_true_2 by lia. replace (-53 + 0 + 53) with 0 by lia. rewrite Z.pow_0_r, Z.mul_1_r.
    apply bool_decide_ext. lia.
  - rewrite bool_decide_eq_false_2 by lia. replace (- (-53 + 0 + s)) with (53 - s) by lia.
    apply bool_decide_ext. rewrite He. nia.
Qed.

Lemma threshold_iff num (vals : list Actor) :
  Z.of_nat (length vals) < 2 ^ 50 -> 0 <= num ->
  (validateOptimisticThresholdMet num vals = Ok tt <-> 2 * Z.of_nat (length vals) < 3 * num).
Proof.
  intros Hlen Hnum. unfold validateOptimisticThresholdMet. set (n := Z.of_nat (length vals)) in *.
  enough (floatGt num (bigFloatMul ByzantineThreshold (bigNewFloat n)) = bool_decide (2 * n < 3 * num)) as ->.
  { case_bool_decide; cbn; split; (done || lia). }
  destruct (decide (n = 0)) as [->|Hn0].
  { change (bigFloatMul ByzantineThreshold (bigNewFloat 0)) with {| fmant := 0; fexp := -53; fprec := 53 |}.
    unfold floatGt. cbn [fmant fexp]. change (- -53) with 53. apply bool_decide_ext. lia. }
  destruct (threshold_error n) as (q & s & Hr & Hs & He); [lia|].
  rewrite (floatGt_product num n q s) by (done || lia). apply bool_decide_ext.
  destruct (decide (3 * num = 2 * n)) as [Heq|Hne]; [|lia].
  destruct (threshold_multiple (n / 3)) as (q' & s' & Hr' & _ & He').
  { assert (n = 3 * (n / 3)) by (Z.to_euclidean_division_equations; lia). lia. }
  replace (3 * (n / 3)) with n in Hr' by (Z.to_euclidean_division_equations; lia).
  rewrite Hr in Hr'. injection Hr' as <- <-. assert (num = 2 * (n / 3)) by (Z.to_euclidean_division_equations; lia). lia.
Qed.

(** ** Quorum certificates *)
Section certificates.
Context {W U : Type} `{CryptoPrims} `{HotstuffCodec} `{PersistenceUtilityModules W U}.
Implicit Types (m : consensusModule W U) (qc : QuorumCertificate) (vals : list Actor).

Lemma countValid_filter am msg sigs :
  countValid am msg sigs = Z.of_nat (length (filter (fun ps => validSignature am msg ps = true) sigs)).
Proof.
  unfold countValid. enough (forall acc, foldl (fun n ps => if validSignature am msg ps then n + 1 else n) acc sigs
    = acc + Z.of_nat (length (filter (fun ps => validSignature am msg ps = true) sigs))) as -> by lia.
  induction sigs as [|ps sigs IH]; intros acc; [cbn; lia|]. cbn [foldl]. rewrite IH, filter_cons.
  destruct (validSignature am msg ps); [rewrite decide_True by done|rewrite decide_False by done]; cbn; lia.
Qed.

(** The valid signatures of a certificate, and who made them. *)
Definition validSigs vals qc : list PartialSignature :=
  filter (fun ps => validSignature (NewActorMapper vals) (qcToHotstuffMessage qc) ps = true)
    (default [] (qc_ThresholdSignature qc)).
Definition signers vals qc : gset string := list_to_set (ps_Address <$> validSigs vals qc).

Lemma validate_qc_iff m qc vals :
  validatorsAt (height m) m = Ok vals -> Z.of_nat (length vals) < 2 ^ 50 ->
  (validateQuorumCertificate (Some qc) m = (Ok tt, m) <->
   is_Some (qc_Block qc) /\ default [] (qc_ThresholdSignature qc) ≠ [] /\
   2 * Z.of_nat (length vals) < 3 * Z.of_nat (length (validSigs vals qc))).
Proof.
  intros Hv Hl. unfold validateQuorumCertificate, validSigs.
  destruct (qc_Block qc) as [b|]; [|split; [done|by intros [[] _]]].
  destruct (qc_ThresholdSignature qc) as [[|ps sigs]|]; [by split; [|intros (_ & [] & _)]| |by split; [|intros (_ & [] & _)]].
  cbn [default from_option]. erewrite bind_run by done. unfold getValidatorsAtHeight, CurrentHeight.
  erewrite bind_run by (erewrite bind_run by done; unfold of_module, of_res; by rewrite Hv).
  rewrite countValid_filter. unfold of_res, id.
  rewrite <- threshold_iff by lia. split.
  - intros [= Hok]. by repeat split.
  - intros (_ & _ & Hok). by rewrite Hok.
Qed.

Lemma dom_validatorMap vals : dom (validatorMap (NewActorMapper vals)) = list_to_set (Address <$> vals).
Proof.
  assert (forall addrs i am, validatorMap (numberAddresses i addrs am) = validatorMap am) as Hn.
  { induction addrs as [|a addrs IH]; intros i am; [done|]. cbn. by rewrite IH. }
  unfold NewActorMapper. rewrite Hn. cbn. unfold ActorListToValidatorMap.
  enough (forall mp : gmap string Actor, dom (foldl (fun (mp : gmap string Actor) a => <[Address a := a]> mp) mp vals)
            = dom mp ∪ list_to_set (Address <$> vals) :> gset string) as -> by set_solver.
  induction vals as [|a vals IH]; intros mp; cbn; [set_solver|]. rewrite IH, dom_insert_L. set_solver.
Qed.

Lemma signers_subset vals qc : signers vals qc ⊆ list_to_set (Address <$> vals).
Proof.
  unfold signers, validSigs. intros a. rewrite elem_of_list_to_set. intros Ha.
  apply list_elem_of_fmap in Ha as (ps & -> & Hps). apply list_elem_of_filter in Hps as [Hv _].
  unfold validSignature in Hv. rewrite <- dom_validatorMap. apply elem_of_dom.
  destruct (validatorMap _ !! ps_Address ps); [by eexists|done].
Qed.

Lemma signers_size vals qc :
  NoDup (ps_Address <$> default [] (qc_ThresholdSignature qc)) ->
  size (signers vals qc) = length (validSigs vals qc).
Proof.
  intros Hnd. unfold signers. rewrite size_list_to_set, length_fmap; [done|].
  unfold validSigs. eapply sublist_NoDup; [exact Hnd|]. apply fmap_sublist, sublist_filter.
Qed.

Lemma validators_size vals : (size (list_to_set (Address <$> vals) : gset string) <= length vals)%nat.
Proof.
  induction vals as [|a vals IH]; cbn; [rewrite size_empty; lia|].
  rewrite size_union_alt, size_singleton.
  pose proof (subseteq_size (list_to_set (Address <$> vals) ∖ {[Address a]} : gset string) (list_to_set (Address <$> vals)) ltac:(set_solver)). lia.
Qed.

(** quorum intersection.  Two certificates that nodes with the same validators accept,
    and in which no address signs twice, have more than a third of the validators in
    common: with less than a third of them faulty, some correct validator signed both. *)
Theorem valid_certificates_intersect m1 m2 qc1 qc2 vals :
  validatorsAt (height m1) m1 = Ok vals -> validatorsAt (height m2) m2 = Ok vals ->
  Z.of_nat (length vals) < 2 ^ 50 ->
  validateQuorumCertificate (Some qc1) m1 = (Ok tt, m1) -> validateQuorumCertificate (Some qc2) m2 = (Ok tt, m2) ->
  NoDup (ps_Address <$> default [] (qc_ThresholdSignature qc1)) ->
  NoDup (ps_Address <$> default [] (qc_ThresholdSignature qc2)) ->
  Z.of_nat (length vals) < 3 * Z.of_nat (size (signers vals qc1 ∩ signers vals qc2)).
Proof.
  intros Hv1 Hv2 Hl Hq1 Hq2 Hn1 Hn2.
  apply (validate_qc_iff m1 qc1 vals) in Hq1 as (_ & _ & Hq1); [|done..].
  apply (validate_qc_iff m2 qc2 vals) in Hq2 as (_ & _ & Hq2); [|done..].
  rewrite <- (signers_size vals qc1) in Hq1 by done. rewrite <- (signers_size vals qc2) in Hq2 by done.
  pose proof (size_union_alt (signers vals qc1) (signers vals qc2)) as Hu.
  assert (signers vals qc2 = (signers vals qc2 ∖ signers vals qc1) ∪ (signers vals qc1 ∩ signers vals qc2)) as Hs.
  { apply set_eq. intros a. destruct (decide (a ∈ signers vals qc1)); set_solver. }
  apply (f_equal size) in Hs. rewrite size_union in Hs by set_solver.
  assert (size (signers vals qc1 ∪ signers vals qc2) <= length vals)%nat.
  { etrans; [|apply validators_size]. apply subseteq_size.
    pose proof (signers_subset vals qc1). pose proof (signers_subset vals qc2). set_solver. }
  lia.
Qed.

Lemma filter_replicate {A} (P : A -> Prop) `{forall x, Decision (P x)} k (x : A) : P x -> filter P (replicate k x) = replicate k x.
Proof. intros Hx. induction k as [|k IH]; [done|]. cbn [replicate]. by rewrite filter_cons_True, IH. Qed.

(** the count of valid signatures does not look at who signed: a certificate made of one
    valid partial signature repeated often enough is accepted, so a single validator can
    certify any block alone. *)
Theorem certificate_counts_repeated_signer m qc vals ps b (k : nat) :
  validatorsAt (height m) m = Ok vals -> Z.of_nat (length vals) < 2 ^ 50 ->
  qc_Block qc = Some b -> qc_ThresholdSignature qc = Some (replicate k ps) ->
  validSignature (NewActorMapper vals) (qcToHotstuffMessage qc) ps = true ->
  2 * Z.of_nat (length vals) < 3 * Z.of_nat k ->
  validateQuorumCertificate (Some qc) m = (Ok tt, m) /\ signers vals qc = {[ps_Address ps]}.
Proof.
  intros Hv Hl Hb Hs Hps Hk. assert (validSigs vals qc = replicate k ps) as Hr.
  { unfold validSigs. rewrite Hs. cbn [default]. by rewrite (filter_replicate _ k ps). }
  destruct k as [|k]; [lia|]. split.
  - apply (validate_qc_iff m qc vals); [done..|]. rewrite Hb, Hs, Hr, length_replicate. by repeat split.
  - unfold signers. rewrite Hr. clear. cbn. induction k as [|k IH]; cbn; set_solver.
Qed.

(** *** From votes to a certificate *)

(** A vote of a registered validator for the block [b] in the view [(h, st, r)]. *)
Definition isVote (h r st : Z) (b : Block) vals (v : HotstuffMessage) : Prop :=
  exists sk a, blen sk = 64 /\ CreateVoteMessage h r st (Some b) sk = Ok v /\
    validatorMap (NewActorMapper vals) !! Address_String (PrivateKey_Address sk) = Some a /\
    PublicKey a = PublicKey_String (PrivateKey_PublicKey sk).

Definition signedView (h r st : Z) (b : Block) : HotstuffMessage := {| hm_Type := 0; hm_Height := h; hm_Step := st;
  hm_Round := r; hm_Block := Some b; hm_Justification := JNone |}.

(** What the collection loop needs to know of a message. *)
Definition countsFor (h r st : Z) (v : HotstuffMessage) (ps : PartialSignature) : Prop :=
  GetPartialSignature v = Some ps /\ hm_Height v = h /\ hm_Step v = st /\ hm_Round v = r /\
  ps_Signature ps ≠ None /\ ps_Address ps ≠ "".

Lemma address_string_nonempty `{!CryptoLaws _} pk : Address_String (PublicKey_Address pk) ≠ "".
Proof.
  intros He. apply (f_equal String.length) in He. revert He. unfold Address_String. rewrite hexEncode_length.
  pose proof (address_length pk) as Hl. unfold blen, Errors.Crypto.AddressLen in Hl. cbn. lia.
Qed.

(** A vote is counted, and its signature verifies for the certificate of its view. *)
Lemma vote_counts `{!CryptoLaws _} h r st b vals v :
  isVote h r st b vals v -> is_Some (getSignableBytes (signedView h r st b)) ->
  exists ps, countsFor h r st v ps /\
    forall msg, hm_Height msg = h -> hm_Round msg = r -> hm_Step msg = st -> hm_Block msg = Some b ->
      validSignature (NewActorMapper vals) msg ps = true.
Proof.
  intros (sk & a & Hsk & Hv & Ha & Hpk) [sb Hsb]. unfold CreateVoteMessage in Hv. injection Hv as <-.
  unfold getSignableBytes in Hsb. cbn in Hsb. eexists. split.
  - split; [reflexivity|]. cbn. repeat split.
    + unfold getMessageSignature, getSignableBytes. cbn. by rewrite Hsb.
    + apply address_string_nonempty.
  - intros msg <- <- <- Hb. unfold validSignature. cbn [ps_Address ps_Signature].
    unfold PrivateKey_Address in Ha. rewrite Ha. unfold isSignatureValid. rewrite Hpk, NewPublicKey_String.
    + unfold getMessageSignature, getSignableBytes in *. cbn. rewrite Hb, Hsb. cbn.
      by apply ed25519_sign_verify.
    + unfold PrivateKey_PublicKey. by apply ed25519_public_length.
Qed.

(** The loop drains the mempool and keeps every vote that counts. *)
Lemma collect_run h st r (votes : list HotstuffMessage) (pss : list PartialSignature) :
  Forall2 (countsFor h r st) votes pss -> Forall (fun v => is_Some (marshalMsg v)) votes ->
  forall acc m p, hotstuffMempool m !! st = Some p -> HotstuffMempool.GetAll p = votes ->
  exists pools, collectPartialSignatures (length votes) h st r acc m = (Ok (acc ++ pss)%list, set_hotstuffMempool pools m).
Proof.
  induction 1 as [|v ps votes pss Hc _ IH]; intros Henc acc m p Hp Hq.
  - exists (hotstuffMempool m). cbn. rewrite app_nil_r. unfold mret, M_ret. by destruct m.
  - apply Forall_cons in Henc as [He Henc]. cbn [length collectPartialSignatures].
    assert (HotstuffMempool.IsEmpty p = false) as Hne.
    { unfold HotstuffMempool.IsEmpty, FIFOList.IsEmpty. apply bool_decide_eq_false_2.
      unfold HotstuffMempool.GetAll, FIFOList.GetAll in Hq. rewrite Hq. cbn. lia. }
    erewrite bind_run by (unfold readPool; rewrite Hp; by rewrite Hne). cbv beta iota.
    assert (Forall (fun v => HotstuffMempool.encodable marshalMsg v = true) (v :: votes)) as Henc'.
    { constructor; [|eapply Forall_impl; [exact Henc|]]; intros; unfold HotstuffMempool.encodable.
      - by destruct He as [? ->].
      - cbn in *. by destruct (marshalMsg x). }
    unfold HotstuffMempool.GetAll, FIFOList.GetAll in Hq.
    pose proof (HotstuffMempool.Pop_run marshalMsg p ltac:(by rewrite Hq)) as Hpop. rewrite Hq in Hpop.
    erewrite bind_run by (unfold onPool; rewrite Hp, Hpop; reflexivity). cbn [of_option].
    erewrite bind_run by done. destruct Hc as (-> & Hh & Hs & Hr & Hsig & Haddr).
    rewrite !bool_decide_eq_true_2 by done. cbn [negb andb].
    destruct (ps_Signature ps) as [sg|] eqn:Esig; [|done].
    rewrite bool_decide_eq_false_2 by done.
    match type of Hpop with _ = (_, ?P) =>
      destruct (IH Henc (acc ++ [ps])%list (set_hotstuffMempool (<[st := P]> (hotstuffMempool m)) m) P) as [pools Hrun]
    end; [cbn; by rewrite lookup_insert_eq | done |].
    exists pools. etrans; [exact Hrun|]. by rewrite <- app_assoc.
Qed.

(** C4: votes become a certificate that every node accepts.  If the mempool of the step holds
    the votes of registered validators for the leader's block in the current view, more
    than two thirds of the validators in number, [getQuorumCertificate] returns the
    certificate of that view and block with their signatures, and [validateQuorumCertificate]
    accepts it on every node that has the same validators. *)
Theorem votes_make_valid_certificate `{!CryptoLaws _} m p h r st b vals :
  validatorsAt h m = Ok vals -> Z.of_nat (length vals) < 2 ^ 50 -> block m = Some b ->
  hotstuffMempool m !! st = Some p ->
  Forall (isVote h r st b vals) (HotstuffMempool.GetAll p) ->
  Forall (fun v => is_Some (marshalMsg v)) (HotstuffMempool.GetAll p) ->
  is_Some (getSignableBytes (signedView h r st b)) ->
  2 * Z.of_nat (length vals) < 3 * Z.of_nat (length (HotstuffMempool.GetAll p)) ->
  exists qc m', getQuorumCertificate h st r m = (Ok qc, m') /\
    qc_Height qc = h /\ qc_Round qc = r /\ qc_Step qc = st /\ qc_Block qc = Some b /\
    forall m2, validatorsAt (height m2) m2 = Ok vals -> validateQuorumCertificate (Some qc) m2 = (Ok tt, m2).
Proof.
  intros Hv Hl Hb Hp Hvotes Henc Hsb Hq.
  assert (exists pss, Forall2 (countsFor h r st) (HotstuffMempool.GetAll p) pss /\
    Forall (fun ps => forall msg, hm_Height msg = h -> hm_Round msg = r -> hm_Step msg = st -> hm_Block msg = Some b ->
      validSignature (NewActorMapper vals) msg ps = true) pss) as (pss & Hpss & Hvalid).
  { clear Hq Henc Hp. induction Hvotes as [|v votes Hv1 _ IH]; [by exists []|].
    destruct IH as (pss & H1' & H2'). destruct (vote_counts _ _ _ _ _ _ Hv1 Hsb) as (ps & Hc & Hok).
    exists (ps :: pss). split; by constructor. }
  destruct (collect_run h st r _ pss Hpss Henc [] m p Hp eq_refl) as [pools Hrun]. cbn [app] in Hrun.
  assert (length pss = length (HotstuffMempool.GetAll p)) as Hlen by (symmetry; by eapply Forall2_length).
  assert (validSigs vals {| qc_Height := h; qc_Round := r; qc_Step := st; qc_Block := Some b;
            qc_ThresholdSignature := Some pss |} = pss) as Hsigs.
  { unfold validSigs. cbn [qc_ThresholdSignature default from_option id]. apply filter_all.
    eapply Forall_impl; [exact Hvalid|]. intros ps Hok. by apply Hok. }
  exists {| qc_Height := h; qc_Round := r; qc_Step := st; qc_Block := Some b; qc_ThresholdSignature := Some pss |},
    (set_hotstuffMempool pools m).
  split; [|repeat split; try done].
  - unfold getQuorumCertificate. erewrite bind_run by (unfold readPool; by rewrite Hp).
    erewrite bind_run by exact Hrun. unfold getValidatorsAtHeight.
    erewrite bind_run by (erewrite bind_run by done; unfold of_module, of_res, validatorsAt in *; cbn; by rewrite Hv).
    erewrite bind_run.
    2: { unfold of_res. by rewrite (proj2 (threshold_iff (Z.of_nat (length pss)) vals Hl ltac:(lia)) ltac:(lia)). }
    erewrite bind_run by done. unfold mret, M_ret. cbn [block set_hotstuffMempool]. by rewrite Hb.
  - intros m2 Hv2. apply (validate_qc_iff m2 _ vals Hv2 Hl). split; [by eexists|]. rewrite Hsigs. cbn.
    split; [|lia]. unfold id. intros ->. cbn in Hlen. lia.
Qed.
End certificates.

(** ** Witnesses: four validators *)
Section witnesses.
#[local] Existing Instances ToyCrypto.prims ToyCrypto.laws NodeToy.hcodec NodeToy.pum.
Import NodeToy.

Definition demoBlock : Block := blockWith "state".

Lemma valid_certificates_intersect_witness :
  4 < 3 * Z.of_nat (size (signers validators (qcBy Prepare demoBlock [1; 2; 3]%nat)
                          ∩ signers validators (qcBy PreCommit demoBlock [2; 3; 4]%nat))).
Proof.
  apply (valid_certificates_intersect (start 1) (start 2) (qcBy Prepare demoBlock [1; 2; 3]%nat)
           (qcBy PreCommit demoBlock [2; 3; 4]%nat) validators);
    try (vm_compute; reflexivity); apply (bool_decide_unpack _); vm_compute; exact I.
Defined.

Lemma certificate_counts_repeated_signer_witness :
  validateQuorumCertificate (Some (qcBy Prepare demoBlock [1; 1; 1]%nat)) (start 2) = (Ok tt, start 2) /\
  signers validators (qcBy Prepare demoBlock [1; 1; 1]%nat) = {[hexEncode (addr 1)]}.
Proof.
  apply (certificate_counts_repeated_signer (start 2) (qcBy Prepare demoBlock [1; 1; 1]%nat) validators
           (sigOf Prepare demoBlock 1) demoBlock 3); vm_compute; reflexivity.
Defined.

(** The leader with three votes in its mempool. *)
Definition votesPool : Pool :=
  HotstuffMempool.impl_run marshalMsg (HotstuffMempool.MPush <$> (voteMsg Prepare demoBlock <$> [1; 2; 3]%nat))
    (HotstuffMempool.NewHotstuffFIFOMempool 10000).
Definition leaderState : consensusModule Node.Modules Node.Uow :=
  set_hotstuffMempool (<[Prepare := votesPool]> (hotstuffMempool (start 1))) (set_block (Some demoBlock) (start 1)).

Lemma votes_make_valid_certificate_witness :
  exists qc m', getQuorumCertificate 1 Prepare 0 leaderState = (Ok qc, m') /\ qc_Block qc = Some demoBlock /\
    validateQuorumCertificate (Some qc) (start 4) = (Ok tt, start 4).
Proof.
  assert (HotstuffMempool.GetAll votesPool = voteMsg Prepare demoBlock <$> [1; 2; 3]%nat) as Hq by (vm_compute; reflexivity).
  destruct (votes_make_valid_certificate leaderState votesPool 1 0 Prepare demoBlock validators)
    as (qc & m' & Hqc & _ & _ & _ & Hb & Hok).
  - vm_compute; reflexivity.
  - vm_compute; reflexivity.
  - reflexivity.
  - reflexivity.
  - rewrite Hq. constructor; [exists (key 1)|constructor; [exists (key 2)|constructor; [exists (key 3)|constructor]]];
      (eexists; split; [reflexivity|split; [reflexivity|split; vm_compute; reflexivity]]).
  - rewrite Hq. repeat (constructor; [by eexists|]). constructor.
  - by eexists.
  - rewrite Hq. vm_compute; reflexivity.
  - exists qc, m'. split; [exact Hqc|]. split; [exact Hb|]. apply Hok. vm_compute. reflexivity.
Defined.
End witnesses.
End ConsQuorum.
