(* ===== verification/ConsView.v ===== *)
(** Views: the numbering of validators, the rotation of leaders and the pacemaker's decision
    which messages to handle. *)

From stdpp Require Import sorting.
From S2P Require Import Prelude GoStd GoSort Errors Crypto CoreTypes Messages Sql Persistence FifoList HotstuffMempool ConsTypes Consensus ConsFrame Node.
#[local] Open Scope string_scope.
#[local] Open Scope Z_scope.

Module ConsView.
Import Consensus ConsFrame.

(** ** The numbering of validators *)
Lemma numberAddresses_lookup addrs : forall i am,
  0 <= i -> i + Z.of_nat (length addrs) < 2 ^ 64 -> NoDup addrs ->
  (forall id, idToValAddrMap (numberAddresses i addrs am) !! id =
     if decide (i < id <= i + Z.of_nat (length addrs)) then addrs !! Z.to_nat (id - i - 1) else idToValAddrMap am !! id) /\
  (forall a k, addrs !! k = Some a -> valAddrToIdMap (numberAddresses i addrs am) !! a = Some (i + Z.of_nat k + 1)) /\
  (forall a, a ∉ addrs -> valAddrToIdMap (numberAddresses i addrs am) !! a = valAddrToIdMap am !! a).
Proof.
  induction addrs as [|x addrs IH]; intros i am Hi Hl Hnd.
  - cbn. split; [|split]; [|done|done]. intros id. rewrite decide_False by lia. done.
  - apply NoDup_cons in Hnd as [Hx Hnd]. cbn [numberAddresses]. cbn [length] in *.
    edestruct (IH (i + 1)) as (H1 & H2 & H3); [lia|lia|done|]. rewrite u64_small in * by (unfold in_u64; lia).
    split; [|split].
    + intros id. rewrite H1. cbn. destruct (decide (i + 1 < id <= _)) as [Hr|Hr].
      * rewrite decide_True by lia. replace (Z.to_nat (id - i - 1)) with (S (Z.to_nat (id - (i + 1) - 1))) by lia. done.
      * destruct (decide (id = i + 1)) as [->|Hne].
        -- rewrite lookup_insert_eq, decide_True by lia. by replace (Z.to_nat (i + 1 - i - 1)) with 0%nat by lia.
        -- rewrite lookup_insert_ne by lia. by rewrite decide_False by lia.
    + intros a [|k] Hk; cbn in Hk.
      * injection Hk as ->. rewrite H3 by done. cbn. rewrite lookup_insert_eq. f_equal. lia.
      * rewrite (H2 a k Hk). f_equal. lia.
    + intros a Ha. apply not_elem_of_cons in Ha as [Hne Ha]. rewrite H3 by done. cbn. by rewrite lookup_insert_ne.
Qed.

(** The maps of [NewActorMapper], for distinct addresses. *)
Lemma actorMapper_lookup (vals : list Actor) :
  NoDup (Address <$> vals) -> Z.of_nat (length vals) < 2 ^ 64 ->
  let sorted := sortStrings (Address <$> vals) in
  let am := NewActorMapper vals in
  (forall id, idToValAddrMap am !! id =
     if decide (0 < id <= Z.of_nat (length vals)) then sorted !! Z.to_nat (id - 1) else None) /\
  (forall a id, valAddrToIdMap am !! a = Some id <-> idToValAddrMap am !! id = Some a).
Proof.
  intros Hnd Hl sorted am. pose proof (merge_sort_Permutation strLe (Address <$> vals)) as Hp.
  assert (NoDup sorted) as Hnd' by (unfold sorted, sortStrings; by rewrite Hp).
  assert (length sorted = length vals) as Hlen by (unfold sorted, sortStrings; by rewrite Hp, length_fmap).
  destruct (numberAddresses_lookup sorted 0
    {| valAddrToIdMap := ∅; idToValAddrMap := ∅; validatorMap := ActorListToValidatorMap vals |})
    as (H1 & H2 & H3); [lia|rewrite Hlen; lia|done|].
  rewrite Hlen in H1. change (numberAddresses 0 sorted _) with am in H1, H2, H3. cbn in H1, H3.
  assert (forall id, idToValAddrMap am !! id =
     if decide (0 < id <= Z.of_nat (length vals)) then sorted !! Z.to_nat (id - 1) else None) as H1'.
  { intros id. rewrite H1. destruct (decide _); [f_equal; lia|done]. }
  split; [done|]. intros a id. rewrite H1'. split.
  - intros Ha. destruct (decide (a ∈ sorted)) as [Hin|Hout].
    + apply list_elem_of_lookup in Hin as [k Hk]. rewrite (H2 a k Hk) in Ha. injection Ha as <-.
      pose proof (lookup_lt_Some _ _ _ Hk). rewrite decide_True by lia. rewrite <- Hk. f_equal. lia.
    + rewrite H3 in Ha by done. done.
  - destruct (decide _) as [Hr|]; [|done]. intros Hk. rewrite (H2 _ _ Hk). f_equal. lia.
Qed.

Lemma node_id_range (vals : list Actor) id :
  NoDup (Address <$> vals) -> Z.of_nat (length vals) < 2 ^ 64 ->
  (is_Some (idToValAddrMap (NewActorMapper vals) !! id) <-> 1 <= id <= Z.of_nat (length vals)).
Proof.
  intros Hnd Hl. rewrite (proj1 (actorMapper_lookup vals Hnd Hl)). destruct (decide _) as [Hr|Hr].
  - split; [lia|]. intros _. apply lookup_lt_is_Some. unfold sortStrings. rewrite merge_sort_Permutation, length_fmap. lia.
  - split; [by intros []|lia].
Qed.

(** The maps depend on the sorted addresses only. *)
Lemma numberAddresses_ext l : forall i am1 am2,
  idToValAddrMap am1 = idToValAddrMap am2 -> valAddrToIdMap am1 = valAddrToIdMap am2 ->
  idToValAddrMap (numberAddresses i l am1) = idToValAddrMap (numberAddresses i l am2) /\
  valAddrToIdMap (numberAddresses i l am1) = valAddrToIdMap (numberAddresses i l am2).
Proof. induction l as [|a l IH]; intros i am1 am2 E1 E2; [done|]. cbn. apply IH; cbn; by rewrite ?E1, ?E2. Qed.

(** node ids.  For validators with distinct addresses the ids are exactly 1 to the number
    of validators, in the order of the addresses; the two maps are inverse to each other; and
    the numbering does not depend on the order in which the database returns the validators,
    so every node computes the same one. *)
Theorem node_ids_agree (vals : list Actor) :
  NoDup (Address <$> vals) -> Z.of_nat (length vals) < 2 ^ 64 ->
  let am := NewActorMapper vals in
  (forall id, is_Some (idToValAddrMap am !! id) <-> 1 <= id <= Z.of_nat (length vals)) /\
  (forall a id, valAddrToIdMap am !! a = Some id <-> idToValAddrMap am !! id = Some a) /\
  (forall a1 a2 id1 id2, valAddrToIdMap am !! a1 = Some id1 -> valAddrToIdMap am !! a2 = Some id2 ->
     id1 < id2 -> strLe a1 a2) /\
  (forall vals', vals ≡ₚ vals' -> idToValAddrMap (NewActorMapper vals') = idToValAddrMap am /\
     valAddrToIdMap (NewActorMapper vals') = valAddrToIdMap am).
Proof.
  intros Hnd Hl am. destruct (actorMapper_lookup vals Hnd Hl) as [H1 Hinv]. fold am in H1, Hinv.
  split; [intros id; by apply node_id_range|split; [done|split]].
  - intros a1 a2 id1 id2 Ha1 Ha2 Hle. apply Hinv in Ha1, Ha2. rewrite H1 in Ha1, Ha2.
    destruct (decide _) as [Hr1|]; [|done]. destruct (decide _) as [Hr2|]; [|done].
    eapply sorted_lookup; [apply (StronglySorted_merge_sort strLe)| |exact Ha1|exact Ha2]. lia.
  - intros vals' Hperm. unfold am, NewActorMapper.
    rewrite (sortStrings_perm (Address <$> vals') (Address <$> vals)) by (by rewrite Hperm).
    by apply numberAddresses_ext.
Qed.

Lemma node_ids_agree_witness :
  let am := NewActorMapper NodeToy.validators in
  idToValAddrMap (NewActorMapper (reverse NodeToy.validators)) = idToValAddrMap am /\
  (is_Some (idToValAddrMap am !! 4) <-> 1 <= 4 <= 4).
Proof.
  destruct (node_ids_agree NodeToy.validators) as (H1 & _ & _ & H4).
  - apply (bool_decide_unpack _). vm_compute. exact I.
  - vm_compute. reflexivity.
  - split; [apply H4; by rewrite reverse_Permutation|].
    change 4 with (Z.of_nat (length NodeToy.validators)) at 3. apply H1.
Defined.

(** ** Leaders *)
Definition viewMsg (h r st : Z) : HotstuffMessage := {| hm_Type := 0; hm_Height := h; hm_Step := st; hm_Round := r;
  hm_Block := None; hm_Justification := JNone |}.

Lemma elect_value msg n :
  0 <= hm_Height msg < 2 ^ 61 -> 0 <= hm_Round msg < 2 ^ 61 -> 1 <= hm_Step msg < 2 ^ 31 -> 0 < n < 2 ^ 61 ->
  electNextLeaderDeterministicRoundRobin msg n = Ok ((hm_Height msg + hm_Round msg + hm_Step msg - 1) mod n + 1).
Proof.
  intros Hh Hr Hs Hn. unfold electNextLeaderDeterministicRoundRobin.
  rewrite (i64_small (hm_Height msg)), (i64_small (hm_Round msg)), (i64_small (hm_Step msg)), i64_small by (unfold in_i64; lia).
  rewrite bool_decide_eq_false_2 by lia. rewrite Z.rem_mod_nonneg by lia.
  pose proof (Z.mod_pos_bound (hm_Height msg + hm_Round msg + hm_Step msg - 1) n). rewrite u64_small; [done|unfold in_u64; lia].
Qed.

(** C35: leaders rotate.  At a height, the leaders elected for any [n] consecutive rounds (on
    messages of the same step) are the [n] validators, each exactly once. *)
Theorem leader_rotation (h r st n : Z) :
  0 <= h < 2 ^ 61 -> 0 <= r -> 0 < n -> r + n < 2 ^ 61 -> 1 <= st <= 5 ->
  (forall k, 0 <= k < n -> exists id, electNextLeaderDeterministicRoundRobin (viewMsg h (r + k) st) n = Ok id /\ 1 <= id <= n) /\
  (forall id, 1 <= id <= n -> exists k, 0 <= k < n /\ electNextLeaderDeterministicRoundRobin (viewMsg h (r + k) st) n = Ok id /\
     forall k', 0 <= k' < n -> electNextLeaderDeterministicRoundRobin (viewMsg h (r + k') st) n = Ok id -> k' = k).
Proof.
  intros Hh Hr Hn Hrn Hst.
  assert (forall k, 0 <= k < n -> electNextLeaderDeterministicRoundRobin (viewMsg h (r + k) st) n
            = Ok ((h + r + st - 1 + k) mod n + 1)) as He.
  { intros k Hk. rewrite elect_value; cbn; [|lia..]. do 3 f_equal. lia. }
  set (v := h + r + st - 1) in *. split.
  - intros k Hk. eexists. split; [by apply He|]. pose proof (Z.mod_pos_bound (v + k) n). lia.
  - intros id Hid. exists ((id - 1 - v) mod n). pose proof (Z.mod_pos_bound (id - 1 - v) n ltac:(lia)) as Hb.
    split; [done|]. split.
    + rewrite He by done. f_equal. rewrite Zplus_mod_idemp_r. replace (v + (id - 1 - v)) with (id - 1) by lia.
      rewrite Z.mod_small; lia.
    + intros k' Hk' Heq. rewrite He in Heq by done. injection Heq as Heq.
      rewrite <- (Z.mod_small k' n) by done. replace k' with ((v + k') - v) by lia.
      rewrite <- Zminus_mod_idemp_l. replace ((v + k') mod n) with (id - 1) by lia. done.
Qed.

Lemma leader_rotation_witness :
  exists k, 0 <= k < 4 /\ electNextLeaderDeterministicRoundRobin (viewMsg 7 (2 + k) NewRound) 4 = Ok 3.
Proof.
  destruct (leader_rotation 7 2 NewRound 4) as [_ H2]; [unfold NewRound; lia..|].
  destruct (H2 3 ltac:(lia)) as (k & Hk & Hk2 & _). by exists k.
Defined.

(** ** The pacemaker *)
Section pacemaker.
Context {W U : Type} `{CryptoPrims} `{HotstuffCodec} `{PersistenceUtilityModules W U}.
Context (cfg : Config).
Implicit Types (m : consensusModule W U) (msg : HotstuffMessage).

Lemma getValidators_run h m vals : validatorsAt h m = Ok vals -> getValidatorsAtHeight h m = (Ok vals, m).
Proof. intros Hv. unfold getValidatorsAtHeight. erewrite bind_run by done. unfold of_module, of_res. by rewrite Hv. Qed.

(** Electing a leader for a message of the current height. *)
Lemma electNextLeader_run msg m vals :
  validatorsAt (height m) m = Ok vals -> NoDup (Address <$> vals) -> 0 < Z.of_nat (length vals) < 2 ^ 61 ->
  hm_Height msg = height m -> 0 <= height m < 2 ^ 61 -> 0 <= hm_Round msg < 2 ^ 61 -> 1 <= hm_Step msg < 2 ^ 31 ->
  electNextLeader msg m =
    (Ok tt, set_leaderId (Some ((height m + hm_Round msg + hm_Step msg - 1) mod Z.of_nat (length vals) + 1)) m).
Proof.
  intros Hv Hnd Hl Hh Hhb Hr Hs. unfold electNextLeader. erewrite bind_run by done.
  set (m1 := set_leaderId None m). set (n := Z.of_nat (length vals)) in *.
  assert (validatorsAt (height m1) m1 = Ok vals) as Hv1 by exact Hv.
  unfold ElectNextLeader. erewrite bind_run.
  2: { erewrite bind_run by done. unfold of_module, of_res. rewrite Hh. change (height m) with (height m1). rewrite Hv1.
       erewrite bind_run by done. rewrite elect_value by (rewrite ?Hh; lia). reflexivity. }
  fold n. rewrite Hh. pose proof (Z.mod_pos_bound (height m + hm_Round msg + hm_Step msg - 1) n ltac:(lia)) as Hb.
  rewrite bool_decide_eq_false_2 by lia. erewrite bind_run by done.
  erewrite bind_run by (by apply getValidators_run).
  destruct (proj2 (node_id_range vals ((height m + hm_Round msg + hm_Step msg - 1) mod n + 1) Hnd ltac:(lia)) ltac:(lia))
    as [a ->]. done.
Qed.

(** Order on the views of a height. *)
Definition viewLe m m' : Prop := round m < round m' \/ (round m = round m' /\ step m <= step m').


Definition viewOf m : Z * Z * Z := (height m, round m, step m).
#[local] Instance viewOf_local : Local viewOf.
Proof. by constructor. Qed.

Lemma keeps_view_electNextLeader msg : keeps viewOf (electNextLeader msg).
Proof. unfold electNextLeader, ElectNextLeader. solve_local. Qed.
#[local] Hint Resolve keeps_view_electNextLeader : keeps.
Lemma keeps_view_NewLeader b : keeps viewOf (NewLeader b).
Proof. unfold NewLeader. solve_local. Qed.

#[local] Hint Resolve keeps_view_NewLeader : keeps.

Lemma keeps_then_true (p : M (consensusModule W U) ConsErr unit) m r m' :
  keeps viewOf p -> (p ;; mret true) m = (r, m') -> viewOf m' = viewOf m /\ r ≠ Ok false.
Proof.
  intros Hk Hrun. specialize (Hk m). unfold mbind, M_bind in Hrun.
  destruct (p m) as [[[]|e|] m2]; injection Hrun as <- <-; by split.
Qed.

(** the pacemaker never goes back.  Deciding on a message never changes the height and
    never lowers the view (round, step); a message that is to be handled has the node's
    height and the node is then in the message's round and step; a message that is not to
    be handled leaves the view as it was. *)
Theorem pacemaker_view_monotone msg m m' (r : res ConsErr bool) :
  ShouldHandleMessage cfg msg m = (r, m') -> 0 <= hm_Step msg < 256 -> 0 <= step m < 256 ->
  height m' = height m /\ viewLe m m' /\
  (r = Ok true -> hm_Height msg = height m /\ round m' = hm_Round msg /\ step m' = hm_Step msg) /\
  (r = Ok false -> round m' = round m /\ step m' = step m /\ leaderId m' = leaderId m).
Proof.
  intros Hrun Hs Hsm. unfold ShouldHandleMessage, CurrentHeight, CurrentRound, CurrentStep in Hrun.
  rewrite bind_get, (u64_small (step m)) in Hrun by (unfold in_u64; lia).
  assert (u8 (hm_Step msg) = hm_Step msg) as Hu8 by (apply Z.mod_small; lia).
  case_bool_decide as Hpast; [injection Hrun as <- <-; unfold viewLe; repeat split; (done || lia)|].
  case_bool_decide as Hfuture.
  { unfold onWorld, mbind, M_bind in Hrun. destruct (SendEvent _ (world m)) as [[?|?|] w'];
      injection Hrun as <- <-; unfold viewLe; cbn; repeat split; (done || lia). }
  destruct (IsLeader cfg m && _ && _); [injection Hrun as <- <-; unfold viewLe; repeat split; (done || lia)|].
  destruct (_ || _) eqn:Hold; [injection Hrun as <- <-; unfold viewLe; repeat split; (done || lia)|].
  destruct (_ && _ && _) eqn:Hsame.
  { injection Hrun as <- <-. apply andb_prop in Hsame as [Hsame Hr3]. apply andb_prop in Hsame as [Hr1 Hr2].
    apply bool_decide_eq_true in Hr1, Hr2, Hr3. unfold viewLe. repeat split; (done || lia). }
  destruct (_ || _) eqn:Hnew in Hrun.
  - unfold SetStep, SetRound in Hrun. rewrite !bind_modify, bind_get in Hrun.
    apply keeps_then_true in Hrun as [Hv Hr]; [|solve_local]. unfold viewOf in Hv. cbn in Hv. injection Hv as Hh' Hr' Hs'.
    rewrite Hu8 in Hs'. unfold viewLe. rewrite Hh', Hr', Hs'.
    apply orb_prop in Hnew as [Hnew|Hnew]; [apply bool_decide_eq_true in Hnew|
      apply andb_prop in Hnew as [Hn1 Hn2]; apply bool_decide_eq_true in Hn1, Hn2];
      repeat split; (done || lia).
  - injection Hrun as <- <-. unfold viewLe. repeat split; (done || lia).
Qed.

(** A message of the node's height that is ahead of its view, which the leader did not
    propose to itself, takes the catch-up branch. *)
Lemma catch_up_run msg m :
  hm_Height msg = height m -> IsLeader cfg m = false \/ hm_Type msg ≠ Propose -> 0 <= step m < 2 ^ 64 ->
  round m < hm_Round msg \/ (hm_Round msg = round m /\ step m < hm_Step msg) ->
  let m1 := set_round (hm_Round msg) (set_step (u8 (hm_Step msg)) m) in
  ShouldHandleMessage cfg msg m =
    ((if bool_decide (round m ≠ hm_Round msg) || negb (IsLeaderSet m1) then
        anyProto ← of_option (ErrText "proto: marshal") (marshalMsg msg); NewLeader anyProto
      else mret tt) ;; mret true) m1.
Proof.
  intros Hh Hself Hst Hahead m1. unfold ShouldHandleMessage, CurrentHeight, CurrentRound, CurrentStep.
  rewrite bind_get, (u64_small (step m)) by (unfold in_u64; lia).
  rewrite (bool_decide_eq_false_2 (hm_Height msg < height m)), (bool_decide_eq_false_2 (height m < hm_Height msg)) by lia.
  replace (IsLeader cfg m && bool_decide (hm_Type msg = Propose) && bool_decide (hm_Step msg ≠ NewRound)) with false.
  2: { destruct Hself as [->|Hne]; [done|]. by rewrite (bool_decide_eq_false_2 (hm_Type msg = Propose)), andb_false_r. }
  replace (bool_decide (hm_Round msg < round m) || bool_decide (hm_Round msg = round m) && bool_decide (hm_Step msg < step m)) with false.
  2: { symmetry. apply orb_false_iff. split; [apply bool_decide_eq_false_2; lia|].
       apply andb_false_iff. destruct Hahead; [left|right]; apply bool_decide_eq_false_2; lia. }
  replace (bool_decide (hm_Height msg = height m) && bool_decide (hm_Step msg = step m) && bool_decide (hm_Round msg = round m)) with false.
  2: { symmetry. apply andb_false_iff. destruct Hahead; [right; apply bool_decide_eq_false_2; lia|].
       left. apply andb_false_iff. right. apply bool_decide_eq_false_2. lia. }
  replace (bool_decide (round m < hm_Round msg) || bool_decide (hm_Round msg = round m) && bool_decide (step m < hm_Step msg)) with true.
  2: { symmetry. apply orb_true_iff. destruct Hahead as [?|[? ?]]; [left; by apply bool_decide_eq_true_2|].
       right. by rewrite !bool_decide_eq_true_2. }
  done.
Qed.

(** a node that catches up elects another leader.  When a PREPARE proposal of a later
    round makes a node jump to that round, the leader it elects is the one for the step
    PREPARE, which is never the leader the other nodes elected when the round started with
    NEWROUND: the election depends on the step of the message at hand. *)
Theorem catch_up_elects_other_leader `{!HotstuffCodecLaws _} msg m vals b :
  validatorsAt (height m) m = Ok vals -> NoDup (Address <$> vals) -> 2 <= Z.of_nat (length vals) < 2 ^ 61 ->
  0 <= height m < 2 ^ 61 -> 0 <= step m < 2 ^ 64 -> 0 <= round m < hm_Round msg -> hm_Round msg < 2 ^ 61 ->
  hm_Height msg = height m -> hm_Step msg = Prepare -> IsLeader cfg m = false -> marshalMsg msg = Some b ->
  exists m' l l', ShouldHandleMessage cfg msg m = (Ok true, m') /\ leaderId m' = Some l /\
    GetLeaderForView (height m) (hm_Round msg) NewRound m = (Ok l', m) /\ l ≠ l'.
Proof.
  intros Hv Hnd Hn Hh Hst Hr Hrb Hmh Hms Hlead Hb. set (n := Z.of_nat (length vals)) in *.
  rewrite (catch_up_run msg m) by (try done; lia || (by left)). cbn zeta.
  rewrite (bool_decide_eq_true_2 (round m ≠ hm_Round msg)) by lia. cbn [orb]. rewrite Hb. cbn [of_option].
  destruct (codec_msg_view msg b Hb) as (msg' & Hu & _ & Eh & Es & Er).
  set (m1 := set_round _ _).
  assert (electNextLeader msg' m1 = (Ok tt, set_leaderId (Some ((height m1 + hm_Round msg' + hm_Step msg' - 1) mod n + 1)) m1)) as He.
  { apply electNextLeader_run; rewrite ?Eh, ?Er, ?Es, ?Hms, ?Hmh; unfold Prepare; cbn; (done || lia). }
  unfold NewLeader. erewrite bind_run by (erewrite bind_run by done; rewrite Hu; erewrite bind_run by done; exact He).
  exists (set_leaderId (Some ((height m1 + hm_Round msg' + hm_Step msg' - 1) mod n + 1)) m1),
    ((height m1 + hm_Round msg' + hm_Step msg' - 1) mod n + 1), ((height m + hm_Round msg + NewRound - 1) mod n + 1).
  split; [done|]. split; [done|]. split.
  - unfold GetLeaderForView, ElectNextLeader. rewrite bind_get. cbn [hm_Height].
    erewrite bind_run by (unfold of_module, of_res; by rewrite Hv). unfold of_res.
    rewrite (elect_value (viewMsg (height m) (hm_Round msg) NewRound)) by (unfold NewRound; cbn; fold n; lia). done.
  - rewrite Er, Es, Hms. change (height m1) with (height m). unfold Prepare, NewRound.
    set (x := height m + hm_Round msg). replace (x + 2 - 1) with (x + 1) by lia. replace (x + 1 - 1) with x by lia.
    intros Heq. assert ((x + 1) mod n = x mod n) as Hm by lia. clear Heq.
    assert ((x + 1 - x) mod n = 0) as Hone by (rewrite Zminus_mod, Hm, Z.sub_diag; done).
    replace (x + 1 - x) with 1 in Hone by lia. rewrite Z.mod_small in Hone; lia.
Qed.
End pacemaker.

(** ** A message that ends the process *)
Section crash.
Context {W U : Type} `{CryptoPrims} `{HotstuffCodec} `{PersistenceUtilityModules W U} `{UtilityUnitOfWork W U}.
Context (cfg : Config).

(** a message with an unknown step ends the process.  If the node knows the leader of
    its round, any message of its height and round with a step above DECIDE (nobody has to
    sign it) passes the pacemaker and is handed to a handler that does not exist. *)
Theorem unknown_step_crashes_node (msg : HotstuffMessage) (m : consensusModule W U) :
  hm_Height msg = height m -> hm_Round msg = round m -> 0 <= step m <= Decide -> Decide < hm_Step msg ->
  IsLeaderSet m = true -> IsLeader cfg m = false \/ hm_Type msg ≠ Propose ->
  (handleHotstuffMessage cfg msg m).1 = Panic.
Proof.
  unfold Decide. intros Hh Hr Hst Hs Hset Hself. unfold handleHotstuffMessage.
  set (m1 := set_round (hm_Round msg) (set_step (u8 (hm_Step msg)) m)).
  assert (ShouldHandleMessage cfg msg m = (Ok true, m1)) as He.
  { rewrite catch_up_run by (try done; lia). cbn zeta.
    rewrite (bool_decide_eq_false_2 (round m ≠ hm_Round msg)) by (intros Hn; by apply Hn).
    change (IsLeaderSet (set_round _ _)) with (IsLeaderSet m). by rewrite Hset. }
  erewrite bind_run by exact He. cbn [negb]. rewrite bind_get.
  assert (shouldElectNextLeader m1 = false) as ->.
  { unfold shouldElectNextLeader. change (IsLeaderSet m1) with (IsLeaderSet m). by rewrite Hset, andb_false_r. }
  erewrite bind_run by done. rewrite bind_get. unfold leaderHandlers, replicaHandlers, NewRound, Prepare, PreCommit, Commit_, Decide.
  destruct (IsLeader cfg m1); rewrite !bool_decide_eq_false_2 by lia; done.
Qed.
End crash.

(** ** Witnesses *)
Section witnesses.
#[local] Existing Instances ToyCrypto.prims NodeToy.hcodec NodeToy.hcodec_laws NodeToy.pum NodeToy.uowOps.
Import NodeToy.

Lemma pacemaker_view_monotone_witness :
  exists r m', ShouldHandleMessage (cfg 2) (viewMsg 1 3 Prepare) (start 2) = (r, m') /\ viewLe (start 2) m' /\
    (r = Ok true -> round m' = 3 /\ step m' = Prepare).
Proof.
  destruct (ShouldHandleMessage (cfg 2) (viewMsg 1 3 Prepare) (start 2)) as [r m'] eqn:He.
  destruct (pacemaker_view_monotone (cfg 2) (viewMsg 1 3 Prepare) (start 2) m' r He) as (_ & Hle & Hok & _).
  - unfold viewMsg, Prepare. cbn. lia.
  - cbn. unfold NewRound. lia.
  - exists r, m'. split; [reflexivity|]. split; [exact Hle|]. intros Hr. destruct (Hok Hr) as (_ & H1 & H2).
    split; [exact H1|exact H2].
Defined.

Lemma catch_up_elects_other_leader_witness :
  exists m' l l', ShouldHandleMessage (cfg 2) (viewMsg 1 3 Prepare) (start 2) = (Ok true, m') /\ leaderId m' = Some l /\
    GetLeaderForView 1 3 NewRound (start 2) = (Ok l', start 2) /\ l ≠ l'.
Proof.
  apply (catch_up_elects_other_leader (cfg 2) (viewMsg 1 3 Prepare) (start 2) validators
    (default "" (marshalView (viewMsg 1 3 Prepare)))); try (vm_compute; reflexivity).
  - apply (bool_decide_unpack _). vm_compute. exact I.
  - vm_compute. split; congruence.
  - vm_compute. split; congruence.
  - vm_compute. split; congruence.
  - vm_compute. split; congruence.
Defined.

Lemma unknown_step_crashes_node_witness :
  (handleHotstuffMessage (cfg 2) (viewMsg 1 0 6) (set_leaderId (Some 1) (start 2))).1 = Panic.
Proof.
  apply unknown_step_crashes_node; try (vm_compute; reflexivity).
  - vm_compute. split; congruence.
  - left. vm_compute. reflexivity.
Defined.
End witnesses.
End ConsView.
