(* ===== verification/ConsSafety.v ===== *)
(** Safety of the HotStuff handlers: views never go back, the height only advances with a
    quorum, what locks a replica and what a replica commits. *)

From S2P Require Import Prelude GoStd Errors Crypto CoreTypes Messages Sql Persistence FifoList HotstuffMempool ConsTypes Consensus ConsFrame ConsQuorum Node.
#[local] Open Scope string_scope.
#[local] Open Scope Z_scope.

Module ConsSafety.
Import Consensus ConsFrame ConsQuorum.

Section safety.
Context {W U : Type} `{CryptoPrims} `{HotstuffCodec} `{PersistenceUtilityModules W U} `{UtilityUnitOfWork W U}.
Context (cfg : Config).
Implicit Types (m : consensusModule W U) (msg : HotstuffMessage).
Abbreviation CM := (M (consensusModule W U) ConsErr).

(** ** Height and round *)
Definition heightRound m : Z * Z := (height m, round m).

#[local] Instance height_local : Local (@height W U).
Proof. by constructor. Qed.
#[local] Instance heightRound_local : Local heightRound.
Proof. by constructor. Qed.

#[local] Hint Resolve height_local heightRound_local : keeps.

Section kept.
Context {X : Type} (f : consensusModule W U -> X) `{!Local f}.
Context (f_leader : forall l m, f (set_leaderId l m) = f m) (f_step : forall s m, f (set_step s m) = f m)
  (f_debug : forall q m, f (set_debugQC q m) = f m).

Lemma keeps_electNextLeader msg : keeps f (electNextLeader msg).
Proof.
  unfold electNextLeader, ElectNextLeader. solve_local.
Qed.
Lemma keeps_NewLeader b : keeps f (NewLeader b).
Proof. unfold NewLeader. apply keeps_bind; [solve_local|intros ?]. apply keeps_electNextLeader. Qed.

Lemma keeps_ResetRound_same : keeps f (ResetRound false).
Proof.
  unfold ResetRound. cbv iota. solve_local.
Qed.

Lemma keeps_startNextView qc force : keeps f (startNextView qc force).
Proof.
  unfold startNextView, SetStep. apply keeps_bind; [apply keeps_ResetRound_same|intros _].
  solve_local.
Qed.
End kept.

Lemma keeps_startNextView_hr qc force : keeps heightRound (startNextView qc force).
Proof. by apply keeps_startNextView. Qed.
Lemma keeps_startNextView_h qc force : keeps (@height W U) (startNextView qc force).
Proof. by apply keeps_startNextView. Qed.
#[local] Hint Resolve keeps_startNextView_hr keeps_startNextView_h : keeps.

(** Interrupting a round keeps the height and increments the round. *)
Lemma interrupt_round m :
  height (InterruptRound m).2 = height m /\ round (InterruptRound m).2 = u64 (round m + 1).
Proof.
  unfold InterruptRound, SetRound, CurrentRound. rewrite bind_get, bind_modify.
  set (m1 := set_round _ m). match goal with |- context [(?p ≫= ?k) m1] => assert (keeps heightRound (p ≫= k)) as Hk end.
  { solve_local. }
  specialize (Hk m1). unfold heightRound in Hk. injection Hk as -> ->. done.
Qed.

(** A new height increments the height, unless resetting the round fails. *)
Lemma new_height_height m :
  heightRound (NewHeight m).2 = heightRound m \/ height (NewHeight m).2 = u64 (height m + 1).
Proof.
  unfold NewHeight, ResetRound, SetBlock, SetHeight, publishNewHeightEvent, get. cbv iota.
  assert (keeps heightRound (clearMessagesPool : CM unit)) as Hc by solve_local.
  specialize (Hc (set_leaderId None m)). unfold mbind, M_bind, modify in *.
  destruct (clearMessagesPool (set_leaderId None m)) as [[[]|e|] m1]; cbn in Hc |- *; [|by left|by left].
  right. injection Hc as Hh _.
  match goal with |- context [startNextView None false ?s] => set (m2 := s) end.
  assert (height m2 = u64 (height m + 1)) as Hh2 by (cbn; unfold CurrentHeight; cbn; by rewrite Hh).
  pose proof (keeps_startNextView_h None false m2) as Hv.
  destruct (startNextView None false m2) as [[[]|e|] m3]; cbn in *; by rewrite Hv, Hh2.
Qed.

(** ** Programs that only move forward *)

(** No wrap-around is near. *)
Definition inRange m : Prop := 0 <= height m < 2 ^ 64 - 1 /\ 0 <= round m < 2 ^ 64 - 1.
Definition hrLe m m' : Prop := height m < height m' \/ (height m = height m' /\ round m <= round m').

Definition advances {A} (p : CM A) : Prop := forall m, inRange m -> (p m).1 ≠ Panic -> hrLe m (p m).2.

Lemma hrLe_kept m m' : heightRound m' = heightRound m -> hrLe m m'.
Proof. intros [= Hh Hr]. right. lia. Qed.

Lemma advances_kept {A} (p : CM A) : keeps heightRound p -> advances p.
Proof. intros Hk m _ _. apply hrLe_kept, Hk. Qed.

Lemma advances_kept_bind {A B} (p : CM A) (k : A -> CM B) :
  keeps heightRound p -> (forall a, advances (k a)) -> advances (p ≫= k).
Proof.
  intros Hp Hk m Hin. specialize (Hp m). unfold mbind, M_bind. destruct (p m) as [[a|e|] m']; cbn in *.
  - intros Hnp. injection Hp as Hh Hr. destruct (Hk a m') as [?|[? ?]]; [unfold inRange in *; by rewrite Hh, Hr|done| |].
    + left. lia.
    + right. lia.
  - intros _. by apply hrLe_kept.
  - done.
Qed.

Lemma advances_bind_kept {A B} (p : CM A) (k : A -> CM B) :
  advances p -> (forall a, keeps heightRound (k a)) -> advances (p ≫= k).
Proof.
  intros Hp Hk m Hin. specialize (Hp m Hin). unfold mbind, M_bind. destruct (p m) as [[a|e|] m']; cbn in *.
  - intros _. specialize (Hk a m'). injection Hk as Hh Hr. unfold hrLe in *. rewrite Hh, Hr. by apply Hp.
  - intros _. by apply Hp.
  - done.
Qed.

Lemma advances_onError {A} (p : CM A) h k :
  keeps heightRound p -> (forall e, advances (h e)) -> (forall a, advances (k a)) -> advances (onError p h k).
Proof.
  intros Hp Hh Hk m Hin. specialize (Hp m). unfold onError. destruct (p m) as [[a|e|] m']; cbn in *; [| |done];
    intros Hnp; injection Hp as Eh Er;
    [destruct (Hk a m') as [?|[? ?]]|destruct (Hh e m') as [?|[? ?]]];
    try done; (by unfold inRange in *; rewrite Eh, Er) || (by left; lia) || (by right; lia).
Qed.

Lemma advances_InterruptRound : advances InterruptRound.
Proof.
  intros m [Hh Hr] _. destruct (interrupt_round m) as [E1 E2]. right. rewrite E1, E2. rewrite u64_small; unfold in_u64; lia.
Qed.
Lemma advances_NewHeight : advances NewHeight.
Proof.
  intros m [Hh Hr] Hnp. destruct (new_height_height m) as [E|E]; [by apply hrLe_kept|].
  left. rewrite E. rewrite u64_small; unfold in_u64; lia.
Qed.

Lemma keeps_SetStep st : keeps heightRound (SetStep st : CM unit).
Proof. by apply keeps_modify. Qed.
Lemma keeps_SetBlock b : keeps heightRound (SetBlock b : CM unit).
Proof. by apply keeps_modify. Qed.
Lemma keeps_setBlockQC b : keeps heightRound (setBlockQuorumCertificate b : CM unit).
Proof. unfold setBlockQuorumCertificate. solve_local. Qed.
#[local] Hint Resolve keeps_SetStep keeps_SetBlock keeps_setBlockQC : keeps.

Ltac advances_step :=
  match goal with
  | |- advances (_ ≫= (fun _ => RestartTimer)) => apply advances_bind_kept; [|intros ?; solve_local]
  | |- advances (onError _ _ _) => apply advances_onError; [solve [solve_local]|intros ?|intros ?]
  | |- advances InterruptRound => apply advances_InterruptRound
  | |- advances (interrupt _) => apply advances_InterruptRound
  | |- advances (discard _) => apply advances_kept, keeps_ret
  | |- advances (propose _ _ _) => unfold propose
  | |- advances NewHeight => apply advances_NewHeight
  | |- advances (_ ≫= _) => apply advances_kept_bind; [solve [solve_local]|intros ?]
  | |- advances (match ?x with _ => _ end) => destruct x
  | |- advances _ => apply advances_kept; solve [solve_local]
  end.
Ltac solve_advances :=
  unfold replica_anteHandle, leader_anteHandle; repeat advances_step.

Lemma advances_replica st handler msg : replicaHandlers cfg st = Some handler -> advances (handler msg).
Proof.
  unfold replicaHandlers. intros Hh. repeat case_bool_decide; injection Hh as <- || discriminate Hh.
  - unfold replica_HandleNewRoundMessage. solve_advances.
  - unfold replica_HandlePrepareMessage. solve_advances.
  - unfold replica_HandlePrecommitMessage. solve_advances.
  - unfold replica_HandleCommitMessage. solve_advances.
  - unfold replica_HandleDecideMessage. solve_advances.
Qed.

Lemma advances_leader st handler msg : leaderHandlers cfg st = Some handler -> advances (handler msg).
Proof.
  unfold leaderHandlers. intros Hh. repeat case_bool_decide; injection Hh as <- || discriminate Hh.
  - unfold leader_HandleNewRoundMessage. solve_advances.
  - unfold leader_HandlePrepareMessage. solve_advances.
  - unfold leader_HandlePrecommitMessage. solve_advances.
  - unfold leader_HandleCommitMessage. solve_advances.
  - unfold leader_HandleDecideMessage. solve_advances.
Qed.

(** The pacemaker either leaves height and round or moves to the message's later round. *)
Lemma shouldHandle_hr msg m : let m' := (ShouldHandleMessage cfg msg m).2 in
  heightRound m' = heightRound m \/ (height m' = height m /\ round m' = hm_Round msg /\ round m <= hm_Round msg).
Proof.
  cbn zeta. unfold ShouldHandleMessage, CurrentHeight, CurrentRound. rewrite bind_get.
  repeat case_goal; try (by left).
  - left. unfold onWorld, mbind, M_bind. by destruct (SendEvent _ _) as [[?|?|] ?].
  - right. unfold SetStep, SetRound. rewrite !bind_modify, bind_get.
    match goal with Hb : (_ || _) = true |- _ => rename Hb into Hahead end.
    assert (round m <= hm_Round msg) as Hle.
    { apply orb_prop in Hahead as [Ha|Ha]; [apply bool_decide_eq_true in Ha; lia|].
      apply andb_prop in Ha as [Ha _]. apply bool_decide_eq_true in Ha. lia. }
    set (m1 := set_round _ _). match goal with |- context [(?p ≫= ?k) m1] => assert (keeps heightRound (p ≫= k)) as Hk end.
    { solve_local. by apply keeps_NewLeader. }
    specialize (Hk m1). unfold heightRound in Hk. injection Hk as -> ->. done.
Qed.

(** C10: a node never goes back.  Neither handling a message, whatever its content, nor a
    timeout lowers the pair (height, round) of a node, as long as the counters are not about
    to wrap around and the process survives. *)
Theorem node_never_goes_back m msg :
  inRange m -> hm_Round msg < 2 ^ 64 - 1 ->
  ((handleHotstuffMessage cfg msg m).1 ≠ Panic -> hrLe m (handleHotstuffMessage cfg msg m).2) /\
  hrLe m (InterruptRound m).2.
Proof.
  intros Hin Hmr. split.
  - unfold handleHotstuffMessage. pose proof (shouldHandle_hr msg m) as Hs. cbn zeta in Hs. rewrite (bind_eq (ShouldHandleMessage cfg msg)).
    destruct (ShouldHandleMessage cfg msg m) as [[b|e|] m1]; cbn [snd fst] in *; [| |done].
    2: { intros _. destruct Hs as [Hs|(Hh & Hr & Hle)]; [by apply hrLe_kept|right; lia]. }
    assert (hrLe m m1 /\ inRange m1) as [Hle1 Hin1].
    { unfold inRange, hrLe in *. destruct Hs as [[= Hh Hr]|(Hh & Hr & Hle)]; rewrite Hh, Hr; lia. }
    destruct b; cbn [negb]; [|done]. intros Hnp.
    match type of Hnp with (?p _).1 ≠ _ => assert (advances p) as Ha end.
    { apply advances_kept_bind; [apply keeps_get|intros m2].
      apply advances_kept_bind; [destruct (shouldElectNextLeader m2); [by apply keeps_electNextLeader|solve_local]|intros _].
      apply advances_kept_bind; [apply keeps_get|intros m3].
      destruct (IsLeader cfg m3); [destruct (leaderHandlers cfg (hm_Step msg)) as [handler|] eqn:Hhd|
        destruct (replicaHandlers cfg (hm_Step msg)) as [handler|] eqn:Hhd].
      - by eapply advances_leader.
      - apply advances_kept. solve_local.
      - by eapply advances_replica.
      - apply advances_kept. solve_local. }
    specialize (Ha m1 Hin1 Hnp). unfold hrLe in *. lia.
  - destruct (interrupt_round m) as [E1 E2]. right. rewrite E1, E2. destruct Hin. rewrite u64_small; unfold in_u64; lia.
Qed.

(** ** The height only advances with a quorum *)

(** What the checks made before a commit leave alone: everything but the mempools. *)
Definition core m : consensusModule W U := set_hotstuffMempool ∅ m.

Lemma keeps_core_onPool {A} st (g : M Pool Error A) : keeps core (onPool st g).
Proof. intros m. unfold onPool. destruct (hotstuffMempool m !! st) as [p|]; [|done]. by destruct (g p). Qed.
Lemma keeps_core_readPool {A} st (g : Pool -> A) : keeps core (readPool st g).
Proof. intros m. unfold readPool. by destruct (hotstuffMempool m !! st). Qed.
#[local] Hint Resolve keeps_core_onPool keeps_core_readPool keeps_of_module : keeps.

(** Two checks change nothing at all. *)
Lemma keeps_all_ante {X} (f : consensusModule W U -> X) msg : keeps f (isValidMessageBlock cfg msg).
Proof. unfold isValidMessageBlock, BlockHeaderOf. solve_keeps. Qed.
Lemma keeps_all_validateQC {X} (f : consensusModule W U -> X) qc : keeps f (validateQuorumCertificate qc).
Proof. unfold validateQuorumCertificate, getValidatorsAtHeight. solve_keeps. Qed.
Lemma keeps_core_collect n h st r : forall pss, keeps core (collectPartialSignatures n h st r pss).
Proof. induction n as [|n IH]; intros pss; cbn [collectPartialSignatures]; solve_keeps. Qed.
#[local] Hint Resolve keeps_all_ante keeps_core_collect : keeps.
Lemma keeps_core_leader_ante msg : keeps core (leader_anteHandle cfg msg).
Proof.
  unfold leader_anteHandle, validateMessageSignature, indexHotstuffMessage, getValidatorsAtHeight. solve_keeps.
Qed.

(** The partial signature of a message that the leader counts as a vote of a view. *)
Definition countedVote (h r st : Z) (v : HotstuffMessage) : option PartialSignature :=
  match GetPartialSignature v with
  | Some ps =>
      if bool_decide (hm_Height v = h) && bool_decide (hm_Step v = st) && bool_decide (hm_Round v = r)
         && bool_decide (ps_Signature ps ≠ None) && bool_decide (ps_Address ps ≠ "")
      then Some ps else None
  | None => None
  end.

(** Popping takes the front of the queue, if it does not fail. *)
Lemma pop_ok p r p' :
  HotstuffMempool.Pop marshalMsg p = (Ok r, p') ->
  HotstuffMempool.GetAll p = match r with Some v => v :: HotstuffMempool.GetAll p' | None => [] end.
Proof.
  unfold HotstuffMempool.Pop, FIFOList.Pop, HotstuffMempool.GetAll, FIFOList.GetAll.
  cbv [mbind M_bind gets FIFOList.hook FIFOList.set_queue modify mret M_ret].
  destruct (FIFOList.queue p.1) as [|v q] eqn:Hq; [intros [= <- <-]; done|]. cbn.
  destruct (HotstuffMempool.msgOnRemove marshalMsg v p.2) as [[[]|e|] c]; [intros [= <- <-]|discriminate..]. done.
Qed.

(** Pushing appends, and drops the front if the mempool overflows. *)
Lemma push_ok v p p' :
  HotstuffMempool.Push marshalMsg v p = (Ok tt, p') ->
  let q := (HotstuffMempool.GetAll p ++ [v])%list in
  HotstuffMempool.GetAll p' = q \/ HotstuffMempool.GetAll p' = tail q.
Proof.
  unfold HotstuffMempool.Push, FIFOList.Push, HotstuffMempool.GetAll, FIFOList.GetAll.
  cbv [mbind M_bind gets FIFOList.hook FIFOList.set_queue modify mret M_ret]. cbn.
  destruct (HotstuffMempool.msgOnAdd marshalMsg v p.2) as [[[]|e|] c]; [|discriminate..]. cbn.
  case_bool_decide; cbn; [|intros [= <-]; by left].
  destruct (HotstuffMempool.msgOnRemove marshalMsg v c) as [[[]|e|] c']; [intros [= <-]; by right|discriminate..].
Qed.

(** The loop of [getQuorumCertificate] collects exactly the counted votes of the mempool. *)
Lemma collect_counted n h st r : forall acc m p pss m',
  hotstuffMempool m !! st = Some p -> length (HotstuffMempool.GetAll p) = n ->
  collectPartialSignatures n h st r acc m = (Ok pss, m') ->
  pss = (acc ++ omap (countedVote h r st) (HotstuffMempool.GetAll p))%list.
Proof.
  induction n as [|n IH]; intros acc m p pss m' Hp Hn Hrun; cbn [collectPartialSignatures] in Hrun.
  - apply nil_length_inv in Hn. rewrite Hn. injection Hrun as <- _. by rewrite app_nil_r.
  - apply bind_ok in Hrun as (em & m1 & Hem & Hrun). unfold readPool in Hem. rewrite Hp in Hem. injection Hem as Hem <-.
    assert (em = false) as ->.
    { subst em. unfold HotstuffMempool.IsEmpty, FIFOList.IsEmpty. apply bool_decide_eq_false_2.
      unfold HotstuffMempool.GetAll, FIFOList.GetAll in Hn. lia. }
    apply bind_ok in Hrun as (r0 & m2 & Hpop & Hrun). unfold onPool in Hpop. rewrite Hp in Hpop.
    destruct (HotstuffMempool.Pop marshalMsg p) as [[r1|e|] p'] eqn:Hpp; [|discriminate..].
    injection Hpop as <- <-. apply pop_ok in Hpp. rewrite Hpp in Hn |- *.
    apply bind_ok in Hrun as (v & m3 & Hv & Hrun). destruct r1 as [v'|]; [|discriminate].
    injection Hv as -> <-. injection Hn as Hn.
    cbn [omap list_omap]. unfold countedVote at 1.
    destruct (GetPartialSignature v) as [ps|];
      [|refine (IH _ _ p' _ _ _ Hn Hrun); by cbn; rewrite lookup_insert_eq].
    destruct (bool_decide (hm_Height v = h) && _ && _); cbn [negb andb] in Hrun |- *;
      [|refine (IH _ _ p' _ _ _ Hn Hrun); by cbn; rewrite lookup_insert_eq].
    destruct (ps_Signature ps) as [sg|];
      [rewrite (bool_decide_eq_true_2 (Some sg ≠ None)) by done
      |rewrite bool_decide_eq_false_2 by (intros Hx; by apply Hx); refine (IH _ _ p' _ _ _ Hn Hrun); by cbn; rewrite lookup_insert_eq].
    cbn [andb]. destruct (decide (ps_Address ps = "")) as [Ha|Ha].
    + rewrite bool_decide_eq_true_2 in Hrun by done. rewrite bool_decide_eq_false_2 by (intros Hx; by apply Hx).
      refine (IH _ _ p' _ _ _ Hn Hrun). by cbn; rewrite lookup_insert_eq.
    + rewrite bool_decide_eq_false_2 in Hrun by done. rewrite bool_decide_eq_true_2 by done.
      rewrite cons_middle, app_assoc. refine (IH _ _ p' _ _ _ Hn Hrun). by cbn; rewrite lookup_insert_eq.
Qed.

(** A certificate the leader builds holds the counted votes of the mempool, which are more
    than two thirds as many as there are validators. *)
Lemma getQuorumCertificate_quorum h st r m qc m' vals p :
  getQuorumCertificate h st r m = (Ok qc, m') -> validatorsAt h m = Ok vals -> Z.of_nat (length vals) < 2 ^ 50 ->
  hotstuffMempool m !! st = Some p ->
  2 * Z.of_nat (length vals) < 3 * Z.of_nat (length (omap (countedVote h r st) (HotstuffMempool.GetAll p))).
Proof.
  intros Hrun Hv Hl Hp. unfold getQuorumCertificate in Hrun.
  apply bind_ok in Hrun as (n & m0 & Hn & Hrun). apply bind_ok in Hrun as (pss & m1 & Hc & Hrun).
  unfold readPool in Hn. rewrite Hp in Hn. injection Hn as <- <-.
  pose proof (keeps_core_collect (length (HotstuffMempool.GetAll p)) h st r [] m) as Hcore. rewrite Hc in Hcore. cbn [snd] in Hcore.
  apply (collect_counted _ h st r [] m p pss m1 Hp eq_refl) in Hc. cbn [app] in Hc. subst pss.
  assert (validatorsAt h m1 = Ok vals) as Hv1.
  { unfold validatorsAt in *. apply (f_equal world) in Hcore. cbn in Hcore. by rewrite Hcore. }
  unfold getValidatorsAtHeight in Hrun. apply bind_ok in Hrun as (vals' & m2 & Hvr & Hrun).
  rewrite bind_get in Hvr. unfold of_module, of_res in Hvr. rewrite Hv1 in Hvr. injection Hvr as <- <-.
  apply bind_ok in Hrun as ([] & m3 & Ht & _). unfold of_res in Ht. injection Ht as Ht _.
  apply threshold_iff in Ht; lia.
Qed.

Lemma keeps_h_of_hr {A} (p : CM A) : keeps heightRound p -> keeps (@height W U) p.
Proof. intros Hk m. specialize (Hk m). by injection Hk. Qed.
Lemma keeps_h_interrupt e : keeps (@height W U) (interrupt e : CM unit).
Proof. intros m. apply interrupt_round. Qed.
Lemma keeps_h_discard e : keeps (@height W U) (discard e : CM unit).
Proof. by intros m. Qed.
#[local] Hint Resolve keeps_h_interrupt keeps_h_discard : keeps.

Ltac keeps_height := unfold replica_anteHandle, leader_anteHandle, propose, SetStep, SetBlock;
  try match goal with |- forall _ : ConsErr, _ => intros ? end; solve_local.

Lemma replica_keeps_height msg st handler :
  replicaHandlers cfg st = Some handler -> st ≠ Decide -> keeps (@height W U) (handler msg).
Proof.
  unfold replicaHandlers. intros Hh Hst. repeat case_bool_decide; try done; injection Hh as <- || discriminate Hh.
  - unfold replica_HandleNewRoundMessage. keeps_height.
  - unfold replica_HandlePrepareMessage. keeps_height.
  - unfold replica_HandlePrecommitMessage. keeps_height.
  - unfold replica_HandleCommitMessage. keeps_height.
Qed.
Lemma leader_keeps_height msg st handler :
  leaderHandlers cfg st = Some handler -> st ≠ Commit_ -> keeps (@height W U) (handler msg).
Proof.
  unfold leaderHandlers. intros Hh Hst. repeat case_bool_decide; try done; injection Hh as <- || discriminate Hh.
  - unfold leader_HandleNewRoundMessage. keeps_height.
  - unfold leader_HandlePrepareMessage. keeps_height.
  - unfold leader_HandlePrecommitMessage. keeps_height.
  - unfold leader_HandleDecideMessage. keeps_height.
Qed.

(** Where a change of a part of the state comes from. *)
Lemma onError_changes {X A} (f : consensusModule W U -> X) (p : CM A) h k m :
  keeps f p -> (forall e, keeps f (h e)) -> f (onError p h k m).2 ≠ f m ->
  exists a m1, p m = (Ok a, m1) /\ f m1 = f m /\ f (k a m1).2 ≠ f m1.
Proof.
  intros Hp Hh. specialize (Hp m). unfold onError. destruct (p m) as [[a|e|] m1]; cbn in *.
  - intros Hne. exists a, m1. by rewrite Hp.
  - specialize (Hh e m1). by rewrite Hh, Hp.
  - by rewrite Hp.
Qed.
Lemma restart_height (p : CM unit) m : height ((p ;; RestartTimer) m).2 = height (p m).2.
Proof. rewrite bind_eq. by destruct (p m) as [[[]|e|] m1]. Qed.

Lemma restart_panic (p : CM unit) m : (p m).1 = Panic -> ((p ;; RestartTimer) m).1 = Panic.
Proof. rewrite bind_eq. by destruct (p m) as [[[]|e|] m1]. Qed.

Lemma replica_decide_changes msg m :
  height (replica_HandleDecideMessage cfg msg m).2 ≠ height m ->
  exists m1, validateQuorumCertificate (GetQuorumCertificate msg) m = (Ok tt, m1).
Proof.
  unfold replica_HandleDecideMessage, replica_anteHandle. rewrite restart_height. intros Hne.
  apply onError_changes in Hne as ([] & m1 & Ha & _ & Hne); [|keeps_height..].
  pose proof (keeps_all_ante (fun m => m) msg m) as Hm. rewrite Ha in Hm. cbn in Hm. subst m1.
  apply onError_changes in Hne as ([] & m2 & Hq & _ & _); [by exists m2|keeps_height..].
Qed.

(** What a message that passes the leader's checks has shown and where it goes. *)
Lemma leader_ante_ok msg m m1 vals :
  leader_anteHandle cfg msg m = (Ok tt, m1) -> validatorsAt (height m) m = Ok vals ->
  hm_Step msg ≠ NewRound ->
  (hm_Type msg = Propose \/
   exists ps, GetPartialSignature msg = Some ps /\ validSignature (NewActorMapper vals) msg ps = true) /\
  exists p p', hotstuffMempool m !! hm_Step msg = Some p /\ hotstuffMempool m1 !! hm_Step msg = Some p' /\
    let q := (HotstuffMempool.GetAll p ++ [msg])%list in
    HotstuffMempool.GetAll p' = q \/ HotstuffMempool.GetAll p' = tail q.
Proof.
  intros Hrun Hv Hs. unfold leader_anteHandle in Hrun.
  apply bind_ok in Hrun as ([] & ma & Ha & Hrun).
  pose proof (keeps_all_ante (fun m => m) msg m) as Hm. rewrite Ha in Hm. cbn in Hm. subst ma.
  apply bind_ok in Hrun as ([] & mb & Hb & Hrun).
  assert (mb = m) as ->.
  { assert (keeps (fun m => m) (validateMessageSignature msg)) as Hk
      by (unfold validateMessageSignature, getValidatorsAtHeight; solve_keeps).
    specialize (Hk m). by rewrite Hb in Hk. }
  split.
  - unfold validateMessageSignature in Hb. rewrite bool_decide_eq_false_2 in Hb by done.
    case_bool_decide as Ht; [by left|]. right. destruct (GetPartialSignature msg) as [ps|]; [|discriminate].
    exists ps. split; [done|]. destruct (bool_decide _ || _); [discriminate|]. cbn zeta in Hb.
    rewrite bind_get in Hb. unfold getValidatorsAtHeight, of_module, of_res in Hb. rewrite bind_eq, bind_get in Hb.
    unfold CurrentHeight in Hb. rewrite Hv in Hb. unfold validSignature.
    destruct (validatorMap _ !! _) as [v|]; [|discriminate].
    destruct (isSignatureValid msg (PublicKey v) (ps_Signature ps)); [done|].
    rewrite bind_eq in Hb. by destruct (protoHash (hm_Block msg)).
  - unfold indexHotstuffMessage in Hrun. apply bind_ok in Hrun as (t & mc & Ht & Hrun).
    unfold readPool in Ht. destruct (hotstuffMempool m !! hm_Type msg); [|discriminate]. injection Ht as _ <-.
    case_bool_decide; [discriminate|]. unfold onPool in Hrun.
    destruct (hotstuffMempool m !! hm_Step msg) as [p|]; [|discriminate].
    destruct (HotstuffMempool.Push marshalMsg msg p) as [[[]|e|] p'] eqn:Hp; [|discriminate..].
    injection Hrun as <-. exists p, p'. split; [done|]. split; [by cbn; rewrite lookup_insert_eq|].
    by apply push_ok in Hp.
Qed.

Lemma keeps_all_didReceive {X} (f : consensusModule W U -> X) st : keeps f (didReceiveEnoughMessageForStep st).
Proof. unfold didReceiveEnoughMessageForStep, getValidatorsAtHeight, readPool. intros m.
  rewrite bind_get, bind_eq, bind_get. unfold of_module, of_res.
  destruct (validatorsAt _ m) as [v|e|]; [|done..]. rewrite bind_eq.
  by destruct (hotstuffMempool m !! st).
Qed.

Lemma leader_commit_changes msg m vals :
  height (leader_HandleCommitMessage cfg msg m).2 ≠ height m -> hm_Step msg = Commit_ ->
  validatorsAt (height m) m = Ok vals -> Z.of_nat (length vals) < 2 ^ 50 ->
  (hm_Type msg = Propose \/
   exists ps, GetPartialSignature msg = Some ps /\ validSignature (NewActorMapper vals) msg ps = true) /\
  exists p votes, hotstuffMempool m !! Commit_ = Some p /\
    (let q := (HotstuffMempool.GetAll p ++ [msg])%list in votes = q \/ votes = tail q) /\
    2 * Z.of_nat (length vals) < 3 * Z.of_nat (length (omap (countedVote (height m) (round m) Commit_) votes)).
Proof.
  unfold leader_HandleCommitMessage. rewrite restart_height. intros Hne Hs Hv Hl.
  apply onError_changes in Hne as ([] & m1 & Ha & Hh1 & Hne); [|keeps_height..].
  pose proof (keeps_core_leader_ante msg m) as Hc1. rewrite Ha in Hc1. cbn [snd] in Hc1.
  apply (leader_ante_ok _ _ _ _ Ha) in Hv as Hante; [|by rewrite Hs].
  destruct Hante as [Hsig (p & p' & Hp & Hp' & Hq)]. split; [done|]. rewrite Hs in Hp, Hp'.
  apply onError_changes in Hne as ([] & m2 & Hd & Hh2 & Hne); [|keeps_height..].
  pose proof (keeps_all_didReceive (fun m => m) Commit_ m1) as Hc2. rewrite Hd in Hc2. cbn in Hc2. subst m2.
  rewrite bind_get in Hne. apply onError_changes in Hne as (qc & m3 & Hqc & _ & _); [|keeps_height..].
  exists p, (HotstuffMempool.GetAll p'). split; [done|]. split; [done|].
  pose proof (f_equal height Hc1) as E1. pose proof (f_equal round Hc1) as E2. pose proof (f_equal world Hc1) as E3.
  cbn in E1, E2, E3. rewrite E1, E2 in Hqc. eapply getQuorumCertificate_quorum; [exact Hqc| |done|done].
  unfold validatorsAt in *. by rewrite E3.
Qed.

(** At most one height at a time. *)
Definition oneHeight {A} (p : CM A) : Prop := forall m, height (p m).2 = height m \/ height (p m).2 = u64 (height m + 1).

Lemma oneHeight_kept {A} (p : CM A) : keeps (@height W U) p -> oneHeight p.
Proof. intros Hk m. left. apply Hk. Qed.
Lemma oneHeight_onError {A} (p : CM A) h k :
  keeps (@height W U) p -> (forall e, oneHeight (h e)) -> (forall a, oneHeight (k a)) -> oneHeight (onError p h k).
Proof.
  intros Hp Hh Hk m. specialize (Hp m). unfold onError. destruct (p m) as [[a|e|] m1]; cbn in *; rewrite <- Hp;
    [apply Hk|apply Hh|by left].
Qed.
Lemma oneHeight_bind {A B} (p : CM A) (k : A -> CM B) :
  keeps (@height W U) p -> (forall a, oneHeight (k a)) -> oneHeight (p ≫= k).
Proof.
  intros Hp Hk m. specialize (Hp m). rewrite bind_eq. destruct (p m) as [[a|e|] m1]; cbn in *; rewrite <- Hp;
    [apply Hk|by left|by left].
Qed.
Lemma oneHeight_restart (p : CM unit) : oneHeight p -> oneHeight (p ;; RestartTimer).
Proof. intros Hp m. rewrite restart_height. apply Hp. Qed.
Lemma oneHeight_NewHeight : oneHeight NewHeight.
Proof. intros m. destruct (new_height_height m) as [[= E _]|E]; auto. Qed.

Lemma keeps_h_setBlockQC b : keeps (@height W U) (setBlockQuorumCertificate b : CM unit).
Proof. apply keeps_h_of_hr, keeps_setBlockQC. Qed.
#[local] Hint Resolve keeps_h_setBlockQC : keeps.

Ltac oneHeight_step :=
  match goal with
  | |- oneHeight (_ ≫= (fun _ => RestartTimer)) => apply oneHeight_restart
  | |- oneHeight (onError _ _ _) => apply oneHeight_onError; [solve [keeps_height]|intros ?|intros ?]
  | |- oneHeight NewHeight => apply oneHeight_NewHeight
  | |- oneHeight (propose _ _ _) => unfold propose
  | |- oneHeight (_ ≫= _) => apply oneHeight_bind; [solve [keeps_height]|intros ?]
  | |- oneHeight (match ?x with _ => _ end) => destruct x
  | |- oneHeight _ => apply oneHeight_kept; solve [keeps_height]
  end.

Lemma oneHeight_replica msg st handler : replicaHandlers cfg st = Some handler -> oneHeight (handler msg).
Proof.
  intros Hh. destruct (decide (st = Decide)) as [->|Hne]; [|by eapply oneHeight_kept, replica_keeps_height].
  injection Hh as <-. unfold replica_HandleDecideMessage. repeat oneHeight_step.
Qed.
Lemma oneHeight_leader msg st handler : leaderHandlers cfg st = Some handler -> oneHeight (handler msg).
Proof.
  intros Hh. destruct (decide (st = Commit_)) as [->|Hne]; [|by eapply oneHeight_kept, leader_keeps_height].
  injection Hh as <-. unfold leader_HandleCommitMessage. repeat oneHeight_step.
Qed.

(** The parts of the state that finding out who leads leaves alone: the validators of a
    height depend on the first two. *)
Definition hw m : Z * W * gmap Z Pool := (height m, world m, hotstuffMempool m).
Lemma keeps_hw_elect msg : keeps hw (electNextLeader msg).
Proof. unfold electNextLeader, ElectNextLeader, getValidatorsAtHeight. solve_keeps. Qed.
#[local] Hint Resolve keeps_hw_elect : keeps.

Lemma keeps_round_elect msg : keeps (@round W U) (electNextLeader msg).
Proof. unfold electNextLeader, ElectNextLeader, getValidatorsAtHeight. solve_keeps. Qed.
#[local] Hint Resolve keeps_round_elect : keeps.

(** A message that is handled is of the height of the node, and the node is in its round. *)
Lemma shouldHandle_hw msg m m1 :
  ShouldHandleMessage cfg msg m = (Ok true, m1) -> hw m1 = hw m /\ round m1 = hm_Round msg.
Proof.
  unfold ShouldHandleMessage, CurrentRound. rewrite bind_get. repeat case_goal; try discriminate.
  - unfold onWorld. rewrite bind_eq. by destruct (SendEvent _ _) as [[?|?|] ?].
  - intros [= <-]. split; [done|]. match goal with Hb : (_ && _) = true |- _ => apply andb_prop in Hb as [_ Hb] end.
    by match goal with Hb : bool_decide _ = true |- _ => apply bool_decide_eq_true in Hb end.
  - unfold SetStep, SetRound. rewrite !bind_modify, bind_get. intros Hrun.
    match type of Hrun with (?p ≫= ?k) ?m = _ =>
      assert (keeps hw (p ≫= k)) as Hk by (unfold NewLeader; solve_keeps);
      assert (keeps (@round W U) (p ≫= k)) as Hr by (unfold NewLeader; solve_keeps);
      specialize (Hk m); specialize (Hr m) end.
    rewrite Hrun in Hk, Hr. by split.
Qed.

Lemma shouldHandle_height msg m : height (ShouldHandleMessage cfg msg m).2 = height m.
Proof. destruct (shouldHandle_hr msg m) as [[= E _]|[E _]]; done. Qed.

(** The state in which the handler of a message runs. *)
Lemma handle_cases msg m :
  height (handleHotstuffMessage cfg msg m).2 = height m \/
  exists m1, hw m1 = hw m /\ round m1 = hm_Round msg /\
    ((exists handler, IsLeader cfg m1 = true /\ leaderHandlers cfg (hm_Step msg) = Some handler /\
        handleHotstuffMessage cfg msg m = handler msg m1) \/
     (exists handler, IsLeader cfg m1 = false /\ replicaHandlers cfg (hm_Step msg) = Some handler /\
        handleHotstuffMessage cfg msg m = handler msg m1)).
Proof.
  unfold handleHotstuffMessage. rewrite bind_eq.
  pose proof (shouldHandle_height msg m) as Hh. destruct (ShouldHandleMessage cfg msg m) as [[[|]|e|] m1] eqn:Hs; cbn in Hh |- *;
    [|by left|by left|by left].
  apply shouldHandle_hw in Hs as [Hs Hrd]. rewrite bind_get.
  set (p := if shouldElectNextLeader m1 then electNextLeader msg else mret tt).
  assert (keeps hw p) as Hk by (unfold p; solve_keeps). specialize (Hk m1).
  assert (keeps (@round W U) p) as Hr by (unfold p; solve_keeps). specialize (Hr m1). rewrite bind_eq.
  destruct (p m1) as [[[]|e|] m2]; cbn in Hk, Hr |- *; [|injection Hk as Hk _; left; congruence..].
  rewrite bind_get. destruct (IsLeader cfg m2) eqn:Hl.
  - destruct (leaderHandlers cfg (hm_Step msg)) as [handler|] eqn:Hhd.
    + right. exists m2. split; [by rewrite Hk|]. split; [by rewrite Hr|]. left. by exists handler.
    + left. cbn. injection Hk as Hk _. congruence.
  - destruct (replicaHandlers cfg (hm_Step msg)) as [handler|] eqn:Hhd.
    + right. exists m2. split; [by rewrite Hk|]. split; [by rewrite Hr|]. right. by exists handler.
    + left. cbn. injection Hk as Hk _. congruence.
Qed.

(** C1: the chain only grows with a quorum.  If handling a message changes the height of a
    node, the height has grown by one (modulo 2^64), and one of two things holds (at most
    2^50 validators). Either the message is of the step DECIDE, of whatever type, and carries a
    certificate with valid signatures numbering more than two thirds of the validators.
    Or the message is of the step COMMIT and was handled by the leader's handler, in the round of
    the message; then the votes of the node's height and of that round among the messages of
    its COMMIT mempool and the message itself (without the oldest of them if the mempool
    overflowed) number more than two thirds of the validators. These votes are counted, by the
    presence of a signature and of an address; verified here is the signature of the
    message being handled, unless it says it is a proposal. *)
Theorem height_advances_with_quorum msg m vals :
  validatorsAt (height m) m = Ok vals -> Z.of_nat (length vals) < 2 ^ 50 ->
  height (handleHotstuffMessage cfg msg m).2 ≠ height m ->
  height (handleHotstuffMessage cfg msg m).2 = u64 (height m + 1) /\
  ((hm_Step msg = Decide /\ exists qc, GetQuorumCertificate msg = Some qc /\
      2 * Z.of_nat (length vals) < 3 * Z.of_nat (length (validSigs vals qc))) \/
   (hm_Step msg = Commit_ /\
    (exists m1, IsLeader cfg m1 = true /\ height m1 = height m /\ round m1 = hm_Round msg /\
       handleHotstuffMessage cfg msg m = leader_HandleCommitMessage cfg msg m1) /\
    (hm_Type msg = Propose \/
     exists ps, GetPartialSignature msg = Some ps /\ validSignature (NewActorMapper vals) msg ps = true) /\
    exists p votes, hotstuffMempool m !! Commit_ = Some p /\
      (let q := (HotstuffMempool.GetAll p ++ [msg])%list in votes = q \/ votes = tail q) /\
      2 * Z.of_nat (length vals) <
        3 * Z.of_nat (length (omap (countedVote (height m) (hm_Round msg) Commit_) votes)))).
Proof.
  intros Hv Hl Hne.
  destruct (handle_cases msg m) as [?|(m1 & Hhw & Hr & [(handler & Hlead & Hh & Hrun)|(handler & Hlead & Hh & Hrun)])];
    [done| |]; injection Hhw as Eh Ew Ep; rewrite Hrun in Hne |- *; rewrite <- Eh in Hne |- *.
  - pose proof (oneHeight_leader msg _ _ Hh m1) as [?|E1]; [done|]. split; [done|]. right.
    destruct (decide (hm_Step msg = Commit_)) as [Es|Es].
    2: { exfalso. apply Hne. by eapply leader_keeps_height. }
    split; [done|]. rewrite Es in Hh. injection Hh as <-. split; [by exists m1|].
    rewrite <- Ep, <- Hr. apply leader_commit_changes; [done..| |done].
    unfold validatorsAt in *. by rewrite Ew, Eh.
  - pose proof (oneHeight_replica msg _ _ Hh m1) as [?|E1]; [done|]. split; [done|]. left.
    destruct (decide (hm_Step msg = Decide)) as [Es|Es].
    2: { exfalso. apply Hne. by eapply replica_keeps_height. }
    split; [done|]. rewrite Es in Hh. injection Hh as <-.
    apply replica_decide_changes in Hne as (m2 & Hqc). destruct (GetQuorumCertificate msg) as [qc|]; [|done].
    exists qc. split; [done|].
    pose proof (keeps_all_validateQC (fun m => m) (Some qc) m1) as Hm. rewrite Hqc in Hm. cbn in Hm. subst m2.
    apply (validate_qc_iff m1 qc vals) in Hqc; [tauto| |done]. unfold validatorsAt in *. by rewrite Ew, Eh.
Qed.

(** ** Locking *)

(** C37: a locked replica stays locked.  Once a replica holds a locked certificate, a PREPARE
    proposal without a certificate ends the process, one with a valid certificate for the
    block it is locked on is accepted, and every other is refused, also when its certificate
    is newer than the lock: the liveness rule that should release the lock returns an error. *)
Theorem locked_replica_stays_locked msg m locked lockedHash :
  lockedQC m = Some locked -> protoHash (qc_Block locked) = Ok lockedHash ->
  hm_Type msg = Propose -> hm_Step msg = Prepare ->
  match GetQuorumCertificate msg with
  | None => validateProposal msg m = (Panic, m)
  | Some qc =>
      validateProposal msg m = (Ok tt, m) <->
      validateQuorumCertificate (Some qc) m = (Ok tt, m) /\ protoHash (qc_Block qc) = Ok lockedHash
  end.
Proof.
  intros Hlock Hhash Ht Hs. unfold validateProposal. rewrite !bool_decide_eq_true_2 by done. cbn [andb negb].
  destruct (GetQuorumCertificate msg) as [qc|].
  - pose proof (keeps_all_validateQC (fun m => m) (Some qc) m) as Hm. rewrite bind_eq.
    destruct (validateQuorumCertificate (Some qc) m) as [[[]|e|] m1]; cbn in Hm; subst m1;
      [|by split; [|intros [? _]]..].
    rewrite bind_get, Hlock. erewrite bind_run by (unfold of_res; by rewrite Hhash).
    destruct (protoHash (qc_Block qc)) as [h|e|]; unfold of_res; rewrite bind_eq; [|by split; [|intros [_ ?]]..].
    case_bool_decide as He; [by subst|].
    split.
    + unfold isNodeLockedOnPastQC. by repeat case_match; simplify_eq.
    + intros [_ [= ->]]. done.
  - erewrite bind_run by done. rewrite bind_get, Hlock. by erewrite bind_run by (unfold of_res; by rewrite Hhash).
Qed.

(** ** What a replica commits *)

(** A replica that has passed the checks of the DECIDE handler. *)
Lemma decide_run msg m qc qcBytes :
  isValidMessageBlock cfg msg m = (Ok tt, m) -> GetQuorumCertificate msg = Some qc ->
  validateQuorumCertificate (Some qc) m = (Ok tt, m) -> marshalQC qc = Some qcBytes ->
  replica_HandleDecideMessage cfg msg m =
    ((setBlockQuorumCertificate qcBytes ;;
      m ← get; onError (commitBlock (block m)) interrupt (fun _ => NewHeight)) ;; RestartTimer) m.
Proof.
  intros Ha Hg Hq Hb. unfold replica_HandleDecideMessage, replica_anteHandle. rewrite !(bind_eq _ (fun _ => RestartTimer)).
  unfold onError at 1. rewrite Ha, Hg. unfold onError at 1. rewrite Hq, Hb. done.
Qed.

(** a replica without a block ends the process on DECIDE.  A replica that missed the
    PREPARE proposal of a round has no current block; a DECIDE proposal with a valid
    certificate makes it write to the header of a nil block. *)
Theorem decide_without_block_panics msg m b qc qcBytes :
  hm_Step msg = Decide -> hm_Block msg = Some b -> sizeofBlock cfg <= u64 (MaxBlockBytes cfg) -> block m = None ->
  GetQuorumCertificate msg = Some qc -> validateQuorumCertificate (Some qc) m = (Ok tt, m) ->
  marshalQC qc = Some qcBytes ->
  (replica_HandleDecideMessage cfg msg m).1 = Panic.
Proof.
  intros Hs Hb Hsz Hnone Hg Hq Hm. rewrite (decide_run msg m qc qcBytes); [|clear Hq|done..].
  - apply restart_panic. unfold setBlockQuorumCertificate. rewrite !bind_eq. cbn. by rewrite Hnone.
  - unfold isValidMessageBlock. rewrite bind_get, Hb. rewrite bool_decide_eq_false_2 by (rewrite Hs; done).
    rewrite bool_decide_eq_false_2 by lia. by rewrite Hnone.
Qed.

Definition poolsReady m : Prop := forall st, st ∈ HotstuffSteps -> is_Some (hotstuffMempool m !! st).

Lemma clear_run m : poolsReady m -> (clearMessagesPool m).1 = Ok tt.
Proof.
  unfold clearMessagesPool, poolsReady. revert m. induction HotstuffSteps as [|st l IH]; intros m Hp; [done|].
  cbn [forM]. destruct (Hp st ltac:(set_solver)) as [p Hst].
  assert (exists p', onPool st HotstuffMempool.Clear m = (Ok tt, set_hotstuffMempool (<[st := p']> (hotstuffMempool m)) m)) as [p' Hc].
  { unfold onPool. rewrite Hst. by eexists. }
  erewrite bind_run by exact Hc. apply IH. intros st' Hst'. cbn.
  destruct (decide (st' = st)) as [->|Hne]; [rewrite lookup_insert_eq; by eexists|].
  rewrite lookup_insert_ne by done. apply Hp. set_solver.
Qed.

Lemma new_height_run m : poolsReady m -> height (NewHeight m).2 = u64 (height m + 1).
Proof.
  intros Hp. unfold NewHeight, ResetRound, SetBlock, SetHeight, publishNewHeightEvent, get. cbv iota.
  assert (keeps heightRound (clearMessagesPool : CM unit)) as Hc by solve_local.
  specialize (Hc (set_leaderId None m)). pose proof (clear_run (set_leaderId None m) Hp) as Hok. unfold mbind, M_bind, modify in *.
  destruct (clearMessagesPool (set_leaderId None m)) as [[[]|e|] m1]; cbn in Hc, Hok |- *; [|done..].
  injection Hc as Hh _.
  match goal with |- context [startNextView None false ?s] => set (m2 := s) end.
  assert (height m2 = u64 (height m + 1)) as Hh2 by (cbn; unfold CurrentHeight; cbn; by rewrite Hh).
  pose proof (keeps_startNextView_h None false m2) as Hv.
  destruct (startNextView None false m2) as [[[]|e|] m3]; cbn in *; by rewrite Hv, Hh2.
Qed.

(** A commit that succeeds, whatever the release afterwards answers. *)
Lemma commitBlock_run m b header u u1 w1 :
  b_Header b = Some header -> utilityUnitOfWork m = Some u ->
  UowCommit (bh_QuorumCertificate header) (u, world m) = (Ok tt, (u1, w1)) -> (Release (u1, w1)).1 ≠ Panic ->
  exists m', commitBlock (Some b) m = (Ok tt, m') /\ height m' = height m /\ hotstuffMempool m' = hotstuffMempool m /\
    utilityUnitOfWork m' = None /\ world m' = (Release (u1, w1)).2.2.
Proof.
  intros Hh Hu Hc Hr. unfold commitBlock. rewrite bind_get, Hu. unfold BlockHeaderOf. rewrite Hh.
  erewrite bind_run by done. erewrite bind_run by (unfold onUow; by rewrite Hc). rewrite bind_get.
  cbn [utilityUnitOfWork set_world set_utilityUnitOfWork].
  unfold logError, onError, onUow. rewrite bind_eq. cbn [world set_world].
  destruct (Release (u1, w1)) as [[[]|e|] [u2 w2]]; [| |done]; eexists; by repeat split.
Qed.

(** the block that a replica commits need not be the block that was certified.  On a
    DECIDE proposal the replica checks that the certificate is valid for *some* block,
    height, round and step, and then commits its own current block: whatever the
    certificate is for, the commit goes through and the node moves to the next height. *)
Theorem decide_commits_any_certificate msg m b header bm headerm u u1 w1 qc qcBytes h1 h2 :
  hm_Step msg = Decide -> hm_Block msg = Some b -> b_Header b = Some header -> sizeofBlock cfg <= u64 (MaxBlockBytes cfg) ->
  block m = Some bm -> b_Header bm = Some headerm -> bh_StateHash headerm = bh_StateHash header ->
  protoHash (Some bm) = Ok h1 -> protoHash (Some b) = Ok h2 -> poolsReady m ->
  GetQuorumCertificate msg = Some qc -> validateQuorumCertificate (Some qc) m = (Ok tt, m) -> marshalQC qc = Some qcBytes ->
  utilityUnitOfWork m = Some u -> UowCommit (Some qcBytes) (u, world m) = (Ok tt, (u1, w1)) -> (Release (u1, w1)).1 ≠ Panic ->
  exists m1 m2, commitBlock (Some (withQC qcBytes bm)) m1 = (Ok tt, m2) /\ world m1 = world m /\
    world m2 = (Release (u1, w1)).2.2 /\
    height (replica_HandleDecideMessage cfg msg m).2 = u64 (height m + 1).
Proof.
  intros Hs Hb Hbh Hsz Hbm Hbmh Hst Hp1 Hp2 Hpool Hg Hq Hm Hu Hc Hr.
  rewrite (decide_run msg m qc qcBytes); [|clear Hq|done..].
  2: { unfold isValidMessageBlock. rewrite bind_get, Hb. rewrite bool_decide_eq_false_2 by (rewrite Hs; done).
       rewrite bool_decide_eq_false_2 by lia. rewrite Hbm. unfold BlockHeaderOf. rewrite Hbh, Hbmh.
       erewrite bind_run by done. erewrite bind_run by done. rewrite bool_decide_eq_false_2 by (intros Hn; by apply Hn).
       unfold of_res. rewrite Hp1, Hp2. done. }
  rewrite restart_height. unfold setBlockQuorumCertificate.
  match goal with |- context [modify ?g] => set (upd := g) end.
  assert ((get ≫= (fun m => BlockHeaderOf (block m) ;; modify upd)) m = (Ok tt, upd m)) as Hset.
  { rewrite bind_get, Hbm. unfold BlockHeaderOf. rewrite Hbmh. done. }
  erewrite bind_run by exact Hset. rewrite bind_get.
  assert (block (upd m) = Some (withQC qcBytes bm)) as -> by (cbn; by rewrite Hbm).
  edestruct (commitBlock_run (upd m) (withQC qcBytes bm)) as (m2 & Hcm & Hh2 & Hpools & _ & Hw).
  { cbn. by rewrite Hbmh. }
  { exact Hu. }
  { cbn. exact Hc. }
  { exact Hr. }
  exists (upd m), m2. split; [exact Hcm|]. split; [done|]. split; [done|].
  unfold onError. rewrite Hcm. rewrite new_height_run; [by rewrite Hh2|].
  intros st Hin. rewrite Hpools. by apply Hpool.
Qed.
End safety.

(** ** Witnesses: four validators, node 2 a replica in its DECIDE step *)
Section witnesses.
#[local] Existing Instances ToyCrypto.prims NodeToy.hcodec NodeToy.pum NodeToy.uowOps.
Import NodeToy.

Definition demoBlock : Block := blockWith "state".
Definition otherBlock : Block := blockWith "other".
Definition uowAndWorld : res string Node.Uow * Node.Modules := Node.NewUnitOfWork 1 false modules.
Definition demoUow : Node.Uow := match uowAndWorld.1 with
  | Ok u => u
  | _ => {| Node.leaderUow := false; Node.base := UnitOfWork.UnitOfWork.newUOW 0 genesis genesis |}
  end.
Definition atDecide : consensusModule Node.Modules Node.Uow :=
  set_leaderId (Some 1) (set_step Decide (set_utilityUnitOfWork (Some demoUow) (set_world uowAndWorld.2 (start 2)))).
Definition decideNode : consensusModule Node.Modules Node.Uow := set_block (Some demoBlock) atDecide.

(** The certificate is for another block and for the PREPARE step. *)
Definition foreignQC : QuorumCertificate := qcBy Prepare otherBlock [1; 3; 4]%nat.
Definition decideMsg : HotstuffMessage := {| hm_Type := Propose; hm_Height := 1; hm_Step := Decide; hm_Round := 0;
  hm_Block := Some demoBlock; hm_Justification := JQuorumCertificate foreignQC |}.

Lemma node_never_goes_back_witness :
  hrLe decideNode (handleHotstuffMessage (cfg 2) decideMsg decideNode).2 /\ hrLe decideNode (InterruptRound decideNode).2.
Proof.
  destruct (node_never_goes_back (cfg 2) decideNode decideMsg) as [H1 H2].
  - unfold inRange. change (height decideNode) with 1. change (round decideNode) with 0. lia.
  - cbn. lia.
  - split; [apply H1; vm_compute; congruence|exact H2].
Defined.

Lemma height_advances_with_quorum_witness :
  height (handleHotstuffMessage (cfg 2) decideMsg decideNode).2 = 2 /\
  exists qc, GetQuorumCertificate decideMsg = Some qc /\ 2 * 4 < 3 * Z.of_nat (length (validSigs validators qc)).
Proof.
  destruct (height_advances_with_quorum (cfg 2) decideMsg decideNode validators) as [H1 [[_ H2]|[H2 _]]].
  - vm_compute. reflexivity.
  - vm_compute. reflexivity.
  - vm_compute. congruence.
  - split; [rewrite H1; reflexivity|exact H2].
  - discriminate H2.
Defined.

Definition lockedNode : consensusModule Node.Modules Node.Uow :=
  set_lockedQC (Some (qcBy PreCommit demoBlock [1; 2; 3]%nat)) (start 2).
Definition prepareMsg (j : Justification) : HotstuffMessage := {| hm_Type := Propose; hm_Height := 1; hm_Step := Prepare;
  hm_Round := 7; hm_Block := Some otherBlock; hm_Justification := j |}.

Lemma locked_replica_stays_locked_witness :
  validateProposal (prepareMsg JNone) lockedNode = (Panic, lockedNode) /\
  validateProposal (prepareMsg (JQuorumCertificate (qcBy Prepare otherBlock [1; 2; 3]%nat))) lockedNode ≠ (Ok tt, lockedNode).
Proof.
  split.
  - apply (locked_replica_stays_locked (prepareMsg JNone) lockedNode (qcBy PreCommit demoBlock [1; 2; 3]%nat) (base64Encode "state"));
      vm_compute; reflexivity.
  - intros Hok. apply (locked_replica_stays_locked (prepareMsg (JQuorumCertificate (qcBy Prepare otherBlock [1; 2; 3]%nat)))
      lockedNode (qcBy PreCommit demoBlock [1; 2; 3]%nat) (base64Encode "state")) in Hok as [_ Hh]; [|vm_compute; reflexivity..].
    vm_compute in Hh. discriminate Hh.
Defined.

Lemma decide_without_block_panics_witness : (replica_HandleDecideMessage (cfg 2) decideMsg atDecide).1 = Panic.
Proof.
  apply (decide_without_block_panics (cfg 2) decideMsg atDecide demoBlock foreignQC (bigIntText 1));
    vm_compute; (reflexivity || congruence).
Defined.

Definition committed : res string unit * (Node.Uow * Node.Modules) :=
  UowCommit (Some (bigIntText 1)) (demoUow, uowAndWorld.2).
Definition demoHeader : BlockHeader := {| bh_Height := 1; bh_NetworkId := ""; bh_StateHash := "state";
  bh_PrevStateHash := "genesis"; bh_ProposerAddress := Some (addr 1); bh_QuorumCertificate := None; bh_Timestamp := 0 |}.

Lemma decide_commits_any_certificate_witness :
  qc_Block foreignQC ≠ Some demoBlock /\ height (replica_HandleDecideMessage (cfg 2) decideMsg decideNode).2 = 2.
Proof.
  split; [vm_compute; congruence|].
  destruct (decide_commits_any_certificate (cfg 2) decideMsg decideNode demoBlock demoHeader demoBlock demoHeader
    demoUow committed.2.1 committed.2.2 foreignQC (bigIntText 1) (base64Encode "state") (base64Encode "state"))
    as (m1 & m2 & _ & _ & _ & Hh); [try (vm_compute; (reflexivity || congruence))..|rewrite Hh; reflexivity].
  unfold poolsReady. intros st Hst. unfold HotstuffSteps in Hst.
  repeat (apply elem_of_cons in Hst as [->|Hst]; [by eexists|]). by apply not_elem_of_nil in Hst.
Defined.
End witnesses.
End ConsSafety.
