(* ===== verification/NodeSafety.v ===== *)
(** The consensus module on top of the unit of work: what the interfaces of [Consensus] and
    their implementation in [Node] give together. *)

From S2P Require Import Prelude GoStd Errors Crypto CoreTypes Messages Sql Persistence FifoSet TxMempool UnitOfWork UowTx Fsm FifoList HotstuffMempool ConsTypes Consensus ConsFrame ConsQuorum ConsSafety Node.
#[local] Open Scope string_scope.
#[local] Open Scope Z_scope.

Module NodeSafety.
Import Consensus ConsFrame ConsSafety.

Section accept.
Context `{CryptoPrims} `{Codec} `{HotstuffCodec} `{Fsm.FsmLib}.
Context (treesUpdate : DB -> TxIndexer -> Z -> res string string) (order1 order2 : list Z) (now : Z) (genesis : PostgresContext).
Context (cfg : Config).

#[local] Instance pum : PersistenceUtilityModules Node.Modules Node.Uow := Node.nodeModules genesis.
#[local] Instance uows : UtilityUnitOfWork Node.Modules Node.Uow := Node.nodeUow treesUpdate order1 order2 now.
Implicit Types (m : consensusModule Node.Modules Node.Uow).

#[local] Instance block_local : Local (@block Node.Modules Node.Uow).
Proof. by constructor. Qed.
#[local] Hint Resolve block_local : keeps.

Lemma keeps_block_interrupt e : keeps (@block Node.Modules Node.Uow) (interrupt e).
Proof.
  assert (forall qc, keeps (@block Node.Modules Node.Uow) (startNextView qc false)) as Hs
    by (intros qc; by apply keeps_startNextView).
  unfold interrupt, InterruptRound, SetRound. solve_local; apply Hs.
Qed.

Lemma restart_block (p : M (consensusModule Node.Modules Node.Uow) ConsErr unit) m :
  block ((p ;; RestartTimer) m).2 = block (p m).2.
Proof. rewrite bind_eq. by destruct (p m) as [[[]|e|] m1]. Qed.
Lemma keeps_discard e : keeps (@block Node.Modules Node.Uow) (discard e).
Proof. by intros m. Qed.
Lemma onError_run {A} (p : M (consensusModule Node.Modules Node.Uow) ConsErr A) h k m a m1 :
  p m = (Ok a, m1) -> onError p h k m = k a m1.
Proof. unfold onError. by intros ->. Qed.

(** The state a block is executed in: the unit of work [u] of the node with the block set as
    the proposal, and the transaction mempool of the node. *)
Definition proposedIn (u : Node.Uow) (w : Node.Modules) (header : BlockHeader) (b : Block) : UnitOfWork.US := {|
  UnitOfWork.uow :=
    (UnitOfWork.SetProposalBlock (bh_StateHash header) (bh_ProposerAddress header) (b_Transactions b) (Node.base u)).2;
  UnitOfWork.mempool := Node.txMempool w |}.

(** A block that [applyBlock] accepts. *)
Lemma applyBlock_inv b m m' :
  applyBlock b m = (Ok tt, m') ->
  exists header u u' s2, b_Header b = Some header /\ bh_StateHash header ≠ "" /\
    utilityUnitOfWork m = Some u /\ utilityUnitOfWork m' = Some u' /\
    UnitOfWork.GetStateHash (Node.base u') = bh_StateHash header /\
    UowTx.runs_checked 0 (b_Transactions b) (proposedIn u (world m) header b) s2.
Proof.
  unfold applyBlock. rewrite bind_get. destruct (utilityUnitOfWork m) as [u|] eqn:Hu; [|done].
  intros Hrun. apply bind_ok in Hrun as (header & m1 & Hh & Hrun).
  assert (b_Header b = Some header /\ m1 = m) as [Hb ->].
  { unfold BlockHeaderOf in Hh. destruct (b_Header b); [|done]. by injection Hh as -> ->. }
  apply bind_ok in Hrun as ([] & m1 & Hset & Hrun). injection Hset as <-.
  rewrite bind_get in Hrun. cbn [utilityUnitOfWork set_world set_utilityUnitOfWork] in Hrun.
  apply bind_ok in Hrun as ([] & m2 & Happ & Hrun). unfold onUow in Happ. cbn [world set_world] in Happ.
  cbn [ApplyBlock uows Node.nodeUow] in Happ. unfold Node.onUowMempool in Happ.
  cbn [Node.base UnitOfWork.uow UnitOfWork.mempool] in Happ.
  match type of Happ with context [UnitOfWork.ApplyBlock _ _ _ ?s] => set (s0 := s) in Happ end.
  destruct (UnitOfWork.ApplyBlock treesUpdate order1 order2 s0) as [[[]|e|] s1] eqn:Hab; [|done..].
  injection Happ as <-. rewrite bind_get in Hrun. cbn [utilityUnitOfWork set_world set_utilityUnitOfWork] in Hrun.
  destruct (UowTx.apply_block_sound treesUpdate _ _ _ _ Hab) as (His & [s2 Hall] & _).
  cbn [GetStateHash uows Node.nodeUow Node.base] in Hrun.
  case_bool_decide as Hne; [done|]. injection Hrun as <-.
  exists header, u, {| Node.leaderUow := Node.leaderUow u; Node.base := UnitOfWork.uow s1 |}, s2.
  split; [done|]. split; [|split; [done|split; [done|split]]].
  - unfold UnitOfWork.isProposalBlockSet in His. apply andb_prop in His as [His _]. by apply bool_decide_eq_true in His.
  - destruct (decide (bh_StateHash header = UnitOfWork.GetStateHash (UnitOfWork.uow s1))); done.
  - exact Hall.
Qed.

Lemma keeps_all_validateProposal {X} (f : consensusModule Node.Modules Node.Uow -> X) msg : keeps f (validateProposal msg).
Proof. pose proof (@keeps_all_validateQC Node.Modules Node.Uow _ _ _ X f). unfold validateProposal. solve_keeps. Qed.

(** C5: a replica accepts only blocks it has checked.  If handling a PREPARE proposal makes
    a node take up another block, that block is the proposed one and the proposal passed
    [validateProposal]; the transactions of the block were executed one after the other in the
    node's unit of work, and each of them decodes, passes [ValidateBasic] (so its signature
    verifies) and is signed by a key that is authorised in the state in which it was
    executed; and the state hash the unit of work computed is the one in the block's
    header. *)
Theorem replica_accepts_checked_blocks msg m :
  block (replica_HandlePrepareMessage cfg msg m).2 ≠ block m ->
  exists b header m2 u u' s2, hm_Block msg = Some b /\ b_Header b = Some header /\
    validateProposal msg m = (Ok tt, m) /\ applyBlock b m = (Ok tt, m2) /\
    utilityUnitOfWork m = Some u /\
    UowTx.runs_checked 0 (b_Transactions b) (proposedIn u (world m) header b) s2 /\
    utilityUnitOfWork m2 = Some u' /\ UnitOfWork.GetStateHash (Node.base u') = bh_StateHash header /\
    bh_StateHash header ≠ "" /\
    block (replica_HandlePrepareMessage cfg msg m).2 = Some b.
Proof.
  unfold replica_HandlePrepareMessage, replica_anteHandle. rewrite !restart_block. intros Hne.
  assert (Hkeep := Hne). apply onError_changes in Hkeep as ([] & m0 & Ha & _ & Hne1); [|solve_local|intros ?; by apply keeps_discard].
  pose proof (keeps_all_ante cfg (fun m => m) msg m) as Hm. rewrite Ha in Hm. cbn in Hm. subst m0.
  rewrite (onError_run _ _ _ _ _ _ Ha).
  apply onError_changes in Hne1 as ([] & m1 & Hval & Hb1 & Hne2); [|solve_local|apply keeps_block_interrupt].
  rewrite (onError_run _ _ _ _ _ _ Hval).
  pose proof (keeps_all_validateProposal (fun m => m) msg m) as Hm. rewrite Hval in Hm. cbn in Hm. subst m1.
  destruct (hm_Block msg) as [b|] eqn:Hb; [|done].
  apply onError_changes in Hne2 as ([] & m2 & Happ & Hb2 & Hne3); [|solve_local|apply keeps_block_interrupt].
  rewrite (onError_run _ _ _ _ _ _ Happ).
  destruct (applyBlock_inv b m m2 Happ) as (header & u & u' & s2 & Hh & Hnz & Hu & Hu' & Hsh & Hall).
  exists b, header, m2, u, u', s2. repeat (split; [done|]).
  unfold SetBlock, SetStep. rewrite !bind_modify. rewrite (keeps_vote cfg (@block Node.Modules Node.Uow) Prepare). done.
Qed.
End accept.

(** ** Witness: a block with one transfer *)
Section witness.
Import NodeToy.

Definition txBlock : Block := {|
  b_Header := Some {| bh_Height := 1; bh_NetworkId := ""; bh_StateHash := "root"; bh_PrevStateHash := "genesis";
    bh_ProposerAddress := Some (addr 1); bh_QuorumCertificate := None; bh_Timestamp := 0 |};
  b_Transactions := ["17"] |}.
Definition proposal : HotstuffMessage := {| hm_Type := Propose; hm_Height := 1; hm_Step := Prepare; hm_Round := 0;
  hm_Block := Some txBlock; hm_Justification := JNone |}.
Definition atPrepare : consensusModule Node.Modules Node.Uow :=
  match Node.NewUnitOfWork 1 false modules with
  | (Ok u, w) => set_leaderId (Some 1) (set_step Prepare (set_utilityUnitOfWork (Some u) (set_world w (start 2))))
  | _ => start 2
  end.

(** The transfer is checked in the unit of work of the node. *)
Lemma replica_accepts_checked_blocks_witness :
  exists u, utilityUnitOfWork atPrepare = Some u /\
    @UowTx.tx_checked ToyCrypto.prims ToyCodec.codec
      (UnitOfWork.SetProposalBlock "root" (Some (addr 1)) ["17"] (Node.base u)).2 "17".
Proof.
  destruct (@replica_accepts_checked_blocks ToyCrypto.prims ToyCodec.codec hcodec Fsm.refFsm treesUpdate [] [] 0 genesis
    (cfg 2) proposal atPrepare) as (b & header & m2 & u & u' & s2 & Hb & Hh & _ & _ & Hu & Hall & _).
  - vm_compute. congruence.
  - injection Hb as <-. injection Hh as <-. exists u. split; [exact Hu|].
    inversion Hall as [|i b txs s s1 s2' Hc _ _]. exact Hc.
Defined.
End witness.
End NodeSafety.
