(* ===== verification/ConsVotes.v ===== *)
(** Votes: no validator votes twice in one view, and what follows for a network of them.

    The view of a node is its height, round and step.  A replica casts its vote for a step when
    it leaves the step, a leader when it enters it, so the votes of a node are always in views
    before its own, or in its own view if it leads.  The invariant is kept by every event that a
    node handles, whatever the messages contain, as long as no counter wraps around. *)

From S2P Require Import Prelude GoStd Errors Crypto CoreTypes Messages Sql Persistence FifoList HotstuffMempool ConsTypes Consensus ConsFrame ConsQuorum ConsSafety Node.

#[local] Open Scope Z_scope.

Module ConsVotes.
Import Consensus ConsFrame.

Abbreviation View := (Z * Z * Z)%type.
Definition viewLt (a b : View) : Prop :=
  a.1.1 < b.1.1 \/ (a.1.1 = b.1.1 /\ (a.1.2 < b.1.2 \/ (a.1.2 = b.1.2 /\ a.2 < b.2))).
Definition voteView (msg : HotstuffMessage) : View := (hm_Height msg, hm_Round msg, hm_Step msg).

(** The votes among the messages a node has sent. *)
Definition asVote (out : bytes * OutMsg) : option HotstuffMessage :=
  match out.2 with
  | OHotstuff msg => if bool_decide (hm_Type msg = Vote) then Some msg else None
  | OStateSync _ => None
  end.
Definition votesOf : list (bytes * OutMsg) -> list HotstuffMessage := omap asVote.

(** What the votes of a node depend on. *)
Record VoteState := { vs_view : View; vs_leader : option Z; vs_votes : list HotstuffMessage }.

Section votes.
Context {W U : Type} `{CryptoPrims} `{HC : HotstuffCodec} `{PersistenceUtilityModules W U} `{UtilityUnitOfWork W U}.
Context (cfg : Config).
Implicit Types (m : consensusModule W U) (msg : HotstuffMessage) (v : VoteState).
Abbreviation CM := (M (consensusModule W U) ConsErr).

Definition votes m : list HotstuffMessage := votesOf (sent m).
Definition voteState m : VoteState :=
  {| vs_view := (height m, round m, step m); vs_leader := leaderId m; vs_votes := votes m |}.
(** The same without the leader. *)
Definition viewVotes m : View * list HotstuffMessage := ((height m, round m, step m), votes m).

#[local] Instance voteState_quiet : Quiet voteState.
Proof. by constructor. Qed.
#[local] Instance viewVotes_quiet : Quiet viewVotes.
Proof. by constructor. Qed.
#[local] Hint Resolve voteState_quiet viewVotes_quiet : keeps.

(** ** The invariant *)
Definition once v : Prop := NoDup (voteView <$> vs_votes v).
Definition allBefore (b : View) v : Prop := forall msg, msg ∈ vs_votes v -> viewLt (voteView msg) b.
Definition leads v : Prop := vs_leader v = Some (nodeId cfg).
Definition stepInRange v : Prop := 0 <= (vs_view v).2 < 256.

(** Every vote is in an earlier round; in an earlier view; or in the view that the node leads. *)
Definition young v : Prop := once v /\ allBefore ((vs_view v).1, 0) v /\ stepInRange v.
Definition fresh v : Prop := once v /\ allBefore (vs_view v) v /\ stepInRange v.
Definition inv v : Prop :=
  once v /\ (forall msg, msg ∈ vs_votes v -> viewLt (voteView msg) (vs_view v) \/ (voteView msg = vs_view v /\ leads v)) /\
  stepInRange v.
(** The counters are not about to wrap around. *)
Definition calm v : Prop := 0 <= (vs_view v).1.1 < 2 ^ 64 - 1 /\ 0 <= (vs_view v).1.2 < 2 ^ 64 - 1.

Lemma young_fresh v : young v -> fresh v.
Proof.
  intros (Ho & Hb & Hs). split_and!; [done| |done]. intros msg Hm. specialize (Hb msg Hm). unfold viewLt, stepInRange in *. cbn in *. lia.
Qed.
Lemma fresh_inv v : fresh v -> inv v.
Proof. intros (Ho & Hb & Hs). split_and!; [done| |done]. intros msg Hm. left. by apply Hb. Qed.
Lemma inv_fresh v : inv v -> ~ leads v -> fresh v.
Proof. intros (Ho & Hb & Hs) Hl. split_and!; [done| |done]. intros msg Hm. by destruct (Hb msg Hm) as [?|[_ ?]]. Qed.
Lemma inv_once v : inv v -> once v.
Proof. by intros []. Qed.
#[local] Hint Resolve young_fresh fresh_inv inv_once : core.

(** A later view makes every vote old. *)
Lemma inv_later v v' :
  inv v -> vs_votes v' = vs_votes v -> viewLt (vs_view v) (vs_view v') -> stepInRange v' -> fresh v'.
Proof.
  intros (Ho & Hb & Hs) Hv Hlt Hs'. unfold fresh, once, allBefore. rewrite Hv. split_and!; [done| |done].
  intros msg Hm. destruct (Hb msg Hm) as [Hl|[-> _]]; [|done]. unfold viewLt in *. lia.
Qed.
Lemma inv_later_round v v' :
  inv v -> vs_votes v' = vs_votes v ->
  (vs_view v).1.1 < (vs_view v').1.1 \/ ((vs_view v).1.1 = (vs_view v').1.1 /\ (vs_view v).1.2 < (vs_view v').1.2) ->
  stepInRange v' -> young v'.
Proof.
  intros (Ho & Hb & Hs) Hv Hlt Hs'. unfold young, once, allBefore. rewrite Hv. split_and!; [done| |done].
  intros msg Hm. destruct (Hb msg Hm) as [Hl|[He _]].
  - unfold viewLt in *. cbn [fst snd]. lia.
  - unfold viewLt. rewrite He. cbn [fst snd]. lia.
Qed.

(** ** Sending *)
Lemma votesOf_app l1 l2 : votesOf (l1 ++ l2) = votesOf l1 ++ votesOf l2.
Proof. apply omap_app. Qed.

Lemma keeps_send_proposal (dst : bytes) msg : hm_Type msg ≠ Vote -> keeps voteState (send dst (OHotstuff msg) : CM unit).
Proof.
  intros Ht. apply keeps_modify. intros m. unfold voteState, votes. cbn. rewrite votesOf_app. cbn.
  rewrite bool_decide_eq_false_2 by done. by rewrite app_nil_r.
Qed.
Lemma keeps_broadcast_proposal msg : hm_Type msg ≠ Vote -> keeps voteState (broadcastToValidators msg).
Proof.
  intros Ht. unfold broadcastToValidators. pose proof (fun dst => keeps_send_proposal dst msg Ht). solve_local.
Qed.
Lemma keeps_broadcast_encoded `{!HotstuffCodecLaws HC} msg b :
  hm_Type msg ≠ Vote -> marshalMsg msg = Some b -> keeps voteState (BroadcastMessageToValidators b).
Proof.
  intros Ht Hb. destruct (codec_msg_view msg b Hb) as (msg' & Hu & Ht' & _).
  unfold BroadcastMessageToValidators. rewrite Hu. apply keeps_broadcast_proposal. by rewrite Ht'.
Qed.

(** Sending a vote, if the leader is known. *)
Definition cast (h r st : Z) (l l' : list HotstuffMessage) : Prop :=
  l' = l \/ exists msg, hm_Type msg = Vote /\ voteView msg = (h, r, st) /\ l' = l ++ [msg].

Lemma vote_casts st m : let v := voteState (vote cfg st m).2 in
  vs_view v = vs_view (voteState m) /\ vs_leader v = leaderId m /\ cast (height m) (round m) st (votes m) (vs_votes v).
Proof.
  unfold vote, CreateVoteMessage. rewrite bind_get. destruct (block m) as [b|]; [|split_and!; [done..|by left]].
  unfold onError, of_res. match goal with |- context [sendToLeader ?x] => set (msg := x) end.
  unfold sendToLeader. rewrite bind_get. destruct (leaderId m) as [l|] eqn:Hl; [|split_and!; [done..|by left]].
  destruct (marshalMsg msg) as [bz|]; [|split_and!; [done..|by left]].
  rewrite bind_eq. pose proof (keeps_validatorsOrNone (fun m => m) (CurrentHeight m) m) as Hk.
  destruct (validatorsOrNone (CurrentHeight m) m) as [[vals|e|] m1]; cbn in Hk; subst m1; [|split_and!; [done..|by left]..].
  unfold of_module, of_res. destruct (AddressFromString _) as [dst|e|]; [|split_and!; [done..|by left]..].
  cbn. split_and!; [done..|]. right. exists msg. split_and!; [done..|]. unfold votes. apply votesOf_app.
Qed.

(** ** Programs that end in the invariant *)

(** From a state in [P] the program ends in the invariant; if it ends the process, the votes
    sent until then are still in different views. *)
Definition sure {A} (P : VoteState -> Prop) (p : CM A) : Prop := forall m, P (voteState m) ->
  match p m with
  | (Panic, m') => once (voteState m')
  | (_, m') => inv (voteState m')
  end.

Lemma sure_kept {A} P (p : CM A) : (forall v, P v -> inv v) -> keeps voteState p -> sure P p.
Proof. intros HP Hk m Hm. specialize (Hk m). apply HP in Hm. destruct (p m) as [[a|e|] m']; cbn in Hk; rewrite Hk; auto. Qed.
Lemma sure_bind {A B} P (p : CM A) (k : A -> CM B) :
  (forall v, P v -> inv v) -> keeps voteState p -> (forall a, sure P (k a)) -> sure P (p ≫= k).
Proof.
  intros HP Hp Hk m Hm. specialize (Hp m). rewrite bind_eq. destruct (p m) as [[a|e|] m1]; cbn in Hp; rewrite <- Hp in Hm.
  - by apply Hk.
  - by apply HP.
  - by apply inv_once, HP.
Qed.
Lemma sure_onError {A} P (p : CM A) h k :
  keeps voteState p -> (forall e, sure P (h e)) -> (forall a, sure P (k a)) -> (forall v, P v -> inv v) -> sure P (onError p h k).
Proof.
  intros Hp Hh Hk HP m Hm. specialize (Hp m). unfold onError. destruct (p m) as [[a|e|] m1]; cbn in Hp; rewrite <- Hp in Hm.
  - by apply Hk.
  - by apply Hh.
  - by apply inv_once, HP.
Qed.
Lemma sure_restart P (p : CM unit) : sure P p -> sure P (p ;; RestartTimer).
Proof. intros Hp m Hm. specialize (Hp m Hm). rewrite bind_eq. by destruct (p m) as [[[]|e|] m1]. Qed.
Lemma sure_weaken {A} (P Q : VoteState -> Prop) (p : CM A) : (forall v, P v -> Q v) -> sure Q p -> sure P p.
Proof. intros HPQ Hp m Hm. by apply Hp, HPQ. Qed.
Lemma sure_SetStep (P Q : VoteState -> Prop) st (k : CM unit) :
  (forall v, P v -> Q {| vs_view := ((vs_view v).1, st); vs_leader := vs_leader v; vs_votes := vs_votes v |}) ->
  sure Q k -> sure P (SetStep st ;; k).
Proof. intros HPQ Hk m Hm. unfold SetStep. rewrite bind_modify. apply Hk. by apply HPQ in Hm. Qed.

(** *** View changes *)
#[local] Hint Extern 1 (maintains _ _ (modify _)) => apply maintains_modify : maintains.

Lemma maintains_kept {A} (P : VoteState -> Prop) (p : CM A) : keeps voteState p -> maintains (fun m => P (voteState m)) anything p.
Proof. intros Hk m Hm. split; [|by destruct (p m).1]. unfold keeps in Hk. by rewrite Hk. Qed.

Lemma clear_never_fails m e : (clearMessagesPool m).1 ≠ Err e.
Proof.
  unfold clearMessagesPool. revert m. induction HotstuffSteps as [|st l IH]; intros m; [done|]. cbn [forM].
  rewrite bind_eq. unfold onPool. destruct (hotstuffMempool m !! st) as [p|]; [|done]. apply IH.
Qed.

Definition youngNode m : Prop := young (voteState m).
Lemma young_step st m : 0 <= st < 256 -> youngNode m -> youngNode (set_step st m).
Proof. intros Hst (Ho & Hb & Hs). by split_and!. Qed.

Section views.
Context `{!HotstuffCodecLaws HC}.

Lemma maintains_ResetRound : maintains youngNode anything (ResetRound false).
Proof.
  unfold ResetRound. apply (maintains_bind _ anything); [by apply maintains_modify|intros _ _].
  apply (maintains_bind _ anything); [apply maintains_kept; solve_local|intros _ _].
  apply (maintains_bind _ anything); [|intros _ _; by apply maintains_ret].
  apply maintains_modify. intros m. by apply young_step.
Qed.

Lemma maintains_startNextView qc force : maintains youngNode anything (startNextView qc force).
Proof.
  unfold startNextView. apply (maintains_bind _ anything); [apply maintains_ResetRound|intros _ _].
  apply (maintains_bind _ anything); [apply maintains_kept; solve_local|intros _ _].
  apply (maintains_bind _ anything); [apply maintains_modify; intros m; by apply young_step|intros _ _].
  apply (maintains_bind _ anything); [by intros s Hs|intros m _].
  apply (maintains_bind _ anything); [|intros _ _; by apply maintains_modify].
  destruct (_ && _); [by apply maintains_modify|].
  match goal with |- context [marshalMsg ?x] => destruct (marshalMsg x) as [b|] eqn:Hb end; [|by apply maintains_ret].
  apply maintains_kept, keeps_logError. eapply keeps_broadcast_encoded; [|exact Hb]. discriminate.
Qed.

Lemma next_round_young m : inv (voteState m) -> calm (voteState m) -> youngNode (set_round (u64 (CurrentRound m + 1)) m).
Proof.
  intros Hi [Hh Hr]. assert (stepInRange (voteState m)) as Hs by apply Hi. cbn in Hh, Hr.
  apply (inv_later_round (voteState m)); [done..| |done]. cbn. rewrite u64_small; unfold in_u64, CurrentRound; lia.
Qed.

(** After a view change every vote is in an earlier round. *)
Definition moved (r : res ConsErr unit) m' : Prop := match r with Panic => once (voteState m') | _ => youngNode m' end.

Lemma interrupt_moves m : inv (voteState m) -> calm (voteState m) -> moved (InterruptRound m).1 (InterruptRound m).2.
Proof.
  intros Hi Hc. unfold InterruptRound, SetRound. rewrite bind_get, bind_modify.
  match goal with |- moved (?p _).1 _ => assert (maintains youngNode anything p) as Hm end.
  { apply (maintains_bind _ anything); [|intros _ _; by apply maintains_modify].
    destruct (IsPrepareQCNil m); [apply maintains_startNextView|].
    intros m1 Hm1. unfold onError. assert (keeps voteState (GetPrepareQC : CM bytes)) as Hk by solve_local. specialize (Hk m1).
    assert (youngNode (GetPrepareQC m1).2) as Hm2 by (unfold youngNode; by rewrite Hk).
    destruct (GetPrepareQC m1) as [[b|e|] m2]; [|done..]. destruct (unmarshalQC b) as [qc|]; [by apply maintains_startNextView|done]. }
  destruct (Hm _ (next_round_young m Hi Hc)) as [Hy _].
  match goal with |- moved (?x).1 _ => destruct x as [[?|?|] m'] end; cbn in *; [done..|apply Hy].
Qed.

Lemma new_height_moves m : inv (voteState m) -> calm (voteState m) -> moved (NewHeight m).1 (NewHeight m).2.
Proof.
  intros Hi [Hh Hr]. cbn in Hh, Hr. unfold NewHeight, ResetRound, SetBlock, SetHeight, publishNewHeightEvent, get. cbv iota.
  assert (keeps voteState (clearMessagesPool : CM unit)) as Hc by solve_local. specialize (Hc (set_leaderId None m)).
  pose proof (clear_never_fails (set_leaderId None m)) as Hne. unfold mbind, M_bind, modify in *.
  destruct (clearMessagesPool (set_leaderId None m)) as [[[]|e|] m1]; cbn in Hc, Hne |- *; [|by destruct (Hne e)|].
  2: { unfold once. rewrite Hc. apply Hi. }
  match goal with |- context [startNextView None false ?s] => set (m2 := s) end.
  assert (youngNode m2) as Hy.
  { apply (inv_later_round (voteState m)); [done| | |done].
    - by apply (f_equal vs_votes) in Hc.
    - apply (f_equal vs_view) in Hc. injection Hc as E1 E2 E3. cbn. unfold CurrentHeight. cbn. rewrite E1.
      left. rewrite u64_small; unfold in_u64; lia. }
  destruct (maintains_startNextView None false m2 Hy) as [Hy' _].
  destruct (startNextView None false m2) as [[[]|e|] m3]; cbn in *; [done..|apply Hy'].
Qed.

Lemma sure_InterruptRound : sure (fun v => inv v /\ calm v) InterruptRound.
Proof. intros m [Hi Hc]. pose proof (interrupt_moves m Hi Hc) as Hm. destruct (InterruptRound m) as [[?|?|] m']; cbn in Hm; auto. Qed.
Lemma sure_NewHeight : sure (fun v => inv v /\ calm v) NewHeight.
Proof. intros m [Hi Hc]. pose proof (new_height_moves m Hi Hc) as Hm. destruct (NewHeight m) as [[?|?|] m']; cbn in Hm; auto. Qed.

(** *** Voting *)

(** Before a vote for step [st]: every vote is in an earlier view than that, and the node has
    left the step, or it leads it. *)
Definition mayVote (st : Z) v : Prop :=
  once v /\ allBefore ((vs_view v).1, st) v /\ (st < (vs_view v).2 \/ (st = (vs_view v).2 /\ leads v)) /\ stepInRange v.

Lemma mayVote_inv st v : mayVote st v -> inv v.
Proof.
  intros (Ho & Hb & Hst & Hs). split_and!; [done| |done]. intros msg Hm. left. specialize (Hb msg Hm).
  unfold viewLt in *. cbn [fst snd] in Hb. lia.
Qed.
#[local] Hint Resolve mayVote_inv : core.

Lemma sure_vote st : sure (mayVote st) (vote cfg st).
Proof.
  intros m (Ho & Hb & Hst & Hs). destruct (vote_casts st m) as (Hv & Hl & Hc). cbn zeta in *.
  assert (inv (voteState (vote cfg st m).2)) as Hi; [|destruct (vote cfg st m) as [[?|?|] m']; cbn in Hi; auto].
  destruct Hc as [Hc|(msg & Ht & Hvw & Hc)]; unfold inv, once, stepInRange, leads in *; rewrite Hv, Hl, Hc.
  - apply (mayVote_inv st (voteState m)). by split_and!.
  - split_and!; [| |apply Hs..].
    + rewrite fmap_app. apply NoDup_app. split_and!; [done| |apply NoDup_singleton].
      intros w (msg' & -> & Hm)%list_elem_of_fmap [Heq|[]%not_elem_of_nil]%elem_of_cons. specialize (Hb msg' Hm).
      rewrite Heq, Hvw in Hb. unfold viewLt in Hb. cbn in Hb. lia.
    + intros msg' [Hm|Hm]%elem_of_app.
      * left. specialize (Hb msg' Hm). unfold viewLt in *. cbn [fst snd] in *. lia.
      * apply list_elem_of_singleton in Hm as ->. rewrite Hvw. cbn in *. unfold viewLt. cbn.
        destruct Hst as [Hst|[-> Hld]]; [left; lia|right; done].
Qed.

(** *** The handlers *)
Lemma keeps_propose_message st qc msg m :
  CreateProposeMessage (height m) (round m) st (block m) qc = Ok msg -> hm_Type msg ≠ Vote.
Proof. unfold CreateProposeMessage. destruct (block m), qc; try done; [|case_bool_decide; [done|]]; by intros [= <-]. Qed.

Lemma sure_propose P st qc (k : CM unit) :
  (forall v, P v -> inv v /\ calm v) -> sure P k -> sure P (propose st qc k).
Proof.
  intros HP Hk m Hm. unfold propose. rewrite bind_get. unfold onError, of_res.
  destruct (CreateProposeMessage _ _ _ _ _) as [msg|e|] eqn:Hc.
  - apply (sure_bind P); [intros v Hv; by apply HP| |done|done]. by eapply keeps_broadcast_proposal, keeps_propose_message.
  - apply sure_InterruptRound. by apply HP.
  - apply inv_once. by apply HP.
Qed.

Definition readyReplica (st : Z) v : Prop := fresh v /\ calm v /\ (vs_view v).2 = st.
Definition readyLeader (st : Z) v : Prop := inv v /\ calm v /\ (vs_view v).2 = st /\ leads v.
Lemma readyReplica_ok st v : readyReplica st v -> inv v /\ calm v.
Proof. intros (Hf & Hc & _). auto. Qed.
Lemma readyLeader_ok st v : readyLeader st v -> inv v /\ calm v.
Proof. by intros (Hf & Hc & _). Qed.

(** A replica votes for the step it leaves, a leader for the step it enters. *)
Lemma replica_leaves st st' v : st < st' < 256 -> readyReplica st v ->
  mayVote st {| vs_view := ((vs_view v).1, st'); vs_leader := vs_leader v; vs_votes := vs_votes v |}.
Proof.
  intros Hst ((Ho & Hb & Hs) & _ & Heq). unfold mayVote, stepInRange in *.
  split_and!; cbn [fst snd vs_view]; [done| |left; lia|lia..].
  intros msg Hm. specialize (Hb msg Hm). destruct v as [[vw s] l vs]. cbn in Heq. by subst s.
Qed.
Lemma leader_enters st st' v : st < st' < 256 -> readyLeader st v ->
  mayVote st' {| vs_view := ((vs_view v).1, st'); vs_leader := vs_leader v; vs_votes := vs_votes v |} /\
  calm {| vs_view := ((vs_view v).1, st'); vs_leader := vs_leader v; vs_votes := vs_votes v |}.
Proof.
  intros Hst ((Ho & Hb & Hs) & Hc & Heq & Hl). split; [|done]. unfold mayVote, stepInRange in *.
  split_and!; cbn [fst snd vs_view]; [done| |right; done|lia..].
  intros msg Hm. destruct (Hb msg Hm) as [Hlt|[E _]]; unfold viewLt in *; [|rewrite E]; cbn [fst snd vs_view]; lia.
Qed.

Lemma keeps_vs_SetBlock b : keeps voteState (SetBlock b : CM unit).
Proof. by apply keeps_modify. Qed.
Lemma keeps_vs_setBlockQC b : keeps voteState (setBlockQuorumCertificate b : CM unit).
Proof. unfold setBlockQuorumCertificate. solve_local. Qed.
#[local] Hint Resolve keeps_vs_SetBlock keeps_vs_setBlockQC : keeps.

Ltac sure_step ok :=
  match goal with
  | |- sure _ (_ ≫= (fun _ => RestartTimer)) => apply sure_restart
  | |- sure _ (onError _ _ _) => apply sure_onError; [solve [solve_local]|intros ?|intros ?|intros ? ?; by eapply ok]
  | |- sure _ InterruptRound => eapply sure_weaken, sure_InterruptRound; intros ? ?; by eapply ok
  | |- sure _ (interrupt _) => eapply sure_weaken, sure_InterruptRound; intros ? ?; by eapply ok
  | |- sure _ NewHeight => eapply sure_weaken, sure_NewHeight; intros ? ?; by eapply ok
  | |- sure _ (discard _) => apply sure_kept; [intros ? ?; by eapply ok|by intros ?]
  | |- sure _ (match ?x with _ => _ end) => destruct x
  | |- sure _ (SetStep _ ≫= _) => fail
  | |- sure _ (_ ≫= _) => apply sure_bind; [intros ? ?; by eapply ok|solve [solve_local]|intros ?]
  | |- sure _ _ => apply sure_kept; [intros ? ?; by eapply ok|solve [solve_local]]
  end.

Lemma sure_replica st handler msg : replicaHandlers cfg st = Some handler -> sure (readyReplica st) (handler msg).
Proof.
  unfold replicaHandlers. intros Hh. repeat case_bool_decide; injection Hh as <- || discriminate Hh; subst st.
  - unfold replica_HandleNewRoundMessage, replica_anteHandle. repeat sure_step readyReplica_ok.
    intros m Hm. by eapply mayVote_inv, (replica_leaves NewRound Prepare (voteState m)).
  - unfold replica_HandlePrepareMessage, replica_anteHandle. repeat sure_step readyReplica_ok.
    eapply sure_SetStep; [intros v; by apply (replica_leaves Prepare PreCommit)|apply sure_vote].
  - unfold replica_HandlePrecommitMessage, replica_anteHandle. repeat sure_step readyReplica_ok.
    eapply sure_SetStep; [intros v; by apply (replica_leaves PreCommit Commit_)|].
    apply sure_bind; [by apply mayVote_inv|by apply keeps_modify|intros _; apply sure_vote].
  - unfold replica_HandleCommitMessage, replica_anteHandle. repeat sure_step readyReplica_ok.
    eapply sure_SetStep; [intros v; by apply (replica_leaves Commit_ Decide)|].
    apply sure_bind; [by apply mayVote_inv|by apply keeps_modify|intros _; apply sure_vote].
  - unfold replica_HandleDecideMessage, replica_anteHandle. repeat sure_step readyReplica_ok.
Qed.

Lemma mayVote_calm st v : mayVote st v /\ calm v -> inv v /\ calm v.
Proof. intros [? ?]. eauto. Qed.

(** The end of a leader's handler: propose and vote. *)
Lemma sure_propose_vote st qc : sure (fun v => mayVote st v /\ calm v) (propose st qc (vote cfg st)).
Proof. apply sure_propose; [by apply mayVote_calm|]. eapply sure_weaken, sure_vote. by intros v []. Qed.

Lemma sure_enters st st' (k : CM unit) :
  st < st' < 256 -> sure (fun v => mayVote st' v /\ calm v) k -> sure (readyLeader st) (SetStep st' ;; k).
Proof. intros Hst. apply sure_SetStep. intros v. by apply leader_enters. Qed.

Lemma sure_leader st handler msg : leaderHandlers cfg st = Some handler -> sure (readyLeader st) (handler msg).
Proof.
  unfold leaderHandlers. intros Hh. repeat case_bool_decide; injection Hh as <- || discriminate Hh; subst st.
  - unfold leader_HandleNewRoundMessage, leader_anteHandle. repeat sure_step readyLeader_ok;
    (apply (sure_enters NewRound Prepare); [done|];
     apply sure_bind; [intros v Hv; by apply (mayVote_calm _ _ Hv)|solve_local|intros _; apply sure_propose_vote]).
  - unfold leader_HandlePrepareMessage, leader_anteHandle. repeat sure_step readyLeader_ok.
    apply (sure_enters Prepare PreCommit); [done|].
    repeat (apply sure_bind; [intros v Hv; by apply (mayVote_calm _ _ Hv)|solve_local|intros _]). apply sure_propose_vote.
  - unfold leader_HandlePrecommitMessage, leader_anteHandle. repeat sure_step readyLeader_ok.
    apply (sure_enters PreCommit Commit_); [done|].
    repeat (apply sure_bind; [intros v Hv; by apply (mayVote_calm _ _ Hv)|solve_local|intros _]). apply sure_propose_vote.
  - unfold leader_HandleCommitMessage, leader_anteHandle. repeat sure_step readyLeader_ok.
    apply (sure_enters Commit_ Decide); [done|].
    apply sure_bind; [intros v Hv; by apply (mayVote_calm _ _ Hv)|solve_local|intros _]. apply sure_propose; [by apply mayVote_calm|].
    repeat sure_step mayVote_calm.
  - unfold leader_HandleDecideMessage, leader_anteHandle. repeat sure_step readyLeader_ok.
Qed.

(** *** The dispatcher *)
Lemma keeps_elect msg : keeps viewVotes (electNextLeader msg).
Proof. unfold electNextLeader, ElectNextLeader. solve_local. Qed.
Lemma keeps_newLeader b : keeps viewVotes (NewLeader b).
Proof. unfold NewLeader. apply keeps_bind; [solve_local|intros ?]. apply keeps_elect. Qed.
#[local] Hint Resolve keeps_elect keeps_newLeader : keeps.

Lemma fresh_viewVotes m m' : viewVotes m' = viewVotes m -> fresh (voteState m) -> fresh (voteState m').
Proof. intros [= E1 E2 E3 E4] Hf. unfold fresh, once, allBefore, stepInRange, voteState in *. cbn in *. by rewrite E1, E2, E3, E4. Qed.

Definition handled m msg (r : res ConsErr bool) m' : Prop :=
  match r with
  | Panic => once (voteState m')
  | Ok true => inv (voteState m') /\ calm (voteState m') /\ step m' = hm_Step msg
  | _ => inv (voteState m')
  end.

Lemma shouldHandle_votes msg m :
  inv (voteState m) -> calm (voteState m) -> hm_Round msg < 2 ^ 64 - 1 -> 0 <= hm_Step msg < 256 ->
  handled m msg (ShouldHandleMessage cfg msg m).1 (ShouldHandleMessage cfg msg m).2.
Proof.
  intros Hi Hc Hr Hst. assert (u64 (step m) = step m) as Hu.
  { destruct Hi as (_ & _ & Hs). unfold stepInRange in Hs. cbn in Hs. apply u64_small. unfold in_u64. lia. }
  unfold ShouldHandleMessage, CurrentHeight, CurrentRound, CurrentStep. rewrite bind_get, Hu.
  repeat case_goal; try done.
  - rewrite bind_eq. unfold onWorld. destruct (SendEvent _ _) as [[?|?|] ?]; [exact Hi|exact Hi|exact (inv_once _ Hi)].
  - match goal with Hb : (_ && _ && _) = true |- _ => apply andb_prop in Hb as [[_ Hb]%andb_prop _]; apply bool_decide_eq_true in Hb end.
    done.
  - unfold SetStep, SetRound. rewrite !bind_modify, bind_get. set (m1 := set_round _ _).
    assert (u8 (hm_Step msg) = hm_Step msg) as H8 by (unfold u8; apply Z.mod_small; lia).
    assert (round m < hm_Round msg \/ (round m = hm_Round msg /\ step m < hm_Step msg)) as Hlt.
    { match goal with Hx : (_ || _) = true |- _ => rename Hx into Hahead end.
      apply orb_prop in Hahead as [Ha|[Ha Hb]%andb_prop]; [|apply bool_decide_eq_true in Hb]; apply bool_decide_eq_true in Ha; lia. }
    assert (fresh (voteState m1)) as Hf.
    { apply (inv_later (voteState m)); [done..| |]; [unfold viewLt|unfold stepInRange]; cbn; rewrite H8; lia. }
    match goal with |- context [(?p ≫= ?k) m1] => assert (keeps viewVotes (p ≫= k)) as Hk by solve_local end. specialize (Hk m1).
    match goal with |- handled _ _ (?x).1 (?x).2 => destruct x as [r m2] end. cbn in Hk |- *.
    assert (fresh (voteState m2)) as Hf2 by (by eapply fresh_viewVotes).
    destruct r as [[|]|e|]; cbn [handled]; auto. injection Hk as E1 E2 E3 E4. split; [by auto|]. unfold calm in *.
    cbn. rewrite E1, E2, E3. cbn. rewrite H8. cbn in Hc. lia.
Qed.

Lemma sure_handleHotstuffMessage msg :
  hm_Round msg < 2 ^ 64 - 1 -> 0 <= hm_Step msg < 256 -> sure (fun v => inv v /\ calm v) (handleHotstuffMessage cfg msg).
Proof.
  intros Hr Hst m [Hi Hc]. pose proof (shouldHandle_votes msg m Hi Hc Hr Hst) as Hs. unfold handleHotstuffMessage. rewrite bind_eq.
  destruct (ShouldHandleMessage cfg msg m) as [[[|]|e|] m1]; cbn [fst snd handled negb] in Hs |- *; try done. clear m Hi Hc.
  destruct Hs as (Hi & Hc & Hstep). rewrite bind_get, bind_eq.
  assert (exists r m2, (if shouldElectNextLeader m1 then electNextLeader msg else mret tt) m1 = (r, m2) /\
    inv (voteState m2) /\ calm (voteState m2) /\ step m2 = hm_Step msg) as (r & m2 & -> & Hi2 & Hc2 & Hstep2).
  { destruct (shouldElectNextLeader m1) eqn:He; [|by exists (Ok tt), m1].
    destruct (electNextLeader msg m1) as [r m2] eqn:Hrun. exists r, m2. split; [done|].
    assert (viewVotes m2 = viewVotes m1) as Hk by (pose proof (keeps_elect msg m1) as Hk; by rewrite Hrun in Hk).
    split; [|unfold calm in *; cbn in *; injection Hk as E1 E2 E3 E4; by rewrite E1, E2, E3].
    apply fresh_inv, (fresh_viewVotes m1 m2 Hk), inv_fresh; [done|]. unfold shouldElectNextLeader, IsLeaderSet in He. unfold leads. cbn.
    by destruct (leaderId m1); [rewrite andb_false_r in He|]. }
  destruct r as [[]|e|]; [|done|by apply inv_once]. rewrite bind_get.
  destruct (IsLeader cfg m2) eqn:Hl; unfold IsLeader in Hl.
  - apply bool_decide_eq_true in Hl. destruct (leaderHandlers cfg (hm_Step msg)) as [handler|] eqn:Hh; [|by apply inv_once].
    apply (sure_leader _ handler msg Hh). done.
  - apply bool_decide_eq_false in Hl. destruct (replicaHandlers cfg (hm_Step msg)) as [handler|] eqn:Hh; [|by apply inv_once].
    apply (sure_replica _ handler msg Hh). split; [|done]. by apply inv_fresh.
Qed.

(** ** The events of a node *)
Inductive NodeEvent :=
| EvMessage (msg : HotstuffMessage)
| EvTimeout
| EvNextView
| EvManualMode
| EvStateSync (msg : StateSyncMessage)
| EvTransition (newState : string).

Definition handleEvent (e : NodeEvent) : CM unit :=
  match e with
  | EvMessage msg => handleHotstuffMessage cfg msg
  | EvTimeout => InterruptRound
  | EvNextView => triggerNextView
  | EvManualMode => togglePacemakerManualMode
  | EvStateSync msg => handleStateSyncMessage cfg msg ;; mret tt
  | EvTransition newState => handleStateTransitionEvent newState
  end.

(** No counter is about to wrap around, and the step of a message is a byte. *)
Definition inBounds (e : NodeEvent) m : Prop :=
  calm (voteState m) /\
  match e with EvMessage msg => hm_Round msg < 2 ^ 64 - 1 /\ 0 <= hm_Step msg < 256 | _ => True end.

Lemma keeps_sendSync dst (msg : StateSyncMessage) : keeps voteState (send dst (OStateSync msg) : CM unit).
Proof. apply keeps_modify. intros m. unfold voteState, votes. cbn. rewrite votesOf_app. cbn. by rewrite app_nil_r. Qed.
#[local] Hint Resolve keeps_sendSync : keeps.

Lemma keeps_stateSync (msg : StateSyncMessage) : keeps voteState (handleStateSyncMessage cfg msg : CM bool).
Proof.
  unfold handleStateSyncMessage, HandleStateSyncMetadataRequest, HandleGetBlockRequest, sendStateSyncMessage. solve_local.
Qed.
Lemma keeps_transition s : keeps voteState (handleStateTransitionEvent s : CM unit).
Proof. unfold handleStateTransitionEvent, HandleUnsynced, HandleSyncMode, stateSyncStart. solve_local. Qed.

Lemma sure_triggerNextView : sure (fun v => inv v /\ calm v) triggerNextView.
Proof.
  intros m [Hi Hc]. unfold triggerNextView. rewrite bind_get, bind_eq.
  match goal with |- match match (if ?c then _ else _) _ with _ => _ end with _ => _ end =>
    assert (moved ((if c then NewHeight else InterruptRound) m).1 ((if c then NewHeight else InterruptRound) m).2) as Hm
      by (destruct c; [by apply new_height_moves|by apply interrupt_moves]);
    destruct ((if c then NewHeight else InterruptRound) m) as [[[]|e|] m1] end; cbn in Hm; [|by auto..].
  rewrite bind_get. destruct (IsManualMode m1); [|cbn; by auto]. unfold ForceNextView. rewrite bind_get.
  destruct (maintains_startNextView (debugQC m1) true m1 Hm) as [Hy _].
  destruct (startNextView _ _ m1) as [[?|?|] m2]; cbn in Hy; auto.
Qed.

Lemma sure_handleEvent e m : inBounds e m -> inv (voteState m) ->
  match handleEvent e m with (Panic, m') => once (voteState m') | (_, m') => inv (voteState m') end.
Proof.
  intros [Hc Hb] Hi. destruct e as [msg| | | |msg|s]; cbn [handleEvent].
  - destruct Hb. by apply sure_handleHotstuffMessage.
  - by apply sure_InterruptRound.
  - by apply sure_triggerNextView.
  - apply (sure_kept inv); [done|unfold togglePacemakerManualMode, SetManualMode; solve_local|done].
  - apply (sure_kept inv); [done| |done]. apply keeps_bind; [apply keeps_stateSync|intros ?; by apply keeps_ret].
  - apply (sure_kept inv); [done|apply keeps_transition|done].
Qed.

(** A node that has just been created. *)
Lemma started_inv m : sent m = [] -> 0 <= step m < 256 -> inv (voteState m).
Proof.
  intros Hs Hst. unfold inv, once, stepInRange, voteState, votes. cbn. rewrite Hs. cbn. split_and!; [constructor| |lia..].
  intros msg Hm. by apply elem_of_nil in Hm.
Qed.

End views.
End votes.

(** ** A network of validators *)
Section network.
Context {W U : Type} `{CryptoPrims} `{HC : HotstuffCodec} `{!HotstuffCodecLaws HC} `{PersistenceUtilityModules W U} `{UtilityUnitOfWork W U}.
Import ConsQuorum.

(** The correct validators, by address: each with its configuration, its state and whether its
    process is running.  Any message may reach any of them at any time.  An event is handled
    as a whole before the next one.  For messages, state-sync messages and transitions the
    lock of the module sees to that; the timer calls [InterruptRound] from a goroutine of its
    own and without the lock, and only the expiries that fall between two handlers are
    steps here. *)
Record NetNode := { nn_config : Config; nn_state : consensusModule W U; nn_alive : bool }.
Abbreviation Net := (gmap string NetNode).

Definition netStart (net : Net) : Prop :=
  forall a n, net !! a = Some n -> sent (nn_state n) = [] /\ 0 <= step (nn_state n) < 256 /\ nn_alive n = true.

Inductive netStep : Net -> Net -> Prop :=
| net_event net a n e r m' :
    net !! a = Some n -> nn_alive n = true -> inBounds e (nn_state n) ->
    handleEvent (nn_config n) e (nn_state n) = (r, m') ->
    netStep net (<[a := {| nn_config := nn_config n; nn_state := m'; nn_alive := match r with Panic => false | _ => true end |}]> net).

Lemma net_votes_once net0 net : netStart net0 -> rtc netStep net0 net ->
  forall a n, net !! a = Some n ->
  once (voteState (nn_state n)) /\ (nn_alive n = true -> inv (nn_config n) (voteState (nn_state n))).
Proof.
  intros Hs Hr. assert (forall a n, net0 !! a = Some n ->
    once (voteState (nn_state n)) /\ (nn_alive n = true -> inv (nn_config n) (voteState (nn_state n)))) as H0i.
  { intros a n Hn. destruct (Hs a n Hn) as (Hse & Hst & _). pose proof (started_inv (nn_config n) (nn_state n) Hse Hst) as Hi.
    split; [apply Hi|done]. }
  clear Hs. induction Hr as [net|net net1 net2 Hstep _ IH]; [done|]. apply IH. clear IH net2.
  destruct Hstep as [net a n e r m' Hn Hal Hb He]. intros a' n' [[<- <-]|[Hne Hn']]%lookup_insert_Some; [|by eapply H0i].
  destruct (H0i a n Hn) as [_ Hi]. pose proof (sure_handleEvent (nn_config n) e (nn_state n) Hb (Hi Hal)) as Hsu.
  rewrite He in Hsu. cbn. destruct r; split; eauto using inv_once; done.
Qed.

(** C38: a validator votes once per view.  Whatever messages the validators handle, in whatever
    order: the votes a validator has sent since it was created are in different views, also
    if the process has ended in between.  Round timers may expire at any time between
    the handling of two events; an expiry during a handler, which the code does not exclude, is
    outside the theorem.  No counter may be about to wrap around, and the step of a message
    is a byte. *)
Theorem votes_once net0 net a n :
  netStart net0 -> rtc netStep net0 net -> net !! a = Some n -> NoDup (voteView <$> votes (nn_state n)).
Proof. intros Hs Hr Hn. by destruct (net_votes_once net0 net Hs Hr a n Hn) as [Ho _]. Qed.

(** Unforgeability: a signature of a correct validator that a certificate holds was made by that
    validator, when it voted for what the certificate is about. *)
Definition backed (net : Net) (vals : list Actor) (qc : QuorumCertificate) : Prop :=
  forall a n, net !! a = Some n -> a ∈ signers vals qc ->
  exists msg, msg ∈ votes (nn_state n) /\ getSignableBytes msg = getSignableBytes (qcToHotstuffMessage qc).

(** The validators that are not among the correct ones. *)
Definition faulty (net : Net) (vals : list Actor) : gset string := list_to_set (Address <$> vals) ∖ dom net.

(** What is signed determines the view. *)
Lemma signable_view msg1 msg2 b : getSignableBytes msg1 = Some b -> getSignableBytes msg2 = Some b -> voteView msg1 = voteView msg2.
Proof.
  unfold getSignableBytes. intros Hb1 Hb2. apply codec_msg_view in Hb1 as (m1 & Hu1 & _ & E1 & E2 & E3).
  apply codec_msg_view in Hb2 as (m2 & Hu2 & _ & F1 & F2 & F3). unfold voteView. cbn in *. congruence.
Qed.
Lemma signable_block `{!HotstuffCodecBlocks HC} msg1 msg2 b :
  getSignableBytes msg1 = Some b -> getSignableBytes msg2 = Some b ->
  wireBlock <$> hm_Block msg1 = wireBlock <$> hm_Block msg2.
Proof.
  unfold getSignableBytes. intros Hb1 Hb2. destruct (codec_msg_view _ _ Hb1) as (m1 & Hu & _).
  pose proof (codec_msg_block _ _ _ Hb1 Hu) as E1. pose proof (codec_msg_block _ _ _ Hb2 Hu) as E2. cbn in E1, E2. congruence.
Qed.
Lemma signed_is_some vals qc a : a ∈ signers vals qc -> is_Some (getSignableBytes (qcToHotstuffMessage qc)).
Proof.
  unfold signers, validSigs. rewrite elem_of_list_to_set. intros (ps & _ & [Hv _]%list_elem_of_filter)%list_elem_of_fmap.
  unfold validSignature, isSignatureValid in Hv. by repeat case_hyp Hv.
Qed.
Lemma NoDup_fmap_same {A B} (f : A -> B) (l : list A) x y : NoDup (f <$> l) -> x ∈ l -> y ∈ l -> f x = f y -> x = y.
Proof.
  intros Hnd [i Hi]%list_elem_of_lookup [j Hj]%list_elem_of_lookup Hf.
  assert (i = j) as <-; [|congruence]. eapply (NoDup_lookup (f <$> l)); [done|by rewrite list_lookup_fmap, Hi|by rewrite list_lookup_fmap, Hj, Hf].
Qed.

(** C2: agreement in a view.  Let correct validators handle any messages in any order, with
    expiries of their timers between the handlers, no counter being about to wrap
    around.  Two certificates for the same height, round and step that nodes accept,
    without repeated signers, then certify the same block, if at most a third of the (at most
    2^50) validators is faulty and the signatures of correct validators in the certificates
    were made by these validators when they voted (no forgery).  The same block means equal
    signed bytes and, decoding being the inverse of encoding, equal blocks up to nil or empty
    header fields.  A correct validator signed both, and no correct validator votes
    twice in a view. *)
Theorem view_agreement `{!HotstuffCodecBlocks HC} net0 net m1 m2 qc1 qc2 vals :
  netStart net0 -> rtc netStep net0 net ->
  validatorsAt (height m1) m1 = Ok vals -> validatorsAt (height m2) m2 = Ok vals -> Z.of_nat (length vals) < 2 ^ 50 ->
  validateQuorumCertificate (Some qc1) m1 = (Ok tt, m1) -> validateQuorumCertificate (Some qc2) m2 = (Ok tt, m2) ->
  NoDup (ps_Address <$> default [] (qc_ThresholdSignature qc1)) ->
  NoDup (ps_Address <$> default [] (qc_ThresholdSignature qc2)) ->
  backed net vals qc1 -> backed net vals qc2 ->
  3 * Z.of_nat (size (faulty net vals)) <= Z.of_nat (length vals) ->
  qc_Height qc1 = qc_Height qc2 -> qc_Round qc1 = qc_Round qc2 -> qc_Step qc1 = qc_Step qc2 ->
  getSignableBytes (qcToHotstuffMessage qc1) = getSignableBytes (qcToHotstuffMessage qc2) /\
  wireBlock <$> qc_Block qc1 = wireBlock <$> qc_Block qc2.
Proof.
  intros Hs Hr Hv1 Hv2 Hl Hq1 Hq2 Hn1 Hn2 Hb1 Hb2 Hf Eh Er Es.
  pose proof (valid_certificates_intersect m1 m2 qc1 qc2 vals Hv1 Hv2 Hl Hq1 Hq2 Hn1 Hn2) as Hi.
  assert (exists a n, net !! a = Some n /\ a ∈ signers vals qc1 /\ a ∈ signers vals qc2) as (a & n & Hn & Ha1 & Ha2).
  { destruct (set_choose_or_empty ((signers vals qc1 ∩ signers vals qc2) ∖ faulty net vals)) as [[a Ha]|He].
    - pose proof (signers_subset vals qc1). assert (a ∈ dom net) as [n Hn]%elem_of_dom; [|exists a, n; set_solver].
      destruct (decide (a ∈ dom net)); [done|]. unfold faulty in Ha. set_solver.
    - assert (signers vals qc1 ∩ signers vals qc2 ⊆ faulty net vals) as Hsub%subseteq_size; [|lia].
      intros a Ha. destruct (decide (a ∈ faulty net vals)); [done|]. set_solver. }
  destruct (Hb1 a n Hn Ha1) as (v1 & Hm1 & E1). destruct (Hb2 a n Hn Ha2) as (v2 & Hm2 & E2).
  destruct (signed_is_some vals qc1 a Ha1) as [b1 Hs1]. destruct (signed_is_some vals qc2 a Ha2) as [b2 Hs2].
  destruct (net_votes_once net0 net Hs Hr a n Hn) as [Ho _].
  assert (v1 = v2) as Hv12; [apply (NoDup_fmap_same voteView (votes (nn_state n))); [done..|]|].
  2: { split; [congruence|].
       apply (signable_block (qcToHotstuffMessage qc1) (qcToHotstuffMessage qc2) b1); congruence. }
  rewrite (signable_view v1 (qcToHotstuffMessage qc1) b1), (signable_view v2 (qcToHotstuffMessage qc2) b2) by congruence.
  unfold voteView. cbn. congruence.
Qed.

(** ** What a DECIDE proposal commits *)
Import ConsSafety.

(** A replica that waits for the DECIDE proposal, with the block [b] it has executed in the unit
    of work [u]. *)
Record awaitsDecide (cfg : Config) (m : consensusModule W U) (b : Block) (u : U) : Prop := {
  aw_step : step m = Decide;
  aw_replica : exists l, leaderId m = Some l /\ l ≠ nodeId cfg;
  aw_block : block m = Some b;
  aw_header : is_Some (b_Header b);
  aw_encodes : is_Some (marshalBlock b);
  aw_size : sizeofBlock cfg <= u64 (MaxBlockBytes cfg);
  aw_uow : utilityUnitOfWork m = Some u;
  aw_pools : poolsReady m;
}.

Definition decideProposal (h r : Z) (b : Block) (qc : QuorumCertificate) : HotstuffMessage :=
  {| hm_Type := Propose; hm_Height := h; hm_Step := Decide; hm_Round := r; hm_Block := Some b;
     hm_Justification := JQuorumCertificate qc |}.

(** A new height leaves the committed world alone when no unit of work is left. *)
Definition settled (w : W) (m : consensusModule W U) : Prop := utilityUnitOfWork m = None /\ world m = w.

Lemma settled_local {A} w (p : M (consensusModule W U) ConsErr A) :
  keeps (fun m => (utilityUnitOfWork m, world m)) p -> maintains (settled w) anything p.
Proof.
  intros Hk m [Hu Hw]. specialize (Hk m). injection Hk as Eu Ew. split; [split; congruence|]. by destruct (p m).1.
Qed.

Lemma keeps_uw_pools {A} st (g : M Pool Error A) :
  keeps (fun m : consensusModule W U => (utilityUnitOfWork m, world m)) (onPool st g).
Proof. intros m. unfold onPool. destruct (hotstuffMempool m !! st) as [p|]; [|done]. by destruct (g p). Qed.
#[local] Hint Resolve keeps_uw_pools : keeps.

Lemma settled_ResetRound w b : maintains (settled w) anything (ResetRound b).
Proof. apply settled_local. unfold ResetRound, clearMessagesPool, SetBlock. solve_keeps. Qed.

Lemma settled_release w : maintains (settled w) anything (logError ReleaseUtilityUnitOfWork : M (consensusModule W U) ConsErr unit).
Proof.
  intros m [Hu Hw]. unfold logError, onError, ReleaseUtilityUnitOfWork. rewrite bind_get, Hu. done.
Qed.

Lemma settled_NewHeight w : maintains (settled w) anything NewHeight.
Proof.
  unfold NewHeight, startNextView, SetHeight, publishNewHeightEvent, SetStep, RestartTimer.
  repeat match goal with
  | |- maintains _ _ (_ ≫= _) => apply (maintains_bind _ anything); [|intros ? _]
  | |- maintains _ _ (ResetRound _) => apply settled_ResetRound
  | |- maintains _ _ (logError ReleaseUtilityUnitOfWork) => apply settled_release
  | |- _ => apply settled_local; unfold BroadcastMessageToValidators, broadcastToValidators, send; solve_local
  end.
Qed.

(** The replica commits its own block, whatever block, height, round and step the valid
    certificate is for. *)
Lemma decide_commits_own_block cfg (m : consensusModule W U) b u qc qcBytes u1 w1 :
  awaitsDecide cfg m b u ->
  validateQuorumCertificate (Some qc) m = (Ok tt, m) -> marshalQC qc = Some qcBytes ->
  UowCommit (Some qcBytes) (u, world m) = (Ok tt, (u1, w1)) -> (Release (u1, w1)).1 ≠ Panic ->
  let m' := (handleHotstuffMessage cfg (decideProposal (height m) (round m) b qc) m).2 in
  height m' = u64 (height m + 1) /\ world m' = (Release (u1, w1)).2.2.
Proof.
  intros [Hst (l & Hl & Hne) Hb [hd Hhd] [bz Hbz] Hsz Hu Hp] Hq Hm Hc Hr. cbn zeta.
  set (msg := decideProposal (height m) (round m) b qc).
  assert (IsLeader cfg m = false) as Hrep by (unfold IsLeader; apply bool_decide_eq_false_2; congruence).
  assert (ShouldHandleMessage cfg msg m = (Ok true, m)) as Hsh.
  { unfold ShouldHandleMessage, CurrentHeight, CurrentRound, CurrentStep. rewrite bind_get, Hrep, Hst.
    change (u64 Decide) with Decide. cbn [hm_Height hm_Round hm_Step msg decideProposal andb].
    rewrite !(bool_decide_eq_false_2 (_ < _)) by lia. rewrite !(bool_decide_eq_true_2 (_ = _)) by done. done. }
  unfold handleHotstuffMessage. erewrite bind_run by exact Hsh. cbn [negb]. rewrite bind_get.
  unfold shouldElectNextLeader. rewrite Hst, bool_decide_eq_false_2 by done. cbn [andb].
  erewrite bind_run by done. rewrite bind_get, Hrep. cbn [replicaHandlers hm_Step msg decideProposal].
  change (replicaHandlers cfg Decide) with (Some (replica_HandleDecideMessage (U:=U) (W:=W) cfg)). cbv iota beta.
  rewrite (decide_run cfg msg m qc qcBytes); [|clear Hq|done..].
  2: { unfold isValidMessageBlock. rewrite bind_get. cbn [hm_Block hm_Step msg decideProposal].
       rewrite bool_decide_eq_false_2 by done. rewrite bool_decide_eq_false_2 by lia. rewrite Hb.
       unfold BlockHeaderOf. rewrite Hhd. erewrite bind_run by done. erewrite bind_run by done.
       rewrite bool_decide_eq_false_2 by (intros Hn; by apply Hn).
       unfold of_res, protoHash. rewrite Hbz. done. }
  unfold setBlockQuorumCertificate.
  match goal with |- context [modify ?g] => set (upd := g) end.
  assert ((get ≫= (fun m => BlockHeaderOf (block m) ;; modify upd)) m = (Ok tt, upd m)) as Hset.
  { rewrite bind_get, Hb. unfold BlockHeaderOf. rewrite Hhd. done. }
  assert (block (upd m) = Some (withQC qcBytes b)) as Hub by (cbn; by rewrite Hb).
  edestruct (commitBlock_run (upd m) (withQC qcBytes b)) as (m2 & Hcm & Hh2 & Hpools & Hu2 & Hw);
    [cbn; by rewrite Hhd | exact Hu | cbn; exact Hc | exact Hr |].
  match goal with |- context [(?p ;; RestartTimer) m] => assert (p m = NewHeight m2) as Hrun end.
  { erewrite bind_run by exact Hset. rewrite bind_get, Hub. unfold onError. by rewrite Hcm. }
  rewrite bind_eq, Hrun.
  assert (height (NewHeight m2).2 = u64 (height m + 1)) as Hh.
  { rewrite new_height_run; [by rewrite Hh2|]. intros st Hin. rewrite Hpools. by apply Hp. }
  destruct (settled_NewHeight (Release (u1, w1)).2.2 m2) as [[_ Hworld] _]; [by split|].
  destruct (NewHeight m2) as [[[]|e|] m3]; cbn in *; done.
Qed.

(** C3: one certificate commits two blocks.  A replica checks that the certificate of a DECIDE
    proposal is valid, but not that it is for the block of the proposal, nor for its own.  So if
    two replicas wait for DECIDE in the same height and round, each with a block of its
    own, and a leader sends each of them its block with one and the same certificate, for
    whatever block, that both find valid, both go to the next height and each commits the
    unit of work in which it executed its own block, provided that these commits succeed. *)
Theorem faulty_leader_forks cfg1 cfg2 (m1 m2 : consensusModule W U) b1 b2 u1 u2 qc qcBytes u1' w1' u2' w2' :
  awaitsDecide cfg1 m1 b1 u1 -> awaitsDecide cfg2 m2 b2 u2 ->
  height m1 = height m2 -> round m1 = round m2 ->
  validateQuorumCertificate (Some qc) m1 = (Ok tt, m1) -> validateQuorumCertificate (Some qc) m2 = (Ok tt, m2) ->
  marshalQC qc = Some qcBytes ->
  UowCommit (Some qcBytes) (u1, world m1) = (Ok tt, (u1', w1')) -> (Release (u1', w1')).1 ≠ Panic ->
  UowCommit (Some qcBytes) (u2, world m2) = (Ok tt, (u2', w2')) -> (Release (u2', w2')).1 ≠ Panic ->
  let h := height m1 in let r := round m1 in
  let m1' := (handleHotstuffMessage cfg1 (decideProposal h r b1 qc) m1).2 in
  let m2' := (handleHotstuffMessage cfg2 (decideProposal h r b2 qc) m2).2 in
  height m1' = u64 (h + 1) /\ world m1' = (Release (u1', w1')).2.2 /\
  height m2' = u64 (h + 1) /\ world m2' = (Release (u2', w2')).2.2.
Proof.
  intros Ha1 Ha2 Hh Hr Hq1 Hq2 Hm Hc1 Hr1 Hc2 Hr2. cbn zeta.
  destruct (decide_commits_own_block cfg1 m1 b1 u1 qc qcBytes u1' w1') as [E1 E2]; [done..|].
  destruct (decide_commits_own_block cfg2 m2 b2 u2 qc qcBytes u2' w2') as [E3 E4]; [done..|].
  by rewrite Hh, Hr in *.
Qed.

(** *** Running a network *)
#[export] Instance inBounds_dec e (m : consensusModule W U) : Decision (inBounds e m).
Proof. unfold inBounds, calm. destruct e; apply _. Defined.

Definition deliver (a : string) (e : NodeEvent) (net : Net) : option Net :=
  n ← net !! a;
  if nn_alive n && bool_decide (inBounds e (nn_state n)) then
    let '(r, m') := handleEvent (nn_config n) e (nn_state n) in
    Some (<[a := {| nn_config := nn_config n; nn_state := m'; nn_alive := match r with Panic => false | _ => true end |}]> net)
  else None.
Fixpoint netRun (events : list (string * NodeEvent)) (net : Net) : option Net :=
  match events with
  | [] => Some net
  | (a, e) :: events' => net' ← deliver a e net; netRun events' net'
  end.

Lemma netRun_steps events net net' : netRun events net = Some net' -> rtc netStep net net'.
Proof.
  revert net. induction events as [|[a e] events IH]; intros net; cbn; [intros [= <-]; constructor|].
  destruct (deliver a e net) as [net1|] eqn:Hd; [|done]. cbn. intros Hr. apply rtc_l with net1; [|by apply IH].
  unfold deliver in Hd. destruct (net !! a) as [n|] eqn:Hn; [|done]. cbn in Hd.
  destruct (nn_alive n) eqn:Hal; [|done]. cbn in Hd. case_bool_decide as Hb; [|done].
  destruct (handleEvent _ e (nn_state n)) as [r m'] eqn:He. injection Hd as <-. by econstructor.
Qed.
Lemma netRun_default events net : is_Some (netRun events net) -> rtc netStep net (default net (netRun events net)).
Proof. intros [net' Hn]. rewrite Hn. by apply netRun_steps in Hn. Qed.
End network.

(** ** Four validators *)
Module ToyNet.
#[local] Open Scope string_scope.

(** An encoding of the view and of the whole block: a sequence of numbers, one per field. *)
Definition headerCode (h : BlockHeader) : list positive :=
  [encode (bh_Height h); encode (bh_NetworkId h); encode (bh_StateHash h); encode (bh_PrevStateHash h);
   encode (bh_ProposerAddress h); encode (bh_QuorumCertificate h); encode (bh_Timestamp h)].
Definition headerDecode (l : list positive) : option BlockHeader :=
  match l with
  | [c1; c2; c3; c4; c5; c6; c7] =>
      h ← decode c1; n ← decode c2; sh ← decode c3; p ← decode c4; a ← decode c5; q ← decode c6; t ← decode c7;
      Some {| bh_Height := h; bh_NetworkId := n; bh_StateHash := sh; bh_PrevStateHash := p; bh_ProposerAddress := a;
              bh_QuorumCertificate := q; bh_Timestamp := t |}
  | _ => None
  end.
Definition blockCode (b : option Block) : list positive :=
  match b with
  | None => []
  | Some b => encode (b_Transactions b) :: from_option headerCode [] (b_Header b)
  end.
Definition blockDecode (l : list positive) : option (option Block) :=
  match l with
  | [] => Some None
  | [c] => txs ← decode c; Some (Some {| b_Header := None; b_Transactions := txs |})
  | c :: l' => txs ← decode c; h ← headerDecode l'; Some (Some {| b_Header := Some h; b_Transactions := txs |})
  end.
Fixpoint bits (p : positive) : bytes :=
  match p with
  | xH => EmptyString
  | xO p' => String (Ascii.ascii_of_nat 48) (bits p')
  | xI p' => String (Ascii.ascii_of_nat 49) (bits p')
  end.
Fixpoint unbits (b : bytes) : positive :=
  match b with
  | EmptyString => xH
  | String c b' => if Ascii.eqb c (Ascii.ascii_of_nat 48) then xO (unbits b') else xI (unbits b')
  end.
Definition marshalToy (msg : HotstuffMessage) : option bytes :=
  Some (bits (encode (encode (NodeToy.viewOf msg) :: blockCode (wireBlock <$> hm_Block msg)))).
Definition unmarshalToy (b : bytes) : option HotstuffMessage :=
  l ← decode (A := list positive) (unbits b);
  match l with
  | [] => None
  | c :: l' =>
      '(t, h, s, r) ← decode (A := Z * Z * Z * Z) c;
      blk ← blockDecode l';
      Some {| hm_Type := t; hm_Height := h; hm_Step := s; hm_Round := r; hm_Block := blk; hm_Justification := JNone |}
  end.
Definition codec : HotstuffCodec := {|
  marshalBlock b := Some (bits (encode (blockCode (Some b)))); marshalMsg := marshalToy; unmarshalMsg := unmarshalToy;
  marshalQC qc := Some (bigIntText (qc_Height qc));
  unmarshalQC b := h ← bigIntSetString b;
    Some {| qc_Height := h; qc_Round := 0; qc_Step := Prepare; qc_Block := None; qc_ThresholdSignature := None |} |}.

Lemma unbits_bits p : unbits (bits p) = p.
Proof. induction p as [p IH|p IH|]; cbn; by rewrite ?IH. Qed.
Lemma header_decode h : headerDecode (headerCode h) = Some h.
Proof. unfold headerDecode, headerCode. rewrite !decode_encode. by destruct h. Qed.
Lemma block_decode b : blockDecode (blockCode b) = Some b.
Proof.
  destruct b as [[[h|] txs]|]; [|cbn; by rewrite decode_encode|done]. cbn [blockCode b_Header b_Transactions from_option].
  unfold blockDecode. rewrite header_decode. cbn [headerCode]. by rewrite decode_encode.
Qed.
Lemma unmarshal_marshal msg b : marshalToy msg = Some b ->
  unmarshalToy b = Some {| hm_Type := hm_Type msg; hm_Height := hm_Height msg; hm_Step := hm_Step msg; hm_Round := hm_Round msg;
    hm_Block := wireBlock <$> hm_Block msg; hm_Justification := JNone |}.
Proof.
  intros [= <-]. unfold unmarshalToy. rewrite unbits_bits, decode_encode. cbn [mbind option_bind].
  rewrite decode_encode. cbn [mbind option_bind NodeToy.viewOf]. by rewrite block_decode.
Qed.
Lemma codec_laws : HotstuffCodecLaws codec.
Proof. split. intros msg b Hb. cbn. rewrite (unmarshal_marshal msg b Hb). by eexists. Qed.
Lemma codec_blocks : HotstuffCodecBlocks codec.
Proof. split. intros msg b msg' Hb. cbn. rewrite (unmarshal_marshal msg b Hb). by intros [= <-]. Qed.

#[local] Existing Instances ToyCrypto.prims codec codec_laws codec_blocks NodeToy.pum NodeToy.uowOps.
Import NodeToy.

Abbreviation ToyNetwork := (gmap string (@NetNode Node.Modules Node.Uow)).
Definition address (i : nat) : string := hexEncode (addr i).
(** Validators 1, 3 and 4 are correct; validator 2 leads round 0 of height 1. *)
Definition nodeAt (i : nat) : string * NetNode := (address i, {| nn_config := cfg i; nn_state := start i; nn_alive := true |}).
Definition net0 : ToyNetwork := list_to_map (nodeAt <$> [1; 3; 4]%nat).

Definition proposal (st r : Z) (b : option Block) : NodeEvent := EvMessage
  {| hm_Type := Propose; hm_Height := 1; hm_Step := st; hm_Round := r; hm_Block := b; hm_Justification := JNone |}.
Definition block1 : Block := blockWith "root".
Definition run1 : list (string * NodeEvent) :=
  [(address 1, proposal NewRound 0 None); (address 3, proposal NewRound 0 None); (address 4, proposal NewRound 0 None);
   (address 3, proposal Prepare 0 (Some block1)); (address 1, proposal Prepare 0 (Some block1));
   (address 4, proposal Prepare 0 (Some block1)); (address 4, EvTimeout)].
Definition net1 : ToyNetwork := default net0 (netRun run1 net0).
Definition voteBy (i : nat) : PartialSignature :=
  match CreateVoteMessage 1 0 Prepare (Some block1) (key i) with
  | Ok v => default {| ps_Signature := None; ps_Address := "" |} (GetPartialSignature v)
  | _ => {| ps_Signature := None; ps_Address := "" |}
  end.
Definition certificateFor (b : Block) (signers : list nat) : QuorumCertificate := {|
  qc_Height := 1; qc_Round := 0; qc_Step := Prepare; qc_Block := Some b;
  qc_ThresholdSignature := Some (voteBy <$> signers) |}.
Definition certificate : list nat -> QuorumCertificate := certificateFor block1.

Lemma net_run1 : rtc netStep net0 net1.
Proof. apply netRun_default. apply (bool_decide_unpack _). vm_compute. exact I. Qed.
Lemma net_start0 : netStart net0.
Proof.
  intros a n Hn. apply elem_of_list_to_map_2 in Hn. unfold nodeAt in Hn. cbn in Hn.
  repeat (apply elem_of_cons in Hn as [[= -> ->]|Hn]; [cbn; by split_and!|]). by apply elem_of_nil in Hn.
Qed.

(** Unforgeability, decided. *)
Definition backedBy (net : ToyNetwork) (vals : list Actor) (qc : QuorumCertificate) : Prop :=
  map_Forall (fun a n => a ∈ ConsQuorum.signers vals qc -> Exists (fun msg => getSignableBytes msg = getSignableBytes (qcToHotstuffMessage qc)) (votes (nn_state n))) net.
Lemma backedBy_backed net vals qc : backedBy net vals qc -> backed net vals qc.
Proof. intros Hb a n Hn Ha. specialize (Hb a n Hn Ha). by apply Exists_exists in Hb. Qed.

(** The same block with an empty instead of a nil certificate in its header. *)
Definition block1' : Block := {|
  b_Header := (fun h => {| bh_Height := bh_Height h; bh_NetworkId := bh_NetworkId h; bh_StateHash := bh_StateHash h;
    bh_PrevStateHash := bh_PrevStateHash h; bh_ProposerAddress := bh_ProposerAddress h;
    bh_QuorumCertificate := Some EmptyString; bh_Timestamp := bh_Timestamp h |}) <$> b_Header block1;
  b_Transactions := b_Transactions block1 |}.

Lemma view_agreement_witness :
  (getSignableBytes (qcToHotstuffMessage (certificate [1; 3; 4]%nat)) =
     getSignableBytes (qcToHotstuffMessage (certificateFor block1' [2; 3; 4]%nat)) /\
   wireBlock <$> qc_Block (certificate [1; 3; 4]%nat) = wireBlock <$> qc_Block (certificateFor block1' [2; 3; 4]%nat)) /\
  size (faulty net1 validators) = 1%nat.
Proof.
  split; [|vm_compute; reflexivity].
  apply (view_agreement net0 net1 (start 1) (start 3) (certificate [1; 3; 4]%nat) (certificateFor block1' [2; 3; 4]%nat) validators net_start0 net_run1);
    try (apply backedBy_backed; apply (bool_decide_unpack _)); try (vm_compute; reflexivity);
    try (apply (bool_decide_unpack _); vm_compute; exact I).
Defined.

Definition node3 : NetNode := default {| nn_config := cfg 3; nn_state := start 3; nn_alive := false |} (net1 !! address 3).
Lemma votes_once_witness : NoDup (voteView <$> votes (nn_state node3)) /\ (voteView <$> votes (nn_state node3)) = [(1, 0, Prepare)].
Proof.
  split; [|vm_compute; reflexivity]. apply (votes_once net0 net1 (address 3) node3 net_start0 net_run1).
  unfold node3. destruct (net1 !! address 3) as [n|] eqn:He; [done|].
  exfalso. assert (bool_decide (is_Some (net1 !! address 3)) = true) as Hs by (vm_compute; reflexivity).
  apply bool_decide_eq_true in Hs. rewrite He in Hs. by destruct Hs.
Defined.

(** *** The limits of the theorem *)
Definition runNode (i : nat) (es : list NodeEvent) (m : consensusModule Node.Modules Node.Uow) : consensusModule Node.Modules Node.Uow :=
  foldl (fun m e => (handleEvent (cfg i) e m).2) m es.
Definition voted (m : consensusModule Node.Modules Node.Uow) : list (View * option Block) :=
  (fun msg => (voteView msg, hm_Block msg)) <$> votes m.

(** Another block with the same state hash. *)
Definition block2 : Block := {|
  b_Header := Some {| bh_Height := 1; bh_NetworkId := ""; bh_StateHash := "root"; bh_PrevStateHash := "genesis";
    bh_ProposerAddress := Some (addr 2); bh_QuorumCertificate := None; bh_Timestamp := 0 |};
  b_Transactions := [] |}.
Definition proposeBlock (b : Block) : list NodeEvent := [proposal NewRound 0 None; proposal Prepare 0 (Some b)].
Definition lastRound : NodeEvent := proposal NewRound (2 ^ 64 - 1) None.

(** The round wraps around: after an unsigned message for the last round and one timeout a node
    is in round 0 again, and votes for a second block in a view in which it has voted. *)
Theorem wrapped_round_votes_twice :
  voted (runNode 3 (proposeBlock block1 ++ [lastRound; EvTimeout] ++ proposeBlock block2)%list (start 3)) =
    [((1, 0, Prepare), Some block1); ((1, 0, Prepare), Some block2)].
Proof. vm_compute. reflexivity. Qed.

(** Votes are not stored: voting changes nothing in the database, from which a restarted node
    takes its state, and so it votes again in the same view. *)
Theorem restart_votes_again :
  let m := runNode 3 (proposeBlock block1) (start 3) in
  let m' := runNode 3 (proposeBlock block2) (start 3) in
  voted m = [((1, 0, Prepare), Some block1)] /\ Node.committedDB (world m) = Node.committedDB (world (start 3)) /\
  voted m' = [((1, 0, Prepare), Some block2)].
Proof. vm_compute. split_and!; reflexivity. Qed.

(** *** A faulty leader *)

(** The proposals of the leader of round 0 for one replica: its block, always with the same
    certificate, which is for [block1]. *)
Definition certified (st : Z) (b : Block) : NodeEvent := EvMessage
  {| hm_Type := Propose; hm_Height := 1; hm_Step := st; hm_Round := 0; hm_Block := Some b;
     hm_Justification := JQuorumCertificate (certificate [1; 2; 4]%nat) |}.
Definition leadTo (i : nat) (b : Block) : list (string * NodeEvent) :=
  (fun e => (address i, e)) <$> (proposeBlock b ++ [certified PreCommit b; certified Commit_ b; certified Decide b])%list.
Definition almost : list (string * NodeEvent) -> list (string * NodeEvent) := fun l => take (length l - 1) l.
(** Until every correct validator waits for the last proposal, and the last proposals. *)
Definition forkRun : list (string * NodeEvent) :=
  (almost (leadTo 1 block1) ++ almost (leadTo 4 block1) ++ almost (leadTo 3 block2))%list.
Definition forkEnd : list (string * NodeEvent) :=
  [(address 1, certified Decide block1); (address 4, certified Decide block1); (address 3, certified Decide block2)].
Definition waitNet : ToyNetwork := default net0 (netRun forkRun net0).
Definition forkNet : ToyNetwork := default waitNet (netRun forkEnd waitNet).
Definition stateOf (net : ToyNetwork) (i : nat) : consensusModule Node.Modules Node.Uow :=
  from_option nn_state (start i) (net !! address i).

(** Height of a validator and the proposer of the block it committed at height 1. *)
Definition committed (net : ToyNetwork) (i : nat) : Z * option slice :=
  let m := stateOf net i in (height m, blk_proposer <$> blocks (db (Node.committedDB (world m))) !! 1).

Definition uowOf (i : nat) : Node.Uow := default (ConsSafety.demoUow) (utilityUnitOfWork (stateOf waitNet i)).
Definition commitOf (i : nat) : res string unit * (Node.Uow * Node.Modules) :=
  UowCommit (Some (bigIntText 1)) (uowOf i, world (stateOf waitNet i)).

Lemma fork_steps : rtc netStep net0 waitNet.
Proof.
  assert (is_Some (netRun forkRun net0)) as Hr by (apply (bool_decide_unpack _); vm_compute; exact I).
  unfold waitNet. exact (netRun_default forkRun net0 Hr).
Qed.
Lemma fork_ends : rtc netStep waitNet forkNet.
Proof.
  assert (is_Some (netRun forkEnd waitNet)) as Hr by (apply (bool_decide_unpack _); vm_compute; exact I).
  unfold forkNet. exact (netRun_default forkEnd waitNet Hr).
Qed.

Lemma awaits i b : (i, b) ∈ [(1%nat, block1); (3%nat, block2)] -> awaitsDecide (cfg i) (stateOf waitNet i) b (uowOf i).
Proof.
  assert (forall m : consensusModule Node.Modules Node.Uow, Forall (fun st => is_Some (hotstuffMempool m !! st)) HotstuffSteps ->
    ConsSafety.poolsReady m) as Hp by (intros m Hf st Hst; by rewrite Forall_forall in Hf; apply Hf).
  intros [[= -> ->]|[[= -> ->]|[]%elem_of_nil]%elem_of_cons]%elem_of_cons; split;
    try (apply Hp; apply (bool_decide_unpack _); vm_compute; exact I); try (vm_compute; (reflexivity || discriminate));
    try (eexists; vm_compute; reflexivity); (eexists; split; [vm_compute; reflexivity|vm_compute; discriminate]).
Qed.

(** Four validators of which only the leader of round 0 is faulty; the certificate is the one of
    [block1] and holds no forged signature.  The correct validators 1 and 4 commit [block1], the
    correct validator 3 commits [block2], which has other signed bytes. *)
Lemma faulty_leader_forks_witness :
  (rtc netStep net0 waitNet /\ rtc netStep waitNet forkNet /\ netStart net0 /\
   backed forkNet validators (certificate [1; 2; 4]%nat) /\
   3 * Z.of_nat (size (faulty forkNet validators)) <= Z.of_nat (length validators)) /\
  getSignableBytes (qcToHotstuffMessage (certificateFor block2 [])) ≠ getSignableBytes (qcToHotstuffMessage (certificate [])) /\
  committed forkNet 1 = (2, Some (Some (addr 1))) /\ committed forkNet 4 = (2, Some (Some (addr 1))) /\
  committed forkNet 3 = (2, Some (Some (addr 2))) /\
  let h := height (stateOf waitNet 1) in let r := round (stateOf waitNet 1) in
  let m1' := (handleHotstuffMessage (cfg 1) (decideProposal h r block1 (certificate [1; 2; 4]%nat)) (stateOf waitNet 1)).2 in
  let m3' := (handleHotstuffMessage (cfg 3) (decideProposal h r block2 (certificate [1; 2; 4]%nat)) (stateOf waitNet 3)).2 in
  h = 1 /\ r = 0 /\ height m1' = u64 (h + 1) /\ height m3' = u64 (h + 1) /\
  world m1' = (Release (commitOf 1).2).2.2 /\ world m3' = (Release (commitOf 3).2).2.2.
Proof.
  split; [|split; [vm_compute; discriminate|]].
  { split; [exact fork_steps|split; [exact fork_ends|split; [exact net_start0|split; [|vm_compute; discriminate]]]].
    apply backedBy_backed. apply (bool_decide_unpack _). vm_compute. exact I. }
  split; [vm_compute; reflexivity|]. split; [vm_compute; reflexivity|]. split; [vm_compute; reflexivity|].
  destruct (faulty_leader_forks (cfg 1) (cfg 3) (stateOf waitNet 1) (stateOf waitNet 3) block1 block2 (uowOf 1) (uowOf 3)
    (certificate [1; 2; 4]%nat) (bigIntText 1) (commitOf 1).2.1 (commitOf 1).2.2 (commitOf 3).2.1 (commitOf 3).2.2)
    as (H1 & H2 & H3 & H4);
    [apply awaits; apply elem_of_cons; left; reflexivity
    |apply awaits; apply elem_of_cons; right; apply elem_of_cons; left; reflexivity
    |vm_compute; (reflexivity || discriminate)..|].
  rewrite <- surjective_pairing in H2, H4. cbv zeta.
  split; [vm_compute; reflexivity|]. split; [vm_compute; reflexivity|]. split; [exact H1|]. split; [exact H3|]. split; [exact H2|exact H4].
Defined.
End ToyNet.
End ConsVotes.
