(* ===== verification/GoFloat.v ===== *)
(** Go's float64 and what the code uses of the package [math].

    A float64 is an IEEE 754 binary64 number, in the executable model of the Standard Library's
    [SpecFloat] (round to nearest, ties to even).  [Log], [Pow], [Round] and [Ceil] follow the
    portable implementations of the Go library, operation by operation, without fused
    multiply-add.  Go leaves the conversion of a value that does not fit to the implementation:
    its result is the parameter [unspecifiedInt]. *)

From Stdlib Require Import SpecFloat.
From S2P Require Import Prelude.
#[local] Open Scope Z_scope.

Class GoConversion := { unspecifiedInt : Z }.

Module F64.
Notation float64 := spec_float.

Definition fadd (x y : float64) : float64 := SFadd 53 1024 x y.
Definition fsub (x y : float64) : float64 := SFsub 53 1024 x y.
Definition fmul (x y : float64) : float64 := SFmul 53 1024 x y.
Definition fdiv (x y : float64) : float64 := SFdiv 53 1024 x y.
Definition flt (x y : float64) : bool := SFltb x y.
Definition feq (x y : float64) : bool := SFeqb x y.

(** [float64(z)] for an integer. *)
Definition ofZ (z : Z) : float64 := binary_normalize 53 1024 z 0 false.

(** The number [m * 2^e], for constants whose mantissa has 53 bits. *)
Definition lit (m : positive) (e : Z) : float64 := S754_finite false m e.

(** [|x|] truncated to an integer, and rounded half up. *)
Definition truncPos (m : positive) (e : Z) : Z := if 0 <=? e then Zpos m * 2 ^ e else Zpos m / 2 ^ (- e).
Definition roundPos (m : positive) (e : Z) : Z := if 0 <=? e then Zpos m * 2 ^ e else (2 * Zpos m + 2 ^ (- e)) / (2 * 2 ^ (- e)).
Definition ceilPos (m : positive) (e : Z) : Z := if 0 <=? e then Zpos m * 2 ^ e else - (- Zpos m / 2 ^ (- e)).

Definition signed (s : bool) (z : Z) : float64 := if z =? 0 then S754_zero s else ofZ (if s then - z else z).

(** [math.Round]: half away from zero. *)
Definition Round (x : float64) : float64 :=
  match x with S754_finite s m e => signed s (roundPos m e) | _ => x end.

(** [math.Ceil]. *)
Definition Ceil (x : float64) : float64 :=
  match x with S754_finite s m e => signed s (if s then truncPos m e else ceilPos m e) | _ => x end.

(** [math.Log]. *)
Definition Ln2Hi : float64 := lit 6243314766446592 (-53).
Definition Ln2Lo : float64 := lit 7382048951581814 (-85).
Definition L1 : float64 := lit 6004799503160723 (-53).
Definition L2 : float64 := lit 7205759403686404 (-54).
Definition L3 : float64 := lit 5146971033736025 (-54).
Definition L4 : float64 := lit 8006390766270639 (-55).
Definition L5 : float64 := lit 6551322304906206 (-55).
Definition L6 : float64 := lit 5517391500461727 (-55).
Definition L7 : float64 := lit 5331612937900612 (-55).
Definition halfSqrt2 : float64 := lit 6369051672525773 (-53).
Definition half : float64 := fdiv (ofZ 1) (ofZ 2).

Definition Log (x : float64) : float64 :=
  match x with
  | S754_nan | S754_infinity false => x
  | S754_infinity true | S754_finite true _ _ => S754_nan
  | S754_zero _ => S754_infinity true
  | S754_finite false _ _ =>
      let '(f0, k0) := SFfrexp 53 1024 x in
      let '(f1, ki) := if flt f0 halfSqrt2 then (fmul f0 (ofZ 2), k0 - 1) else (f0, k0) in
      let f := fsub f1 (ofZ 1) in
      let k := ofZ ki in
      let s := fdiv f (fadd (ofZ 2) f) in
      let s2 := fmul s s in
      let s4 := fmul s2 s2 in
      let t1 := fmul s2 (fadd L1 (fmul s4 (fadd L3 (fmul s4 (fadd L5 (fmul s4 L7)))))) in
      let t2 := fmul s4 (fadd L2 (fmul s4 (fadd L4 (fmul s4 L6)))) in
      let R := fadd t1 t2 in
      let hfsq := fmul (fmul half f) f in
      fsub (fmul k Ln2Hi) (fsub (fsub hfsq (fadd (fmul s (fadd hfsq R)) (fmul k Ln2Lo))) f)
  end.

(** [math.Pow(x, y)] for a finite positive [x] and an integer [0 <= y < 2^63]: repeated squaring
    of the mantissa, with the exponent kept apart.  [y] has at most 63 bits, which bounds the
    iterations. *)
Fixpoint powLoop (fuel : nat) (i : Z) (x1 : float64) (xe : Z) (a1 : float64) (ae : Z) : float64 * Z :=
  match fuel with
  | O => (a1, ae)
  | S fuel' =>
      if i =? 0 then (a1, ae)
      else if (xe <? - 2 ^ 12) || (2 ^ 12 <? xe) then (a1, ae + xe)
      else
        let '(a1', ae') := if Z.odd i then (fmul a1 x1, ae + xe) else (a1, ae) in
        let x2 := fmul x1 x1 in
        let '(x3, xe') := if flt x2 half then (fadd x2 x2, 2 * xe - 1) else (x2, 2 * xe) in
        powLoop fuel' (i / 2) x3 xe' a1' ae'
  end.

Definition PowInt (x : float64) (y : Z) : float64 :=
  if y =? 0 then ofZ 1 else if y =? 1 then x else
  let '(x1, xe) := SFfrexp 53 1024 x in
  let '(a1, ae) := powLoop 64 y x1 xe (ofZ 1) 0 in
  SFldexp 53 1024 a1 ae.

Section conversion.
Context `{GoConversion}.

(** [int(x)] and [uint32(x)]. *)
Definition toInt (x : float64) : Z :=
  match x with
  | S754_zero _ => 0
  | S754_finite s m e => let z := if s then - truncPos m e else truncPos m e in
                         if (- 2 ^ 63 <=? z) && (z <? 2 ^ 63) then z else unspecifiedInt
  | _ => unspecifiedInt
  end.

Definition toUint32 (x : float64) : Z :=
  match x with
  | S754_zero _ => 0
  | S754_finite s m e => let z := if s then - truncPos m e else truncPos m e in
                         if (0 <=? z) && (z <? 2 ^ 32) then z else u32 unspecifiedInt
  | _ => u32 unspecifiedInt
  end.
End conversion.
End F64.

(** ** Rounding *)
Module F64Facts.
Import F64.

Lemma digits2_pos_bounds p : 2 ^ (Zpos (digits2_pos p) - 1) <= Zpos p < 2 ^ Zpos (digits2_pos p).
Proof.
  assert (forall d, 2 ^ Zpos d = 2 * 2 ^ (Zpos d - 1)) as Hd.
  { intros d. replace (Zpos d) with (Z.succ (Zpos d - 1)) at 1 by lia. apply Z.pow_succ_r. lia. }
  induction p as [p IH|p IH|]; cbn [digits2_pos]; [..|by vm_compute];
    rewrite Hd; replace (Zpos (Pos.succ (digits2_pos p)) - 1) with (Zpos (digits2_pos p)) by lia; rewrite Hd in *; lia.
Qed.

(** A positive number has [d] digits when it lies between two powers of two. *)
Lemma digits2_unique p d : 2 ^ (d - 1) <= Zpos p < 2 ^ d -> Zpos (digits2_pos p) = d.
Proof.
  intros [Hl Hu]. pose proof (digits2_pos_bounds p) as [Hl' Hu']. set (d' := Zpos (digits2_pos p)) in *.
  assert (0 < d) as Hd. { destruct (decide (0 < d)); [done|]. destruct (decide (d = 0)) as [->|]; [cbn in Hu; lia|]. rewrite (Z.pow_neg_r 2 d) in Hu by lia. lia. }
  destruct (Z.lt_trichotomy d' d) as [H|[H|H]]; [|done|]; exfalso.
  - pose proof (Z.pow_le_mono_r 2 d' (d - 1)). lia.
  - pose proof (Z.pow_le_mono_r 2 d (d' - 1)). lia.
Qed.

Lemma iter_pos_ind {A} (f : A -> A) (P : Z -> A -> Prop) x :
  P 0 x -> (forall n y, 0 <= n -> P n y -> P (n + 1) (f y)) -> forall n, P (Zpos n) (SpecFloat.iter_pos f n x).
Proof.
  intros H0 Hs. assert (forall n k y, 0 <= k -> P k y -> P (k + Zpos n) (SpecFloat.iter_pos f n y)) as Hg.
  { induction n as [n IH|n IH|]; intros k y Hk Hy; cbn [SpecFloat.iter_pos].
    - replace (k + Zpos n~1) with (((k + 1) + Zpos n) + Zpos n) by lia. apply IH; [lia|]. apply IH; [lia|]. by apply Hs.
    - replace (k + Zpos n~0) with ((k + Zpos n) + Zpos n) by lia. apply IH; [lia|]. by apply IH.
    - by apply Hs. }
  intros n. by apply (Hg n 0 x).
Qed.

(** Shifting right by [n] divides the mantissa by [2^n]. *)
Lemma shr_iter m n : 0 <= m -> shr_m (SpecFloat.iter_pos shr_1 n {| shr_m := m; shr_r := false; shr_s := false |}) = m / 2 ^ Zpos n.
Proof.
  intros Hm. refine (proj1 (iter_pos_ind shr_1 (fun k r => shr_m r = m / 2 ^ k /\ 0 <= shr_m r) _ _ _ n)).
  - cbn [shr_m]. by rewrite Z.div_1_r.
  - intros k [q r s] Hk [Hq Hq0]. cbn [shr_m] in *.
    assert (shr_m (shr_1 {| shr_m := q; shr_r := r; shr_s := s |}) = q / 2) as ->.
    { unfold shr_1. destruct q as [|[p|p|]|p]; cbn [shr_m]; try done; try lia.
      - rewrite (Pos2Z.inj_xI p). rewrite Z.mul_comm, Z.div_add_l by lia. change (1 / 2) with 0. lia.
      - rewrite (Pos2Z.inj_xO p). by rewrite Z.mul_comm, Z.div_mul. }
    rewrite Hq, Z.div_div by lia. rewrite Z.pow_add_r, Z.pow_1_r by lia. split; [done|]. apply Z.div_pos; lia.
Qed.

Lemma round_nearest_even_range m l : round_nearest_even m l = m \/ round_nearest_even m l = m + 1.
Proof. unfold round_nearest_even. repeat case_match; auto. Qed.

Lemma shr_m_of_loc m l : shr_m (shr_record_of_loc m l) = m.
Proof. destruct l as [|[]]; done. Qed.

(** Rounding of a positive number [m * 2^e] that does not overflow: let [f] be the exponent the
    format gives it.  If the number already has that precision it is kept; otherwise the result
    is the mantissa truncated at [f] or its successor. *)
Definition fexp64 (m : positive) (e : Z) : Z := fexp 53 1024 (Zpos (digits2_pos m) + e).

Lemma fexp64_unfold m e : fexp64 m e = Z.max (Zpos (digits2_pos m) + e - 53) (-1074).
Proof. unfold fexp64, fexp, emin. lia. Qed.

Lemma round_kept m e : fexp64 m e <= e <= 971 -> binary_round_aux 53 1024 false (Zpos m) e loc_Exact = S754_finite false m e.
Proof.
  intros Hf. assert (forall m', shr_fexp 53 1024 m' e loc_Exact = shr {| shr_m := m'; shr_r := false; shr_s := false |} e (fexp 53 1024 (Zdigits2 m' + e) - e)) as Hs by done.
  assert (shr_fexp 53 1024 (Zpos m) e loc_Exact = ({| shr_m := Zpos m; shr_r := false; shr_s := false |}, e)) as Hm.
  { rewrite Hs. cbn [Zdigits2]. fold (fexp64 m e). unfold shr. destruct (fexp64 m e - e) eqn:He; [done|lia|done]. }
  unfold binary_round_aux. rewrite Hm. cbn [shr_m loc_of_shr_record round_nearest_even]. rewrite Hm. cbn [shr_m].
  by rewrite (proj2 (Z.leb_le _ _)) by lia.
Qed.

Lemma round_shifted m e (f := fexp64 m e) :
  e < f <= 970 ->
  exists r, (r = Zpos m / 2 ^ (f - e) \/ r = Zpos m / 2 ^ (f - e) + 1) /\ 0 <= r <= 2 ^ 53 /\
    ((r = 0 /\ binary_round_aux 53 1024 false (Zpos m) e loc_Exact = S754_zero false) \/
     (exists m', Zpos m' = r /\ Zpos m' < 2 ^ 53 /\ binary_round_aux 53 1024 false (Zpos m) e loc_Exact = S754_finite false m' f) \/
     (r = 2 ^ 53 /\ binary_round_aux 53 1024 false (Zpos m) e loc_Exact = S754_finite false (2 ^ 52) (f + 1))).
Proof.
  intros Hf. pose proof (digits2_pos_bounds m) as Hm. pose proof (fexp64_unfold m e) as Hfe. fold f in Hfe. set (n := f - e).
  assert (0 <= Zpos m / 2 ^ n < 2 ^ 53) as Hq.
  { split; [apply Z.div_pos; lia|]. apply Z.div_lt_upper_bound; [lia|]. rewrite <- Z.pow_add_r by lia.
    eapply Z.lt_le_trans; [apply Hm|]. apply Z.pow_le_mono_r; lia. }
  assert (exists mrs, shr_fexp 53 1024 (Zpos m) e loc_Exact = (mrs, f) /\ shr_m mrs = Zpos m / 2 ^ n) as (mrs & Hshr & Hmrs).
  { unfold shr_fexp. cbn [Zdigits2 shr_record_of_loc]. fold (fexp64 m e). fold f. fold n.
    unfold shr. destruct n as [|p|p] eqn:Hp; [lia| |lia]. eexists. split; [f_equal; lia|]. apply shr_iter. lia. }
  unfold binary_round_aux. rewrite Hshr.
  set (r := round_nearest_even (shr_m mrs) (loc_of_shr_record mrs)).
  assert (r = Zpos m / 2 ^ n \/ r = Zpos m / 2 ^ n + 1) as Hr by (unfold r; rewrite <- Hmrs; apply round_nearest_even_range).
  exists r. split; [done|]. split; [lia|]. clearbody r. unfold shr_fexp.
  destruct r as [|r|r]; [| |lia]; cbn [Zdigits2 shr_record_of_loc].
  { left. split; [done|]. replace (fexp 53 1024 (0 + f) - f) with (Z.max (-53) (-1074 - f)) by (unfold fexp, emin; lia).
    unfold shr. by destruct (Z.max (-53) (-1074 - f)) eqn:Hx; [|lia|]. }
  right. pose proof (digits2_pos_bounds r) as Hrb.
  destruct (decide (Zpos r = 2 ^ 53)) as [H53|H53]; [right|left].
  - split; [done|]. assert (Zpos (digits2_pos r) = 54) as -> by (apply digits2_unique; lia).
    replace (fexp 53 1024 (54 + f) - f) with 1 by (unfold fexp, emin; lia).
    injection H53 as ->. cbn [shr SpecFloat.iter_pos shr_1 shr_m orb]. by rewrite (proj2 (Z.leb_le _ _)) by lia.
  - exists r. split; [done|]. split; [lia|].
    assert (Zpos (digits2_pos r) <= 53) as Hd.
    { destruct (decide (Zpos (digits2_pos r) <= 53)); [done|]. pose proof (Z.pow_le_mono_r 2 53 (Zpos (digits2_pos r) - 1)). lia. }
    destruct (fexp 53 1024 (Zpos (digits2_pos r) + f) - f) as [|x|x] eqn:Hx; cbn [shr shr_m];
      [by rewrite (proj2 (Z.leb_le _ _)) by lia|exfalso; unfold fexp, emin in Hx; lia|by rewrite (proj2 (Z.leb_le _ _)) by lia].
Qed.

(** The rounded number exceeds the exact one by at most one unit at the exponent [f].  [K]
    scales both to integers. *)
Definition scaled (x : float64) (K : Z) : Z := match x with S754_finite false m e => Zpos m * 2 ^ (e + K) | _ => 0 end.
Definition nonneg (x : float64) : Prop := match x with S754_zero _ => True | S754_finite s _ _ => s = false | _ => False end.

Lemma round_upper m e K (x := binary_round_aux 53 1024 false (Zpos m) e loc_Exact) :
  fexp64 m e <= 970 -> e <= 970 -> 0 <= e + K -> 0 <= K - 1074 ->
  nonneg x /\ scaled x K <= Zpos m * 2 ^ (e + K) + 2 ^ (fexp64 m e + K) /\
  (forall s m' e', x = S754_finite s m' e' -> -1074 <= e').
Proof.
  intros Hf He HK HK2. unfold x. destruct (decide (fexp64 m e <= e)) as [Hle|Hgt].
  { rewrite round_kept by lia. split; [done|]. split; [cbn; lia|]. intros s m' e' [= <- <- <-]. rewrite fexp64_unfold in Hle. lia. }
  destruct (round_shifted m e) as (r & Hr & Hr0 & Hres); [lia|].
  assert (-1074 <= fexp64 m e) as Hmin by (rewrite fexp64_unfold; lia). set (f := fexp64 m e) in *.
  assert (r * 2 ^ (f + K) <= Zpos m * 2 ^ (e + K) + 2 ^ (f + K)) as Hb.
  { replace (f + K) with ((f - e) + (e + K)) by lia. rewrite Z.pow_add_r by lia.
    assert (0 < 2 ^ (e + K)) by (apply Z.pow_pos_nonneg; lia). assert (0 < 2 ^ (f - e)) by (apply Z.pow_pos_nonneg; lia).
    pose proof (Z.mul_div_le (Zpos m) (2 ^ (f - e))). nia. }
  destruct Hres as [[-> ->]|[(m' & <- & _ & ->)|[-> ->]]]; 
    (split; [done|]); (split; [|intros ? ? ? [=]; lia]); cbn [scaled]; [|done|].
  - assert (0 <= 2 ^ (e + K)) by (apply Z.pow_nonneg; lia). assert (0 <= 2 ^ (f + K)) by (apply Z.pow_nonneg; lia). lia.
  - replace (f + 1 + K) with (1 + (f + K)) by lia. rewrite Z.pow_add_r by lia. lia.
Qed.

(** *** Numbers between 0 and 1 *)
Definition le1 (x : float64) : Prop :=
  match x with
  | S754_zero _ => True
  | S754_finite false m e => Zpos m < 2 ^ 53 /\ (Zpos (digits2_pos m) + e <= 0 \/ (m = (2 ^ 52)%positive /\ e = -52))
  | _ => False
  end.

Lemma digits2_le p d : 0 <= d -> Zpos p < 2 ^ d -> Zpos (digits2_pos p) <= d.
Proof.
  intros Hd Hp. pose proof (digits2_pos_bounds p). destruct (decide (Zpos (digits2_pos p) <= d)); [done|].
  pose proof (Z.pow_le_mono_r 2 d (Zpos (digits2_pos p) - 1)). lia.
Qed.

Lemma digits2_mul p q : Zpos (digits2_pos (p * q)) <= Zpos (digits2_pos p) + Zpos (digits2_pos q).
Proof.
  apply digits2_le; [lia|]. pose proof (digits2_pos_bounds p). pose proof (digits2_pos_bounds q).
  rewrite Pos2Z.inj_mul, Z.pow_add_r by lia. nia.
Qed.

Lemma round_le1 m e : Zpos (digits2_pos m) + e <= 0 -> le1 (binary_round_aux 53 1024 false (Zpos m) e loc_Exact).
Proof.
  intros Hd. pose proof (digits2_pos_bounds m) as Hm. pose proof (fexp64_unfold m e) as Hf.
  destruct (decide (fexp64 m e <= e)) as [Hle|Hgt].
  { rewrite round_kept by lia. cbn. split; [|by left]. eapply Z.lt_le_trans; [apply Hm|]. apply Z.pow_le_mono_r; lia. }
  destruct (round_shifted m e) as (r & Hr & Hr0 & Hres); [lia|]. set (f := fexp64 m e) in *.
  destruct Hres as [[-> ->]|[(m' & Hm' & Hlt & ->)|[-> ->]]]; [done| |].
  - cbn. split; [done|]. left. assert (Zpos (digits2_pos m') <= - f); [|lia]. apply digits2_le; [lia|]. rewrite Hm'.
    assert (Zpos m / 2 ^ (f - e) < 2 ^ (- f)) as Hq.
    { apply Z.div_lt_upper_bound; [lia|]. rewrite <- Z.pow_add_r by lia. eapply Z.lt_le_trans; [apply Hm|]. apply Z.pow_le_mono_r; lia. }
    assert (2 ^ 53 <= 2 ^ (- f)) by (apply Z.pow_le_mono_r; lia). lia.
  - cbn. split; [done|]. destruct (decide (f = -53)) as [->|Hne]; [by right|left]. change (53 + (f + 1) <= 0). lia.
Qed.

Lemma fmul_le1 x y : le1 x -> le1 y -> le1 (fmul x y).
Proof.
  destruct x as [sx| | |[] mx ex], y as [sy| | |[] my ey]; cbn [le1]; try done.
  intros [Hx Hx'] [Hy Hy']. unfold fmul, SFmul. cbn [xorb].
  destruct Hx' as [Hx'|[-> ->]], Hy' as [Hy'|[-> ->]]; [..|vm_compute; split; [done|by right]]; apply round_le1.
  - pose proof (digits2_mul mx my). lia.
  - pose proof (digits2_pos_bounds mx). assert (Zpos (digits2_pos (mx * 2 ^ 52)) = Zpos (digits2_pos mx) + 52) as ->; [|lia].
    apply digits2_unique. rewrite Pos2Z.inj_mul. replace (Zpos (digits2_pos mx) + 52 - 1) with (Zpos (digits2_pos mx) - 1 + 52) by lia.
    rewrite !Z.pow_add_r by lia. change (Zpos (2 ^ 52)) with (2 ^ 52). nia.
  - pose proof (digits2_pos_bounds my). assert (Zpos (digits2_pos (2 ^ 52 * my)) = Zpos (digits2_pos my) + 52) as ->; [|lia].
    apply digits2_unique. rewrite Pos2Z.inj_mul. replace (Zpos (digits2_pos my) + 52 - 1) with (Zpos (digits2_pos my) - 1 + 52) by lia.
    rewrite !Z.pow_add_r by lia. change (Zpos (2 ^ 52)) with (2 ^ 52). nia.
Qed.

Lemma iter_xO m j : Zpos (Pos.iter xO m j) = Zpos m * 2 ^ Zpos j.
Proof.
  induction j as [|j IH] using Pos.peano_ind; [cbn; lia|].
  rewrite Pos.iter_succ, Pos2Z.inj_xO, IH, Pos2Z.inj_succ, Z.pow_succ_r by lia. lia.
Qed.

(** Aligning to the left keeps the value. *)
Lemma binary_round_align m e :
  exists m2 d, 0 <= d /\ binary_round 53 1024 false m e = binary_round_aux 53 1024 false (Zpos m2) (e - d) loc_Exact /\
    Zpos m2 = Zpos m * 2 ^ d /\ Zpos (digits2_pos m2) = Zpos (digits2_pos m) + d /\
    d = Z.max 0 (e - fexp64 m e).
Proof.
  unfold binary_round. fold (fexp64 m e). unfold shl_align.
  destruct (fexp64 m e - e) as [|k|k] eqn:Hk.
  1,2: exists m, 0; rewrite Z.sub_0_r, Z.add_0_r, Z.mul_1_r; repeat split; auto; lia.
  exists (Pos.iter xO m k), (Zpos k). split; [lia|]. split; [do 2 f_equal; lia|]. split; [apply iter_xO|].
  split; [|lia]. pose proof (digits2_pos_bounds m). apply digits2_unique. rewrite iter_xO.
  replace (Zpos (digits2_pos m) + Zpos k - 1) with (Zpos (digits2_pos m) - 1 + Zpos k) by lia.
  rewrite !Z.pow_add_r by lia. nia.
Qed.

Lemma binary_round_le1 m e : Zpos (digits2_pos m) + e <= 0 -> le1 (binary_round 53 1024 false m e).
Proof.
  intros Hd. destruct (binary_round_align m e) as (m2 & d & Hd0 & -> & Hm2 & Hdig & _). apply round_le1. lia.
Qed.

(** *** [Pow] of a base below 1 stays between 0 and 1 *)
Lemma half_value : half = S754_finite false 4503599627370496 (-53).
Proof. by vm_compute. Qed.

(** Doubling a number below one half. *)
Lemma double_le1 x : le1 x -> flt x half = true -> le1 (fadd x x).
Proof.
  destruct x as [[]| | |[] m e]; cbn [le1]; try done. intros [Hm _]. unfold flt, SFltb. rewrite half_value. cbn [SFcompare].
  intros Hlt. pose proof (digits2_pos_bounds m) as Hd.
  assert (Zpos (digits2_pos m) <= 53) as H53 by (by apply digits2_le).
  unfold fadd, SFadd. rewrite Z.min_id. unfold shl_align. rewrite Z.sub_diag. cbn [fst cond_Zopp].
  rewrite <- Pos2Z.inj_add. cbn [binary_normalize]. apply binary_round_le1.
  assert (Zpos (digits2_pos (m + m)) = Zpos (digits2_pos m) + 1) as ->.
  { apply digits2_unique. rewrite Pos2Z.inj_add. replace (Zpos (digits2_pos m) + 1 - 1) with (Zpos (digits2_pos m) - 1 + 1) by lia.
    rewrite !Z.pow_add_r by lia. lia. }
  destruct (Z.compare_spec e (-53)) as [He|He|He]; [|lia|done].
  assert (m ?= 4503599627370496 = Lt)%positive as Hc by (unfold Pos.compare; by destruct (Pos.compare_cont Eq m _)).
  assert (Zpos (digits2_pos m) <= 52); [|lia]. apply digits2_le; [lia|]. change (2 ^ 52) with 4503599627370496. apply Pos.compare_lt_iff in Hc. apply Pos2Z.pos_lt_pos in Hc. exact Hc.
Qed.

Lemma powLoop_le1 fuel : forall i x1 xe a1 ae,
  le1 x1 -> le1 a1 -> xe <= 0 -> ae <= 0 ->
  le1 (powLoop fuel i x1 xe a1 ae).1 /\ (powLoop fuel i x1 xe a1 ae).2 <= 0.
Proof.
  induction fuel as [|fuel IH]; intros i x1 xe a1 ae Hx Ha Hxe Hae; [done|]. cbn [powLoop].
  destruct (i =? 0); [done|]. destruct ((xe <? - 2 ^ 12) || (2 ^ 12 <? xe)); [cbn; split; [done|lia]|].
  assert (le1 (if Z.odd i then (fmul a1 x1, ae + xe) else (a1, ae)).1 /\ (if Z.odd i then (fmul a1 x1, ae + xe) else (a1, ae)).2 <= 0) as [Ha' Hae'].
  { destruct (Z.odd i); cbn; [|done]. split; [by apply fmul_le1|lia]. }
  destruct (if Z.odd i then _ else _) as [a1' ae'].
  destruct (flt (fmul x1 x1) half) eqn:Hh; apply IH; try done; try lia; [apply double_le1; [|done]|]; by apply fmul_le1.
Qed.

Lemma frexp_le1 m e : Zpos m < 2 ^ 53 -> le1 (SFfrexp 53 1024 (S754_finite false m e)).1.
Proof.
  intros Hm. pose proof (digits2_pos_bounds m) as Hd. pose proof (digits2_le m 53 ltac:(lia) Hm) as H53. cbn [SFfrexp].
  destruct (Z.leb_spec 53 (Zpos (digits2_pos m))) as [H|H]; cbn [fst le1]; [split; [done|left; lia]|].
  set (k := Z.to_pos (53 - Zpos (digits2_pos m))). assert (Zpos k = 53 - Zpos (digits2_pos m)) as Hk by lia.
  assert (Zpos (Pos.iter xO m k) < 2 ^ 53) as Hlt.
  { rewrite iter_xO. replace 53 with (Zpos (digits2_pos m) + Zpos k) by lia. rewrite Z.pow_add_r by lia. nia. }
  split; [done|]. left. pose proof (digits2_le _ 53 ltac:(lia) Hlt). lia.
Qed.

Lemma ldexp_le1 x e : le1 x -> e <= 0 -> le1 (SFldexp 53 1024 x e).
Proof.
  destruct x as [| | |[] m f]; cbn [le1]; try done. intros [Hm Hf] He. unfold SFldexp.
  destruct Hf as [Hf|[-> ->]]; [apply binary_round_le1; lia|].
  destruct (decide (e = 0)) as [->|Hne]; [vm_compute; split; [done|by right]|]. apply binary_round_le1.
  change (Zpos (digits2_pos (2 ^ 52))) with 53. lia.
Qed.

Lemma PowInt_le1 m e y :
  Zpos m < 2 ^ 53 -> le1 (S754_finite false m e) -> (SFfrexp 53 1024 (S754_finite false m e)).2 <= 0 ->
  le1 (PowInt (S754_finite false m e) y).
Proof.
  intros Hm Hx He. unfold PowInt. destruct (y =? 0); [vm_compute; split; [done|by right]|]. destruct (y =? 1); [done|].
  pose proof (frexp_le1 m e Hm) as Hf. destruct (SFfrexp 53 1024 (S754_finite false m e)) as [x1 xe]. cbn [fst snd] in *.
  pose proof (powLoop_le1 64 y x1 xe (ofZ 1) 0 Hf ltac:(vm_compute; split; [done|by right]) He ltac:(lia)) as [Ha Hae].
  destruct (powLoop 64 y x1 xe (ofZ 1) 0) as [a1 ae]. by apply ldexp_le1.
Qed.

(** *** Products with small integers *)
Lemma ofZ_value n :
  0 < n < 2 ^ 53 ->
  exists m e, ofZ n = S754_finite false m e /\ -52 <= e <= 0 /\ Zpos m = n * 2 ^ (- e) /\ Zpos (digits2_pos m) = 53.
Proof.
  intros Hn. destruct n as [|n|]; [lia| |lia]. unfold ofZ. cbn [binary_normalize].
  pose proof (digits2_le n 53 ltac:(lia) ltac:(lia)) as Hd. pose proof (fexp64_unfold n 0) as Hf.
  destruct (binary_round_align n 0) as (m2 & d & Hd0 & -> & Hm2 & Hdig & Hd').
  rewrite round_kept; [|rewrite fexp64_unfold; lia]. exists m2, (0 - d). split; [done|]. split; [lia|].
  replace (- (0 - d)) with d by lia. split; [done|lia].
Qed.

(** Truncation below a bound. *)
Lemma truncPos_lt m e K X : 0 <= K -> 0 <= e + K -> Zpos m * 2 ^ (e + K) < X * 2 ^ K -> truncPos m e < X.
Proof.
  intros HK HeK Hlt. unfold truncPos. destruct (Z.leb_spec 0 e) as [He|He].
  - rewrite Z.pow_add_r in Hlt by lia. assert (0 < 2 ^ K) by lia. nia.
  - apply Z.div_lt_upper_bound; [lia|].
    assert (2 ^ K = 2 ^ (- e) * 2 ^ (e + K)) as HK2 by (rewrite <- Z.pow_add_r by lia; f_equal; lia).
    rewrite HK2 in Hlt. assert (0 < 2 ^ (e + K)) by lia. nia.
Qed.

Lemma truncPos_nonneg m e : 0 <= truncPos m e.
Proof. unfold truncPos. case_match; [|apply Z.div_pos]; lia. Qed.

Section products.
Context `{GoConversion}.

Lemma toInt_lt x K X :
  nonneg x -> 0 < X <= 2 ^ 63 -> 1074 <= K -> (forall s m e, x = S754_finite s m e -> 0 <= e + K) ->
  scaled x K < X * 2 ^ K -> 0 <= toInt x < X.
Proof.
  intros Hx HX HK He Hlt. destruct x as [s| | |s m e]; [cbn; lia|done|done|]. cbn in Hx. subst s. cbn [scaled] in Hlt. cbn [toInt].
  pose proof (truncPos_nonneg m e) as H0. pose proof (truncPos_lt m e K X ltac:(lia) (He _ _ _ eq_refl) Hlt) as H1.
  rewrite (proj2 (Z.leb_le _ _)), (proj2 (Z.ltb_lt _ _)) by lia. done.
Qed.

(** The product of [x = m * 2^e] (at most 1) with an integer [n] of less than 52 bits,
    truncated, stays below [X] when the exact product, plus [n / 2^51] for the rounding, does. *)
Lemma fmul_int m e n X :
  le1 (S754_finite false m e) -> -1074 <= e -> 0 < n < 2 ^ 52 -> 0 < X <= 2 ^ 63 ->
  Zpos m * n * 2 ^ 51 + n * 2 ^ (- e) < X * 2 ^ (- e) * 2 ^ 51 ->
  0 <= toInt (fmul (S754_finite false m e) (ofZ n)) < X.
Proof.
  intros [Hm Hle] He Hn HX Hlt. destruct (ofZ_value n) as (mn & en & -> & Hen & Hmn & Hdn); [lia|].
  pose proof (digits2_pos_bounds mn) as Hmnb. rewrite Hdn in Hmnb. pose proof (digits2_mul m mn) as HdM.
  assert (Zpos (digits2_pos m) + e <= 1 /\ e < 0) as [Hdm He'] by (destruct Hle as [Hle|[-> ->]]; [lia|by vm_compute]).
  unfold fmul, SFmul. cbn [xorb]. set (M := (m * mn)%positive) in *. pose proof (fexp64_unfold M (e + en)) as HF.
  assert (exists K, 1200 <= K) as [K HK] by (by exists 1200).
  destruct (round_upper M (e + en) K) as (Hnn & Hup & Hexp); [lia..|].
  apply (toInt_lt _ K); [done|done|lia|intros s m' e' Hx; specialize (Hexp _ _ _ Hx); lia|].
  eapply Z.le_lt_trans; [exact Hup|]. clear Hup Hexp Hnn.
  (* the exact product *)
  assert (Zpos M * 2 ^ (e + en + K) = Zpos m * n * 2 ^ (e + K)) as ->.
  { unfold M. rewrite Pos2Z.inj_mul, Hmn. replace (e + K) with (- en + (e + en + K)) by lia. rewrite (Z.pow_add_r 2 (- en)) by lia. ring. }
  (* the rounding *)
  assert (2 ^ (fexp64 M (e + en) + K) <= n * 2 ^ (K - 51)) as Hround.
  { assert (2 ^ (en + 1 + K) <= n * 2 ^ (K - 51)) as H1.
    { assert (2 ^ (en + 52) <= n) as Hn2.
      { assert (2 ^ (53 - 1) <= n * 2 ^ (- en)) as H2 by lia. replace (53 - 1) with (en + 52 + - en) in H2 by lia.
        rewrite Z.pow_add_r in H2 by lia. assert (0 < 2 ^ (- en)) by lia. nia. }
      replace (en + 1 + K) with (en + 52 + (K - 51)) by lia. rewrite Z.pow_add_r by lia. assert (0 < 2 ^ (K - 51)) by lia. nia. }
    destruct (decide (fexp64 M (e + en) <= en + 1)) as [Hc|Hc].
    - eapply Z.le_trans; [|exact H1]. apply Z.pow_le_mono_r; lia.
    - exfalso. lia. }
  assert (2 ^ K = 2 ^ (- e) * 2 ^ 51 * 2 ^ (e + K - 51)) as HKe by (rewrite <- !Z.pow_add_r by lia; f_equal; lia).
  assert (2 ^ (e + K) = 2 ^ 51 * 2 ^ (e + K - 51)) as HKe2 by (rewrite <- !Z.pow_add_r by lia; f_equal; lia).
  assert (2 ^ (K - 51) = 2 ^ (- e) * 2 ^ (e + K - 51)) as HKe3 by (rewrite <- !Z.pow_add_r by lia; f_equal; lia).
  rewrite HKe, HKe2. rewrite HKe3 in Hround. assert (0 < 2 ^ (e + K - 51)) as Hpos by lia. nia.
Qed.
End products.
End F64Facts.

(** Quotients of integers in float64: [int(math.Ceil(float64(n) / float64(d)))] is the exact
    ceiling of [n / d] for integers of at most 52 bits.  The quotient is rounded to 53 bits, which
    is less than the distance of a fraction with denominator [d] to the next integer, and an
    integer quotient is represented exactly. *)
Module F64Div.
Import F64 F64Facts.

Lemma shr1_loc q l : shr_m (shr_1 (shr_record_of_loc (Zpos q) l)) = Zpos q / 2.
Proof.
  transitivity (match q with xI p | xO p => Zpos p | xH => 0 end); [by destruct q, l as [|[]]|].
  destruct q as [p|p|]; [rewrite (Pos2Z.inj_xI p)|rewrite (Pos2Z.inj_xO p)|done]; [|by rewrite Z.mul_comm, Z.div_mul].
  replace (2 * Zpos p + 1) with (1 + Zpos p * 2) by lia. by rewrite Z.div_add.
Qed.

(** Rounding of a mantissa of 53 or 54 bits with any location: the mantissa truncated to 53 bits
    or its successor, and the mantissa itself if nothing is lost. *)
Lemma round_quotient q e l k :
  (k = 0 \/ k = 1) -> Zpos (digits2_pos q) = 53 + k -> -1000 <= e <= 900 ->
  exists r m' e', (r = Zpos q / 2 ^ k \/ r = Zpos q / 2 ^ k + 1) /\
    (l = loc_Exact -> Zpos q mod 2 ^ k = 0 -> r = Zpos q / 2 ^ k) /\
    binary_round_aux 53 1024 false (Zpos q) e l = S754_finite false m' e' /\
    e + k <= e' /\ Zpos m' * 2 ^ (e' - (e + k)) = r.
Proof.
  intros Hk Hd He. pose proof (digits2_pos_bounds q) as Hq. rewrite Hd in Hq.
  assert (exists mrs, shr_fexp 53 1024 (Zpos q) e l = (mrs, e + k) /\ shr_m mrs = Zpos q / 2 ^ k /\
            (l = loc_Exact -> Zpos q mod 2 ^ k = 0 -> loc_of_shr_record mrs = loc_Exact)) as (mrs & Hs & Hm & Hx).
  { unfold shr_fexp. cbn [Zdigits2]. rewrite Hd. replace (fexp 53 1024 (53 + k + e) - e) with k by (unfold fexp, emin; lia).
    destruct Hk as [->| ->]; cbn [shr].
    - eexists. split; [f_equal; lia|]. rewrite shr_m_of_loc, Z.div_1_r. split; [done|]. by intros -> _.
    - eexists. split; [done|]. cbn [SpecFloat.iter_pos]. rewrite shr1_loc, Z.pow_1_r. split; [done|].
      intros -> Hz. destruct q as [p|p|]; [|done|cbn in Hd; lia]. rewrite (Pos2Z.inj_xI p) in Hz.
      replace (2 * Zpos p + 1) with (1 + Zpos p * 2) in Hz by lia. rewrite Z.mod_add in Hz by lia. done. }
  unfold binary_round_aux. rewrite Hs. set (r := round_nearest_even _ _).
  assert (r = Zpos q / 2 ^ k \/ r = Zpos q / 2 ^ k + 1) as Hr by (unfold r; rewrite <- Hm; apply round_nearest_even_range).
  assert (l = loc_Exact -> Zpos q mod 2 ^ k = 0 -> r = Zpos q / 2 ^ k) as Hex by (intros Hl Hz; unfold r; rewrite Hx; done).
  assert (2 ^ 52 <= Zpos q / 2 ^ k < 2 ^ 53) as Hb.
  { split; [apply Z.div_le_lower_bound|apply Z.div_lt_upper_bound]; destruct Hk as [->| ->]; lia. }
  exists r. clearbody r. destruct r as [|r|r]; [lia| |lia]. unfold shr_fexp. cbn [Zdigits2 shr_record_of_loc].
  destruct (decide (Zpos r = 2 ^ 53)) as [H53|H53].
  - assert (Zpos (digits2_pos r) = 54) as -> by (apply digits2_unique; lia). injection H53 as ->.
    replace (fexp 53 1024 (54 + (e + k)) - (e + k)) with 1 by (unfold fexp, emin; lia).
    cbn [shr SpecFloat.iter_pos shr_1 shr_m orb]. rewrite (proj2 (Z.leb_le _ _)) by lia.
    exists 4503599627370496%positive, (e + k + 1). replace (e + k + 1 - (e + k)) with 1 by lia. repeat split; auto; lia.
  - assert (Zpos (digits2_pos r) = 53) as -> by (apply digits2_unique; lia).
    replace (fexp 53 1024 (53 + (e + k)) - (e + k)) with 0 by (unfold fexp, emin; lia). cbn [shr shr_m]. rewrite (proj2 (Z.leb_le _ _)) by lia.
    exists r, (e + k). rewrite Z.sub_diag. repeat split; auto; lia.
Qed.

Lemma ceilPos_spec m e K c :
  0 <= K -> 0 <= e + K -> (c - 1) * 2 ^ K < Zpos m * 2 ^ (e + K) <= c * 2 ^ K -> ceilPos m e = c.
Proof.
  intros HK HeK [Hl Hu]. unfold ceilPos. destruct (Z.leb_spec 0 e) as [He|He].
  - rewrite Z.pow_add_r in Hl, Hu by lia. assert (0 < 2 ^ K) by lia. nia.
  - assert (2 ^ K = 2 ^ (- e) * 2 ^ (e + K)) as HK2 by (rewrite <- Z.pow_add_r by lia; f_equal; lia).
    rewrite HK2 in Hl, Hu. assert (0 < 2 ^ (e + K)) by lia. assert (0 < 2 ^ (- e)) by lia.
    enough (- Zpos m / 2 ^ (- e) = - c) by lia. symmetry. apply (Z.div_unique _ _ _ (c * 2 ^ (- e) - Zpos m)); [|lia].
    left. nia.
Qed.

Section conversion.
Context `{GoConversion}.

Lemma toInt_ofZ c : 0 <= c < 2 ^ 53 -> toInt (signed false c) = c.
Proof.
  intros Hc. unfold signed. destruct (Z.eqb_spec c 0) as [->|Hne]; [done|].
  destruct (ofZ_value c) as (m & e & -> & He & Hm & _); [lia|]. cbn [toInt].
  assert (truncPos m e = c) as ->; [|by rewrite (proj2 (Z.leb_le _ _)), (proj2 (Z.ltb_lt _ _)) by lia].
  unfold truncPos. destruct (Z.leb_spec 0 e) as [H0|H0]; rewrite Hm; [|by rewrite Z.div_mul by lia].
  replace e with 0 by lia. cbn. lia.
Qed.

(** The mantissa of the quotient, before rounding. *)
Lemma fdiv_ofZ n d :
  0 < n < 2 ^ 53 -> 0 < d < 2 ^ 53 ->
  exists m1 e1 m2 e2 q l k, m1 = n * 2 ^ (- e1) /\ m2 = d * 2 ^ (- e2) /\ -52 <= e1 <= 0 /\ -52 <= e2 <= 0 /\
    Zpos q = m1 * 2 ^ 53 / m2 /\ (k = 0 \/ k = 1) /\ Zpos (digits2_pos q) = 53 + k /\ 0 < m2 /\
    (m1 * 2 ^ 53 mod m2 = 0 -> l = loc_Exact) /\
    fdiv (ofZ n) (ofZ d) = binary_round_aux 53 1024 false (Zpos q) (e1 - e2 - 53) l.
Proof.
  intros Hn Hd. destruct (ofZ_value n Hn) as (m1 & e1 & -> & He1 & Hm1 & Hd1). destruct (ofZ_value d Hd) as (m2 & e2 & -> & He2 & Hm2 & Hd2).
  pose proof (digits2_pos_bounds m1) as Hb1. pose proof (digits2_pos_bounds m2) as Hb2. rewrite Hd1 in Hb1. rewrite Hd2 in Hb2.
  assert (2 ^ 52 <= Zpos m1 * 2 ^ 53 / Zpos m2 < 2 ^ 54) as Hq.
  { split; [apply Z.div_le_lower_bound|apply Z.div_lt_upper_bound]; lia. }
  destruct (Zpos m1 * 2 ^ 53 / Zpos m2) as [|q|q] eqn:Eq; [lia| |lia].
  exists (Zpos m1), e1, (Zpos m2), e2, q, (new_location (Zpos m2) (Zpos m1 * 2 ^ 53 mod Zpos m2)), (if Zpos q <? 2 ^ 53 then 0 else 1).
  split; [done|]. split; [done|]. split; [done|]. split; [done|]. split; [done|]. split; [case_match; auto|].
  split; [apply digits2_unique; destruct (Z.ltb_spec (Zpos q) (2 ^ 53)); lia|]. split; [lia|].
  split. { intros ->. unfold new_location, new_location_even, new_location_odd. by destruct (Z.even _). }
  unfold fdiv, SFdiv, SFdiv_core_binary. cbn [xorb Zdigits2]. rewrite Hd1, Hd2.
  replace (Z.min _ _) with (e1 - e2 - 53) by (unfold fexp, emin; lia). replace (e1 - e2 - (e1 - e2 - 53)) with 53 by lia.
  rewrite Z.shiftl_mul_pow2 by lia. unfold Z.div, Z.modulo in *. destruct (Z.div_eucl _ _) as [q' r']. by rewrite Eq.
Qed.
(** What is left is arithmetic; [u] is the unit of the rounded quotient and [S] the scale. *)
Lemma ceil_of_rounded n d c r r0 u S :
  0 < d -> 0 < u -> (c - 1) * d < n <= c * d -> 2 ^ 52 <= r0 -> 0 < n < 2 ^ 52 ->
  d * (r0 * u) <= n * S < d * ((r0 + 1) * u) -> (r = r0 \/ r = r0 + 1) -> (n = c * d -> r = r0) ->
  (c - 1) * S < r * u <= c * S.
Proof.
  intros Hd Hu Hc Hr0 Hn Hq Hr Hex.
  assert (0 < d * (r0 * u)) as Hp by nia. assert (0 < S) as HS by nia.
  assert (d * u < S) as HuS. { assert (d * (2 ^ 52 * u) <= n * S) by nia. assert (n * S < 2 ^ 52 * S) by nia. nia. }
  assert (((c - 1) * d + 1) * S <= n * S) as Hlo by nia.
  split; [destruct Hr as [->| ->]; nia|].
  destruct (decide (n = c * d)) as [He|Hne]; [rewrite (Hex He); nia|].
  assert (n * S <= (c * d - 1) * S) as Hhi by nia. destruct Hr as [->| ->]; nia.
Qed.

Lemma nested_floor a b c :
  0 < b -> 0 < c -> a / b / c * c * b <= a < (a / b / c + 1) * c * b.
Proof.
  intros Hb Hc. pose proof (Z.mul_div_le a b Hb). pose proof (Z.mul_succ_div_gt a b Hb). 
  pose proof (Z.mul_div_le (a / b) c Hc). pose proof (Z.mul_succ_div_gt (a / b) c Hc). nia.
Qed.

Lemma unit_below_one n d r0 u S :
  0 < d -> 0 < n < 2 ^ 52 -> 2 ^ 52 <= r0 -> 0 < S -> S <= u -> d * (r0 * u) <= n * S -> False.
Proof.
  intros Hd Hn Hr HS Hu Hle. assert (r0 * S <= r0 * u) by (apply Z.mul_le_mono_nonneg_l; lia).
  assert (n * S < r0 * S) by (apply Z.mul_lt_mono_pos_r; lia). nia.
Qed.

(** An integer quotient leaves no remainder at any scale. *)
Lemma exact_quotient m1 m2 c j k :
  0 <= j -> (k = 0 \/ k = 1) -> 0 < m2 -> m1 * 2 ^ 53 = c * 2 ^ j * 2 ^ k * m2 ->
  m1 * 2 ^ 53 mod m2 = 0 /\ (m1 * 2 ^ 53 / m2) mod 2 ^ k = 0.
Proof.
  intros Hj Hk Hm ->. rewrite Z.mod_mul, Z.div_mul by lia. split; [done|]. apply Z.mod_mul. destruct Hk as [->| ->]; lia.
Qed.

Lemma ceil_quotient n d c :
  0 < n < 2 ^ 52 -> 0 < d < 2 ^ 53 -> (c - 1) * d < n <= c * d ->
  toInt (Ceil (fdiv (ofZ n) (ofZ d))) = c.
Proof.
  intros Hn Hd Hc. assert (0 < c <= n) as Hcn by nia.
  destruct (fdiv_ofZ n d) as (m1 & e1 & m2 & e2 & q & l & k & Hm1 & Hm2 & He1 & He2 & Hq & Hk & Hdig & Hm2p & Hl & ->); [lia..|].
  destruct (round_quotient q (e1 - e2 - 53) l k) as (r & m' & e' & Hr & Hex & -> & He' & Hval); [lia..|].
  set (f := e1 - e2 - 53 + k) in *. set (r0 := Zpos q / 2 ^ k) in *.
  assert (exists K, K = 300) as [K HK] by eauto.
  assert (2 ^ 52 <= r0) as Hr0.
  { pose proof (digits2_pos_bounds q) as Hb. rewrite Hdig in Hb. apply Z.div_le_lower_bound; destruct Hk as [->| ->]; lia. }
  assert (0 < 2 ^ k) as H2k by (destruct Hk as [->| ->]; lia).
  assert (n * 2 ^ K = m1 * 2 ^ 53 * 2 ^ (e1 + K - 53)) as HnK.
  { rewrite Hm1, <- !Z.mul_assoc, <- !Z.pow_add_r by lia. do 2 f_equal. lia. }
  assert (d * 2 ^ (f + K) = m2 * 2 ^ k * 2 ^ (e1 + K - 53)) as HdK.
  { rewrite Hm2, <- !Z.mul_assoc, <- !Z.pow_add_r by lia. do 2 f_equal. lia. }
  assert (0 < 2 ^ (e1 + K - 53)) as HW by lia. set (W := 2 ^ (e1 + K - 53)) in *. clearbody W.
  pose proof (nested_floor (m1 * 2 ^ 53) m2 (2 ^ k) Hm2p H2k) as Hfloor. rewrite <- Hq in Hfloor. fold r0 in Hfloor.
  assert (d * (r0 * 2 ^ (f + K)) <= n * 2 ^ K < d * ((r0 + 1) * 2 ^ (f + K))) as Hbounds.
  { rewrite HnK. replace (d * (r0 * 2 ^ (f + K))) with (r0 * (d * 2 ^ (f + K))) by ring.
    replace (d * ((r0 + 1) * 2 ^ (f + K))) with ((r0 + 1) * (d * 2 ^ (f + K))) by ring. rewrite HdK.
    rewrite !(Z.mul_assoc _ _ W). split; [apply Z.mul_le_mono_nonneg_r|apply Z.mul_lt_mono_pos_r]; lia. }
  assert (f < 0) as Hf.
  { destruct (decide (f < 0)); [done|]. exfalso. assert (2 ^ K <= 2 ^ (f + K)) as HKf by (apply Z.pow_le_mono_r; lia).
    apply (unit_below_one n d r0 (2 ^ (f + K)) (2 ^ K)); [lia..|]. apply Hbounds. }
  assert ((c - 1) * 2 ^ K < Zpos m' * 2 ^ (e' + K) <= c * 2 ^ K) as Hfin.
  { replace (e' + K) with (e' - f + (f + K)) by lia. rewrite Z.pow_add_r, Z.mul_assoc, Hval by lia.
    apply (ceil_of_rounded n d c r r0); [lia..|done|done|]. intros Hnc.
    destruct (exact_quotient m1 m2 c (- f) k) as [Hz1 Hz2]; [lia|done|done| |].
    - apply (Z.mul_reg_r _ _ W); [lia|]. rewrite <- HnK, Hnc. 
      replace (c * 2 ^ (- f) * 2 ^ k * m2 * W) with (c * 2 ^ (- f) * (m2 * 2 ^ k * W)) by ring. rewrite <- HdK.
      replace K with (- f + (f + K)) at 1 by lia. rewrite (Z.pow_add_r 2 (- f)) by lia. ring.
    - apply Hex; [by apply Hl|]. by rewrite Hq. }
  cbn [Ceil]. rewrite (ceilPos_spec m' e' K c) by lia. apply toInt_ofZ. lia.
Qed.
End conversion.
End F64Div.
