(* ===== verification/Sortition.v ===== *)
(** Verifiable random functions and sortition
    (src/consensus/leader_election/vrf/vrf.go, errors.go, sortition/sortition.go).

    The VRF itself (go-ecvrf), the binomial distribution (gonum) and the system's randomness are
    third-party code, here classes.  The probability computed from a VRF output is followed
    operation by operation in [math/big] and float64. *)

From Stdlib Require Import SpecFloat.
From S2P Require Import Prelude GoStd Errors Crypto GoFloat.
#[local] Open Scope string_scope.
#[local] Open Scope Z_scope.

(** ** Code outside the repository *)
Class Ecvrf := {
  EcPrivateKey : Type; EcPublicKey : Type;
  ecGenerateKey : bytes -> EcPrivateKey + string;                  (* from what the reader holds *)
  ecPublic : EcPrivateKey -> EcPublicKey + string;
  ecNewPublicKey : bytes -> EcPublicKey + string;
  ecPublicBytes : EcPublicKey -> bytes;
  ecPrivateBytes : EcPrivateKey -> bytes;
  ecProve : EcPrivateKey -> bytes -> (bytes * bytes) + string;     (* the output and its proof *)
  ecVerify : EcPublicKey -> bytes -> bytes -> (bool * bytes) + string;
}.
(** A proof made with a key is accepted by its public key, with the output it proves. *)
Class EcvrfLaws (E : Ecvrf) : Prop := {
  ec_complete : forall sk pk msg out proof, ecPublic sk = inl pk -> ecProve sk msg = inl (out, proof) -> ecVerify pk msg proof = inl (true, out);
}.

(** [crypto/rand.Int(rand.Reader, max)]: a value in [0, max); a maximum that is not positive panics. *)
Class CryptoRandInt := { CRnd : Type; crandInt : Z -> M CRnd string Z }.
Class CryptoRandIntLaws (C : CryptoRandInt) : Prop := {
  crand_range : forall max v r r', crandInt max r = (Ok v, r') -> 0 <= v < max;
}.

(** gonum's [distuv.Binomial]. *)
Record Binomial := { bin_N : F64.float64; bin_P : F64.float64; bin_Src : Z }.
Class BinomialDist := { binomialCDF : Binomial -> F64.float64 -> F64.float64 }.

(** ** VRF *)
Module Vrf.
Section vrf.
Context `{Ecvrf}.

Definition SeedSize : nat := 32.
Definition VRFOutputSize : nat := 64.

Definition ErrNilPrivateKey : string := "private key cannot be nil".
Definition ErrBadStateHashLength (seedSize : Z) : string :=
  "the previous block hash must be at least " +:+ bigIntText seedSize +:+ " bytes in length".

(** [copy(dst, src)], and [make([]byte, n)]. *)
Fixpoint goCopy (dst src : bytes) : bytes :=
  match dst, src with
  | String _ dst', String c src' => String c (goCopy dst' src')
  | _, _ => dst
  end.
Fixpoint zeroBytes (n : nat) : bytes := match n with O => "" | S n' => String Ascii.zero (zeroBytes n') end.

(** [privKey.Seed()]: the first half of an Ed25519 private key. *)
Definition Seed (privKey : bytes) : res string bytes :=
  if (String.length privKey <? SeedSize)%nat then Panic else Ok (String.substring 0 SeedSize privKey).

(** What the reader returned will read. *)
Definition CreateVRFRandReader (prevBlockHash : string) (privKey : option bytes) : res string bytes :=
  match privKey with
  | None => Err ErrNilPrivateKey
  | Some privKey =>
      if (String.length prevBlockHash <? SeedSize / 2)%nat then Err (ErrBadStateHashLength (Z.of_nat SeedSize))
      else
        match Seed privKey with
        | Ok keySeed =>
            let privKeySeed := String.substring 0 (SeedSize / 2) keySeed in
            let blockHashSeed := String.substring 0 (SeedSize / 2) prevBlockHash in
            let seed := zeroBytes SeedSize in
            let seed := goCopy seed privKeySeed in
            let seed := goCopy seed blockHashSeed in
            Ok seed
        | Err e => Err e
        | Panic => Panic
        end
  end.

Abbreviation SecretKey := EcPrivateKey.
Abbreviation VerificationKey := EcPublicKey.

Definition GenerateVRFKeys (reader : bytes) : SecretKey * VerificationKey + string :=
  match ecGenerateKey reader with
  | inr e => inr e
  | inl privateKey =>
      match ecPublic privateKey with
      | inr e => inr e
      | inl publicKey => inl (privateKey, publicKey)
      end
  end.

Definition VerificationKeyFromBytes (data : bytes) : VerificationKey + string := ecNewPublicKey data.

Definition Verify (key : VerificationKey) (msg vrfProof vrfOut : bytes) : bool + string :=
  match ecVerify key msg vrfProof with
  | inr e => inr e
  | inl (verified, vrf) => inl (verified && bool_decide (vrf = vrfOut))
  end.

Definition VerificationKey_Bytes (key : VerificationKey) : bytes := ecPublicBytes key.
Definition Prove (key : SecretKey) (msg : bytes) : (bytes * bytes) + string := ecProve key msg.
Definition SecretKey_VerificationKey (key : SecretKey) : VerificationKey + string := ecPublic key.
Definition SecretKey_Bytes (key : SecretKey) : bytes := ecPrivateBytes key.
End vrf.
End Vrf.

(** ** Sortition *)
Module Sortition.
Import F64.

(** [8 * (VRFOutputSize + 1)]. *)
Definition vrfOutFloatPrecision : Z := 8 * (Z.of_nat Vrf.VRFOutputSize + 1).

(** The number written with [2 * VRFOutputSize] digits [f], at that precision. *)
Definition maxVrfOutFloat : bigFloat := roundFloat vrfOutFloatPrecision (2 ^ (4 * (2 * Z.of_nat Vrf.VRFOutputSize)) - 1) 0.
(** [big.NewInt(^int64(0))], then [Abs]. *)
Definition maxRandomInt : Z := Z.abs (Z.lnot 0).

(** [SetBytes]: big-endian. *)
Fixpoint bytesValue (acc : Z) (s : bytes) : Z :=
  match s with "" => acc | String c s' => bytesValue (acc * 256 + Z.of_nat (Ascii.nat_of_ascii c)) s' end.

(** [x.Float64()]: the nearest float64. *)
Definition bigFloat64 (x : bigFloat) : float64 := binary_normalize 53 1024 (fmant x) (fexp x) false.

Definition vrfOutProb (vrfOut : bytes) : float64 :=
  let t := bytesValue 0 vrfOut in
  let h := roundFloat vrfOutFloatPrecision t 0 in
  bigFloat64 (bigFloatQuo h maxVrfOutFloat).

Definition fle (x y : float64) : bool := SFleb x y.

Section sortition.
Context `{BinomialDist} `{CryptoRandInt}.

(** [for j := 0; j < validatorStake; j++]: [n] values of [j] are left. *)
Fixpoint cdfWalk (binomial : Binomial) (vrfProb : float64) (j : Z) (n : nat) : Z :=
  match n with
  | O => j
  | S n' => if fle vrfProb (binomialCDF binomial (ofZ j)) then j else cdfWalk binomial vrfProb (j + 1) n'
  end.
Definition sortitionBinomialCDFWalk (binomial : Binomial) (vrfProb : float64) (validatorStake : Z) : Z :=
  cdfWalk binomial vrfProb 0 (Z.to_nat validatorStake).

(** A failing random source ends the process. *)
Definition Sortition (validatorStake networkStake numExpectedCandidates : Z) (vrfOut : bytes) : M CRnd string Z := fun rnd =>
  let p := fdiv (ofZ numExpectedCandidates) (ofZ networkStake) in
  let vrfProb := vrfOutProb vrfOut in
  match crandInt maxRandomInt rnd with
  | (Ok f, rnd') =>
      let binomial := {| bin_N := ofZ validatorStake; bin_P := p; bin_Src := u64 f |} in
      (Ok (sortitionBinomialCDFWalk binomial vrfProb validatorStake), rnd')
  | (_, rnd') => (Panic, rnd')
  end.
End sortition.

Definition FormatSeed (height round : Z) (prevBlockHash : string) : bytes :=
  bigIntText height +:+ ":" +:+ bigIntText round +:+ ":" +:+ prevBlockHash.
End Sortition.

(** ** Facts *)
Module SortitionFacts.
Import Vrf Sortition F64 F64Facts.

Section vrf.
Context {E : Ecvrf} {EL : EcvrfLaws E}.

Lemma goCopy_overwrite dst a b : String.length a = String.length b -> goCopy (goCopy dst a) b = goCopy dst b.
Proof.
  revert a b. induction dst as [|c dst IH]; intros [|x a] [|y b] Hl; try done. cbn in *. f_equal. apply IH. lia.
Qed.

Lemma createReader_ok hash sk seed :
  CreateVRFRandReader hash (Some sk) = Ok seed -> seed = goCopy (zeroBytes SeedSize) (String.substring 0 (SeedSize / 2) hash).
Proof.
  unfold CreateVRFRandReader, Seed. destruct (Nat.ltb_spec (String.length hash) (SeedSize / 2)) as [|Hh]; [done|].
  destruct (Nat.ltb_spec (String.length sk) SeedSize) as [|Hs]; [done|].
  assert (forall a b : bytes, @Ok string bytes a = Ok b -> a = b) as Hi by congruence. intros He%Hi. rewrite <- He. apply goCopy_overwrite.
  assert (String.length (String.substring 0 SeedSize sk) = SeedSize) as Hk by (by apply substring_length).
  rewrite (substring_length _ hash) by done. apply substring_length. rewrite Hk. by apply Nat.leb_le.
Qed.

(** the private key does not enter the VRF keys.  The seed is overwritten by the block hash,
    so all validators derive the same VRF keys from a block: whoever knows the hash of the block
    can compute, for every message, an output and a proof that every validator's verification
    key accepts. *)
Theorem vrf_keys_are_public (hash : string) (sk sk' seed seed' : bytes) (vsk : EcPrivateKey) (vk : EcPublicKey) :
  CreateVRFRandReader hash (Some sk) = Ok seed -> GenerateVRFKeys seed = inl (vsk, vk) ->
  CreateVRFRandReader hash (Some sk') = Ok seed' ->
  exists vsk', GenerateVRFKeys seed' = inl (vsk', vk) /\
    forall msg out proof, Prove vsk' msg = inl (out, proof) -> Verify vk msg proof out = inl true.
Proof.
  intros Hr%createReader_ok Hg Hr'%createReader_ok. subst seed seed'. exists vsk. split; [done|]. unfold Prove, Verify. intros msg out proof Hp.
  unfold GenerateVRFKeys in Hg. destruct (ecGenerateKey _) as [k|]; [|done]. destruct (ecPublic k) as [pk|] eqn:Hpk; [|done].
  injection Hg as -> ->. rewrite (ec_complete _ _ _ _ _ Hpk Hp). by rewrite bool_decide_eq_true_2.
Qed.
End vrf.

(** *** The probability of an output *)
Lemma bytesValue_bound s acc b : 0 <= acc < 2 ^ b -> 0 <= b -> 0 <= bytesValue acc s < 2 ^ (b + 8 * blen s).
Proof.
  revert acc b. induction s as [|c s IH]; intros acc b Ha Hb; [by rewrite Z.add_0_r|]. cbn [bytesValue].
  pose proof (Ascii.nat_ascii_bounded c) as Hc. unfold blen in *. cbn [String.length].
  replace (b + 8 * Z.of_nat (S (String.length s))) with (b + 8 + 8 * Z.of_nat (String.length s)) by lia.
  apply IH; [|lia]. rewrite Z.pow_add_r by lia. change (2 ^ 8) with 256. lia.
Qed.

Lemma bitLen_small m b : 0 < m < 2 ^ b -> 0 < b -> bitLen m <= b.
Proof. intros Hm Hb. apply bitLen_le; lia. Qed.

(** A positive mantissa of at most [p] bits is kept, a longer one is cut to [p] bits and perhaps
    incremented. *)
Lemma roundFloat_bound p m e b :
  0 < p -> 0 < m < 2 ^ b -> p <= b ->
  exists q s, roundFloat p m e = {| fmant := q; fexp := e + s; fprec := p |} /\ 0 < q /\ 0 <= s <= b - p /\
    (q < 2 ^ p \/ q = 2 ^ p).
Proof.
  intros Hp Hm Hb. unfold roundFloat, roundBits. rewrite Z.abs_eq, Z.sgn_pos by lia.
  assert (bitLen m <= b) as Hl by (apply bitLen_le; lia). pose proof (bitLen_pos m (proj1 Hm)) as Hbl.
  case_bool_decide as Hs.
  - exists m, 0. rewrite Z.mul_1_l. split_and!; [done|lia|lia|lia|]. left. eapply Z.lt_le_trans; [apply Hbl|]. apply Z.pow_le_mono_r; lia.
  - set (sh := bitLen m - p) in *. assert (2 ^ (p - 1) <= m / 2 ^ sh < 2 ^ p) as Hq.
    { split; [apply Z.div_le_lower_bound|apply Z.div_lt_upper_bound]; try lia; rewrite <- Z.pow_add_r by lia.
      - replace (sh + (p - 1)) with (bitLen m - 1) by lia. apply Hbl.
      - replace (sh + p) with (bitLen m) by lia. apply Hbl. }
    assert (0 < 2 ^ (p - 1)) by lia.
    destruct (bool_decide _ || _); eexists _, sh; rewrite Z.mul_1_l; split_and!; (reflexivity || lia).
Qed.

Lemma normalize_le1 q s : 0 < q -> (q < 2 ^ 520 \/ q = 2 ^ 520) -> 0 <= s <= 515 ->
  le1 (binary_normalize 53 1024 q (-1035 + s) false).
Proof.
  intros Hq Hle Hs. destruct q as [|q|q]; [lia| |lia]. cbn [binary_normalize].
  destruct (decide (Zpos q = 2 ^ 520 /\ s = 515)) as [[Hq' ->]|Hne].
  { injection Hq' as ->. vm_compute. split; [done|by right]. }
  apply binary_round_le1. destruct Hle as [Hlt|Heq].
  - pose proof (digits2_le q 520 ltac:(lia) Hlt). lia.
  - assert (Zpos (digits2_pos q) <= 521) by (apply digits2_le; lia). lia.
Qed.

Lemma max_value : maxVrfOutFloat = {| fmant := 2 ^ 512 - 1; fexp := 0; fprec := 520 |}.
Proof. vm_compute. reflexivity. Qed.

(** a VRF output of 64 bytes gives a probability between 0 and 1, in float64 after all the
    roundings; 1 itself is reached. *)
Theorem vrf_prob_bounds (vrfOut : bytes) : blen vrfOut = 64 ->
  le1 (vrfOutProb vrfOut) /\ (bytesValue 0 vrfOut = 2 ^ 512 - 1 -> vrfOutProb vrfOut = ofZ 1).
Proof.
  intros Hl. pose proof (bytesValue_bound vrfOut 0 0 ltac:(lia) ltac:(lia)) as Ht. rewrite Hl in Ht.
  unfold vrfOutProb. set (t := bytesValue 0 vrfOut) in *. clearbody t. change (2 ^ (0 + 8 * 64)) with (2 ^ 512) in Ht.
  destruct (decide (t = 2 ^ 512 - 1)) as [->|Hmax]; [split; [vm_compute; split; [done|by right]|by vm_compute]|].
  split; [|lia]. destruct (decide (t = 0)) as [->|H0]; [by vm_compute|].
  assert (roundFloat vrfOutFloatPrecision t 0 = {| fmant := t; fexp := 0; fprec := 520 |}) as ->.
  { unfold roundFloat, roundBits. rewrite Z.abs_eq, Z.sgn_pos by lia. rewrite bool_decide_eq_true_2; [by rewrite Z.mul_1_l|].
    pose proof (bitLen_le t 512 ltac:(lia) ltac:(lia)). change vrfOutFloatPrecision with 520. lia. }
  rewrite max_value. unfold bigFloatQuo. cbn [fmant fexp fprec]. rewrite !Z.sgn_pos, !Z.abs_eq, !Z.mul_1_l by lia.
  change (bitLen (2 ^ 512 - 1)) with 512. change (520 + 2 + 512) with 1034. change (0 - 0 - 1034 - 1) with (-1035).
  set (m := 2 * (t * 2 ^ 1034 / (2 ^ 512 - 1)) + _).
  assert (0 < m < 2 ^ 1035) as Hm.
  { assert (1 <= t * 2 ^ 1034 / (2 ^ 512 - 1) < 2 ^ 1034) as Hd.
    { split; [apply Z.div_le_lower_bound|apply Z.div_lt_upper_bound]; [lia| |lia|].
      - transitivity (1 * 2 ^ 1034); [by vm_compute|]. apply Z.mul_le_mono_nonneg_r; lia.
      - apply Z.mul_lt_mono_pos_r; lia. }
    unfold m. change (2 ^ 1035) with (2 * 2 ^ 1034). case_bool_decide; lia. }
  destruct (roundFloat_bound 520 m (-1035) 1035 ltac:(lia) Hm ltac:(lia)) as (q & s & -> & Hq & Hs & Hle).
  unfold bigFloat64. cbn [fmant fexp]. apply normalize_le1; lia.
Qed.

(** *** The walk *)
Section walk.
Context {D : BinomialDist} {C : CryptoRandInt} {CL : CryptoRandIntLaws C}.

Lemma cdfWalk_spec b p j n :
  let r := cdfWalk b p j n in
  j <= r <= j + Z.of_nat n /\ (forall i, j <= i < r -> fle p (binomialCDF b (ofZ i)) = false) /\
  (r < j + Z.of_nat n -> fle p (binomialCDF b (ofZ r)) = true).
Proof.
  cbn zeta. revert j. induction n as [|n IH]; intros j; cbn [cdfWalk]; [split_and!; intros; lia|].
  destruct (fle p (binomialCDF b (ofZ j))) eqn:Hf; [split_and!; [lia|lia|intros; lia|done]|].
  destruct (IH (j + 1)) as (Hr & Hb & Ha). split_and!; [lia|lia| |].
  - intros i Hi. destruct (decide (i = j)) as [->|]; [done|]. apply Hb. lia.
  - intros Hlt. apply Ha. lia.
Qed.

(** Sortition is a deterministic function of its arguments.  The result is the least number
    of selected tokens at which the cumulative distribution reaches the probability of the VRF
    output, and at most the validator's stake; the random source the distribution is given has
    the seed 0 whatever the system's randomness, because the bound of the random draw is 1. *)
Theorem sortition_least (validatorStake networkStake n : Z) (vrfOut : bytes) (rnd rnd' : CRnd) (f : Z) :
  0 <= validatorStake -> crandInt maxRandomInt rnd = (Ok f, rnd') ->
  let binomial := {| bin_N := ofZ validatorStake; bin_P := fdiv (ofZ n) (ofZ networkStake); bin_Src := 0 |} in
  let reached j := fle (vrfOutProb vrfOut) (binomialCDF binomial (ofZ j)) in
  exists r, Sortition validatorStake networkStake n vrfOut rnd = (Ok r, rnd') /\ 0 <= r <= validatorStake /\
    (forall j, 0 <= j < r -> reached j = false) /\ (r < validatorStake -> reached r = true).
Proof.
  intros Hs Hr. cbn zeta. pose proof (crand_range _ _ _ _ Hr) as Hf. change maxRandomInt with 1 in Hf. assert (f = 0) as -> by lia.
  unfold Sortition. rewrite Hr. change (u64 0) with 0. eexists. split; [done|]. unfold sortitionBinomialCDFWalk.
  pose proof (cdfWalk_spec {| bin_N := ofZ validatorStake; bin_P := fdiv (ofZ n) (ofZ networkStake); bin_Src := 0 |} (vrfOutProb vrfOut) 0 (Z.to_nat validatorStake)) as H.
  cbn zeta in H. rewrite Z2Nat.id, Z.add_0_l in H by done. exact H.
Qed.
End walk.
End SortitionFacts.

(** ** Concrete instances *)
Module ToySortition.
Import Vrf Sortition SortitionFacts F64.

#[export] Instance ecvrf : Ecvrf := {|
  EcPrivateKey := bytes; EcPublicKey := bytes; ecGenerateKey r := inl r; ecPublic sk := inl sk; ecNewPublicKey b := inl b;
  ecPublicBytes b := b; ecPrivateBytes b := b; ecProve sk msg := inl (sk +:+ msg, "proof"); ecVerify pk msg _ := inl (true, pk +:+ msg) |}.
#[export] Instance ecvrfLaws : EcvrfLaws ecvrf.
Proof. split. cbn. intros sk pk msg out proof [= ->] [= <- <-]. done. Qed.

#[export] Instance rand : CryptoRandInt := {| CRnd := unit; crandInt max r := if 0 <? max then (Ok 0, r) else (Panic, r) |}.
#[export] Instance randLaws : CryptoRandIntLaws rand.
Proof. split. cbn. intros max v r r'. destruct (Z.ltb_spec 0 max); [intros [= <- _]; lia|done]. Qed.

(** All of the probability is at two tokens. *)
#[export] Instance dist : BinomialDist := {| binomialCDF _ x := if fle (ofZ 2) x then ofZ 1 else ofZ 0 |}.

Fixpoint rep (n : nat) (c : string) : string := match n with O => "" | S n' => c +:+ rep n' c end.
Definition hash : string := rep 32 "h".
Definition key1 : bytes := rep 64 "a".
Definition key2 : bytes := rep 64 "b".
Definition out64 : bytes := rep 64 "z".

(** The second validator's seed opens the first one's keys. *)
Lemma vrf_keys_are_public_witness :
  exists seed seed' vsk', CreateVRFRandReader hash (Some key1) = Ok seed /\ CreateVRFRandReader hash (Some key2) = Ok seed' /\
    GenerateVRFKeys seed' = inl (vsk', seed) /\ Verify seed "height:round" "proof" (vsk' +:+ "height:round") = inl true.
Proof.
  set (seed := goCopy (zeroBytes 32) (rep 16 "h")).
  destruct (@vrf_keys_are_public ecvrf ecvrfLaws hash key1 key2 seed seed seed seed eq_refl eq_refl eq_refl) as (vsk' & Hg & Hv).
  exists seed, seed, vsk'. split; [reflexivity|]. split; [reflexivity|]. split; [exact Hg|]. apply Hv. reflexivity.
Defined.

Lemma vrf_prob_bounds_witness : F64Facts.le1 (vrfOutProb out64).
Proof. exact (proj1 (vrf_prob_bounds out64 eq_refl)). Defined.

Lemma sortition_least_witness : exists r, Sortition 5 10 1 out64 tt = (Ok r, tt) /\ 0 <= r <= 5.
Proof.
  destruct (@sortition_least dist rand randLaws 5 10 1 out64 tt tt 0 ltac:(lia) eq_refl) as (r & Hr & Hb & _).
  exists r. split; [exact Hr|exact Hb].
Defined.
End ToySortition.
