(* ===== verification/Peers.v ===== *)
(** Peers, the peerstore, the sorted view of it and the peer manager that keeps both
    (src/p2p/types/{peer,network_peer,peerstore,peers_view,peer_manager}.go), and the conversion
    of staked actors to a peerstore (src/p2p/providers/peerstore_provider).

    A peer is a [NetworkPeer], the only implementation of the interface; a peerstore is a
    [PeerAddrMap], a map from the hexadecimal address to the peer.  The Go code mutates both;
    here every operation returns the new value.  [log.Fatal] is [Panic].  A manager processes
    one event at a time ([HandleEvent] waits for the goroutine), so a run is a sequence of
    events. *)

From stdpp Require Import sorting.
From S2P Require Import Prelude GoStd GoSort Errors Crypto CoreTypes.

(** ** Peers and the peerstore *)
Record NetworkPeer := {
  peerPublicKey : bytes;
  peerAddress : bytes;
  peerMultiaddr : option (list (Z * string));
  peerServiceURL : string;
}.

Definition GetAddress (peer : NetworkPeer) : bytes := peerAddress peer.
Definition GetPublicKey (peer : NetworkPeer) : bytes := peerPublicKey peer.
Definition GetServiceURL (peer : NetworkPeer) : string := peerServiceURL peer.

Notation PeerList := (list NetworkPeer).
Notation PeerAddrMap := (gmap string NetworkPeer).

(** The key of a peer. *)
Definition peerKey (peer : NetworkPeer) : string := Address_String (GetAddress peer).

Inductive PeerErr :=
| ErrPeerExists (addr : string)
| ErrPublicKey (text : string)
| ErrMulti (l : list PeerErr).

Module Pstore.
Section pstore.
Context `{GoMapOrder}.
Implicit Types (m : PeerAddrMap) (peer : NetworkPeer).

Definition GetPeer m (addr : bytes) : option NetworkPeer := m !! Address_String addr.

Definition GetPeerFromString m (addrHex : string) : res string (option NetworkPeer) :=
  match AddressFromString addrHex with
  | Ok addr => Ok (GetPeer m addr)
  | Err e => Err e
  | Panic => Panic
  end.

Definition GetPeerList m : PeerList := (mapOrder m).*2.

Definition AddPeer m peer : res PeerErr PeerAddrMap :=
  let addr := Address_String (GetAddress peer) in
  match m !! addr with
  | Some _ => Err (ErrPeerExists addr)
  | None => Ok (<[addr := peer]> m)
  end.

Definition RemovePeer m (addr : bytes) : PeerAddrMap := delete (Address_String addr) m.

Definition Size m : nat := size m.

(** [log.Fatalf] on an error. *)
Definition mustAddPeer m peer : res PeerErr PeerAddrMap :=
  match AddPeer m peer with Err _ => Panic | r => r end.

Definition mustRemovePeer m (addr : bytes) : PeerAddrMap := RemovePeer m addr.

(** *** [PeerList.Delta] *)
Fixpoint addAll (peers : PeerList) m : res PeerErr PeerAddrMap :=
  match peers with
  | [] => Ok m
  | p :: rest => match mustAddPeer m p with Ok m' => addAll rest m' | r => r end
  end.

(** The second loop: what is not in the map is added; what is in it leaves it. *)
Fixpoint compareLoop (comparePeers : PeerList) (commonPeers : PeerAddrMap) (added : PeerList) : PeerAddrMap * PeerList :=
  match comparePeers with
  | [] => (commonPeers, added)
  | p :: rest =>
      match GetPeer commonPeers (GetAddress p) with
      | None => compareLoop rest commonPeers (added ++ [p])
      | Some _ => compareLoop rest (mustRemovePeer commonPeers (GetAddress p)) added
      end
  end.

Definition Delta (peers comparePeers : PeerList) : res PeerErr (PeerList * PeerList) :=
  match addAll peers ∅ with
  | Ok commonPeers =>
      let '(rest, added) := compareLoop comparePeers commonPeers [] in
      Ok (added, (mapOrder rest).*2)
  | Err e => Err e
  | Panic => Panic
  end.

(** Every peer is stored under its own address. *)
Definition pstore_wf m : Prop := map_Forall (fun k p => k = peerKey p) m.
End pstore.
End Pstore.

(** ** The sorted view *)
Module PeersView.
Import Pstore.

Record sortedPeersView := {
  sortedAddrs : list string;
  sortedPeers : PeerList;
}.

(** [append] then [copy] then an assignment: the element goes in front of index [i]. *)
Definition insertElementAtIndex {T} (slice : list T) (element : T) (i : nat) : list T :=
  take i slice ++ element :: drop i slice.

Definition removeElementAtIndex {T} (slice : list T) (i : nat) : list T :=
  take i slice ++ drop (i + 1) slice.

(** [sortAddrs]: sort, then rotate so that [startAddr] (or its successor) comes first. *)
Definition sortAddrs (startAddr : bytes) (addrs : list string) : list string :=
  let sorted := sortStrings addrs in
  let i := SearchStrings sorted (Address_String startAddr) in
  drop i sorted ++ take i sorted.

Definition getAddrIndex (view : sortedPeersView) (addr : bytes) : nat :=
  let a := sortedAddrs view in
  let wrapIdx := Search (length a) (fun visitIdx =>
    match a !! visitIdx, a !! 0%nat with Some x, Some first => negb (String.leb first x) | _, _ => false end) in
  let frontAddrs := take wrapIdx a in
  let backAddrs := drop wrapIdx a in
  let i := SearchStrings frontAddrs (Address_String addr) in
  if (i =? 0)%nat then (SearchStrings backAddrs (Address_String addr) + length frontAddrs)%nat else i.

Definition GetAddrs (view : sortedPeersView) : list string := sortedAddrs view.
Definition GetPeers (view : sortedPeersView) : PeerList := sortedPeers view.

Definition Add (view : sortedPeersView) (peer : NetworkPeer) : sortedPeersView :=
  let i := getAddrIndex view (GetAddress peer) in
  {| sortedAddrs := insertElementAtIndex (sortedAddrs view) (Address_String (GetAddress peer)) i;
     sortedPeers := insertElementAtIndex (sortedPeers view) peer i |}.

Definition Remove (view : sortedPeersView) (addr : bytes) : sortedPeersView :=
  let i := getAddrIndex view addr in
  if (i =? length (sortedAddrs view))%nat then view else
  {| sortedAddrs := removeElementAtIndex (sortedAddrs view) i;
     sortedPeers := removeElementAtIndex (sortedPeers view) i |}.

Section view_init.
Context `{GoMapOrder}.

(** The loop of [init] that looks every address up in the peerstore.  A missing entry is a nil
    interface in Go; the addresses come from the peerstore, so [copyPeers] never meets one
    ([copyPeers_keys]) and a nil is treated as the panic that its first use would be. *)
Fixpoint copyPeers (pstore : PeerAddrMap) (addrs : list string) : res string PeerList :=
  match addrs with
  | [] => Ok []
  | a :: rest =>
      match GetPeerFromString pstore a with
      | Ok (Some p) => match copyPeers pstore rest with Ok l => Ok (p :: l) | r => r end
      | _ => Panic
      end
  end.

Definition init (startAddr : bytes) (pstore : PeerAddrMap) : res string sortedPeersView :=
  let addrs := sortAddrs startAddr (peerKey <$> GetPeerList pstore) in
  match copyPeers pstore addrs with
  | Ok l => Ok {| sortedAddrs := addrs; sortedPeers := l |}
  | Err e => Err e
  | Panic => Panic
  end.

Definition NewSortedPeersView (startAddr : bytes) (pstore : PeerAddrMap) : res string sortedPeersView :=
  init startAddr pstore.
End view_init.

(** [rotated l]: the addresses are in order after the part behind the wrap-around is moved to
    the front, without repetition. *)
Definition rotated (l : list string) : Prop :=
  exists hi lo, l = hi ++ lo /\ StronglySorted strLt (lo ++ hi).

(** The view is well formed: addresses rotated, and peer by peer the address of the peer. *)
Definition view_wf (v : sortedPeersView) : Prop :=
  rotated (sortedAddrs v) /\ peerKey <$> sortedPeers v = sortedAddrs v.
End PeersView.

(** ** Facts about the peerstore *)
Module PeersFacts.
Import Pstore PeersView.

Lemma address_from_string a : AddressFromString (Address_String a) = Ok a.
Proof. unfold AddressFromString, Address_String. by rewrite hex_decode_encode. Qed.

Lemma Address_String_inj : Inj (=) (=) Address_String.
Proof.
  intros a b Hab. assert (Ok (E:=string) a = Ok b) as He by (by rewrite <- !address_from_string, Hab).
  by injection He.
Qed.

Section pstore_facts.
Context `{GoMapOrder}.
Implicit Types (m : PeerAddrMap) (peers : PeerList).

Lemma GetPeerFromString_key m a : GetPeerFromString m (Address_String a) = Ok (m !! Address_String a).
Proof. unfold GetPeerFromString. by rewrite address_from_string. Qed.

Lemma GetPeerList_keys m : pstore_wf m -> peerKey <$> GetPeerList m = (mapOrder m).*1.
Proof.
  intros Hwf. unfold GetPeerList. rewrite <- list_fmap_compose. apply list_fmap_ext.
  intros i [k p] Hi. cbn. apply list_elem_of_lookup_2, elem_of_mapOrder in Hi. symmetry. by eapply Hwf.
Qed.

Lemma elem_of_GetPeerList m p : pstore_wf m -> p ∈ GetPeerList m <-> m !! peerKey p = Some p.
Proof.
  intros Hwf. unfold GetPeerList. rewrite list_elem_of_fmap. split.
  - intros ([k q] & -> & Hin). apply elem_of_mapOrder in Hin. cbn. by rewrite <- (Hwf _ _ Hin).
  - intros Hl. exists (peerKey p, p). split; [done|]. by apply elem_of_mapOrder.
Qed.

Lemma elem_of_keys m k : k ∈ (mapOrder m).*1 <-> is_Some (m !! k).
Proof.
  rewrite list_elem_of_fmap. split.
  - intros ([k' q] & -> & Hin). apply elem_of_mapOrder in Hin. by exists q.
  - intros [q Hq]. exists (k, q). split; [done|]. by apply elem_of_mapOrder.
Qed.

Lemma AddPeer_wf m p m' : pstore_wf m -> AddPeer m p = Ok m' -> pstore_wf m' /\ m' = <[peerKey p := p]> m /\ m !! peerKey p = None.
Proof.
  unfold AddPeer. fold (peerKey p). destruct (m !! peerKey p) eqn:He; [done|]. intros Hwf [= <-].
  split; [|done]. by apply map_Forall_insert_2.
Qed.

Lemma RemovePeer_wf m a : pstore_wf m -> pstore_wf (RemovePeer m a).
Proof. apply map_Forall_delete. Qed.

(** *** [Delta] *)
Lemma addAll_ok peers : forall m,
  NoDup (peerKey <$> peers) -> (forall p, p ∈ peers -> m !! peerKey p = None) ->
  addAll peers m = Ok (foldl (fun m p => <[peerKey p := p]> m) m peers).
Proof.
  induction peers as [|p peers IH]; intros m Hnd Hm; [done|]. cbn [addAll foldl].
  rewrite fmap_cons, NoDup_cons in Hnd. destruct Hnd as [Hp Hnd].
  unfold mustAddPeer, AddPeer. fold (peerKey p). rewrite Hm by set_solver. apply IH; [done|].
  intros q Hq. rewrite lookup_insert_ne; [apply Hm; set_solver|].
  intros He. apply Hp. rewrite He. by apply list_elem_of_fmap_2.
Qed.

Definition peersMap peers : PeerAddrMap := foldl (fun m p => <[peerKey p := p]> m) ∅ peers.

Lemma foldl_insert_lookup peers : forall m k p,
  NoDup (peerKey <$> peers) -> (forall q, q ∈ peers -> m !! peerKey q = None) ->
  foldl (fun m p => <[peerKey p := p]> m) m peers !! k = Some p <-> m !! k = Some p \/ (p ∈ peers /\ k = peerKey p).
Proof.
  induction peers as [|q peers IH]; intros m k p Hnd Hm; cbn [foldl]; [set_solver|].
  rewrite fmap_cons, NoDup_cons in Hnd. destruct Hnd as [Hq Hnd].
  rewrite IH; [|done|].
  - destruct (decide (k = peerKey q)) as [->|Hne].
    + rewrite lookup_insert_eq, (Hm q) by set_solver. split.
      * intros [[= ->]|[Hin He]]; [right; set_solver|]. destruct Hq. rewrite He. by apply list_elem_of_fmap_2.
      * intros [?|[Hin He]]; [done|]. apply elem_of_cons in Hin as [->|Hin]; [by left|].
        destruct Hq. rewrite He. by apply list_elem_of_fmap_2.
    + rewrite lookup_insert_ne by done. set_solver.
  - intros r Hr. rewrite lookup_insert_ne; [apply Hm; set_solver|]. intros He. apply Hq. rewrite He. by apply list_elem_of_fmap_2.
Qed.

Lemma compareLoop_added cmp : forall m acc,
  NoDup (peerKey <$> cmp) ->
  (compareLoop cmp m acc).2 = acc ++ filter (fun p => m !! peerKey p = None) cmp.
Proof.
  induction cmp as [|p cmp IH]; intros m acc Hnd; cbn [compareLoop]; [by rewrite app_nil_r|].
  rewrite fmap_cons, NoDup_cons in Hnd. destruct Hnd as [Hp Hnd].
  unfold GetPeer. fold (peerKey p). destruct (m !! peerKey p) eqn:He.
  - rewrite filter_cons_False by (by rewrite He). rewrite IH by done. f_equal.
    unfold mustRemovePeer, RemovePeer. fold (peerKey p).
    clear -Hp. induction cmp as [|q cmp IH]; [done|]. rewrite fmap_cons, not_elem_of_cons in Hp. destruct Hp as [Hne Hp].
    rewrite !filter_cons. rewrite lookup_delete_ne by done. case_decide; by rewrite IH.
  - rewrite filter_cons_True by done. rewrite IH by done. by rewrite <- app_assoc.
Qed.

Lemma compareLoop_rest cmp : forall m acc k,
  (compareLoop cmp m acc).1 !! k = if decide (k ∈ peerKey <$> cmp) then None else m !! k.
Proof.
  induction cmp as [|p cmp IH]; intros m acc k; cbn [compareLoop]; [done|].
  rewrite fmap_cons. unfold GetPeer. fold (peerKey p). destruct (m !! peerKey p) eqn:He; rewrite IH.
  - unfold mustRemovePeer, RemovePeer. fold (peerKey p).
    destruct (decide (k = peerKey p)) as [->|Hne].
    + rewrite lookup_delete_eq. rewrite (decide_True (P := _ ∈ _ :: _)) by set_solver. by case_decide.
    + rewrite lookup_delete_ne by done. repeat case_decide; set_solver.
  - destruct (decide (k = peerKey p)) as [->|Hne]; repeat case_decide; set_solver.
Qed.

(** [Delta] on lists without repeated addresses: the new ones in their order, and the missing
    ones in some order. *)
Lemma Delta_spec peers cmp :
  NoDup (peerKey <$> peers) -> NoDup (peerKey <$> cmp) ->
  exists removed,
    Delta peers cmp = Ok (filter (fun p => peerKey p ∉ peerKey <$> peers) cmp, removed) /\
    removed ≡ₚ filter (fun p => peerKey p ∉ peerKey <$> cmp) peers.
Proof.
  intros Hnd Hcmp. unfold Delta. rewrite addAll_ok by done. fold (peersMap peers).
  assert (forall k p, peersMap peers !! k = Some p <-> p ∈ peers /\ k = peerKey p) as Hm.
  { intros k p. unfold peersMap. rewrite foldl_insert_lookup by done. rewrite lookup_empty. naive_solver. }
  pose proof (compareLoop_added cmp (peersMap peers) [] Hcmp) as Ha.
  pose proof (fun k => compareLoop_rest cmp (peersMap peers) [] k) as Hr.
  destruct (compareLoop cmp (peersMap peers) []) as [rest added]. cbn in Ha, Hr. subst added.
  exists (mapOrder rest).*2. split.
  - do 2 f_equal. apply list_filter_iff. intros p. split.
    + intros Hn Hin. apply list_elem_of_fmap in Hin as (q & He & Hq).
      assert (peersMap peers !! peerKey p = Some q) as Hs by (by apply Hm). by rewrite Hs in Hn.
    + intros Hn. destruct (peersMap peers !! peerKey p) as [q|] eqn:Hs; [|done]. apply Hm in Hs as [Hq He].
      destruct Hn. rewrite He. by apply list_elem_of_fmap_2.
  - assert (forall p, p ∈ (mapOrder rest).*2 <-> p ∈ filter (fun p => peerKey p ∉ peerKey <$> cmp) peers) as Hel.
    { intros p. rewrite list_elem_of_filter, list_elem_of_fmap. split.
      - intros ([k q] & -> & Hin). apply elem_of_mapOrder in Hin. cbn. rewrite Hr in Hin.
        case_decide as Hk; [done|]. apply Hm in Hin as [Hin ->]. done.
      - intros [Hn Hin]. exists (peerKey p, p). split; [done|]. apply elem_of_mapOrder. rewrite Hr.
        rewrite decide_False by done. by apply Hm. }
    apply NoDup_Permutation; [|apply NoDup_filter; by eapply NoDup_fmap_1|done].
    eapply (NoDup_fmap_1 peerKey).
    assert (peerKey <$> (mapOrder rest).*2 = (mapOrder rest).*1) as ->; [|apply mapOrder_NoDup].
    rewrite <- list_fmap_compose. apply list_fmap_ext. intros i [k q] Hi. cbn.
    apply list_elem_of_lookup_2, elem_of_mapOrder in Hi. rewrite Hr in Hi. case_decide; [done|].
    by apply Hm in Hi as [_ ->].
Qed.
End pstore_facts.
End PeersFacts.

(** ** Facts about the sorted view *)
Module PeersViewFacts.
Import Pstore PeersView PeersFacts.

Lemma rotated_cons l : rotated l -> l ≠ [] ->
  exists h hi lo, l = (h :: hi) ++ lo /\ StronglySorted strLt (lo ++ h :: hi).
Proof.
  intros (hi & lo & -> & Hs) Hne. destruct hi as [|h hi]; [|by exists h, hi, lo].
  rewrite app_nil_r in Hs. destruct lo as [|h lo]; [done|]. exists h, lo, []. by rewrite app_nil_r.
Qed.

(** The parts of a rotated list: behind the wrap-around everything is smaller than the head. *)
Lemma rotated_parts h hi lo : StronglySorted strLt (lo ++ h :: hi) ->
  StronglySorted strLt (h :: hi) /\ StronglySorted strLt lo /\
  Forall (fun s => strLt h s) hi /\ Forall (fun s => strLt s h) lo /\
  (forall x y, x ∈ lo -> y ∈ h :: hi -> strLt x y).
Proof.
  intros (Hlo & Hhi & Hlt)%strict_app. split; [done|]. split; [done|].
  split; [by inversion Hhi|]. split; [|done]. apply Forall_forall. intros x Hx. apply Hlt; set_solver.
Qed.

Section index.
Context (v : sortedPeersView) (h : string) (hi lo : list string) (addr : bytes).
Hypothesis Hv : sortedAddrs v = (h :: hi) ++ lo.
Hypothesis Hs : StronglySorted strLt (lo ++ h :: hi).
Let x := Address_String addr.

Lemma getAddrIndex_parts :
  getAddrIndex v addr =
  let i := SearchStrings (h :: hi) x in if (i =? 0)%nat then (SearchStrings lo x + length (h :: hi))%nat else i.
Proof.
  destruct (rotated_parts _ _ _ Hs) as (_ & _ & Hhi & Hlo & _).
  unfold getAddrIndex. rewrite Hv.
  assert (forall i, (match ((h :: hi) ++ lo) !! i, ((h :: hi) ++ lo) !! 0%nat with Some s, Some first => negb (String.leb first s) | _, _ => false end) =
                    (match ((h :: hi) ++ lo) !! i with Some s => negb (String.leb h s) | None => false end)) as He.
  { intros i. cbn [app lookup list_lookup]. by destruct (_ !! i). }
  assert (forall n f g, (forall i, f i = g i) -> Search n f = Search n g) as Hext.
  { intros n f g Hfg. unfold Search. generalize (S n). intros fuel. generalize 0%nat. revert n.
    induction fuel as [|fuel IH]; intros n i; [done|]. cbn [searchLoop]. rewrite Hfg. destruct (_ <? _)%nat; [|done].
    destruct (g _); apply IH. }
  rewrite (Hext _ _ _ He), (Search_split (h :: hi) lo (fun s => negb (String.leb h s))).
  - by rewrite take_app_length, drop_app_length.
  - constructor; [pose proof (strLe_refl h) as Hr; unfold strLe in Hr; by rewrite Hr|].
    eapply Forall_impl; [exact Hhi|]. intros s Hlt%strLt_le. unfold strLe in Hlt. by rewrite Hlt.
  - eapply Forall_impl; [exact Hlo|]. intros s Hlt. unfold strLt, strLe in Hlt. by destruct (String.leb h s).
Qed.

(** An address beyond the head is found, or belongs, in front of the wrap-around. *)
Lemma getAddrIndex_front h1 h2 :
  strLt h x -> hi = h1 ++ h2 -> Forall (fun s => strLt s x) h1 -> Forall (fun s => strLe x s) h2 ->
  getAddrIndex v addr = S (length h1).
Proof.
  intros Hx He H1 H2. rewrite getAddrIndex_parts, He. change (h :: h1 ++ h2) with ((h :: h1) ++ h2).
  by rewrite (SearchStrings_split (h :: h1) h2 x (Forall_cons_2 (fun s => strLt s x) _ _ Hx H1) H2).
Qed.

(** Any other address is looked for behind it; the head itself is among these. *)
Lemma getAddrIndex_back l1 l2 :
  strLe x h -> lo = l1 ++ l2 -> Forall (fun s => strLt s x) l1 -> Forall (fun s => strLe x s) l2 ->
  getAddrIndex v addr = length ((h :: hi) ++ l1).
Proof.
  intros Hx He H1 H2. destruct (rotated_parts _ _ _ Hs) as (_ & _ & Hhi & _).
  assert (Forall (fun s => strLe x s) (h :: hi)) as Hall.
  { constructor; [done|]. eapply Forall_impl; [exact Hhi|]. intros s Hlt. apply strLt_le. eapply strLe_lt_trans; eassumption. }
  pose proof (SearchStrings_split [] (h :: hi) x (Forall_nil_2 _) Hall) as H0. cbn [app length] in H0.
  rewrite getAddrIndex_parts, H0, He, (SearchStrings_split l1 l2 x H1 H2).
  cbn [length Nat.eqb]. rewrite length_app. cbn. lia.
Qed.
End index.

(** *** [Add] *)
Lemma insert_split {T} (l1 l2 : list T) x : insertElementAtIndex (l1 ++ l2) x (length l1) = l1 ++ x :: l2.
Proof. unfold insertElementAtIndex. by rewrite take_app_length, drop_app_length. Qed.

Lemma remove_split {T} (l1 l2 : list T) x : removeElementAtIndex (l1 ++ x :: l2) (length l1) = l1 ++ l2.
Proof.
  unfold removeElementAtIndex. rewrite take_app_length. f_equal.
  rewrite drop_app_ge by lia. by replace (length l1 + 1 - length l1)%nat with 1%nat by lia.
Qed.

Lemma insert_fmap {T U} (f : T -> U) l x i : f <$> insertElementAtIndex l x i = insertElementAtIndex (f <$> l) (f x) i.
Proof. unfold insertElementAtIndex. by rewrite fmap_app, fmap_cons, fmap_take, fmap_drop. Qed.
Lemma remove_fmap {T U} (f : T -> U) l i : f <$> removeElementAtIndex l i = removeElementAtIndex (f <$> l) i.
Proof. unfold removeElementAtIndex. by rewrite fmap_app, fmap_take, fmap_drop. Qed.

(** A strictly sorted list stays so when a new element is put where the search points. *)
Lemma strict_insert l1 l2 x :
  StronglySorted strLt (l1 ++ l2) -> Forall (fun s => strLt s x) l1 -> Forall (fun s => strLe x s) l2 -> x ∉ l2 ->
  StronglySorted strLt (l1 ++ x :: l2).
Proof.
  intros (Hs1 & Hs2 & Hlt)%strict_app H1 H2 Hx. rewrite Forall_forall in H1, H2.
  assert (forall y, y ∈ l2 -> strLt x y) as H2'.
  { intros y Hy. apply strLe_ne_lt; [by apply H2|]. by intros ->. }
  apply strict_app. split; [done|]. split.
  - constructor; [done|]. by apply Forall_forall.
  - intros a b Ha [->|Hb]%elem_of_cons; [by apply H1|by apply Hlt].
Qed.

Lemma strict_found l x :
  StronglySorted strLt l -> x ∈ l ->
  exists l1 l2, l = l1 ++ x :: l2 /\ Forall (fun s => strLt s x) l1 /\ Forall (fun s => strLe x s) (x :: l2).
Proof.
  intros Hs (l1 & l2 & ->)%list_elem_of_split. exists l1, l2. split; [done|].
  apply strict_app in Hs as (_ & Hs2 & Hlt). inversion Hs2 as [|? ? _ Hf]; subst. split.
  - apply Forall_forall. intros y Hy. apply Hlt; [done|]. apply list_elem_of_here.
  - constructor; [apply strLe_refl|]. eapply Forall_impl; [exact Hf|]. intros y. apply strLt_le.
Qed.

Lemma strict_remove l1 l2 (x : string) : StronglySorted strLt (l1 ++ x :: l2) -> StronglySorted strLt (l1 ++ l2).
Proof. rewrite !strict_app. intros (Hs1 & Hs2 & Hlt). inversion Hs2; subst. split; [done|]. split; [done|]. set_solver. Qed.

Lemma view_add_addrs v p :
  rotated (sortedAddrs v) -> peerKey p ∉ sortedAddrs v ->
  rotated (sortedAddrs (Add v p)) /\ sortedAddrs (Add v p) ≡ₚ peerKey p :: sortedAddrs v /\
  (sortedAddrs v ≠ [] -> head (sortedAddrs (Add v p)) = head (sortedAddrs v)).
Proof.
  intros Hrot Hx. destruct (decide (sortedAddrs v = [])) as [He|Hne].
  { unfold Add, getAddrIndex. cbn [sortedAddrs]. rewrite He. cbn.
    split; [|done]. exists [peerKey p], []. split; [done|]. repeat constructor. }
  destruct (rotated_cons _ Hrot Hne) as (h & hi & lo & Hv & Hs).
  destruct (rotated_parts _ _ _ Hs) as (Hshi & Hslo & _ & _ & Hlh).
  rewrite Hv in Hx. unfold Add. cbn [sortedAddrs]. fold (peerKey p). rewrite Hv.
  destruct (decide (strLt h (peerKey p))) as [Hlt|Hge].
  - inversion Hshi as [|? ? Hshi' Hh]; subst. destruct (strict_split hi (peerKey p) Hshi') as (h1 & h2 & -> & H1 & H2).
    rewrite (getAddrIndex_front v h _ lo (GetAddress p) Hv Hs h1 h2 Hlt eq_refl H1 H2).
    replace ((h :: h1 ++ h2) ++ lo) with ((h :: h1) ++ h2 ++ lo) by (cbn; by rewrite <- app_assoc).
    change (S (length h1)) with (length (h :: h1)). rewrite insert_split. split; [|split; [|done]].
    + exists ((h :: h1) ++ peerKey p :: h2), lo. split; [by rewrite <- app_assoc|].
      rewrite app_assoc. apply strict_insert; [by rewrite <- app_assoc| |done|set_solver].
      apply Forall_app. split; [|by constructor].
      apply Forall_forall. intros y Hy. transitivity h; [apply Hlh; set_solver|done].
    + by rewrite <- Permutation_middle.
  - assert (strLe (peerKey p) h) as Hle by (by apply dec_stable in Hge).
    destruct (strict_split lo (peerKey p) Hslo) as (l1 & l2 & -> & H1 & H2).
    rewrite (getAddrIndex_back v h hi _ (GetAddress p) Hv Hs l1 l2 Hle eq_refl H1 H2).
    rewrite app_assoc, insert_split. split; [|split; [|done]].
    + exists (h :: hi), (l1 ++ peerKey p :: l2). split; [by rewrite <- app_assoc|].
      rewrite <- app_assoc, <- app_comm_cons. apply strict_insert; [by rewrite app_assoc|done| |set_solver].
      apply Forall_app. split; [done|]. constructor; [done|].
      inversion Hshi as [|? ? _ Hh]; subst. eapply Forall_impl; [exact Hh|]. intros s Hlt. eauto with strorder.
    + by rewrite <- Permutation_middle.
Qed.

(** *** [Remove] *)
Lemma view_remove_addrs v a :
  rotated (sortedAddrs v) -> Address_String a ∈ sortedAddrs v -> head (sortedAddrs v) ≠ Some (Address_String a) ->
  rotated (sortedAddrs (Remove v a)) /\ Address_String a :: sortedAddrs (Remove v a) ≡ₚ sortedAddrs v /\
  head (sortedAddrs (Remove v a)) = head (sortedAddrs v) /\
  sortedAddrs v !! getAddrIndex v a = Some (Address_String a) /\ Remove v a =
    {| sortedAddrs := removeElementAtIndex (sortedAddrs v) (getAddrIndex v a);
       sortedPeers := removeElementAtIndex (sortedPeers v) (getAddrIndex v a) |}.
Proof.
  intros Hrot Hx Hhd. set (x := Address_String a) in *.
  assert (sortedAddrs v ≠ []) as Hne by (intros He; rewrite He in Hx; set_solver).
  destruct (rotated_cons _ Hrot Hne) as (h & hi & lo & Hv & Hs).
  destruct (rotated_parts _ _ _ Hs) as (Hshi & Hslo & Hhi & Hlo & Hlh).
  rewrite Hv in Hx, Hhd |- *. cbn in Hhd. assert (x ≠ h) as Hxh by congruence.
  unfold Remove. fold x.
  destruct (decide (x ∈ hi)) as [Hin|Hnin].
  - assert (strLt h x) as Hlt by (rewrite Forall_forall in Hhi; by apply Hhi).
    inversion Hshi as [|? ? Hshi' _]; subst. destruct (strict_found hi x Hshi' Hin) as (h1 & h2 & -> & H1 & H2).
    rewrite (getAddrIndex_front v h _ lo a Hv Hs h1 (x :: h2) Hlt eq_refl H1 H2).
    rewrite Hv. replace ((h :: h1 ++ x :: h2) ++ lo) with ((h :: h1) ++ x :: h2 ++ lo) by (cbn; by rewrite <- app_assoc).
    rewrite (proj2 (Nat.eqb_neq _ _)) by (rewrite length_app; cbn; lia). cbn [sortedAddrs].
    change (S (length h1)) with (length (h :: h1)). rewrite remove_split. split; [|split; [by rewrite Permutation_middle|split; [done|split; [by apply list_lookup_middle|done]]]].
    exists (h :: h1 ++ h2), lo. split; [cbn; by rewrite <- app_assoc|].
    replace (lo ++ h :: h1 ++ h2) with ((lo ++ h :: h1) ++ h2) by (by rewrite <- app_assoc).
    apply (strict_remove _ _ x). by rewrite <- app_assoc.
  - assert (x ∈ lo) as Hin by set_solver.
    assert (strLt x h) as Hlt by (rewrite Forall_forall in Hlo; by apply Hlo).
    destruct (strict_found lo x Hslo Hin) as (l1 & l2 & -> & H1 & H2).
    rewrite (getAddrIndex_back v h hi _ a Hv Hs l1 (x :: l2) (strLt_le _ _ Hlt) eq_refl H1 H2).
    rewrite Hv, (proj2 (Nat.eqb_neq _ _)) by (rewrite !length_app; cbn; lia). cbn [sortedAddrs].
    rewrite app_assoc, remove_split. split; [|split; [by rewrite Permutation_middle|split; [done|split; [by apply list_lookup_middle|done]]]].
    exists (h :: hi), (l1 ++ l2). split; [by rewrite <- app_assoc|].
    rewrite <- app_assoc. apply (strict_remove _ _ x). by rewrite <- app_assoc in Hs.
Qed.
End PeersViewFacts.

(** ** The peer manager *)
Module PeerManager.
Import Pstore PeersView.

Inductive PeerManagerEventType := AddPeerEventType | RemovePeerEventType.

Record PeerManagerEvent := { EventType : PeerManagerEventType; EventPeer : NetworkPeer }.

Record SortedPeerManager := {
  startAddr : bytes;
  isDynamic : bool;  (* whether the goroutine that reads [eventCh] was started *)
  view : sortedPeersView;
  pstore : PeerAddrMap;
}.

Section manager.
Context `{GoMapOrder}.

Definition NewSortedPeerManager (start : bytes) (ps : PeerAddrMap) (dynamic : bool) : res string SortedPeerManager :=
  match NewSortedPeersView start ps with
  | Ok v => Ok {| startAddr := start; isDynamic := dynamic; view := v; pstore := ps |}
  | Err e => Err e
  | Panic => Panic
  end.

Definition GetPeerstore (pm : SortedPeerManager) : PeerAddrMap := pstore pm.
Definition GetPeersView (pm : SortedPeerManager) : sortedPeersView := view pm.
Definition GetSelfAddr (pm : SortedPeerManager) : bytes := startAddr pm.

Definition withView (pm : SortedPeerManager) (ps : PeerAddrMap) (v : sortedPeersView) : SortedPeerManager :=
  {| startAddr := startAddr pm; isDynamic := isDynamic pm; view := v; pstore := ps |}.

(** The body of the goroutine.  An error of [pstore.AddPeer] is only logged: the view changes
    in any case. *)
Definition processEvent (pm : SortedPeerManager) (evt : PeerManagerEvent) : SortedPeerManager :=
  let peer := EventPeer evt in
  match EventType evt with
  | AddPeerEventType =>
      let ps := match AddPeer (pstore pm) peer with Ok ps => ps | _ => pstore pm end in
      withView pm ps (Add (view pm) peer)
  | RemovePeerEventType =>
      withView pm (RemovePeer (pstore pm) (GetAddress peer)) (Remove (view pm) (GetAddress peer))
  end.

(** [HandleEvent] waits until the goroutine has processed the event; without the goroutine it
    waits forever ([None]). *)
Definition HandleEvent (pm : SortedPeerManager) (evt : PeerManagerEvent) : option SortedPeerManager :=
  if isDynamic pm then Some (processEvent pm evt) else None.

(** *** What the manager maintains *)
Definition pm_wf (pm : SortedPeerManager) : Prop :=
  pstore_wf (pstore pm) /\ view_wf (view pm) /\ sortedPeers (view pm) ≡ₚ (map_to_list (pstore pm)).*2.

(** The node itself comes first in the view. *)
Definition selfFirst (pm : SortedPeerManager) : Prop :=
  head (sortedAddrs (view pm)) = Some (Address_String (startAddr pm)).
End manager.
End PeerManager.

Module PeerManagerFacts.
Import Pstore PeersView PeersFacts PeersViewFacts PeerManager.

Section init.
Context `{GoMapOrder}.

Lemma sortAddrs_rotated start addrs :
  NoDup addrs ->
  rotated (sortAddrs start addrs) /\ sortAddrs start addrs ≡ₚ addrs /\
  (Address_String start ∈ addrs -> head (sortAddrs start addrs) = Some (Address_String start)).
Proof.
  intros Hnd. unfold sortAddrs. pose proof (sortStrings_strict _ Hnd) as Hs.
  destruct (strict_split _ (Address_String start) Hs) as (l1 & l2 & He & H1 & H2).
  pose proof (sortStrings_elements addrs) as Hp. rewrite He in *.
  rewrite (SearchStrings_split _ _ _ H1 H2), take_app_length, drop_app_length.
  split; [by exists l2, l1|]. split; [by rewrite Permutation_app_comm|].
  intros Hin. rewrite <- Hp in Hin. apply elem_of_app in Hin as [Hin|Hin].
  { rewrite Forall_forall in H1. by destruct (strLt_irrefl _ (H1 _ Hin)). }
  destruct l2 as [|y l2]; [set_solver|]. cbn. f_equal. apply elem_of_cons in Hin as [->|Hin]; [done|].
  apply strict_app in Hs as (_ & Hs2 & _). inversion Hs2 as [|? ? _ Hf]; subst. rewrite Forall_forall in Hf.
  inversion H2; subst. apply (anti_symm strLe); [|done]. by apply strLt_le, Hf.
Qed.

Lemma copyPeers_keys m ps :
  pstore_wf m -> (forall p, p ∈ ps -> m !! peerKey p = Some p) -> copyPeers m (peerKey <$> ps) = Ok ps.
Proof.
  intros Hwf. induction ps as [|p ps IH]; intros Hps; [done|]. rewrite fmap_cons. cbn [copyPeers].
  unfold peerKey at 1. rewrite GetPeerFromString_key. fold (peerKey p). rewrite Hps by set_solver.
  rewrite IH; [done|]. set_solver.
Qed.

(** A permutation of the keys is the keys of a permutation. *)
Lemma keys_permutation (ps : PeerList) l : peerKey <$> ps ≡ₚ l -> exists ps', ps' ≡ₚ ps /\ peerKey <$> ps' = l.
Proof.
  intros Hp. symmetry in Hp. apply Permutation_map_inv in Hp as (ps' & -> & Hp). by exists ps'.
Qed.

Lemma new_manager start m dynamic :
  pstore_wf m ->
  exists pm, NewSortedPeerManager start m dynamic = Ok pm /\ pm_wf pm /\ pstore pm = m /\ startAddr pm = start /\
    isDynamic pm = dynamic /\ (is_Some (m !! Address_String start) -> selfFirst pm).
Proof.
  intros Hwf. unfold NewSortedPeerManager, NewSortedPeersView, init.
  pose proof (GetPeerList_keys m Hwf) as Hk. assert (NoDup (peerKey <$> GetPeerList m)) as Hnd by (rewrite Hk; apply mapOrder_NoDup).
  destruct (sortAddrs_rotated start _ Hnd) as (Hrot & Hp & Hself). symmetry in Hp.
  destruct (keys_permutation _ _ Hp) as (ps & Hps & Heq). rewrite <- Heq in Hrot, Hself |- *.
  rewrite copyPeers_keys; [|done|].
  - eexists. split; [done|]. split; [split; [done|]; split; [by split|]|].
    + cbn. rewrite Hps. unfold GetPeerList. by rewrite mapOrder_perm.
    + split; [done|]. split; [done|]. split; [done|]. intros Hin. apply Hself. by rewrite Hk, elem_of_keys.
  - intros p Hin. rewrite Hps in Hin. by apply elem_of_GetPeerList.
Qed.
End init.

(** *** Events *)
Lemma pm_keys pm k : pm_wf pm -> k ∈ sortedAddrs (view pm) <-> is_Some (pstore pm !! k).
Proof.
  intros (Hwf & [_ Hv] & Hp). rewrite <- Hv, Hp, list_elem_of_fmap. split.
  - intros (p & -> & ([k' q] & -> & Hin)%list_elem_of_fmap). apply elem_of_map_to_list in Hin. cbn.
    rewrite <- (Hwf _ _ Hin). by exists q.
  - intros [p Hl]. exists p. split; [by apply Hwf|]. apply list_elem_of_fmap. exists (k, p). split; [done|].
    by apply elem_of_map_to_list.
Qed.

Lemma pm_size pm : pm_wf pm -> length (sortedAddrs (view pm)) = Size (pstore pm).
Proof. intros (_ & [_ <-] & Hp). rewrite length_fmap, Hp, length_fmap. apply length_map_to_list. Qed.

Lemma pm_lookup pm p : pm_wf pm -> p ∈ sortedPeers (view pm) -> pstore pm !! peerKey p = Some p.
Proof.
  intros (Hwf & _ & Hp) Hin. rewrite Hp in Hin. apply list_elem_of_fmap in Hin as ([k q] & -> & Hin).
  apply elem_of_map_to_list in Hin. cbn. by rewrite <- (Hwf _ _ Hin).
Qed.

Lemma remove_permutation {T} (l : list T) i x : l !! i = Some x -> x :: removeElementAtIndex l i ≡ₚ l.
Proof. intros Hi. apply list_elem_of_split_length in Hi as (l1 & l2 & -> & ->). by rewrite remove_split, Permutation_middle. Qed.

(** An event about a new peer. *)
Lemma process_add pm p :
  pm_wf pm -> pstore pm !! peerKey p = None ->
  let pm' := processEvent pm {| EventType := AddPeerEventType; EventPeer := p |} in
  pm_wf pm' /\ pstore pm' = <[peerKey p := p]> (pstore pm) /\ (selfFirst pm -> selfFirst pm').
Proof.
  intros Hwf Hn. pose proof (pm_keys pm (peerKey p) Hwf) as Hk. destruct Hwf as (Hwf & [Hrot Hv] & Hp).
  destruct (view_add_addrs (view pm) p Hrot) as (Hrot' & _ & Hhd).
  { intros Hin%Hk. rewrite Hn in Hin. by destruct Hin. }
  cbn. unfold AddPeer. fold (peerKey p). rewrite Hn. split; [|split; [done|]].
  - split; [by apply map_Forall_insert_2|]. split; [split; [exact Hrot'|]|]; cbn [view pstore withView].
    + unfold Add. cbn [sortedPeers sortedAddrs]. by rewrite insert_fmap, Hv.
    + unfold Add. cbn [sortedPeers]. rewrite map_to_list_insert by done. rewrite fmap_cons. cbn [snd].
      unfold insertElementAtIndex. rewrite <- Permutation_middle, take_drop, Hp. done.
  - unfold selfFirst. cbn [view withView startAddr]. intros Hs. rewrite Hhd; [done|]. intros He. by rewrite He in Hs.
Qed.

(** An event about a peer that leaves, other than the first of the view. *)
Lemma process_remove pm p :
  pm_wf pm -> selfFirst pm -> is_Some (pstore pm !! peerKey p) -> GetAddress p ≠ startAddr pm ->
  let pm' := processEvent pm {| EventType := RemovePeerEventType; EventPeer := p |} in
  pm_wf pm' /\ pstore pm' = delete (peerKey p) (pstore pm) /\ selfFirst pm'.
Proof.
  intros Hwf Hself Hin Hne. pose proof (pm_keys pm (peerKey p) Hwf) as Hk. destruct Hwf as (Hwf & [Hrot Hv] & Hp).
  assert (head (sortedAddrs (view pm)) ≠ Some (Address_String (GetAddress p))) as Hhd.
  { rewrite Hself. intros [= He%Address_String_inj]. by symmetry in He. }
  destruct (view_remove_addrs (view pm) (GetAddress p) Hrot) as (Hrot' & _ & Hhd' & Hi & Hrm); [by apply Hk|done|].
  cbn. split; [|split; [done|]].
  - split; [by apply RemovePeer_wf|]. split; [split; [done|]|]; cbn [view pstore withView].
    + rewrite Hrm. cbn [sortedPeers sortedAddrs]. by rewrite remove_fmap, Hv.
    + rewrite <- Hv, list_lookup_fmap in Hi.
      destruct (sortedPeers (view pm) !! getAddrIndex (view pm) (GetAddress p)) as [q|] eqn:Hq; [|done].
      injection Hi as Hkey. pose proof (pm_lookup pm q) as Hl. rewrite Hkey in Hl.
      apply (Permutation_cons_inv (a := q)). rewrite Hrm. cbn [sortedPeers]. rewrite remove_permutation by done.
      rewrite Hp. unfold RemovePeer.
      change (q :: (map_to_list (delete (Address_String (GetAddress p)) (pstore pm))).*2) with ((Address_String (GetAddress p), q) :: map_to_list (delete (Address_String (GetAddress p)) (pstore pm))).*2.
      rewrite map_to_list_delete; [done|]. apply Hl; [by split|]. by eapply list_elem_of_lookup_2.
  - unfold selfFirst in *. cbn [view withView startAddr]. by rewrite Hhd'.
Qed.
End PeerManagerFacts.

(** ** The incremental view against the view built from scratch *)
Module PeersSpec.
Import Pstore PeersView PeersFacts PeersViewFacts PeerManager PeerManagerFacts.

(** A rotated list is determined by its elements and its head. *)
Lemma split_unique {T} (x : T) : forall l1 l2 l3 l4,
  x ∉ l1 -> x ∉ l3 -> l1 ++ x :: l2 = l3 ++ x :: l4 -> l1 = l3 /\ l2 = l4.
Proof.
  induction l1 as [|a l1 IH]; intros l2 [|b l3] l4 H1 H3 He; simplify_eq/=; [done|set_solver|set_solver|].
  destruct (IH l2 l3 l4) as [-> ->]; [set_solver|set_solver|done|done].
Qed.

Lemma rotated_unique l1 l2 : rotated l1 -> rotated l2 -> l1 ≡ₚ l2 -> head l1 = head l2 -> l1 = l2.
Proof.
  intros Hr1 Hr2 Hp Hh. destruct (decide (l1 = [])) as [->|Hne1]; [by apply Permutation_nil_l in Hp|].
  destruct (decide (l2 = [])) as [->|Hne2]; [by apply Permutation_nil_r in Hp|].
  destruct (rotated_cons _ Hr1 Hne1) as (h & hi1 & lo1 & -> & Hs1).
  destruct (rotated_cons _ Hr2 Hne2) as (h2 & hi2 & lo2 & -> & Hs2). injection Hh as <-.
  assert (lo1 ++ h :: hi1 = lo2 ++ h :: hi2) as He.
  { apply (StronglySorted_unique strLe); [by apply strict_sorted..|].
    rewrite (Permutation_app_comm lo1), (Permutation_app_comm lo2). done. }
  pose proof (strict_NoDup _ Hs1) as Hnd1. pose proof (strict_NoDup _ Hs2) as Hnd2. rewrite NoDup_app in Hnd1, Hnd2.
  destruct (split_unique h lo1 hi1 lo2 hi2) as [-> ->]; set_solver.
Qed.

(** Two well-formed managers of one node over one peerstore are equal. *)
Lemma pm_unique pm1 pm2 :
  pm_wf pm1 -> pm_wf pm2 -> selfFirst pm1 -> selfFirst pm2 ->
  startAddr pm1 = startAddr pm2 -> isDynamic pm1 = isDynamic pm2 -> pstore pm1 = pstore pm2 -> pm1 = pm2.
Proof.
  intros Hw1 Hw2 Hs1 Hs2 Ha Hd Hp.
  assert (sortedPeers (view pm1) ≡ₚ sortedPeers (view pm2)) as Hperm.
  { destruct Hw1 as (_ & _ & ->), Hw2 as (_ & _ & ->). by rewrite Hp. }
  assert (sortedAddrs (view pm1) = sortedAddrs (view pm2)) as Haddr.
  { apply rotated_unique; [apply Hw1|apply Hw2| |by rewrite Hs1, Hs2, Ha].
    destruct Hw1 as (_ & [_ <-] & _), Hw2 as (_ & [_ <-] & _). by rewrite Hperm. }
  assert (sortedPeers (view pm1) = sortedPeers (view pm2)) as Hpeers.
  { apply list_eq. intros i. pose proof (f_equal (lookup i) Haddr) as Hi.
    assert (forall pm, pm_wf pm -> (sortedPeers (view pm) !! i) = (sortedAddrs (view pm) !! i) ≫= (fun k => pstore pm !! k)) as Hl; [|by rewrite !Hl, Hi, Hp].
    intros pm Hw. pose proof Hw as (_ & [_ Hv] & _). rewrite <- Hv, list_lookup_fmap.
    destruct (sortedPeers (view pm) !! i) as [q|] eqn:Hq; [|done]. cbn. symmetry. apply pm_lookup; [done|]. by eapply list_elem_of_lookup_2. }
  destruct pm1 as [? ? [? ?] ?], pm2 as [? ? [? ?] ?]. cbn in *. by subst.
Qed.

(** The peerstore after an event, and the events a router issues: additions of unknown peers
    and removals of known peers other than the node itself. *)
Definition applyEvent (m : PeerAddrMap) (evt : PeerManagerEvent) : PeerAddrMap :=
  match EventType evt with
  | AddPeerEventType => <[peerKey (EventPeer evt) := EventPeer evt]> m
  | RemovePeerEventType => delete (peerKey (EventPeer evt)) m
  end.

Definition legalEvent (self : bytes) (m : PeerAddrMap) (evt : PeerManagerEvent) : Prop :=
  match EventType evt with
  | AddPeerEventType => m !! peerKey (EventPeer evt) = None
  | RemovePeerEventType => is_Some (m !! peerKey (EventPeer evt)) /\ GetAddress (EventPeer evt) ≠ self
  end.

Fixpoint legalEvents (self : bytes) (m : PeerAddrMap) (evts : list PeerManagerEvent) : Prop :=
  match evts with
  | [] => True
  | evt :: rest => legalEvent self m evt /\ legalEvents self (applyEvent m evt) rest
  end.

Fixpoint handleEvents (pm : SortedPeerManager) (evts : list PeerManagerEvent) : option SortedPeerManager :=
  match evts with
  | [] => Some pm
  | evt :: rest => HandleEvent pm evt ≫= fun pm' => handleEvents pm' rest
  end.

Lemma handle_legal pm evt :
  pm_wf pm -> selfFirst pm -> isDynamic pm = true -> legalEvent (startAddr pm) (pstore pm) evt ->
  exists pm', HandleEvent pm evt = Some pm' /\ pm_wf pm' /\ selfFirst pm' /\ isDynamic pm' = true /\
    startAddr pm' = startAddr pm /\ pstore pm' = applyEvent (pstore pm) evt.
Proof.
  intros Hwf Hself Hdyn Hlegal. unfold HandleEvent. rewrite Hdyn. eexists. split; [done|].
  destruct evt as [[] p]; cbn in Hlegal.
  - destruct (process_add pm p Hwf Hlegal) as (Hwf' & Hps & Hs). by repeat split; try apply Hwf'; auto.
  - destruct Hlegal as [Hin Hne]. destruct (process_remove pm p Hwf Hself Hin Hne) as (Hwf' & Hps & Hs).
    by repeat split; try apply Hwf'; auto.
Qed.

Lemma handle_legals evts : forall pm,
  pm_wf pm -> selfFirst pm -> isDynamic pm = true -> legalEvents (startAddr pm) (pstore pm) evts ->
  exists pm', handleEvents pm evts = Some pm' /\ pm_wf pm' /\ selfFirst pm' /\ isDynamic pm' = true /\
    startAddr pm' = startAddr pm /\ pstore pm' = foldl applyEvent (pstore pm) evts.
Proof.
  induction evts as [|evt evts IH]; intros pm Hwf Hself Hdyn Hl; [by exists pm|].
  destruct Hl as [Hl Hls]. destruct (handle_legal pm evt Hwf Hself Hdyn Hl) as (pm1 & He & Hwf1 & Hself1 & Hdyn1 & Ha1 & Hp1).
  destruct (IH pm1 Hwf1 Hself1 Hdyn1) as (pm' & He' & Hw' & Hs' & Hd' & Ha' & Hp'); [by rewrite Ha1, Hp1|].
  exists pm'. cbn. rewrite He. cbn. by rewrite He', Ha', Ha1, Hp', Hp1.
Qed.

Section spec.
Context `{GoMapOrder}.

(** C18: For a node that is in its peerstore, processing any sequence of additions of unknown
    peers and removals of known peers other than the node itself, one by one, leaves the
    manager in exactly the state that building it afresh from the resulting peerstore gives:
    the binary searches of the view insert and remove at the right places. *)
Theorem incremental_view_is_rebuilt_view (self : bytes) (m : PeerAddrMap) (evts : list PeerManagerEvent) :
  pstore_wf m -> is_Some (m !! Address_String self) -> legalEvents self m evts ->
  exists pm pm', NewSortedPeerManager self m true = Ok pm /\ handleEvents pm evts = Some pm' /\
    NewSortedPeerManager self (foldl applyEvent m evts) true = Ok pm'.
Proof.
  intros Hwf Hself Hl. destruct (new_manager self m true Hwf) as (pm & Hnew & Hpm & Hp & Ha & Hd & Hs).
  specialize (Hs Hself). rewrite <- Ha, <- Hp in Hl.
  destruct (handle_legals evts pm Hpm Hs Hd Hl) as (pm' & He & Hpm' & Hs' & Hd' & Ha' & Hp').
  exists pm, pm'. split; [done|]. split; [done|]. rewrite <- Hp, <- Hp'.
  destruct (new_manager self (pstore pm') true (proj1 Hpm')) as (pm2 & Hnew2 & Hpm2 & Hp2 & Ha2 & Hd2 & Hs2).
  rewrite Hnew2. f_equal. apply pm_unique; try done; [|by rewrite Ha2, Ha', Ha|by rewrite Hd2, Hd'].
  apply Hs2. rewrite <- Ha, <- Ha'. apply pm_keys; [done|]. unfold selfFirst in Hs'.
  destruct (sortedAddrs (view pm')) as [|y l]; [done|]. injection Hs' as ->. set_solver.
Qed.
End spec.

(** *** Concrete managers *)
Definition toyPeer (a : string) : NetworkPeer :=
  {| peerPublicKey := a; peerAddress := a; peerMultiaddr := None; peerServiceURL := a |}.
Definition toyStore (l : list string) : PeerAddrMap := list_to_map ((fun a => (peerKey (toyPeer a), toyPeer a)) <$> l).
Definition addEvent (a : string) : PeerManagerEvent := {| EventType := AddPeerEventType; EventPeer := toyPeer a |}.
Definition removeEvent (a : string) : PeerManagerEvent := {| EventType := RemovePeerEventType; EventPeer := toyPeer a |}.

#[local] Existing Instance CanonicalOrder.order.

Lemma incremental_view_is_rebuilt_view_witness :
  exists pm pm', NewSortedPeerManager "d" (toyStore ["b"; "a"; "d"; "f"]) true = Ok pm /\
    handleEvents pm [addEvent "e"; removeEvent "a"; addEvent "c"] = Some pm' /\
    NewSortedPeerManager "d" (foldl applyEvent (toyStore ["b"; "a"; "d"; "f"]) [addEvent "e"; removeEvent "a"; addEvent "c"]) true = Ok pm'.
Proof.
  apply incremental_view_is_rebuilt_view.
  - apply (bool_decide_unpack (map_Forall (fun k p => k = peerKey p) _)). by vm_compute.
  - eexists. by vm_compute.
  - split; [by vm_compute|]. split; [split; [eexists; by vm_compute|done]|]. split; [by vm_compute|done].
Defined.

(** The comment of [sortAddrs]: self "D" and peers "BACEDF" give "DEFABC". *)
Example view_of_comment :
  (sortedPeers <$> (match NewSortedPeersView "D" (toyStore ["B"; "A"; "C"; "E"; "D"; "F"]) with Ok v => Some v | _ => None end)) =
  Some (toyPeer <$> ["D"; "E"; "F"; "A"; "B"; "C"]).
Proof. by vm_compute. Qed.

Definition viewAfter (self : bytes) (l : list string) (evts : list PeerManagerEvent) : option (list NetworkPeer * list string) :=
  match NewSortedPeerManager self (toyStore l) true with
  | Ok pm => (fun pm' => (sortedPeers (view pm'), sortStrings ((map_to_list (pstore pm')).*1))) <$> handleEvents pm evts
  | _ => None
  end.

(** Outside these events the view and the peerstore come apart.  Removing an address that is
    not known takes its successor out of the view while the peerstore keeps it; removing the
    node itself leaves it in the view; adding a known peer again lists it twice. *)
Theorem illegal_events_break_view :
  viewAfter "a" ["a"; "c"; "e"] [removeEvent "b"] = Some (toyPeer <$> ["a"; "e"], peerKey ∘ toyPeer <$> ["a"; "c"; "e"]) /\
  viewAfter "a" ["a"; "c"; "e"] [removeEvent "a"] = Some (toyPeer <$> ["a"; "c"; "e"], peerKey ∘ toyPeer <$> ["c"; "e"]) /\
  viewAfter "a" ["a"; "c"; "e"] [addEvent "c"] = Some (toyPeer <$> ["a"; "c"; "c"; "e"], peerKey ∘ toyPeer <$> ["a"; "c"; "e"]).
Proof. by vm_compute. Qed.
End PeersSpec.

(** ** From staked actors to a peerstore (src/p2p/providers/peerstore_provider) *)
Module PeerstoreProvider.
Import Pstore PeersFacts.

Section provider.
Context `{CryptoPrims}.

Definition ActorToPeer (actor : Actor) : res PeerErr NetworkPeer :=
  match NewPublicKey (PublicKey actor) with
  | Err e => Err (ErrPublicKey e)
  | Panic => Panic
  | Ok pubKey =>
      Ok {| peerPublicKey := pubKey; peerAddress := PublicKey_Address pubKey; peerMultiaddr := None;
            peerServiceURL := ServiceUrl actor |}
  end.

(** The loop keeps going after an error; the errors are collected in order.  [ActorToPeer]
    never returns an [ErrResolvingAddr], so the branch that ignores it is never taken. *)
Fixpoint actorsLoop (actors : list Actor) (pstore : PeerAddrMap) (errs : list PeerErr) : res PeerErr (PeerAddrMap * list PeerErr) :=
  match actors with
  | [] => Ok (pstore, errs)
  | a :: rest =>
      match ActorToPeer a with
      | Err e => actorsLoop rest pstore (errs ++ [e])
      | Panic => Panic
      | Ok networkPeer =>
          match AddPeer pstore networkPeer with
          | Ok pstore' => actorsLoop rest pstore' errs
          | Err e => actorsLoop rest pstore (errs ++ [e])
          | Panic => Panic
          end
      end
  end.

Definition ActorsToPeerstore (actors : list Actor) : res PeerErr (PeerAddrMap * list PeerErr) :=
  actorsLoop actors ∅ [].

(** The peer of an actor whose public key parses. *)
Definition actorPeer (a : Actor) : option NetworkPeer := match ActorToPeer a with Ok p => Some p | _ => None end.

Lemma ActorToPeer_no_panic a : ActorToPeer a ≠ Panic.
Proof. unfold ActorToPeer, NewPublicKey, NewPublicKeyFromBytes. by repeat case_match. Qed.

(** Whatever the actors, the peerstore is well formed and its keys are the addresses of the
    actors whose public key parses. *)
Lemma actorsLoop_keys actors : forall m errs,
  pstore_wf m ->
  exists m' errs', actorsLoop actors m errs = Ok (m', errs') /\ pstore_wf m' /\
    (forall k, is_Some (m' !! k) <-> is_Some (m !! k) \/ exists p, p ∈ omap actorPeer actors /\ k = peerKey p).
Proof.
  induction actors as [|a actors IH]; intros m errs Hwf.
  { exists m, errs. split; [done|]. split; [done|]. set_solver. }
  pose proof (ActorToPeer_no_panic a) as Hnp. cbn [actorsLoop].
  assert (forall p, p ∈ omap actorPeer (a :: actors) <-> actorPeer a = Some p \/ p ∈ omap actorPeer actors) as Hel.
  { intros p. rewrite !list_elem_of_omap. set_solver. }
  setoid_rewrite Hel. clear Hel. unfold actorPeer at 1.
  destruct (ActorToPeer a) as [p|e|] eqn:Ha; [|destruct (IH m (errs ++ [e]) Hwf) as (m' & errs' & He & Hw & Hk); exists m', errs'; set_solver|done].
  destruct (AddPeer m p) as [m1|e|] eqn:Hadd.
  - destruct (AddPeer_wf _ _ _ Hwf Hadd) as (Hwf1 & -> & Hn).
    destruct (IH _ errs Hwf1) as (m' & errs' & He & Hw & Hk). exists m', errs'. split; [done|]. split; [done|]. intros k. rewrite Hk.
    destruct (decide (k = peerKey p)) as [->|Hne]; [rewrite lookup_insert_eq|rewrite lookup_insert_ne by done]; naive_solver.
  - destruct (IH m (errs ++ [e]) Hwf) as (m' & errs' & He & Hw & Hk). exists m', errs'. split; [done|]. split; [done|]. intros k. rewrite Hk.
    assert (is_Some (m !! peerKey p)) by (unfold AddPeer in Hadd; fold (peerKey p) in Hadd; by destruct (m !! peerKey p)).
    naive_solver.
  - unfold AddPeer in Hadd. by case_match.
Qed.

(** Actors with valid, distinct keys give no error. *)
Lemma actorsLoop_ok actors ps : forall m errs,
  actorPeer <$> actors = Some <$> ps -> NoDup (peerKey <$> ps) -> (forall p, p ∈ ps -> m !! peerKey p = None) ->
  actorsLoop actors m errs = Ok (foldl (fun m p => <[peerKey p := p]> m) m ps, errs).
Proof.
  revert ps. induction actors as [|a actors IH]; intros [|p ps] m errs Hps Hnd Hm; try done.
  cbn in Hps. injection Hps as Ha Hps. cbn [actorsLoop foldl]. unfold actorPeer in Ha.
  rewrite fmap_cons, NoDup_cons in Hnd. destruct Hnd as [Hp Hnd].
  destruct (ActorToPeer a) as [q|e|]; [injection Ha as ->|done|done].
  unfold AddPeer. fold (peerKey p). rewrite Hm by set_solver. apply IH; [done|done|].
  intros q Hq. rewrite lookup_insert_ne; [apply Hm; set_solver|]. intros He. apply Hp. rewrite He. by apply list_elem_of_fmap_2.
Qed.
End provider.
End PeerstoreProvider.
