(* ===== verification/Libp2p.v ===== *)
(** The libp2p host as the routers use it (src/p2p/utils/{host,peer_conversion,url_conversion}.go,
    src/p2p/protocol), the wire messages of the two routers and the errors of the P2P code.

    libp2p itself, the resolver and Go's parsers of URLs and IP addresses are parameters
    ([Libp2pPrims], [NetPrims]); the wire encoding is the class [P2PCodec].  The state of the
    host is what the routers put into it: the addresses and keys of peers, and the messages
    written to streams, in order.  A multiaddr is the list of its components, each the code of
    its protocol with its value. *)

From S2P Require Import Prelude GoStd GoSort Errors Crypto CoreTypes Peers.
#[local] Open Scope string_scope.
#[local] Open Scope Z_scope.

(** ** Errors *)
Inductive P2PErr :=
| ErrUnknownPeer
| ErrText (msg : string)
| ErrWrap (msg : string) (e : P2PErr)
| ErrJoin (l : list P2PErr).

(** [errors.Is(err, ErrUnknownPeer)] follows the wrapped errors. *)
Fixpoint isUnknownPeer (e : P2PErr) : bool :=
  match e with
  | ErrUnknownPeer => true
  | ErrText _ => false
  | ErrWrap _ e' => isUnknownPeer e'
  | ErrJoin l => existsb isUnknownPeer l
  end.

(** [multierr.Append]. *)
Definition multierrAppend (l r : option P2PErr) : option P2PErr :=
  match l, r with
  | None, _ => r
  | _, None => l
  | Some (ErrJoin l'), Some (ErrJoin r') => Some (ErrJoin (l' ++ r'))
  | Some (ErrJoin l'), Some e => Some (ErrJoin (l' ++ [e]))
  | Some e, Some (ErrJoin r') => Some (ErrJoin (e :: r'))
  | Some e1, Some e2 => Some (ErrJoin [e1; e2])
  end.

(** ** Wire messages *)
Record Any := { TypeUrl : string; AnyValue : bytes }.
Record PocketEnvelope := { Content : option Any; Nonce : Z }.
Record RainTreeMessage := { Level : Z; RTData : slice }.
Record BackgroundMessage := { BGData : slice }.

Class P2PCodec := {
  marshalEnvelope : PocketEnvelope -> option bytes;
  unmarshalEnvelope : bytes -> option PocketEnvelope;
  marshalRainTree : RainTreeMessage -> option bytes;
  unmarshalRainTree : bytes -> option RainTreeMessage;
  marshalBackground : BackgroundMessage -> option bytes;
  unmarshalBackground : bytes -> option BackgroundMessage;
}.

(** Messages can be encoded and decode to themselves (levels and nonces within their width). *)
Class P2PCodecLaws (PC : P2PCodec) : Prop := {
  envelope_roundtrip : forall m, in_u64 (Nonce m) -> exists b, marshalEnvelope m = Some b /\ unmarshalEnvelope b = Some m;
  rainTree_roundtrip : forall m, in_u32 (Level m) -> exists b, marshalRainTree m = Some b /\ unmarshalRainTree b = Some m;
  background_roundtrip : forall m, exists b, marshalBackground m = Some b /\ unmarshalBackground b = Some m;
}.

Definition RaintreeProtocolID : string := "pokt/raintree/v1.0.0".
Definition BackgroundProtocolID : string := "pokt/background/v1.0.0".
Definition BackgroundTopicStr : string := "pokt/background".

(** ** URLs and multiaddrs (url_conversion.go) *)
Notation Multiaddr := (list (Z * string)).
Definition P_IP4 : Z := 4.
Definition P_TCP : Z := 6.
Definition P_IP6 : Z := 41.

Record URL := { urlHost : string; urlHostname : string; urlPort : string }.
(** An IP address by its text, with the answer of [To4() != nil]. *)
Record IP := { ipText : string; ipIsV4 : bool }.

Class NetPrims := {
  urlParse : string -> string + URL;
  splitHostPort : string -> string + string * string;
  parseIP : string -> option IP;
  lookupHost : string -> string + list string;
  randIndex : nat -> option nat;
  newMultiaddr : string -> string + Multiaddr;
}.

(** [rand.Int(rand.Reader, max)] is below [max]. *)
Class NetLaws (NP : NetPrims) : Prop := { randIndex_lt : forall n i, randIndex n = Some i -> (i < n)%nat }.

Definition anyScheme : string := "scheme://".

(** [strings.Contains(s, "://")]. *)
Definition containsScheme (s : string) : bool := match String.index 0 "://" s with Some _ => true | None => false end.

Section url.
Context `{NetPrims}.

Definition newResolvePeerIPErr (hostname : string) (err : option string) : P2PErr :=
  ErrWrap ("resolving peer IP for hostname: " +:+ hostname) (ErrText (default "" err)).

Definition getPeerIP (hostname : string) : res P2PErr IP :=
  match parseIP hostname with
  | Some ip => Ok ip
  | None =>
      match lookupHost hostname with
      | inl e => Err (newResolvePeerIPErr hostname (Some e))
      | inr addrs =>
          let validIPs := omap parseIP addrs in
          match validIPs with
          | [] => Err (newResolvePeerIPErr hostname None)
          | [ip] => Ok ip
          | _ =>
              let randomIndex := default 0%nat (randIndex (length validIPs)) in
              match validIPs !! randomIndex with Some ip => Ok ip | None => Panic end
          end
      end
  end.

Definition Libp2pMultiaddrFromServiceURL (serviceURL : string) : res P2PErr Multiaddr :=
  if containsScheme serviceURL then Err (ErrText ("usage of scheme is invalid in service URL: " +:+ serviceURL)) else
  let serviceURL := anyScheme +:+ serviceURL in
  match urlParse serviceURL with
  | inl e => Err (ErrWrap ("parsing peer service URL: " +:+ serviceURL) (ErrText e))
  | inr peerUrl =>
      match splitHostPort (urlHost peerUrl) with
      | inl e => Err (ErrWrap ("missing port number and delimiter in service URL: " +:+ serviceURL) (ErrText e))
      | inr (_, port) =>
          if bool_decide (port = "") then Err (ErrText ("missing port number and delimiter in service URL: " +:+ serviceURL)) else
          match getPeerIP (urlHostname peerUrl) with
          | Err e => Err (ErrWrap ("resolving peer IP for hostname: " +:+ urlHostname peerUrl) e)
          | Panic => Panic
          | Ok peerIP =>
              let version := if ipIsV4 peerIP then "ip4" else "ip6" in
              match atoi (urlPort peerUrl) with
              | None => Err (ErrText ("invalid port: " +:+ urlPort peerUrl))
              | Some _ =>
                  match newMultiaddr ("/" +:+ version +:+ "/" +:+ ipText peerIP +:+ "/tcp/" +:+ urlPort peerUrl) with
                  | inr m => Ok m | inl e => Err (ErrText e)
                  end
              end
          end
      end
  end.
End url.

(** [addr.ValueForProtocol]: the value of the first component with the code. *)
Definition valueForProtocol (addr : Multiaddr) (code : Z) : option string :=
  (fun c => c.2) <$> List.find (fun c => c.1 =? code) addr.

Definition ServiceURLFromLibp2pMultiaddr (addr : Multiaddr) : res P2PErr string :=
  match addr with
  | networkProtocol :: transportProtocol :: _ =>
      match valueForProtocol addr networkProtocol.1 with
      | None => Err (ErrText "protocol not found in multiaddr")
      | Some networkValue =>
          match valueForProtocol addr transportProtocol.1 with
          | None => Err (ErrText "protocol not found in multiaddr")
          | Some transportValue =>
              if networkProtocol.1 =? P_IP4 then Ok (networkValue +:+ ":" +:+ transportValue)
              else if networkProtocol.1 =? P_IP6 then Ok ("[" +:+ networkValue +:+ "]:" +:+ transportValue)
              else Err (ErrText "unsupported network protocol")
          end
      end
  | _ => Err (ErrText "unsupported multiaddr: expected at least 2 protocols")
  end.

(** ** The host *)
Record HostState := {
  hostID : string;
  hostAddrs : gmap string Multiaddr;         (* the addresses of peers in its peerstore *)
  hostKeys : gmap string bytes;
  hostSent : list (string * string * bytes);  (* peer, protocol, data written to a stream *)
  hostConnected : list string;
}.

Class Libp2pPrims := {
  unmarshalEd25519PublicKey : bytes -> string + bytes;
  idFromPublicKey : bytes -> string + string;
  addPubKeyErr : HostState -> string -> bytes -> option string;
  removeProtocolsErr : HostState -> string -> option string;
  newStreamErr : HostState -> string -> string -> option string;
  writeErr : HostState -> string -> bytes -> option string;
  resetErr : HostState -> string -> option string;
  closeErr : HostState -> string -> option string;
  connectErr : HostState -> string -> option string;
}.

Section host.
Context `{CryptoPrims} `{NetPrims} `{Libp2pPrims}.
Notation HM := (M HostState P2PErr).

(** *** peer_conversion.go *)
Definition Libp2pPublicKeyFromPeer (peer : NetworkPeer) : res P2PErr bytes :=
  match unmarshalEd25519PublicKey (GetPublicKey peer) with
  | inr pk => Ok pk
  | inl e => Err (ErrWrap ("unmarshalling peer ed25519 public key, pokt address: " +:+ Address_String (GetAddress peer)) (ErrText e))
  end.

Record AddrInfo := { infoID : string; infoAddrs : Multiaddr }.

Definition Libp2pAddrInfoFromPeer (peer : NetworkPeer) : res P2PErr AddrInfo :=
  match Libp2pPublicKeyFromPeer peer with
  | Err e => Err e
  | Panic => Panic
  | Ok publicKey =>
      match idFromPublicKey publicKey with
      | inl e => Err (ErrWrap ("retrieving ID from peer public key, pokt address: " +:+ Address_String (GetAddress peer)) (ErrText e))
      | inr peerID =>
          match Libp2pMultiaddrFromServiceURL (GetServiceURL peer) with
          | Err e => Err e
          | Panic => Panic
          | Ok a => Ok {| infoID := peerID; infoAddrs := a |}
          end
      end
  end.

(** The remote end of a stream: its raw public key, if it can be read, and its multiaddr. *)
Record Stream := { remotePublicKey : string + bytes; remoteMultiaddr : Multiaddr; streamData : string + bytes }.

Definition PeerFromLibp2pStream (stream : Stream) : res P2PErr NetworkPeer :=
  match remotePublicKey stream with
  | inl e => Err (ErrText e)
  | inr publicKeyBz =>
      match NewPublicKeyFromBytes publicKeyBz with
      | Err e => Err (ErrText e)
      | Panic => Panic
      | Ok publicKey =>
          match ServiceURLFromLibp2pMultiaddr (remoteMultiaddr stream) with
          | Err e => Err (ErrWrap "converting multiaddr to service URL" e)
          | Panic => Panic
          | Ok peerServiceURL =>
              Ok {| peerPublicKey := publicKey; peerAddress := PublicKey_Address publicKey;
                    peerMultiaddr := Some (remoteMultiaddr stream); peerServiceURL := peerServiceURL |}
          end
      end
  end.

(** *** host.go *)
Definition AddPeerToLibp2pHost (peer : NetworkPeer) : HM unit :=
  pubKey ← of_res (match Libp2pPublicKeyFromPeer peer with
                   | Err e => Err (ErrWrap ("converting peer public key, pokt address: " +:+ Address_String (GetAddress peer)) e) | r => r end);
  libp2pPeer ← of_res (match Libp2pAddrInfoFromPeer peer with
                       | Err e => Err (ErrWrap ("converting peer info, pokt address: " +:+ Address_String (GetAddress peer)) e) | r => r end);
  modify (fun h => {| hostID := hostID h; hostAddrs := <[infoID libp2pPeer := infoAddrs libp2pPeer]> (hostAddrs h);
                      hostKeys := hostKeys h; hostSent := hostSent h; hostConnected := hostConnected h |}) ;;
  h ← get;
  match addPubKeyErr h (infoID libp2pPeer) pubKey with
  | Some e => fail (ErrWrap ("adding peer public key, pokt address: " +:+ Address_String (GetAddress peer)) (ErrText e))
  | None => put {| hostID := hostID h; hostAddrs := hostAddrs h; hostKeys := <[infoID libp2pPeer := pubKey]> (hostKeys h);
                   hostSent := hostSent h; hostConnected := hostConnected h |}
  end.

(** The loop goes on after an error; the errors are joined. *)
Fixpoint populateLoop (peers : PeerList) (err : option P2PErr) : HM (option P2PErr) :=
  match peers with
  | [] => mret err
  | peer :: rest => fun h =>
      match AddPeerToLibp2pHost peer h with
      | (Ok _, h') => populateLoop rest err h'
      | (Err e, h') => populateLoop rest (multierrAppend err (Some e)) h'
      | (Panic, h') => (Panic, h')
      end
  end.

Definition PopulateLibp2pHost `{GoMapOrder} (pstore : PeerAddrMap) : HM unit :=
  err ← populateLoop (Pstore.GetPeerList pstore) None;
  match err with Some e => fail e | None => mret tt end.

Definition RemovePeerFromLibp2pHost (peer : NetworkPeer) : HM unit :=
  peerInfo ← of_res (Libp2pAddrInfoFromPeer peer);
  modify (fun h => {| hostID := hostID h; hostAddrs := hostAddrs h; hostKeys := delete (infoID peerInfo) (hostKeys h);
                      hostSent := hostSent h; hostConnected := hostConnected h |}) ;;
  h ← get;
  match removeProtocolsErr h (infoID peerInfo) with Some e => fail (ErrText e) | None => mret tt end.

Definition Libp2pSendToPeer (protocolID : string) (data : bytes) (peer : NetworkPeer) : HM unit :=
  peerInfo ← of_res (Libp2pAddrInfoFromPeer peer);
  h ← get;
  match newStreamErr h (infoID peerInfo) protocolID with
  | Some e => fail (ErrWrap "opening stream" (ErrText e))
  | None =>
      match writeErr h (infoID peerInfo) data with
      | Some e =>
          match multierrAppend (Some (ErrWrap "writing to stream" (ErrText e))) (ErrText <$> resetErr h (infoID peerInfo)) with
          | Some e' => fail e'
          | None => mret tt
          end
      | None =>
          modify (fun h => {| hostID := hostID h; hostAddrs := hostAddrs h; hostKeys := hostKeys h;
                              hostSent := hostSent h ++ [(infoID peerInfo, protocolID, data)]; hostConnected := hostConnected h |}) ;;
          match closeErr h (infoID peerInfo) with Some e => fail (ErrText e) | None => mret tt end
      end
  end.
End host.

(** ** No step of the host code panics *)
Section no_panic.
Context `{CryptoPrims} `{NL : NetLaws} `{Libp2pPrims}.

Lemma getPeerIP_no_panic hostname : getPeerIP hostname ≠ Panic.
Proof.
  unfold getPeerIP. destruct (parseIP hostname); [done|]. destruct (lookupHost hostname) as [e|addrs]; [done|].
  destruct (omap parseIP addrs) as [|ip [|ip2 l]] eqn:Hl; [done|done|].
  destruct (_ !! default 0%nat _) eqn:Hi; [done|]. apply lookup_ge_None in Hi.
  destruct (randIndex (length (ip :: ip2 :: l))) as [i|] eqn:Hr; [apply randIndex_lt in Hr|]; cbn in *; lia.
Qed.

Lemma multiaddr_no_panic url : Libp2pMultiaddrFromServiceURL url ≠ Panic.
Proof.
  unfold Libp2pMultiaddrFromServiceURL. cbv zeta. repeat (case_match; try done).
  all: match goal with E : getPeerIP _ = Panic |- _ => by apply getPeerIP_no_panic in E end.
Qed.

Lemma addrInfo_no_panic peer : Libp2pAddrInfoFromPeer peer ≠ Panic.
Proof.
  unfold Libp2pAddrInfoFromPeer, Libp2pPublicKeyFromPeer. repeat (case_match; try done).
  all: match goal with E : Libp2pMultiaddrFromServiceURL _ = Panic |- _ => by apply multiaddr_no_panic in E end.
Qed.

Lemma sendToPeer_no_panic proto data peer h : (Libp2pSendToPeer proto data peer h).1 ≠ Panic.
Proof.
  unfold Libp2pSendToPeer. pose proof (addrInfo_no_panic peer) as Ha.
  unfold mbind, M_bind, of_res. destruct (Libp2pAddrInfoFromPeer peer) as [info|e|]; [|done|done]. cbn.
  by repeat (case_match; cbn; try done).
Qed.
End no_panic.
