(* ===== verification/Bus.v ===== *)
(** The bus that connects the modules (src/runtime/bus.go, modules_registry.go, errors.go;
    src/telemetry/module.go for the names it looks for).

    Modules are known to each other through a registry, a map from names to modules; events go
    through a channel with a buffer of fixed size.  Writing to a full buffer and reading from an
    empty one block the caller: these operations have no result then.  A module is its name, the
    interfaces it implements and whether it has been given the bus. *)

From S2P Require Import Prelude GoStd Libp2p.
#[local] Open Scope string_scope.
#[local] Open Scope Z_scope.

Record InjectableModule := { GetModuleName : string; implements : list string; hasBus : bool }.
Definition SetBus (m : InjectableModule) : InjectableModule :=
  {| GetModuleName := GetModuleName m; implements := implements m; hasBus := true |}.

(** ** The registry *)
Module Registry.
Abbreviation modulesRegistry := (gmap string InjectableModule).
Definition NewModulesRegistry : modulesRegistry := ∅.
Definition RegisterModule (module : InjectableModule) (m : modulesRegistry) : modulesRegistry := <[GetModuleName module := module]> m.
Definition ErrModuleNotRegistered (moduleName : string) : string :=
  "module " +:+ moduleName +:+ " not found, did you call ModulesRegistry.RegisterModule() ?".
Definition GetModule (m : modulesRegistry) (moduleName : string) : res string InjectableModule :=
  match m !! moduleName with Some found => Ok found | None => Err (ErrModuleNotRegistered moduleName) end.
End Registry.

(** ** The bus *)
Module Bus.
Import Registry.

Definition DefaultBusBufferSize : nat := 100.
Record bus := { channel : list PocketEnvelope; modulesRegistry : gmap string InjectableModule }.

Definition Create : bus := {| channel := []; modulesRegistry := NewModulesRegistry |}.

(** The module gets the bus before it is registered. *)
Definition RegisterModule (module : InjectableModule) (b : bus) : bus :=
  {| channel := channel b; modulesRegistry := Registry.RegisterModule (SetBus module) (modulesRegistry b) |}.

Definition PublishEventToBus (e : PocketEnvelope) (b : bus) : option bus :=
  if (length (channel b) <? DefaultBusBufferSize)%nat then Some {| channel := (channel b ++ [e])%list; modulesRegistry := modulesRegistry b |} else None.
Definition GetBusEvent (b : bus) : option (PocketEnvelope * bus) :=
  match channel b with
  | [] => None
  | e :: rest => Some (e, {| channel := rest; modulesRegistry := modulesRegistry b |})
  end.

(** A module that is missing, or does not implement the interface, ends the process. *)
Definition getModuleFromRegistry (interface moduleName : string) (b : bus) : res string InjectableModule :=
  match GetModule (modulesRegistry b) moduleName with
  | Ok found => if bool_decide (interface ∈ implements found) then Ok found else Panic
  | _ => Panic
  end.

Definition GetPersistenceModule : bus -> res string InjectableModule := getModuleFromRegistry "PersistenceModule" "persistence".
Definition GetP2PModule : bus -> res string InjectableModule := getModuleFromRegistry "P2PModule" "p2p".
Definition GetUtilityModule : bus -> res string InjectableModule := getModuleFromRegistry "UtilityModule" "utility".
Definition GetConsensusModule : bus -> res string InjectableModule := getModuleFromRegistry "ConsensusModule" "consensus".
Definition GetLoggerModule : bus -> res string InjectableModule := getModuleFromRegistry "LoggerModule" "logger".
Definition GetRPCModule : bus -> res string InjectableModule := getModuleFromRegistry "RPCModule" "rpc".
Definition GetStateMachineModule : bus -> res string InjectableModule := getModuleFromRegistry "StateMachineModule" "state_machine".
Definition GetIBCModule : bus -> res string InjectableModule := getModuleFromRegistry "IBCModule" "ibc".

Definition ImplementationNames : list string := ["telemetry_prometheus"; "telemetry_noOP"].
Definition noopTelemetryModule : InjectableModule :=
  {| GetModuleName := "telemetry_noOP"; implements := ["TelemetryModule"]; hasBus := false |}.

(** The first of the names that is registered; without one a module that does nothing is made
    and registered. *)
Fixpoint firstRegistered (names : list string) (b : bus) : option InjectableModule :=
  match names with
  | [] => None
  | n :: rest => match GetModule (modulesRegistry b) n with Ok found => Some found | _ => firstRegistered rest b end
  end.
Definition GetTelemetryModule (b : bus) : res string (InjectableModule * bus) :=
  match firstRegistered ImplementationNames b with
  | Some found => if bool_decide ("TelemetryModule" ∈ implements found) then Ok (found, b) else Panic
  | None => Ok (SetBus noopTelemetryModule, RegisterModule noopTelemetryModule b)
  end.
End Bus.

(** ** Facts *)
Module BusFacts.
Import Bus.

Inductive BusOp := Publish (e : PocketEnvelope) | Read.

(** A run without blocking: the events read, and the bus. *)
Fixpoint runOps (ops : list BusOp) (b : bus) : option (list PocketEnvelope * bus) :=
  match ops with
  | [] => Some ([], b)
  | Publish e :: rest => b' ← PublishEventToBus e b; runOps rest b'
  | Read :: rest => '(e, b') ← GetBusEvent b; '(es, b'') ← runOps rest b'; Some (e :: es, b'')
  end.
Definition published (ops : list BusOp) : list PocketEnvelope := omap (fun o => match o with Publish e => Some e | Read => None end) ops.

(** the event channel is a queue.  In every run in which nobody blocks, the events read and
    then the events still in the buffer are exactly the events that were in it and those
    published, in order, and the buffer never holds more than its size. *)
Theorem bus_events_in_order (ops : list BusOp) (b b' : bus) (es : list PocketEnvelope) :
  (length (channel b) <= DefaultBusBufferSize)%nat -> runOps ops b = Some (es, b') ->
  (es ++ channel b' = channel b ++ published ops)%list /\ (length (channel b') <= DefaultBusBufferSize)%nat /\ modulesRegistry b' = modulesRegistry b.
Proof.
  revert b es. induction ops as [|[e|] ops IH]; intros b es Hb Hr; cbn [runOps published omap list_omap] in *.
  - injection Hr as <- <-. by rewrite app_nil_r.
  - unfold PublishEventToBus in Hr. destruct (Nat.ltb_spec (length (channel b)) DefaultBusBufferSize) as [Hlt|]; [|done]. cbn in Hr.
    apply IH in Hr as (He & Hl & Hm); [|cbn; rewrite length_app; cbn; lia]. cbn in He, Hm. rewrite He, <- app_assoc. done.
  - unfold GetBusEvent in Hr. destruct (channel b) as [|e rest] eqn:Hc; [done|]. cbn in Hr. destruct (runOps ops _) as [[es' b'']|] eqn:Hops; [|done].
    injection Hr as <- <-. apply IH in Hops as (He & Hl & Hm); [|cbn in *; lia]. cbn in He. split; [|done]. cbn. by rewrite He.
Qed.

Lemma bus_events_in_order_witness :
  let e := {| Content := None; Nonce := 7 |} in
  exists b', runOps [Publish e; Read] Create = Some ([e], b') /\ ([e] ++ channel b' = [] ++ [e])%list.
Proof.
  intros e. eexists. split; [reflexivity|]. refine (proj1 (bus_events_in_order [Publish e; Read] Create _ [e] _ _)); [cbn; lia|reflexivity].
Defined.

(** The goroutine that reads the channel is the one that handles the events: if handling one
    publishes more events than the buffer has room for, it waits for itself. *)
Lemma full_bus_blocks (es : list PocketEnvelope) (b : bus) :
  (length (channel b) <= DefaultBusBufferSize)%nat -> (DefaultBusBufferSize < length (channel b) + length es)%nat ->
  runOps (Publish <$> es) b = None.
Proof.
  revert b. induction es as [|e es IH]; intros b Hb Hl; [cbn in Hl; lia|]. cbn [fmap list_fmap runOps]. unfold PublishEventToBus.
  destruct (Nat.ltb_spec (length (channel b)) DefaultBusBufferSize) as [Hlt|]; [|done]. cbn [mbind option_bind].
  apply IH; cbn [channel length] in *; rewrite length_app; cbn [length]; lia.
Qed.

(** A telemetry module is always available, and it is the same one from then on. *)
Lemma telemetry_always_available (b : bus) :
  (forall n found, n ∈ ImplementationNames -> modulesRegistry b !! n = Some found -> "TelemetryModule" ∈ implements found) ->
  exists found b', GetTelemetryModule b = Ok (found, b') /\ GetTelemetryModule b' = Ok (found, b') /\ channel b' = channel b.
Proof.
  intros Himp. unfold GetTelemetryModule, ImplementationNames in *. cbn [firstRegistered]. unfold Registry.GetModule.
  destruct (modulesRegistry b !! "telemetry_prometheus") as [m1|] eqn:H1.
  { exists m1, b. rewrite H1, !bool_decide_eq_true_2; [done|by apply (Himp "telemetry_prometheus"); [set_solver|]..]. }
  destruct (modulesRegistry b !! "telemetry_noOP") as [m2|] eqn:H2.
  { exists m2, b. rewrite H1, H2, !bool_decide_eq_true_2; [done|by apply (Himp "telemetry_noOP"); [set_solver|]..]. }
  eexists _, _. split; [done|]. cbn. rewrite lookup_insert_ne by done. rewrite H1, lookup_insert_eq.
  rewrite bool_decide_eq_true_2; [done|]. cbn. set_solver.
Qed.
End BusFacts.
