(* ===== verification/ConsStart.v ===== *)
(** Creation and start of the consensus module, and what the P2P module looks for when it is
    created (src/consensus/module.go, consensus/pacemaker/module.go, consensus/leader_election,
    consensus/state_sync; src/p2p/module.go).

    The genesis state is shared by all modules, so the array of its validators is an object of a
    store: [sort.Slice] sorts the array, and a second slice of it sees the same elements.
    [sort.Slice] is not stable; elements with equal keys keep their order here. *)

From stdpp Require Import sorting.
From S2P Require Import Prelude GoStd GoSort Errors Crypto CoreTypes Messages Sql Persistence FifoList HotstuffMempool ConsTypes Consensus Node ConsView Libp2p Bus.
#[local] Open Scope string_scope.
#[local] Open Scope Z_scope.

Module ConsStart.
Import Consensus.

(** *** Slices of validators: the array they are on *)
Abbreviation Heap := (gmap nat (list Actor)).
Abbreviation ActorSlice := nat.
Definition elements (s : ActorSlice) (h : Heap) : list Actor := default [] (h !! s).
(** [vals[:]] is on the same array. *)
Definition reslice (s : ActorSlice) : ActorSlice := s.

Definition byKey (key : Actor -> string) (a b : Actor) : Prop := String.leb (key a) (key b) = true.
#[local] Instance byKey_dec key a b : Decision (byKey key a b).
Proof. unfold byKey. apply _. Defined.
Definition sortSlice (key : Actor -> string) (s : ActorSlice) : M Heap string unit :=
  modify (fun h => <[s := merge_sort (byKey key) (elements s h)]> h).

(** An index out of the range of either slice, or different addresses, end the process. *)
Fixpoint sameAddresses (l1 l2 : list Actor) : M Heap string unit :=
  match l1, l2 with
  | [], _ => mret tt
  | a :: l1', b :: l2' => if bool_decide (Address a = Address b) then sameAddresses l1' l2' else panic
  | _ :: _, [] => panic
  end.

Definition ValidateGenesis (validators : ActorSlice) : M Heap string unit :=
  let vals := validators in
  sortSlice ServiceUrl vals ;;
  let vals2 := reslice vals in
  sortSlice Address vals ;;
  h ← get;
  sameAddresses (elements vals h) (elements vals2 h).

Lemma numberAddresses_keys (l : list string) i am a :
  is_Some (valAddrToIdMap (numberAddresses i l am) !! a) -> a ∈ l \/ is_Some (valAddrToIdMap am !! a).
Proof.
  revert i am. induction l as [|x l IH]; intros i am Hs; [by right|]. cbn in Hs. apply IH in Hs as [Hs|Hs]; [left; set_solver|].
  cbn in Hs. apply lookup_insert_is_Some in Hs as [<-|[_ Hs]]; [left; set_solver|by right].
Qed.
Lemma mapper_knows (vals : list Actor) a : is_Some (valAddrToIdMap (NewActorMapper vals) !! a) -> a ∈ Address <$> vals.
Proof.
  unfold NewActorMapper. intros [Ha|Ha]%numberAddresses_keys.
  - unfold sortStrings in Ha. by rewrite merge_sort_Permutation in Ha.
  - cbn in Ha. rewrite lookup_empty in Ha. by destruct Ha.
Qed.

(** *** Creation *)
Section create.
Context {W U : Type} `{CryptoPrims} `{PersistenceUtilityModules W U}.

Record ConsensusConfig := {
  cc_PrivateKey : string; cc_MaxMempoolBytes : Z; cc_ServerModeEnabled : bool;
  TimeoutMsec : Z; Manual : bool; DebugTimeBetweenStepsMsec : Z }.

(** What the modules share while they are created. *)
Record Startup := { startBus : Bus.bus; startHeap : Heap; startWorld : W }.
Definition onHeap {A} (m : M Heap string A) : M Startup string A := fun s =>
  let '(r, h) := m (startHeap s) in (r, {| startBus := startBus s; startHeap := h; startWorld := startWorld s |}).
Definition registerModule (name : string) (interfaces : list string) : M Startup string unit :=
  modify (fun s => {| startBus := Bus.RegisterModule {| GetModuleName := name; implements := interfaces; hasBus := false |} (startBus s);
    startHeap := startHeap s; startWorld := startWorld s |}).

(** *** The submodules: creating them registers them *)
Definition createLeaderElection : M Startup string unit := registerModule "leader_election" ["LeaderElectionModule"].
Definition createStateSync : M Startup string unit := registerModule "stateSyncModule" ["StateSyncModule"].

Definition getRoundTimeout (cfg : ConsensusConfig) : Z := i64 (1000000 * i64 (TimeoutMsec cfg)).
Record pacemaker := { roundTimeout : Z; debugManualMode : bool; debugTimeBetweenStepsMsec : Z }.
Definition CreatePacemaker (cfg : ConsensusConfig) : M Startup string pacemaker :=
  registerModule "pacemaker" ["Pacemaker"] ;;
  mret {| roundTimeout := getRoundTimeout cfg; debugManualMode := Manual cfg; debugTimeBetweenStepsMsec := DebugTimeBetweenStepsMsec cfg |}.

(** [maxBlockBytes] is a field of the genesis state. *)
Definition Create (cfg : ConsensusConfig) (validators : ActorSlice) (maxBlockBytes sizeofBlock : Z) : M Startup string (Config * consensusModule W U) :=
  createLeaderElection ;;
  pm ← CreatePacemaker cfg;
  createStateSync ;;
  registerModule "consensus" ["ConsensusModule"; "CurrentHeightProvider"] ;;
  wrap_err (fun e => "genesis validation failed: " +:+ e) (onHeap (ValidateGenesis validators)) ;;
  privateKey ← of_res (NewPrivateKey (cc_PrivateKey cfg));
  let address := Address_String (PrivateKey_Address privateKey) in
  let config id := {| Consensus.privateKey := privateKey; nodeId := id; nodeAddress := address;
    MaxMempoolBytes := cc_MaxMempoolBytes cfg; MaxBlockBytes := maxBlockBytes; Consensus.sizeofBlock := sizeofBlock;
    serverModeEnabled := cc_ServerModeEnabled cfg; pacemakerManual := debugManualMode pm |} in
  s ← get;
  let m := newModule (U := U) (config 0) (startWorld s) in
  vals ← of_res (validatorsAt (CurrentHeight m) m);
  mret (config (idOf (NewActorMapper vals) address), m).

(** The metrics are left out; the two loops run in the background. *)
Definition Start : M (consensusModule W U) ConsErr unit :=
  loadPersistedState ;;
  RestartTimer.

(** *** Facts *)

(** The check of the genesis file is vacuous: both slices are on one array, so every list of
    validators is accepted; and the list of all modules is left sorted by address. *)
Lemma sameAddresses_refl (l : list Actor) h : sameAddresses l l h = (Ok tt, h).
Proof. induction l as [|a l IH]; [done|]. cbn. by rewrite bool_decide_eq_true_2. Qed.

Theorem genesis_check_vacuous (validators : ActorSlice) (h : Heap) :
  exists l, ValidateGenesis validators h = (Ok tt, <[validators := l]> h) /\ l ≡ₚ elements validators h /\ Sorted (byKey Address) l.
Proof.
  unfold ValidateGenesis, sortSlice, reslice. rewrite !bind_modify, bind_get, sameAddresses_refl.
  eexists. split; [by rewrite insert_insert_eq|]. unfold elements. rewrite lookup_insert_eq. cbn. split.
  - by rewrite !merge_sort_Permutation.
  - apply Sorted_merge_sort. intros a b. unfold byKey.
    destruct (String.leb_total (Address a) (Address b)); [by left|by right].
Qed.

(** The number of a node is fixed when it is created, from the validators at height 0. *)
Lemma node_id_at_creation cfg validators mbb sob s config m s' :
  Create cfg validators mbb sob s = (Ok (config, m), s') ->
  exists vals, validatorsAt 0 m = Ok vals /\ nodeId config = idOf (NewActorMapper vals) (nodeAddress config) /\ height m = 0.
Proof.
  unfold Create. intros Hc. repeat (apply bind_ok in Hc as (? & ? & ? & Hc)). apply mret_ok in Hc as [[= <- <-] _].
  repeat match goal with Hx : get _ = _ |- _ => injection Hx as <- <- | Hx : of_res _ _ = _ |- _ => apply of_res_ok in Hx as [Hx _] end.
  eexists. split_and!; [eassumption|done|done].
Qed.

Lemma elect_keeps_leader msg (m : consensusModule W U) : leaderId (ElectNextLeader msg m).2 = leaderId m.
Proof.
  unfold ElectNextLeader. rewrite bind_get, bind_eq. unfold of_module, of_res. destruct (validatorsAt _ m); [|done..]. done.
Qed.

(** A validator that was not one at height 0 never leads: whatever message a leader is elected
    for, and whatever the outcome, it does not take itself for the leader. *)
Theorem late_validator_never_leads `{HotstuffCodec} cfg validators mbb sob s config m s' :
  Create cfg validators mbb sob s = (Ok (config, m), s') ->
  (forall vals, validatorsAt 0 m = Ok vals -> nodeAddress config ∉ Address <$> vals) ->
  forall msg m1, IsLeader config (electNextLeader msg m1).2 = false.
Proof.
  intros Hc Hnot msg m1. destruct (node_id_at_creation _ _ _ _ _ _ _ _ Hc) as (vals & Hv & Hid & _).
  assert (nodeId config = 0) as Hzero.
  { rewrite Hid. unfold idOf. replace (valAddrToIdMap (NewActorMapper vals) !! nodeAddress config) with (@None Z); [done|].
    symmetry. apply eq_None_not_Some. intros Hs. apply (Hnot vals Hv). by apply mapper_knows. }
  unfold IsLeader. rewrite Hzero. apply bool_decide_eq_false_2. unfold electNextLeader. rewrite bind_modify, bind_eq.
  destruct (ElectNextLeader msg (set_leaderId None m1)) as [[l|e|] m2] eqn:He; pose proof (elect_keeps_leader msg (set_leaderId None m1)) as Hk;
    rewrite He in Hk; cbn in Hk; cbn; [|by rewrite Hk..].
  case_bool_decide as Hl; [by cbn; rewrite Hk|]. unfold getValidatorsAtHeight. rewrite bind_get, bind_eq, bind_get.
  unfold of_module, of_res. destruct (validatorsAt (CurrentHeight m2) m2) as [vs|e|]; cbn; [|by rewrite Hk..].
  destruct (idToValAddrMap (NewActorMapper vs) !! l); cbn; [congruence|by rewrite Hk].
Qed.
End create.
End ConsStart.
