(* ===== verification/Telemetry.v ===== *)
(** Telemetry (src/telemetry): the module that keeps Prometheus metrics, the one that does
    nothing, and the level of the logger (src/logger/module.go).

    The Prometheus client is a parameter: a registry, in which a metric is registered under its
    full name, at most once ([promauto] panics on the second time), and the metrics themselves,
    which are objects of the registry.  The module keeps maps from names to metrics. *)

From S2P Require Import Prelude GoStd GoFloat Messages RuntimeConfig.
#[local] Open Scope string_scope.
#[local] Open Scope Z_scope.

Import F64.

(** ** Errors (errors.go) *)
Definition NonExistentMetricErr (metricType name action : string) : string :=
  "tried to " +:+ action +:+ " a non-existent " +:+ name +:+ ": " +:+ metricType.

(** ** The client library *)
Class Prometheus := {
  fullName : string -> string -> string -> string;   (* namespace, subsystem, name *)
}.
(** A counter only counts the calls of [Inc]; a gauge is a float64. *)
Record Registry := { counterValues : gmap string Z; gaugeValues : gmap string float64; registered : gset string }.

Module Prometheus.
Import F64 Configs.

Record PrometheusTelemetryModule := {
  config : option TelemetryConfig;
  loggerSet : bool;                          (* the logger is made by [Start] *)
  counters : gmap string string;             (* name of the metric, full name in the registry *)
  gauges : gmap string string;
  gaugeVectors : gmap string string;
  emitted : list (string * string * list string);
  registry : Registry;
}.

Section ops.
Context `{Prometheus}.
Abbreviation TM := (M PrometheusTelemetryModule string).

Definition with_counters (c : gmap string string) (r : Registry) (m : PrometheusTelemetryModule) : PrometheusTelemetryModule :=
  {| config := config m; loggerSet := loggerSet m; counters := c; gauges := gauges m; gaugeVectors := gaugeVectors m; emitted := emitted m; registry := r |}.
Definition with_gauges (g : gmap string string) (r : Registry) (m : PrometheusTelemetryModule) : PrometheusTelemetryModule :=
  {| config := config m; loggerSet := loggerSet m; counters := counters m; gauges := g; gaugeVectors := gaugeVectors m; emitted := emitted m; registry := r |}.
Definition with_vectors (g : gmap string string) (r : Registry) (m : PrometheusTelemetryModule) : PrometheusTelemetryModule :=
  {| config := config m; loggerSet := loggerSet m; counters := counters m; gauges := gauges m; gaugeVectors := g; emitted := emitted m; registry := r |}.
Definition with_emitted (l : list (string * string * list string)) (m : PrometheusTelemetryModule) : PrometheusTelemetryModule :=
  {| config := config m; loggerSet := loggerSet m; counters := counters m; gauges := gauges m; gaugeVectors := gaugeVectors m; emitted := l; registry := registry m |}.

Definition Create (cfg : option TelemetryConfig) (r : Registry) : PrometheusTelemetryModule :=
  {| config := cfg; loggerSet := false; counters := ∅; gauges := ∅; gaugeVectors := ∅; emitted := []; registry := r |}.
(** The server runs in the background. *)
Definition Start : TM unit :=
  m ← get;
  match config m with
  | None => panic
  | Some _ => put {| config := config m; loggerSet := true; counters := counters m; gauges := gauges m;
                     gaugeVectors := gaugeVectors m; emitted := emitted m; registry := registry m |}
  end.
Definition GetModuleName : string := "telemetry_prometheus".

(** Logging before [Start] dereferences nil. *)
Definition log : TM unit := m ← get; if loggerSet m then mret tt else panic.
Definition EmitEvent (namespace event : string) (labels : list string) : TM unit :=
  log ;; modify (fun m => with_emitted (emitted m ++ [(namespace, event, labels)])%list m).

(** [promauto.New...]: a name that is registered already panics. *)
Definition register (full : string) (r : Registry) : option Registry :=
  if bool_decide (full ∈ registered r) then None
  else Some {| counterValues := counterValues r; gaugeValues := gaugeValues r; registered := {[full]} ∪ registered r |}.
Definition newCounter (full : string) (r : Registry) : option Registry :=
  r' ← register full r; Some {| counterValues := <[full := 0]> (counterValues r'); gaugeValues := gaugeValues r'; registered := registered r' |}.
Definition newGauge (full : string) (r : Registry) : option Registry :=
  r' ← register full r; Some {| counterValues := counterValues r'; gaugeValues := <[full := ofZ 0]> (gaugeValues r'); registered := registered r' |}.

Definition CounterRegister (name description : string) : TM unit :=
  m ← get;
  match counters m !! name with
  | Some _ => log
  | None =>
      let full := fullName "" "" name in
      match newCounter full (registry m) with
      | None => panic
      | Some r => modify (with_counters (<[name := full]> (counters m)) r)
      end
  end.
Definition CounterIncrement (name : string) : TM unit :=
  m ← get;
  match counters m !! name with
  | None => log
  | Some full => modify (with_counters (counters m)
      {| counterValues := alter (Z.add 1) full (counterValues (registry m)); gaugeValues := gaugeValues (registry m);
         registered := registered (registry m) |})
  end.

Definition GaugeRegister (name description : string) : TM unit :=
  m ← get;
  match gauges m !! name with
  | Some _ => log
  | None =>
      let full := fullName "" "" name in
      match newGauge full (registry m) with
      | None => panic
      | Some r => modify (with_gauges (<[name := full]> (gauges m)) r)
      end
  end.

(** The gauge that is returned is the one of the registry. *)
Definition updateGauge (name action : string) (f : float64 -> float64) : TM string :=
  m ← get;
  match gauges m !! name with
  | None => fail (NonExistentMetricErr "gauge" name action)
  | Some full =>
      modify (with_gauges (gauges m)
        {| counterValues := counterValues (registry m); gaugeValues := alter f full (gaugeValues (registry m));
           registered := registered (registry m) |}) ;;
      mret full
  end.
Definition GaugeSet (name : string) (value : float64) : TM string := updateGauge name "set" (fun _ => value).
Definition GaugeIncrement (name : string) : TM string := updateGauge name "increment" (fun x => fadd x (ofZ 1)).
Definition GaugeDecrement (name : string) : TM string := updateGauge name "decrement" (fun x => fadd x (ofZ (-1))).
Definition GaugeAdd (name : string) (value : float64) : TM string := updateGauge name "add to" (fun x => fadd x value).
Definition GaugeSub (name : string) (value : float64) : TM string := updateGauge name "subtract from" (fun x => fadd x (fmul value (ofZ (-1)))).

(** The check is made on the counters. *)
Definition GaugeVecRegister (namespace module name description : string) (labels : list string) : TM unit :=
  m ← get;
  match counters m !! name with
  | Some _ => log
  | None =>
      let full := fullName namespace module name in
      match register full (registry m) with
      | None => panic
      | Some r => modify (with_vectors (<[name := full]> (gaugeVectors m)) r)
      end
  end.
(** The vector and an error if it exists, nothing and no error if it does not. *)
Definition GetGaugeVec (name : string) (m : PrometheusTelemetryModule) : option string * option string :=
  match gaugeVectors m !! name with
  | Some gv => (Some gv, Some (NonExistentMetricErr "gauge vector" name "get"))
  | None => (None, None)
  end.
End ops.
End Prometheus.

(** ** The module that does nothing *)
Module Noop.
Definition GetModuleName : string := "telemetry_noOP".
(** The metric and the error are nil. *)
Abbreviation Nothing := (option string * option string)%type.
Definition GaugeSet (name : string) (value : float64) : Nothing := (None, None).
Definition GaugeIncrement (name : string) : Nothing := (None, None).
Definition GaugeDecrement (name : string) : Nothing := (None, None).
Definition GaugeAdd (name : string) (value : float64) : Nothing := (None, None).
Definition GaugeSub (name : string) (value : float64) : Nothing := (None, None).
Definition GetGaugeVec (name : string) : Nothing := (None, None).
(** Without a bus the process ends. *)
Definition GetBus (hasBus : bool) : res string unit := if hasBus then Ok tt else Panic.
End Noop.

(** ** The choice between them (module.go) *)
Inductive TelemetryModule := PrometheusTelemetry (m : Prometheus.PrometheusTelemetryModule) | NoopTelemetry.
Definition Create (cfg : Configs.Config) (r : Registry) : res string TelemetryModule :=
  match Configs.Telemetry cfg with
  | None => Panic
  | Some t => if Configs.tel_Enabled t then Ok (PrometheusTelemetry (Prometheus.Create (Some t) r)) else Ok NoopTelemetry
  end.

(** ** The logger *)
Module LoggerLevel.
Inductive ZeroLevel := DebugLevel | InfoLevel | WarnLevel | ErrorLevel | FatalLevel | PanicLevel | NoLevel.
Definition pocketLogLevelToZeroLog (level : Z) : ZeroLevel :=
  if bool_decide (level = 1) then DebugLevel else if bool_decide (level = 2) then InfoLevel
  else if bool_decide (level = 3) then WarnLevel else if bool_decide (level = 4) then ErrorLevel
  else if bool_decide (level = 5) then FatalLevel else if bool_decide (level = 6) then PanicLevel
  else if bool_decide (level = 0) then NoLevel else DebugLevel.
Definition LogLevel_value (name : string) : option Z :=
  if bool_decide (name = "LOG_LEVEL_UNSPECIFIED") then Some 0 else if bool_decide (name = "LOG_LEVEL_DEBUG") then Some 1
  else if bool_decide (name = "LOG_LEVEL_INFO") then Some 2 else if bool_decide (name = "LOG_LEVEL_WARN") then Some 3
  else if bool_decide (name = "LOG_LEVEL_ERROR") then Some 4 else if bool_decide (name = "LOG_LEVEL_FATAL") then Some 5
  else if bool_decide (name = "LOG_LEVEL_PANIC") then Some 6 else None.
Definition pocketLogFormatToEnum (format : string) : Z :=
  if bool_decide (format = "json") then 1 else if bool_decide (format = "pretty") then 2 else 0.

(** [strings.ToUpper] on ASCII. *)
Definition toUpperAscii (c : Ascii.ascii) : Ascii.ascii :=
  let n := Ascii.nat_of_ascii c in if ((97 <=? n) && (n <=? 122))%nat then Ascii.ascii_of_nat (n - 32) else c.
Fixpoint stringsToUpper (s : string) : string :=
  match s with EmptyString => EmptyString | String c s' => String (toUpperAscii c) (stringsToUpper s') end.

(** The level and whether the format is the pretty one. *)
Definition Create (cfg : Configs.LoggerConfig) : ZeroLevel * bool :=
  (match LogLevel_value ("LOG_LEVEL_" +:+ stringsToUpper (Configs.Level cfg)) with
   | Some pocketLogLevel => pocketLogLevelToZeroLog pocketLogLevel
   | None => NoLevel
   end, bool_decide (pocketLogFormatToEnum (Configs.Format cfg) = 2)).
End LoggerLevel.

(** ** Facts *)
Module TelemetryFacts.
Import Prometheus.

Section facts.
Context `{Prometheus}.

(** The abstract counters: a registered counter starts at 0 and is registered once. *)
Inductive CounterOp := OpRegister (name description : string) | OpIncrement (name : string).
Definition runOp (op : CounterOp) : M PrometheusTelemetryModule string unit :=
  match op with OpRegister name description => CounterRegister name description | OpIncrement name => CounterIncrement name end.
Definition specOp (op : CounterOp) (c : gmap string Z) : gmap string Z :=
  match op with
  | OpRegister name _ => match c !! name with Some _ => c | None => <[name := 0]> c end
  | OpIncrement name => alter (Z.add 1) name c
  end.

(** The module stands for abstract counters: the metric of a counter is its name in the
    registry, with its value, and no other names are registered. *)
Definition standsFor (m : PrometheusTelemetryModule) (c : gmap string Z) : Prop :=
  loggerSet m = true /\ (forall name, counters m !! name = (fun _ => fullName "" "" name) <$> c !! name) /\
  (forall name v, c !! name = Some v -> counterValues (registry m) !! fullName "" "" name = Some v) /\
  (forall full, full ∈ registered (registry m) -> exists name, is_Some (c !! name) /\ full = fullName "" "" name).

Lemma counter_step (Hinj : forall n1 n2, fullName "" "" n1 = fullName "" "" n2 -> n1 = n2) op m c :
  standsFor m c -> exists m', runOp op m = (Ok tt, m') /\ standsFor m' (specOp op c).
Proof.
  intros (Hl & Hc & Hv & Hr). destruct op as [name description|name]; cbn [runOp specOp].
  - unfold CounterRegister. rewrite bind_get, Hc. destruct (c !! name) as [v|] eqn:Hn; cbn.
    + exists m. unfold log. by rewrite bind_get, Hl.
    + unfold newCounter, register. rewrite bool_decide_eq_false_2.
      2: { intros (n' & [v' Hn'] & Hf)%Hr. apply Hinj in Hf as ->. congruence. }
      cbn. eexists. split; [done|]. split_and!; [done|..]; cbn.
      * intros n. destruct (decide (n = name)) as [->|Hne]; [by rewrite !lookup_insert_eq|]. rewrite !lookup_insert_ne by done. apply Hc.
      * intros n v. destruct (decide (n = name)) as [->|Hne]; [by rewrite !lookup_insert_eq|].
        rewrite (lookup_insert_ne c) by done. rewrite lookup_insert_ne; [apply Hv|]. intros Heq. by apply Hinj in Heq.
      * intros full [->%elem_of_singleton|Hin]%elem_of_union; [exists name; by rewrite lookup_insert_eq|].
        destruct (Hr full Hin) as (n & [v Hn'] & ->). exists n. split; [|done].
        destruct (decide (n = name)) as [->|Hne]; [by rewrite lookup_insert_eq|]. rewrite lookup_insert_ne by done. by exists v.
  - unfold CounterIncrement. rewrite bind_get, Hc. destruct (c !! name) as [v|] eqn:Hn; cbn.
    + eexists. split; [done|]. split_and!; [done|..]; cbn.
      * intros n. rewrite Hc. destruct (decide (n = name)) as [->|Hne]; [by rewrite lookup_alter_eq, Hn|by rewrite lookup_alter_ne].
      * intros n w. destruct (decide (n = name)) as [->|Hne].
        { rewrite lookup_alter_eq, Hn. intros [= <-]. rewrite lookup_alter_eq. by erewrite Hv. }
        rewrite lookup_alter_ne by done. rewrite lookup_alter_ne; [apply Hv|]. intros Heq. by apply Hinj in Heq.
      * intros full Hin. destruct (Hr full Hin) as (n & Hsome & ->). exists n. split; [|done].
        destruct (decide (n = name)) as [->|Hne]; [rewrite lookup_alter_eq, Hn; by eexists|by rewrite lookup_alter_ne].
    + exists m. unfold log. rewrite bind_get, Hl. split; [done|].
      assert (alter (Z.add 1) name c = c) as ->; [|done]. apply map_eq. intros n.
      destruct (decide (n = name)) as [->|Hne]; [by rewrite lookup_alter_eq, Hn|by rewrite lookup_alter_ne].
Qed.

(** The counters count.  Whatever counters are registered, however often, and incremented: no
    operation fails and every counter has the value that counting gives. *)
Theorem counters_refine (Hinj : forall n1 n2, fullName "" "" n1 = fullName "" "" n2 -> n1 = n2) ops m :
  standsFor m ∅ -> exists m', forM ops runOp m = (Ok tt, m') /\ standsFor m' (foldl (fun c op => specOp op c) ∅ ops).
Proof.
  generalize (∅ : gmap string Z) as c. revert m. induction ops as [|op ops IH]; intros m c Hs; [by exists m|].
  destruct (counter_step Hinj op m c Hs) as (m1 & Hr & Hs1). destruct (IH m1 _ Hs1) as (m2 & Hr2 & Hs2).
  exists m2. cbn [forM foldl]. by rewrite bind_eq, Hr.
Qed.

(** Registering a gauge vector a second time ends the process: the check looks for a counter. *)
Lemma gauge_vector_twice_panics namespace module name d1 d2 labels m :
  counters m !! name = None -> fullName namespace module name ∉ registered (registry m) ->
  ((GaugeVecRegister namespace module name d1 labels ;; GaugeVecRegister namespace module name d2 labels) m).1 = Panic.
Proof.
  intros Hc Hr. unfold GaugeVecRegister. rewrite bind_eq, bind_get, Hc. unfold register at 1. rewrite bool_decide_eq_false_2 by done. cbn.
  rewrite bind_get. cbn. rewrite Hc. unfold register. rewrite bool_decide_eq_true_2; [done|]. cbn. set_solver.
Qed.

(** [GetGaugeVec] reports an error exactly for the vectors that exist. *)
Lemma gauge_vector_error_inverted name m : is_Some (GetGaugeVec name m).2 <-> is_Some (gaugeVectors m !! name).
Proof. unfold GetGaugeVec. by destruct (gaugeVectors m !! name); cbn; split; intros []. Qed.

(** A gauge that is not registered is an error here, and none in the module that does nothing. *)
Lemma unknown_gauge name value m : gauges m !! name = None ->
  GaugeSet name value m = (Err (NonExistentMetricErr "gauge" name "set"), m) /\ (Noop.GaugeSet name value).2 = None.
Proof. intros Hn. unfold GaugeSet, updateGauge. by rewrite bind_get, Hn. Qed.

(** Before [Start] the module has no logger, and emitting an event ends the process. *)
Lemma emit_before_start_panics cfg r namespace event labels : (EmitEvent namespace event labels (Create cfg r)).1 = Panic.
Proof. done. Qed.
End facts.
End TelemetryFacts.
