(* ===== verification/Database.v ===== *)
(** Connecting to the database and making its tables (src/persistence/db.go).

    The driver pgx is a parameter: parsing a connection string, opening a pool, taking a
    connection and executing a statement, on the state of the server.  [time.ParseDuration], of
    the standard library, is written out.  The driver reports the errors of the server as values
    of its own type [PgError]; db.go asks [errors.As] for the type of the same name in the
    package of an older version of the driver. *)

From S2P Require Import Prelude GoStd GoFloat Errors Crypto CoreTypes Gov Messages Sql Persistence UnitOfWork SqlText FifoSet TxMempool Keys Bus RuntimeConfig.
From Stdlib Require Import Ascii SpecFloat.
#[local] Open Scope string_scope.
#[local] Open Scope list_scope.
#[local] Open Scope Z_scope.

(** ** time.ParseDuration *)
Module GoTime.
Import F64.
Definition dquote : string := String (ascii_of_nat 34) EmptyString.
(** Characters that would be escaped are left as they are. *)
Definition timeQuote (s : string) : string := dquote +:+ s +:+ dquote.
Definition digitOf (c : ascii) : option Z :=
  let n := Z.of_nat (nat_of_ascii c) in if (48 <=? n) && (n <=? 57) then Some (n - 48) else None.

(** The leading digits; [None] on overflow. *)
Fixpoint leadingInt (s : string) (x : Z) : option (Z * string) :=
  match s with
  | EmptyString => Some (x, s)
  | String c s' =>
      match digitOf c with
      | None => Some (x, s)
      | Some d =>
          if 2 ^ 63 / 10 <? x then None else
          let x' := x * 10 + d in
          if 2 ^ 63 <? x' then None else leadingInt s' x'
      end
  end.
(** The digits of a fraction; those that do not fit are dropped. *)
Fixpoint leadingFraction (s : string) (x : Z) (scale : float64) (overflow : bool) : Z * float64 * string :=
  match s with
  | EmptyString => (x, scale, s)
  | String c s' =>
      match digitOf c with
      | None => (x, scale, s)
      | Some d =>
          if overflow then leadingFraction s' x scale true
          else if (2 ^ 63 - 1) / 10 <? x then leadingFraction s' x scale true
          else let y := x * 10 + d in
               if 2 ^ 63 <? y then leadingFraction s' x scale true
               else leadingFraction s' y (fmul scale (ofZ 10)) false
      end
  end.
Fixpoint leadingUnit (s : string) : string * string :=
  match s with
  | EmptyString => (EmptyString, s)
  | String c s' =>
      if bool_decide (c = "."%char) || bool_decide (is_Some (digitOf c)) then (EmptyString, s)
      else let '(u, rest) := leadingUnit s' in (String c u, rest)
  end.
Definition micro1 : string := String (ascii_of_nat 194) (String (ascii_of_nat 181) "s").
Definition micro2 : string := String (ascii_of_nat 206) (String (ascii_of_nat 188) "s").
Definition unitMap (u : string) : option Z :=
  if bool_decide (u = "ns") then Some 1
  else if bool_decide (u = "us") || bool_decide (u = micro1) || bool_decide (u = micro2) then Some 1000
  else if bool_decide (u = "ms") then Some 1000000
  else if bool_decide (u = "s") then Some 1000000000
  else if bool_decide (u = "m") then Some 60000000000
  else if bool_decide (u = "h") then Some 3600000000000
  else None.

(** A fraction of a unit is below the unit, so the conversion to [uint64] is exact. *)
Definition truncated (x : float64) : Z := match x with S754_finite false m e => truncPos m e | _ => 0 end.

Section parse.
Context (orig : string).
Definition invalid : res string Z := Err ("time: invalid duration " +:+ timeQuote orig).

(** Every round takes at least one character. *)
Fixpoint durationLoop (fuel : nat) (s : string) (d : Z) : res string Z :=
  match s, fuel with
  | EmptyString, _ => Ok d
  | _, O => invalid
  | String c _, S fuel' =>
      if negb (bool_decide (c = "."%char) || bool_decide (is_Some (digitOf c))) then invalid else
      match leadingInt s 0 with
      | None => invalid
      | Some (v, s1) =>
          let pre := negb (String.length s1 =? String.length s)%nat in
          let '(f, scale, s2, post) :=
            match s1 with
            | String "."%char r => let '(f, scale, s2) := leadingFraction r 0 (ofZ 1) false in
                (f, scale, s2, negb (String.length s2 =? String.length r)%nat)
            | _ => (0, ofZ 1, s1, false)
            end in
          if negb pre && negb post then invalid else
          let '(u, s3) := leadingUnit s2 in
          if bool_decide (u = EmptyString) then Err ("time: missing unit in duration " +:+ timeQuote orig) else
          match unitMap u with
          | None => Err ("time: unknown unit " +:+ timeQuote u +:+ " in duration " +:+ timeQuote orig)
          | Some unit =>
              if 2 ^ 63 / unit <? v then invalid else
              let v := v * unit in
              let v := if 0 <? f then u64 (v + truncated (fmul (ofZ f) (fdiv (ofZ unit) scale))) else v in
              if (0 <? f) && (2 ^ 63 <? v) then invalid else
              let d := u64 (d + v) in
              if 2 ^ 63 <? d then invalid else durationLoop fuel' s3 d
          end
      end
  end.
Definition ParseDuration : res string Z :=
  let '(neg, s) := match orig with
                   | String "-"%char r => (true, r)
                   | String "+"%char r => (false, r)
                   | _ => (false, orig)
                   end in
  if bool_decide (s = "0") then Ok 0
  else if bool_decide (s = EmptyString) then invalid
  else match durationLoop (String.length s) s 0 with
       | Ok d => if (neg : bool) then Ok (- d) else if 2 ^ 63 - 1 <? d then invalid else Ok d
       | e => e
       end.
End parse.
Example parse_hour : ParseDuration "1h30m" = Ok 5400000000000.
Proof. vm_compute. reflexivity. Qed.
Example parse_fraction : ParseDuration "-1.5s" = Ok (-1500000000).
Proof. vm_compute. reflexivity. Qed.
End GoTime.

(** ** The driver *)
Inductive ExecError := PgErrorV5 (code text : string) | OtherExecError (text : string).
Definition execErrorText (e : ExecError) : string := match e with PgErrorV5 _ text | OtherExecError text => text end.

(** [Server] is the state of the database server with its open connections. *)
Class Pgx := {
  Server : Type;
  PoolConfig : Type;
  Pool : Type;
  Conn : Type;
  pgxParseConfig : string -> PoolConfig + string;
  (** the limits of the pool: connections, lifetimes, and the time-out of a connection *)
  pgxWithLimits : Z -> Z -> Z -> Z -> Z -> Z -> PoolConfig -> PoolConfig;
  pgxNewWithConfig : PoolConfig -> M Server string Pool;
  pgxAcquire : Pool -> M Server string Conn;
  pgxRelease : Conn -> Server -> Server;
  pgxExec : Conn -> string -> M Server ExecError unit;
}.

Module Db.
Import Configs GoTime SqlText ActorSchema.

Definition CreateSchema := "CREATE SCHEMA".
Definition SetSearchPathTo := "SET search_path TO".
Definition CreateTable := "CREATE TABLE".
Definition IfNotExists := "IF NOT EXISTS".
Definition CreateEnumType (name : string) := "CREATE TYPE " +:+ name +:+ " AS ENUM".
Definition DuplicateObjectErrorCode := "42710".
Definition connTimeout : Z := 5 * 1000000000.
Definition protocolActorSchemas : list ProtocolActorSchema := [ApplicationActor; FishermanActor; ServicerActor; ValidatorActor].

(** [errors.As(err, &pgErr)] for the [PgError] of github.com/jackc/pgconn: the errors of the
    driver are of another type, so it is never found. *)
Definition asPgError (e : ExecError) : option string := match e with PgErrorV5 _ _ | OtherExecError _ => None end.

Section db.
Context `{Pgx}.

(** A nil configuration has the zero values. *)
Definition initializePool (cfg : option PersistenceConfig) : M Server string Pool :=
  let field {A} (f : PersistenceConfig -> A) (zero : A) : A := from_option f zero cfg in
  match pgxParseConfig (field PostgresUrl "") with
  | inr e => fail ("unable to create database config: " +:+ e)
  | inl config =>
      maxConnLifetime ← wrap_err (fun e => "unable to set max connection lifetime: " +:+ e) (of_res (ParseDuration (field MaxConnLifetime "")));
      maxConnIdleTime ← wrap_err (fun e => "unable to set max connection idle time : " +:+ e) (of_res (ParseDuration (field MaxConnIdleTime "")));
      healthCheckPeriod ← wrap_err (fun e => "unable to set healthcheck period: " +:+ e) (of_res (ParseDuration (field HealthCheckPeriod "")));
      wrap_err (fun e => "unable to connect to database: " +:+ e)
        (pgxNewWithConfig (pgxWithLimits (field MaxConnsCount 0) (field MinConnsCount 0) maxConnLifetime maxConnIdleTime healthCheckPeriod connTimeout config))
  end.

Definition exec (conn : Conn) (sql : string) : M Server string unit := wrap_err execErrorText (pgxExec conn sql).

(** The schema is made twice; a connection is not given back when a statement fails. *)
Definition connectToPool (pool : Pool) (nodeSchema : string) : M Server string Conn :=
  conn ← wrap_err (fun e => "unable to acquire connection from pool: " +:+ e) (pgxAcquire pool);
  exec conn (CreateSchema +:+ " " +:+ IfNotExists +:+ " " +:+ nodeSchema) ;;
  exec conn (CreateSchema +:+ " " +:+ IfNotExists +:+ " " +:+ nodeSchema) ;;
  exec conn (SetSearchPathTo +:+ " " +:+ nodeSchema) ;;
  mret conn.

Definition createTable (name : string) (schema : SQL) : string := CreateTable +:+ " " +:+ IfNotExists +:+ " " +:+ name +:+ " " +:+ render schema.
Definition initializeProtocolActorTables (conn : Conn) (actor : ProtocolActorSchema) : M Server string unit :=
  exec conn (createTable (GetTableName actor) (GetTableSchema actor)) ;;
  if bool_decide (GetChainsTableName actor ≠ "") then
    chainsSchema ← of_res (GetChainsTableSchema actor);
    exec conn (createTable (GetChainsTableName actor) chainsSchema)
  else mret tt.
Definition initializeAccountTables (conn : Conn) : M Server string unit :=
  exec conn (createTable (AccountText.tableName AccountS) (AccountText.GetTableSchema AccountS)) ;;
  exec conn (createTable (AccountText.tableName PoolS) (AccountText.GetTableSchema PoolS)).
Definition enumStatement : string := CreateEnumType ValTypeName +:+ " " +:+ render ValTypeEnumTypes.
Definition createEnum (conn : Conn) : M Server string unit := fun s =>
  match pgxExec conn enumStatement s with
  | (Err e, s') =>
      match asPgError e with
      | Some code => if bool_decide (code ≠ DuplicateObjectErrorCode) then (Err (execErrorText e), s') else (Ok tt, s')
      | None => (Ok tt, s')
      end
  | (Ok _, s') => (Ok tt, s')
  | (Panic, s') => (Panic, s')
  end.
Definition initializeGovTables (conn : Conn) : M Server string unit :=
  createEnum conn ;;
  exec conn (createTable ParamsTableName ParamsTableSchema) ;;
  exec conn (createTable FlagsTableName FlagsTableSchema).
Definition initializeBlockTables (conn : Conn) : M Server string unit := exec conn (createTable BlockTableName BlockTableSchema).

Definition initializeAllTables (conn : Conn) : M Server string unit :=
  initializeAccountTables conn ;;
  initializeGovTables conn ;;
  initializeBlockTables conn ;;
  forM protocolActorSchemas (initializeProtocolActorTables conn).
Definition initializeDatabase (conn : Conn) : M Server string unit :=
  wrap_err (fun e => "unable to initialize tables: " +:+ e) (initializeAllTables conn).
End db.
End Db.

(** ** Facts *)
Module DbFacts.
Import Configs GoTime SqlText ActorSchema Db.
Section facts.
Context `{Pgx}.

(** The statements that make the tables, in order: two tables of balances, the type and the two
    tables of parameters, the blocks, and for every type of actor its table and its chains. *)
Definition tableNames1 : list (string * SQL) :=
  [(AccountText.tableName AccountS, AccountText.GetTableSchema AccountS); (AccountText.tableName PoolS, AccountText.GetTableSchema PoolS)].
Definition tableNames2 : list (string * SQL) :=
  [(ParamsTableName, ParamsTableSchema); (FlagsTableName, FlagsTableSchema); (BlockTableName, BlockTableSchema)] ++
  (protocolActorSchemas ≫= fun a => (GetTableName a, GetTableSchema a) ::
     (if bool_decide (GetChainsTableName a = "") then [] else [(GetChainsTableName a, protocolActorChainsTableSchema (chainsHeightConstraintName a))])).
Definition makeTables (conn : Conn) (l : list (string * SQL)) : M Server string unit := forM l (fun t => exec conn (createTable t.1 t.2)).

(** The tables that are made are those of the model of the database, each once, none missing. *)
Lemma tables_made : (tableNames1 ++ tableNames2).*1 =
  ["account"; "pool"; "params"; "flags"; "block"; "app"; "app_chains"; "fisherman"; "fisherman_chains"; "servicer"; "servicer_chains"; "validator"] /\
  NoDup (tableNames1 ++ tableNames2).*1.
Proof. split; [vm_compute; reflexivity|]. apply (bool_decide_unpack _). vm_compute. done. Qed.

(** Sequences of steps, run from a state. *)
Lemma bind_assoc_run {St E A B C} (m : M St E A) (f : A -> M St E B) (g : B -> M St E C) s :
  ((m ≫= f) ≫= g) s = (m ≫= (fun a => f a ≫= g)) s.
Proof. unfold mbind, M_bind. by destruct (m s) as [[?|?|] ?]. Qed.
Lemma bind_ret_run {St E A B} (a : A) (k : A -> M St E B) s : (mret a ≫= k) s = k a s.
Proof. done. Qed.
Lemma bind_ext_run {St E A B} (m : M St E A) (k k' : A -> M St E B) s : (forall a s', k a s' = k' a s') -> (m ≫= k) s = (m ≫= k') s.
Proof. intros Hk. unfold mbind, M_bind. destruct (m s) as [[?|?|] ?]; [apply Hk|done..]. Qed.
Lemma forM_app_run {St E A} (l1 l2 : list A) (f : A -> M St E unit) s : forM (l1 ++ l2) f s = (forM l1 f ;; forM l2 f) s.
Proof.
  revert s. induction l1 as [|x l1 IH]; intros s; [done|]. cbn [forM app]. rewrite bind_assoc_run. apply bind_ext_run. intros _ s'. apply IH.
Qed.
Lemma forM_flat_run {St E A B} (l : list A) (g : A -> list B) (f : B -> M St E unit) s : forM (l ≫= g) f s = forM l (fun a => forM (g a) f) s.
Proof.
  revert s. induction l as [|x l IH]; intros s; [done|]. cbn [forM mbind list_bind]. rewrite forM_app_run. apply bind_ext_run. intros _ s'. apply IH.
Qed.
Lemma forM_ext_run {St E A} (l : list A) (f f' : A -> M St E unit) s : (forall x s', x ∈ l -> f x s' = f' x s') -> forM l f s = forM l f' s.
Proof.
  revert s. induction l as [|x l IH]; intros s Hf; [done|]. cbn [forM]. unfold mbind, M_bind. rewrite Hf by by left.
  destruct (f' x s) as [[?|?|] ?]; [|done..]. apply IH. intros. apply Hf. by right.
Qed.

(** Making the tables is executing their statements in order, up to the first that fails. *)
Lemma initialize_makes_tables (conn : Conn) s :
  initializeAllTables conn s = (makeTables conn tableNames1 ;; createEnum conn ;; makeTables conn tableNames2) s.
Proof.
  unfold initializeAllTables, initializeAccountTables, initializeGovTables, initializeBlockTables, makeTables, tableNames2.
  assert (forall a, a ∈ protocolActorSchemas -> forall s0, initializeProtocolActorTables conn a s0 =
    forM ((GetTableName a, GetTableSchema a) :: (if bool_decide (GetChainsTableName a = "") then [] else [(GetChainsTableName a, protocolActorChainsTableSchema (chainsHeightConstraintName a))]))
      (fun t => exec conn (createTable t.1 t.2)) s0) as Hactor.
  { intros a Ha s0. unfold initializeProtocolActorTables. unfold protocolActorSchemas in Ha. rewrite !elem_of_cons, elem_of_nil in Ha.
    destruct Ha as [->|[->|[->|[->|[]]]]]; cbn [forM]; rewrite !bind_eq; destruct (exec conn _ s0) as [[[]|?|] ?]; try done;
      rewrite bool_decide_eq_true_2, bool_decide_eq_false_2 by done; cbn [forM];
      match goal with |- _ = (?f ≫= _) ?s1 => transitivity (f s1); [reflexivity|]; rewrite bind_eq; by destruct (f s1) as [[[]|?|] ?] end. }
  rewrite bind_assoc_run. cbn [forM tableNames1]. rewrite !bind_assoc_run. apply bind_ext_run. intros _ s1. rewrite !bind_assoc_run. apply bind_ext_run. intros _ s2.
  rewrite bind_ret_run, !bind_assoc_run. apply bind_ext_run. intros _ s3. rewrite forM_app_run. cbn [forM]. rewrite !bind_assoc_run.
  apply bind_ext_run. intros _ s4. rewrite !bind_assoc_run. apply bind_ext_run. intros _ s5. rewrite !bind_assoc_run. apply bind_ext_run. intros _ s6.
  rewrite bind_ret_run, forM_flat_run. apply forM_ext_run. intros a s7 Ha. by apply Hactor.
Qed.

(** An error in making the type of parameter values, whatever it is, is ignored: the tables are
    made as if the statement had succeeded. *)
Theorem enum_error_ignored (conn : Conn) s r s' :
  pgxExec conn enumStatement s = (r, s') -> r ≠ Panic -> createEnum conn s = (Ok tt, s').
Proof. unfold createEnum. intros -> Hr. destruct r as [[]|e|]; [done|by destruct e|done]. Qed.
End facts.

(** The default configuration cannot be used: it has no durations, and the empty text is none. *)
Theorem default_pool_fails `{Pgx} root keys s :
  exists e, initializePool (Persistence (defaultConfig root keys)) s = (Err e, s).
Proof.
  unfold initializePool. cbn [from_option Persistence defaultConfig]. destruct (pgxParseConfig _); [|by eexists].
  eexists. erewrite bind_run_err; [reflexivity|]. unfold wrap_err, of_res. cbn [MaxConnLifetime]. reflexivity.
Qed.
End DbFacts.
