(* ===== verification/RainTree.v ===== *)
(** The RainTree router (src/p2p/raintree/{peers_manager,peerstore_utils,target,router}.go).

    A node sees its peers in a list that starts with itself.  A message of level [l] goes to
    the peers at one third and at two thirds of a prefix of that list, whose length shrinks by
    two thirds per level, and both the sender and the receivers go on at level [l - 1].  The
    numbers of levels, the prefix and the targets are computed in float64 and follow the code
    operation by operation (GoFloat).  What a router writes to its host is recorded in the
    state of the host (Libp2p).  Telemetry and logging are left out. *)

From S2P Require Import Prelude GoStd GoSort GoFloat Errors Crypto CoreTypes Peers Libp2p.
#[local] Open Scope Z_scope.

Module RainTree.
Import Pstore PeersView PeerManager F64.

(** ** Constants (peerstore_utils.go) *)
Definition firstMsgTargetPercentage : float64 := fdiv (ofZ 1) (ofZ 3).
Definition secondMsgTargetPercentage : float64 := fdiv (ofZ 2) (ofZ 3).
Definition shrinkagePercentage : float64 := fdiv (ofZ 2) (ofZ 3).
Definition maxLevelsLogBase : float64 := ofZ 3.
Definition floatPrecision : float64 := lit 7555786372591432 (-76).

(** ** The peers manager (peers_manager.go) *)
Record rainTreePeersManager := { sortedPM : SortedPeerManager; maxNumLevels : Z }.

Definition round (value precision : float64) : float64 := fmul (Round (fdiv value precision)) precision.
Definition logBase (x : float64) : float64 := round (fdiv (Log x) (Log maxLevelsLogBase)) floatPrecision.

Record target := {
  address : bytes;          (* empty when it is not set *)
  serviceURL : string;
  level : Z;
  percentage : float64;
  peerstoreSizeAtHeight : Z;
  index : Z;
  isSelf : bool;
}.

(** What a router is given: the height of the node and the staked peers at a height. *)
Class Providers := {
  CurrentHeight : Z;
  GetStakedPeerstoreAtHeight : Z -> res P2PErr PeerAddrMap;
}.

Record rainTreeRouter := { selfAddr : bytes; peersManager : rainTreePeersManager }.

Section router.
Context `{GoMapOrder} `{GoConversion}.

Definition getMaxPeerstoreLevels (ps : PeerAddrMap) : Z := toUint32 (Ceil (logBase (ofZ (Z.of_nat (Size ps))))).

Definition newPeersManager (self : bytes) (ps : PeerAddrMap) (dynamic : bool) : res string rainTreePeersManager :=
  match NewSortedPeerManager self ps dynamic with
  | Ok pm => Ok {| sortedPM := pm; maxNumLevels := getMaxPeerstoreLevels (GetPeerstore pm) |}
  | Err e => Err e
  | Panic => Panic
  end.

Definition updateMaxNumLevels (pm : rainTreePeersManager) : rainTreePeersManager :=
  {| sortedPM := sortedPM pm; maxNumLevels := getMaxPeerstoreLevels (GetPeerstore (sortedPM pm)) |}.

Definition HandleEvent (pm : rainTreePeersManager) (evt : PeerManagerEvent) : option rainTreePeersManager :=
  spm ← PeerManager.HandleEvent (sortedPM pm) evt;
  Some (updateMaxNumLevels {| sortedPM := spm; maxNumLevels := maxNumLevels pm |}).

Definition GetMaxNumLevels (pm : rainTreePeersManager) : Z := maxNumLevels pm.

Definition getPeersViewWithLevels (pm : rainTreePeersManager) : sortedPeersView * Z :=
  (GetPeersView (sortedPM pm), GetMaxNumLevels pm).

(** The bound of the comparison is off by one with respect to the slice that is searched, and
    the index returned is one less than the position. *)
Definition getSelfIndexInPeersView (pm : rainTreePeersManager) : Z * bool :=
  let addrs := GetAddrs (GetPeersView (sortedPM pm)) in
  let self := Address_String (GetSelfAddr (sortedPM pm)) in
  match addrs with
  | [] => (-1, false)
  | first :: rest =>
      if bool_decide (first = self) then (0, true) else
      let i := SearchStrings rest self in
      if (i =? length addrs)%nat then (-1, false) else (Z.of_nat i, true)
  end.

(** ** Targets (peerstore_utils.go) *)
Context `{Providers}.

Definition newPeersManagerWithPeerstoreProvider (self : bytes) (height : Z) : res P2PErr rainTreePeersManager :=
  match GetStakedPeerstoreAtHeight height with
  | Err e => Err e
  | Panic => Panic
  | Ok ps => match newPeersManager self ps false with Ok pm => Ok pm | Err e => Err (ErrText e) | Panic => Panic end
  end.

(** The length of the prefix of the view that a level addresses. *)
Definition shrunkSize (n maxLevels lvl : Z) : Z :=
  let shrinkageCoefficient := PowInt shrinkagePercentage (u32 (maxLevels - lvl)) in
  toInt (fmul (ofZ n) shrinkageCoefficient).

Definition getPeerstoreSize (rtr : rainTreeRouter) (lvl height : Z) : res P2PErr Z :=
  let current := getPeersViewWithLevels (peersManager rtr) in
  let viewAndLevels :=
    if height <? CurrentHeight then
      match newPeersManagerWithPeerstoreProvider (selfAddr rtr) height with
      | Ok peersMgr => Ok (getPeersViewWithLevels peersMgr)
      | _ => Panic                                   (* [logger.Fatal] *)
      end
    else Ok current in
  match viewAndLevels with
  | Ok (peersView, maxLevels) => Ok (shrunkSize (Z.of_nat (length (GetAddrs peersView))) maxLevels lvl)
  | Err e => Err e
  | Panic => Panic
  end.

Definition getTarget (rtr : rainTreeRouter) (targetPercentage : float64) (pstoreSize lvl : Z) : res P2PErr target :=
  let i := toInt (fmul targetPercentage (ofZ pstoreSize)) in
  let peersView := GetPeersView (sortedPM (peersManager rtr)) in
  if i <? 0 then Panic else
  match GetPeers peersView !! Z.to_nat i with
  | None => Panic                                    (* index out of range *)
  | Some peer =>
      let t := {| address := ""; serviceURL := GetServiceURL peer; level := lvl; percentage := targetPercentage;
                  peerstoreSizeAtHeight := pstoreSize; index := i; isSelf := false |} in
      if i =? 0 then
        Ok {| address := ""; serviceURL := GetServiceURL peer; level := lvl; percentage := targetPercentage;
              peerstoreSizeAtHeight := pstoreSize; index := i; isSelf := true |}
      else
        match GetAddrs peersView !! Z.to_nat i with
        | None => Panic
        | Some addrStr =>
            match GetPeerFromString (GetPeerstore (sortedPM (peersManager rtr))) addrStr with
            | Ok (Some p) =>
                Ok {| address := GetAddress p; serviceURL := GetServiceURL peer; level := lvl; percentage := targetPercentage;
                      peerstoreSizeAtHeight := pstoreSize; index := i; isSelf := false |}
            | Ok None => Ok t
            | _ => Panic
            end
        end
  end.

Definition getTargetsAtLevel (rtr : rainTreeRouter) (lvl : Z) : res P2PErr (list target) :=
  let height := CurrentHeight in
  match getPeerstoreSize rtr lvl height with
  | Err e => Err e
  | Panic => Panic
  | Ok pstoreSizeAtHeight =>
      match getTarget rtr firstMsgTargetPercentage pstoreSizeAtHeight lvl with
      | Err e => Err e
      | Panic => Panic
      | Ok firstTarget =>
          match getTarget rtr secondMsgTargetPercentage pstoreSizeAtHeight lvl with
          | Err e => Err e
          | Panic => Panic
          | Ok secondTarget => Ok [firstTarget; secondTarget]
          end
      end
  end.

Definition shouldSendToTarget (t : target) : bool := negb (isSelf t).

(** ** Sending (router.go) *)
Context `{P2PCodec} `{CryptoPrims} `{NetPrims} `{Libp2pPrims}.
Notation HM := (M HostState P2PErr).

(** An error that is logged and dropped. *)
Definition logged {St} (m : M St P2PErr unit) : M St P2PErr unit := fun s =>
  match m s with (Err _, s') => (Ok tt, s') | r => r end.

Definition sendInternal (rtr : rainTreeRouter) (data addr : bytes) : HM unit :=
  if bool_decide (selfAddr rtr = addr) then mret tt else
  match GetPeer (GetPeerstore (sortedPM (peersManager rtr))) addr with
  | None => fail (ErrWrap ("unknown peer: with pokt address " +:+ Address_String addr)%string ErrUnknownPeer)
  | Some peer => Libp2pSendToPeer RaintreeProtocolID data peer
  end.

(** [broadcastAtLevel] calls itself through [demote] at the next lower level; the level is the
    number of remaining calls. *)
Fixpoint broadcastFrom (rtr : rainTreeRouter) (data : slice) (lvl : nat) : HM unit :=
  match lvl with
  | O => mret tt
  | S lower =>
      let msg := {| Level := Z.of_nat lvl; RTData := data |} in
      match marshalRainTree msg with
      | None => fail (ErrText "marshalling")
      | Some msgBz =>
          targets ← of_res (getTargetsAtLevel rtr (Z.of_nat lvl));
          forM targets (fun t => when (shouldSendToTarget t) (logged (sendInternal rtr msgBz (address t)))) ;;
          (* demote *)
          logged (broadcastFrom rtr data lower)
      end
  end.

Definition broadcastAtLevel (rtr : rainTreeRouter) (data : slice) (lvl : Z) : HM unit :=
  broadcastFrom rtr data (Z.to_nat lvl).

Definition demote (rtr : rainTreeRouter) (msg : RainTreeMessage) : HM unit :=
  when (0 <? Level msg) (broadcastAtLevel rtr (RTData msg) (Level msg - 1)).

Definition Broadcast (rtr : rainTreeRouter) (data : slice) : HM unit :=
  broadcastAtLevel rtr data (GetMaxNumLevels (peersManager rtr)).

Definition Send (rtr : rainTreeRouter) (data : slice) (addr : bytes) : HM unit :=
  match marshalRainTree {| Level := 0; RTData := data |} with
  | None => fail (ErrText "marshalling")
  | Some bz => sendInternal rtr bz addr
  end.

Definition validateRainTreeMsg (msg : RainTreeMessage) : bool :=
  match unmarshalEnvelope (bz (RTData msg)) with Some _ => true | None => false end.

(** The handler works on the state of the module that owns the router: [lift] runs what the
    router does to the host there. *)
Definition handleRainTreeMsg {St} (lift : HM unit -> M St P2PErr unit) (handler : bytes -> M St P2PErr unit)
    (rtr : rainTreeRouter) (rainTreeMsgBz : bytes) : M St P2PErr unit :=
  match unmarshalRainTree rainTreeMsgBz with
  | None => fail (ErrText "unmarshalling raintree message")
  | Some msg =>
      if negb (validateRainTreeMsg msg) then fail (ErrWrap "validating raintree message" (ErrText "unmarshalling envelope")) else
      when (0 <? Level msg) (lift (broadcastAtLevel rtr (RTData msg) (Level msg - 1))) ;;
      match RTData msg with
      | None => mret tt
      | Some data => wrap_err (ErrWrap "handling raintree message") (handler data)
      end
  end.

(** ** Peers of the router *)
Definition GetPeerstore (rtr : rainTreeRouter) : PeerAddrMap := PeerManager.GetPeerstore (sortedPM (peersManager rtr)).
Definition RouterSize (rtr : rainTreeRouter) : nat := Size (GetPeerstore rtr).

Definition withManager (rtr : rainTreeRouter) (pm : rainTreePeersManager) : rainTreeRouter :=
  {| selfAddr := selfAddr rtr; peersManager := pm |}.

(** The router and the host change together. *)
Notation RM := (M (rainTreeRouter * HostState) P2PErr).
Definition onHost {A} (m : HM A) : RM A := fun '(r, h) => let '(x, h') := m h in (x, (r, h')).

(** [HandleEvent] of a manager without its goroutine never returns; the router's own manager
    has it. *)
Definition routerEvent (evt : PeerManagerEvent) : RM unit := fun '(r, h) =>
  match HandleEvent (peersManager r) evt with
  | Some pm => (Ok tt, (withManager r pm, h))
  | None => (Panic, (r, h))
  end.

Definition AddPeer (peer : NetworkPeer) : RM unit :=
  rh ← get;
  match GetPeer (GetPeerstore rh.1) (GetAddress peer) with
  | Some _ => mret tt
  | None => onHost (AddPeerToLibp2pHost peer) ;; routerEvent {| EventType := AddPeerEventType; EventPeer := peer |}
  end.

Definition RemovePeer (peer : NetworkPeer) : RM unit :=
  routerEvent {| EventType := RemovePeerEventType; EventPeer := peer |}.

(** ** Creation *)
Definition setupPeerManager (self : bytes) (ps : PeerAddrMap) : res string rainTreeRouter :=
  match newPeersManager self ps true with
  | Ok pm => Ok {| selfAddr := self; peersManager := pm |}
  | Err e => Err e
  | Panic => Panic
  end.

(** [setupDependencies], and [Create] after the check of the configuration: the unicast router
    only registers a stream handler, which is not part of this state. *)
Definition setupDependencies (self : bytes) : HM rainTreeRouter :=
  ps ← of_res (match GetStakedPeerstoreAtHeight CurrentHeight with Err e => Err (ErrWrap "getting staked peerstore" e) | r => r end);
  rtr ← of_res (match setupPeerManager self ps with Ok r => Ok r | Err e => Err (ErrWrap "setting up peer manager" (ErrText e)) | Panic => Panic end);
  PopulateLibp2pHost ps ;;
  mret rtr.

Definition Create (self : bytes) : HM rainTreeRouter :=
  of_res (match GetStakedPeerstoreAtHeight CurrentHeight with Ok _ => Ok tt | Err e => Err (ErrWrap "getting staked peerstore at height" e) | Panic => Panic end) ;;
  setupDependencies self.

Definition Close : HM unit := mret tt.
End router.
End RainTree.
