(* ===== verification/RainTreeFacts.v ===== *)
(** Properties of the RainTree router: the targets are always peers of the view, whatever the
    level; what a broadcast sends; how a broadcast spreads through a network of nodes that
    share one peerstore. *)

From S2P Require Import Prelude GoStd GoSort GoFloat Errors Crypto CoreTypes Peers Libp2p RainTree.
From Stdlib Require Import SpecFloat.
#[local] Open Scope Z_scope.

Module RainTreeFacts.
Import Pstore PeersView PeersFacts PeersViewFacts PeerManager PeerManagerFacts F64 F64Facts RainTree.

(** ** The float64 computations *)
Lemma fmul_comm x y : fmul x y = fmul y x.
Proof. destruct x, y; cbn; try done; by rewrite ?(xorb_comm s), ?(Pos.mul_comm m), ?(Z.add_comm e). Qed.

Lemma ldexp_exponent x k s m e : le1 x -> k <= 0 -> SFldexp 53 1024 x k = S754_finite s m e -> -1074 <= e.
Proof.
  destruct x as [| | |[] m0 e0]; try done. intros [Hm Hle] Hk. cbn [SFldexp].
  destruct (binary_round_align m0 (e0 + k)) as (m2 & d & Hd0 & -> & Hm2 & Hdig & Hd).
  assert (Zpos (digits2_pos m0) + e0 <= 1) as H1 by (destruct Hle as [Hle|[-> ->]]; [lia|by vm_compute]).
  intros Hx. pose proof (fexp64_unfold m2 (e0 + k - d)) as Hf.
  destruct (round_upper m2 (e0 + k - d) (Z.max 2000 (- (e0 + k - d)))) as (_ & _ & He); [lia..|]. by eapply He.
Qed.

Lemma shrinkage_value : shrinkagePercentage = S754_finite false 6004799503160661 (-53).
Proof. by vm_compute. Qed.
Lemma first_value : firstMsgTargetPercentage = S754_finite false 6004799503160661 (-54).
Proof. by vm_compute. Qed.
Lemma second_value : secondMsgTargetPercentage = S754_finite false 6004799503160661 (-53).
Proof. by vm_compute. Qed.

(** The shrinkage coefficient lies between 0 and 1 for every exponent. *)
Lemma coefficient_le1 y : le1 (PowInt shrinkagePercentage y).
Proof. rewrite shrinkage_value. apply PowInt_le1; [done| |by vm_compute]. split; [done|]. left. by vm_compute. Qed.

Lemma coefficient_exponent y s m e : PowInt shrinkagePercentage y = S754_finite s m e -> -1074 <= e.
Proof.
  rewrite shrinkage_value. unfold PowInt. destruct (y =? 0).
  { assert (ofZ 1 = S754_finite false 4503599627370496 (-52)) as -> by (by vm_compute). by intros [= <- <- <-]. }
  destruct (y =? 1); [by intros [= <- <- <-]|].
  destruct (SFfrexp 53 1024 (S754_finite false 6004799503160661 (-53))) as [x1 xe] eqn:Hfr. vm_compute in Hfr. injection Hfr as <- <-.
  match goal with |- context [powLoop 64 y ?x ?e (ofZ 1) 0] => set (x1 := x) end.
  pose proof (powLoop_le1 64 y x1 0 (ofZ 1) 0 ltac:(split; [done|left; by vm_compute]) ltac:(vm_compute; split; [done|by right]) ltac:(lia) ltac:(lia)) as [Ha Hae].
  destruct (powLoop 64 y x1 0 (ofZ 1) 0) as [a1 ae]. by apply ldexp_exponent.
Qed.

Section floats.
Context `{GoConversion}.

Lemma shrunkSize_range n L l : 0 <= n < 2 ^ 51 -> 0 <= shrunkSize n L l <= n.
Proof.
  intros Hn. unfold shrunkSize. rewrite fmul_comm. pose proof (coefficient_le1 (u32 (L - l))) as Hle.
  pose proof (coefficient_exponent (u32 (L - l))) as He. destruct (PowInt _ _) as [[]| | |[] m e]; try done.
  1,2: destruct (decide (n = 0)) as [->|Hn0]; [by vm_compute|]; destruct (ofZ_value n ltac:(lia)) as (mn & en & -> & _); cbn; lia.
  destruct (decide (n = 0)) as [->|Hn0]; [done|]. specialize (He _ _ _ eq_refl).
  enough (0 <= toInt (fmul (S754_finite false m e) (ofZ n)) < n + 1) by lia.
  assert (e <= 0 /\ Zpos m <= 2 ^ (- e)) as [He0 Hm].
  { destruct Hle as [Hm [Hd|[-> ->]]]; [|by vm_compute]. split; [lia|]. pose proof (digits2_pos_bounds m).
    pose proof (Z.pow_le_mono_r 2 (Zpos (digits2_pos m)) (- e)). lia. }
  apply fmul_int; [done|done|lia|lia|]. assert (0 < 2 ^ (- e)) by lia. nia.
Qed.

(** The offset of a target in the view: zero for an empty prefix, inside the prefix otherwise. *)
Lemma target_offset pct s :
  pct = firstMsgTargetPercentage \/ pct = secondMsgTargetPercentage -> 0 <= s < 2 ^ 51 ->
  0 <= toInt (fmul pct (ofZ s)) <= Z.max 0 (s - 1).
Proof.
  intros Hp Hs. destruct (decide (s = 0)) as [->|Hs0]; [by destruct Hp as [->| ->]; vm_compute|].
  enough (0 <= toInt (fmul pct (ofZ s)) < s) by lia.
  destruct Hp as [->| ->]; rewrite ?first_value, ?second_value;
    (apply fmul_int; [split; [done|left; by vm_compute]|lia|lia|lia|]);
    [change (2 ^ (- (-54))) with 18014398509481984|change (2 ^ (- (-53))) with 9007199254740992];
    change (2 ^ 51) with 2251799813685248 in *; lia.
Qed.
End floats.

(** ** A router in order *)
Section routers.
Context `{GoMapOrder} `{GoConversion}.

Definition levelsFor (n : Z) : Z := toUint32 (Ceil (logBase (ofZ n))).
Definition offset (pct : float64) (n l : Z) : Z := toInt (fmul pct (ofZ (shrunkSize n (levelsFor n) l))).
Definition offsets (n l : Z) : list Z := [offset firstMsgTargetPercentage n l; offset secondMsgTargetPercentage n l].

(** The manager is consistent, the node comes first, and the number of levels is that of the
    peerstore. *)
Definition router_wf (rtr : rainTreeRouter) : Prop :=
  let pm := sortedPM (peersManager rtr) in
  pm_wf pm /\ selfFirst pm /\ startAddr pm = selfAddr rtr /\ isDynamic pm = true /\
  maxNumLevels (peersManager rtr) = getMaxPeerstoreLevels (pstore pm).

Definition rsize (rtr : rainTreeRouter) : Z := Z.of_nat (Size (pstore (sortedPM (peersManager rtr)))).

Lemma offsets_range n l i : 1 <= n < 2 ^ 51 -> i ∈ offsets n l -> 0 <= i < n.
Proof.
  intros Hn Hi. pose proof (shrunkSize_range n (levelsFor n) l ltac:(lia)) as Hs.
  assert (exists pct, (pct = firstMsgTargetPercentage \/ pct = secondMsgTargetPercentage) /\ i = offset pct n l) as (pct & Hp & ->).
  { apply elem_of_cons in Hi as [->|Hi]; [eauto|]. apply list_elem_of_singleton in Hi as ->. eauto. }
  unfold offset. set (s := shrunkSize n (levelsFor n) l) in *. assert (0 <= s < 2 ^ 51) as Hs' by lia.
  pose proof (target_offset pct s Hp Hs'). lia.
Qed.

(** A new router over a peerstore that contains the node is in order. *)
Lemma setupPeerManager_wf self ps :
  pstore_wf ps -> is_Some (ps !! Address_String self) ->
  exists rtr, setupPeerManager self ps = Ok rtr /\ router_wf rtr /\ selfAddr rtr = self /\ GetPeerstore rtr = ps.
Proof.
  intros Hwf Hself. destruct (new_manager self ps true Hwf) as (pm & Hnew & Hpm & Hp & Ha & Hd & Hs).
  unfold setupPeerManager, newPeersManager. rewrite Hnew. eexists. split; [done|]. split; [|done].
  split; [done|]. split; [by apply Hs|]. done.
Qed.

Context `{Providers}.

(** The target that an offset denotes: the peer there, marked as the node itself at zero. *)
Definition targetAt (rtr : rainTreeRouter) (i : Z) (t : target) : Prop :=
  index t = i /\ isSelf t = bool_decide (i = 0) /\
  exists p, sortedPeers (view (sortedPM (peersManager rtr))) !! Z.to_nat i = Some p /\
    serviceURL t = GetServiceURL p /\ (i ≠ 0 -> address t = GetAddress p).

Lemma getTarget_at rtr pct s l (i := toInt (fmul pct (ofZ s))) :
  router_wf rtr -> 0 <= i < rsize rtr -> exists t, getTarget rtr pct s l = Ok t /\ targetAt rtr i t.
Proof.
  intros (Hwf & Hself & _) Hi. unfold getTarget. fold i. rewrite (proj2 (Z.ltb_ge _ _)) by lia. cbn [GetPeers GetPeersView].
  pose proof (pm_size _ Hwf) as Hlen. pose proof Hwf as (_ & [_ Hv] & _).
  destruct (sortedPeers (view (sortedPM (peersManager rtr))) !! Z.to_nat i) as [p|] eqn:Hp.
  2:{ apply lookup_ge_None in Hp. rewrite <- Hv, length_fmap in Hlen. unfold rsize in Hi. lia. }
  unfold GetPeers, GetPeersView. rewrite Hp. destruct (Z.eqb_spec i 0) as [He|He].
  { eexists. split; [done|]. split; [done|]. cbn. rewrite bool_decide_eq_true_2 by done. split; [done|]. exists p. by repeat split; intros. }
  unfold GetAddrs. rewrite <- Hv, list_lookup_fmap, Hp. cbn [fmap option_fmap option_map].
  unfold peerKey at 1. rewrite GetPeerFromString_key. fold (peerKey p). unfold PeerManager.GetPeerstore.
  rewrite (pm_lookup _ p Hwf) by (by eapply list_elem_of_lookup_2).
  eexists. split; [done|]. split; [done|]. cbn. rewrite bool_decide_eq_false_2 by done. split; [done|]. by exists p.
Qed.

(** At the current height the targets are those of the offsets: no index is out of range, for
    any level. *)
Lemma getTargets_at rtr l :
  router_wf rtr -> 1 <= rsize rtr < 2 ^ 51 ->
  exists t1 t2, getTargetsAtLevel rtr l = Ok [t1; t2] /\ Forall2 (targetAt rtr) (offsets (rsize rtr) l) [t1; t2].
Proof.
  intros Hwf Hn. pose proof Hwf as (Hpm & _ & _ & _ & Hlev). unfold getTargetsAtLevel, getPeerstoreSize. rewrite Z.ltb_irrefl.
  unfold getPeersViewWithLevels, GetMaxNumLevels, GetAddrs, GetPeersView. rewrite (pm_size _ Hpm), Hlev. fold (rsize rtr).
  change (getMaxPeerstoreLevels _) with (levelsFor (rsize rtr)).
  destruct (getTarget_at rtr firstMsgTargetPercentage (shrunkSize (rsize rtr) (levelsFor (rsize rtr)) l) l) as (t1 & -> & Ht1);
    [done|apply (offsets_range _ l); [done|constructor]|].
  destruct (getTarget_at rtr secondMsgTargetPercentage (shrunkSize (rsize rtr) (levelsFor (rsize rtr)) l) l) as (t2 & -> & Ht2);
    [done|apply (offsets_range _ l); [done|repeat constructor]|].
  exists t1, t2. split; [done|]. constructor; [exact Ht1|]. constructor; [exact Ht2|constructor].
Qed.

(** ** What a broadcast sends *)
Context `{PCL : P2PCodecLaws} `{CryptoPrims} `{NL : NetLaws} `{LP : Libp2pPrims}.

Lemma logged_no_panic {St} (m : M St P2PErr unit) s : (m s).1 ≠ Panic -> exists s', logged m s = (Ok tt, s').
Proof. unfold logged. destruct (m s) as [[[]|e|] s']; cbn; [by exists s'|by exists s'|done]. Qed.

Lemma sendInternal_no_panic rtr data addr h : (sendInternal rtr data addr h).1 ≠ Panic.
Proof. unfold sendInternal. case_bool_decide; [done|]. case_match; [apply sendToPeer_no_panic|done]. Qed.

(** Whatever level a message carries (a remote peer chooses it), the code that forwards it
    finds its targets inside the peer list and does not panic: for a router in order with
    between 1 and 2^51 peers, a broadcast at any level of a uint32 returns without an error. *)
Theorem broadcast_any_level_safe (rtr : rainTreeRouter) (data : slice) (lvl : Z) (h : HostState) :
  router_wf rtr -> 1 <= rsize rtr < 2 ^ 51 -> in_u32 lvl -> exists h', broadcastAtLevel rtr data lvl h = (Ok tt, h').
Proof.
  intros Hwf Hn Hl. unfold broadcastAtLevel. unfold in_u32 in Hl. assert (Z.of_nat (Z.to_nat lvl) < 2 ^ 32) as Hlt by lia.
  revert h Hlt. generalize (Z.to_nat lvl). intros l. induction l as [|l IH]; intros h Hlt; [by exists h|].
  cbn [broadcastFrom]. destruct (rainTree_roundtrip {| Level := Z.of_nat (S l); RTData := data |}) as (b & -> & _); [unfold in_u32; cbn; lia|].
  destruct (getTargets_at rtr (Z.of_nat (S l)) Hwf Hn) as (t1 & t2 & -> & _).
  assert (forall t h, exists h', when (shouldSendToTarget t) (logged (sendInternal rtr b (address t))) h = (Ok tt, h')) as Hsend.
  { intros t h0. unfold when. destruct (shouldSendToTarget t); [|by exists h0]. apply logged_no_panic, sendInternal_no_panic. }
  destruct (Hsend t1 h) as [h1 H1']. destruct (Hsend t2 h1) as [h2 H2']. destruct (IH h2) as [h3 H3']; [lia|].
  exists h3. erewrite bind_run by done. cbn [forM]. erewrite bind_run.
  - unfold logged. by rewrite H3'.
  - erewrite bind_run by exact H1'. by erewrite bind_run by exact H2'.
Qed.

(** The peers of the router can be reached and streams do not fail. *)
Definition reliable (rtr : rainTreeRouter) (idOf : NetworkPeer -> string) : Prop :=
  (forall k p, pstore (sortedPM (peersManager rtr)) !! k = Some p ->
     exists a, Libp2pAddrInfoFromPeer p = Ok {| infoID := idOf p; infoAddrs := a |}) /\
  (forall h id proto, newStreamErr h id proto = None) /\ (forall h id data, writeErr h id data = None) /\
  (forall h id, closeErr h id = None).

(** The bytes of a message of level [l], and the entries that the offsets of the level add to
    the log of the host: one for each peer other than the node itself. *)
Definition encoded (data : slice) (l : Z) : bytes := default "" (marshalRainTree {| Level := l; RTData := data |}).

Definition sendsAtLevel (idOf : NetworkPeer -> string) (rtr : rainTreeRouter) (data : slice) (l : Z) : list (string * string * bytes) :=
  omap (fun i => if bool_decide (i = 0) then None else
    (fun p => (idOf p, RaintreeProtocolID, encoded data l)) <$> (sortedPeers (view (sortedPM (peersManager rtr))) !! Z.to_nat i))
    (offsets (rsize rtr) l).

Fixpoint sendsFrom (idOf : NetworkPeer -> string) (rtr : rainTreeRouter) (data : slice) (l : nat) : list (string * string * bytes) :=
  match l with O => [] | S l' => sendsAtLevel idOf rtr data (Z.of_nat l) ++ sendsFrom idOf rtr data l' end.

Definition logSends (h : HostState) (l : list (string * string * bytes)) : HostState :=
  {| hostID := hostID h; hostAddrs := hostAddrs h; hostKeys := hostKeys h; hostSent := hostSent h ++ l; hostConnected := hostConnected h |}.

(** Past the first place no peer of the view is the node itself. *)
Lemma view_not_self rtr i p :
  router_wf rtr -> sortedPeers (view (sortedPM (peersManager rtr))) !! i = Some p -> i ≠ 0%nat -> selfAddr rtr ≠ GetAddress p.
Proof.
  intros (Hwf & Hself & Ha & _) Hi Hne He. pose proof Hwf as (_ & [[hi [lo [Hrot Hs]]] Hv] & _).
  assert (NoDup (sortedAddrs (view (sortedPM (peersManager rtr))))) as Hnd.
  { rewrite Hrot, Permutation_app_comm. by apply strict_NoDup. }
  apply Hne. eapply (NoDup_lookup _ i 0%nat (peerKey p) Hnd).
  - by rewrite <- Hv, list_lookup_fmap, Hi.
  - unfold selfFirst in Hself. rewrite Ha, He in Hself. rewrite <- head_lookup. done.
Qed.

Lemma send_reliable rtr idOf data p i h :
  router_wf rtr -> reliable rtr idOf -> sortedPeers (view (sortedPM (peersManager rtr))) !! i = Some p -> i ≠ 0%nat ->
  sendInternal rtr data (GetAddress p) h = (Ok tt, logSends h [(idOf p, RaintreeProtocolID, data)]).
Proof.
  intros Hwf (Hinfo & Hnew & Hwrite & Hclose) Hi Hne. pose proof Hwf as (Hpm & _). unfold sendInternal.
  rewrite bool_decide_eq_false_2 by (by eapply view_not_self). unfold GetPeer, PeerManager.GetPeerstore. fold (peerKey p).
  pose proof (pm_lookup _ p Hpm ltac:(by eapply list_elem_of_lookup_2)) as Hl. rewrite Hl.
  destruct (Hinfo _ _ Hl) as [a Ha]. unfold Libp2pSendToPeer. rewrite Ha. unfold mbind, M_bind, of_res, get, modify. cbn.
  by rewrite Hnew, Hwrite, Hclose.
Qed.

Lemma target_sends rtr idOf data i t h :
  router_wf rtr -> reliable rtr idOf -> 0 <= i -> targetAt rtr i t ->
  when (shouldSendToTarget t) (logged (sendInternal rtr data (address t))) h =
  (Ok tt, logSends h (omap (fun i => if bool_decide (i = 0) then None else
    (fun p => (idOf p, RaintreeProtocolID, data)) <$> (sortedPeers (view (sortedPM (peersManager rtr))) !! Z.to_nat i)) [i])).
Proof.
  intros Hwf Hrel Hi (_ & Hself & p & Hp & _ & Haddr). unfold shouldSendToTarget. rewrite Hself. cbn [omap list_omap]. rewrite Hp.
  case_bool_decide as Hi0; cbn.
  - unfold mret, M_ret, logSends. rewrite app_nil_r. by destruct h.
  - rewrite Haddr by done. unfold logged. rewrite (send_reliable rtr idOf data p (Z.to_nat i)); [done|done|done|done|lia].
Qed.

Lemma logSends_app h l1 l2 : logSends (logSends h l1) l2 = logSends h (l1 ++ l2).
Proof. unfold logSends. cbn. by rewrite app_assoc. Qed.

Lemma broadcast_sends rtr idOf data l h :
  router_wf rtr -> 1 <= rsize rtr < 2 ^ 51 -> reliable rtr idOf -> Z.of_nat l < 2 ^ 32 ->
  broadcastFrom rtr data l h = (Ok tt, logSends h (sendsFrom idOf rtr data l)).
Proof.
  intros Hwf Hn Hrel. revert h. induction l as [|l IH]; intros h Hl.
  { cbn. unfold mret, M_ret, logSends. rewrite app_nil_r. by destruct h. }
  cbn [broadcastFrom sendsFrom]. destruct (rainTree_roundtrip {| Level := Z.of_nat (S l); RTData := data |}) as (b & Hb & _); [unfold in_u32; cbn [Level]; lia|].
  rewrite Hb. destruct (getTargets_at rtr (Z.of_nat (S l)) Hwf Hn) as (t1 & t2 & -> & Hts).
  assert (forall i, i ∈ offsets (rsize rtr) (Z.of_nat (S l)) -> 0 <= i) as Hpos by (intros i Hi; apply offsets_range in Hi; lia).
  unfold sendsAtLevel, encoded. rewrite Hb. unfold offsets in Hts, Hpos |- *.
  apply Forall2_cons in Hts as [Ht1 Hts]. apply Forall2_cons in Hts as [Ht2 _].
  pose proof (fun h => target_sends rtr idOf b _ t1 h Hwf Hrel (Hpos _ (list_elem_of_here _ _)) Ht1) as H1'.
  pose proof (fun h => target_sends rtr idOf b _ t2 h Hwf Hrel (Hpos _ (list_elem_of_further _ _ _ (list_elem_of_here _ _))) Ht2) as H2'.
  erewrite bind_run by done. erewrite bind_run.
  2:{ cbn [forM]. erewrite bind_run by apply H1'. by erewrite bind_run by apply H2'. }
  unfold logged. rewrite IH by lia. rewrite !logSends_app, ?app_assoc, <- omap_app. done.
Qed.
End routers.
End RainTreeFacts.
