(* ===== verification/RainTreeNet.v ===== *)
(** How a broadcast spreads through a network.  The nodes stand on a ring (the sorted addresses
    of the common peerstore) and each sends to the nodes at fixed distances from itself.  An
    execution of the network runs [RainTree.Broadcast] on the originator and
    [RainTree.handleRainTreeMsg] on the receiver of each message that is in flight, in any order;
    [spread] is the closed form of what it reaches. *)

From stdpp Require Import sorting.
From S2P Require Import Prelude GoStd GoSort GoFloat Errors Crypto CoreTypes Peers Libp2p RainTree RainTreeFacts.
#[local] Open Scope Z_scope.

Module RainTreeNet.
Import Pstore PeersView PeersFacts PeersViewFacts PeerManager PeerManagerFacts F64 RainTree RainTreeFacts.

(** ** The ring *)
Definition ring (m : PeerAddrMap) : list string := sortStrings (map_to_list m).*1.

Lemma rotated_lookup {A} (hi lo : list A) i :
  (i < length (hi ++ lo))%nat -> (hi ++ lo) !! i = (lo ++ hi) !! ((length lo + i) mod length (hi ++ lo))%nat.
Proof.
  rewrite length_app. intros Hi. destruct (decide (i < length hi)%nat) as [Hlt|Hge].
  - rewrite Nat.mod_small by lia. rewrite lookup_app_l by done. rewrite lookup_app_r by lia. f_equal. lia.
  - replace (length lo + i)%nat with (i - length hi + 1 * (length hi + length lo))%nat by lia.
    rewrite Nat.Div0.mod_add, Nat.mod_small by lia. rewrite lookup_app_r by lia. by rewrite lookup_app_l by lia.
Qed.

(** The view of a node is the ring, read from the position of the node. *)
Lemma view_ring pm :
  pm_wf pm -> selfFirst pm ->
  exists p, (p < Size (pstore pm))%nat /\ ring (pstore pm) !! p = Some (Address_String (startAddr pm)) /\
    forall i, (i < Size (pstore pm))%nat -> sortedAddrs (view pm) !! i = ring (pstore pm) !! ((p + i) mod Size (pstore pm))%nat.
Proof.
  intros Hwf Hself. pose proof (pm_size pm Hwf) as Hlen. pose proof Hwf as (Hps & [Hrot Hv] & Hp).
  assert (sortedAddrs (view pm) ≠ []) as Hne by (intros He; unfold selfFirst in Hself; by rewrite He in Hself).
  destruct (rotated_cons _ Hrot Hne) as (h & hi & lo & He & Hs).
  assert (lo ++ h :: hi = ring (pstore pm)) as Hring.
  { apply (StronglySorted_unique strLe); [by apply strict_sorted|apply (StronglySorted_merge_sort strLe)|].
    unfold ring. rewrite sortStrings_elements, Permutation_app_comm, <- He, <- Hv, Hp, <- list_fmap_compose.
    erewrite list_fmap_ext; [reflexivity|].
    intros i [k q] Hi. cbn. symmetry. apply Hps. apply elem_of_map_to_list. by eapply list_elem_of_lookup_2. }
  rewrite He in Hlen. exists (length lo). rewrite <- Hring, <- Hlen. split; [rewrite length_app; cbn; lia|]. split.
  - unfold selfFirst in Hself. rewrite He in Hself. injection Hself as ->. by apply list_lookup_middle.
  - intros i Hi. rewrite He. by apply rotated_lookup.
Qed.

(** ** Hops and the spread of a message *)
Section spread.
Context (offs : nat -> list Z) (n : Z).

(** Where a node at [p] sends when it broadcasts at level [l], and with which level. *)
Fixpoint hops (p : Z) (l : nat) : list (Z * nat) :=
  match l with
  | O => []
  | S l' => ((fun i => ((p + i) mod n, l)) <$> filter (fun i => i ≠ 0) (offs l)) ++ hops p l'
  end.

(** The receipts that a broadcast at level [l] by the node at [p] causes: each receiver of
    level [lv] broadcasts at [lv - 1].  Levels decrease, so [l] rounds are enough
    ([spread_fuel]). *)
Fixpoint spread (fuel : nat) (p : Z) (l : nat) : list Z :=
  match fuel with
  | O => []
  | S fuel' => concat ((fun h => h.1 :: spread fuel' h.1 (h.2 - 1)) <$> hops p l)
  end.

Lemma hops_levels p l q lv : (q, lv) ∈ hops p l -> (1 <= lv <= l)%nat.
Proof.
  induction l as [|l IH]; cbn [hops]; [set_solver|]. intros [Hin|Hin]%elem_of_app; [|apply IH in Hin; lia].
  apply list_elem_of_fmap in Hin as (i & [= _ ->] & _). lia.
Qed.

Lemma spread_fuel f : forall p l, (l <= f)%nat -> spread f p l = spread l p l.
Proof.
  assert (forall f1 f2 p l, (l <= f1)%nat -> (l <= f2)%nat -> spread f1 p l = spread f2 p l) as Hg; [|intros p l Hl; by apply Hg].
  induction f1 as [|f1 IH]; intros f2 p l H1 H2.
  { destruct l; [|lia]. by destruct f2. }
  destruct f2 as [|f2]; [destruct l; [done|lia]|]. cbn [spread]. f_equal. apply list_fmap_ext.
  intros i [q lv] Hi. apply list_elem_of_lookup_2, hops_levels in Hi. cbn. f_equal. apply IH; lia.
Qed.

Lemma hops_length_bound (f : Z * nat -> nat) p l :
  (forall l, (length (offs l) <= 2)%nat) -> (forall q lv, f (q, lv) <= 3 ^ (lv - 1))%nat ->
  (sum_list (f <$> hops p l) <= 3 ^ l - 1)%nat.
Proof.
  intros Ho Hf. induction l as [|l IH]; [done|]. cbn [hops]. rewrite fmap_app.
  assert (forall (l1 l2 : list nat), sum_list (l1 ++ l2) = (sum_list l1 + sum_list l2)%nat) as Happ.
  { intros l1 l2. induction l1 as [|a l1 IH1]; [done|]. cbn in *. lia. }
  rewrite Happ.
  assert (sum_list (f <$> ((fun i => ((p + i) mod n, S l)%Z) <$> filter (fun i => i ≠ 0%Z) (offs (S l)))) <= 2 * 3 ^ l)%nat as Hhead.
  { pose proof (Ho (S l)) as H2. pose proof (length_filter (fun i => i ≠ 0) (offs (S l))) as H3.
    destruct (filter (fun i => i ≠ 0) (offs (S l))) as [|a [|b [|c r]]]; cbn in *; try lia;
      pose proof (fun q => Hf q (S l)) as Hq; cbn in Hq; rewrite Nat.sub_0_r in Hq.
    - pose proof (Hq ((p + a) mod n)). lia.
    - pose proof (Hq ((p + a) mod n)). pose proof (Hq ((p + b) mod n)). lia. }
  pose proof (Nat.pow_nonzero 3 l ltac:(lia)). cbn [Nat.pow]. lia.
Qed.

(** A broadcast at level [l] causes at most [3^l - 1] messages. *)
Lemma spread_length fuel : forall p l, (forall l, (length (offs l) <= 2)%nat) -> (length (spread fuel p l) <= 3 ^ l - 1)%nat.
Proof.
  induction fuel as [|fuel IH]; intros p l Ho; cbn [spread]; [cbn; lia|].
  assert (forall ls : list (list Z), length (concat ls) = sum_list (length <$> ls)) as Hc.
  { induction ls as [|a ls IHl]; [done|]. cbn. by rewrite length_app, IHl. }
  rewrite Hc, <- list_fmap_compose. apply hops_length_bound; [done|]. intros q lv. cbn.
  pose proof (IH q (lv - 1)%nat Ho). pose proof (Nat.pow_nonzero 3 (lv - 1) ltac:(lia)). lia.
Qed.

(** The ring looks the same from every node. *)
Lemma hops_shift p l : 0 < n -> hops p l = (fun h => ((p + h.1) mod n, h.2)) <$> hops 0 l.
Proof.
  intros Hn. induction l as [|l IH]; [done|]. cbn [hops]. rewrite fmap_app, <- IH, <- list_fmap_compose. f_equal.
  apply list_fmap_ext. intros i x _. cbn. by rewrite Zplus_mod_idemp_r.
Qed.

Lemma spread_shift fuel : forall p l, 0 < n -> spread fuel p l = (fun q => (p + q) mod n) <$> spread fuel 0 l.
Proof.
  induction fuel as [|fuel IH]; intros p l Hn; [done|]. cbn [spread]. rewrite (hops_shift p) by done.
  induction (hops 0 l) as [|[q lv] hs IHh]; [done|]. cbn [fmap list_fmap concat fst snd]. rewrite fmap_app, <- IHh.
  f_equal. cbn. f_equal. rewrite (IH ((p + q) mod n)), (IH q) by done. rewrite <- list_fmap_compose. apply list_fmap_ext.
  intros i x _. cbn. rewrite Zplus_mod_idemp_l, Zplus_mod_idemp_r. f_equal. lia.
Qed.
End spread.

(** Only the offsets of the levels in use matter. *)
Lemma spread_ext o1 o2 n fuel : forall p l, (forall k, (k <= l)%nat -> o1 k = o2 k) -> spread o1 n fuel p l = spread o2 n fuel p l.
Proof.
  assert (forall p l, (forall k, (k <= l)%nat -> o1 k = o2 k) -> hops o1 n p l = hops o2 n p l) as Hh.
  { intros p l. induction l as [|l IH]; intros Ho; [done|]. cbn [hops]. rewrite (Ho (S l)), IH by auto. done. }
  induction fuel as [|fuel IH]; intros p l Ho; [done|]. cbn [spread]. rewrite Hh by done. f_equal. apply list_fmap_ext.
  intros i [q lv] Hi. apply list_elem_of_lookup_2, hops_levels in Hi. cbn. f_equal. apply IH. intros k Hk. apply Ho. lia.
Qed.

(** ** The spread that the code produces *)
Section network.
Context `{GoConversion}.

(** A broadcast in a network of [n] nodes starts at the number of levels of its size. *)
Definition broadcastSpread (n p : Z) : list Z :=
  let L := Z.to_nat (levelsFor n) in spread (fun l => offsets n (Z.of_nat l)) n L p L.

(** The nodes that the broadcast of the node at [p] does not reach. *)
Definition missed (n p : Z) : list Z := filter (fun q => q ≠ p /\ q ∉ broadcastSpread n p) (seqZ 0 n).

Lemma missed_nil n p : missed n p = [] <-> forall q, 0 <= q < n -> q ≠ p -> q ∈ broadcastSpread n p.
Proof.
  unfold missed. split.
  - intros He q Hq Hne. destruct (decide (q ∈ broadcastSpread n p)) as [|Hn]; [done|]. exfalso.
    assert (q ∈ filter (fun q => q ≠ p /\ q ∉ broadcastSpread n p) (seqZ 0 n)) as Hin
      by (apply list_elem_of_filter; split; [done|]; apply elem_of_seqZ; lia).
    rewrite He in Hin. set_solver.
  - intros Hall. destruct (filter _ (seqZ 0 n)) as [|q l] eqn:He; [done|]. exfalso.
    assert (q ∈ filter (fun q => q ≠ p /\ q ∉ broadcastSpread n p) (seqZ 0 n)) as Hin by (rewrite He; set_solver).
    apply list_elem_of_filter in Hin as [[Hne Hn] Hin]. apply elem_of_seqZ in Hin. apply Hn, Hall; [lia|done].
Qed.

(** The same with the offsets computed once per level. *)
Definition offsetTable (n : Z) (L : nat) : list (list Z) := (fun l => offsets n (Z.of_nat l)) <$> seq 0 (S L).
Definition missedFrom0 (n : Z) : list Z :=
  let L := Z.to_nat (levelsFor n) in
  let tbl := offsetTable n L in
  let reached := 0 :: spread (fun l => default [] (tbl !! l)) n L 0 L in
  filter (fun q => q ∉ reached) (seqZ 0 n).

Lemma broadcastSpread_table n :
  broadcastSpread n 0 = spread (fun l => default [] (offsetTable n (Z.to_nat (levelsFor n)) !! l)) n (Z.to_nat (levelsFor n)) 0 (Z.to_nat (levelsFor n)).
Proof.
  unfold broadcastSpread. cbv zeta. apply spread_ext. intros k Hk. unfold offsetTable. rewrite list_lookup_fmap, lookup_seq_lt by lia. done.
Qed.

Lemma ring_shift_inj n p q r : 0 <= q < n -> 0 <= r < n -> (p + q) mod n = (p + r) mod n -> q = r.
Proof.
  intros Hq Hr He. rewrite <- (Z.mod_small q n), <- (Z.mod_small r n) by done.
  replace q with (p + q - p) by lia. replace r with (p + r - p) by lia. by rewrite Zminus_mod, He, <- Zminus_mod.
Qed.

Lemma spread_range offs n fuel p l q : 0 < n -> q ∈ spread offs n fuel p l -> 0 <= q < n.
Proof.
  intros Hn. revert p l. induction fuel as [|fuel IH]; intros p l; cbn [spread]; [set_solver|].
  intros Hin.
  assert (exists h, h ∈ hops offs n p l /\ q ∈ h.1 :: spread offs n fuel h.1 (h.2 - 1)) as (h & Hh & Hq).
  { revert Hin. induction (hops offs n p l) as [|h hs IHh]; cbn; [set_solver|]. set_solver. }
  apply elem_of_cons in Hq as [->|Hq]; [|by eapply IH].
  clear Hin. induction l as [|l IHl]; cbn [hops] in Hh; [set_solver|]. apply elem_of_app in Hh as [Hh|Hh]; [|by apply IHl].
  apply list_elem_of_fmap in Hh as (i & -> & _). by apply Z.mod_pos_bound.
Qed.

Lemma missed_shift n p : 0 <= p < n -> missed n p = [] <-> missedFrom0 n = [].
Proof.
  intros Hp. assert (forall q, q ∈ broadcastSpread n p <-> exists r, r ∈ broadcastSpread n 0 /\ q = (p + r) mod n) as Hs.
  { intros q. unfold broadcastSpread. cbv zeta. rewrite spread_shift, list_elem_of_fmap by lia. naive_solver. }
  unfold missedFrom0. cbv zeta. rewrite <- broadcastSpread_table. unfold missed.
  assert (forall (P : Z -> Prop) `{forall q, Decision (P q)}, filter P (seqZ 0 n) = [] <-> forall q, 0 <= q < n -> ¬ P q) as Hnil.
  { intros P ?. rewrite <- (Permutation_nil_r (filter P _)). split.
    - intros He q Hq HP. assert (q ∈ filter P (seqZ 0 n)) as Hin by (apply list_elem_of_filter; split; [done|]; apply elem_of_seqZ; lia).
      rewrite He in Hin. set_solver.
    - intros Hall. destruct (filter P (seqZ 0 n)) as [|q l] eqn:He; [done|]. exfalso.
      assert (q ∈ filter P (seqZ 0 n)) as Hin by (rewrite He; set_solver). apply list_elem_of_filter in Hin as [HP Hin].
      apply elem_of_seqZ in Hin. apply (Hall q); [lia|done]. }
  rewrite !Hnil. split; intros Hall q Hq Hn.
  - apply not_elem_of_cons in Hn as [Hq0 Hn]. apply (Hall ((p + q) mod n)); [apply Z.mod_pos_bound; lia|]. split.
    + intros He. apply Hq0. by apply (ring_shift_inj n p q 0); [lia|lia|rewrite He, Z.add_0_r, Z.mod_small].
    + rewrite Hs. intros (r & Hr & He). apply Hn. apply ring_shift_inj in He as ->; [done|done|]. eapply spread_range; [|exact Hr]. lia.
  - destruct Hn as [Hqp Hn]. apply (Hall ((q - p) mod n)); [apply Z.mod_pos_bound; lia|].
    assert ((p + (q - p) mod n) mod n = q) as Hback by (rewrite Zplus_mod_idemp_r; replace (p + (q - p)) with q by lia; by apply Z.mod_small).
    apply not_elem_of_cons. split; [intros He; rewrite He, Z.add_0_r, Z.mod_small in Hback by lia; by apply Hqp|].
    intros Hin. apply Hn, Hs. eauto.
Qed.

Lemma coverage_table :
  forallb (fun n => Bool.eqb (bool_decide (missedFrom0 n = [])) (negb (bool_decide (n ∈ [8; 17; 19; 20; 22; 23; 24; 25; 26])))) (seqZ 1 27) = true.
Proof. by vm_compute. Qed.

Lemma spread_coverage (n p : Z) :
  1 <= n <= 27 -> 0 <= p < n -> missed n p = [] <-> n ∉ [8; 17; 19; 20; 22; 23; 24; 25; 26].
Proof.
  intros Hn Hp. rewrite missed_shift by done. pose proof coverage_table as Ht. rewrite forallb_forall in Ht.
  specialize (Ht n ltac:(apply list_elem_of_In, elem_of_seqZ; lia)). apply eqb_prop in Ht.
  destruct (bool_decide_reflect (missedFrom0 n = [])), (bool_decide_reflect (n ∈ [8; 17; 19; 20; 22; 23; 24; 25; 26])); naive_solver.
Qed.

Lemma levels_table : forallb (fun n => bool_decide (in_u32 (levelsFor n))) (seqZ 1 27) = true.
Proof. by vm_compute. Qed.
Lemma levels_range n : 1 <= n <= 27 -> in_u32 (levelsFor n).
Proof.
  intros Hn. pose proof levels_table as Ht. rewrite forallb_forall in Ht.
  specialize (Ht n ltac:(apply list_elem_of_In, elem_of_seqZ; lia)). by apply bool_decide_eq_true in Ht.
Qed.

(** A broadcast ends: with the levels as fuel every forwarding is accounted for, and it
    costs at most 3^L - 1 messages in a network with L levels, whatever its size. *)
Theorem broadcast_terminates (n p : Z) (fuel : nat) :
  let L := Z.to_nat (levelsFor n) in
  (L <= fuel)%nat ->
  spread (fun l => offsets n (Z.of_nat l)) n fuel p L = broadcastSpread n p /\
  (length (broadcastSpread n p) <= 3 ^ L - 1)%nat.
Proof.
  intros L Hf. split; [by apply spread_fuel|]. unfold broadcastSpread. fold L. clearbody L. apply spread_length. by intros l.
Qed.
End network.

(** ** The code on the ring *)
Section code.
Context `{GoMapOrder} `{GoConversion} `{Providers} `{PCL : P2PCodecLaws} `{CryptoPrims} `{NL : NetLaws} `{LP : Libp2pPrims}.

Definition peerAt (m : PeerAddrMap) (q : Z) : option NetworkPeer := ring m !! Z.to_nat q ≫= fun k => m !! k.

(** An entry of the log is the message of a hop: its level, to the peer at its position. *)
Definition hopSent (m : PeerAddrMap) (idOf : NetworkPeer -> string) (data : slice) (s : string * string * bytes) (h : Z * nat) : Prop :=
  exists peer, peerAt m h.1 = Some peer /\ s = (idOf peer, RaintreeProtocolID, encoded data (Z.of_nat h.2)).

Lemma omap_hops (f : Z -> option (string * string * bytes)) (g : Z -> Z * nat) (R : string * string * bytes -> Z * nat -> Prop) (l : list Z) :
  (forall i, i ∈ l -> i = 0 -> f i = None) -> (forall i, i ∈ l -> i ≠ 0 -> exists s, f i = Some s /\ R s (g i)) ->
  Forall2 R (omap f l) (g <$> filter (fun i => i ≠ 0) l).
Proof.
  induction l as [|i l IH]; intros Hz Hnz; [constructor|]. rewrite filter_cons. cbn [omap list_omap].
  destruct (decide (i ≠ 0)) as [Hi|Hi].
  - destruct (Hnz i ltac:(set_solver) Hi) as (s & -> & HR). constructor; [done|]. apply IH; set_solver.
  - rewrite (Hz i) by (set_solver || lia). apply IH; set_solver.
Qed.

Lemma sendsFrom_hops rtr idOf data p l :
  router_wf rtr -> 1 <= rsize rtr < 2 ^ 51 -> (p < Size (pstore (sortedPM (peersManager rtr))))%nat ->
  (forall i, (i < Size (pstore (sortedPM (peersManager rtr))))%nat ->
     sortedAddrs (view (sortedPM (peersManager rtr))) !! i = ring (pstore (sortedPM (peersManager rtr))) !! ((p + i) mod Size (pstore (sortedPM (peersManager rtr))))%nat) ->
  Forall2 (hopSent (pstore (sortedPM (peersManager rtr))) idOf data) (sendsFrom idOf rtr data l)
    (hops (fun l => offsets (rsize rtr) (Z.of_nat l)) (rsize rtr) (Z.of_nat p) l).
Proof.
  intros Hwf Hn Hp Hview. pose proof Hwf as (Hpm & _). set (pm := sortedPM (peersManager rtr)) in *.
  induction l as [|l IH]; [constructor|]. cbn [sendsFrom hops]. apply Forall2_app; [|exact IH].
  apply omap_hops; intros i Hi Hi0; [by rewrite bool_decide_eq_true_2|]. rewrite bool_decide_eq_false_2 by done.
  apply offsets_range in Hi; [|done]. fold pm. unfold rsize in Hi. fold pm in Hi.
  specialize (Hview (Z.to_nat i) ltac:(lia)). pose proof Hpm as (_ & [_ Hv] & _). rewrite <- Hv, list_lookup_fmap in Hview.
  destruct (sortedPeers (view pm) !! Z.to_nat i) as [q|] eqn:Hq.
  2:{ apply lookup_ge_None in Hq. pose proof (pm_size pm Hpm) as Hlen. rewrite <- Hv, length_fmap in Hlen. lia. }
  eexists. split; [done|]. exists q. split; [|done]. cbn in Hview |- *. unfold peerAt, rsize. fold pm.
  replace (Z.to_nat ((Z.of_nat p + i) mod Z.of_nat (Size (pstore pm)))) with ((p + Z.to_nat i) mod Size (pstore pm))%nat.
  - rewrite <- Hview. cbn. apply pm_lookup; [done|]. by eapply list_elem_of_lookup_2.
  - rewrite <- (Z2Nat.id i) at 2 by lia. rewrite <- Nat2Z.inj_add, <- Nat2Z.inj_mod. by rewrite Nat2Z.id.
Qed.

(** C16: What the code sends when it broadcasts at a level is, message by message, the hops of
    the ring: for the node at position [p] of the sorted addresses, to the nodes at the offsets
    of the level and of all lower ones, each with the level of its offset. *)
Theorem broadcast_follows_ring (rtr : rainTreeRouter) (idOf : NetworkPeer -> string) (data : slice) (lvl : Z) :
  router_wf rtr -> 1 <= rsize rtr < 2 ^ 51 -> reliable rtr idOf -> in_u32 lvl ->
  exists p, ring (GetPeerstore rtr) !! p = Some (Address_String (selfAddr rtr)) /\
    forall h, exists sends, broadcastAtLevel rtr data lvl h = (Ok tt, logSends h sends) /\
      Forall2 (hopSent (GetPeerstore rtr) idOf data) sends
        (hops (fun l => offsets (rsize rtr) (Z.of_nat l)) (rsize rtr) (Z.of_nat p) (Z.to_nat lvl)).
Proof.
  intros Hwf Hn Hrel Hl. pose proof Hwf as (Hpm & Hself & Ha & _).
  destruct (view_ring _ Hpm Hself) as (p & Hp & Hring & Hview). rewrite Ha in Hring. exists p. split; [exact Hring|].
  intros h. eexists. split; [apply broadcast_sends; [done|done|done|unfold in_u32 in Hl; lia]|].
  by apply sendsFrom_hops.
Qed.

(** ** A network of routers

    Every node has a router over the same peerstore, a host, and the data its router has handed
    to the application.  What the hosts have written to streams is pending until the
    node it is for handles it, in any order. *)
Context (m : PeerAddrMap) (idOf : NetworkPeer -> string) (routers : string -> rainTreeRouter).

Record NodeState := { nodeHost : HostState; handed : list bytes }.
Record Network := { nodes : gmap string NodeState; pending : list (string * string * bytes) }.

Definition onNodeHost (f : M HostState P2PErr unit) : M NodeState P2PErr unit := fun s =>
  let '(r, h) := f (nodeHost s) in (r, {| nodeHost := h; handed := handed s |}).
(** The handler of the router is given the data of a message. *)
Definition handOver (data : bytes) : M NodeState P2PErr unit :=
  modify (fun s => {| nodeHost := nodeHost s; handed := handed s ++ [data] |}).

(** What a host has written since it was in state [h]. *)
Definition written (h h' : HostState) : list (string * string * bytes) := drop (length (hostSent h)) (hostSent h').

(** A node originates a broadcast. *)
Inductive broadcastsFrom (k : string) (data : bytes) : Network -> Network -> Prop :=
| originate net s r s' :
    nodes net !! k = Some s -> onNodeHost (Broadcast (routers k) (Some data)) s = (r, s') ->
    broadcastsFrom k data net
      {| nodes := <[k := s']> (nodes net); pending := pending net ++ written (nodeHost s) (nodeHost s') |}.

(** The peer a pending message is for handles it. *)
Inductive netStep : Network -> Network -> Prop :=
| receive net pre id proto b post k peer s r s' :
    pending net = pre ++ (id, proto, b) :: post -> m !! k = Some peer -> idOf peer = id -> nodes net !! k = Some s ->
    handleRainTreeMsg onNodeHost handOver (routers k) b s = (r, s') ->
    netStep net {| nodes := <[k := s']> (nodes net); pending := (pre ++ post) ++ written (nodeHost s) (nodeHost s') |}.

(** The routers are in order and over the same peerstore, streams do not fail, and the ids of
    the peers on the network differ. *)
Record netWf : Prop := {
  nw_router : forall k, is_Some (m !! k) -> router_wf (routers k) /\ reliable (routers k) idOf /\
    pstore (sortedPM (peersManager (routers k))) = m /\ Address_String (selfAddr (routers k)) = k;
  nw_ids : forall k k' p p', m !! k = Some p -> m !! k' = Some p' -> idOf p = idOf p' -> k = k';
}.

Section run.
Context (Hnet : netWf) (Hsize : 1 <= Z.of_nat (Size m) <= 27).
Context (data : bytes) (Hdata : is_Some (unmarshalEnvelope data)).

Let n : Z := Z.of_nat (Size m).
Let hopsAt (q : Z) (l : nat) := hops (fun l => offsets n (Z.of_nat l)) n q l.
Let reach (q : Z) (l : nat) := spread (fun l => offsets n (Z.of_nat l)) n l q l.

(** What the broadcast of a node writes, at its position of the ring. *)
Lemma node_sends k (q : Z) l h :
  ring m !! Z.to_nat q = Some k -> 0 <= q -> is_Some (m !! k) -> Z.of_nat l < 2 ^ 32 ->
  exists sends, broadcastFrom (routers k) (Some data) l h = (Ok tt, logSends h sends) /\
    Forall2 (hopSent m idOf (Some data)) sends (hopsAt q l).
Proof.
  intros Hq Hq0 Hk Hl. destruct (nw_router Hnet k Hk) as (Hwf & Hrel & Hps & Hself).
  assert (rsize (routers k) = n) as Hn by (unfold rsize, n; by rewrite Hps).
  pose proof Hwf as (Hpm & Hfirst & Ha & _). destruct (view_ring _ Hpm Hfirst) as (p & Hp & Hring & Hview).
  rewrite Ha, Hps, Hself in Hring.
  assert (p = Z.to_nat q) as ->.
  { eapply NoDup_lookup; [|exact Hring|exact Hq]. unfold ring. rewrite sortStrings_elements. apply NoDup_fst_map_to_list. }
  eexists. split; [apply broadcast_sends; [done|rewrite Hn; unfold n; lia|done|done]|].
  pose proof (sendsFrom_hops (routers k) idOf (Some data) (Z.to_nat q) l Hwf ltac:(rewrite Hn; unfold n; lia) Hp Hview) as Hf.
  rewrite Hps, Hn, Z2Nat.id in Hf by done. exact Hf.
Qed.

(** What handling a message of level [lv] does at the node at [q]. *)
Lemma node_handles k (q : Z) lv s :
  ring m !! Z.to_nat q = Some k -> 0 <= q -> is_Some (m !! k) -> (1 <= lv)%nat -> Z.of_nat lv < 2 ^ 32 ->
  exists sends, handleRainTreeMsg onNodeHost handOver (routers k) (encoded (Some data) (Z.of_nat lv)) s =
      (Ok tt, {| nodeHost := logSends (nodeHost s) sends; handed := handed s ++ [data] |}) /\
    Forall2 (hopSent m idOf (Some data)) sends (hopsAt q (lv - 1)).
Proof.
  intros Hq Hq0 Hk Hlv Hl.
  destruct (rainTree_roundtrip {| Level := Z.of_nat lv; RTData := Some data |}) as (b & Hb & Hu); [unfold in_u32; cbn; lia|].
  destruct (node_sends k q (lv - 1) (nodeHost s) Hq Hq0 Hk ltac:(lia)) as (sends & Hrun & Hf). exists sends. split; [|exact Hf].
  unfold handleRainTreeMsg, encoded. rewrite Hb. cbn [default from_option id]. rewrite Hu. unfold validateRainTreeMsg. cbn [RTData Level].
  change (bz (Some data)) with data. destruct Hdata as [e He]. rewrite He. cbn [negb].
  rewrite (proj2 (Z.ltb_lt _ _)) by lia. unfold when. erewrite bind_run.
  2:{ unfold onNodeHost, broadcastAtLevel. replace (Z.to_nat (Z.of_nat lv - 1)) with (lv - 1)%nat by lia. by rewrite Hrun. }
  done.
Qed.

Lemma hops_range q l h : h ∈ hopsAt q l -> 0 <= h.1 < n /\ (1 <= h.2 <= l)%nat.
Proof.
  unfold hopsAt. intros Hh. split; [|destruct h; by eapply hops_levels]. induction l as [|l IH]; cbn [hops] in Hh; [set_solver|].
  apply elem_of_app in Hh as [Hh|Hh]; [|by apply IH]. apply list_elem_of_fmap in Hh as (i & -> & _). apply Z.mod_pos_bound. unfold n. lia.
Qed.

Lemma elem_of_concat {A} (x : A) (ls : list (list A)) : x ∈ concat ls <-> exists l, x ∈ l /\ l ∈ ls.
Proof. induction ls as [|l ls IH]; cbn; [set_solver|]. rewrite elem_of_app, IH. set_solver. Qed.

(** A node is reached directly, or from a node that is reached directly. *)
Lemma reach_unfold q l r : r ∈ reach q l <-> exists h, h ∈ hopsAt q l /\ (r = h.1 \/ r ∈ reach h.1 (h.2 - 1)).
Proof.
  unfold reach. destruct l as [|l]; [split; [set_solver|intros (h & Hh & _); cbn in Hh; set_solver]|].
  set (o := fun l => offsets n (Z.of_nat l)) in *. change (spread o n (S l) q (S l)) with (concat ((fun h => h.1 :: spread o n l h.1 (h.2 - 1)) <$> hops o n q (S l))).
  rewrite elem_of_concat. split.
  - intros (x & Hr & (h & -> & Hh)%list_elem_of_fmap). exists h. split; [exact Hh|]. apply hops_range in Hh as [_ Hh].
    apply elem_of_cons in Hr as [->|Hr]; [by left|right]. by rewrite spread_fuel in Hr by lia.
  - intros (h & Hh & Hr). eexists. split; [|by apply list_elem_of_fmap_2]. apply hops_range in Hh as [_ Hh].
    destruct Hr as [->|Hr]; [left|right]. by rewrite spread_fuel by lia.
Qed.

(** ** The invariant of a run *)
Definition gotData (net : Network) (q : Z) : Prop :=
  exists k s, ring m !! Z.to_nat q = Some k /\ nodes net !! k = Some s /\ data ∈ handed s.
Definition weight (hs : list (Z * nat)) : nat := sum_list ((fun h => 3 ^ (h.2 - 1))%nat <$> hs).

(** The pending messages are the hops [hs]; what they will still reach and what has been
    reached together are the positions in [R]. *)
Record netInv (R : Z -> Prop) (net : Network) (hs : list (Z * nat)) : Prop := {
  ni_pending : Forall2 (hopSent m idOf (Some data)) (pending net) hs;
  ni_hops : forall h, h ∈ hs -> 0 <= h.1 < n /\ (1 <= h.2)%nat /\ Z.of_nat h.2 < 2 ^ 32;
  ni_nodes : forall k, is_Some (m !! k) -> is_Some (nodes net !! k);
  ni_reach : forall q, 0 <= q < n -> R q <-> gotData net q \/ exists h, h ∈ hs /\ (q = h.1 \/ q ∈ reach h.1 (h.2 - 1));
}.

Lemma written_log h sends : written h (logSends h sends) = sends.
Proof. unfold written, logSends. cbn. by rewrite drop_app_length. Qed.

Lemma peerAt_ring q peer : peerAt m q = Some peer -> exists k, ring m !! Z.to_nat q = Some k /\ m !! k = Some peer.
Proof. unfold peerAt. destruct (ring m !! Z.to_nat q) as [k|] eqn:Hk; [|done]. cbn. eauto. Qed.
Lemma ring_nodup : NoDup (ring m).
Proof. unfold ring. rewrite sortStrings_elements. apply NoDup_fst_map_to_list. Qed.
Lemma ring_same q q' k : 0 <= q -> 0 <= q' -> ring m !! Z.to_nat q = Some k -> ring m !! Z.to_nat q' = Some k -> q = q'.
Proof. intros Hq Hq' E1 E2. pose proof (NoDup_lookup _ _ _ _ ring_nodup E1 E2). lia. Qed.

Lemma sum_list_app (l1 l2 : list nat) : sum_list (l1 ++ l2) = (sum_list l1 + sum_list l2)%nat.
Proof. induction l1 as [|a l1 IH]; [done|]. cbn. rewrite IH. lia. Qed.
Lemma weight_app l1 l2 : weight (l1 ++ l2) = (weight l1 + weight l2)%nat.
Proof. unfold weight. by rewrite fmap_app, sum_list_app. Qed.
Lemma weight_hops q l : (weight (hopsAt q l) < 3 ^ l)%nat.
Proof.
  unfold weight, hopsAt. pose proof (hops_length_bound (fun l => offsets n (Z.of_nat l)) n (fun h => 3 ^ (h.2 - 1))%nat q l) as Hb.
  pose proof (Nat.pow_nonzero 3 l ltac:(lia)). specialize (Hb ltac:(done) ltac:(done)). lia.
Qed.

(** One message is handled: the data is handed over there, and the hops it stood for become
    pending. *)
Lemma netStep_inv R net hs net' :
  netInv R net hs -> netStep net net' -> exists hs', netInv R net' hs' /\ (weight hs' < weight hs)%nat.
Proof.
  intros [Hp Hh Hn Hr] Hstep. destruct Hstep as [net pre i proto b post k peer s r s' Hpend Hk Hid Hs Hrun].
  rewrite Hpend in Hp. apply Forall2_app_inv_l in Hp as (hs1 & hs2' & Hp1 & Hp2 & ->).
  apply Forall2_cons_inv_l in Hp2 as (h & hs2 & (peer0 & Hpeer & [= -> -> ->]) & Hp2 & ->).
  apply peerAt_ring in Hpeer as (k0 & Hring & Hk0). assert (k = k0) as <- by (by eapply (nw_ids Hnet)).
  destruct (Hh h ltac:(set_solver)) as (Hq & Hl1 & Hl2).
  destruct (node_handles k h.1 h.2 s Hring ltac:(lia) ltac:(by eexists) Hl1 Hl2) as (sends & Hrun' & Hf).
  rewrite Hrun' in Hrun. injection Hrun as <- <-. cbn [nodeHost]. rewrite written_log.
  exists ((hs1 ++ hs2) ++ hopsAt h.1 (h.2 - 1))%list. split; [split|].
  - cbn [pending]. by apply Forall2_app; [apply Forall2_app|].
  - intros h' [Hin|Hin]%elem_of_app; [apply Hh; set_solver|]. apply hops_range in Hin. split; [tauto|lia].
  - intros k' Hk'. cbn [nodes]. destruct (decide (k' = k)) as [->|Hne]; [rewrite lookup_insert_eq; by eexists|].
    rewrite lookup_insert_ne by done. by apply Hn.
  - intros q Hqr. rewrite (Hr q Hqr). split.
    + intros [(k' & s1 & E1 & E2 & E3)|(h' & Hin & Hor)].
      { left. exists k'. cbn [nodes]. destruct (decide (k' = k)) as [->|Hne].
        - rewrite lookup_insert_eq. eexists. split; [done|]. split; [done|]. cbn. rewrite Hs in E2. injection E2 as <-. set_solver.
        - rewrite lookup_insert_ne by done. eauto. }
      apply elem_of_app in Hin as [Hin|[->|Hin]%elem_of_cons]; [right; exists h'; set_solver| |right; exists h'; set_solver].
      destruct Hor as [->|Hor].
      { left. exists k. cbn [nodes]. rewrite lookup_insert_eq. eexists. split; [done|]. split; [done|]. cbn. set_solver. }
      apply reach_unfold in Hor as (h2 & Hin & Hor). right. exists h2. set_solver.
    + intros [(k' & s1 & E1 & E2 & E3)|(h' & Hin & Hor)].
      { cbn [nodes] in E2. destruct (decide (k' = k)) as [->|Hne].
        - right. exists h. split; [set_solver|]. left. apply (ring_same q h.1 k); [lia|lia|done|done].
        - rewrite lookup_insert_ne in E2 by done. left. by exists k', s1. }
      right. apply elem_of_app in Hin as [Hin|Hin]; [exists h'; set_solver|].
      exists h. split; [set_solver|]. right. apply reach_unfold. eauto.
  - rewrite !weight_app. pose proof (weight_hops h.1 (h.2 - 1)).
    assert (weight (h :: hs2) = 3 ^ (h.2 - 1) + weight hs2)%nat as -> by done. lia.
Qed.

Lemma netInv_progress R net hs : netInv R net hs -> pending net = [] \/ exists net', netStep net net'.
Proof.
  intros [Hp Hh Hn _]. destruct (pending net) as [|[[i proto] b] post] eqn:Hpend; [by left|right].
  apply Forall2_cons_inv_l in Hp as (h & hs2 & (peer & Hpeer & [= -> -> ->]) & _ & ->).
  apply peerAt_ring in Hpeer as (k & _ & Hk). destruct (Hn k ltac:(by eexists)) as [s Hs].
  destruct (handleRainTreeMsg onNodeHost handOver (routers k) (encoded (Some data) (Z.of_nat h.2)) s) as [r s'] eqn:Hrun.
  eexists. by eapply (receive net []).
Qed.

(** Every run can be completed. *)
Lemma netInv_completes R net hs : netInv R net hs -> exists net2, rtc netStep net net2 /\ pending net2 = [].
Proof.
  remember (weight hs) as w eqn:Hw. revert net hs Hw. induction (lt_wf w) as [w _ IH]. intros net hs -> Hi.
  destruct (netInv_progress R net hs Hi) as [He|[net' Hs]]; [by exists net|].
  destruct (netStep_inv R net hs net' Hi Hs) as (hs' & Hi' & Hlt). destruct (IH _ Hlt net' hs' eq_refl Hi') as (net2 & Hr & He).
  exists net2. split; [by eapply rtc_l|done].
Qed.
Lemma netInv_run R net net2 hs : netInv R net hs -> rtc netStep net net2 -> exists hs2, netInv R net2 hs2.
Proof.
  intros Hi Hr. revert hs Hi. induction Hr as [net|net net1 net2 Hs _ IH]; intros hs Hi; [by exists hs|].
  destruct (netStep_inv R net hs net1 Hi Hs) as (hs1 & Hi1 & _). by eapply IH.
Qed.

(** The broadcast of the node [k0] starts a run. *)
Lemma broadcast_starts k0 (p : Z) net0 net1 :
  ring m !! Z.to_nat p = Some k0 -> 0 <= p -> is_Some (m !! k0) ->
  (forall k, is_Some (m !! k) -> exists s, nodes net0 !! k = Some s) -> pending net0 = [] ->
  (forall k s, nodes net0 !! k = Some s -> data ∉ handed s) -> broadcastsFrom k0 data net0 net1 ->
  exists hs, netInv (fun q => q ∈ broadcastSpread n p) net1 hs.
Proof.
  intros Hp Hp0 Hk0 Hnodes Hpend Hnone Hb. revert Hnodes Hpend Hnone. destruct Hb as [net s r s' Hs Hrun].
  intros Hnodes Hpend Hnone. destruct (nw_router Hnet k0 Hk0) as ((_ & _ & _ & _ & Hlev) & _ & Hps & _).
  unfold Broadcast, GetMaxNumLevels, broadcastAtLevel in Hrun. rewrite Hlev, Hps in Hrun. change (getMaxPeerstoreLevels m) with (levelsFor n) in Hrun.
  pose proof (levels_range n Hsize) as Hl. unfold in_u32 in Hl.
  destruct (node_sends k0 p (Z.to_nat (levelsFor n)) (nodeHost s) Hp Hp0 Hk0 ltac:(lia)) as (sends & Hb & Hf).
  unfold onNodeHost in Hrun. rewrite Hb in Hrun. injection Hrun as <- <-. cbn [nodeHost]. rewrite written_log, Hpend.
  exists (hopsAt p (Z.to_nat (levelsFor n))). split; cbn [pending nodes app].
  - exact Hf.
  - intros h Hh. apply hops_range in Hh. split; [tauto|lia].
  - intros k Hk. destruct (decide (k = k0)) as [->|Hne]; [rewrite lookup_insert_eq; by eexists|].
    rewrite lookup_insert_ne by done. destruct (Hnodes k Hk) as [s1 Hs1]. by eexists.
  - intros q Hq. change (broadcastSpread n p) with (reach p (Z.to_nat (levelsFor n))). rewrite reach_unfold. split; [by right|].
    intros [(k & s1 & _ & E2 & E3)|Hr]; [|done]. exfalso. cbn [nodes] in E2. destruct (decide (k = k0)) as [->|Hne].
    + rewrite lookup_insert_eq in E2. injection E2 as <-. by apply (Hnone k0 s Hs).
    + rewrite lookup_insert_ne in E2 by done. by apply (Hnone k s1 E2).
Qed.

Lemma ring_position k : is_Some (m !! k) -> exists q, 0 <= q < n /\ ring m !! Z.to_nat q = Some k.
Proof.
  intros [peer Hk]. assert (k ∈ ring m) as [i Hi]%list_elem_of_lookup.
  { unfold ring. rewrite sortStrings_elements. apply list_elem_of_fmap. exists (k, peer). split; [done|]. by apply elem_of_map_to_list. }
  exists (Z.of_nat i). rewrite Nat2Z.id. split; [|done]. apply lookup_lt_Some in Hi. unfold ring in Hi.
  rewrite sortStrings_elements, length_fmap, length_map_to_list in Hi. unfold n, Size. lia.
Qed.
Lemma ring_peer q k : ring m !! Z.to_nat q = Some k -> is_Some (m !! k).
Proof.
  intros Hq%list_elem_of_lookup_2. unfold ring in Hq. rewrite sortStrings_elements in Hq.
  apply list_elem_of_fmap in Hq as ([k' peer] & -> & Hin). apply elem_of_map_to_list in Hin. by eexists.
Qed.
End run.

(** C17: Let all nodes of a network of at most 27 nodes have a router over the same peerstore,
    with streams that do not fail, and let one of them broadcast an envelope, with no
    message pending before.  The messages can be handled until none is pending, and whenever
    none is pending, in whatever order they were handled: every other node has handed the
    envelope to its application, if and only if the network does not have 8, 17, 19, 20, 22, 23,
    24, 25 or 26 nodes.  In those the float64 truncations leave nodes that are no target of any
    level, and nothing in the code makes up for them (the sizes that the tests use are all
    covered). *)
Theorem broadcast_coverage (k0 : string) (data : bytes) (net0 net1 : Network) :
  netWf -> 1 <= Z.of_nat (Size m) <= 27 -> is_Some (unmarshalEnvelope data) -> is_Some (m !! k0) ->
  (forall k, is_Some (m !! k) -> exists s, nodes net0 !! k = Some s) -> pending net0 = [] ->
  (forall k s, nodes net0 !! k = Some s -> data ∉ handed s) ->
  broadcastsFrom k0 data net0 net1 ->
  (exists net2, rtc netStep net1 net2 /\ pending net2 = []) /\
  forall net2, rtc netStep net1 net2 -> pending net2 = [] ->
    (forall k, is_Some (m !! k) -> k ≠ k0 -> exists s, nodes net2 !! k = Some s /\ data ∈ handed s) <->
    Z.of_nat (Size m) ∉ [8; 17; 19; 20; 22; 23; 24; 25; 26].
Proof.
  intros Hnet Hsize Hdata Hk0 Hnodes Hpend Hnone Hb. destruct (ring_position k0 Hk0) as (p & Hp & Hring).
  destruct (broadcast_starts Hnet Hsize data Hdata k0 p net0 net1 Hring ltac:(lia) Hk0 Hnodes Hpend Hnone Hb) as (hs & Hi).
  split; [by eapply netInv_completes|]. intros net2 Hr He. destruct (netInv_run Hnet Hsize data Hdata _ net1 net2 hs Hi Hr) as (hs2 & Hi2).
  rewrite <- (spread_coverage _ p Hsize Hp), missed_nil.
  pose proof (ni_pending _ _ _ _ Hi2) as Hf. rewrite He in Hf. apply Forall2_nil_inv_l in Hf as ->.
  assert (forall q, 0 <= q < Z.of_nat (Size m) -> q ∈ broadcastSpread (Z.of_nat (Size m)) p <-> gotData data net2 q) as Hgot.
  { intros q Hq. rewrite (ni_reach _ _ _ _ Hi2 q Hq). split; [intros [?|(h & Hh & _)]; [done|set_solver]|by left]. }
  split.
  - intros Hall q Hq Hne. apply Hgot; [done|].
    destruct (ring m !! Z.to_nat q) as [k|] eqn:Hk.
    2:{ apply lookup_ge_None in Hk. unfold ring in Hk. rewrite sortStrings_elements, length_fmap, length_map_to_list in Hk. unfold Size in Hq. lia. }
    destruct (Hall k) as (s & Hs & Hd); [by eapply ring_peer| |by exists k, s].
    intros ->. apply Hne. apply (ring_same q p k0); [lia|lia|done|done].
  - intros Hall k Hk Hne. destruct (ring_position k Hk) as (q & Hq & Hrq).
    destruct (proj1 (Hgot q Hq)) as (k' & s & E1 & E2 & E3).
    + apply Hall; [done|]. intros ->. congruence.
    + exists s. by assert (k' = k) as <- by congruence.
Qed.
End code.
End RainTreeNet.
