(* ===== verification/P2PToy.v ===== *)
(** A concrete codec, host and resolver: they show that the laws assumed of the P2P libraries can
    hold together, and serve the concrete runs. *)

From S2P Require Import Prelude GoStd GoSort GoFloat Errors Crypto CoreTypes Peers Libp2p RainTree RainTreeFacts RainTreeNet.
#[local] Open Scope Z_scope.

Module P2PToy.

(** *** A codec for any countable type: the decimal text of its code *)
Section countable.
Context `{Countable A}.
Definition toyMarshal (a : A) : option bytes := Some (bigIntText (Zpos (encode a))).
Definition toyUnmarshal (b : bytes) : option A :=
  match bigIntSetString b with Some (Zpos p) => decode p | _ => None end.
Lemma toy_roundtrip a : exists b, toyMarshal a = Some b /\ toyUnmarshal b = Some a.
Proof. eexists. split; [done|]. unfold toyUnmarshal. rewrite bigInt_text_parse. apply decode_encode. Qed.
End countable.

#[global] Instance Any_eq_dec : EqDecision Any.
Proof. solve_decision. Defined.
#[global] Instance Any_countable : Countable Any.
Proof. by apply (inj_countable' (fun a => (TypeUrl a, AnyValue a)) (fun p => {| TypeUrl := p.1; AnyValue := p.2 |})); intros []. Defined.
#[global] Instance PocketEnvelope_eq_dec : EqDecision PocketEnvelope.
Proof. solve_decision. Defined.
#[global] Instance PocketEnvelope_countable : Countable PocketEnvelope.
Proof. by apply (inj_countable' (fun a => (Content a, Nonce a)) (fun p => {| Content := p.1; Nonce := p.2 |})); intros []. Defined.
#[global] Instance RainTreeMessage_eq_dec : EqDecision RainTreeMessage.
Proof. solve_decision. Defined.
#[global] Instance RainTreeMessage_countable : Countable RainTreeMessage.
Proof. by apply (inj_countable' (fun a => (Level a, RTData a)) (fun p => {| Level := p.1; RTData := p.2 |})); intros []. Defined.
#[global] Instance BackgroundMessage_eq_dec : EqDecision BackgroundMessage.
Proof. solve_decision. Defined.
#[global] Instance BackgroundMessage_countable : Countable BackgroundMessage.
Proof. by apply (inj_countable' BGData (fun p => {| BGData := p |})); intros []. Defined.

#[local] Instance codec : P2PCodec := {|
  marshalEnvelope := toyMarshal; unmarshalEnvelope := toyUnmarshal;
  marshalRainTree := toyMarshal; unmarshalRainTree := toyUnmarshal;
  marshalBackground := toyMarshal; unmarshalBackground := toyUnmarshal;
|}.

#[local] Instance codec_laws : P2PCodecLaws codec.
Proof. constructor; intros; apply toy_roundtrip. Qed.

(** *** A resolver that knows only IPv4 texts, and a host where every operation succeeds *)
#[local] Instance net : NetPrims := {|
  urlParse s := inr {| urlHost := s; urlHostname := s; urlPort := "80" |};
  splitHostPort s := inr (s, "80"%string);
  parseIP s := Some {| ipText := s; ipIsV4 := true |};
  lookupHost s := inr [s];
  randIndex n := match n with O => None | S _ => Some 0%nat end;
  newMultiaddr s := inr [(P_IP4, s); (P_TCP, "80"%string)];
|}.

#[local] Instance net_laws : NetLaws net.
Proof. constructor. intros [|n] i; [done|]. intros [= <-]. lia. Qed.

#[local] Instance host : Libp2pPrims := {|
  unmarshalEd25519PublicKey pk := inr pk;
  idFromPublicKey pk := inr pk;
  addPubKeyErr _ _ _ := None;
  removeProtocolsErr _ _ := None;
  newStreamErr _ _ _ := None;
  writeErr _ _ _ := None;
  resetErr _ _ := None;
  closeErr _ _ := None;
  connectErr _ _ := None;
|}.

#[local] Instance conversion : GoConversion := {| unspecifiedInt := 0 |}.
#[local] Existing Instance CanonicalOrder.order.
#[local] Existing Instance ToyCrypto.prims.

Definition toyHost (id : string) : HostState :=
  {| hostID := id; hostAddrs := ∅; hostKeys := ∅; hostSent := []; hostConnected := [] |}.

(** *** A network of four nodes *)
Import PeersSpec RainTree RainTreeFacts RainTreeNet.
Definition four : PeerAddrMap := toyStore ["a"; "b"; "c"; "d"]%string.
#[local] Instance providers : Providers := {| CurrentHeight := 1; GetStakedPeerstoreAtHeight _ := Ok four |}.

Lemma four_wf : Pstore.pstore_wf four.
Proof. apply (bool_decide_unpack (map_Forall (fun k p => k = peerKey p) _)). by vm_compute. Qed.

Lemma four_router : exists rtr, setupPeerManager "b" four = Ok rtr /\ router_wf rtr /\ selfAddr rtr = "b"%string /\ GetPeerstore rtr = four.
Proof. apply setupPeerManager_wf; [apply four_wf|]. eexists. by vm_compute. Qed.

Lemma toy_reliable rtr : (forall k p, PeerManager.pstore (sortedPM (peersManager rtr)) !! k = Some p -> containsScheme (GetServiceURL p) = false) -> reliable rtr peerPublicKey.
Proof.
  intros Hs. split; [|done]. intros k p Hp. specialize (Hs _ _ Hp).
  unfold Libp2pAddrInfoFromPeer, Libp2pPublicKeyFromPeer, Libp2pMultiaddrFromServiceURL, getPeerIP. cbn. rewrite Hs. cbn.
  eexists. reflexivity.
Qed.

Lemma four_reliable rtr : GetPeerstore rtr = four -> reliable rtr peerPublicKey.
Proof.
  intros Hr. apply toy_reliable. unfold GetPeerstore, PeerManager.GetPeerstore in Hr. rewrite Hr.
  apply (bool_decide_unpack (map_Forall (fun _ p => containsScheme (GetServiceURL p) = false) four)). by vm_compute.
Qed.

Lemma four_size rtr : GetPeerstore rtr = four -> rsize rtr = 4.
Proof. unfold GetPeerstore, PeerManager.GetPeerstore, rsize. intros ->. by vm_compute. Qed.

(** *** Witnesses of the RainTree theorems *)
Lemma broadcast_any_level_safe_witness :
  exists rtr h', setupPeerManager "b" four = Ok rtr /\ broadcastAtLevel rtr (Some "x"%string) 4000000000 (toyHost "b") = (Ok tt, h').
Proof.
  destruct four_router as (rtr & Hnew & Hwf & _ & Hp).
  destruct (broadcast_any_level_safe rtr (Some "x"%string) 4000000000 (toyHost "b")) as [h' Hh].
  - exact Hwf.
  - rewrite (four_size rtr Hp). lia.
  - unfold in_u32. lia.
  - exists rtr, h'. split; [exact Hnew|exact Hh].
Defined.

Lemma broadcast_follows_ring_witness :
  exists rtr p, setupPeerManager "b" four = Ok rtr /\ ring (GetPeerstore rtr) !! p = Some (Address_String "b") /\
    forall h, exists sends, broadcastAtLevel rtr (Some "x"%string) 2 h = (Ok tt, logSends h sends) /\
      Forall2 (hopSent (GetPeerstore rtr) peerPublicKey (Some "x"%string)) sends
        (hops (fun l => offsets (rsize rtr) (Z.of_nat l)) (rsize rtr) (Z.of_nat p) (Z.to_nat 2)).
Proof.
  destruct four_router as (rtr & Hnew & Hwf & Ha & Hp).
  destruct (broadcast_follows_ring rtr peerPublicKey (Some "x"%string) 2) as (p & Hring & Hsends).
  - exact Hwf.
  - rewrite (four_size rtr Hp). lia.
  - by apply four_reliable.
  - unfold in_u32. lia.
  - rewrite Ha in Hring. exists rtr, p. split; [exact Hnew|]. split; [exact Hring|exact Hsends].
Defined.

(** The four nodes with nothing to handle, and the broadcast of an envelope by the node "b". *)
Definition noRouter : rainTreeRouter := {| selfAddr := "";
  peersManager := {| sortedPM := {| PeerManager.startAddr := ""; PeerManager.isDynamic := true;
    PeerManager.view := {| PeersView.sortedAddrs := []; PeersView.sortedPeers := [] |}; PeerManager.pstore := ∅ |}; maxNumLevels := 0 |} |}.
Definition routerOf (k : string) : rainTreeRouter :=
  match hexDecode k with
  | Some a => match setupPeerManager a four with Ok r => r | _ => noRouter end
  | None => noRouter
  end.
Definition idle : Network := {| nodes := (fun p => {| nodeHost := toyHost (peerPublicKey p); handed := [] |}) <$> four; pending := [] |}.
Definition envelope : bytes := default "" (marshalEnvelope {| Content := None; Nonce := 7 |}).
Definition nodeB : string := Address_String "b".
Definition afterB : NodeState := (onNodeHost (Broadcast (routerOf nodeB) (Some envelope)) {| nodeHost := toyHost "b"; handed := [] |}).2.
Definition broadcasting : Network := {| nodes := <[nodeB := afterB]> (nodes idle); pending := written (toyHost "b") (nodeHost afterB) |}.

Lemma four_nodes k : is_Some (four !! k) -> k ∈ (Address_String <$> ["a"; "b"; "c"; "d"]%string).
Proof. intros [p Hp]. apply elem_of_list_to_map_2 in Hp. cbn in Hp |- *. set_solver. Qed.

Lemma four_net : netWf four peerPublicKey routerOf.
Proof.
  split.
  - intros k Hk. assert (exists a, k = Address_String a) as [a ->].
    { apply four_nodes in Hk. apply list_elem_of_fmap in Hk as (a & -> & _). by exists a. }
    destruct (setupPeerManager_wf a four four_wf Hk) as (rtr & Hnew & Hwf & Hself & Hp).
    unfold routerOf, Address_String. rewrite hex_decode_encode, Hnew. split; [exact Hwf|]. split; [by apply four_reliable|].
    split; [exact Hp|]. by rewrite Hself.
  - intros k k' p p' Hp Hp'. apply elem_of_list_to_map_2 in Hp, Hp'. cbn in Hp, Hp'.
    repeat (apply elem_of_cons in Hp as [[= -> ->]|Hp]); try (by apply elem_of_nil in Hp);
      repeat (apply elem_of_cons in Hp' as [[= -> ->]|Hp']); try (by apply elem_of_nil in Hp'); done.
Qed.

Lemma broadcast_coverage_witness : exists net2, rtc (netStep four peerPublicKey routerOf) broadcasting net2 /\ pending net2 = [] /\
  exists s, nodes net2 !! Address_String "d" = Some s /\ envelope ∈ handed s.
Proof.
  destruct (broadcast_coverage four peerPublicKey routerOf nodeB envelope idle broadcasting) as [(net2 & Hr & He) Hiff].
  - exact four_net.
  - assert (Z.of_nat (Pstore.Size four) = 4) as -> by (by vm_compute). lia.
  - eexists. by vm_compute.
  - eexists. by vm_compute.
  - intros k [p Hp]. unfold idle. cbn [nodes]. rewrite lookup_fmap, Hp. by eexists.
  - reflexivity.
  - intros k s Hs. unfold idle in Hs. cbn [nodes] in Hs. rewrite lookup_fmap in Hs. destruct (four !! k); [|done]. injection Hs as <-. apply not_elem_of_nil.
  - apply (originate routerOf nodeB envelope idle {| nodeHost := toyHost "b"; handed := [] |} (Ok tt) afterB).
    + by vm_compute.
    + unfold afterB. etrans; [apply surjective_pairing|]. by vm_compute.
  - exists net2. split; [exact Hr|]. split; [exact He|].
    apply (proj2 (Hiff net2 Hr He)); [apply (bool_decide_unpack _); by vm_compute|eexists; by vm_compute|by vm_compute].
Defined.

Lemma broadcast_terminates_witness :
  spread (fun l => offsets 9 (Z.of_nat l)) 9 5 0 (Z.to_nat (levelsFor 9)) = broadcastSpread 9 0 /\
  (length (broadcastSpread 9 0) <= 3 ^ Z.to_nat (levelsFor 9) - 1)%nat.
Proof. apply (broadcast_terminates 9 0 5). apply (bool_decide_unpack _). by vm_compute. Defined.
End P2PToy.
