(* ===== verification/Background.v ===== *)
(** The unicast router that reads incoming streams and the background (gossip) router
    (src/p2p/unicast/router.go, src/p2p/background/router.go), with the configuration of the
    routers (src/p2p/config/config.go).

    Gossipsub and the DHT are the parameters [PubSubPrims]; what the router publishes on its
    topic is recorded in its state.  The goroutines that read a stream or the subscription are
    the functions [readStream] and [readSubscription] on what the library hands them. *)

From S2P Require Import Prelude GoStd GoSort GoFloat Errors Crypto CoreTypes Peers Libp2p RainTree.
#[local] Open Scope string_scope.
#[local] Open Scope Z_scope.

(** ** Configuration (config.go): which of the fields are set *)
Record baseConfig := { cfgHost : bool; cfgAddr : bool; cfgCurrentHeightProvider : bool; cfgPeerstoreProvider : bool; cfgHandler : bool }.

Definition appendIf (missing : bool) (msg : string) (err : option P2PErr) : option P2PErr :=
  if missing then multierrAppend err (Some (ErrText msg)) else err.

Definition baseConfig_IsValid (cfg : baseConfig) : option P2PErr :=
  appendIf (negb (cfgHandler cfg)) "handler not configured"
    (appendIf (negb (cfgPeerstoreProvider cfg)) "peerstore provider not configured"
      (appendIf (negb (cfgHost cfg)) "host not configured"
        (appendIf (negb (cfgCurrentHeightProvider cfg)) "current height provider not configured"
          (appendIf (negb (cfgAddr cfg)) "pokt address not configured" None)))).

Definition BackgroundConfig_IsValid (cfg : baseConfig) : option P2PErr := baseConfig_IsValid cfg.
Definition RainTreeConfig_IsValid (cfg : baseConfig) : option P2PErr := baseConfig_IsValid cfg.

Record UnicastRouterConfig := { ucLogger : bool; ucHost : bool; ucProtocolID : string; ucMessageHandler : bool; ucPeerHandler : bool }.

Definition UnicastRouterConfig_IsValid (cfg : UnicastRouterConfig) : option P2PErr :=
  appendIf (negb (ucPeerHandler cfg)) "peer handler not configured"
    (appendIf (negb (ucMessageHandler cfg)) "message handler not configured"
      (appendIf (bool_decide (ucProtocolID cfg = "")) "protocol id not configured"
        (appendIf (negb (ucHost cfg)) "host not configured"
          (appendIf (negb (ucLogger cfg)) "logger not configured" None)))).

(** A configuration is accepted exactly when every field is set. *)
Lemma baseConfig_IsValid_spec cfg :
  baseConfig_IsValid cfg = None <->
  cfgHost cfg = true /\ cfgAddr cfg = true /\ cfgCurrentHeightProvider cfg = true /\ cfgPeerstoreProvider cfg = true /\ cfgHandler cfg = true.
Proof. destruct cfg as [[] [] [] [] []]; cbn; naive_solver. Qed.

(** ** Unicast: one incoming stream *)
Module Unicast.
Section unicast.
Context `{CryptoPrims} {St : Type}.
Context (peerHandler : NetworkPeer -> M St P2PErr unit) (messageHandler : bytes -> M St P2PErr unit).

(** A read error resets the stream; an error of the handler is logged. *)
Definition readStream (stream : Stream) : M St P2PErr unit :=
  match streamData stream with
  | inl _ => mret tt
  | inr messageBz => RainTree.logged (messageHandler messageBz)
  end.

(** When the remote peer cannot be identified, the code asks the nil peer for its address. *)
Definition handleStream (stream : Stream) : M St P2PErr unit :=
  match PeerFromLibp2pStream stream with
  | Ok peer => RainTree.logged (peerHandler peer) ;; readStream stream
  | Err _ => panic
  | Panic => panic
  end.
End unicast.
End Unicast.

(** ** The background router *)
Module Background.
Import Pstore.

Record backgroundRouter := {
  bgPstore : PeerAddrMap;
  bgPublished : list bytes;      (* messages published on the topic *)
  bgClosed : bool;
}.

Class PubSubPrims := {
  dhtNewErr : option string;
  gossipSubErr : option string;
  registerValidatorErr : option string;
  joinErr : option string;
  subscribeErr : option string;
  publishErr : bytes -> option string;
  topicCloseErr : option (option string);   (* [Some None] is [context.Canceled] *)
  dhtCloseErr : option string;
}.

Section router.
Context `{GoMapOrder} `{RainTree.Providers} `{P2PCodec} `{CryptoPrims} `{NetPrims} `{Libp2pPrims} `{PubSubPrims}.
Notation HM := (M HostState P2PErr).
Notation BM := (M (backgroundRouter * HostState) P2PErr).

Definition onHost {A} (m : HM A) : BM A := fun '(r, h) => let '(x, h') := m h in (x, (r, h')).
Definition setPstore (ps : PeerAddrMap) (r : backgroundRouter) : backgroundRouter :=
  {| bgPstore := ps; bgPublished := bgPublished r; bgClosed := bgClosed r |}.
Definition modifyRouter (f : backgroundRouter -> backgroundRouter) : BM unit := modify (fun '(r, h) => (f r, h)).
Definition failIf (e : option string) (msg : string) : BM unit :=
  match e with Some t => fail (ErrWrap msg (ErrText t)) | None => mret tt end.

Definition GetPeerstore (r : backgroundRouter) : PeerAddrMap := bgPstore r.

Definition Broadcast (pocketEnvelopeBz : slice) : BM unit :=
  match marshalBackground {| BGData := pocketEnvelopeBz |} with
  | None => fail (ErrText "marshalling")
  | Some backgroundMsgBz =>
      match publishErr backgroundMsgBz with
      | Some e => fail (ErrText e)
      | None => modifyRouter (fun r => {| bgPstore := bgPstore r; bgPublished := bgPublished r ++ [backgroundMsgBz]; bgClosed := bgClosed r |})
      end
  end.

Definition Send (pocketEnvelopeBz : slice) (addr : bytes) : BM unit :=
  match marshalBackground {| BGData := pocketEnvelopeBz |} with
  | None => fail (ErrWrap "marshalling background message" (ErrText "marshalling"))
  | Some backgroundMessageBz =>
      rh ← get;
      match GetPeer (bgPstore rh.1) addr with
      | None => fail (ErrText ("peer with address " +:+ Address_String addr +:+ " not in peerstore"))
      | Some peer => onHost (Libp2pSendToPeer BackgroundProtocolID backgroundMessageBz peer)
      end
  end.

Definition AddPeer (peer : NetworkPeer) : BM unit :=
  rh ← get;
  match GetPeer (bgPstore rh.1) (GetAddress peer) with
  | Some _ => mret tt
  | None =>
      onHost (AddPeerToLibp2pHost peer) ;;
      rh' ← get;
      match Pstore.AddPeer (bgPstore rh'.1) peer with
      | Ok ps => modifyRouter (setPstore ps)
      | Err _ => fail (ErrText "peer exists, remove first")
      | Panic => panic
      end
  end.

Definition RemovePeer (peer : NetworkPeer) : BM unit :=
  onHost (RemovePeerFromLibp2pHost peer) ;;
  modifyRouter (fun r => setPstore (Pstore.RemovePeer (bgPstore r) (GetAddress peer)) r).

(** The loop stops at the first error, and returns when it meets the host itself. *)
Fixpoint bootstrapLoop (peers : PeerList) : BM unit :=
  match peers with
  | [] => mret tt
  | peer :: rest =>
      onHost (AddPeerToLibp2pHost peer) ;;
      info ← of_res (match Libp2pAddrInfoFromPeer peer with
                     | Err e => Err (ErrWrap ("converting peer info, pokt address: " +:+ Address_String (GetAddress peer)) e) | r => r end);
      rh ← get;
      if bool_decide (hostID rh.2 = infoID info) then mret tt else
      match connectErr rh.2 (infoID info) with
      | Some e => fail (ErrWrap "connecting to peer" (ErrText e))
      | None =>
          modify (fun '(r, h) => (r, {| hostID := hostID h; hostAddrs := hostAddrs h; hostKeys := hostKeys h; hostSent := hostSent h;
                                        hostConnected := hostConnected h ++ [infoID info] |})) ;;
          bootstrapLoop rest
      end
  end.

Definition bootstrap : BM unit := rh ← get; bootstrapLoop (GetPeerList (bgPstore rh.1)).

Definition setupPeerstore : BM unit :=
  ps ← of_res (RainTree.GetStakedPeerstoreAtHeight RainTree.CurrentHeight);
  modifyRouter (setPstore ps) ;;
  wrap_err (ErrWrap "bootstrapping peerstore") bootstrap.

Definition setupTopic : BM unit :=
  failIf registerValidatorErr "registering topic validator for topic" ;;
  failIf joinErr "joining background topic".

Definition setupDependencies : BM unit :=
  failIf dhtNewErr "setting up peer discovery" ;;
  failIf gossipSubErr "setting up pubsub" ;;
  wrap_err (ErrWrap "setting up topic") setupTopic ;;
  failIf subscribeErr "setting up subscription" ;;
  wrap_err (ErrWrap "setting up peerstore") setupPeerstore.

Definition Create : HM backgroundRouter := fun h =>
  match setupDependencies ({| bgPstore := ∅; bgPublished := []; bgClosed := false |}, h) with
  | (Ok _, (r, h')) => (Ok r, h')
  | (Err e, (_, h')) => (Err e, h')
  | (Panic, (_, h')) => (Panic, h')
  end.

Definition Close : BM unit :=
  modifyRouter (fun r => {| bgPstore := bgPstore r; bgPublished := bgPublished r; bgClosed := true |}) ;;
  let topicErr := match topicCloseErr with Some (Some e) => Some (ErrText e) | _ => None end in
  match multierrAppend topicErr (ErrText <$> dhtCloseErr) with Some e => fail e | None => mret tt end.

(** Messages that do not hold an envelope are not propagated. *)
Definition topicValidator (msgData : bytes) : bool :=
  match unmarshalBackground msgData with
  | None => false
  | Some msg => match BGData msg with
                | None => false
                | Some d => match unmarshalEnvelope d with Some _ => true | None => false end
                end
  end.

Definition handleBackgroundMsg {St} (handler : bytes -> M St P2PErr unit) (backgroundMsgBz : bytes) : M St P2PErr unit :=
  match unmarshalBackground backgroundMsgBz with
  | None => fail (ErrText "unmarshalling background message")
  | Some msg => match BGData msg with None => mret tt | Some d => handler d end
  end.

(** What the subscription hands to the loop: the context is done, an error, or a message. *)
Inductive SubEvent := CtxDone | NextErr | NextMsg (data : bytes).

Fixpoint readSubscription {St} (handler : bytes -> M St P2PErr unit) (evts : list SubEvent) : M St P2PErr unit :=
  match evts with
  | [] | CtxDone :: _ => mret tt
  | NextErr :: rest => readSubscription handler rest
  | NextMsg data :: rest => RainTree.logged (handleBackgroundMsg handler data) ;; readSubscription handler rest
  end.
End router.
End Background.
