(* ===== verification/P2P.v ===== *)
(** The P2P module (src/p2p/module.go, event_handler.go, bootstrap.go, utils/nonce_deduper.go,
    providers/peerstore_provider/persistence): two routers behind one interface, the removal of
    duplicate envelopes, and the update of the staked router at a new height.

    The state is the module with its host and routers and the events it has published on the
    bus.  The nonce of an outgoing envelope is an argument, the peerstore provider and the
    current height are the class [Providers], and the remote calls of a bootstrap are
    parameters.  Telemetry, logging and the module registry are left out. *)

From S2P Require Import Prelude GoStd GoSort GoFloat Errors Crypto CoreTypes FifoSet Peers Libp2p RainTree Background.
#[local] Open Scope string_scope.
#[local] Open Scope Z_scope.

Module P2P.
Import Pstore Background.

(** ** Deduplication (utils/nonce_deduper.go) *)
Notation NonceDeduper := (@FIFOSet.GenericFIFOSet Z Z _ _).
Definition deduperOptions : @FIFOSet.Options Z Z unit unit _ _ := FIFOSet.defaultOptions id.
(** [int(capacity)] of a uint64. *)
Definition NewNonceDeduper (capacity : Z) : NonceDeduper := FIFOSet.NewGenericFIFOSet (i64 capacity).

Record p2pModule := {
  started : bool;
  address : bytes;
  maxNonces : Z;
  bootstrapNodes : list string;
  nonceDeduper : NonceDeduper;
  stakedActorRouter : option RainTree.rainTreeRouter;
  unstakedActorRouter : option backgroundRouter;
  host : option HostState;
  published : list PocketEnvelope;     (* events put on the bus *)
  fsmEvents : list string;             (* events sent to the state machine *)
}.

Definition set_started b m := {| started := b; address := address m; maxNonces := maxNonces m; bootstrapNodes := bootstrapNodes m; nonceDeduper := nonceDeduper m; stakedActorRouter := stakedActorRouter m; unstakedActorRouter := unstakedActorRouter m; host := host m; published := published m; fsmEvents := fsmEvents m |}.
Definition set_deduper d m := {| started := started m; address := address m; maxNonces := maxNonces m; bootstrapNodes := bootstrapNodes m; nonceDeduper := d; stakedActorRouter := stakedActorRouter m; unstakedActorRouter := unstakedActorRouter m; host := host m; published := published m; fsmEvents := fsmEvents m |}.
Definition set_staked r m := {| started := started m; address := address m; maxNonces := maxNonces m; bootstrapNodes := bootstrapNodes m; nonceDeduper := nonceDeduper m; stakedActorRouter := r; unstakedActorRouter := unstakedActorRouter m; host := host m; published := published m; fsmEvents := fsmEvents m |}.
Definition set_unstaked r m := {| started := started m; address := address m; maxNonces := maxNonces m; bootstrapNodes := bootstrapNodes m; nonceDeduper := nonceDeduper m; stakedActorRouter := stakedActorRouter m; unstakedActorRouter := r; host := host m; published := published m; fsmEvents := fsmEvents m |}.
Definition set_host h m := {| started := started m; address := address m; maxNonces := maxNonces m; bootstrapNodes := bootstrapNodes m; nonceDeduper := nonceDeduper m; stakedActorRouter := stakedActorRouter m; unstakedActorRouter := unstakedActorRouter m; host := h; published := published m; fsmEvents := fsmEvents m |}.
Definition set_published l m := {| started := started m; address := address m; maxNonces := maxNonces m; bootstrapNodes := bootstrapNodes m; nonceDeduper := nonceDeduper m; stakedActorRouter := stakedActorRouter m; unstakedActorRouter := unstakedActorRouter m; host := host m; published := l; fsmEvents := fsmEvents m |}.
Definition set_fsmEvents l m := {| started := started m; address := address m; maxNonces := maxNonces m; bootstrapNodes := bootstrapNodes m; nonceDeduper := nonceDeduper m; stakedActorRouter := stakedActorRouter m; unstakedActorRouter := unstakedActorRouter m; host := host m; published := published m; fsmEvents := l |}.
Definition set_bootstrapNodes l m := {| started := started m; address := address m; maxNonces := maxNonces m; bootstrapNodes := l; nonceDeduper := nonceDeduper m; stakedActorRouter := stakedActorRouter m; unstakedActorRouter := unstakedActorRouter m; host := host m; published := published m; fsmEvents := fsmEvents m |}.

Section module.
Context `{GoMapOrder} `{GoConversion} `{RainTree.Providers} `{P2PCodec} `{CryptoPrims} `{NetPrims} `{Libp2pPrims} `{PubSubPrims}.
Notation PM := (M p2pModule P2PErr).

(** Running a router's operation: a nil router or host is a nil dereference. *)
Definition onStaked {A} (f : M (RainTree.rainTreeRouter * HostState) P2PErr A) : PM A := fun m =>
  match stakedActorRouter m, host m with
  | Some r, Some h => let '(x, (r', h')) := f (r, h) in (x, set_host (Some h') (set_staked (Some r') m))
  | _, _ => (Panic, m)
  end.
Definition stakedHost (f : RainTree.rainTreeRouter -> M HostState P2PErr unit) : PM unit :=
  onStaked (fun '(r, h) => let '(x, h') := f r h in (x, (r, h'))).
Definition onUnstaked {A} (f : M (backgroundRouter * HostState) P2PErr A) : PM A := fun m =>
  match unstakedActorRouter m, host m with
  | Some r, Some h => let '(x, (r', h')) := f (r, h) in (x, set_host (Some h') (set_unstaked (Some r') m))
  | _, _ => (Panic, m)
  end.

(** ** Staked actors *)
Definition getStakedPeerstore : res P2PErr PeerAddrMap := RainTree.GetStakedPeerstoreAtHeight RainTree.CurrentHeight.

Definition isStakedActor : PM bool :=
  pstore ← of_res (match getStakedPeerstore with Err e => Err (ErrWrap "getting staked peerstore" e) | r => r end);
  m ← get;
  mret (match GetPeer pstore (address m) with Some _ => true | None => false end).

(** ** Incoming envelopes *)
Definition isNonceAlreadyObserved (nonce : Z) : PM bool := gets (fun m => FIFOSet.Contains deduperOptions nonce (nonceDeduper m)).

Definition observeNonce (nonce : Z) : PM unit :=
  m ← get;
  match FIFOSet.Push deduperOptions nonce (nonceDeduper m) tt with
  | (None, (d, _)) => put (set_deduper d m)
  | (Some _, (d, _)) => put (set_deduper d m) ;; fail (ErrText "item already exists")
  end.

Definition handlePocketEnvelope (pocketEnvelopeBz : bytes) : PM unit :=
  match unmarshalEnvelope pocketEnvelopeBz with
  | None => fail (ErrWrap "decoding network message" (ErrText "unmarshalling"))
  | Some poktEnvelope =>
      seen ← isNonceAlreadyObserved (Nonce poktEnvelope);
      if (seen : bool) then mret tt else
      wrap_err (ErrWrap "pocket envelope nonce") (observeNonce (Nonce poktEnvelope)) ;;
      modify (fun m => set_published (published m ++ [{| Content := Content poktEnvelope; Nonce := 0 |}]) m)
  end.

(** The message handlers of the two routers, with the module behind them. *)
Definition stakedMessage (bz : bytes) : PM unit := fun m =>
  match stakedActorRouter m with
  | Some rtr => RainTree.handleRainTreeMsg (fun p => stakedHost (fun _ => p)) handlePocketEnvelope rtr bz m
  | None => (Panic, m)
  end.
Definition unstakedMessage (bz : bytes) : PM unit := handleBackgroundMsg handlePocketEnvelope bz.

(** ** Outgoing envelopes *)
Definition Broadcast (msg : Any) (nonce : Z) : PM unit :=
  isStaked ← isStakedActor;
  m ← get;
  if (isStaked : bool) && (match stakedActorRouter m with None => true | Some _ => false end)
  then fail (ErrText "broadcasting: staked actor router not started") else
  if (match unstakedActorRouter m with None => true | Some _ => false end)
  then fail (ErrText "broadcasting: unstaked actor router not started") else
  match marshalEnvelope {| Content := Some msg; Nonce := nonce |} with
  | None => fail (ErrText "marshalling")
  | Some poktEnvelopeBz => fun m =>
      let '(stakedErr, m1) := if isStaked then stakedHost (fun r => RainTree.Broadcast r (Some poktEnvelopeBz)) m else (Ok tt, m) in
      match stakedErr with
      | Panic => (Panic, m1)
      | _ =>
          let '(unstakedErr, m2) := onUnstaked (Background.Broadcast (Some poktEnvelopeBz)) m1 in
          match unstakedErr with
          | Panic => (Panic, m2)
          | _ =>
              match multierrAppend (match stakedErr with Err e => Some e | _ => None end)
                                   (match unstakedErr with Err e => Some e | _ => None end) with
              | Some e => (Err e, m2)
              | None => (Ok tt, m2)
              end
          end
      end
  end.

(** An error of the staked router other than an unknown peer is dropped. *)
Definition Send (addr : bytes) (msg : Any) (nonce : Z) : PM unit :=
  match marshalEnvelope {| Content := Some msg; Nonce := nonce |} with
  | None => fail (ErrText "marshalling")
  | Some poktEnvelopeBz =>
      isStaked ← isStakedActor;
      if negb isStaked then onUnstaked (Background.Send (Some poktEnvelopeBz) addr) else fun m =>
      match stakedHost (fun r => RainTree.Send r (Some poktEnvelopeBz) addr) m with
      | (Panic, m1) => (Panic, m1)
      | (Ok _, m1) => (Ok tt, m1)
      | (Err e, m1) =>
          if isUnknownPeer e then onUnstaked (Background.Send (Some poktEnvelopeBz) addr) m1 else (Ok tt, m1)
      end
  end.

Definition GetAddress (m : p2pModule) : bytes := address m.

(** ** Setting up *)
Definition setupNonceDeduper : PM unit :=
  m ← get;
  if maxNonces m =? 0 then fail (ErrText "max nonces must be greater than 0")
  else put (set_deduper (NewNonceDeduper (maxNonces m)) m).

(** Running a constructor that works on the host. *)
Definition withHost {A} (f : M HostState P2PErr A) : PM A := fun m =>
  match host m with
  | Some h => let '(x, h') := f h in (x, set_host (Some h') m)
  | None => (Err (ErrText "host not configured"), m)      (* the check of the router configuration *)
  end.

Definition setupStakedRouter : PM unit :=
  m ← get;
  match stakedActorRouter m with
  | Some _ => mret tt
  | None =>
      isStaked ← isStakedActor;
      if negb isStaked then mret tt else
      rtr ← wrap_err (ErrWrap "setting up staked actor router") (withHost (RainTree.Create (address m)));
      modify (set_staked (Some rtr))
  end.

Definition setupUnstakedRouter : PM unit :=
  m ← get;
  match unstakedActorRouter m with
  | Some _ => mret tt
  | None =>
      rtr ← wrap_err (ErrWrap "unstaked actor router") (withHost Background.Create);
      modify (set_unstaked (Some rtr))
  end.

Definition setupRouters : PM unit := setupStakedRouter ;; setupUnstakedRouter.

(** [libp2p.New]: the host it returns, or its error. *)
Context (libp2pNew : string + HostState).

Definition setupHost : PM unit :=
  match libp2pNew with
  | inl e => fail (ErrWrap "unable to create libp2p host" (ErrText e))
  | inr h => modify (set_host (Some h))
  end.

(** The flag is set before anything that can fail. *)
Definition Start : PM unit :=
  m ← get;
  if started m then fail (ErrText "p2p module already started") else
  put (set_started true m) ;;
  (match host m with Some _ => mret tt | None => wrap_err (ErrWrap "setting up libp2pHost") setupHost end) ;;
  wrap_err (ErrWrap "setting up routers") setupRouters.

Context (hostCloseErr : option string).

Definition Stop : PM unit :=
  m ← get;
  if negb (started m) then fail (ErrText "p2p module already stopped") else
  put (set_started false m) ;;
  ((fun m => match onUnstaked Background.Close m with
            | (Panic, m1) => (Panic, m1)
            | (r, m1) =>
                match host m1 with
                | None => (Panic, m1)
                | Some _ =>
                    let m2 := set_unstaked None (set_staked None (set_host None m1)) in
                    match multierrAppend (match r with Err e => Some e | _ => None end) (ErrText <$> hostCloseErr) with
                    | Some e => (Err e, m2)
                    | None => (Ok tt, m2)
                    end
                end
            end) : PM unit).

(** ** Bootstrapping (bootstrap.go) *)

(** The answers of a bootstrap node: whether the client can be made, whether it is healthy, and
    the two results of asking for its staked peers at its height ([Err] when the provider cannot
    be created, [Panic] when the height cannot be had, which ends the process). *)
Context (rpcClientOk : string -> bool) (rpcHealthy : string -> bool).
Context (rpcStakedPeerstore : string -> res P2PErr (option PeerAddrMap * option P2PErr)).

(** The variable [pstore] starts as nil and takes the answer of every healthy node, also when it
    comes with an error. *)
Fixpoint bootstrapFrom (nodes : list string) (pstore : option PeerAddrMap) : res P2PErr (option PeerAddrMap) :=
  match nodes with
  | [] => Ok pstore
  | node :: rest =>
      if negb (rpcClientOk node) then bootstrapFrom rest pstore
      else if negb (rpcHealthy node) then bootstrapFrom rest pstore
      else match rpcStakedPeerstore node with
           | Ok (ps, _) => bootstrapFrom rest ps
           | Err e => Err (ErrWrap "creating RPC peerstore provider" e)
           | Panic => Panic
           end
  end.

Definition bootstrap : PM unit :=
  m ← get;
  pstore ← of_res (bootstrapFrom (bootstrapNodes m) None);
  match pstore with
  | None => panic                                     (* [GetPeerList] of a nil peerstore *)
  | Some ps =>
      forM (GetPeerList ps) (fun peer => RainTree.logged (onStaked (RainTree.AddPeer peer))) ;;
      m' ← get;
      match stakedActorRouter m' with
      | None => panic
      | Some r => if (Size (RainTree.GetPeerstore r) =? 0)%nat then fail (ErrText "bootstrap failed") else mret tt
      end
  end.

(** ** Events (event_handler.go) *)
Inductive P2PEvent :=
| ConsensusNewHeightEvent (height : Z)
| StateMachineTransitionEvent (newState : string)
| OtherEvent (name : string).

Definition P2P_Bootstrapping : string := "P2P_Bootstrapping".
Definition P2P_IsBootstrapped : string := "P2P_IsBootstrapped".

Context (sendFsmEvent : string -> option string).

Definition newHeight (height : Z) : PM unit :=
  isStaked ← isStakedActor;
  if negb isStaked then mret tt else
  m ← get;
  match stakedActorRouter m with
  | None => panic
  | Some rtr =>
      let oldPeerList := GetPeerList (RainTree.GetPeerstore rtr) in
      updatedPeerstore ← of_res (RainTree.GetStakedPeerstoreAtHeight height);
      match Delta oldPeerList (GetPeerList updatedPeerstore) with
      | Ok (added, removed) =>
          forM added (fun p => onStaked (RainTree.AddPeer p)) ;;
          forM removed (fun p => onStaked (RainTree.RemovePeer p))
      | _ => panic
      end
  end.

Definition stateTransition (newState : string) : PM unit :=
  if negb (bool_decide (newState = P2P_Bootstrapping)) then mret tt else
  staked ← isStakedActor;
  (if (staked : bool) then
     m ← get;
     match stakedActorRouter m with
     | None => panic
     | Some r => if (Size (RainTree.GetPeerstore r) =? 0)%nat then bootstrap else mret tt
     end
   else mret tt) ;;
  match sendFsmEvent P2P_IsBootstrapped with
  | Some e => fail (ErrText e)
  | None => modify (fun m => set_fsmEvents (fsmEvents m ++ [P2P_IsBootstrapped]) m)
  end.

Definition HandleEvent (evt : P2PEvent) : PM unit :=
  match evt with
  | ConsensusNewHeightEvent height => newHeight height
  | StateMachineTransitionEvent newState => stateTransition newState
  | OtherEvent name => fail (ErrText ("unknown event type: " +:+ name))
  end.
End module.

(** ** Validation of bootstrap nodes *)
Definition isHostChar (c : Ascii.ascii) : bool :=
  let n := Ascii.nat_of_ascii c in
  ((97 <=? n) && (n <=? 122) || (65 <=? n) && (n <=? 90) || (48 <=? n) && (n <=? 57) || (n =? 46) || (n =? 45))%nat.
Definition isDigitChar (c : Ascii.ascii) : bool := let n := Ascii.nat_of_ascii c in ((48 <=? n) && (n <=? 57))%nat.

Fixpoint forallChars (f : Ascii.ascii -> bool) (s : string) : bool :=
  match s with EmptyString => true | String c s' => f c && forallChars f s' end.

(** The text before and after the first colon. *)
Fixpoint splitColon (s : string) : option (string * string) :=
  match s with
  | EmptyString => None
  | String c s' =>
      if (Ascii.nat_of_ascii c =? 58)%nat then Some ("", s')
      else (fun p => (String c p.1, p.2)) <$> splitColon s'
  end.

(** [s] without the prefix [p]. *)
Fixpoint stripPrefix (p s : string) : option string :=
  match p, s with
  | EmptyString, _ => Some s
  | String a p', String b s' => if Ascii.eqb a b then stripPrefix p' s' else None
  | _, _ => None
  end.

(** The expression [^(https?)://([a-zA-Z0-9.-]+):(\d{1,5})$]: a host has no colon, so the first
    colon after the scheme ends it. *)
Definition isValidHostnamePort (str : string) : bool :=
  match (match stripPrefix "http://" str with Some r => Some r | None => stripPrefix "https://" str end) with
  | None => false
  | Some rest =>
      match splitColon rest with
      | None => false
      | Some (hostname, portText) =>
          if negb (bool_decide (hostname = "")) && forallChars isHostChar hostname
             && forallChars isDigitChar portText && (1 <=? String.length portText)%nat && (String.length portText <=? 5)%nat
          then match atoi portText with
               | None => false
               | Some port => negb ((port <? 0) || (65535 <? port))
               end
          else false
      end
  end.

(** [strings.Trim(s, " ")]. *)
Fixpoint trimLeft (s : string) : string :=
  match s with String c s' => if (Ascii.nat_of_ascii c =? 32)%nat then trimLeft s' else s | EmptyString => "" end.
Fixpoint trimRight (s : string) : string :=
  match s with
  | EmptyString => ""
  | String c s' => match trimRight s' with
                   | EmptyString => if (Ascii.nat_of_ascii c =? 32)%nat then "" else String c ""
                   | t => String c t
                   end
  end.
Definition trimSpaces (s : string) : string := trimRight (trimLeft s).

Section bootstrapConfig.
Context (csvRead : string -> string + list string) (defaultNodesCsv : string).

Fixpoint validateNodes (nodes : list string) : res P2PErr (list string) :=
  match nodes with
  | [] => Ok []
  | n :: rest =>
      let node := trimSpaces n in
      if negb (isValidHostnamePort node) then Err (ErrText ("invalid bootstrap node: " +:+ node)) else
      match validateNodes rest with Ok l => Ok (node :: l) | r => r end
  end.

Definition configureBootstrapNodes (nodesCsv : string) : M p2pModule P2PErr unit :=
  let csv := trimSpaces nodesCsv in
  let csv := if bool_decide (csv = "") then defaultNodesCsv else csv in
  match csvRead csv with
  | inl e => fail (ErrWrap "error parsing bootstrap nodes" (ErrText e))
  | inr nodes => l ← of_res (validateNodes nodes); modify (set_bootstrapNodes l)
  end.
End bootstrapConfig.
End P2P.
