(* ===== verification/P2PFacts.v ===== *)
(** Properties of the P2P module: duplicates of an envelope within the capacity of the deduper
    are delivered once, the staked router follows the staked peers at a new height, and what
    happens on the error paths of sending, starting and bootstrapping. *)

From S2P Require Import Prelude GoStd GoSort GoFloat Errors Crypto CoreTypes FifoSet Peers Libp2p RainTree RainTreeFacts Background P2P P2PToy.
#[local] Open Scope Z_scope.

Module P2PFacts.
Import Pstore PeersFacts PeerManager PeerManagerFacts RainTree RainTreeFacts P2P.

(** ** Deduplication *)
Section dedup.
Context `{P2PCodec}.

(** The nonces accepted while a list of envelopes arrives: those whose envelope is published. *)
Fixpoint receive (l : list bytes) (m : p2pModule) (acc : list Z) : p2pModule * list Z :=
  match l with
  | [] => (m, acc)
  | b :: rest =>
      let m' := (handlePocketEnvelope b m).2 in
      let acc' := match unmarshalEnvelope b with
                  | Some e => if (length (published m) <? length (published m'))%nat then acc ++ [Nonce e] else acc
                  | None => acc
                  end in
      receive rest m' acc'
  end.

(** The deduper holds the last [c] accepted nonces, and no nonce was accepted twice within
    [c + 1] consecutive ones. *)
Definition window (c : nat) (acc : list Z) : Prop :=
  forall i j x, (i < j)%nat -> acc !! i = Some x -> acc !! j = Some x -> (c < j - i)%nat.

Definition dedupInv (c : nat) (acc : list Z) (d : NonceDeduper) : Prop :=
  FIFOSet.capacity d = Z.of_nat c /\ FIFOSet.queue d = drop (length acc - c) acc /\
  FIFOSet.set d = list_to_set (FIFOSet.queue d) /\ window c acc.

Lemma window_suffix_NoDup c acc : window c acc -> NoDup (drop (length acc - c) acc).
Proof.
  intros Hw. apply NoDup_alt. intros i j x Hi Hj. rewrite lookup_drop in Hi, Hj.
  pose proof (lookup_lt_Some _ _ _ Hi). pose proof (lookup_lt_Some _ _ _ Hj).
  destruct (Nat.lt_trichotomy i j) as [Hl|[He|Hl]]; [|done|].
  - pose proof (Hw (length acc - c + i)%nat (length acc - c + j)%nat x ltac:(lia) Hi Hj). lia.
  - pose proof (Hw (length acc - c + j)%nat (length acc - c + i)%nat x ltac:(lia) Hj Hi). lia.
Qed.

Lemma window_snoc c acc x : window c acc -> x ∉ drop (length acc - c) acc -> window c (acc ++ [x]).
Proof.
  intros Hw Hx i j y Hij Hi Hj. pose proof (lookup_lt_Some _ _ _ Hj) as Hl. rewrite length_app in Hl. cbn in Hl.
  rewrite lookup_app_l in Hi by lia. destruct (decide (j < length acc)%nat) as [Hlt|Hge].
  - rewrite lookup_app_l in Hj by lia. by eapply Hw.
  - assert (j = length acc) as -> by lia. rewrite list_lookup_middle in Hj by done. injection Hj as <-.
    destruct (decide (c < length acc - i)%nat); [done|]. destruct Hx. apply list_elem_of_lookup. exists (i - (length acc - c))%nat.
    rewrite lookup_drop. rewrite <- Hi. f_equal. lia.
Qed.

Lemma push_new c acc d x :
  (1 <= c)%nat -> dedupInv c acc d -> x ∉ FIFOSet.set d ->
  exists d', FIFOSet.Push deduperOptions x d tt = (None, (d', tt)) /\ dedupInv c (acc ++ [x]) d'.
Proof.
  intros Hc (Hcap & Hq & Hs & Hw) Hx. unfold FIFOSet.Push, deduperOptions, FIFOSet.defaultOptions. cbn [FIFOSet.indexerFn FIFOSet.isOverflowing FIFOSet.onAdd FIFOSet.onRemove id].
  rewrite bool_decide_eq_false_2 by done. unfold FIFOSet.noop, FIFOSet.overCapacity. cbn [FIFOSet.capacity FIFOSet.queue FIFOSet.set].
  assert (x ∉ drop (length acc - c) acc) as Hxq by (rewrite Hs, Hq in Hx; set_solver).
  pose proof (window_suffix_NoDup c acc Hw) as Hnd. pose proof (window_snoc c acc x Hw Hxq) as Hw'.
  rewrite Hcap, length_app, Hq, length_drop. cbn [length].
  case_bool_decide as Hover.
  - assert (c <= length acc)%nat as Hle by lia.
    destruct (drop (length acc - c) acc) as [|f q] eqn:Hd; [apply (f_equal length) in Hd; rewrite length_drop in Hd; cbn in Hd; lia|].
    cbn [app]. eexists. split; [done|]. unfold dedupInv. cbn [FIFOSet.capacity FIFOSet.queue FIFOSet.set]. split; [done|].
    rewrite length_app. cbn [length]. split; [|split; [|done]].
    + replace (length acc + 1 - c)%nat with (S (length acc - c)) by lia. rewrite drop_app_le by lia.
      replace (S (length acc - c)) with (length acc - c + 1)%nat by lia. rewrite <- drop_drop, Hd. done.
    + rewrite Hs, Hq, ?Hd. cbn. apply NoDup_cons in Hnd as [Hnf _]. set_solver.
  - eexists. split; [done|]. unfold dedupInv. cbn [FIFOSet.capacity FIFOSet.queue FIFOSet.set]. split; [done|].
    rewrite length_app. cbn [length]. replace (length acc - c)%nat with 0%nat by lia. replace (length acc + 1 - c)%nat with 0%nat by lia.
    split; [done|]. split; [|done]. rewrite Hs, Hq. replace (length acc - c)%nat with 0%nat by lia. rewrite drop_0. set_solver.
Qed.

Lemma envelope_seen b e m : unmarshalEnvelope b = Some e -> Nonce e ∈ FIFOSet.set (nonceDeduper m) -> handlePocketEnvelope b m = (Ok tt, m).
Proof.
  intros Hb Hin. unfold handlePocketEnvelope. rewrite Hb. erewrite bind_run by done.
  unfold FIFOSet.Contains, deduperOptions, FIFOSet.defaultOptions. cbn [FIFOSet.indexerFn]. by rewrite bool_decide_eq_true_2.
Qed.

Lemma envelope_new b e m d' :
  unmarshalEnvelope b = Some e -> Nonce e ∉ FIFOSet.set (nonceDeduper m) ->
  FIFOSet.Push deduperOptions (Nonce e) (nonceDeduper m) tt = (None, (d', tt)) ->
  handlePocketEnvelope b m = (Ok tt, set_published (published m ++ [{| Content := Content e; Nonce := 0 |}]) (set_deduper d' m)).
Proof.
  intros Hb Hin Hpush. unfold handlePocketEnvelope. rewrite Hb. erewrite bind_run by done.
  unfold FIFOSet.Contains, deduperOptions, FIFOSet.defaultOptions. cbn [FIFOSet.indexerFn]. rewrite bool_decide_eq_false_2 by done.
  unfold mbind at 1, M_bind at 1, wrap_err, observeNonce. rewrite bind_get, Hpush. done.
Qed.

Lemma receive_inv c l : forall m acc,
  (1 <= c)%nat -> dedupInv c acc (nonceDeduper m) ->
  exists acc', (receive l m acc).2 = acc ++ acc' /\ dedupInv c (acc ++ acc') (nonceDeduper (receive l m acc).1) /\
    length (published (receive l m acc).1) = (length (published m) + length acc')%nat.
Proof.
  induction l as [|b l IH]; intros m acc Hc Hinv; [exists []; rewrite app_nil_r; cbn; auto|]. cbn [receive].
  destruct (unmarshalEnvelope b) as [e|] eqn:Hb.
  2:{ unfold handlePocketEnvelope. rewrite Hb. by apply IH. }
  destruct (decide (Nonce e ∈ FIFOSet.set (nonceDeduper m))) as [Hin|Hin].
  { rewrite (envelope_seen b e m Hb Hin). cbn [snd]. rewrite Nat.ltb_irrefl. by apply IH. }
  destruct (push_new c acc (nonceDeduper m) (Nonce e) Hc Hinv Hin) as (d' & Hpush & Hinv').
  rewrite (envelope_new b e m d' Hb Hin Hpush). cbn [snd]. set (m1 := set_published _ _).
  assert (length (published m1) = length (published m) + 1)%nat as Hm1 by (unfold m1; cbn; by rewrite length_app).
  rewrite (proj2 (Nat.ltb_lt _ _)) by lia.
  destruct (IH m1 (acc ++ [Nonce e]) Hc Hinv') as (acc' & Ha & Hi & Hlen).
  exists (Nonce e :: acc'). replace (acc ++ Nonce e :: acc') with ((acc ++ [Nonce e]) ++ acc') by (by rewrite <- app_assoc).
  split; [exact Ha|]. split; [exact Hi|]. cbn [length]. rewrite Hm1 in Hlen. etransitivity; [exact Hlen|]. lia.
Qed.

(** C19: Whatever envelopes arrive, an envelope is published once for every nonce the module
    accepts, and between two acceptances of the same nonce it has accepted at least as many
    other nonces as the capacity of the deduper: a duplicate is delivered again only after it
    was pushed out by that many new envelopes. *)
Theorem envelope_delivered_once (l : list bytes) (m : p2pModule) (c : nat) :
  (1 <= c)%nat -> Z.of_nat c < 2 ^ 63 -> nonceDeduper m = NewNonceDeduper (Z.of_nat c) ->
  let '(m', accepted) := receive l m [] in
  length (published m') = (length (published m) + length accepted)%nat /\
  forall i j x, (i < j)%nat -> accepted !! i = Some x -> accepted !! j = Some x -> (c < j - i)%nat.
Proof.
  intros Hc Hmax Hd. destruct (receive_inv c l m []) as (acc' & Ha & (_ & _ & _ & Hw) & Hlen); [done| |].
  - rewrite Hd. unfold NewNonceDeduper. rewrite i64_small by (unfold in_i64; lia). split; [done|]. split; [done|]. split; [done|].
    intros i j x _ Hi. by rewrite lookup_nil in Hi.
  - destruct (receive l m []) as [m' accepted]. cbn in *. subst accepted. done.
Qed.
End dedup.

(** ** Peers of the staked router *)
Section peers.
Context `{GoMapOrder} `{GoConversion} `{Providers} `{P2PCodec} `{CryptoPrims} `{NetPrims} `{Libp2pPrims}.

(** The libp2p host takes the peer. *)
Definition hostAccepts (p : NetworkPeer) : Prop := forall h, exists h', AddPeerToLibp2pHost p h = (Ok tt, h').

Lemma routerEvent_wf r h evt :
  router_wf r -> PeersSpec.legalEvent (selfAddr r) (GetPeerstore r) evt ->
  exists r', routerEvent evt (r, h) = (Ok tt, (r', h)) /\ router_wf r' /\ selfAddr r' = selfAddr r /\
    GetPeerstore r' = PeersSpec.applyEvent (GetPeerstore r) evt.
Proof.
  intros (Hwf & Hself & Ha & Hd & Hl) Hlegal. rewrite <- Ha in Hlegal.
  destruct (PeersSpec.handle_legal _ evt Hwf Hself Hd Hlegal) as (pm & Hev & Hwf' & Hself' & Hd' & Ha' & Hps).
  unfold routerEvent, RainTree.HandleEvent. rewrite Hev. cbn. eexists. split; [done|]. split; [|split; [done|exact Hps]].
  split; [done|]. split; [done|]. split; [by cbn; rewrite Ha', Ha|]. done.
Qed.

Lemma routerAdd_wf r h p :
  router_wf r -> hostAccepts p -> GetPeerstore r !! peerKey p = None ->
  exists r' h', RainTree.AddPeer p (r, h) = (Ok tt, (r', h')) /\ router_wf r' /\ selfAddr r' = selfAddr r /\
    GetPeerstore r' = <[peerKey p := p]> (GetPeerstore r).
Proof.
  intros Hwf Hacc Hn. destruct (Hacc h) as [h' Hh].
  destruct (routerEvent_wf r h' {| EventType := AddPeerEventType; EventPeer := p |} Hwf Hn) as (r' & Hev & Hwf' & Ha & Hps).
  exists r', h'. split; [|done]. unfold RainTree.AddPeer. rewrite bind_get. cbn [fst]. unfold GetPeer. fold (peerKey p). rewrite Hn.
  erewrite bind_run; [exact Hev|]. cbn. by rewrite Hh.
Qed.

Lemma routerRemove_wf r h p :
  router_wf r -> is_Some (GetPeerstore r !! peerKey p) -> Peers.GetAddress p ≠ selfAddr r ->
  exists r', RainTree.RemovePeer p (r, h) = (Ok tt, (r', h)) /\ router_wf r' /\ selfAddr r' = selfAddr r /\
    GetPeerstore r' = delete (peerKey p) (GetPeerstore r).
Proof. intros Hwf Hin Hne. by apply (routerEvent_wf r h {| EventType := RemovePeerEventType; EventPeer := p |}). Qed.

(** Part of the module that the loops of [newHeight] work on. *)
Definition routerAt (m : p2pModule) (r : rainTreeRouter) (h : HostState) : Prop := stakedActorRouter m = Some r /\ host m = Some h.

Lemma onStaked_run {A} (f : M (rainTreeRouter * HostState) P2PErr A) m r h x r' h' :
  routerAt m r h -> f (r, h) = (x, (r', h')) -> exists m', onStaked f m = (x, m') /\ routerAt m' r' h'.
Proof. intros [Hr Hh] Hf. unfold onStaked. rewrite Hr, Hh, Hf. eexists. split; [done|]. done. Qed.

Lemma add_loop added : forall m r h,
  routerAt m r h -> router_wf r -> NoDup (peerKey <$> added) -> Forall hostAccepts added ->
  (forall p, p ∈ added -> GetPeerstore r !! peerKey p = None) ->
  exists m' r' h', forM added (fun p => onStaked (RainTree.AddPeer p)) m = (Ok tt, m') /\ routerAt m' r' h' /\ router_wf r' /\
    selfAddr r' = selfAddr r /\ GetPeerstore r' = foldl (fun m p => <[peerKey p := p]> m) (GetPeerstore r) added.
Proof.
  induction added as [|p added IH]; intros m r h Hm Hwf Hnd Hacc Hn; [by exists m, r, h|].
  rewrite fmap_cons, NoDup_cons in Hnd. destruct Hnd as [Hp Hnd]. apply Forall_cons in Hacc as [Hap Hacc].
  destruct (routerAdd_wf r h p Hwf Hap (Hn p (list_elem_of_here _ _))) as (r1 & h1 & Hrun & Hwf1 & Ha1 & Hps1).
  destruct (onStaked_run _ m r h _ r1 h1 Hm Hrun) as (m1 & Hm1 & Hat1).
  destruct (IH m1 r1 h1 Hat1 Hwf1 Hnd Hacc) as (m' & r' & h' & Hrun' & Hat' & Hwf' & Ha' & Hps').
  { intros q Hq. rewrite Hps1, lookup_insert_ne; [apply Hn; by apply list_elem_of_further|].
    intros He. apply Hp. rewrite He. by apply list_elem_of_fmap_2. }
  exists m', r', h'. cbn [forM]. erewrite bind_run by exact Hm1. split; [exact Hrun'|]. split; [done|]. split; [done|].
  cbn [foldl]. by rewrite Ha', Hps', Hps1.
Qed.

Lemma remove_loop removed : forall m r h,
  routerAt m r h -> router_wf r -> NoDup (peerKey <$> removed) ->
  (forall p, p ∈ removed -> is_Some (GetPeerstore r !! peerKey p) /\ Peers.GetAddress p ≠ selfAddr r) ->
  exists m' r' h', forM removed (fun p => onStaked (RainTree.RemovePeer p)) m = (Ok tt, m') /\ routerAt m' r' h' /\ router_wf r' /\
    selfAddr r' = selfAddr r /\ GetPeerstore r' = foldl (fun m p => delete (peerKey p) m) (GetPeerstore r) removed.
Proof.
  induction removed as [|p removed IH]; intros m r h Hm Hwf Hnd Hn; [by exists m, r, h|].
  rewrite fmap_cons, NoDup_cons in Hnd. destruct Hnd as [Hp Hnd]. destruct (Hn p (list_elem_of_here _ _)) as [Hin Hne].
  destruct (routerRemove_wf r h p Hwf Hin Hne) as (r1 & Hrun & Hwf1 & Ha1 & Hps1).
  destruct (onStaked_run _ m r h _ r1 h Hm Hrun) as (m1 & Hm1 & Hat1).
  destruct (IH m1 r1 h Hat1 Hwf1 Hnd) as (m' & r' & h' & Hrun' & Hat' & Hwf' & Ha' & Hps').
  { intros q Hq. destruct (Hn q (list_elem_of_further _ _ _ Hq)) as [Hq1 Hq2]. rewrite Ha1, Hps1, lookup_delete_ne; [done|].
    intros He. apply Hp. rewrite He. by apply list_elem_of_fmap_2. }
  exists m', r', h'. cbn [forM]. erewrite bind_run by exact Hm1. split; [exact Hrun'|]. split; [done|]. split; [done|].
  cbn [foldl]. by rewrite Ha', Hps', Hps1.
Qed.

Lemma foldl_delete_lookup (ps : list NetworkPeer) : forall (m : PeerAddrMap) k,
  foldl (fun m p => delete (peerKey p) m) m ps !! k = if decide (k ∈ peerKey <$> ps) then None else m !! k.
Proof.
  induction ps as [|p ps IH]; intros m k; cbn [foldl]; [done|]. rewrite IH, fmap_cons.
  destruct (decide (k = peerKey p)) as [->|Hne]; [rewrite lookup_delete_eq|rewrite lookup_delete_ne by done]; repeat case_decide; set_solver.
Qed.

Lemma isStakedActor_run (m : p2pModule) (b : bool) ps :
  getStakedPeerstore = Ok ps -> b = bool_decide (is_Some (ps !! Address_String (address m))) -> isStakedActor m = (Ok b, m).
Proof.
  intros Hps ->. unfold isStakedActor. rewrite Hps. erewrite bind_run by done. rewrite bind_get. unfold GetPeer.
  destruct (ps !! _) as [q|]; [by rewrite bool_decide_eq_true_2 by eauto|]. rewrite bool_decide_eq_false_2; [done|]. by intros [].
Qed.

(** What the router holds after the update: of the staked peers at the new height, the entry it
    already had or else the new one. *)
Definition synced (old upd new : PeerAddrMap) : Prop :=
  forall k, new !! k = match upd !! k with Some p => Some (default p (old !! k)) | None => None end.

(** C20: At a new height a staked node brings its staked router up to date: if the node is among
    the staked peers and the host accepts the new peers, handling the event succeeds, the router
    then knows exactly the staked peers at that height, its view is again the sorted view of
    them with the node first, and its number of levels is that of their number.  A peer that
    was already known keeps its old entry, also when its service URL has changed. *)
Theorem new_height_syncs_peers (m : p2pModule) (r : rainTreeRouter) (h : HostState) (height : Z) (cur upd : PeerAddrMap) :
  routerAt m r h -> router_wf r -> address m = selfAddr r ->
  getStakedPeerstore = Ok cur -> is_Some (cur !! Address_String (address m)) ->
  GetStakedPeerstoreAtHeight height = Ok upd -> pstore_wf upd -> is_Some (upd !! Address_String (address m)) ->
  Forall hostAccepts (GetPeerList upd) ->
  exists m' r' h', newHeight height m = (Ok tt, m') /\ routerAt m' r' h' /\ router_wf r' /\ selfAddr r' = selfAddr r /\
    synced (GetPeerstore r) upd (GetPeerstore r').
Proof.
  intros Hat Hwf Haddr Hcur Hself Hupd Hwfu Hselfu Hacc. set (old := GetPeerstore r).
  assert (pstore_wf old) as Hwfo by apply Hwf.
  assert (NoDup (peerKey <$> GetPeerList old)) as Hnd1 by (rewrite GetPeerList_keys by done; apply mapOrder_NoDup).
  assert (NoDup (peerKey <$> GetPeerList upd)) as Hnd2 by (rewrite GetPeerList_keys by done; apply mapOrder_NoDup).
  assert (forall ps k, pstore_wf ps -> k ∈ peerKey <$> GetPeerList ps <-> is_Some (ps !! k)) as Hkeys.
  { intros ps k Hps. rewrite GetPeerList_keys by done. apply elem_of_keys. }
  destruct (Delta_spec (GetPeerList old) (GetPeerList upd) Hnd1 Hnd2) as (removed & Hdelta & Hperm).
  set (added := filter (fun p => peerKey p ∉ peerKey <$> GetPeerList old) (GetPeerList upd)) in *.
  assert (NoDup (peerKey <$> added)) as Hnda by (eapply sublist_NoDup; [exact Hnd2|apply fmap_sublist, sublist_filter]).
  assert (forall p, p ∈ added -> old !! peerKey p = None) as Hnew.
  { intros p [Hp _]%list_elem_of_filter. rewrite Hkeys in Hp by done. by apply eq_None_not_Some. }
  destruct (add_loop added m r h Hat Hwf Hnda) as (m1 & r1 & h1 & Hrun1 & Hat1 & Hwf1 & Ha1 & Hps1); [apply Forall_forall; intros p [_ Hp]%list_elem_of_filter; rewrite Forall_forall in Hacc; by apply Hacc|done|].
  assert (forall k p, GetPeerstore r1 !! k = Some p <-> old !! k = Some p \/ (p ∈ added /\ k = peerKey p)) as Hl1.
  { intros k p. rewrite Hps1. by apply foldl_insert_lookup. }
  destruct (remove_loop removed m1 r1 h1 Hat1 Hwf1) as (m2 & r2 & h2 & Hrun2 & Hat2 & Hwf2 & Ha2 & Hps2).
  { rewrite Hperm. eapply sublist_NoDup; [exact Hnd1|apply fmap_sublist, sublist_filter]. }
  { intros p Hp. rewrite Hperm in Hp. apply list_elem_of_filter in Hp as [Hp1 Hp2].
    apply elem_of_GetPeerList in Hp2; [|done]. split; [exists p; apply Hl1; by left|].
    intros He. apply Hp1. rewrite Hkeys by done. unfold peerKey. by rewrite He, Ha1, <- Haddr. }
  exists m2, r2, h2. split; [|split; [done|split; [done|split; [by rewrite Ha2, Ha1|]]]].
  - unfold newHeight. erewrite bind_run by (apply (isStakedActor_run m true cur); [done|by rewrite bool_decide_eq_true_2]).
    cbn [negb]. rewrite bind_get. destruct Hat as [-> _]. fold old. rewrite Hupd. erewrite bind_run by done. rewrite Hdelta.
    erewrite bind_run by exact Hrun1. exact Hrun2.
  - assert (forall k, k ∈ peerKey <$> removed <-> is_Some (old !! k) /\ upd !! k = None) as Hrm.
    { intros k. rewrite Hperm, list_elem_of_fmap. split.
      - intros (p & -> & [Hn Hin]%list_elem_of_filter). rewrite Hkeys in Hn by done. rewrite eq_None_not_Some, <- Hkeys by done.
        split; [by apply list_elem_of_fmap_2|done].
      - intros [Ho Hu]. rewrite <- Hkeys in Ho by done. apply list_elem_of_fmap in Ho as (p & -> & Hin). exists p. split; [done|].
        apply list_elem_of_filter. split; [|done]. rewrite Hkeys, Hu by done. by intros []. }
    intros k. rewrite Hps2, foldl_delete_lookup. destruct (upd !! k) as [p|] eqn:Hk.
    + rewrite decide_False by (rewrite Hrm; naive_solver). apply Hl1. destruct (old !! k) as [q|] eqn:Ho; [by left|right].
      pose proof (Hwfu _ _ Hk) as ->. split; [|done]. apply list_elem_of_filter. split; [|by apply elem_of_GetPeerList].
      rewrite Hkeys by done. by apply eq_None_not_Some.
    + case_decide as Hd; [done|]. destruct (GetPeerstore r1 !! k) as [q|] eqn:Hq; [|done]. exfalso.
      apply Hl1 in Hq as [Ho|[Hin ->]]; [apply Hd, Hrm; eauto|].
      apply list_elem_of_filter in Hin as [_ Hin]. apply elem_of_GetPeerList in Hin; [congruence|done].
Qed.

(** ** Error paths *)

(** Sending from a staked node fails only for an unknown peer: any other error of the staked
    router is dropped and the caller is told that the message was sent. *)
Theorem send_error_dropped `{Background.PubSubPrims} (m : p2pModule) (r : rainTreeRouter) (h h' : HostState) (addr : bytes) (msg : Any) (nonce : Z) (bz : bytes) (cur : PeerAddrMap) (e : P2PErr) :
  marshalEnvelope {| Content := Some msg; Nonce := nonce |} = Some bz ->
  getStakedPeerstore = Ok cur -> is_Some (cur !! Address_String (address m)) -> routerAt m r h ->
  RainTree.Send r (Some bz) addr h = (Err e, h') -> isUnknownPeer e = false ->
  exists m', P2P.Send addr msg nonce m = (Ok tt, m').
Proof.
  intros Hbz Hcur Hself Hat Hsend He. unfold P2P.Send. rewrite Hbz.
  erewrite bind_run by (apply (isStakedActor_run m true cur); [done|by rewrite bool_decide_eq_true_2]). cbn [negb].
  destruct (onStaked_run (fun '(r, h) => let '(x, h') := RainTree.Send r (Some bz) addr h in (x, (r, h'))) m r h (Err e) r h' Hat) as (m' & Hm' & _).
  { by rewrite Hsend. }
  unfold stakedHost. rewrite Hm', He. by exists m'.
Qed.

(** A start that fails leaves the module marked as started: it cannot be started again, and
    stopping it dereferences the router that was never set up. *)
Theorem failed_start_is_final `{Background.PubSubPrims} (m : p2pModule) (e : string) :
  started m = false -> host m = None -> unstakedActorRouter m = None ->
  exists err m', P2P.Start (inl e) m = (Err err, m') /\ (forall new, exists err', P2P.Start new m' = (Err err', m')) /\
    forall closeErr, (P2P.Stop closeErr m').1 = Panic.
Proof.
  intros Hs Hh Hu. unfold P2P.Start. rewrite bind_get, Hs. eexists _, (set_started true m). split; [|split].
  - erewrite bind_run by done. rewrite Hh. by erewrite bind_run_err by done.
  - intros new. rewrite bind_get. cbn. by eexists.
  - intros closeErr. unfold P2P.Stop. rewrite bind_get. cbn [started set_started negb]. erewrite bind_run by done.
    unfold onUnstaked. cbn. by rewrite Hu.
Qed.

(** The background router stops connecting at the first peer that is the host itself, whichever
    peers are still to come. *)
Theorem background_bootstrap_stops_at_self `{Background.PubSubPrims} (br : Background.backgroundRouter) (h h' : HostState) (self : NetworkPeer) (info : AddrInfo) (rest : PeerList) :
  AddPeerToLibp2pHost self h = (Ok tt, h') -> Libp2pAddrInfoFromPeer self = Ok info -> hostID h' = infoID info ->
  Background.bootstrapLoop (self :: rest) (br, h) = (Ok tt, (br, h')).
Proof.
  intros Hadd Hinfo Hid. cbn [Background.bootstrapLoop]. erewrite bind_run by (cbn; by rewrite Hadd).
  rewrite Hinfo. erewrite bind_run by done. rewrite bind_get. cbn [snd]. by rewrite bool_decide_eq_true_2.
Qed.

(** When no bootstrap node answers, bootstrapping ends in a nil dereference. *)
Theorem bootstrap_without_answer_panics (ok healthy : string -> bool) rpcStaked (m : p2pModule) :
  (forall n, ok n = false \/ healthy n = false) -> (P2P.bootstrap ok healthy rpcStaked m).1 = Panic.
Proof.
  intros Hn. unfold P2P.bootstrap. rewrite bind_get.
  assert (forall nodes ps, bootstrapFrom ok healthy rpcStaked nodes ps = Ok ps) as Hb.
  { induction nodes as [|n nodes IH]; intros ps; [done|]. cbn. destruct (Hn n) as [-> | ->]; [by cbn|]. by destruct (ok n); cbn. }
  by rewrite Hb.
Qed.

(** A stream whose remote end cannot be identified ends in a nil dereference before the reset. *)
Theorem unidentified_stream_panics {St} (peerHandler : NetworkPeer -> M St P2PErr unit) messageHandler (stream : Stream) (s : St) (e : string) :
  remotePublicKey stream = inl e -> Unicast.handleStream peerHandler messageHandler stream s = (Panic, s).
Proof. intros Hs. unfold Unicast.handleStream, PeerFromLibp2pStream. by rewrite Hs. Qed.

End peers.

(** ** Witnesses *)
#[local] Existing Instance P2PToy.codec.
#[local] Existing Instance P2PToy.codec_laws.
#[local] Existing Instance P2PToy.net.
#[local] Existing Instance P2PToy.host.
#[local] Existing Instance P2PToy.conversion.
#[local] Existing Instance CanonicalOrder.order.
#[local] Existing Instance ToyCrypto.prims.

Definition toyModule (r : option rainTreeRouter) (h : option HostState) : p2pModule :=
  {| started := true; address := "b"; maxNonces := 2; bootstrapNodes := []; nonceDeduper := NewNonceDeduper 2;
     stakedActorRouter := r; unstakedActorRouter := None; host := h; published := []; fsmEvents := [] |}.
Definition toyEnvelope (n : Z) : bytes := default "" (marshalEnvelope {| Content := None; Nonce := n |}).

Lemma envelope_delivered_once_witness :
  let '(m', accepted) := receive (toyEnvelope <$> [1; 2; 1; 3; 2; 1]) (toyModule None None) [] in
  length (published m') = (0 + length accepted)%nat /\
  forall i j x, (i < j)%nat -> accepted !! i = Some x -> accepted !! j = Some x -> (2 < j - i)%nat.
Proof. apply (envelope_delivered_once (toyEnvelope <$> [1; 2; 1; 3; 2; 1]) (toyModule None None) 2); [lia|lia|done]. Defined.

Example duplicate_after_eviction : (receive (toyEnvelope <$> [1; 2; 1; 3; 2; 1]) (toyModule None None) []).2 = [1; 2; 3; 1].
Proof. by vm_compute. Qed.

Definition newStakes : PeerAddrMap := PeersSpec.toyStore ["b"; "d"; "e"]%string.
#[local] Instance toyProviders : Providers :=
  {| CurrentHeight := 1; GetStakedPeerstoreAtHeight h := Ok (if h =? 2 then newStakes else P2PToy.four) |}.

Lemma toy_accepts l : Forall (fun p => containsScheme (GetServiceURL p) = false) l -> Forall hostAccepts l.
Proof.
  intros Hl. eapply Forall_impl; [exact Hl|]. intros p Hp h. unfold AddPeerToLibp2pHost, Libp2pAddrInfoFromPeer, Libp2pPublicKeyFromPeer, Libp2pMultiaddrFromServiceURL, getPeerIP.
  cbn. rewrite Hp. cbn. eexists. reflexivity.
Qed.

Lemma new_height_syncs_peers_witness :
  exists r m' r' h', setupPeerManager "b" P2PToy.four = Ok r /\
    newHeight 2 (toyModule (Some r) (Some (P2PToy.toyHost "b"))) = (Ok tt, m') /\
    routerAt m' r' h' /\ router_wf r' /\ selfAddr r' = selfAddr r /\ synced (GetPeerstore r) newStakes (GetPeerstore r').
Proof.
  destruct P2PToy.four_router as (r & Hnew & Hwf & Ha & Hp).
  destruct (new_height_syncs_peers (toyModule (Some r) (Some (P2PToy.toyHost "b"))) r (P2PToy.toyHost "b") 2 P2PToy.four newStakes) as (m' & r' & h' & Hs).
  - by split.
  - exact Hwf.
  - by symmetry.
  - done.
  - eexists. by vm_compute.
  - done.
  - apply (bool_decide_unpack (map_Forall (fun k p => k = peerKey p) _)). by vm_compute.
  - eexists. by vm_compute.
  - apply toy_accepts. apply (bool_decide_unpack _). by vm_compute.
  - exists r, m', r', h'. split; [exact Hnew|exact Hs].
Defined.
End P2PFacts.
