(* ===== verification/Session.v ===== *)
(** Sessions: which servicers and fishermen serve an application on a relay chain
    (src/utility/session.go).

    A session is assembled from the committed state in the order of the source: metadata,
    application, identifier, servicers, fishermen.  [GetSession] reads through a read context of
    the persistence module ([Node.NewReadContext]).  The generator of [math/rand] is the
    parameter [Int63], the stream of values of a seeded source; the order in which a map of
    indices is visited is [GoMapOrder]. *)

From S2P Require Import Prelude GoStd GoSort GoFloat Errors Crypto CoreTypes Gov Sql Persistence Node.
#[local] Open Scope string_scope.
#[local] Open Scope Z_scope.

(** [rand.NewSource(seed)]: the n-th call of [Int63]. *)
Class RandSource := { Int63 : Z -> nat -> Z }.

(** Its values are int63, and every residue modulo an int63 comes up again and again. *)
Class RandLaws (RS : RandSource) : Prop := {
  Int63_range : forall seed n, 0 <= Int63 seed n < 2 ^ 63;
  Int63_fair : forall seed max i from, 0 <= i < max -> max < 2 ^ 63 -> exists n, (from <= n)%nat /\ Int63 seed n mod max = i;
}.

Module Session.
Import Node F64.

Record Session := {
  Id : string;
  SessionNumber : Z;
  SessionHeight : Z;
  NumSessionBlocks : Z;
  RelayChain : string;
  GeoZone : string;
  Application : option Actor;
  Servicers : list Actor;
  Fishermen : list Actor;
}.

Record sessionHydrator := {
  session : Session;
  blockHeight : Z;
  readCtx : PostgresContext;
  sessionIdBz : bytes;
}.

Definition upd_session (f : Session -> Session) (s : sessionHydrator) : sessionHydrator :=
  {| session := f (session s); blockHeight := blockHeight s; readCtx := readCtx s; sessionIdBz := sessionIdBz s |}.
Notation SM := (M sessionHydrator string).

(** [slices.Contains]. *)
Definition contains (l : option (list string)) (x : string) : bool := bool_decide (x ∈ default [] l).

(** [concat]. *)
Definition concat (l : list bytes) : bytes := foldr (fun b r => b +:+ r) "" l.

(** [binary.BigEndian.Uint64(b[:8])]; a shorter slice is out of range. *)
Fixpoint beValue (n : nat) (b : bytes) (acc : Z) : option Z :=
  match n with
  | O => Some acc
  | S n' => match b with
            | EmptyString => None
            | String c b' => beValue n' b' (acc * 256 + Z.of_nat (Ascii.nat_of_ascii c))
            end
  end.

(** [int64(math.Max(float64(h)-1, 0))]. *)
Definition prevHashHeight `{GoConversion} (h : Z) : Z :=
  let x := fsub (ofZ h) (ofZ 1) in
  if flt x (ofZ 0) then toInt (ofZ 0) else toInt x.

Section random.
Context `{RandSource}.

(** The loop adds residues until there are enough; [n] is the number of values drawn.  It may
    not end: [None] when the fuel is used up. *)
Fixpoint drawIndices (fuel : nat) (seed maxIndex numIndices : Z) (n : nat) (indicesMap : gmap Z unit) : option (gmap Z unit) :=
  if Z.of_nat (size indicesMap) <? numIndices then
    match fuel with
    | O => None
    | S fuel' => drawIndices fuel' seed maxIndex numIndices (S n) (<[Z.rem (Int63 seed n) maxIndex := tt]> indicesMap)
    end
  else Some indicesMap.

Definition uniqueRandomIndices (fuel : nat) (seed maxIndex numIndices : Z) : res string (option (gmap Z unit)) :=
  if maxIndex <? numIndices then Panic else Ok (drawIndices fuel seed maxIndex numIndices 0 ∅).

Context `{GoMapOrder} `{CryptoPrims}.

(** The actors at the indices, in the order in which the map is visited. *)
Fixpoint pickActors (candidates : list Actor) (indices : list Z) : res string (list Actor) :=
  match indices with
  | [] => Ok []
  | i :: rest =>
      if i <? 0 then Panic else
      match candidates !! Z.to_nat i with
      | None => Panic
      | Some a => match pickActors candidates rest with Ok l => Ok (a :: l) | r => r end
      end
  end.

(** [None] when the loop has not ended.  Go visits the map of the indices in an order of its own
    each time: the order is a parameter of the call, and two calls have two. *)
Definition pseudoRandomSelection (fuel : nat) (candidates : list Actor) (numTarget : Z) (sessionId : bytes) : res string (option (list Actor)) :=
  if Z.of_nat (length candidates) <? numTarget then Ok (Some candidates) else
  match beValue 8 (SHA3Hash sessionId) 0 with
  | None => Panic
  | Some u =>
      let seed := i64 u in
      match uniqueRandomIndices fuel seed (Z.of_nat (length candidates)) numTarget with
      | Ok (Some uniqueIndices) =>
          match pickActors candidates (mapOrder uniqueIndices).*1 with Ok l => Ok (Some l) | Err e => Err e | Panic => Panic end
      | Ok None => Ok None
      | Err e => Err e
      | Panic => Panic
      end
  end.

Context `{GoConversion} (fuel : nat).

Definition hydrateSessionMetadata : SM unit :=
  s ← get;
  numBlocksPerSession ← of_res (GetIntParam (readCtx s) BlocksPerSessionParamName (blockHeight s));
  if numBlocksPerSession =? 0 then panic else              (* integer divide by zero *)
  let numBlocksAheadOfSession := Z.rem (blockHeight s) numBlocksPerSession in
  modify (upd_session (fun x => {| Id := Id x; SessionNumber := i64 (Z.quot (blockHeight s) numBlocksPerSession);
    SessionHeight := i64 (blockHeight s - numBlocksAheadOfSession); NumSessionBlocks := numBlocksPerSession; RelayChain := RelayChain x;
    GeoZone := GeoZone x; Application := Application x; Servicers := Servicers x; Fishermen := Fishermen x |})).

Definition hydrateSessionApplication (appAddr : string) : SM unit :=
  match hexDecode appAddr with
  | None => fail hexErrorText
  | Some addr =>
      s ← get;
      app ← of_res (GetActor ACTOR_TYPE_APP (readCtx s) addr (SessionHeight (session s)));
      modify (upd_session (fun x => {| Id := Id x; SessionNumber := SessionNumber x; SessionHeight := SessionHeight x;
        NumSessionBlocks := NumSessionBlocks x; RelayChain := RelayChain x; GeoZone := GeoZone x; Application := Some app;
        Servicers := Servicers x; Fishermen := Fishermen x |}))
  end.

Definition validateApplicationSession : SM unit :=
  s ← get;
  match Application (session s) with
  | None => panic
  | Some app =>
      if negb (contains (Chains app) (RelayChain (session s)))
      then fail ("application " +:+ Address app +:+ " does not stake for relay chain " +:+ RelayChain (session s))
      else if negb ((PausedHeight app =? -1) && (UnstakingHeight app =? -1))
      then fail ("application " +:+ Address app +:+ " is either unstaked or paused")
      else mret tt
  end.

Definition hydrateSessionID : SM unit :=
  s ← get;
  let sessionHeightBz := leBytes 8 (u64 (SessionHeight (session s))) in
  prevHash ← of_res (GetBlockHash (readCtx s) (prevHashHeight (SessionHeight (session s))));
  match hexDecode prevHash, Application (session s) with
  | None, _ => fail hexErrorText
  | _, None => panic
  | Some prevHashBz, Some app =>
      let idBz := concat [sessionHeightBz; prevHashBz; GeoZone (session s); RelayChain (session s); PublicKey app] in
      put {| session := {| Id := GetHashStringFromBytes idBz; SessionNumber := SessionNumber (session s); SessionHeight := SessionHeight (session s);
               NumSessionBlocks := NumSessionBlocks (session s); RelayChain := RelayChain (session s); GeoZone := GeoZone (session s);
               Application := Application (session s); Servicers := Servicers (session s); Fishermen := Fishermen (session s) |};
             blockHeight := blockHeight s; readCtx := readCtx s; sessionIdBz := idBz |}
  end.

(** The candidates: every actor that stakes for the chain; a paused or unstaking one is an error. *)
Fixpoint candidates (what : string) (chain : string) (actors : list Actor) : res string (list Actor) :=
  match actors with
  | [] => Ok []
  | a :: rest =>
      if negb ((PausedHeight a =? -1) && (UnstakingHeight a =? -1))
      then Err (what +:+ Address a)
      else match candidates what chain rest with
           | Ok l => Ok (if contains (Chains a) chain then a :: l else l)
           | r => r
           end
  end.

(** A selection that does not end leaves the caller waiting; [panic] stands for it. *)
Definition ended {A} (r : res string (option A)) : res string A :=
  match r with Ok (Some a) => Ok a | Ok None => Panic | Err e => Err e | Panic => Panic end.

Definition hydrateSessionServicers : SM unit :=
  s ← get;
  numServicers ← of_res (GetIntParam (readCtx s) ServicersPerSessionParamName (SessionHeight (session s)));
  candidateServicers ← of_res (candidates "hydrateSessionServicers should not have encountered a paused or unstaking servicer: " (RelayChain (session s))
                                 (GetAllServicers (readCtx s) (SessionHeight (session s))));
  l ← of_res (ended (pseudoRandomSelection fuel candidateServicers numServicers (sessionIdBz s)));
  modify (upd_session (fun x => {| Id := Id x; SessionNumber := SessionNumber x; SessionHeight := SessionHeight x;
    NumSessionBlocks := NumSessionBlocks x; RelayChain := RelayChain x; GeoZone := GeoZone x; Application := Application x;
    Servicers := l; Fishermen := Fishermen x |})).

Definition hydrateSessionFishermen : SM unit :=
  s ← get;
  numFishermen ← of_res (GetIntParam (readCtx s) FishermanPerSessionParamName (SessionHeight (session s)));
  candidateFishermen ← of_res (candidates "hydrateSessionFishermen should not have encountered a paused or unstaking fisherman: " (RelayChain (session s))
                                 (GetAllFishermen (readCtx s) (SessionHeight (session s))));
  l ← of_res (ended (pseudoRandomSelection fuel candidateFishermen numFishermen (sessionIdBz s)));
  modify (upd_session (fun x => {| Id := Id x; SessionNumber := SessionNumber x; SessionHeight := SessionHeight x;
    NumSessionBlocks := NumSessionBlocks x; RelayChain := RelayChain x; GeoZone := GeoZone x; Application := Application x;
    Servicers := Servicers x; Fishermen := l |})).

Definition hydrate (appAddr : string) : SM unit :=
  wrap_err (fun e => "failed to hydrate session metadata: " +:+ e) hydrateSessionMetadata ;;
  wrap_err (fun e => "failed to hydrate session application: " +:+ e) (hydrateSessionApplication appAddr) ;;
  wrap_err (fun e => "failed to validate application session: " +:+ e) validateApplicationSession ;;
  wrap_err (fun e => "failed to hydrate session ID: " +:+ e) hydrateSessionID ;;
  wrap_err (fun e => "failed to hydrate session servicers: " +:+ e) hydrateSessionServicers ;;
  wrap_err (fun e => "failed to hydrate session fishermen: " +:+ e) hydrateSessionFishermen.

Definition emptySession (relayChain geoZone : string) : Session :=
  {| Id := ""; SessionNumber := 0; SessionHeight := 0; NumSessionBlocks := 0; RelayChain := relayChain; GeoZone := geoZone;
     Application := None; Servicers := []; Fishermen := [] |}.

Definition GetSession (w : Modules) (appAddr : string) (height : Z) (relayChain geoZone : string) : res string Session :=
  match NewReadContext height w with
  | Err e => Err e
  | Panic => Panic
  | Ok ctx =>
      match hydrate appAddr {| session := emptySession relayChain geoZone; blockHeight := height; readCtx := ctx; sessionIdBz := "" |} with
      | (Ok _, s) => Ok (session s)
      | (Err e, _) => Err e
      | (Panic, _) => Panic
      end
  end.
End random.
End Session.
