(* ===== verification/SessionFacts.v ===== *)
(** Properties of sessions: the random selection ends and picks distinct candidates, every
    height of a session gives the same session, and what a session contains. *)

From S2P Require Import Prelude GoStd GoSort GoFloat Errors Crypto CoreTypes Gov Sql Persistence Node Session.
#[local] Open Scope string_scope.
#[local] Open Scope Z_scope.

Module SessionFacts.
Import Node Session.

(** ** Drawing distinct indices *)
Section draw.
Context `{RL : RandLaws}.
Implicit Types (m : gmap Z unit).

Definition inRange (maxIndex : Z) (m : gmap Z unit) : Prop := forall k, is_Some (m !! k) -> 0 <= k < maxIndex.

Lemma draw_step_range seed max n m : 0 < max -> inRange max m -> inRange max (<[Z.rem (Int63 seed n) max := tt]> m).
Proof.
  intros Hmax Hm k Hk. destruct (decide (k = Z.rem (Int63 seed n) max)) as [->|Hne].
  - pose proof (Int63_range seed n). rewrite Z.rem_mod_nonneg by lia. apply Z.mod_pos_bound. lia.
  - rewrite lookup_insert_ne in Hk by done. by apply Hm.
Qed.

(** More fuel does not change the outcome. *)
Lemma drawIndices_fuel f1 : forall f2 seed max num n m r,
  (f1 <= f2)%nat -> drawIndices f1 seed max num n m = Some r -> drawIndices f2 seed max num n m = Some r.
Proof.
  induction f1 as [|f1 IH]; intros [|f2] seed max num n m r Hf; cbn; destruct (_ <? _); try done; try lia. apply IH. lia.
Qed.

(** The result has exactly the number of indices asked for, all below the bound. *)
Lemma drawIndices_result fuel : forall seed max num n m r,
  0 < max -> Z.of_nat (size m) <= num -> inRange max m -> drawIndices fuel seed max num n m = Some r ->
  Z.of_nat (size r) = num /\ inRange max r.
Proof.
  induction fuel as [|fuel IH]; intros seed max num n m r Hmax Hs Hm; cbn; destruct (Z.ltb_spec (Z.of_nat (size m)) num) as [Hlt|Hge]; try done.
  1,3: intros [= <-]; split; [lia|done].
  apply IH; [done| |by apply draw_step_range; try lia].
  destruct (m !! Z.rem (Int63 seed n) max) as [[]|] eqn:Hl; [rewrite insert_id by done; lia|].
  rewrite map_size_insert_None by done. lia.
Qed.

(** While indices are missing, one of them is a residue that is still to come. *)
Lemma missing_index max num m : inRange max m -> Z.of_nat (size m) < num -> num <= max -> exists i, 0 <= i < max /\ m !! i = None.
Proof.
  intros Hm Hs Hn. destruct (decide (Forall (fun i => is_Some (m !! i)) (seqZ 0 max))) as [Hall|Hne].
  2:{ apply not_Forall_Exists in Hne; [|intros; apply _]. apply Exists_exists in Hne as (i & Hi%elem_of_seqZ & Hl).
      exists i. split; [lia|]. by apply eq_None_not_Some. }
  - exfalso. rewrite Forall_forall in Hall. assert (list_to_set (seqZ 0 max) ⊆ dom m) as Hsub.
    { intros i Hi%elem_of_list_to_set. by apply elem_of_dom, Hall. }
    apply subseteq_size in Hsub. rewrite size_list_to_set in Hsub by apply NoDup_seqZ.
    rewrite length_seqZ, size_dom in Hsub. lia.
Qed.

Lemma drawIndices_terminates seed max num : 0 < max < 2 ^ 63 -> num <= max -> forall k m n,
  inRange max m -> num - Z.of_nat (size m) <= Z.of_nat k -> exists fuel r, drawIndices fuel seed max num n m = Some r.
Proof.
  intros Hmax Hnum. induction k as [|k IH]; intros m n Hm Hk.
  { exists 0%nat, m. cbn. by rewrite (proj2 (Z.ltb_ge _ _)) by lia. }
  destruct (decide (Z.of_nat (size m) < num)) as [Hlt|Hge].
  2:{ exists 0%nat, m. cbn. by rewrite (proj2 (Z.ltb_ge _ _)) by lia. }
  destruct (missing_index max num m Hm Hlt Hnum) as (i & Hi & Hl).
  destruct (Int63_fair seed max i n Hi (proj2 Hmax)) as (n' & Hn' & Hres).
  assert (exists d, n' = (n + d)%nat) as [d ->] by (exists (n' - n)%nat; lia). clear Hn'.
  revert n Hres. induction d as [|d IHd]; intros n Hres.
  - destruct (IH (<[i := tt]> m) (S n)) as (fuel & r & Hr).
    + rewrite <- Hres. pose proof (Int63_range seed n). rewrite Nat.add_0_r, <- Z.rem_mod_nonneg by lia. by apply draw_step_range; try lia.
    + rewrite map_size_insert_None by done. lia.
    + exists (S fuel), r. cbn. rewrite (proj2 (Z.ltb_lt _ _)) by done. rewrite Nat.add_0_r in Hres.
      pose proof (Int63_range seed n). by rewrite Z.rem_mod_nonneg, Hres by lia.
  - destruct (m !! Z.rem (Int63 seed n) max) as [[]|] eqn:Hnew.
    + destruct (IHd (S n)) as (fuel & r & Hr); [by replace (S n + d)%nat with (n + S d)%nat by lia|].
      exists (S fuel), r. cbn. rewrite (proj2 (Z.ltb_lt _ _)) by done. by rewrite insert_id.
    + destruct (IH (<[Z.rem (Int63 seed n) max := tt]> m) (S n)) as (fuel & r & Hr).
      * by apply draw_step_range; try lia.
      * rewrite map_size_insert_None by done. lia.
      * exists (S fuel), r. cbn. by rewrite (proj2 (Z.ltb_lt _ _)) by done.
Qed.
End draw.

(** ** Picking actors *)
Section pick.
Context `{RL : RandLaws} `{GoMapOrder} `{CL : CryptoLaws}.

Lemma pickActors_ok cands idxs :
  (forall i, i ∈ idxs -> 0 <= i < Z.of_nat (length cands)) ->
  exists l, pickActors cands idxs = Ok l /\ Forall2 (fun i a => cands !! Z.to_nat i = Some a) idxs l.
Proof.
  induction idxs as [|i idxs IH]; intros His; [by exists []|]. cbn.
  destruct IH as (l & -> & Hl); [set_solver|]. assert (0 <= i < Z.of_nat (length cands)) by (apply His; set_solver).
  rewrite (proj2 (Z.ltb_ge _ _)) by lia. destruct (cands !! Z.to_nat i) as [a|] eqn:Ha; [|apply lookup_ge_None in Ha; lia].
  exists (a :: l). split; [done|]. by constructor.
Qed.

(** Picking at distinct indices gives a part of the list. *)
Lemma picked_submseteq (cands : list Actor) (idxs : list Z) l :
  NoDup idxs -> Forall2 (fun i a => cands !! Z.to_nat i = Some a) idxs l -> Forall (fun i => 0 <= i) idxs -> l ⊆+ cands.
Proof.
  intros Hnd Hl Hpos. destruct cands as [|d cands0] eqn:Hc.
  { destruct Hl as [|i a idxs l Hi _]; [done|]. by rewrite lookup_nil in Hi. }
  rewrite <- Hc in *. clear Hc cands0.
  assert (l = (fun n => nth n cands d) <$> (Z.to_nat <$> idxs)) as ->.
  { clear Hnd Hpos. induction Hl as [|i a idxs l Hi _ IH]; [done|]. rewrite !fmap_cons, <- IH. f_equal. symmetry.
    by apply nth_lookup_Some with (d := d) in Hi. }
  assert (cands = (fun n => nth n cands d) <$> seq 0 (length cands)) as Hseq.
  { apply list_eq. intros i. rewrite list_lookup_fmap. destruct (decide (i < length cands)%nat) as [Hi|Hi].
    - rewrite lookup_seq_lt by done. cbn. destruct (cands !! i) as [a|] eqn:Ha; [|apply lookup_ge_None in Ha; lia].
      f_equal. symmetry. by apply nth_lookup_Some with (d := d) in Ha.
    - rewrite lookup_seq_ge by lia. cbn. apply lookup_ge_None. lia. }
  set (f := fun n => nth n cands d) in *. enough (Z.to_nat <$> idxs ⊆+ seq 0 (length cands)) as He.
  { apply (fmap_submseteq f) in He. by rewrite <- Hseq in He. }
  apply NoDup_submseteq.
  - apply NoDup_fmap_2_strong; [|done]. rewrite Forall_forall in Hpos. intros x y Hx Hy He. pose proof (Hpos x Hx). pose proof (Hpos y Hy). lia.
  - intros n Hn. apply list_elem_of_fmap in Hn as (i & -> & Hi). apply elem_of_seq.
    apply list_elem_of_lookup in Hi as [k Hk]. destruct (Forall2_lookup_l _ _ _ _ _ Hl Hk) as (a & _ & Ha).
    apply lookup_lt_Some in Ha. lia.
Qed.

Lemma beValue_some n : forall b acc, (n <= String.length b)%nat -> is_Some (beValue n b acc).
Proof. induction n as [|n IH]; intros b acc Hb; [by eexists|]. destruct b as [|c b]; cbn in *; [lia|]. apply IH. lia. Qed.

(** C24: The selection of the actors of a session ends, whatever the session, for a random source
    in which every residue comes up: it returns all candidates when there are fewer than asked
    for, and otherwise exactly the number asked for, each candidate at most once. *)
Theorem selection_terminates (cands : list Actor) (numTarget : Z) (sessionId : bytes) :
  0 <= numTarget -> Z.of_nat (length cands) < 2 ^ 63 ->
  exists fuel l, forall fuel', (fuel <= fuel')%nat ->
    pseudoRandomSelection fuel' cands numTarget sessionId = Ok (Some l) /\ l ⊆+ cands /\
    Z.of_nat (length l) = Z.min numTarget (Z.of_nat (length cands)).
Proof.
  intros Hn Hlen. destruct (Z.ltb_spec (Z.of_nat (length cands)) numTarget) as [Hlt|Hge].
  { exists 0%nat, cands. intros fuel' _. unfold pseudoRandomSelection. rewrite (proj2 (Z.ltb_lt _ _)) by done. split; [done|]. split; [done|lia]. }
  destruct (beValue_some 8 (SHA3Hash sessionId) 0) as [u Hu].
  { pose proof (sha3_256_length sessionId) as Hs. unfold blen in Hs. unfold SHA3Hash. lia. }
  set (max := Z.of_nat (length cands)) in *.
  assert (exists fuel r, drawIndices fuel (i64 u) max numTarget 0 ∅ = Some r /\ Z.of_nat (size r) = numTarget /\ inRange max r) as (fuel & r & Hr & Hsize & Hrange).
  { destruct (decide (0 < max)) as [Hmax|Hmax].
    - destruct (drawIndices_terminates (i64 u) max numTarget (conj Hmax Hlen) Hge (Z.to_nat numTarget) ∅ 0) as (fuel & r & Hr).
      + intros k. rewrite lookup_empty. by intros [].
      + rewrite map_size_empty. lia.
      + exists fuel, r. split; [done|]. eapply drawIndices_result; [exact Hmax| | |exact Hr]; [rewrite map_size_empty; lia|].
        intros k. rewrite lookup_empty. by intros [].
    - exists 0%nat, ∅. cbn. rewrite map_size_empty. rewrite (proj2 (Z.ltb_ge _ _)) by lia. split; [done|]. split; [lia|].
      intros k. rewrite lookup_empty. by intros []. }
  destruct (pickActors_ok cands (mapOrder r).*1) as (l & Hl & Hpick).
  { intros i Hi. apply Hrange. apply list_elem_of_fmap in Hi as ([k []] & -> & Hi). apply elem_of_mapOrder in Hi. eauto. }
  exists fuel, l. intros fuel' Hf. unfold pseudoRandomSelection, uniqueRandomIndices. fold max.
  rewrite (proj2 (Z.ltb_ge _ _)) by lia. rewrite Hu.
  rewrite (drawIndices_fuel fuel fuel' _ _ _ _ _ r Hf Hr), Hl. split; [done|]. split.
  - apply (picked_submseteq cands (mapOrder r).*1 l); [apply mapOrder_NoDup|exact Hpick|]. apply Forall_forall. intros i Hi.
    apply list_elem_of_fmap in Hi as ([k []] & -> & Hi). apply elem_of_mapOrder in Hi. cbn. apply (Hrange k). eauto.
  - apply Forall2_length in Hpick. rewrite length_fmap, mapOrder_length in Hpick. lia.
Qed.
End pick.

(** A source that counts. *)
Module CountingSource.
#[local] Instance source : RandSource := {| Int63 _ n := Z.of_nat n mod 2 ^ 63 |}.
#[local] Instance laws : RandLaws source.
Proof.
  constructor; cbn.
  - intros _ n. by apply Z.mod_pos_bound.
  - intros _ max i from Hi Hmax. exists (Z.to_nat (Z.of_nat from * 2 ^ 63 + i)). split; [lia|].
    rewrite Z2Nat.id by lia. rewrite Z.add_comm, Z.mod_add, (Z.mod_small i) by lia. apply Z.mod_small. lia.
Qed.
End CountingSource.

Lemma selection_terminates_witness :
  exists fuel l, forall fuel', (fuel <= fuel')%nat ->
    @pseudoRandomSelection CountingSource.source CanonicalOrder.order ToyCrypto.prims fuel' NodeToy.validators 2 "id" = Ok (Some l) /\
    l ⊆+ NodeToy.validators /\ Z.of_nat (length l) = 2.
Proof.
  destruct (@selection_terminates CountingSource.source CountingSource.laws CanonicalOrder.order ToyCrypto.prims ToyCrypto.laws
    NodeToy.validators 2 "id") as (fuel & l & Hl); [lia|by vm_compute|].
  exists fuel, l. exact Hl.
Defined.

(** ** The order in which the indices are visited *)
Section orders.
Context `{RS : RandSource} `{CP : CryptoPrims} (MO1 MO2 : GoMapOrder).

(** Two outcomes of which both are values that are related, both the same error, or both a panic. *)
Definition resRel {A} (R : A -> A -> Prop) (r1 r2 : res string A) : Prop :=
  match r1, r2 with Ok a, Ok b => R a b | Err e, Err e' => e = e' | Panic, Panic => True | _, _ => False end.

Lemma pickActors_perm cands idxs1 idxs2 :
  idxs1 ≡ₚ idxs2 -> resRel Permutation (pickActors cands idxs1) (pickActors cands idxs2).
Proof.
  induction 1 as [|i l1 l2 _ IH|i j l|l1 l2 l3 _ IH1 _ IH2]; cbn.
  - done.
  - destruct (i <? 0); [done|]. destruct (cands !! Z.to_nat i); [|done]. cbn in IH.
    destruct (pickActors cands l1), (pickActors cands l2); cbn in *; try done. by constructor.
  - destruct (i <? 0), (j <? 0); cbn; try done; destruct (cands !! Z.to_nat i), (cands !! Z.to_nat j); cbn; try done;
      destruct (pickActors cands l); cbn; try done. by constructor.
  - destruct (pickActors cands l1), (pickActors cands l2), (pickActors cands l3); cbn in *; try done; [by etrans|congruence].
Qed.

(** The candidates picked do not depend on the order, only their sequence does. *)
Lemma selection_perm fuel cands num sid :
  resRel Permutation (ended (pseudoRandomSelection (H0 := MO1) fuel cands num sid)) (ended (pseudoRandomSelection (H0 := MO2) fuel cands num sid)).
Proof.
  unfold pseudoRandomSelection. destruct (_ <? _); [cbn; reflexivity|]. destruct (beValue 8 (SHA3Hash sid) 0) as [u|]; [|done].
  destruct (uniqueRandomIndices _ _ _ _) as [[m|]| |]; [|done..].
  assert ((@mapOrder MO1 _ _ _ _ m).*1 ≡ₚ (@mapOrder MO2 _ _ _ _ m).*1) as Hp by (by rewrite !mapOrder_perm).
  apply (pickActors_perm cands) in Hp. destruct (pickActors cands (@mapOrder MO1 _ _ _ _ m).*1), (pickActors cands (@mapOrder MO2 _ _ _ _ m).*1); done.
Qed.
End orders.

(** ** The session of a height *)
Section window.
Context `{RS : RandSource} (MO1 MO2 : GoMapOrder) `{CP : CryptoPrims} `{GC : GoConversion} (fuel : nat).

(** Sessions that differ in the sequence of their servicers and fishermen only. *)
Record permSession (x y : Session) : Prop := {
  ps_id : Id x = Id y; ps_number : SessionNumber x = SessionNumber y; ps_height : SessionHeight x = SessionHeight y;
  ps_blocks : NumSessionBlocks x = NumSessionBlocks y; ps_chain : RelayChain x = RelayChain y; ps_zone : GeoZone x = GeoZone y;
  ps_app : Application x = Application y; ps_servicers : Servicers x ≡ₚ Servicers y; ps_fishermen : Fishermen x ≡ₚ Fishermen y }.

(** Two hydrators that differ in the height they were asked for and in that sequence only: their
    read contexts are on the same state. *)
Definition sameSession (s1 s2 : sessionHydrator) : Prop :=
  permSession (session s1) (session s2) /\ sessionIdBz s1 = sessionIdBz s2 /\ db (readCtx s1) = db (readCtx s2).

Definition respects (m1 m2 : M sessionHydrator string unit) : Prop := forall s1 s2,
  sameSession s1 s2 -> (m1 s1).1 = (m2 s2).1 /\ sameSession (m1 s1).2 (m2 s2).2.

Lemma respects_bind m1 m2 k1 k2 : respects m1 m2 -> respects k1 k2 -> respects (m1 ;; k1) (m2 ;; k2).
Proof.
  intros Hm Hk s1 s2 Hs. destruct (Hm s1 s2 Hs) as [Hr Hs']. rewrite !bind_eq.
  destruct (m1 s1) as [r1 s1'], (m2 s2) as [r2 s2']. cbn in Hr, Hs'. subst r2.
  destruct r1 as [[]|e|]; [by apply Hk|done|done].
Qed.

Lemma respects_wrap f m1 m2 : respects m1 m2 -> respects (wrap_err f m1) (wrap_err f m2).
Proof.
  intros Hm s1 s2 Hs. destruct (Hm s1 s2 Hs) as [Hr Hs']. unfold wrap_err.
  destruct (m1 s1) as [r1 s1'], (m2 s2) as [r2 s2']. cbn in Hr, Hs'. subst r2. by destruct r1 as [[]|e|].
Qed.

Lemma GetIntParam_db p1 p2 name h : db p1 = db p2 -> GetIntParam p1 name h = GetIntParam p2 name h.
Proof. unfold GetIntParam. by intros ->. Qed.
Lemma GetActor_db t p1 p2 a h : db p1 = db p2 -> GetActor t p1 a h = GetActor t p2 a h.
Proof. intros He. unfold GetActor, getActor, selectActor, getChainsForActor. by rewrite He. Qed.
Lemma GetBlockHash_db p1 p2 h : db p1 = db p2 -> GetBlockHash p1 h = GetBlockHash p2 h.
Proof. unfold GetBlockHash. by intros ->. Qed.
Lemma GetAll_db s p1 p2 h : db p1 = db p2 -> GetAll s p1 h = GetAll s p2 h.
Proof. intros He. unfold GetAll, getChainsForActor. by rewrite He. Qed.

(** A step that reads the session and the state only. *)
Ltac respects_start :=
  intros [ss1 h1 c1 id1] [ss2 h2 c2 id2] (Hs & Hid & Hdb); cbn in Hs, Hid, Hdb; subst id2;
  pose proof Hs as [Eid Enum Ehgt Eblk Echain Ezone Eapp Eser Efish];
  rewrite ?bind_get; cbn [session sessionIdBz readCtx].

Ltac same_done := repeat split; cbn in *; first [assumption|congruence|done].

Lemma respects_application appAddr : respects (hydrateSessionApplication appAddr) (hydrateSessionApplication appAddr).
Proof.
  unfold hydrateSessionApplication. destruct (hexDecode appAddr) as [addr|]; [|by intros s1 s2].
  respects_start. unfold of_res, modify. rewrite !bind_eq, (GetActor_db _ c1 c2), Ehgt by done.
  destruct (GetActor _ c2 addr _); same_done.
Qed.

Lemma respects_validate : respects validateApplicationSession validateApplicationSession.
Proof.
  unfold validateApplicationSession. respects_start. rewrite Eapp, Echain. destruct (Application ss2) as [app|]; [|done].
  destruct (negb _); [done|]. by destruct (negb _).
Qed.

Lemma respects_id : respects hydrateSessionID hydrateSessionID.
Proof.
  unfold hydrateSessionID. respects_start. rewrite !bind_eq. unfold of_res. rewrite (GetBlockHash_db c1 c2), Ehgt by done.
  destruct (GetBlockHash c2 _) as [prevHash| |]; [|done..].
  destruct (hexDecode prevHash); [|done]. rewrite Eapp, Ezone, Echain. destruct (Application ss2) eqn:Ea2; same_done.
Qed.

Lemma respects_servicers : respects (hydrateSessionServicers (H0 := MO1) fuel) (hydrateSessionServicers (H0 := MO2) fuel).
Proof.
  unfold hydrateSessionServicers, GetAllServicers. respects_start. rewrite !bind_eq. unfold of_res.
  rewrite (GetIntParam_db c1 c2), (GetAll_db _ c1 c2), Ehgt, Echain by done.
  destruct (GetIntParam c2 _ _) as [n| |]; [|done..]. rewrite !bind_eq.
  destruct (candidates _ _ _) as [l| |]; [|done..]. rewrite !bind_eq.
  pose proof (selection_perm MO1 MO2 fuel l n id1) as Hp.
  destruct (ended (pseudoRandomSelection (H0 := MO1) _ _ _ _)), (ended (pseudoRandomSelection (H0 := MO2) _ _ _ _)); cbn in Hp;
    subst; same_done.
Qed.

Lemma respects_fishermen : respects (hydrateSessionFishermen (H0 := MO1) fuel) (hydrateSessionFishermen (H0 := MO2) fuel).
Proof.
  unfold hydrateSessionFishermen, GetAllFishermen. respects_start. rewrite !bind_eq. unfold of_res.
  rewrite (GetIntParam_db c1 c2), (GetAll_db _ c1 c2), Ehgt, Echain by done.
  destruct (GetIntParam c2 _ _) as [n| |]; [|done..]. rewrite !bind_eq.
  destruct (candidates _ _ _) as [l| |]; [|done..]. rewrite !bind_eq.
  pose proof (selection_perm MO1 MO2 fuel l n id1) as Hp.
  destruct (ended (pseudoRandomSelection (H0 := MO1) _ _ _ _)), (ended (pseudoRandomSelection (H0 := MO2) _ _ _ _)); cbn in Hp;
    subst; same_done.
Qed.

(** What the metadata step computes, for heights and session lengths of the chain. *)
Lemma metadata_run s n :
  GetIntParam (readCtx s) BlocksPerSessionParamName (blockHeight s) = Ok n -> 0 < n -> 0 <= blockHeight s < 2 ^ 63 ->
  exists s', hydrateSessionMetadata s = (Ok tt, s') /\ readCtx s' = readCtx s /\ sessionIdBz s' = sessionIdBz s /\
    session s' = {| Id := Id (session s); SessionNumber := blockHeight s / n; SessionHeight := blockHeight s / n * n;
      NumSessionBlocks := n; RelayChain := RelayChain (session s); GeoZone := GeoZone (session s);
      Application := Application (session s); Servicers := Servicers (session s); Fishermen := Fishermen (session s) |}.
Proof.
  intros Hp Hn Hh. eexists. split; [|split; [|split; [|]]].
  { unfold hydrateSessionMetadata. rewrite bind_get, bind_eq. unfold of_res. rewrite Hp.
    rewrite (proj2 (Z.eqb_neq n 0)) by lia. reflexivity. }
  1,2: done. cbn.
  assert (0 <= blockHeight s / n <= blockHeight s) as Hq. { split; [apply Z.div_pos; lia|]. apply Z.div_le_upper_bound; nia. }
  pose proof (Z.div_mod (blockHeight s) n ltac:(lia)) as Hdm. pose proof (Z.mod_pos_bound (blockHeight s) n Hn) as Hm.
  rewrite Z.quot_div_nonneg, Z.rem_mod_nonneg by lia. rewrite !i64_small by (unfold in_i64; nia). f_equal. nia.
Qed.

(** C23: Every block of a session gets the same session.  For two heights of one session, with the
    session length governing both, the two calls end in the same way: the same error, or no
    result (a panic, or a selection that does not end) in both, or two sessions that agree in
    everything but the sequence in which the servicers and the fishermen are listed, which
    depends on the order in which Go visits a map in each of the calls; they are the same
    servicers and the same fishermen. *)
Theorem session_constant (w : Modules) (appAddr relayChain geoZone : string) (h1 h2 n : Z) :
  GetIntParam (committedDB w) BlocksPerSessionParamName h1 = Ok n ->
  GetIntParam (committedDB w) BlocksPerSessionParamName h2 = Ok n ->
  0 < n -> 0 <= h1 < 2 ^ 63 -> 0 <= h2 < 2 ^ 63 -> h1 / n = h2 / n ->
  resRel permSession (GetSession (H0 := MO1) fuel w appAddr h1 relayChain geoZone)
    (GetSession (H0 := MO2) fuel w appAddr h2 relayChain geoZone).
Proof.
  intros Hp1 Hp2 Hn Hh1 Hh2 Hsame. unfold GetSession, NewReadContext.
  match goal with |- resRel _ (match hydrate _ _ ?a with _ => _ end) (match hydrate _ _ ?b with _ => _ end) => set (s1 := a); set (s2 := b) end.
  destruct (metadata_run s1 n) as (s1' & Hr1 & Hc1 & Hi1 & Hs1); [by rewrite (GetIntParam_db _ (committedDB w))|done|done|].
  destruct (metadata_run s2 n) as (s2' & Hr2 & Hc2 & Hi2 & Hs2); [by rewrite (GetIntParam_db _ (committedDB w))|done|done|].
  assert (sameSession s1' s2') as Hss.
  { split; [|split]; [rewrite Hs1, Hs2; cbn; rewrite Hsame; by repeat split|by rewrite Hi1, Hi2|by rewrite Hc1, Hc2]. }
  unfold hydrate. rewrite !bind_eq. unfold wrap_err at 1 7. rewrite Hr1, Hr2.
  match goal with |- resRel _ (match ?m s1' with _ => _ end) (match ?m' s2' with _ => _ end) => assert (respects m m') as Hm end.
  { repeat first [apply respects_bind|apply respects_wrap]; auto using respects_application, respects_validate, respects_id, respects_servicers, respects_fishermen. }
  destruct (Hm s1' s2' Hss) as [Hr (Hses & _ & _)].
  match goal with |- resRel _ (match ?m s1' with _ => _ end) (match ?m' s2' with _ => _ end) => destruct (m s1') as [r1 t1], (m' s2') as [r2 t2] end.
  cbn in Hr, Hses. subst r2. by destruct r1.
Qed.
End window.

(** ** A concrete state: sessions of five blocks *)
Module SessionToy.
Definition addr := NodeToy.addr.
Definition pk := NodeToy.pubKey.
Definition blockAt (h : Z) : Block := {| b_Header := Some {| bh_Height := h; bh_NetworkId := "toy"; bh_StateHash := "a0b1";
  bh_PrevStateHash := ""; bh_ProposerAddress := None; bh_QuorumCertificate := None; bh_Timestamp := 0 |}; b_Transactions := [] |}.

Definition state : PostgresContext :=
  ((SetParam BlocksPerSessionParamName (PVInt 5) ;; SetParam ServicersPerSessionParamName (PVInt 2) ;;
    SetParam FishermanPerSessionParamName (PVInt 1) ;; SetParam AppSessionTokensMultiplierParamName (PVInt 10) ;;
    InsertApp (addr 1) (pk 1) (addr 1) "100" (Some ["0001"]) (-1) (-1) ;;
    InsertServicer (addr 2) (pk 2) (addr 2) "https://s2" "100" (Some ["0001"]) (-1) (-1) ;;
    InsertServicer (addr 3) (pk 3) (addr 3) "https://s3" "100" (Some ["0001"]) (-1) (-1) ;;
    InsertServicer (addr 4) (pk 4) (addr 4) "https://s4" "100" (Some ["0001"]) (-1) (-1) ;;
    InsertFisherman (addr 5) (pk 5) (addr 5) "https://f5" "100" (Some ["0001"]) (-1) (-1) ;;
    insertBlock (blockAt 0) ;; insertBlock (blockAt 4)) NodeToy.emptyContext).2.

Definition modules : Modules := {| committedDB := state; writeContextOpen := false;
  txMempool := txMempool NodeToy.modules; fsm := fsm NodeToy.modules |}.

#[local] Instance conversion : GoConversion := {| unspecifiedInt := - 2 ^ 63 |}.
#[local] Existing Instances CountingSource.source CanonicalOrder.order ToyCrypto.prims.

Definition sessionAt (h : Z) : res string Session := GetSession 10 modules (hexEncode (addr 1)) h "0001" "".

Example session_found : match sessionAt 7 with
  | Ok s => (SessionNumber s, SessionHeight s, length (Servicers s), length (Fishermen s)) = (1, 5, 2%nat, 1%nat)
  | _ => False
  end.
Proof. vm_compute. reflexivity. Qed.

(** The heights of the first session, and the last of the one before. *)
Example prevHash_heights : prevHashHeight <$> [0; 5; 10] = [0; 4; 9].
Proof. vm_compute. reflexivity. Qed.
End SessionToy.

(** Another order: the map is visited backwards. *)
Definition backwards : GoMapOrder.
Proof.
  refine {| mapOrder K _ _ A m := reverse (map_to_list m) |}. intros K ? ? A m. by rewrite reverse_Permutation.
Defined.

Definition sessionBackwards (h : Z) : res string Session :=
  @GetSession CountingSource.source backwards ToyCrypto.prims SessionToy.conversion 10 SessionToy.modules (hexEncode (SessionToy.addr 1)) h "0001" "".

(** The two servicers of the session, in the two orders. *)
Lemma session_constant_witness :
  resRel permSession (SessionToy.sessionAt 5) (sessionBackwards 9) /\
  (match SessionToy.sessionAt 5, sessionBackwards 9 with
   | Ok x, Ok y => Servicers x = reverse (Servicers y) /\ length (Servicers x) = 2%nat
   | _, _ => False
   end).
Proof.
  split; [|vm_compute; split; reflexivity].
  unfold SessionToy.sessionAt, sessionBackwards.
  apply (session_constant CanonicalOrder.order backwards 10 SessionToy.modules _ "0001" "" 5 9 5); try lia; vm_compute; reflexivity.
Defined.
End SessionFacts.
