(* ===== verification/Servicer.v ===== *)
(** Relays and the servicer that admits and executes them
    (src/shared/core/types/relay.go and relay.proto, src/utility/servicer/module.go,
    src/persistence/local/module.go).

    The servicer keeps a cache of session budgets; the tokens an application has used are kept
    by the local persistence context, the interface [LocalContext] with the operations of the
    source as an instance.  Sessions come from [Session.GetSession], the chain state from the
    committed state of the persistence module.  HTTP, URL and JSON handling and the encoders of
    protobuf are parameters.  Text that prints a whole message is a parameter, too. *)

From Stdlib Require Import SpecFloat.
From S2P Require Import Prelude GoStd GoSort GoFloat Errors Crypto CoreTypes Gov Sql Persistence Node Session.
#[local] Open Scope string_scope.
#[local] Open Scope Z_scope.

Module Relay.

Record Identifiable := { ident_Id : string; ident_Name : string }.

Record RelayMeta := {
  BlockHeight : Z;
  ServicerPublicKey : string;
  RelayChain : option Identifiable;
  GeoZone : option Identifiable;
  Signature : string;
  ApplicationAddress : string;
}.

Record JSONRPCPayload := {
  jsonrpc_Id : bytes;
  JsonRpc : string;
  Method : string;
  Parameters : bytes;
  Headers : gmap string string;
}.

Record RESTPayload := { Contents : string; HttpPath : string; RequestType : Z }.

Inductive RelayPayload := Relay_JsonRpcPayload (p : JSONRPCPayload) | Relay_RestPayload (p : RESTPayload).

Record Relay := { Meta : option RelayMeta; relayPayload : option RelayPayload }.
Record RelayResponse := { Payload : string; ServicerSignature : string }.
Record RelayReqRes := { rr_Relay : Relay; rr_Response : option RelayResponse }.

(** [json.Unmarshal] into a raw message (the error, if any), and how a message is printed. *)
Class RelayText := {
  jsonError : string -> option string;
  relayText : Relay -> string;
  metaText : RelayMeta -> string;
}.

Definition jsonRpcVersion : string := "2.0".
Definition errInvalidRelayPayload : string := "invalid relay payload".
Definition errInvalidJSONRPC : string := "invalid value for JSONRPC field".
Definition errInvalidJSONRPCMissingMethod : string := "Method field not set".
Definition errInvalidRESTPayload : string := "invalid REST payload".

Section validate.
Context `{RelayText}.

Definition JSONRPCPayload_Validate (p : JSONRPCPayload) : res string unit :=
  if negb (bool_decide (JsonRpc p = jsonRpcVersion)) then Err (errInvalidJSONRPC +:+ ": " +:+ JsonRpc p)
  else if bool_decide (Method p = "") then Err errInvalidJSONRPCMissingMethod
  else Ok tt.

Definition RESTPayload_Validate (p : RESTPayload) : res string unit :=
  match jsonError (Contents p) with
  | Some e => Err (errInvalidRESTPayload +:+ ": " +:+ Contents p +:+ ": " +:+ e)
  | None => Ok tt
  end.

Definition Relay_Validate (r : Relay) : res string unit :=
  match relayPayload r with
  | Some (Relay_JsonRpcPayload p) => JSONRPCPayload_Validate p
  | Some (Relay_RestPayload p) => RESTPayload_Validate p
  | None => Err (errInvalidRelayPayload +:+ ": " +:+ relayText r)
  end.
End validate.
End Relay.

(** ** The local persistence context *)
Class LocalContext (L : Type) := {
  GetSessionTokensUsed : Session.Session -> L -> res string (option Z);
  StoreServicedRelay : Session.Session -> bytes -> bytes -> M L string unit;
}.

(** As in the source: nothing is stored. *)
Module Local.
#[local] Instance persistenceLocalContext : LocalContext unit := {|
  GetSessionTokensUsed _ _ := Ok None;
  StoreServicedRelay _ _ _ := mret tt;
|}.
End Local.

(** ** Floats with infinities *)
Module BigF.
Inductive bigF := BFin (x : bigFloat) | BInf (neg : bool).

(** [big.NewFloat(x)]: a NaN panics. *)
Definition NewFloat (x : F64.float64) : res string bigF :=
  match x with
  | S754_nan => Panic
  | S754_infinity s => Ok (BInf s)
  | S754_zero _ => Ok (BFin {| fmant := 0; fexp := 0; fprec := 53 |})
  | S754_finite s m e => Ok (BFin {| fmant := (if s then Zneg m else Zpos m); fexp := e; fprec := 53 |})
  end.

(** [big.NewFloat(1).SetInt(x)]: the precision stays 53. *)
Definition SetInt (x : Z) : bigF := BFin (roundFloat 53 x 0).

Definition negative (x : bigF) : bool := match x with BFin x => fmant x <? 0 | BInf s => s end.
Definition isZero (x : bigF) : bool := match x with BFin x => fmant x =? 0 | BInf _ => false end.

Definition Quo (x y : bigF) : res string bigF :=
  match x, y with
  | BInf _, BInf _ => Panic
  | BFin _, BInf _ => Ok (BFin {| fmant := 0; fexp := 0; fprec := 53 |})
  | BInf s, BFin _ => Ok (BInf (xorb s (negative y)))
  | BFin a, BFin b => if fmant b =? 0 then if fmant a =? 0 then Panic else Ok (BInf (negative x)) else Ok (BFin (bigFloatQuo a b))
  end.

Definition Mul (x y : bigF) : res string bigF :=
  match x, y with
  | BFin a, BFin b => Ok (BFin (bigFloatMul a b))
  | _, _ => if isZero x || isZero y then Panic else Ok (BInf (xorb (negative x) (negative y)))
  end.

(** [x.Int(z)]: an infinity gives nil. *)
Definition Int (x : bigF) : option Z := match x with BFin a => Some (bigFloatInt a) | BInf _ => None end.
End BigF.

Module Servicer.
Import Node Session Relay.

Record BasicAuth := { UserName : string; Password : string }.
Record ServiceConfig := { Url : string; TimeoutMsec : Z; auth : option BasicAuth }.

Record ServicerConfig := {
  Enabled : bool;
  cfg_PublicKey : string;
  cfg_Address : string;
  Services : gmap string ServiceConfig;
  RelayMiningVolumeAccuracy : F64.float64;
}.

Record sessionTokens := { sessionNumber : Z; startingTokens : option Z }.

Record servicer (L : Type) := { config : ServicerConfig; totalTokens : gmap string sessionTokens; local : L }.
Arguments config {L}. Arguments totalTokens {L}. Arguments local {L}. Arguments Build_servicer {L}.

(** Errors carry one of the sentinels of the package, or none. *)
Inductive Sentinel := errValidateBlockHeight | errValidateRelayMeta | errValidateServicer | errShouldMineRelay.
Record SErr := { etext : string; wraps : option Sentinel }.

Definition sentinelText (s : Sentinel) : string :=
  match s with
  | errValidateBlockHeight => "relay failed block height validation"
  | errValidateRelayMeta => "relay failed metadata validation"
  | errValidateServicer => "relay failed servicer validation"
  | errShouldMineRelay => "relay failed validating available tokens"
  end.

Definition errorf (s : string) : SErr := {| etext := s; wraps := None |}.
Definition prefixErr (p : string) (e : SErr) : SErr := {| etext := p +:+ etext e; wraps := wraps e |}.
Definition withSentinel (text : string) (s : Sentinel) : SErr := {| etext := text +:+ ": " +:+ sentinelText s; wraps := Some s |}.

(** ** HTTP *)
Record HttpRequest := { req_URL : string; req_Body : bytes; req_Header : gmap string string }.

Class HttpLib := {
  urlParse : string -> res string string;                        (* [url.Parse] and [String] *)
  newRequestError : string -> option string;                     (* [http.NewRequest] with method POST *)
  basicAuthHeader : string -> string -> string;                  (* [SetBasicAuth] *)
  CanonicalHeaderKey : string -> string;
  Do : HttpRequest -> Z -> res string (res string bytes);        (* the request, then the reading of the body *)
}.

Class RelayCodec := {
  marshalJSONRPC : JSONRPCPayload -> bytes + string;
  marshalReqRes : RelayReqRes -> bytes + string;
  jsonRPCText : JSONRPCPayload -> string;
}.

Section servicer.
Context {L : Type} `{LocalContext L} `{RelayText} `{HttpLib} `{RelayCodec}.
Context `{RandSource} `{GoMapOrder} `{CryptoPrims} `{GoConversion}.
(** The bus: the persistence module, the current height of the consensus module, and the number
    of draws after which a selection of the session counts as not ending. *)
Context (w : Modules) (currentHeight : Z) (fuel : nat).
Notation SV := (M (servicer L) SErr).

Definition liftRes {A} (f : string -> SErr) (r : res string A) : SV A :=
  of_res (match r with Ok a => Ok a | Err e => Err (f e) | Panic => Panic end).

(** *** Admission *)
Definition validateRelayChainSupport (relayChain : Identifiable) (height : Z) : SV unit :=
  s ← get;
  match Services (config s) !! ident_Id relayChain with
  | None => fail (errorf ("service " +:+ ident_Id relayChain +:+ " not supported by servicer " +:+ cfg_Address (config s) +:+ " configuration"))
  | Some _ =>
      readCtx ← liftRes (fun e => errorf ("error getting persistence context at height " +:+ bigIntText height +:+ ": " +:+ e)) (NewReadContext height w);
      actor ← liftRes (fun e => errorf ("error reading servicer from persistence: " +:+ e)) (GetServicer readCtx (cfg_Address (config s)) height);
      if negb (contains (Chains actor) (ident_Id relayChain))
      then fail (errorf ("chain " +:+ ident_Id relayChain +:+ " not supported by servicer " +:+ cfg_Address (config s) +:+ " configuration fetched from persistence"))
      else mret tt
  end.

Definition validateRelayMeta (meta : option RelayMeta) (height : Z) : SV unit :=
  match meta with
  | None => fail (errorf "empty relay metadata")
  | Some meta =>
      match Relay.RelayChain meta with
      | None => fail (errorf "relay chain unspecified")
      | Some chain =>
          wrap_err (prefixErr ("validation of support for relay chain " +:+ ident_Id chain +:+ " failed: ")) (validateRelayChainSupport chain height)
      end
  end.

(** The chain and the geo zone of the relay are dereferenced. *)
Definition getSession (relay : Relay) : SV Session :=
  match Meta relay with
  | None => panic
  | Some meta =>
      match Relay.RelayChain meta, Relay.GeoZone meta with
      | Some chain, Some zone =>
          liftRes (fun e => errorf ("failed to get a session for height " +:+ bigIntText currentHeight +:+ " for relay meta " +:+ metaText meta +:+ ": " +:+ e))
            (GetSession fuel w (ApplicationAddress meta) (i64 currentHeight) (ident_Id chain) (ident_Id zone))
      | _, _ => panic
      end
  end.

Definition validateRelayBlockHeight (meta : RelayMeta) (session : Session) : res SErr unit :=
  let sessionStartingBlock := i64 (SessionNumber session * NumSessionBlocks session) in
  let sessionLastBlock := i64 (sessionStartingBlock + SessionHeight session) in
  if (sessionStartingBlock <=? BlockHeight meta) && (BlockHeight meta <=? sessionLastBlock) then Ok tt
  else Err (errorf ("relay block height " +:+ bigIntText (BlockHeight meta) +:+ " not within session ID " +:+ Id session +:+ " starting block "
         +:+ bigIntText sessionStartingBlock +:+ " and last block " +:+ bigIntText sessionLastBlock)).

Definition validateServicer (meta : RelayMeta) (session : Session) : SV unit :=
  s ← get;
  if negb (bool_decide (ServicerPublicKey meta = cfg_PublicKey (config s)))
  then fail (errorf ("relay servicer key " +:+ ServicerPublicKey meta +:+ " does not match this servicer instance " +:+ cfg_PublicKey (config s)))
  else if existsb (fun a => bool_decide (PublicKey a = ServicerPublicKey meta)) (Servicers session) then mret tt
  else fail (errorf ("relay servicer key " +:+ ServicerPublicKey meta +:+ " not found in session " +:+ bigIntText (SessionNumber session)
         +:+ " with " +:+ bigIntText (Z.of_nat (length (Servicers session))) +:+ " servicers")).

Definition calculateAppSessionTokens (session : Session) : SV Z :=
  match Application session with
  | None => panic
  | Some app =>
      appStake ← liftRes (fun e => errorf ("Error processing application's staked amount " +:+ StakedAmount app +:+ ": " +:+ error_text (ErrStringToBigInt e)))
                   (StringToBigInt (StakedAmount app));
      readCtx ← liftRes (fun e => errorf ("error getting persistence context at height " +:+ bigIntText (SessionHeight session) +:+ ": " +:+ e))
                  (NewReadContext (SessionHeight session) w);
      multiplier ← liftRes (fun e => errorf ("error reading parameter " +:+ AppSessionTokensMultiplierParamName +:+ " at height "
                               +:+ bigIntText (SessionHeight session) +:+ " from persistence: " +:+ e))
                     (GetIntParam readCtx AppSessionTokensMultiplierParamName (SessionHeight session));
      mret (appStake * multiplier)
  end.

Definition cachedAppTokens (session : Session) : SV (option sessionTokens) :=
  match Application session with
  | None => panic
  | Some app => gets (fun s => totalTokens s !! PublicKey app)
  end.

Definition setAppSessionTokens (session : Session) (tokens : sessionTokens) : SV unit :=
  match Application session with
  | None => panic
  | Some app => modify (fun s => {| config := config s; totalTokens := <[PublicKey app := tokens]> (totalTokens s); local := local s |})
  end.

(** The share of one of [n] servicers, enlarged by the configured accuracy. *)
Definition servicerShare (accuracy : F64.float64) (appSessionTokens : Z) (n : nat) : res string (option Z) :=
  match BigF.NewFloat (F64.ofZ (Z.of_nat n)) with
  | Ok n' =>
      match BigF.Quo (BigF.SetInt appSessionTokens) n' with
      | Ok servicerTokens =>
          match BigF.NewFloat (F64.fadd (F64.ofZ 1) accuracy) with
          | Ok factor => match BigF.Mul servicerTokens factor with Ok adjusted => Ok (BigF.Int adjusted) | _ => Panic end
          | _ => Panic
          end
      | _ => Panic
      end
  | _ => Panic
  end.

(** What the cache answers: an entry of the same session number. *)
Definition cacheHit (session : Session) (tokens : option sessionTokens) : option Z :=
  match tokens with
  | Some t => if sessionNumber t =? SessionNumber session then startingTokens t else None
  | None => None
  end.

Definition startingTokenCountAvailable (session : Session) : SV (option Z) :=
  tokens ← cachedAppTokens session;
  match cacheHit session tokens with
  | Some t => mret (Some t)
  | None =>
      appSessionTokens ← wrap_err (prefixErr ("Error calculating application " +:+ from_option PublicKey "" (Application session) +:+ " total tokens for session "
                                    +:+ bigIntText (SessionNumber session) +:+ ": ")) (calculateAppSessionTokens session);
      s ← get;
      rounded ← liftRes errorf (servicerShare (RelayMiningVolumeAccuracy (config s)) appSessionTokens (length (Servicers session)));
      setAppSessionTokens session {| sessionNumber := SessionNumber session; startingTokens := rounded |} ;;
      mret rounded
  end.

(** A usage compared with a nil budget panics. *)
Definition shouldMineRelay (session : Session) : SV unit :=
  servicerAppSessionTokens ← wrap_err (prefixErr "Error calculating servicer tokens for application: ") (startingTokenCountAvailable session);
  s ← get;
  let app := from_option PublicKey "" (Application session) in
  used ← liftRes (fun e => errorf ("Error getting servicer token usage: application " +:+ app +:+ " session number " +:+ bigIntText (SessionNumber session) +:+ ": " +:+ e))
           (GetSessionTokensUsed session (local s));
  match used with
  | None => mret tt
  | Some used =>
      match servicerAppSessionTokens with
      | None => panic
      | Some budget =>
          if used <? budget then mret tt
          else fail (errorf ("application " +:+ app +:+ " has exceeded its allocated relays " +:+ bigIntText budget +:+ " for session " +:+ bigIntText (SessionNumber session)))
      end
  end.

Definition errPrefix : string := "Error admitting relay".

Definition admitRelay (relay : option Relay) : SV unit :=
  match relay with
  | None => fail (errorf (errPrefix +:+ ": relay is nil"))
  | Some relay =>
      wrap_err (fun e => withSentinel (etext e) errValidateRelayMeta) (validateRelayMeta (Meta relay) (i64 currentHeight)) ;;
      session ← getSession relay;
      match Meta relay with
      | None => panic
      | Some meta =>
          wrap_err (fun e => withSentinel (etext e) errValidateBlockHeight) (of_res (validateRelayBlockHeight meta session)) ;;
          wrap_err (fun e => withSentinel (errPrefix +:+ ": " +:+ etext e) errValidateServicer) (validateServicer meta session) ;;
          wrap_err (fun e => withSentinel (errPrefix +:+ ": " +:+ etext e) errShouldMineRelay) (shouldMineRelay session)
      end
  end.

(** *** Execution *)
Definition setHeaders (headers : list (string * string)) (m : gmap string string) : gmap string string :=
  foldl (fun m '(k, v) => <[CanonicalHeaderKey k := v]> m) m headers.

Definition relayHeader (serviceConfig : ServiceConfig) (headers : gmap string string) : gmap string string :=
  let h0 := match auth serviceConfig with
            | Some a => if bool_decide (UserName a = "") then ∅ else {[ "Authorization" := basicAuthHeader (UserName a) (Password a) ]}
            | None => ∅
            end in
  let h1 := setHeaders (mapOrder headers) h0 in
  if bool_decide (default "" (h1 !! "Content-Type") = "") then <["Content-Type" := "application/json"]> h1 else h1.

Definition executeHTTPRelay (serviceConfig : ServiceConfig) (payload : bytes) (headers : gmap string string) : res SErr RelayResponse :=
  match urlParse (Url serviceConfig) with
  | Err e => Err (errorf ("Error parsing chain URL " +:+ Url serviceConfig +:+ ": " +:+ e))
  | Panic => Panic
  | Ok url =>
      match newRequestError url with
      | Some e => Err (errorf e)
      | None =>
          match Do {| req_URL := url; req_Body := payload; req_Header := relayHeader serviceConfig headers |} (i64 (i64 (TimeoutMsec serviceConfig) * 1000000)) with
          | Err e => Err (errorf ("Error performing the HTTP request for relay: " +:+ e))
          | Panic => Panic
          | Ok (Err e) => Err (errorf ("Error reading response body: " +:+ e))
          | Ok Panic => Panic
          | Ok (Ok body) => Ok {| Payload := body; ServicerSignature := "" |}
          end
      end
  end.

Definition executeJsonRPCRelay (meta : option RelayMeta) (payload : JSONRPCPayload) : SV (option RelayResponse) :=
  match meta with
  | None => panic                                          (* the error text reads a field of meta *)
  | Some meta =>
      match Relay.RelayChain meta with
      | None => fail (errorf ("Relay for application " +:+ ApplicationAddress meta +:+ " does not specify relay chain"))
      | Some chain =>
          if bool_decide (ident_Id chain = "") then fail (errorf ("Relay for application " +:+ ApplicationAddress meta +:+ " does not specify relay chain")) else
          s ← get;
          match Services (config s) !! ident_Id chain with
          | None => fail (withSentinel ("Chain " +:+ ident_Id chain +:+ " not found in servicer configuration") errValidateRelayMeta)
          | Some serviceConfig =>
              match marshalJSONRPC payload with
              | inr e => fail (errorf ("Error marshalling payload " +:+ jsonRPCText payload +:+ ": " +:+ e))
              | inl relayBytes => resp ← of_res (executeHTTPRelay serviceConfig relayBytes (Headers payload)); mret (Some resp)
              end
          end
      end
  end.

(** Not complete in the source: no response. *)
Definition executeRESTRelay (meta : option RelayMeta) (_ : RESTPayload) : SV (option RelayResponse) :=
  match meta with
  | None => panic
  | Some meta =>
      match Relay.RelayChain meta with
      | None => panic
      | Some chain =>
          s ← get;
          match Services (config s) !! ident_Id chain with
          | None => fail (withSentinel ("Chain " +:+ ident_Id chain +:+ " not found in servicer configuration") errValidateRelayMeta)
          | Some _ => mret None
          end
      end
  end.

Definition executeRelay (relay : Relay) : SV (option RelayResponse) :=
  match relayPayload relay with
  | Some (Relay_JsonRpcPayload p) => executeJsonRPCRelay (Meta relay) p
  | Some (Relay_RestPayload p) => executeRESTRelay (Meta relay) p
  | None =>
      match Meta relay with
      | None => panic
      | Some meta => fail (errorf ("Error executing relay on application " +:+ ApplicationAddress meta +:+ ": Unsupported type on payload %!s(<nil>)"))
      end
  end.

(** *** Accounting *)
Definition sign (bz : bytes) : bytes := bz.
Definition isRelayVolumeApplicableOnChain (_ : Session) (_ : bytes) : res string bool := Ok false.

(** The digest is of the response before its signature is set. *)
Definition isRelayVolumeApplicable (session : Session) (relay : Relay) (response : option RelayResponse) : SV (bytes * bytes * bool * RelayResponse) :=
  match marshalReqRes {| rr_Relay := relay; rr_Response := response |} with
  | inr e => fail (errorf ("Error marshalling relay and/or response: " +:+ e))
  | inl relayReqResBytes =>
      let relayDigest := SHA3Hash relayReqResBytes in
      let signedDigest := sign relayDigest in
      match response with
      | None => panic
      | Some r =>
          let response' := {| Payload := Payload r; ServicerSignature := hexEncode signedDigest |} in
          collision ← liftRes errorf (isRelayVolumeApplicableOnChain session relayDigest);
          mret (signedDigest, relayReqResBytes, collision, response')
      end
  end.

Definition onLocal {A} (f : string -> SErr) (m : M L string A) : SV A := fun s =>
  let '(r, l') := m (local s) in
  (match r with Ok a => Ok a | Err e => Err (f e) | Panic => Panic end, {| config := config s; totalTokens := totalTokens s; local := l' |}).

Definition HandleRelay (relay : option Relay) : SV RelayResponse :=
  match relay with
  | None => fail (errorf "cannot serve nil relay")
  | Some r =>
      wrap_err (prefixErr "Error admitting relay: ") (admitRelay relay) ;;
      response ← wrap_err (prefixErr "Error executing relay: ") (executeRelay r);
      session ← getSession r;
      '(relayDigest, relayReqResBytes, shouldStore, response') ← wrap_err (prefixErr "Error calculating relay service digest: ") (isRelayVolumeApplicable session r response);
      if negb shouldStore then mret response' else
      onLocal (fun e => errorf ("Error recording service proof for application " +:+ from_option ApplicationAddress "" (Meta r) +:+ ": " +:+ e))
        (StoreServicedRelay session relayDigest relayReqResBytes) ;;
      mret response'
  end.
End servicer.
End Servicer.
