(* ===== verification/ServicerFacts.v ===== *)
(** Properties of the servicer: the budget of a session, the cache of budgets, which relays are
    admitted, and what happens to an admitted one. *)

From Stdlib Require Import SpecFloat.
From S2P Require Import Prelude GoStd GoSort GoFloat Errors Crypto CoreTypes Gov Sql Persistence Node Session SessionFacts Servicer.
#[local] Open Scope string_scope.
#[local] Open Scope Z_scope.

(** ** The arithmetic of the budget *)
Module ShareFacts.
Import F64 F64Facts BigF Servicer.

(** A small integer as a float64: its mantissa is shifted to 53 bits. *)
Lemma ofZ_small n : 0 < n < 2 ^ 53 ->
  exists m t, 0 <= t <= 52 /\ ofZ n = S754_finite false m (- t) /\ Zpos m = n * 2 ^ t /\ 2 ^ 52 <= Zpos m < 2 ^ 53.
Proof.
  intros Hn. destruct n as [|p|]; try lia. unfold ofZ, binary_normalize.
  destruct (binary_round_align p 0) as (m & d & Hd & -> & Hm & Hdig & Hdv).
  pose proof (fexp64_unfold p 0) as Hf. pose proof (digits2_pos_bounds p) as Hp.
  assert (Zpos (digits2_pos p) <= 53) as Hdp by (apply digits2_le; lia).
  assert (d = 53 - Zpos (digits2_pos p)) as Hdd by lia.
  exists m, d. split; [lia|]. rewrite round_kept.
  2:{ pose proof (fexp64_unfold m (0 - d)). lia. }
  split; [f_equal; lia|]. split; [done|]. pose proof (digits2_pos_bounds m) as Hmb. rewrite Hdig in Hmb.
  replace (Zpos (digits2_pos p) + d) with 53 in Hmb by lia. done.
Qed.

(** Truncation depends on the value only. *)
Lemma bigFloatInt_value m e prec K : 0 <= m -> 0 <= K -> 0 <= e + K ->
  bigFloatInt {| fmant := m; fexp := e; fprec := prec |} = m * 2 ^ (e + K) / 2 ^ K.
Proof.
  intros Hm HK HeK. unfold bigFloatInt. cbn [fmant fexp]. assert (0 < 2 ^ K) by (apply Z.pow_pos_nonneg; lia). case_bool_decide as He.
  - rewrite Z.pow_add_r by lia. by rewrite Z.mul_assoc, Z.div_mul by lia.
  - assert (0 < 2 ^ (- e)) by (apply Z.pow_pos_nonneg; lia). assert (0 < 2 ^ (e + K)) by (apply Z.pow_pos_nonneg; lia).
    rewrite Z.quot_div_nonneg by lia.
    replace K with (- e + (e + K)) at 2 by lia. rewrite (Z.pow_add_r 2 (- e)) by lia. by rewrite Z.div_mul_cancel_r by lia.
Qed.

(** Rounding to 53 bits has a relative error of at most 2^-53. *)
Lemma roundBits_rel M : 0 < M ->
  exists q s, roundBits 53 M = (q, s) /\ 0 <= s /\ 0 <= q <= 2 ^ 53 /\ 2 ^ 53 * Z.abs (q * 2 ^ s - M) <= M.
Proof.
  intros HM. destruct (roundBits_spec 53 M) as (q & s & Hr & Hs & Hq & H0 & H1); [lia..|].
  pose proof (bitLen_pos M HM) as Hb. exists q, s. split; [done|]. split; [lia|].
  destruct (decide (s = 0)) as [->|Hne].
  - rewrite H0 by done. split; [|lia]. split; [lia|]. assert (2 ^ bitLen M <= 2 ^ 53) by (apply Z.pow_le_mono_r; lia). lia.
  - specialize (H1 ltac:(lia)). assert (2 ^ (bitLen M - 1) = 2 ^ 52 * 2 ^ s) as He by (rewrite <- Z.pow_add_r by lia; f_equal; lia).
    assert (2 ^ bitLen M = 2 ^ 53 * 2 ^ s) as He' by (rewrite <- Z.pow_add_r by lia; f_equal; lia).
    assert (0 < 2 ^ s) by (apply Z.pow_pos_nonneg; lia). split; [nia|]. lia.
Qed.

(** Multiplying by 1.0 keeps the value of a number of at most 53 bits. *)
Lemma mul_one q e : 0 <= q <= 2 ^ 53 ->
  exists q' s', bigFloatMul {| fmant := q; fexp := e; fprec := 53 |} {| fmant := 2 ^ 52; fexp := -52; fprec := 53 |} =
    {| fmant := q'; fexp := e + -52 + s'; fprec := 53 |} /\ 0 <= s' /\ 0 <= q' /\ q' * 2 ^ s' = q * 2 ^ 52.
Proof.
  intros Hq. unfold bigFloatMul, roundFloat. cbn [fmant fexp fprec]. rewrite Z.abs_eq by lia.
  destruct (decide (q = 0)) as [->|Hq0]; [exists 0, 0; by vm_compute|]. rewrite (Z.sgn_pos (q * 2 ^ 52)) by lia.
  assert (exists q' s', roundBits 53 (q * 2 ^ 52) = (q', s') /\ 0 <= s' /\ q' * 2 ^ s' = q * 2 ^ 52) as (q' & s' & Hr & Hs' & He).
  { destruct (decide (q = 2 ^ 53)) as [->|Hne]; [exists (2 ^ 52), 53; by vm_compute|].
    pose proof (bitLen_le (q * 2 ^ 52) 105 ltac:(lia) ltac:(lia)).
    destruct (roundBits_exact 53 q 52) as (q' & s' & Hr & Hs & He); [lia..|]. exists q', s'. split; [done|]. split; [lia|done]. }
  rewrite Hr. exists q', s'. rewrite Z.mul_1_l. split; [done|]. split; [done|]. split; [|done].
  assert (0 < 2 ^ s') by (apply Z.pow_pos_nonneg; lia). nia.
Qed.

(** The rounded quotient lies between the same two integers as the exact one. *)
Lemma quotient_between A n t P M x :
  0 < A < 2 ^ 53 -> 0 < n < 2 ^ (53 - t) -> 0 <= t <= 52 -> P = 2 ^ (109 - t) ->
  Z.abs (n * M - P * A) <= n -> (A mod n = 0 -> n * x = P * A) -> 2 ^ 53 * Z.abs (x - M) <= M ->
  P * (A / n) <= x < P * (A / n + 1).
Proof.
  intros HA Hn Ht HP HM Hexact Hx. pose proof (Z.div_mod A n ltac:(lia)) as Hdm. pose proof (Z.mod_pos_bound A n ltac:(lia)) as Hm.
  set (T := A / n) in *. set (r := A mod n) in *.
  assert (2 ^ 53 * n + n < P) as HnP.
  { rewrite HP. replace (109 - t) with (56 + (53 - t)) by lia. rewrite Z.pow_add_r by lia. lia. }
  destruct (decide (r = 0)) as [Hr|Hr].
  - specialize (Hexact Hr). assert (x = P * T) by nia. nia.
  - clear Hexact. assert (n * M <= P * A + n) by lia. assert (P * A - n <= n * M) by lia.
    assert (2 ^ 53 * (n * Z.abs (x - M)) <= P * A + n) as Hd by nia.
    assert (n * Z.abs (x - M) = Z.abs (n * x - n * M)) as Habs by (rewrite <- Z.mul_sub_distr_l, Z.abs_mul; lia). rewrite Habs in Hd.
    assert (P * A <= 2 ^ 53 * P - P) by nia. assert (P * (A + (n - r)) = P * n * (T + 1)) by nia. assert (P * (A - r) = P * n * T) by nia.
    assert (P <= P * (n - r)) by nia. assert (P <= P * r) by nia.
    assert (n * x < P * n * (T + 1)) by lia. assert (P * n * T <= n * x) by lia. nia.
Qed.
(** Division: the significant bits of the quotient, with a sticky bit. *)
Lemma quo_run A m n t : 0 < A < 2 ^ 53 -> 0 <= t <= 52 -> m = n * 2 ^ t -> 2 ^ 52 <= m < 2 ^ 53 -> 0 < n ->
  exists q s, bigFloatQuo {| fmant := A; fexp := 0; fprec := 53 |} {| fmant := m; fexp := - t; fprec := 53 |} =
    {| fmant := q; fexp := t - 109 + s; fprec := 53 |} /\ 0 <= s /\ 0 <= q <= 2 ^ 53 /\
    2 ^ (109 - t) * (A / n) <= q * 2 ^ s < 2 ^ (109 - t) * (A / n + 1).
Proof.
  intros HA Ht Hm Hm53 Hn. unfold bigFloatQuo. cbn [fmant fexp fprec].
  assert (bitLen m = 53) as -> by (pose proof (bitLen_le m 53 ltac:(lia) ltac:(lia)); pose proof (bitLen_ge m 52 ltac:(lia) ltac:(lia)); lia).
  change (53 + 2 + 53) with 108. rewrite (Z.abs_eq A), (Z.abs_eq m), (Z.sgn_pos A), (Z.sgn_pos m), !Z.mul_1_l by lia.
  set (M := 2 * (A * 2 ^ 108 / m) + (if bool_decide ((A * 2 ^ 108) mod m = 0) then 0 else 1)).
  pose proof (Z.div_mod (A * 2 ^ 108) m ltac:(lia)) as Hdm. pose proof (Z.mod_pos_bound (A * 2 ^ 108) m ltac:(lia)) as Hmb.
  assert (0 < A * 2 ^ 108 / m) as Hpos by (apply Z.div_str_pos; nia).
  assert (0 < M) as HM by (unfold M; case_bool_decide; lia).
  assert (2 ^ (109 - t) * 2 ^ t = 2 * 2 ^ 108) as HP by (rewrite <- Z.pow_add_r by lia; replace (109 - t + t) with 109 by lia; done).
  assert (0 < 2 ^ t) as Hpt by (apply Z.pow_pos_nonneg; lia).
  unfold roundFloat. rewrite Z.abs_eq, (Z.sgn_pos M) by lia.
  destruct (roundBits_rel M HM) as (q & s & Hr & Hs & Hq & Hrel). rewrite Hr, Z.mul_1_l.
  exists q, s. split; [f_equal; lia|]. split; [done|]. split; [done|].
  apply (quotient_between A n t (2 ^ (109 - t)) M); [done| |done|done| | |done].
  - split; [done|]. assert (2 ^ 53 = 2 ^ (53 - t) * 2 ^ t) by (rewrite <- Z.pow_add_r by lia; f_equal; lia). nia.
  - assert (Z.abs (m * M - 2 * (A * 2 ^ 108)) <= m) as Hab.
    { unfold M. set (Q := A * 2 ^ 108 / m) in *. set (R := (A * 2 ^ 108) mod m) in *. clearbody Q R. case_bool_decide; lia. }
    assert (Z.abs (n * M - 2 ^ (109 - t) * A) * 2 ^ t <= n * 2 ^ t); [|nia].
    rewrite <- (Z.abs_eq (2 ^ t)) at 1 by lia. rewrite <- Z.abs_mul, Z.mul_sub_distr_r. rewrite Hm in Hab.
    replace (n * M * 2 ^ t) with (n * 2 ^ t * M) by ring.
    replace (2 ^ (109 - t) * A * 2 ^ t) with (A * (2 ^ (109 - t) * 2 ^ t)) by ring. rewrite HP.
    replace (A * (2 * 2 ^ 108)) with (2 * (A * 2 ^ 108)) by ring. exact Hab.
  - intros Hmod. apply Z.mod_divide in Hmod as [T HT]; [|lia].
    assert (M = T * 2 ^ (109 - t)) as HMe.
    { assert (2 ^ 108 = 2 ^ (108 - t) * 2 ^ t) as Hp by (rewrite <- Z.pow_add_r by lia; f_equal; lia).
      assert (2 ^ (109 - t) = 2 * 2 ^ (108 - t)) as Hp2 by (replace (109 - t) with (1 + (108 - t)) by lia; rewrite Z.pow_add_r by lia; lia).
      assert (A * 2 ^ 108 = T * 2 ^ (108 - t) * m) as Hmm by (rewrite Hm, HT, Hp; ring).
      unfold M. rewrite Hmm, Z.mod_mul, Z.div_mul by lia. rewrite bool_decide_eq_true_2 by done. lia. }
    assert (0 < T) by nia. assert (T < 2 ^ 53) by nia.
    assert (bitLen (T * 2 ^ (109 - t)) <= 162 - t).
    { apply bitLen_le; [|lia]. replace (162 - t) with (53 + (109 - t)) by lia. rewrite (Z.pow_add_r 2 53) by lia.
      assert (0 < 2 ^ (109 - t)) by (apply Z.pow_pos_nonneg; lia). nia. }
    destruct (roundBits_exact 53 T (109 - t)) as (q' & s' & Hr' & _ & He); [lia..|].
    rewrite HMe in Hr. rewrite Hr in Hr'. injection Hr' as <- <-. rewrite He, HT. ring.
Qed.

Lemma servicerShare_exact (appSessionTokens : Z) (n : nat) :
  0 <= appSessionTokens < 2 ^ 53 -> 0 < Z.of_nat n < 2 ^ 53 ->
  servicerShare (S754_zero false) appSessionTokens n = Ok (Some (appSessionTokens / Z.of_nat n)).
Proof.
  intros HA Hn. unfold servicerShare. destruct (ofZ_small (Z.of_nat n) Hn) as (m & t & Ht & -> & Hm & Hm53). cbn [NewFloat].
  change (fadd (ofZ 1) (S754_zero false)) with (S754_finite false (2 ^ 52) (-52)). cbn [NewFloat].
  unfold SetInt. change (roundFloat 53 appSessionTokens 0) with (bigNewFloat appSessionTokens). rewrite bigNewFloat_small by done.
  unfold Quo. cbn [fmant]. rewrite (proj2 (Z.eqb_neq (Zpos m) 0)) by lia. cbn [Mul]. unfold Int. do 2 f_equal.
  destruct (decide (appSessionTokens = 0)) as [->|HA0].
  { unfold bigFloatQuo. cbn [fmant fexp fprec]. change (Z.sgn 0) with 0. rewrite !Z.mul_0_l. rewrite !Z.div_0_l by lia.
    unfold bigFloatInt. case_bool_decide; reflexivity. }
  destruct (quo_run appSessionTokens (Zpos m) (Z.of_nat n) t) as (q & s & -> & Hs & Hq & Hbetween); [lia..|].
  destruct (mul_one q (t - 109 + s) Hq) as (q' & s' & Hmul & Hs' & Hq' & He). change (Zpos (2 ^ 52)) with (2 ^ 52). rewrite Hmul.
  rewrite (bigFloatInt_value _ _ _ 161) by lia.
  replace (t - 109 + s + -52 + s' + 161) with (s' + (s + t)) by lia. rewrite Z.pow_add_r, Z.mul_assoc, He, Z.pow_add_r by lia.
  replace (q * 2 ^ 52 * (2 ^ s * 2 ^ t)) with (q * 2 ^ s * (2 ^ (t + 52))) by (rewrite Z.pow_add_r by lia; ring).
  replace (2 ^ 161) with (2 ^ (109 - t) * 2 ^ (t + 52)) by (rewrite <- Z.pow_add_r by lia; f_equal; lia).
  rewrite Z.div_mul_cancel_r by (apply Z.pow_nonzero; lia).
  symmetry. apply (Z.div_unique_pos _ _ _ (q * 2 ^ s - 2 ^ (109 - t) * (appSessionTokens / Z.of_nat n))); lia.
Qed.

(** C26: Without a margin for accuracy and below 2^53 tokens the budget of a servicer is the
    exact integer share: the floating-point computation loses nothing. *)
Theorem servicer_budget_exact (appSessionTokens : Z) (n : nat) :
  0 <= appSessionTokens < 2 ^ 53 -> 0 < Z.of_nat n < 2 ^ 53 ->
  servicerShare (S754_zero false) appSessionTokens n = Ok (Some (appSessionTokens / Z.of_nat n)).
Proof. apply servicerShare_exact. Qed.

Lemma servicer_budget_exact_witness : servicerShare (S754_zero false) 1000 3 = Ok (Some 333).
Proof. apply (servicer_budget_exact 1000 3); lia. Defined.
End ShareFacts.

(** ** Admission *)
Module ServicerFacts.
Import Node Session Relay Servicer SessionFacts.

Section facts.
Context {L : Type} `{LC : LocalContext L} `{RT : RelayText} `{HL : HttpLib} `{RC : RelayCodec}.
Context `{RS : RandSource} `{MO : GoMapOrder} `{CP : CryptoPrims} `{GC : GoConversion}.
Context (w : Modules) (currentHeight : Z) (fuel : nat).
Implicit Types (s : servicer L) (ses : Session).

Notation start := (startingTokenCountAvailable w).

Lemma liftRes_ok {A} f (r : res string A) s a s' : liftRes f r s = (Ok a, s') <-> r = Ok a /\ s = s'.
Proof. unfold liftRes, of_res. destruct r; naive_solver. Qed.

(** The conditions a relay is admitted under, as the code checks them: the chain is configured
    and staked for, the servicer is in the session, the block height lies in the window, and
    the tokens used are below the budget; [s'] is the servicer with the budget cached. *)
Definition admitted s (relay : Relay) s' : Prop := exists meta chain zone actor ses budget used,
  Meta relay = Some meta /\ Relay.RelayChain meta = Some chain /\ Relay.GeoZone meta = Some zone /\
  is_Some (Services (config s) !! ident_Id chain) /\
  GetServicer (contextAt (i64 currentHeight) (committedDB w)) (cfg_Address (config s)) (i64 currentHeight) = Ok actor /\
  contains (Chains actor) (ident_Id chain) = true /\
  GetSession fuel w (ApplicationAddress meta) (i64 currentHeight) (ident_Id chain) (ident_Id zone) = Ok ses /\
  i64 (SessionNumber ses * NumSessionBlocks ses) <= BlockHeight meta <= i64 (i64 (SessionNumber ses * NumSessionBlocks ses) + SessionHeight ses) /\
  ServicerPublicKey meta = cfg_PublicKey (config s) /\ ServicerPublicKey meta ∈ PublicKey <$> Servicers ses /\
  start ses s = (Ok budget, s') /\ GetSessionTokensUsed ses (local s') = Ok used /\
  match used with None => True | Some u => exists b, budget = Some b /\ u < b end.

Lemma chain_support_ok chain h s s' :
  validateRelayChainSupport w chain h s = (Ok tt, s') <->
  s' = s /\ is_Some (Services (config s) !! ident_Id chain) /\
  exists actor, GetServicer (contextAt h (committedDB w)) (cfg_Address (config s)) h = Ok actor /\ contains (Chains actor) (ident_Id chain) = true.
Proof.
  unfold validateRelayChainSupport, NewReadContext. rewrite bind_get. destruct (Services (config s) !! ident_Id chain) as [sc|] eqn:Hs.
  2:{ split; [done|]. by intros (_ & [? ?] & _). }
  rewrite bind_ok. split.
  - intros (ctx & s1 & Hc & Hr). apply liftRes_ok in Hc as [Hc <-]. injection Hc as <-.
    apply bind_ok in Hr as (actor & s2 & Ha & Hr). apply liftRes_ok in Ha as [Ha <-]. destruct (contains _ _) eqn:Hcon; cbn in Hr; [|done].
    apply mret_ok in Hr as [_ <-]. eauto 6.
  - intros (-> & _ & actor & Ha & Hcon). eexists _, _. split; [by apply liftRes_ok|]. apply bind_ok.
    eexists actor, s. split; [by apply liftRes_ok|]. by rewrite Hcon.
Qed.

Lemma validate_meta_ok relay h s s' :
  validateRelayMeta w (Meta relay) h s = (Ok tt, s') <->
  exists meta chain, Meta relay = Some meta /\ Relay.RelayChain meta = Some chain /\ validateRelayChainSupport w chain h s = (Ok tt, s').
Proof.
  unfold validateRelayMeta. destruct (Meta relay) as [meta|]; [|naive_solver]. destruct (Relay.RelayChain meta) as [chain|] eqn:Hch; [|naive_solver].
  rewrite wrap_err_ok. naive_solver.
Qed.

Lemma validate_servicer_ok meta ses s s' :
  validateServicer meta ses s = (Ok tt, s') <->
  s' = s /\ ServicerPublicKey meta = cfg_PublicKey (config s) /\ ServicerPublicKey meta ∈ PublicKey <$> Servicers ses.
Proof.
  unfold validateServicer. rewrite bind_get. case_bool_decide as Hk; cbn; [|naive_solver].
  destruct (existsb _ _) eqn:He.
  - rewrite mret_ok. apply existsb_exists in He as (a & Ha & Hpk). apply bool_decide_eq_true in Hpk. split; [|naive_solver].
    intros [_ <-]. split; [done|]. split; [done|]. apply list_elem_of_fmap. exists a. split; [done|]. by apply list_elem_of_In.
  - split; [done|]. intros (-> & _ & Hin). apply list_elem_of_fmap in Hin as (a & Hpk & Ha). exfalso.
    apply not_true_iff_false in He. apply He, existsb_exists. exists a. split; [by apply list_elem_of_In|]. by apply bool_decide_eq_true.
Qed.

Lemma should_mine_ok ses s s' :
  shouldMineRelay w ses s = (Ok tt, s') <->
  exists budget used, start ses s = (Ok budget, s') /\ GetSessionTokensUsed ses (local s') = Ok used /\
    match used with None => True | Some u => exists b, budget = Some b /\ u < b end.
Proof.
  unfold shouldMineRelay. rewrite bind_ok. setoid_rewrite wrap_err_ok. split.
  - intros (budget & s1 & Hb & Hr). rewrite bind_get in Hr. apply bind_ok in Hr as (used & s2 & Hu & Hr). apply liftRes_ok in Hu as [Hu <-].
    destruct used as [u|]; [|apply mret_ok in Hr as [_ <-]; by exists budget, None]. destruct budget as [b|]; [|done].
    destruct (Z.ltb_spec u b); [|done]. apply mret_ok in Hr as [_ <-]. exists (Some b), (Some u). eauto 6.
  - intros (budget & used & Hb & Hu & Hr). exists budget, s'. split; [done|]. rewrite bind_get. apply bind_ok. exists used, s'.
    split; [by apply liftRes_ok|]. destruct used as [u|]; [|done]. destruct Hr as (b & -> & Hlt). by rewrite (proj2 (Z.ltb_lt u b) Hlt).
Qed.

Lemma admit_ok s (relay : Relay) s' :
  admitRelay w currentHeight fuel (Some relay) s = (Ok tt, s') <-> admitted s relay s'.
Proof.
  unfold admitRelay, admitted. rewrite bind_ok. split.
  - intros ([] & s1 & Hm & Hr). apply wrap_err_ok, validate_meta_ok in Hm as (meta & chain & Hmeta & Hchain & Hm).
    apply chain_support_ok in Hm as (-> & Hsvc & actor & Hact & Hcon). apply bind_ok in Hr as (ses & s1 & Hses & Hr).
    unfold getSession in Hses. rewrite Hmeta, Hchain in *. destruct (Relay.GeoZone meta) as [zone|] eqn:Hz; [|done]. apply liftRes_ok in Hses as [Hses <-].
    apply bind_ok in Hr as ([] & s1 & Hbh & Hr). apply wrap_err_ok, of_res_ok in Hbh as [Hbh <-]. unfold validateRelayBlockHeight in Hbh.
    destruct (_ && _) eqn:Hwin; [|done]. apply andb_true_iff in Hwin as [?%Z.leb_le ?%Z.leb_le].
    apply bind_ok in Hr as ([] & s1 & Hv & Hr). apply wrap_err_ok, validate_servicer_ok in Hv as (-> & Hpk & Hin).
    apply wrap_err_ok, should_mine_ok in Hr as (budget & used & ?). exists meta, chain, zone, actor, ses, budget, used. naive_solver.
  - intros (meta & chain & zone & actor & ses & budget & used & Hmeta & Hchain & Hz & Hsvc & Hact & Hcon & Hses & Hwin & Hpk & Hin & Hst & Hu & Hb).
    exists tt, s. split; [apply wrap_err_ok, validate_meta_ok; exists meta, chain; rewrite chain_support_ok; eauto 8|]. apply bind_ok. exists ses, s. unfold getSession. rewrite Hmeta, Hchain, Hz.
    split; [by apply liftRes_ok|]. apply bind_ok. exists tt, s. split.
    { apply wrap_err_ok, of_res_ok. split; [|done]. unfold validateRelayBlockHeight.
      by rewrite (proj2 (Z.leb_le _ _) (proj1 Hwin)), (proj2 (Z.leb_le _ _) (proj2 Hwin)). }
    apply bind_ok. exists tt, s. split; [by apply wrap_err_ok, validate_servicer_ok|]. apply wrap_err_ok, should_mine_ok. eauto.
Qed.

(** The window of block heights a session accepts, for a session as the metadata step
    builds it: from the first block of the session to twice its height.  The last block of the
    session is not what bounds it. *)
Theorem relay_height_window (meta : RelayMeta) ses k n :
  SessionNumber ses = k -> NumSessionBlocks ses = n -> SessionHeight ses = k * n -> 0 <= k * n < 2 ^ 62 ->
  validateRelayBlockHeight meta ses = Ok tt <-> k * n <= BlockHeight meta <= 2 * (k * n).
Proof.
  intros Hk Hn Hh Hb. unfold validateRelayBlockHeight. rewrite Hk, Hn, Hh. rewrite (i64_small (k * n)), (i64_small (k * n + k * n)) by (unfold in_i64; lia).
  destruct (Z.leb_spec (k * n) (BlockHeight meta)), (Z.leb_spec (BlockHeight meta) (k * n + k * n)); cbn; split; intros ?; try done; lia.
Qed.

(** *** The cache *)
Lemma start_cached ses s app t :
  Application ses = Some app -> cacheHit ses (totalTokens s !! PublicKey app) = Some t -> start ses s = (Ok (Some t), s).
Proof.
  intros Happ Hc. unfold startingTokenCountAvailable, cachedAppTokens. rewrite Happ, bind_eq. cbn. by rewrite Hc.
Qed.

Lemma start_caches ses s app b s' :
  Application ses = Some app -> start ses s = (Ok (Some b), s') -> cacheHit ses (totalTokens s' !! PublicKey app) = Some b.
Proof.
  intros Happ. unfold startingTokenCountAvailable, cachedAppTokens, setAppSessionTokens. rewrite Happ, bind_eq. cbn [gets].
  destruct (cacheHit ses (totalTokens s !! PublicKey app)) as [t|] eqn:Hc; [by intros [= <- <-]|].
  intros Hr. apply bind_ok in Hr as (A & s1 & _ & Hr). rewrite bind_get in Hr. apply bind_ok in Hr as (r & s2 & _ & Hr).
  apply bind_ok in Hr as ([] & s3 & Hm & Hr). apply mret_ok in Hr as [-> <-]. injection Hm as <-. cbn.
  rewrite lookup_insert_eq. cbn. by rewrite Z.eqb_refl.
Qed.

(** Once a budget is computed, every later call for the application and the session number
    returns it and changes nothing, also when it is about a session on another chain with
    another number of servicers. *)
Theorem budget_cached ses1 ses2 s s' app1 app2 b :
  Application ses1 = Some app1 -> Application ses2 = Some app2 -> PublicKey app1 = PublicKey app2 ->
  SessionNumber ses1 = SessionNumber ses2 -> start ses1 s = (Ok (Some b), s') -> start ses2 s' = (Ok (Some b), s').
Proof.
  intros H1 H2 Hpk Hn Hs. apply (start_cached _ _ app2); [done|]. pose proof (start_caches ses1 s app1 b s' H1 Hs) as Hc.
  unfold cacheHit in *. by rewrite <- Hpk, <- Hn.
Qed.

(** *** The configuration is never changed *)
Lemma keeps_liftRes {A X} (f : servicer L -> X) g (r : res string A) : keeps f (liftRes g r).
Proof. by intros s. Qed.
Lemma keeps_wrap {A X E E'} (f : servicer L -> X) (g : E -> E') (m : M (servicer L) E A) : keeps f m -> keeps f (wrap_err g m).
Proof. intros Hm s. specialize (Hm s). unfold wrap_err. by destruct (m s) as [[]]. Qed.
Hint Resolve keeps_liftRes keeps_wrap : keeps.

Lemma keeps_calculate ses : keeps (config (L := L)) (calculateAppSessionTokens (L := L) w ses).
Proof. unfold calculateAppSessionTokens. destruct (Application ses); solve_keeps. Qed.
Lemma keeps_start ses : keeps (config (L := L)) (start ses).
Proof.
  unfold startingTokenCountAvailable, cachedAppTokens, setAppSessionTokens. destruct (Application ses) as [app|]; [|by intros s].
  apply keeps_bind; [apply keeps_gets|]. intros tokens. destruct (cacheHit _ _); [apply keeps_ret|].
  apply keeps_bind; [apply keeps_wrap, keeps_calculate|]. intros a. apply keeps_bind; [apply keeps_get|]. intros s1.
  apply keeps_bind; [apply keeps_liftRes|]. intros r. apply keeps_bind; [by apply keeps_modify|]. intros _. apply keeps_ret.
Qed.

(** *** When a relay is admitted *)

(** The numbers of a session. *)
Definition sessionMeta (x : sessionHydrator) : Z * Z * Z :=
  (SessionNumber (session x), SessionHeight (session x), NumSessionBlocks (session x)).
Lemma keeps_wrapS {X} (f : sessionHydrator -> X) (g : string -> string) (m : M sessionHydrator string unit) : keeps f m -> keeps f (wrap_err g m).
Proof. intros Hm x. specialize (Hm x). unfold wrap_err. by destruct (m x) as [[]]. Qed.
Hint Resolve keeps_wrapS : keeps.
Lemma keeps_sessionMeta appAddr :
  keeps sessionMeta (wrap_err (fun e => "failed to hydrate session application: " +:+ e) (hydrateSessionApplication appAddr) ;;
    wrap_err (fun e => "failed to validate application session: " +:+ e) validateApplicationSession ;;
    wrap_err (fun e => "failed to hydrate session ID: " +:+ e) hydrateSessionID ;;
    wrap_err (fun e => "failed to hydrate session servicers: " +:+ e) (hydrateSessionServicers fuel) ;;
    wrap_err (fun e => "failed to hydrate session fishermen: " +:+ e) (hydrateSessionFishermen fuel)).
Proof.
  repeat (apply keeps_bind; [apply keeps_wrapS|intros _]); [..|apply keeps_wrapS].
  - unfold hydrateSessionApplication. solve_keeps.
  - unfold validateApplicationSession. solve_keeps.
  - unfold hydrateSessionID. intros x. rewrite bind_get, bind_eq. unfold of_res.
    destruct (GetBlockHash _ _) as [b| |]; [|done..]. destruct (hexDecode b); [|done]. by destruct (Application (session x)).
  - unfold hydrateSessionServicers. solve_keeps.
  - unfold hydrateSessionFishermen. solve_keeps.
Qed.

Lemma session_numbers appAddr h chain zone ses n :
  GetSession fuel w appAddr h chain zone = Ok ses -> GetIntParam (committedDB w) BlocksPerSessionParamName h = Ok n -> 0 < n -> 0 <= h < 2 ^ 63 ->
  SessionNumber ses = h / n /\ SessionHeight ses = h / n * n /\ NumSessionBlocks ses = n.
Proof.
  intros Hs Hp Hn Hh. unfold GetSession, NewReadContext in Hs.
  match type of Hs with context [hydrate _ _ ?a] => set (x0 := a) in Hs end.
  destruct (metadata_run x0 n) as (x1 & Hr & _ & _ & Hx1); [by rewrite (GetIntParam_db _ (committedDB w))|done|done|].
  unfold hydrate in Hs. rewrite bind_eq in Hs. unfold wrap_err at 1 in Hs. rewrite Hr in Hs.
  pose proof (keeps_sessionMeta appAddr x1) as Hk.
  match type of Hs with context [match ?m x1 with _ => _ end] => destruct (m x1) as [[[]| |] x2] end; [|done..].
  injection Hs as <-. unfold sessionMeta in Hk. cbn [snd] in Hk. rewrite Hx1 in Hk. injection Hk as E1 E2 E3. done.
Qed.

(** The tokens a servicer may use for an application in session [k]: what its cache holds for this
    session, or else the share of the stake times the multiplier. *)
Definition budgetFor s (app : Actor) (k tokens : Z) (servicers : nat) : Z :=
  match totalTokens s !! PublicKey app with
  | Some {| sessionNumber := k'; startingTokens := Some t |} => if decide (k' = k) then t else tokens / Z.of_nat servicers
  | _ => tokens / Z.of_nat servicers
  end.

Lemma start_budget ses s app A mult :
  Application ses = Some app -> StringToBigInt (StakedAmount app) = Ok A ->
  GetIntParam (committedDB w) AppSessionTokensMultiplierParamName (SessionHeight ses) = Ok mult ->
  0 <= A * mult < 2 ^ 53 -> RelayMiningVolumeAccuracy (config s) = S754_zero false -> 0 < Z.of_nat (length (Servicers ses)) < 2 ^ 53 ->
  let b := budgetFor s app (SessionNumber ses) (A * mult) (length (Servicers ses)) in
  start ses s = (Ok (Some b), {| config := config s;
    totalTokens := <[PublicKey app := {| sessionNumber := SessionNumber ses; startingTokens := Some b |}]> (totalTokens s); local := local s |}).
Proof.
  intros Happ HA Hmult Hr Hacc Hn b.
  assert (cacheHit ses (totalTokens s !! PublicKey app) = Some b /\
            totalTokens s !! PublicKey app = Some {| sessionNumber := SessionNumber ses; startingTokens := Some b |} \/
          cacheHit ses (totalTokens s !! PublicKey app) = None /\ b = A * mult / Z.of_nat (length (Servicers ses))) as [[Hc Hl]|[Hc Hb]].
  { unfold b, budgetFor, cacheHit. destruct (totalTokens s !! PublicKey app) as [[k' [t|]]|]; cbn; [|by right; destruct (_ =? _)|by right].
    destruct (Z.eqb_spec k' (SessionNumber ses)) as [->|Hne]; [left; by rewrite decide_True|right; by rewrite decide_False]. }
  - rewrite (start_cached ses s app b Happ Hc). rewrite insert_id by done. by destruct s.
  - unfold startingTokenCountAvailable, cachedAppTokens, setAppSessionTokens. rewrite Happ, bind_eq. cbn [gets]. rewrite Hc.
    unfold calculateAppSessionTokens. rewrite Happ.
    erewrite bind_run by (unfold wrap_err; erewrite bind_run by (apply liftRes_ok; split; [exact HA|reflexivity]);
      erewrite bind_run by (apply liftRes_ok; split; [reflexivity|reflexivity]);
      erewrite bind_run by (apply liftRes_ok; split; [by rewrite (GetIntParam_db _ (committedDB w))|reflexivity]); reflexivity).
    rewrite bind_get, Hacc. erewrite bind_run by (apply liftRes_ok; split; [by apply ShareFacts.servicerShare_exact|reflexivity]).
    by rewrite Hb.
Qed.


(** *** Panics and dead ends *)

(** A relay without a geo zone stops the node. *)
Theorem nil_geo_zone_panics s (relay : Relay) meta chain :
  Meta relay = Some meta -> Relay.RelayChain meta = Some chain -> Relay.GeoZone meta = None ->
  validateRelayChainSupport w chain (i64 currentHeight) s = (Ok tt, s) ->
  (HandleRelay w currentHeight fuel (Some relay) s).1 = Panic.
Proof.
  intros Hm Hc Hz Hv. unfold HandleRelay, admitRelay. rewrite bind_eq. unfold wrap_err at 1. rewrite bind_eq.
  assert (wrap_err (fun e => withSentinel (etext e) errValidateRelayMeta) (validateRelayMeta w (Meta relay) (i64 currentHeight)) s = (Ok tt, s)) as ->.
  { apply wrap_err_ok, validate_meta_ok. eauto. }
  rewrite bind_eq. unfold getSession. by rewrite Hm, Hc, Hz.
Qed.

(** An admitted REST relay stops the node: it has no response, and the response is signed. *)
Theorem rest_relay_panics s s' (relay : Relay) p :
  relayPayload relay = Some (Relay_RestPayload p) -> admitRelay w currentHeight fuel (Some relay) s = (Ok tt, s') ->
  (forall r, exists b, marshalReqRes r = inl b) ->
  (HandleRelay w currentHeight fuel (Some relay) s).1 = Panic.
Proof.
  intros Hp Ha Hmar. pose proof Ha as Hadm. apply admit_ok in Hadm as (meta & chain & zone & actor & ses & budget & used & Hm & Hc & Hz & [sc Hsvc] & _ & _ & Hses & _ & _ & _ & Hst & _).
  pose proof (keeps_start ses s) as Hcfg. rewrite Hst in Hcfg. cbn in Hcfg. unfold HandleRelay. rewrite bind_eq. unfold wrap_err at 1. rewrite Ha. rewrite bind_eq. unfold wrap_err at 1, executeRelay. rewrite Hp.
  unfold executeRESTRelay. rewrite Hm, Hc, bind_get, Hcfg, Hsvc. cbn [mret M_ret]. rewrite bind_eq. unfold getSession. rewrite Hm, Hc, Hz.
  unfold liftRes at 1, of_res. rewrite Hses. rewrite bind_eq. unfold wrap_err, isRelayVolumeApplicable.
  destruct (Hmar {| rr_Relay := relay; rr_Response := None |}) as [b ->]. done.
Qed.

(** A servicer whose configured address is the hexadecimal text of its address admits no
    relay at all: the text is taken as the address itself and encoded once more, so the servicer
    is never found in a state in which addresses have 20 bytes. *)
Theorem hex_address_admits_nothing s relay s' (a : bytes) :
  cfg_Address (config s) = hexEncode a -> String.length a = 20%nat ->
  (forall key, is_Some (actorTable (db (committedDB w)) ServicerActor !! key) -> String.length key = 40%nat) ->
  ¬ admitRelay w currentHeight fuel (Some relay) s = (Ok tt, s').
Proof.
  intros Hcfg Ha Hkeys Hadm. apply admit_ok in Hadm as (meta & chain & zone & actor & ses & budget & used & _ & _ & _ & _ & Hact & _).
  unfold GetServicer, getActor, selectActor, selectLatest in Hact. cbn [db contextAt] in Hact. rewrite Hcfg in Hact.
  destruct (actorTable _ ServicerActor !! _) as [h|] eqn:Hl; [|done].
  specialize (Hkeys _ ltac:(eauto)). rewrite !hexEncode_length, Ha in Hkeys. lia.
Qed.

(** What a served relay returns: it was admitted, a JSON-RPC payload was posted to the URL
    configured for its chain, the response carries the body of the answer and the hash of the
    relay and that body, and nothing is recorded: no relay ever counts against the budget. *)
Theorem served_relay s (relay : Relay) resp s' :
  HandleRelay w currentHeight fuel (Some relay) s = (Ok resp, s') ->
  admitted s relay s' /\ exists payload meta chain cfg bz body rr,
    relayPayload relay = Some (Relay_JsonRpcPayload payload) /\ Meta relay = Some meta /\ Relay.RelayChain meta = Some chain /\
    Services (config s) !! ident_Id chain = Some cfg /\ marshalJSONRPC payload = inl bz /\
    executeHTTPRelay cfg bz (Headers payload) = Ok {| Payload := body; ServicerSignature := "" |} /\
    marshalReqRes {| rr_Relay := relay; rr_Response := Some {| Payload := body; ServicerSignature := "" |} |} = inl rr /\
    resp = {| Payload := body; ServicerSignature := hexEncode (SHA3Hash rr) |}.
Proof.
  unfold HandleRelay. intros Hr. apply bind_ok in Hr as ([] & s1 & Ha & Hr). apply wrap_err_ok in Ha.
  apply admit_ok in Ha. pose proof Ha as (meta & chain & zone & actor & ses & budget & used & Hm & Hc & Hz & [cfg Hcfg] & _ & _ & Hses & _ & _ & _ & Hst & _).
  pose proof (keeps_start ses s) as Hkeep. rewrite Hst in Hkeep. cbn in Hkeep.
  apply bind_ok in Hr as (r & s2 & He & Hr). apply wrap_err_ok in He. unfold executeRelay in He. rewrite Hm in He.
  destruct (relayPayload relay) as [[payload|rest]|] eqn:Hp; [| |done].
  2:{ exfalso. unfold executeRESTRelay in He. rewrite Hc, bind_get, Hkeep, Hcfg in He. apply mret_ok in He as [<- <-].
      apply bind_ok in Hr as (ses' & s3 & _ & Hr). apply bind_ok in Hr as ([[[? ?] ?] ?] & s4 & Hv & _). apply wrap_err_ok in Hv.
      unfold isRelayVolumeApplicable in Hv. by destruct (marshalReqRes _). }
  unfold executeJsonRPCRelay in He. rewrite Hc in He. case_bool_decide as Hid; [done|]. rewrite bind_get, Hkeep, Hcfg in He.
  destruct (marshalJSONRPC payload) as [bz|] eqn:Hbz; [|done]. apply bind_ok in He as (resp0 & s3 & Hx & He). apply of_res_ok in Hx as [Hx <-].
  apply mret_ok in He as [<- <-]. apply bind_ok in Hr as (ses' & s3 & Hg & Hr). unfold getSession in Hg. rewrite Hm, Hc, Hz in Hg.
  apply liftRes_ok in Hg as [_ <-]. apply bind_ok in Hr as ([[[dig rb] store] resp'] & s4 & Hv & Hr). apply wrap_err_ok in Hv.
  unfold isRelayVolumeApplicable in Hv. destruct (marshalReqRes _) as [rr|] eqn:Hrr; [|done].
  apply bind_ok in Hv as (b & s5 & Hon & Hv). apply liftRes_ok in Hon as [[= <-] <-]. apply mret_ok in Hv as [[= <- <- <- <-] <-].
  cbn in Hr. apply mret_ok in Hr as [<- <-]. split; [done|].
  assert (exists body, resp0 = {| Payload := body; ServicerSignature := "" |}) as [body ->].
  { unfold executeHTTPRelay in Hx. repeat case_match; simplify_eq. eauto. }
  exists payload, meta, chain, cfg, bz, body, rr. done.
Qed.
End facts.

(** ** A concrete servicer *)
Module ServicerToy.
#[local] Existing Instances CountingSource.source CanonicalOrder.order ToyCrypto.prims SessionToy.conversion Local.persistenceLocalContext.
#[local] Instance text : RelayText := {| jsonError _ := None; relayText _ := "relay"; metaText _ := "meta" |}.
#[local] Instance http : HttpLib := {| urlParse u := Ok u; newRequestError _ := None; basicAuthHeader u p := (u +:+ ":" +:+ p)%string;
  CanonicalHeaderKey k := k; Do r _ := Ok (Ok (req_URL r +:+ req_Body r)%string) |}.
#[local] Instance codec : RelayCodec := {| marshalJSONRPC p := inl (Method p); marshalReqRes r := inl (from_option Payload "" (rr_Response r));
  jsonRPCText _ := "payload" |}.

Definition configOf (address : string) : ServicerConfig := {| Enabled := true; cfg_PublicKey := hexEncode (SessionToy.pk 2); cfg_Address := address;
  Services := {[ "0001" := {| Url := "https://chain/"; TimeoutMsec := 100; auth := None |} ]}; RelayMiningVolumeAccuracy := S754_zero false |}.
Definition state (address : string) : servicer unit := {| config := configOf address; totalTokens := ∅; local := tt |}.

Definition relay (h : Z) (p : RelayPayload) : Relay := {| relayPayload := Some p; Meta := Some {| BlockHeight := h;
  ServicerPublicKey := hexEncode (SessionToy.pk 2); Relay.RelayChain := Some {| ident_Id := "0001"; ident_Name := "" |};
  Relay.GeoZone := Some {| ident_Id := ""; ident_Name := "" |}; Signature := ""; ApplicationAddress := hexEncode (SessionToy.addr 1) |} |}.
Definition payload : JSONRPCPayload := {| jsonrpc_Id := ""; JsonRpc := "2.0"; Method := "eth_blockNumber"; Parameters := ""; Headers := ∅ |}.

Definition serve (address : string) (h : Z) (p : RelayPayload) : res SErr RelayResponse * servicer unit :=
  HandleRelay SessionToy.modules 7 10 (Some (relay h p)) (state address).

Example json_relay_served : from_option Payload "" (match (serve (SessionToy.addr 2) 7 (Relay_JsonRpcPayload payload)).1 with Ok r => Some r | _ => None end)
  = "https://chain/eth_blockNumber".
Proof. vm_compute. reflexivity. Qed.
(** A height after the session, and one inside it in the first session. *)
Example late_relay_served : match (serve (SessionToy.addr 2) 10 (Relay_JsonRpcPayload payload)).1 with Ok _ => True | _ => False end.
Proof. vm_compute. done. Qed.
Example rest_relay_stops : (serve (SessionToy.addr 2) 7 (Relay_RestPayload {| Contents := ""; HttpPath := ""; RequestType := 0 |})).1 = Panic.
Proof. vm_compute. done. Qed.

Definition sessionFor (servicers : list Actor) : Session := match SessionToy.sessionAt 7 with
  | Ok x => {| Id := Id x; SessionNumber := SessionNumber x; SessionHeight := SessionHeight x; NumSessionBlocks := NumSessionBlocks x;
       Session.RelayChain := Session.RelayChain x; Session.GeoZone := Session.GeoZone x; Application := Application x;
       Servicers := servicers; Fishermen := [] |}
  | _ => emptySession "" "" end.
Definition oneServicer : list Actor := take 1 (Servicers (match SessionToy.sessionAt 7 with Ok x => x | _ => emptySession "" "" end)).
Definition cachedState : servicer unit := (startingTokenCountAvailable SessionToy.modules (sessionFor oneServicer) (state (SessionToy.addr 2))).2.
(** The session of the heights 5 to 9, with two of the three servicers, and its application. *)
Definition toySession : Session := Eval vm_compute in match SessionToy.sessionAt 7 with Ok x => x | _ => emptySession "" "" end.
Definition toyApp : Actor := Eval vm_compute in match Application toySession with
  | Some a => a
  | None => {| ActorType := 0; Address := ""; PublicKey := ""; Chains := None; ServiceUrl := ""; StakedAmount := ""; PausedHeight := 0;
               UnstakingHeight := 0; Output := "" |} end.
Definition admission (h : Z) : res SErr unit * servicer unit :=
  admitRelay SessionToy.modules 7 10 (Some (relay h (Relay_JsonRpcPayload payload))) (state (SessionToy.addr 2)).

(** The stake of 100 times the multiplier of 10, divided between two servicers: 500 tokens are cached. *)
Definition afterAdmission : servicer unit := {| config := config (state (SessionToy.addr 2));
  totalTokens := {[ PublicKey toyApp := {| sessionNumber := 1; startingTokens := Some 500 |} ]}; local := tt |}.
End ServicerToy.

Import ServicerToy.

(** With one servicer the budget is 1000 tokens; with two it would be 500, but for the cache. *)
Lemma budget_cached_witness :
  startingTokenCountAvailable SessionToy.modules (sessionFor (oneServicer ++ oneServicer)) cachedState = (Ok (Some 1000), cachedState).
Proof.
  eapply (budget_cached SessionToy.modules (sessionFor oneServicer) _ (state (SessionToy.addr 2))); vm_compute; reflexivity.
Defined.

Definition metaAt (h : Z) : RelayMeta := {| BlockHeight := h; ServicerPublicKey := ""; Relay.RelayChain := None; Relay.GeoZone := None;
  Signature := ""; ApplicationAddress := "" |}.

(** Height 10 is after the session of the heights 5 to 9. *)
Lemma relay_height_window_witness : validateRelayBlockHeight (metaAt 10) (sessionFor []) = Ok tt <-> 1 * 5 <= BlockHeight (metaAt 10) <= 2 * (1 * 5).
Proof. apply (relay_height_window (metaAt 10) (sessionFor []) 1 5); [vm_compute; reflexivity..|lia]. Defined.


Definition hexState : servicer unit := state (hexEncode (SessionToy.addr 2)).

Lemma hex_address_admits_nothing_witness :
  ¬ @admitRelay unit Local.persistenceLocalContext text CountingSource.source CanonicalOrder.order ToyCrypto.prims SessionToy.conversion
      SessionToy.modules 7 10 (Some (relay 7 (Relay_JsonRpcPayload payload))) hexState = (Ok tt, hexState).
Proof.
  apply (@hex_address_admits_nothing unit Local.persistenceLocalContext text CountingSource.source CanonicalOrder.order ToyCrypto.prims SessionToy.conversion
    SessionToy.modules 7 10 hexState _ hexState (SessionToy.addr 2)); [reflexivity|reflexivity|].
  intros key [h Hh]. assert (map_Forall (fun k (_ : Hist ActorRow) => String.length k = 40%nat) (actorTable (db (committedDB SessionToy.modules)) ServicerActor)) as Hall.
  { apply (bool_decide_unpack _). vm_compute. exact I. }
  exact (Hall key h Hh).
Defined.

Definition served : res SErr RelayResponse * servicer unit := serve (SessionToy.addr 2) 7 (Relay_JsonRpcPayload payload).

Lemma served_relay_witness :
  @admitted unit Local.persistenceLocalContext CountingSource.source CanonicalOrder.order ToyCrypto.prims SessionToy.conversion
    SessionToy.modules 7 10 (state (SessionToy.addr 2)) (relay 7 (Relay_JsonRpcPayload payload)) served.2.
Proof.
  destruct (@served_relay unit Local.persistenceLocalContext text http codec CountingSource.source CanonicalOrder.order ToyCrypto.prims SessionToy.conversion
    SessionToy.modules 7 10 (state (SessionToy.addr 2)) (relay 7 (Relay_JsonRpcPayload payload))
    {| Payload := "https://chain/eth_blockNumber"; ServicerSignature := hexEncode (ToyCrypto.pad 32 "https://chain/eth_blockNumber") |} served.2) as [Hadm _].
  - vm_compute. reflexivity.
  - exact Hadm.
Defined.
End ServicerFacts.
