(* ===== verification/Utility.v ===== *)
(** The utility module: which actor modules a node runs, how transactions enter the mempool, and
    the entry points of relays (src/utility/module.go, transaction.go,
    utility_message_handler.go, the first functions of session.go,
    src/utility/fisherman/module.go, src/utility/validator/module.go,
    src/persistence/block.go: TransactionExists).

    The actor modules other than the servicer have no behaviour yet: starting and stopping them
    only logs.  The mempool of the module is the one of [Node.Modules]; the index of committed
    transactions is read from its persistence module. *)

From S2P Require Import Prelude GoStd GoSort GoFloat Errors Crypto CoreTypes Messages Sql Persistence FifoSet TxMempool UnitOfWork Node Session Servicer Peers Libp2p.
#[local] Open Scope string_scope.
#[local] Open Scope Z_scope.

Module Utility.
Import Node.

Inductive ActorModule := servicerModule | fishermanModule | validatorModule.
#[global] Instance ActorModule_eq_dec : EqDecision ActorModule. Proof. solve_decision. Defined.

Definition ServicerModuleName : string := "servicer".
Definition FishermanModuleName : string := "fisherman".
Definition ValidatorModuleName : string := "validator".

Definition GetModuleName (a : ActorModule) : string :=
  match a with servicerModule => ServicerModuleName | fishermanModule => FishermanModuleName | validatorModule => ValidatorModuleName end.

(** The parts of the configuration the module reads; the validator and servicer sections may be
    missing where the source checks for it. *)
Record UtilityConfig := {
  MaxMempoolTransactionBytes : Z;
  MaxMempoolTransactions : Z;
  servicerEnabled : bool;
  fishermanEnabled : bool;
  validatorEnabled : bool;
}.

Record utilityModule := { mempool : TxMempool.txFIFOMempool; actorModules : gmap string ActorModule }.

Definition ErrInvalidActorsEnabled : string := "invalid actors combination enabled".

Definition addActor (enabled : bool) (a : ActorModule) (m : gmap string ActorModule) : gmap string ActorModule :=
  if enabled then <[GetModuleName a := a]> m else m.

(** On a wrong combination the actor modules are dropped. *)
Definition validateActorModuleExclusivity (cfg : UtilityConfig) : M utilityModule string unit :=
  u ← get;
  if (1 <? size (actorModules u))%nat && negb (validatorEnabled cfg && servicerEnabled cfg) then
    put {| mempool := mempool u; actorModules := ∅ |} ;;
    fail ErrInvalidActorsEnabled
  else mret tt.

Definition enableActorModules (cfg : UtilityConfig) : M utilityModule string unit :=
  modify (fun u => {| mempool := mempool u;
    actorModules := addActor (validatorEnabled cfg) validatorModule (addActor (fishermanEnabled cfg) fishermanModule
                     (addActor (servicerEnabled cfg) servicerModule (actorModules u))) |}) ;;
  validateActorModuleExclusivity cfg.

Section utility.
Context `{CryptoPrims} `{Codec}.

(** The module is returned also when the actors are refused. *)
Definition Create (cfg : UtilityConfig) : res string unit * utilityModule :=
  enableActorModules cfg {| mempool := TxMempool.NewTxFIFOMempool (MaxMempoolTransactionBytes cfg) (MaxMempoolTransactions cfg); actorModules := ∅ |}.

Definition startActor (_ : ActorModule) : res string unit := Ok tt.
Definition stopActor (_ : ActorModule) : res string unit := Ok tt.

Fixpoint eachActor (f : ActorModule -> res string unit) (l : list (string * ActorModule)) : res string unit :=
  match l with
  | [] => Ok tt
  | (_, a) :: rest => match f a with Ok _ => eachActor f rest | r => r end
  end.
Definition Start `{GoMapOrder} (u : utilityModule) : res string unit := eachActor startActor (mapOrder (actorModules u)).
Definition Stop `{GoMapOrder} (u : utilityModule) : res string unit := eachActor stopActor (mapOrder (actorModules u)).

Definition getActorModule (name : string) (u : utilityModule) : res string ActorModule :=
  match actorModules u !! name with
  | None => Err (name +:+ " module not enabled")
  | Some a => if bool_decide (GetModuleName a = name) then Ok a else Err ("failed to cast " +:+ name +:+ " module")
  end.
Definition GetServicerModule := getActorModule ServicerModuleName.
Definition GetFishermanModule := getActorModule FishermanModuleName.
Definition GetValidatorModule := getActorModule ValidatorModuleName.

(** *** Transactions *)
Definition GetByHash (hash : bytes) (i : TxIndexer) : option IndexedTransaction := txByHash i !! hexEncode hash.

Definition TransactionExists (transactionHash : string) (w : Modules) : res string bool :=
  match hexDecode transactionHash with
  | None => Err hexErrorText
  | Some hash => Ok (bool_decide (is_Some (GetByHash hash (txIndexer (committedDB w)))))
  end.

Definition HandleTransaction (txProtoBytes : bytes) : M Modules UnitOfWork.goErr unit := fun w =>
  let txHash := TxHash txProtoBytes in
  if TxMempool.ContainsTx txHash (txMempool w) then (Err (UnitOfWork.PocketErr ErrDuplicateTransaction), w) else
  match TransactionExists txHash w with
  | Err e => (Err (UnitOfWork.PlainErr e), w)
  | Panic => (Panic, w)
  | Ok true => (Err (UnitOfWork.PocketErr ErrTransactionAlreadyCommitted), w)
  | Ok false =>
      match unmarshalTx txProtoBytes with
      | inr e => (Err (UnitOfWork.PocketErr (ErrProtoUnmarshal e)), w)
      | inl tx =>
          match Tx_ValidateBasic tx with
          | Some e => (Err (UnitOfWork.PocketErr e), w)
          | None =>
              let '(err, t') := TxMempool.AddTx txProtoBytes (txMempool w) in
              (match err with Some e => Err (UnitOfWork.PocketErr e) | None => Ok tt end, set_txMempool t' w)
          end
      end
  end.

Definition GetIndexedTransaction (txProtoBytes : bytes) (w : Modules) : res UnitOfWork.goErr IndexedTransaction :=
  match hexDecode (TxHash txProtoBytes) with
  | None => Err (UnitOfWork.PlainErr hexErrorText)
  | Some hash =>
      match GetByHash hash (txIndexer (committedDB w)) with
      | None => Err (UnitOfWork.PocketErr ErrTransactionNotCommitted)
      | Some idTx => Ok idTx
      end
  end.

(** *** Messages from the network *)
Definition TxGossipMessageContentType : string := "utility.TxGossipMessage".

(** [MessageName] and [FromAny] of an [anypb.Any]: the transaction if it is a [TxGossipMessage],
    [None] for another message. *)
Class GossipCodec := {
  MessageName : option Libp2p.Any -> string;
  gossipFromAny : option Libp2p.Any -> option bytes + string;
  gossipToAny : bytes -> Libp2p.Any + string;
}.
Context `{GossipCodec}.

Definition PrepareTxGossipMessage (txBz : bytes) : Libp2p.Any + string := gossipToAny txBz.

Definition HandleUtilityMessage (message : option Libp2p.Any) : M Modules UnitOfWork.goErr unit :=
  if bool_decide (MessageName message = TxGossipMessageContentType) then
    match gossipFromAny message with
    | inr e => fail (UnitOfWork.PlainErr e)
    | inl None => fail (UnitOfWork.PlainErr "failed to cast message to UtilityMessage")
    | inl (Some tx) => HandleTransaction tx
    end
  else fail (UnitOfWork.PocketErr (ErrUnknownMessageType (MessageName message))).
End utility.

(** *** Relays and challenges *)
Section relays.
Context {L : Type} `{LocalContext L} `{Relay.RelayText} `{Servicer.HttpLib} `{Servicer.RelayCodec}.
Context `{RandSource} `{GoMapOrder} `{CryptoPrims} `{GoConversion}.

Definition HandleRelay (w : Modules) (currentHeight : Z) (fuel : nat) (u : utilityModule) (relay : option Relay.Relay)
    : M (Servicer.servicer L) Servicer.SErr Relay.RelayResponse :=
  match GetServicerModule u with
  | Ok _ => Servicer.HandleRelay w currentHeight fuel relay
  | Err e => fail (Servicer.errorf e)
  | Panic => panic
  end.
End relays.
End Utility.

(** ** Facts *)
Module UtilityFacts.
Import Node Utility.

Section facts.
Context `{CP : CryptoPrims} `{CC : Codec} `{GC : GossipCodec}.

(** A transaction the mempool may hold. *)
Definition validTx (txBz : bytes) : Prop := exists tx, unmarshalTx txBz = inl tx /\ Tx_ValidateBasic tx = None.
Definition valid_mempool (w : Modules) : Prop := Forall validTx (TxMempool.GetAllTxs (txMempool w)).

Lemma AddTx_queue (P : bytes -> Prop) tx t :
  Forall P (TxMempool.GetAllTxs t) -> P tx -> Forall P (TxMempool.GetAllTxs (TxMempool.AddTx tx t).2).
Proof.
  unfold TxMempool.GetAllTxs, FIFOSet.GetAll, TxMempool.AddTx, FIFOSet.Push. intros Hall Htx. case_bool_decide; [done|].
  assert (Forall P (FIFOSet.queue (TxMempool.g t) ++ [tx])%list) as Happ by (apply Forall_app; auto).
  destruct (match FIFOSet.isOverflowing _ with Some _ => _ | None => _ end); [|done].
  cbn [FIFOSet.queue]. destruct (FIFOSet.queue (TxMempool.g t) ++ [tx])%list as [|front rest] eqn:Hq; [by destruct (FIFOSet.queue (TxMempool.g t))|].
  cbn. by inversion Happ.
Qed.

(** Not in the mempool: adding succeeds. *)
Lemma AddTx_new tx t : TxMempool.ContainsTx (TxHash tx) t = false -> (TxMempool.AddTx tx t).1 = None.
Proof.
  unfold TxMempool.ContainsTx, FIFOSet.ContainsIndex, TxMempool.AddTx, FIFOSet.Push. intros Hc. apply bool_decide_eq_false in Hc.
  rewrite bool_decide_eq_false_2 by done. destruct (match FIFOSet.isOverflowing _ with Some _ => _ | None => _ end); [|done].
  by destruct (FIFOSet.queue _).
Qed.

Lemma transaction_exists tx w :
  TransactionExists (TxHash tx) w = Ok (bool_decide (is_Some (txByHash (txIndexer (committedDB w)) !! TxHash tx))).
Proof. unfold TransactionExists, TxHash, GetHashStringFromBytes. rewrite hex_decode_encode. done. Qed.

(** A transaction is taken into the mempool exactly when it is new to the mempool and to the
    chain, decodes and passes the basic validation; otherwise nothing changes. *)
Theorem handle_transaction_iff (tx : bytes) (w : Modules) :
  let '(r, w') := HandleTransaction tx w in
  (r = Ok tt <-> TxMempool.ContainsTx (TxHash tx) (txMempool w) = false /\
                 txByHash (txIndexer (committedDB w)) !! TxHash tx = None /\ validTx tx) /\
  w' = match r with Ok _ => set_txMempool (TxMempool.AddTx tx (txMempool w)).2 w | _ => w end.
Proof.
  unfold HandleTransaction. destruct (TxMempool.ContainsTx _ _) eqn:Hc; [naive_solver|]. rewrite transaction_exists.
  case_bool_decide as Hi; [split; [|done]; split; [done|]; intros (_ & Hn & _); rewrite Hn in Hi; by destruct Hi|].
  apply eq_None_not_Some in Hi. destruct (unmarshalTx tx) as [t|e] eqn:Hu; [|split; [|done]; split; [done|]; intros (_ & _ & t & Ht & _); congruence].
  destruct (Tx_ValidateBasic t) as [e|] eqn:Hv; [split; [|done]; split; [done|]; intros (_ & _ & t' & Ht & Hv'); congruence|].
  pose proof (AddTx_new tx (txMempool w) Hc) as Hadd. destruct (TxMempool.AddTx tx (txMempool w)) as [err t'] eqn:Ha. cbn in Hadd. subst err.
  split; [|done]. split; [|done]. intros _. split; [done|]. split; [done|]. by exists t.
Qed.

Lemma handle_transaction_valid tx w : valid_mempool w -> valid_mempool (HandleTransaction tx w).2.
Proof.
  intros Hw. unfold HandleTransaction. destruct (TxMempool.ContainsTx _ _); [done|]. destruct (TransactionExists _ _) as [[]| |]; try done.
  destruct (unmarshalTx tx) as [t|] eqn:Hu; [|done]. destruct (Tx_ValidateBasic t) eqn:Hv; [done|].
  pose proof (AddTx_queue validTx tx (txMempool w) Hw ltac:(by exists t)) as Hq. by destruct (TxMempool.AddTx tx (txMempool w)).
Qed.

(** C27: Whatever messages arrive from the network, the mempool holds only transactions that
    decode and pass the basic validation. *)
Theorem gossip_keeps_mempool_valid (messages : list (option Libp2p.Any)) (w : Modules) :
  valid_mempool w -> valid_mempool (foldl (fun w m => (HandleUtilityMessage m w).2) w messages).
Proof.
  revert w. induction messages as [|m ms IH]; intros w Hw; [done|]. cbn. apply IH. unfold HandleUtilityMessage.
  case_bool_decide; [|done]. destruct (gossipFromAny m) as [[tx|]|]; [|done..]. by apply handle_transaction_valid.
Qed.

Definition countEnabled (cfg : UtilityConfig) : nat :=
  (Nat.b2n (servicerEnabled cfg) + Nat.b2n (fishermanEnabled cfg) + Nat.b2n (validatorEnabled cfg))%nat.

Lemma size_enabled (cfg : UtilityConfig) :
  size (addActor (validatorEnabled cfg) validatorModule (addActor (fishermanEnabled cfg) fishermanModule
    (addActor (servicerEnabled cfg) servicerModule ∅))) = countEnabled cfg.
Proof. destruct cfg as [a b [] [] []]; vm_compute; reflexivity. Qed.

(** Which combinations of actors a node may run: at most one, or any that contains both a
    validator and a servicer, a fisherman with them included; on a refusal no actor is left. *)
Theorem actor_combinations (cfg : UtilityConfig) :
  let '(r, u) := Create cfg in
  (r = Ok tt <-> (countEnabled cfg <= 1)%nat \/ (validatorEnabled cfg = true /\ servicerEnabled cfg = true)) /\
  (r = Ok tt -> size (actorModules u) = countEnabled cfg) /\ (r <> Ok tt -> actorModules u = ∅).
Proof.
  pose proof (size_enabled cfg) as Hs. unfold Create, enableActorModules, validateActorModuleExclusivity. rewrite bind_modify, bind_get. cbn [actorModules mempool].
  set (m := addActor _ _ _) in *. rewrite Hs. clearbody m.
  destruct (Nat.ltb_spec 1 (countEnabled cfg)) as [Hn|Hn]; cbn [andb].
  - destruct (validatorEnabled cfg), (servicerEnabled cfg); cbn; (split; [split|split]); try done; intros ?; try (by right); try lia; try naive_solver lia; by destruct (_ : Ok tt <> Ok tt).
  - split; [split; [by left|done]|]. split; [by intros _|]. intros Hne. by destruct Hne.
Qed.
End facts.

#[local] Instance toyGossip : GossipCodec := {| MessageName _ := TxGossipMessageContentType; gossipFromAny a := inl (Libp2p.AnyValue <$> a);
  gossipToAny b := inl {| Libp2p.TypeUrl := TxGossipMessageContentType; Libp2p.AnyValue := b |} |}.

(** A valid transaction, a duplicate and garbage. *)
Definition toyMessages : list (option Libp2p.Any) :=
  (fun b => Some {| Libp2p.TypeUrl := ""; Libp2p.AnyValue := b |}) <$> ["17"; "17"; "x"].

Example toy_accepted : TxMempool.GetAllTxs (txMempool (foldl (fun w m => (@HandleUtilityMessage ToyCrypto.prims ToyCodec.codec toyGossip m w).2) NodeToy.modules toyMessages)) = ["17"].
Proof. vm_compute. reflexivity. Qed.

Lemma gossip_keeps_mempool_valid_witness :
  @valid_mempool ToyCrypto.prims ToyCodec.codec (foldl (fun w m => (@HandleUtilityMessage ToyCrypto.prims ToyCodec.codec toyGossip m w).2) NodeToy.modules toyMessages).
Proof. apply (@gossip_keeps_mempool_valid ToyCrypto.prims ToyCodec.codec toyGossip toyMessages NodeToy.modules). apply Forall_nil_2. Defined.
End UtilityFacts.
