(* ===== verification/NodeEvents.v ===== *)
(** The node: envelopes, and the dispatch of events to the modules
    (src/shared/messaging/envelope.go, messages.go, events.go, src/shared/node.go).

    The main loop takes envelopes from the bus and hands each to [handleEvent], which calls the
    module the content type names.  The modules are the operations of the class [NodeOps]; an
    envelope received from the network is published by [P2P.handlePocketEnvelope]. *)

From S2P Require Import Prelude GoStd Errors Crypto FifoSet Peers Libp2p RainTree Background P2P P2PToy P2PFacts.
#[local] Open Scope string_scope.
#[local] Open Scope Z_scope.

Module NodeEvents.

Definition NodeStartedEventType : string := "pocket.NodeStartedEvent".
Definition ConsensusNewHeightEventType : string := "pocket.ConsensusNewHeightEvent".
Definition StateMachineTransitionEventType : string := "pocket.StateMachineTransitionEvent".
Definition HotstuffMessageContentType : string := "consensus.HotstuffMessage".
Definition StateSyncMessageContentType : string := "consensus.StateSyncMessage".
Definition TxGossipMessageContentType : string := "utility.TxGossipMessage".
Definition DebugMessageEventType : string := "pocket.DebugMessage".

Definition slash : Ascii.ascii := Ascii.ascii_of_nat 47.

(** [strings.Split] at the slash. *)
Fixpoint splitSlash (s : string) (acc : string) : list string :=
  match s with
  | EmptyString => [acc]
  | String c s' => if decide (c = slash) then acc :: splitSlash s' EmptyString else splitSlash s' (acc +:+ String c EmptyString)
  end.

(** [GetTypeUrl] of a missing content is empty; the index 1 may be out of range. *)
Definition GetContentType (envelope : PocketEnvelope) : res string string :=
  match splitSlash (from_option TypeUrl "" (Content envelope)) "" !! 1%nat with
  | Some t => Ok t
  | None => Panic
  end.

(** A message by its full name and its encoding; [anypb.New] prefixes the name. *)
Definition PackMessage (name : string) (value : bytes) (nonce : Z) : PocketEnvelope :=
  {| Content := Some {| TypeUrl := "type.googleapis.com/" +:+ name; AnyValue := value |}; Nonce := nonce |}.

Record DebugMessage := { Action : Z }.

(** The operations of the modules, on the state of the node. *)
Class NodeOps (St : Type) := {
  fsmSendEvent : string -> M St string unit;
  consensusHandleMessage : option Any -> M St string unit;
  consensusHandleStateSyncMessage : option Any -> M St string unit;
  consensusHandleDebugMessage : DebugMessage -> M St string unit;
  consensusHandleEvent : option Any -> M St string unit;
  utilityHandleMessage : option Any -> M St string unit;
  persistenceHandleDebugMessage : DebugMessage -> M St string unit;
  p2pHandleEvent : option Any -> M St string unit;
  unpackDebugMessage : PocketEnvelope -> res string DebugMessage;
}.

Section node.
Context {St : Type} `{NodeOps St}.

(** The consensus actions by number: reset, print, next view, toggle, metadata and block requests. *)
Definition consensusDebugActions : list Z := [1; 2; 3; 4; 6; 5].
Definition DEBUG_SHOW_LATEST_BLOCK_IN_STORE : Z := 7.

Definition handleDebugMessage (message : PocketEnvelope) : M St string unit :=
  debugMessage ← of_res (unpackDebugMessage message);
  if bool_decide (Action debugMessage ∈ consensusDebugActions) then consensusHandleDebugMessage debugMessage
  else if Action debugMessage =? DEBUG_SHOW_LATEST_BLOCK_IN_STORE then persistenceHandleDebugMessage debugMessage
  else mret tt.

(** [multierr.Combine] of the errors of two calls; both are made. *)
Definition both (m1 m2 : M St string unit) : M St string unit := fun s =>
  match m1 s with
  | (Panic, s1) => (Panic, s1)
  | (r1, s1) =>
      match m2 s1 with
      | (Panic, s2) => (Panic, s2)
      | (r2, s2) => (match r1, r2 with
                     | Err e1, Err e2 => Err (e1 +:+ "; " +:+ e2)
                     | Err e1, _ => Err e1
                     | _, r => r
                     end, s2)
      end
  end.

Definition handleEvent (message : PocketEnvelope) : M St string unit :=
  contentType ← of_res (GetContentType message);
  if bool_decide (contentType = NodeStartedEventType) then fsmSendEvent "Start"
  else if bool_decide (contentType = HotstuffMessageContentType) then consensusHandleMessage (Content message)
  else if bool_decide (contentType = StateSyncMessageContentType) then consensusHandleStateSyncMessage (Content message)
  else if bool_decide (contentType = TxGossipMessageContentType) then utilityHandleMessage (Content message)
  else if bool_decide (contentType = DebugMessageEventType) then handleDebugMessage message
  else if bool_decide (contentType = ConsensusNewHeightEventType) then p2pHandleEvent (Content message)
  else if bool_decide (contentType = StateMachineTransitionEventType) then both (consensusHandleEvent (Content message)) (p2pHandleEvent (Content message))
  else mret tt.

(** The main loop on the events taken from the bus: an error is logged, a panic ends the process.
    [true]: the node still runs. *)
Fixpoint mainLoop (events : list PocketEnvelope) (s : St) : bool * St :=
  match events with
  | [] => (true, s)
  | e :: rest => match handleEvent e s with (Panic, s') => (false, s') | (_, s') => mainLoop rest s' end
  end.
End node.

(** ** Facts *)
Fixpoint noSlash (s : string) : Prop := match s with EmptyString => True | String c s' => c ≠ slash /\ noSlash s' end.

Lemma string_snoc a c b : (a +:+ String c EmptyString) +:+ b = a +:+ String c b.
Proof. induction a as [|x a IH]; [done|]. exact (f_equal (String x) IH). Qed.


Lemma splitSlash_none s : forall acc, noSlash s -> splitSlash s acc = [acc +:+ s].
Proof.
  induction s as [|c s IH]; intros acc; cbn [splitSlash noSlash]; [by rewrite string_nil_r|]. intros [Hc Hs].
  rewrite decide_False by done. rewrite IH by done. by rewrite string_snoc.
Qed.

Lemma splitSlash_cons a b acc : noSlash a -> splitSlash (a +:+ String slash b) acc = (acc +:+ a) :: splitSlash b "".
Proof.
  revert acc. induction a as [|c a IH]; intros acc.
  - intros _. change (EmptyString +:+ String slash b) with (String slash b). cbn [splitSlash]. by rewrite string_nil_r, decide_True.
  - change (String c a +:+ String slash b) with (String c (a +:+ String slash b)). cbn [splitSlash noSlash]. intros [Hc Hs]. rewrite decide_False by done. rewrite IH by done. by rewrite string_snoc.
Qed.

(** An envelope packed from a message has the full name of the message as its content type
    (the names of protobuf messages contain no slash). *)
Theorem content_type_of_packed (name : string) (value : bytes) (nonce : Z) :
  noSlash name -> GetContentType (PackMessage name value nonce) = Ok name.
Proof.
  intros Hn. unfold GetContentType, PackMessage. cbn [Content from_option TypeUrl].
  change ("type.googleapis.com/" +:+ name) with ("type.googleapis.com" +:+ String slash name).
  rewrite splitSlash_cons by (cbn; repeat split; done). cbn. by rewrite splitSlash_none.
Qed.

Lemma content_type_of_packed_witness : GetContentType (PackMessage HotstuffMessageContentType "" 7) = Ok HotstuffMessageContentType.
Proof. apply (content_type_of_packed HotstuffMessageContentType "" 7). cbn. repeat split; done. Defined.

Lemma malformed_stops {St} `{NodeOps St} (message : PocketEnvelope) (rest : list PocketEnvelope) (s : St) :
  noSlash (from_option TypeUrl EmptyString (Content message)) -> mainLoop (message :: rest) s = (false, s).
Proof.
  intros Hn. cbn. unfold handleEvent. rewrite bind_eq. unfold of_res, GetContentType. by rewrite splitSlash_none.
Qed.

(** One malformed envelope from the network ends the node: if its nonce is new and its type
    name has no slash, or it has no content at all, the P2P module puts it on the bus, and
    handling it reads the content type at an index that is out of range. *)
Theorem malformed_envelope_stops_node {St} `{P2PCodec} `{NodeOps St} (bz : bytes) (envelope : PocketEnvelope) (m : P2P.p2pModule) (s : St) :
  unmarshalEnvelope bz = Some envelope -> Nonce envelope ∉ FIFOSet.set (P2P.nonceDeduper m) ->
  noSlash (from_option TypeUrl EmptyString (Content envelope)) ->
  exists m' event, P2P.handlePocketEnvelope bz m = (Ok tt, m') /\ P2P.published m' = (P2P.published m ++ [event])%list /\
    forall rest, mainLoop (event :: rest) s = (false, s).
Proof.
  intros Hu Hn Hc. unfold P2P.handlePocketEnvelope. rewrite Hu, bind_eq. cbn [P2P.isNonceAlreadyObserved gets].
  unfold FIFOSet.Contains, FIFOSet.ContainsIndex. rewrite bool_decide_eq_false_2 by done. rewrite bind_eq. unfold wrap_err, P2P.observeNonce.
  rewrite bind_get. unfold FIFOSet.Push. rewrite bool_decide_eq_false_2 by done.
  destruct (match FIFOSet.isOverflowing _ with Some _ => _ | None => _ end); [destruct (FIFOSet.queue _)|];
    cbn; do 2 eexists; (split; [reflexivity|]); (split; [reflexivity|]); intros rest; by apply malformed_stops.
Qed.

#[local] Instance silentOps : NodeOps unit := {|
  fsmSendEvent _ := mret tt; consensusHandleMessage _ := mret tt; consensusHandleStateSyncMessage _ := mret tt;
  consensusHandleDebugMessage _ := mret tt; consensusHandleEvent _ := mret tt; utilityHandleMessage _ := mret tt;
  persistenceHandleDebugMessage _ := mret tt; p2pHandleEvent _ := mret tt; unpackDebugMessage _ := Ok {| Action := 0 |};
|}.

Lemma malformed_envelope_stops_node_witness :
  exists m' event, @P2P.handlePocketEnvelope P2PToy.codec (P2PFacts.toyEnvelope 5) (P2PFacts.toyModule None None) = (Ok tt, m') /\
    P2P.published m' = ([] ++ [event])%list /\ forall rest, mainLoop (event :: rest) tt = (false, tt).
Proof.
  apply (malformed_envelope_stops_node (P2PFacts.toyEnvelope 5) {| Content := None; Nonce := 5 |} (P2PFacts.toyModule None None) tt).
  - vm_compute. reflexivity.
  - apply (bool_decide_unpack _). vm_compute. exact I.
  - exact I.
Defined.
End NodeEvents.
