(* ===== verification/NodeStart.v ===== *)
(** Creating and starting a node (src/shared/node.go, with the creation of the modules in
    src/state_machine, src/persistence, src/utility, src/telemetry, src/logger, src/rpc, src/p2p
    and src/ibc; that of the consensus module is in ConsStart.v).

    The modules are created one after the other, each registering itself on the bus and finding
    the ones before it there.  The state is the bus with the state of every module that has been
    created.  The libraries the modules open their resources with are parameters: the database
    driver, badger, the libp2p host and the parser of private keys.  The content of the stores
    that are opened is the argument [stored]. *)

From S2P Require Import Prelude GoStd GoSort GoFloat Errors Crypto CoreTypes Gov Messages Sql Persistence FifoSet TxMempool KvStore Indexer SqlQueries Trees Keys Ibc UnitOfWork ConsTypes Consensus Fsm Node Genesis Peers Libp2p Bus ConsStart RuntimeConfig Telemetry RainTree Background P2P P2PToy P2PFacts Utility NodeEvents SqlText Database.
#[local] Open Scope string_scope.
#[local] Open Scope list_scope.
#[local] Open Scope Z_scope.

Module NodeStart.
Import Node Genesis Consensus.

Inductive NodeErr := TextErr (text : string) | P2PFailure (e : P2PErr) | ConsFailure (e : ConsErr) | CoreFailure (e : Error).
(** The module that answers when RPC is switched off has a name of its own. *)
Inductive RPCModule := rpcModule | noopRpcModule.
Definition RPCModule_GetModuleName (m : RPCModule) : string := match m with rpcModule => "rpc" | noopRpcModule => "noop_rpc_module" end.

Section node.
Context `{CryptoPrims} `{Codec} `{Pgx} `{Badger} `{!SmtLib} `{Prometheus} `{NetPrims} `{GoMapOrder}.
Context `{PersistenceUtilityModules Modules Uow}.

Record NodeState := {
  config : Configs.Config;
  genesis : GenesisState;
  nbus : Bus.bus;
  heap : ConsStart.Heap;
  world : Modules;
  server : Server;
  utility : option Utility.utilityModule;
  consensus : option (Consensus.Config * consensusModule Modules Uow);
  telemetry : option TelemetryModule;
  metrics : Registry;
  logLevel : option (LoggerLevel.ZeroLevel * bool);
  rpc : option RPCModule;
  p2p : option P2P.p2pModule;
  listenAddrs : option Multiaddr;
  ibc : option IbcModule.ibcModule;
}.
Definition set_nbus (x : Bus.bus) (s : NodeState) : NodeState := {| config := config s; genesis := genesis s; nbus := x; heap := heap s; world := world s; server := server s; utility := utility s; consensus := consensus s; telemetry := telemetry s; metrics := metrics s; logLevel := logLevel s; rpc := rpc s; p2p := p2p s; listenAddrs := listenAddrs s; ibc := ibc s |}.
Definition set_heap (x : ConsStart.Heap) (s : NodeState) : NodeState := {| config := config s; genesis := genesis s; nbus := nbus s; heap := x; world := world s; server := server s; utility := utility s; consensus := consensus s; telemetry := telemetry s; metrics := metrics s; logLevel := logLevel s; rpc := rpc s; p2p := p2p s; listenAddrs := listenAddrs s; ibc := ibc s |}.
Definition set_world (x : Modules) (s : NodeState) : NodeState := {| config := config s; genesis := genesis s; nbus := nbus s; heap := heap s; world := x; server := server s; utility := utility s; consensus := consensus s; telemetry := telemetry s; metrics := metrics s; logLevel := logLevel s; rpc := rpc s; p2p := p2p s; listenAddrs := listenAddrs s; ibc := ibc s |}.
Definition set_server (x : Server) (s : NodeState) : NodeState := {| config := config s; genesis := genesis s; nbus := nbus s; heap := heap s; world := world s; server := x; utility := utility s; consensus := consensus s; telemetry := telemetry s; metrics := metrics s; logLevel := logLevel s; rpc := rpc s; p2p := p2p s; listenAddrs := listenAddrs s; ibc := ibc s |}.
Definition set_utility (x : option Utility.utilityModule) (s : NodeState) : NodeState := {| config := config s; genesis := genesis s; nbus := nbus s; heap := heap s; world := world s; server := server s; utility := x; consensus := consensus s; telemetry := telemetry s; metrics := metrics s; logLevel := logLevel s; rpc := rpc s; p2p := p2p s; listenAddrs := listenAddrs s; ibc := ibc s |}.
Definition set_consensus (x : option (Consensus.Config * consensusModule Modules Uow)) (s : NodeState) : NodeState := {| config := config s; genesis := genesis s; nbus := nbus s; heap := heap s; world := world s; server := server s; utility := utility s; consensus := x; telemetry := telemetry s; metrics := metrics s; logLevel := logLevel s; rpc := rpc s; p2p := p2p s; listenAddrs := listenAddrs s; ibc := ibc s |}.
Definition set_telemetry (x : option TelemetryModule) (s : NodeState) : NodeState := {| config := config s; genesis := genesis s; nbus := nbus s; heap := heap s; world := world s; server := server s; utility := utility s; consensus := consensus s; telemetry := x; metrics := metrics s; logLevel := logLevel s; rpc := rpc s; p2p := p2p s; listenAddrs := listenAddrs s; ibc := ibc s |}.
Definition set_metrics (x : Registry) (s : NodeState) : NodeState := {| config := config s; genesis := genesis s; nbus := nbus s; heap := heap s; world := world s; server := server s; utility := utility s; consensus := consensus s; telemetry := telemetry s; metrics := x; logLevel := logLevel s; rpc := rpc s; p2p := p2p s; listenAddrs := listenAddrs s; ibc := ibc s |}.
Definition set_logLevel (x : option (LoggerLevel.ZeroLevel * bool)) (s : NodeState) : NodeState := {| config := config s; genesis := genesis s; nbus := nbus s; heap := heap s; world := world s; server := server s; utility := utility s; consensus := consensus s; telemetry := telemetry s; metrics := metrics s; logLevel := x; rpc := rpc s; p2p := p2p s; listenAddrs := listenAddrs s; ibc := ibc s |}.
Definition set_rpc (x : option RPCModule) (s : NodeState) : NodeState := {| config := config s; genesis := genesis s; nbus := nbus s; heap := heap s; world := world s; server := server s; utility := utility s; consensus := consensus s; telemetry := telemetry s; metrics := metrics s; logLevel := logLevel s; rpc := x; p2p := p2p s; listenAddrs := listenAddrs s; ibc := ibc s |}.
Definition set_p2p (x : option P2P.p2pModule) (s : NodeState) : NodeState := {| config := config s; genesis := genesis s; nbus := nbus s; heap := heap s; world := world s; server := server s; utility := utility s; consensus := consensus s; telemetry := telemetry s; metrics := metrics s; logLevel := logLevel s; rpc := rpc s; p2p := x; listenAddrs := listenAddrs s; ibc := ibc s |}.
Definition set_listenAddrs (x : option Multiaddr) (s : NodeState) : NodeState := {| config := config s; genesis := genesis s; nbus := nbus s; heap := heap s; world := world s; server := server s; utility := utility s; consensus := consensus s; telemetry := telemetry s; metrics := metrics s; logLevel := logLevel s; rpc := rpc s; p2p := p2p s; listenAddrs := x; ibc := ibc s |}.
Definition set_ibc (x : option IbcModule.ibcModule) (s : NodeState) : NodeState := {| config := config s; genesis := genesis s; nbus := nbus s; heap := heap s; world := world s; server := server s; utility := utility s; consensus := consensus s; telemetry := telemetry s; metrics := metrics s; logLevel := logLevel s; rpc := rpc s; p2p := p2p s; listenAddrs := listenAddrs s; ibc := x |}.

Abbreviation NM := (M NodeState NodeErr).
Definition register (name : string) (interfaces : list string) : NM unit :=
  modify (fun s => set_nbus (Bus.RegisterModule {| GetModuleName := name; implements := interfaces; hasBus := false |} (nbus s)) s).
Definition text {A} (r : res string A) : NM A := wrap_err TextErr (of_res r).
(** A getter of the bus. *)
Definition find (getter : Bus.bus -> res string InjectableModule) : NM InjectableModule := s ← get; text (getter (nbus s)).
(** A section of the configuration that is dereferenced. *)
Definition section {A} (f : Configs.Config -> option A) : NM A := s ← get; match f (config s) with Some x => mret x | None => panic end.
Definition onServer {A} (m : M Server string A) : NM A := fun s =>
  let '(r, d) := m (server s) in (match r with Ok a => Ok a | Err e => Err (TextErr e) | Panic => Panic end, set_server d s).
Definition onWorld {A} (m : M Modules string A) : NM A := fun s =>
  let '(r, w) := m (world s) in (match r with Ok a => Ok a | Err e => Err (TextErr e) | Panic => Panic end, set_world w s).

(** ** state_machine *)
Definition createStateMachine : NM unit :=
  modify (fun s => set_world (set_fsm Fsm.initial (world s)) s) ;;
  register "state_machine" ["StateMachineModule"].

(** ** persistence *)
Context (stored : Server -> BlockStore.blockStore -> Indexer.txIndexer -> Trees.treeStore -> PostgresContext).
Context (treesUpdate : DB -> TxIndexer -> Z -> res string string) (treesClear : res string unit) (now : Z).

(** The list of validators is shared: the genesis state is read with its present order. *)
Definition genesisState (s : NodeState) : GenesisState :=
  let g := genesis s in
  {| gPools := gPools g; gAccounts := gAccounts g; gApplications := gApplications g; gValidators := ConsStart.elements 0%nat (heap s);
     gServicers := gServicers g; gFishermen := gFishermen g; gParams := gParams g |}.
Definition createPersistence : NM unit :=
  register "persistence" ["PersistenceModule"] ;;
  s ← get;
  let persistenceCfg := Configs.Persistence (config s) in
  pool ← onServer (Db.initializePool persistenceCfg);
  conn ← onServer (Db.connectToPool pool (from_option Configs.NodeSchema "" persistenceCfg));
  onServer (Db.initializeDatabase conn) ;;
  onServer (modify (pgxRelease conn)) ;;
  cfg ← section Configs.Persistence;
  blockStore ← text (BlockStore.NewBlockStore (Configs.BlockStorePath cfg));
  txIndexer ← text (Indexer.NewTxIndexer (Configs.TxIndexerPath cfg));
  treeModule ← text (Trees.Create (Configs.TreesStoreDir cfg));
  modify (fun s => set_world (set_writeContextOpen false (set_committedDB (stored (server s) blockStore txIndexer treeModule) (world s))) s) ;;
  s ← get;
  onWorld (hydrate treesUpdate treesClear now (genesisState s)).

(** ** utility *)
Definition createActorModule (enabled : bool) (name interface : string) : NM unit := if enabled then register name [interface; "Module"] else mret tt.
Definition createUtility : NM unit :=
  register "utility" ["UtilityModule"] ;;
  utilityCfg ← section Configs.Utility;
  let pool := TxMempool.NewTxFIFOMempool (Configs.MaxMempoolTransactionBytes utilityCfg) (Configs.MaxMempoolTransactions utilityCfg) in
  modify (fun s => set_world (set_txMempool pool (world s)) s) ;;
  servicerCfg ← section Configs.Servicer;
  createActorModule (Configs.srv_Enabled servicerCfg) Utility.ServicerModuleName "ServicerModule" ;;
  fishermanCfg ← section Configs.Fisherman;
  createActorModule (Configs.fish_Enabled fishermanCfg) Utility.FishermanModuleName "FishermanModule" ;;
  validatorCfg ← section Configs.Validator;
  createActorModule (Configs.val_Enabled validatorCfg) Utility.ValidatorModuleName "ValidatorModule" ;;
  let '(r, u) := Utility.Create {| Utility.MaxMempoolTransactionBytes := Configs.MaxMempoolTransactionBytes utilityCfg;
    Utility.MaxMempoolTransactions := Configs.MaxMempoolTransactions utilityCfg; Utility.servicerEnabled := Configs.srv_Enabled servicerCfg;
    Utility.fishermanEnabled := Configs.fish_Enabled fishermanCfg; Utility.validatorEnabled := Configs.val_Enabled validatorCfg |} in
  modify (set_utility (Some u)) ;;
  text r.

(** ** consensus *)
Context (maxBlockBytes sizeofBlock : Z).
Definition consensusConfig (c : Configs.ConsensusConfig) (p : Configs.PacemakerConfig) : ConsStart.ConsensusConfig :=
  {| ConsStart.cc_PrivateKey := Configs.cc_PrivateKey c; ConsStart.cc_MaxMempoolBytes := Configs.cc_MaxMempoolBytes c;
     ConsStart.cc_ServerModeEnabled := Configs.ServerModeEnabled c; ConsStart.TimeoutMsec := Configs.TimeoutMsec p;
     ConsStart.Manual := Configs.Manual p; ConsStart.DebugTimeBetweenStepsMsec := Configs.DebugTimeBetweenStepsMsec p |}.
Definition createConsensus : NM unit :=
  c ← section Configs.Consensus;
  p ← (match Configs.PacemakerConfig_ c with Some p => mret p | None => panic end : NM _);
  s ← get;
  let '(r, st) := ConsStart.Create (consensusConfig c p) 0%nat maxBlockBytes sizeofBlock
                    {| ConsStart.startBus := nbus s; ConsStart.startHeap := heap s; ConsStart.startWorld := world s |} in
  put (set_nbus (ConsStart.startBus st) (set_heap (ConsStart.startHeap st) (set_world (ConsStart.startWorld st) s))) ;;
  m ← text r;
  modify (set_consensus (Some m)).

(** ** telemetry and logger *)
Definition telemetryName (t : TelemetryModule) : string :=
  match t with PrometheusTelemetry _ => Prometheus.GetModuleName | NoopTelemetry => Noop.GetModuleName end.
Definition createTelemetry : NM unit :=
  s ← get;
  t ← text (Telemetry.Create (config s) (metrics s));
  register (telemetryName t) ["TelemetryModule"] ;;
  modify (set_telemetry (Some t)).
(** The getters of a nil configuration return empty texts. *)
Definition createLogger : NM unit :=
  register "logger" ["LoggerModule"] ;;
  modify (fun s => set_logLevel (Some (LoggerLevel.Create (default {| Configs.Level := ""; Configs.Format := "" |} (Configs.Logger (config s))))) s).

(** ** rpc *)
Definition createRPC : NM unit :=
  rpcCfg ← section Configs.RPC;
  let m := if Configs.rpc_Enabled rpcCfg then rpcModule else noopRpcModule in
  register (RPCModule_GetModuleName m) ["RPCModule"] ;;
  modify (set_rpc (Some m)).

(** ** p2p *)
Context (csvRead : string -> string + list string) (libp2pUnmarshal : bytes -> option string).
Definition NewLibP2PPrivateKey (privateKeyHex : string) : res string unit :=
  match hexDecode privateKeyHex with
  | None => Err ("error decoding private key: " +:+ hexErrorText)
  | Some bz => match libp2pUnmarshal bz with Some e => Err ("error decoding private key: " +:+ e) | None => Ok tt end
  end.
Definition onP2P {A} (m : M P2P.p2pModule P2PErr A) : NM A := fun s =>
  match p2p s with
  | None => (Panic, s)
  | Some x => let '(r, x') := m x in (match r with Ok a => Ok a | Err e => Err (P2PFailure e) | Panic => Panic end, set_p2p (Some x') s)
  end.
(** A provider that is registered is used; otherwise the height is asked of the consensus
    module, which ends the process if it is missing. *)
Definition setupCurrentHeightProvider : NM unit :=
  s ← get;
  provider ← (match Registry.GetModule (Bus.modulesRegistry (nbus s)) "current_height_provider" with
             | Ok m => mret m
             | _ => find Bus.GetConsensusModule
             end : NM _);
  if bool_decide ("CurrentHeightProvider" ∈ implements provider) then mret tt
  else fail (P2PFailure (ErrText "unexpected current height provider type")).
Definition setupPeerstoreProvider : NM unit :=
  s ← get;
  match Registry.GetModule (Bus.modulesRegistry (nbus s)) "peerstore_provider" with
  | Ok m => if bool_decide ("PeerstoreProvider" ∈ implements m) then mret tt else fail (P2PFailure (ErrText "unknown peerstore provider type"))
  | _ => register "peerstore_provider" ["PeerstoreProvider"]
  end.
Definition setupDependencies : NM unit :=
  setupCurrentHeightProvider ;;
  setupPeerstoreProvider ;;
  onP2P P2P.setupNonceDeduper.
Definition getMultiaddr (cfg : Configs.P2PConfig) : res P2PErr Multiaddr :=
  Libp2pMultiaddrFromServiceURL (Configs.Hostname cfg +:+ ":" +:+ bigIntText (Configs.p2p_Port cfg)).
Definition createP2P : NM unit :=
  cfg ← section Configs.P2P;
  modify (set_p2p (Some {| P2P.started := false; P2P.address := ""; P2P.maxNonces := Configs.MaxNonces cfg; P2P.bootstrapNodes := [];
    P2P.nonceDeduper := P2P.NewNonceDeduper 0; P2P.stakedActorRouter := None; P2P.unstakedActorRouter := None; P2P.host := None;
    P2P.published := []; P2P.fsmEvents := [] |})) ;;
  register "p2p" ["P2PModule"] ;;
  onP2P (P2P.configureBootstrapNodes csvRead Defaults.DefaultP2PBootstrapNodesCsv (Configs.BootstrapNodesCsv cfg)) ;;
  privateKey ← wrap_err (fun e => P2PFailure (ErrWrap "parsing private key as pocket key" (ErrText e))) (of_res (NewPrivateKey (Configs.p2p_PrivateKey cfg)));
  onP2P (modify (fun m => {| P2P.started := P2P.started m; P2P.address := PrivateKey_Address privateKey; P2P.maxNonces := P2P.maxNonces m;
    P2P.bootstrapNodes := P2P.bootstrapNodes m; P2P.nonceDeduper := P2P.nonceDeduper m; P2P.stakedActorRouter := P2P.stakedActorRouter m;
    P2P.unstakedActorRouter := P2P.unstakedActorRouter m; P2P.host := P2P.host m; P2P.published := P2P.published m; P2P.fsmEvents := P2P.fsmEvents m |})) ;;
  wrap_err (fun e => P2PFailure (ErrWrap "parsing private key as libp2p key" (ErrText e))) (of_res (NewLibP2PPrivateKey (Configs.p2p_PrivateKey cfg))) ;;
  setupDependencies ;;
  if bool_decide (Configs.ConnectionType cfg = Defaults.ConnectionType_TCPConnection) then
    addr ← wrap_err (fun e => P2PFailure (ErrWrap "parsing multiaddr from config" e)) (of_res (getMultiaddr cfg));
    modify (set_listenAddrs (Some addr))
  else if bool_decide (Configs.ConnectionType cfg = Defaults.ConnectionType_EmptyConnection) then modify (set_listenAddrs None)
  else fail (P2PFailure (ErrText "unsupported connection type")).

(** ** ibc *)
Definition createIBC : NM unit :=
  register "ibc" ["IBCModule"] ;;
  s ← get;
  find Bus.GetUtilityModule ;;
  let isValidator := match utility s with Some u => is_ok (Utility.GetValidatorModule u) | None => false end in
  cfg ← (if isValidator then section Configs.IBC else mret (default {| Configs.ibc_Enabled := false |} (Configs.IBC (config s))) : NM _);
  let '(r, m) := IbcModule.Create (Configs.ibc_Enabled cfg) isValidator in
  modify (set_ibc (Some m)) ;;
  wrap_err CoreFailure (of_res r).

(** ** The node *)
Definition Create : NM bytes :=
  createStateMachine ;;
  createPersistence ;;
  createUtility ;;
  createConsensus ;;
  createTelemetry ;;
  createLogger ;;
  createRPC ;;
  createP2P ;;
  createIBC ;;
  find Bus.GetP2PModule ;;
  s ← get;
  mret (from_option P2P.address "" (p2p s)).

Context `{GoConversion} `{RainTree.Providers} `{P2PCodec} `{Libp2pPrims} `{Background.PubSubPrims}.
Context (libp2pNew : string + HostState) (emptyMessage : bytes) (nonce : Z).

Definition onConsensus (m : M (consensusModule Modules Uow) ConsErr unit) : NM unit := fun s =>
  match consensus s with
  | None => (Panic, s)
  | Some (c, x) => let '(r, x') := m x in (match r with Ok a => Ok a | Err e => Err (ConsFailure e) | Panic => Panic end, set_consensus (Some (c, x')) s)
  end.
Definition startTelemetry : NM unit :=
  s ← get;
  '(_, b) ← text (Bus.GetTelemetryModule (nbus s));
  modify (set_nbus b) ;;
  match telemetry s with
  | Some (PrometheusTelemetry m) =>
      let '(r, m') := Prometheus.Start m in
      modify (set_telemetry (Some (PrometheusTelemetry m'))) ;; text r
  | _ => mret tt
  end.

(** The order of the modules matters.  The main loop, which follows, is in NodeEvents.v.  On a
    full bus the first event is never published: the process does not go on. *)
Definition Start : NM unit :=
  find Bus.GetStateMachineModule ;;
  startTelemetry ;;
  find Bus.GetPersistenceModule ;;
  find Bus.GetP2PModule ;;
  onP2P (P2P.Start libp2pNew) ;;
  find Bus.GetUtilityModule ;;
  s ← get;
  (match utility s with Some u => text (Utility.Start u) | None => panic end) ;;
  find Bus.GetConsensusModule ;;
  onConsensus ConsStart.Start ;;
  find Bus.GetRPCModule ;;
  find Bus.GetIBCModule ;;
  s ← get;
  match Bus.PublishEventToBus (NodeEvents.PackMessage NodeEvents.NodeStartedEventType emptyMessage nonce) (nbus s) with
  | Some b => modify (set_nbus b)
  | None => panic
  end.

(** *** What is on the bus *)

(** The modules that register, with the interfaces they implement. *)
Definition registrations (rpc : RPCModule) : list (string * list string) :=
  [("state_machine", ["StateMachineModule"]); ("persistence", ["PersistenceModule"]); ("utility", ["UtilityModule"]);
   (Utility.ServicerModuleName, ["ServicerModule"; "Module"]); (Utility.FishermanModuleName, ["FishermanModule"; "Module"]);
   (Utility.ValidatorModuleName, ["ValidatorModule"; "Module"]); ("leader_election", ["LeaderElectionModule"]); ("pacemaker", ["Pacemaker"]);
   ("stateSyncModule", ["StateSyncModule"]); ("consensus", ["ConsensusModule"; "CurrentHeightProvider"]);
   (Prometheus.GetModuleName, ["TelemetryModule"]); (Noop.GetModuleName, ["TelemetryModule"]); ("logger", ["LoggerModule"]);
   (RPCModule_GetModuleName rpc, ["RPCModule"]); ("p2p", ["P2PModule"]); ("peerstore_provider", ["PeerstoreProvider"]); ("ibc", ["IBCModule"])].
Definition rpcOf (c : Configs.Config) : RPCModule :=
  match Configs.RPC c with Some r => if Configs.rpc_Enabled r then rpcModule else noopRpcModule | None => noopRpcModule end.

Section bus_invariant.
Context (cfg : Configs.Config) (P : Bus.bus -> Prop).
Hypothesis HP : forall n i b, (n, i) ∈ registrations (rpcOf cfg) -> P b ->
  P (Bus.RegisterModule {| GetModuleName := n; implements := i; hasBus := false |} b).
Let I (s : NodeState) : Prop := config s = cfg /\ P (nbus s).

Lemma m_register n i : (n, i) ∈ registrations (rpcOf cfg) -> maintains I anything (register n i).
Proof. intros Hn s [Hc Hb]. split; [|done]. split; [exact Hc|]. by apply HP. Qed.
Lemma m_modify (g : NodeState -> NodeState) : (forall s, config (g s) = config s /\ nbus (g s) = nbus s) -> maintains I anything (modify g : NM unit).
Proof. intros Hg s [Hc Hb]. destruct (Hg s) as [Hg1 Hg2]. split; [|done]. split; cbn; [by rewrite Hg1|by rewrite Hg2]. Qed.
Lemma m_text {A} (r : res string A) : maintains I anything (text r).
Proof. intros s Hs. unfold text, wrap_err, of_res. by destruct r. Qed.
Lemma m_find g : maintains I anything (find g).
Proof. intros s Hs. unfold find. rewrite bind_get. by apply m_text. Qed.
Lemma m_wrap {E' A} (f : E' -> NodeErr) (r : res E' A) : maintains I anything (wrap_err f (of_res r)).
Proof. intros s Hs. unfold wrap_err, of_res. by destruct r. Qed.
Lemma m_section {A} (f : Configs.Config -> option A) : maintains I (fun x => f cfg = Some x) (section f).
Proof. intros s Hs. unfold section. rewrite bind_get. destruct Hs as [Hc Hb]. rewrite Hc. by destruct (f cfg). Qed.
Lemma m_section_any {A} (f : Configs.Config -> option A) : maintains I anything (section f).
Proof. eapply maintains_any, m_section. Qed.
Lemma m_onServer {A} (m : M Server string A) : maintains I anything (onServer m).
Proof. intros s Hs. unfold onServer. destruct (m (server s)) as [[a|e|] d]; by split. Qed.
Lemma m_onWorld {A} (m : M Modules string A) : maintains I anything (onWorld m).
Proof. intros s Hs. unfold onWorld. destruct (m (world s)) as [[a|e|] d]; by split. Qed.
Lemma m_onP2P {A} (m : M P2P.p2pModule P2PErr A) : maintains I anything (onP2P m).
Proof. intros s Hs. unfold onP2P. destruct (p2p s); [|by split]. destruct (m _) as [[a|e|] d]; by split. Qed.
Lemma m_bind {A B} (p : NM A) (k : A -> NM B) : maintains I anything p -> (forall a, maintains I anything (k a)) -> maintains I anything (p ≫= k).
Proof. intros Hp Hk. eapply maintains_bind; [exact Hp|]. intros a _. apply Hk. Qed.
Lemma m_get {B} (k : NodeState -> NM B) : (forall s, maintains I anything (k s)) -> maintains I anything (get ≫= k).
Proof. intros Hk s Hs. rewrite bind_get. by apply Hk. Qed.

Ltac registered := unfold registrations; repeat first [apply list_elem_of_here | apply list_elem_of_further].
Ltac boot_step :=
  match goal with
  | |- maintains _ _ (get ≫= _) => apply m_get; intros ?
  | |- maintains _ _ (_ ≫= _) => apply m_bind; [|intros ?]
  | |- maintains _ _ (mret _) => by apply maintains_ret
  | |- maintains _ _ (fail _) => by apply maintains_fail
  | |- maintains _ _ panic => by apply maintains_panic
  | |- maintains _ _ (modify _) => apply m_modify; by intros ?
  | |- maintains _ _ (register _ _) => apply m_register; registered
  | |- maintains _ _ (text _) => apply m_text
  | |- maintains _ _ (find _) => apply m_find
  | |- maintains _ _ (wrap_err _ (of_res _)) => apply m_wrap
  | |- maintains _ _ (section _) => apply m_section_any
  | |- maintains _ _ (onServer _) => apply m_onServer
  | |- maintains _ _ (onWorld _) => apply m_onWorld
  | |- maintains _ _ (onP2P _) => apply m_onP2P
  | |- maintains _ _ (match ?x with _ => _ end) => destruct x
  end.
Ltac boot := repeat boot_step.

Lemma m_stateMachine : maintains I anything createStateMachine.
Proof. unfold createStateMachine. boot. Qed.
Lemma m_persistence : maintains I anything createPersistence.
Proof. unfold createPersistence. boot. Qed.
Lemma m_utility : maintains I anything createUtility.
Proof. unfold createUtility, createActorModule. boot. Qed.
Lemma m_consensusModule c : maintains (fun st : ConsStart.Startup => P (ConsStart.startBus st)) anything
  (ConsStart.Create (W := Modules) (U := Uow) c 0%nat maxBlockBytes sizeofBlock).
Proof.
  unfold ConsStart.Create, ConsStart.createLeaderElection, ConsStart.CreatePacemaker, ConsStart.createStateSync.
  assert (forall n i, (n, i) ∈ registrations (rpcOf cfg) -> maintains (fun st : ConsStart.Startup => P (ConsStart.startBus st)) anything (ConsStart.registerModule (W := Modules) n i)) as Hr.
  { intros n i Hn st Hst. split; [|done]. cbn. by apply HP. }
  assert (forall A (m : M ConsStart.Heap string A), maintains (fun st : ConsStart.Startup => P (ConsStart.startBus st)) anything (ConsStart.onHeap (W := Modules) m)) as Hh.
  { intros A m st Hst. unfold ConsStart.onHeap. destruct (m _) as [[a|e|] h]; by split. }
  repeat match goal with
  | |- maintains _ _ (ConsStart.registerModule _ _) => apply Hr; registered
  | |- maintains _ _ (ConsStart.onHeap _) => apply Hh
  | |- maintains _ _ get => intros ? ?; by split
  | |- _ => maintains_step
  end.
Qed.
Lemma m_consensus : maintains I anything createConsensus.
Proof.
  unfold createConsensus. boot_step; [boot|]. boot_step; [boot|]. intros s Hs. rewrite bind_get.
  destruct Hs as [Hc Hb]. match goal with |- context [ConsStart.Create ?a ?b ?c ?d ?e] => pose proof (m_consensusModule a e Hb) as [Hb' _]; destruct (ConsStart.Create a b c d e) as [r st] end.
  cbn in Hb'. rewrite bind_eq. cbn. assert (I (set_nbus (ConsStart.startBus st) (set_heap (ConsStart.startHeap st) (set_world (ConsStart.startWorld st) s)))) as HI by done.
  revert HI. generalize (set_nbus (ConsStart.startBus st) (set_heap (ConsStart.startHeap st) (set_world (ConsStart.startWorld st) s))). intros s1 HI.
  revert s1 HI. change (maintains I anything (m ← text r; modify (set_consensus (Some m)))). boot.
Qed.
Lemma m_telemetry : maintains I anything createTelemetry.
Proof. unfold createTelemetry, telemetryName. boot_step. boot_step; [boot|]. match goal with t : TelemetryModule |- _ => destruct t end; boot. Qed.
Lemma m_logger : maintains I anything createLogger.
Proof. unfold createLogger. boot. Qed.
Lemma m_rpc : maintains I anything createRPC.
Proof.
  unfold createRPC. eapply maintains_bind; [apply m_section|]. intros r Hr. cbn beta zeta.
  assert ((if Configs.rpc_Enabled r then rpcModule else noopRpcModule) = rpcOf cfg) as -> by (unfold rpcOf; by rewrite Hr).
  boot.
Qed.
Lemma m_p2p : maintains I anything createP2P.
Proof. unfold createP2P, setupDependencies, setupCurrentHeightProvider, setupPeerstoreProvider. boot. Qed.
Lemma m_ibc : maintains I anything createIBC.
Proof. unfold createIBC. boot. Qed.
End bus_invariant.

(** Everything together. *)
Lemma m_create (cfg : Configs.Config) (P : Bus.bus -> Prop)
  (HP : forall n i b, (n, i) ∈ registrations (rpcOf cfg) -> P b -> P (Bus.RegisterModule {| GetModuleName := n; implements := i; hasBus := false |} b)) :
  maintains (fun s => config s = cfg /\ P (nbus s)) anything Create.
Proof.
  unfold Create.
  repeat (eapply m_bind; [first [by apply m_stateMachine | by apply m_persistence | by apply m_utility | by apply m_consensus | by apply m_telemetry
    | by apply m_logger | by apply m_rpc | by apply m_p2p | by apply m_ibc | by apply m_find]|intros ?]).
  apply m_get. intros s. by apply maintains_ret.
Qed.

(** *** RPC is off *)
Definition noRPC (s : NodeState) : Prop := Bus.modulesRegistry (nbus s) !! "rpc" = None.

Lemma create_without_rpc (s s' : NodeState) (addr : bytes) (r : Configs.RPCConfig) :
  nbus s = Bus.Create -> Configs.RPC (config s) = Some r -> Configs.rpc_Enabled r = false -> Create s = (Ok addr, s') -> noRPC s'.
Proof.
  intros Hb Hr Hoff Hc.
  assert (maintains (fun s0 => config s0 = config s /\ Bus.modulesRegistry (nbus s0) !! "rpc" = None) anything Create) as Hm.
  { apply (m_create (config s) (fun b => Bus.modulesRegistry b !! "rpc" = None)).
    intros n i b Hn Hnone. unfold rpcOf in Hn. rewrite Hr, Hoff in Hn. cbn. unfold Registry.RegisterModule. rewrite lookup_insert_ne; [done|].
    intros Heq. cbn in Heq. subst n. unfold registrations in Hn. rewrite !elem_of_cons, elem_of_nil in Hn.
    repeat destruct Hn as [Hn|Hn]; first [discriminate Hn | done]. }
  refine (proj2 (proj1 (maintains_run _ _ _ _ _ _ Hm _ Hc))). split; [done|by rewrite Hb].
Qed.

Lemma n_text {A} (x : res string A) : maintains noRPC anything (text x).
Proof. intros s Hs. unfold text, wrap_err, of_res. by destruct x. Qed.
Lemma n_find g : maintains noRPC anything (find g).
Proof. intros s Hs. unfold find. rewrite bind_get. by apply n_text. Qed.
Lemma n_onP2P {A} (m : M P2P.p2pModule P2PErr A) : maintains noRPC anything (onP2P m).
Proof. intros s Hs. unfold onP2P. destruct (p2p s); [|by split]. destruct (m _) as [[a|e|] d]; by split. Qed.
Lemma n_onConsensus m : maintains noRPC anything (onConsensus m).
Proof. intros s Hs. unfold onConsensus. destruct (consensus s) as [[c x]|]; [|by split]. destruct (m x) as [[[]|e|] x']; by split. Qed.
Lemma n_telemetry : maintains noRPC anything startTelemetry.
Proof.
  intros s Hs. unfold startTelemetry. rewrite bind_get, bind_eq. unfold text, wrap_err, of_res.
  destruct (Bus.GetTelemetryModule (nbus s)) as [[found b]|e|] eqn:Ht; [|by split..].
  assert (Bus.modulesRegistry b !! "rpc" = None) as Hb.
  { unfold Bus.GetTelemetryModule in Ht. destruct (Bus.firstRegistered _ _); [case_bool_decide; [|done]|]; injection Ht as <- <-; [exact Hs|].
    cbn. unfold Registry.RegisterModule. by rewrite lookup_insert_ne. }
  rewrite bind_modify. destruct (telemetry s) as [[m|]|]; [|by split..]. destruct (Prometheus.Start m) as [x m']. rewrite bind_modify. by destruct x.
Qed.
Lemma no_rpc_module (s : NodeState) : noRPC s -> find Bus.GetRPCModule s = (Panic, s).
Proof. intros Hs. unfold find. rewrite bind_get. unfold Bus.GetRPCModule, Bus.getModuleFromRegistry, Registry.GetModule. unfold noRPC in Hs. by rewrite Hs. Qed.

(** A node whose configuration switches RPC off cannot be started: the module that stands in for
    the RPC module registers under another name, and the start looks for [rpc]. *)
Theorem start_needs_rpc (s s' : NodeState) (addr : bytes) (r : Configs.RPCConfig) :
  nbus s = Bus.Create -> Configs.RPC (config s) = Some r -> Configs.rpc_Enabled r = false -> Create s = (Ok addr, s') ->
  forall s'', Start s' ≠ (Ok tt, s'').
Proof.
  intros Hb Hr Hoff Hc s'' Hs. pose proof (create_without_rpc s s' addr r Hb Hr Hoff Hc) as Hn. clear Hb Hr Hoff Hc. unfold Start in Hs.
  do 6 (apply bind_ok in Hs as (? & ? & Hstep & Hs); eapply maintains_run in Hstep as [Hn' _];
    [|first [apply n_find | apply n_telemetry | apply n_onP2P]|exact Hn]; clear Hn; rename Hn' into Hn).
  rewrite bind_get in Hs.
  do 3 (apply bind_ok in Hs as (? & ? & Hstep & Hs); eapply maintains_run in Hstep as [Hn' _];
    [|first [apply n_find | apply n_onConsensus | match goal with |- maintains _ _ (match ?x with _ => _ end) => destruct x; [apply n_text|by apply maintains_panic] end]|exact Hn];
    clear Hn; rename Hn' into Hn).
  apply bind_ok in Hs as (? & ? & Hstep & _). by rewrite no_rpc_module in Hstep.
Qed.

(** *** The modules of a node *)
Definition available (n i : string) (b : Bus.bus) : Prop := exists m, Bus.modulesRegistry b !! n = Some m /\ i ∈ implements m /\ hasBus m = true.

(** After a node is created every module is found on the bus with its interface. *)
Definition required : list (string * string) :=
  [("state_machine", "StateMachineModule"); ("persistence", "PersistenceModule"); ("utility", "UtilityModule"); ("consensus", "ConsensusModule");
   ("logger", "LoggerModule"); ("p2p", "P2PModule"); ("ibc", "IBCModule")].

Section availability.
Context (cfg : Configs.Config) (n i : string).
Hypothesis Hni : forall ifs, (n, ifs) ∈ registrations (rpcOf cfg) -> i ∈ ifs.
Let J (s : NodeState) : Prop := config s = cfg /\ available n i (nbus s).

Lemma available_register n' ifs b :
  (n', ifs) ∈ registrations (rpcOf cfg) -> available n i b -> available n i (Bus.RegisterModule {| GetModuleName := n'; implements := ifs; hasBus := false |} b).
Proof.
  intros Hin (m & Hm & Hi & Hb). unfold available. cbn. unfold Registry.RegisterModule. destruct (decide (n' = n)) as [->|Hne].
  - rewrite lookup_insert_eq. eexists. split; [done|]. split; [by apply Hni|done].
  - rewrite lookup_insert_ne by done. by exists m.
Qed.

(** [p] leaves the module available when it succeeds. *)
Definition establishes {A} (p : NM A) : Prop := forall s a s', config s = cfg -> p s = (Ok a, s') -> J s'.
Definition keepsConfig {A} (p : NM A) : Prop := maintains (fun s => config s = cfg /\ True) anything p.
Lemma est_left {A B} (p : NM A) (k : A -> NM B) : establishes p -> (forall a, maintains J anything (k a)) -> establishes (p ≫= k).
Proof. intros Hp Hk s b s' Hc (a & s1 & Hs1 & Hs)%bind_ok. by destruct (maintains_run _ _ _ _ _ _ (Hk a) (Hp _ _ _ Hc Hs1) Hs). Qed.
Lemma est_right {A B} (p : NM A) (k : A -> NM B) : keepsConfig p -> (forall a, establishes (k a)) -> establishes (p ≫= k).
Proof.
  intros Hp Hk s b s' Hc (a & s1 & Hs1 & Hs)%bind_ok. eapply Hk; [|exact Hs]. by destruct (maintains_run _ _ _ _ _ _ Hp (conj Hc Logic.I) Hs1) as [[? _] _].
Qed.
Lemma est_register ifs : (n, ifs) ∈ registrations (rpcOf cfg) -> establishes (register n ifs).
Proof.
  intros Hin s a s' Hc [= _ <-]. split; [exact Hc|]. unfold available. cbn. unfold Registry.RegisterModule. rewrite lookup_insert_eq.
  eexists. split; [done|]. split; [by apply Hni|done].
Qed.
End availability.

(** The interface that the bus asks for is that of the module that registers under the name. *)
Lemma required_interfaces rpc n i ifs : (n, i) ∈ required -> (n, ifs) ∈ registrations rpc -> i ∈ ifs.
Proof.
  intros Hr Hn. unfold required in Hr. rewrite !elem_of_cons, elem_of_nil in Hr. unfold registrations in Hn. rewrite !elem_of_cons, elem_of_nil in Hn.
  assert (RPCModule_GetModuleName rpc ∉ required.*1) as Hrpc by (destruct rpc; apply (bool_decide_unpack _); vm_compute; done).
  repeat destruct Hr as [Hr|Hr]; try done; injection Hr as -> ->; repeat destruct Hn as [Hn|Hn]; try done; try discriminate Hn;
    injection Hn; intros; subst; try (apply list_elem_of_here); exfalso; apply Hrpc; match goal with He : _ = RPCModule_GetModuleName _ |- _ => rewrite <- He end; apply (bool_decide_unpack _); vm_compute; done.
Qed.

(** Registering a module twice is registering it once, so what follows may be taken to run from a
    state in which it is registered. *)
Definition registerNow (n : string) (ifs : list string) (s : NodeState) : NodeState :=
  set_nbus (Bus.RegisterModule {| GetModuleName := n; implements := ifs; hasBus := false |} (nbus s)) s.
Lemma register_twice n ifs b :
  Bus.RegisterModule {| GetModuleName := n; implements := ifs; hasBus := false |} (Bus.RegisterModule {| GetModuleName := n; implements := ifs; hasBus := false |} b)
  = Bus.RegisterModule {| GetModuleName := n; implements := ifs; hasBus := false |} b.
Proof. unfold Bus.RegisterModule. cbn. unfold Registry.RegisterModule. cbn. by rewrite insert_insert_eq. Qed.
Lemma register_again {A} n ifs (k : unit -> NM A) s : (register n ifs ≫= k) s = (register n ifs ≫= k) (registerNow n ifs s).
Proof. unfold register. rewrite !bind_modify. f_equal. unfold registerNow. destruct s. cbn. by rewrite register_twice. Qed.

Section established.
Context (cfg : Configs.Config) (n i : string).
Hypothesis Hreq : (n, i) ∈ required.
Let Hni ifs : (n, ifs) ∈ registrations (rpcOf cfg) -> i ∈ ifs := required_interfaces (rpcOf cfg) n i ifs Hreq.
Lemma available_kept n' ifs b :
  (n', ifs) ∈ registrations (rpcOf cfg) -> available n i b -> available n i (Bus.RegisterModule {| GetModuleName := n'; implements := ifs; hasBus := false |} b).
Proof. by apply (available_register cfg n i Hni). Qed.

Lemma registered_now ifs s : (n, ifs) ∈ registrations (rpcOf cfg) -> available n i (nbus (registerNow n ifs s)).
Proof.
  intros Hin. unfold available, registerNow. cbn. unfold Registry.RegisterModule. rewrite lookup_insert_eq. eexists. split; [done|]. split; [by apply Hni|done].
Qed.
Lemma est_first {A} ifs (p : NM A) :
  (n, ifs) ∈ registrations (rpcOf cfg) -> (forall s a s', p s = (Ok a, s') -> p (registerNow n ifs s) = (Ok a, s')) ->
  maintains (fun s => config s = cfg /\ available n i (nbus s)) anything p -> establishes cfg n i p.
Proof.
  intros Hin Hp Hm s a s' Hc Hr%Hp. refine (proj1 (maintains_run _ _ _ _ _ _ Hm _ Hr)).
  split; [exact Hc|by apply registered_now].
Qed.
End established.

Ltac listed := unfold registrations; repeat first [apply list_elem_of_here | apply list_elem_of_further].
Lemma est_stateMachine cfg : establishes cfg "state_machine" "StateMachineModule" createStateMachine.
Proof.
  apply (est_first cfg "state_machine" "StateMachineModule" ltac:(listed) ["StateMachineModule"]); [listed| |apply m_stateMachine; intros ? ? ?; apply available_kept; listed].
  intros s a s' <-. unfold createStateMachine, register. rewrite !bind_modify. unfold modify, registerNow. destruct s. cbn. by rewrite register_twice.
Qed.
Lemma est_persistence cfg : establishes cfg "persistence" "PersistenceModule" createPersistence.
Proof.
  apply (est_first cfg "persistence" "PersistenceModule" ltac:(listed) ["PersistenceModule"]); [listed| |apply m_persistence; intros ? ? ?; apply available_kept; listed].
  intros s a s' <-. symmetry. apply register_again.
Qed.
Lemma est_utility cfg : establishes cfg "utility" "UtilityModule" createUtility.
Proof.
  apply (est_first cfg "utility" "UtilityModule" ltac:(listed) ["UtilityModule"]); [listed| |apply m_utility; intros ? ? ?; apply available_kept; listed].
  intros s a s' <-. symmetry. apply register_again.
Qed.
Lemma est_logger cfg : establishes cfg "logger" "LoggerModule" createLogger.
Proof.
  apply (est_first cfg "logger" "LoggerModule" ltac:(listed) ["LoggerModule"]); [listed| |apply m_logger; intros ? ? ?; apply available_kept; listed].
  intros s a s' <-. symmetry. apply register_again.
Qed.
Lemma est_ibc cfg : establishes cfg "ibc" "IBCModule" createIBC.
Proof.
  apply (est_first cfg "ibc" "IBCModule" ltac:(listed) ["IBCModule"]); [listed| |apply m_ibc; intros ? ? ?; apply available_kept; listed].
  intros s a s' <-. symmetry. apply register_again.
Qed.
Lemma est_p2p cfg : establishes cfg "p2p" "P2PModule" createP2P.
Proof.
  apply (est_first cfg "p2p" "P2PModule" ltac:(listed) ["P2PModule"]); [listed| |apply m_p2p; intros ? ? ?; apply available_kept; listed].
  intros s a s'. unfold createP2P. rewrite bind_eq. rewrite (bind_eq (section Configs.P2P)). unfold section. rewrite !bind_get.
  change (config (registerNow "p2p" ["P2PModule"] s)) with (config s). destruct (Configs.P2P (config s)) as [c|]; [|done]. cbn [mret M_ret].
  rewrite !bind_modify. intros <-. symmetry. rewrite register_again. f_equal.
Qed.
Lemma consensus_registered c st m st' :
  ConsStart.Create (W := Modules) (U := Uow) c 0%nat maxBlockBytes sizeofBlock st = (Ok m, st') ->
  available "consensus" "ConsensusModule" (ConsStart.startBus st').
Proof.
  unfold ConsStart.Create. intros (? & s1 & _ & Hs)%bind_ok. apply bind_ok in Hs as (pm & s2 & _ & Hs). apply bind_ok in Hs as (? & s3 & _ & Hs).
  apply bind_ok in Hs as (? & s4 & [= _ <-] & Hs). apply bind_ok in Hs as (? & s5 & Hv & Hs). apply bind_ok in Hs as (? & s6 & [_ <-]%of_res_ok & Hs).
  rewrite bind_get in Hs. apply bind_ok in Hs as (? & s7 & [_ <-]%of_res_ok & [_ <-]%mret_ok).
  apply wrap_err_ok in Hv. unfold ConsStart.onHeap in Hv. destruct (ConsStart.ValidateGenesis _ _) as [r h]. injection Hv as _ <-.
  unfold available. cbn. unfold Registry.RegisterModule. rewrite lookup_insert_eq. eexists. split; [done|]. split; [apply list_elem_of_here|done].
Qed.
Lemma est_consensus cfg : establishes cfg "consensus" "ConsensusModule" createConsensus.
Proof.
  intros s a s' Hc. unfold createConsensus. intros (c & s1 & Hs1 & Hs)%bind_ok. apply bind_ok in Hs as (p & s2 & Hs2 & Hs).
  assert (s1 = s) as ->. { unfold section in Hs1. rewrite bind_get in Hs1. destruct (Configs.Consensus (config s)); [by injection Hs1|done]. }
  assert (s2 = s) as ->. { destruct (Configs.PacemakerConfig_ c); [by injection Hs2|done]. }
  rewrite bind_get in Hs. destruct (ConsStart.Create _ _ _ _ _) as [r st] eqn:Hr. rewrite bind_eq in Hs. cbn in Hs.
  apply bind_ok in Hs as (m & s3 & Hm & [= _ <-]). unfold text, wrap_err, of_res in Hm. destruct r as [x|e|]; [|done..]. injection Hm as _ <-.
  split; [exact Hc|]. by eapply consensus_registered.
Qed.

Ltac config_kept :=
  match goal with |- keepsConfig ?c ?p =>
    change (maintains (fun s0 => config s0 = c /\ (fun _ : Bus.bus => True) (nbus s0)) anything p);
    first [apply m_stateMachine | apply m_persistence | apply m_utility | apply m_consensus | apply m_telemetry | apply m_logger | apply m_rpc | apply m_p2p | apply m_ibc]
  end.

(** Every module of a node that has been created is found on the bus under its name, with its
    interface, and knows the bus. *)
Theorem created_modules_available (s s' : NodeState) (addr : bytes) (n i : string) :
  (n, i) ∈ required -> Create s = (Ok addr, s') -> available n i (nbus s').
Proof.
  intros Hreq Hc. assert (establishes (config s) n i Create) as He; [|by destruct (He s addr s' eq_refl Hc)].
  clear Hc. pose proof (available_kept (config s) n i Hreq) as HP.
  unfold Create, required in *. rewrite !elem_of_cons, elem_of_nil in Hreq.
  repeat destruct Hreq as [Hreq|Hreq]; try done; injection Hreq as -> ->;
  repeat first
    [ eapply est_left; [first [by apply est_stateMachine | by apply est_persistence | by apply est_utility | by apply est_consensus | by apply est_logger | by apply est_p2p | by apply est_ibc]|intros ?]
    | eapply est_right; [by config_kept|intros ?]
    | eapply m_bind; [first [by apply m_persistence | by apply m_utility | by apply m_consensus | by apply m_telemetry | by apply m_logger | by apply m_rpc | by apply m_p2p | by apply m_ibc | by apply m_find]|intros ?]
    | apply m_get; intros ?; by apply maintains_ret ].
Qed.
End node.
End NodeStart.
