(* ===== verification/Rpc.v ===== *)
(** The RPC server: conversion of chain data to the RPC types and pagination (src/rpc/utils.go).

    The RPC types are generated from src/rpc/v1/openapi.yaml; the records below have the fields
    the handlers fill.  The HTTP framework is third-party: a handler gets the outcome of binding
    the request body and returns a [Reply]; [Aborted] stands for a run-time panic inside the
    handler.  Queries read the node's modules; the index of transactions is reached through the
    interface [TxQueries]. *)

From S2P Require Import Prelude GoStd GoSort GoFloat Errors Crypto CoreTypes Gov Messages Sql Persistence FifoSet TxMempool UnitOfWork ConsTypes Consensus Node Genesis KvStore Indexer Session Servicer Peers Libp2p Utility.
#[local] Open Scope string_scope.
#[local] Open Scope Z_scope.

(** What the handlers ask of the transaction index. *)
Class TxQueries (I : Type) := {
  queryByHash : I -> bytes -> IndexedTransaction + string;
  queryBySender : I -> string -> bool -> list IndexedTransaction + string;
}.
#[export] Instance kvQueries `{Badger} `{IdxTxCodec} : TxQueries BDB := {|
  queryByHash := Indexer.GetByHash;
  queryBySender := Indexer.GetBySender;
|}.

Module Rpc.
Import Node.

Inductive Reply (A : Type) :=
| JSON (status : Z) (body : A)
| Text (status : Z) (s : string)
| NoContent (status : Z)
| NoReply                        (* the handler returns without writing *)
| Aborted.
Arguments JSON {A}. Arguments Text {A}. Arguments NoContent {A}. Arguments NoReply {A}. Arguments Aborted {A}.

Definition StatusOK : Z := 200.
Definition StatusBadRequest : Z := 400.
Definition StatusInternalServerError : Z := 500.

(** ** RPC types *)
Inductive ActorTypesEnum := Application | Fisherman | Servicer_ | Validator.
#[global] Instance ActorTypesEnum_eq_dec : EqDecision ActorTypesEnum. Proof. solve_decision. Defined.

Record ProtocolActor := {
  pa_Address : string; pa_ActorType : ActorTypesEnum; pa_PublicKey : string; pa_Chains : option (list string); pa_ServiceUrl : string;
  pa_StakedAmount : string; pa_PausedHeight : Z; pa_UnstakingHeight : Z; pa_OutputAddr : string }.

Record Coin := { coin_Amount : string; coin_Denom : string }.
Record RPCAccount := { acc_Address : string; acc_Coins : list Coin }.
Record Fee := { fee_Amount : string; fee_Denom : string }.

Inductive RPCMessage :=
| RMessageSend (fromAddr toAddr amount denom : string)
| RMessageStake (actorType : ActorTypesEnum) (publicKey : string) (chains : option (list string)) (serviceUrl outputAddress signer amount denom : string)
| RMessageEditStake (actorType : ActorTypesEnum) (chains : option (list string)) (serviceUrl address signer amount denom : string)
| RMessageUnstake (actorType : ActorTypesEnum) (address signer : string)
| RMessageUnpause (actorType : ActorTypesEnum) (address signer : string)
| RMessageChangeParameter (signer owner parameterValue : string).

Record TxMessage := { tm_Nonce : string; tm_PublicKey : string; tm_Signature : string; tm_Fee : Fee; tm_Message : RPCMessage }.

(** The transaction repeats the position of the indexed transaction. *)
Record RPCIdxTx := {
  rt_Hash : string; rt_TxMsg : TxMessage; rt_Height : Z; rt_Index : Z; rt_ResultCode : Z;
  rt_SignerAddr : string; rt_RecipientAddr : string; rt_MessageType : string }.

Record RPCQuorumCert := {
  rq_Height : Z; rq_Round : Z; rq_Step : string; rq_Block : string; rq_Signatures : list (string * string); rq_Transactions : list string }.
Record RPCBlock := {
  rb_Height : Z; rb_NetworkId : string; rb_StateHash : string; rb_PrevStateHash : string; rb_ProposerAddr : string;
  rb_QuorumCert : RPCQuorumCert; rb_Timestamp : string; rb_Transactions : list RPCIdxTx }.

(** ** Code outside the repository: protobuf and time formatting *)
Class RpcLib := {
  msgToAny : ProtoMessage -> Messages.Any + string;
  unmarshalToSend : Messages.Any -> MessageSend + string;
  unmarshalToStake : Messages.Any -> MessageStake + string;
  unmarshalToEditStake : Messages.Any -> MessageEditStake + string;
  unmarshalToUnstake : Messages.Any -> MessageUnstake + string;
  unmarshalToUnpause : Messages.Any -> MessageUnpause + string;
  unmarshalToChangeParameter : Messages.Any -> MessageChangeParameter + string;
  anyString : option Messages.Any -> string;
  stepString : Z -> string;
  timeString : Z -> string;
}.

(** The server: what it reaches through the bus. *)
Record rpcServer (I : Type) := {
  modules : Modules;
  index : I;
  consensusHeight : Z;            (* uint64 *)
  consensusRound : Z;
  consensusStep : Z;
  utility : Utility.utilityModule;
}.
Arguments modules {I}. Arguments index {I}. Arguments consensusHeight {I}. Arguments consensusRound {I}. Arguments consensusStep {I}. Arguments utility {I}.

(** ** Pages *)
Definition maxPerPage : Z := 1000.

Inductive pageError := errNoItems | errPerPage | errNotPositive | errPageTooHigh (page totalPages : Z).
Definition pageErrorText (e : pageError) : string :=
  match e with
  | errNoItems => "no items found"
  | errPerPage => "per_page has a max value of " +:+ bigIntText maxPerPage
  | errNotPositive => "page and per_page must both be greater than 0"
  | errPageTooHigh page totalPages => "starting page too high: got " +:+ bigIntText page +:+ ", total pages: " +:+ bigIntText totalPages
  end.

Section pages.
Context `{GoConversion}.

Definition getPageIndexes (totalItems page per_page : Z) : res pageError (Z * Z * Z) :=
  if totalItems =? 0 then Err errNoItems
  else if maxPerPage <? per_page then Err errPerPage
  else if (page =? 0) || (per_page =? 0) then Err errNotPositive
  else
    let totalPages := F64.toInt (F64.Ceil (F64.fdiv (F64.ofZ totalItems) (F64.ofZ per_page))) in
    let startIdx := i64 (i64 (page - 1) * per_page) in
    if totalItems - 1 <? startIdx then Err (errPageTooHigh page totalPages)
    else
      let endIdx := i64 (i64 (page * per_page) - 1) in
      let endIdx := if totalItems <=? endIdx then totalItems - 1 else endIdx in
      Ok (startIdx, endIdx, totalPages).

(** [l[start : end]]. *)
Definition goSlice {A} (l : list A) (start stop : Z) : res string (list A) :=
  if (0 <=? start) && (start <=? stop) && (stop <=? Z.of_nat (length l))
  then Ok (take (Z.to_nat (stop - start)) (drop (Z.to_nat start) l)) else Panic.

(** What every paginated handler does with the list of all items: the error reply, the empty
    reply, or the page and the number of pages. *)
Inductive Page (A : Type) := PageErr (e : pageError) | PageEmpty | PageOf (items : list A) (totalPages : Z) | PagePanic.
Arguments PageErr {A}. Arguments PageEmpty {A}. Arguments PageOf {A}. Arguments PagePanic {A}.

Definition pageOf {A} (l : list A) (page per_page : Z) : Page A :=
  match getPageIndexes (Z.of_nat (length l)) page per_page with
  | Err errNoItems => PageEmpty
  | Err e => PageErr e
  | Panic => PagePanic
  | Ok (start, stop, totalPages) =>
      if totalPages =? 0 then PageEmpty
      else match goSlice l start (i64 (stop + 1)) with Ok items => PageOf items totalPages | _ => PagePanic end
  end.
End pages.
Arguments PageErr {A}. Arguments PageEmpty {A}. Arguments PageOf {A}. Arguments PagePanic {A}.

(** [!strings.EqualFold(sort, "asc")]: the long s (bytes C5 BF) folds to s. *)
Definition lowerAscii (c : Ascii.ascii) : Ascii.ascii :=
  let n := Ascii.nat_of_ascii c in if (65 <=? n)%nat && (n <=? 90)%nat then Ascii.ascii_of_nat (n + 32) else c.
Fixpoint foldText (s : string) : string :=
  match s with
  | "" => ""
  | String c s' =>
      match s' with
      | String d s'' =>
          if Nat.eqb (Ascii.nat_of_ascii c) 197 && Nat.eqb (Ascii.nat_of_ascii d) 191 then String (Ascii.ascii_of_nat 115) (foldText s'')
          else String (lowerAscii c) (foldText s')
      | "" => String (lowerAscii c) ""
      end
  end.
Definition checkSortDesc (sort : string) : bool := negb (bool_decide (foldText sort = "asc")).

(** ** Heights *)
Section server.
Context {I : Type} `{TxQueries I} `{CryptoPrims} `{Codec} `{HotstuffCodec} `{RpcLib} `{GoConversion}.
Abbreviation server := (rpcServer I).

(** The last committed height if none is asked for. *)
Definition getQueryHeight (s : server) (height : Z) : Z :=
  if negb (height =? 0) then height
  else let currentHeight := i64 (consensusHeight s) in if 0 <? currentHeight then currentHeight - 1 else currentHeight.

(** ** Actors *)
Definition protocolActorToRPCActorTypeEnum (t : Z) : res string ActorTypesEnum :=
  if t =? ACTOR_TYPE_APP then Ok Application
  else if t =? ACTOR_TYPE_FISH then Ok Fisherman
  else if t =? ACTOR_TYPE_SERVICER then Ok Servicer_
  else if t =? ACTOR_TYPE_VAL then Ok Validator
  else Panic.

Definition protocolActorToRPCProtocolActor (actor : Actor) : res string ProtocolActor :=
  match protocolActorToRPCActorTypeEnum (ActorType actor) with
  | Ok t => Ok {| pa_Address := Address actor; pa_ActorType := t; pa_PublicKey := PublicKey actor; pa_Chains := Chains actor;
                  pa_ServiceUrl := ServiceUrl actor; pa_StakedAmount := StakedAmount actor; pa_PausedHeight := PausedHeight actor;
                  pa_UnstakingHeight := UnstakingHeight actor; pa_OutputAddr := Output actor |}
  | Err e => Err e
  | Panic => Panic
  end.

Fixpoint protocolActorToRPCProtocolActors (actors : list Actor) : res string (list ProtocolActor) :=
  match actors with
  | [] => Ok []
  | a :: rest =>
      match protocolActorToRPCProtocolActor a with
      | Ok r => match protocolActorToRPCProtocolActors rest with Ok rs => Ok (r :: rs) | e => e end
      | Err e => Err e
      | Panic => Panic
      end
  end.

(** ** Transactions *)

(** The parameter that holds the fee of a message for an actor type, or the error text. *)
Definition feeParam (actorType : Z) (messageType : string) : string + string :=
  let unhandled := inr ("unhandled message type: " +:+ messageType) in
  let pick stake edit unstake unpause :=
    if bool_decide (messageType = "MessageStake") then inl stake
    else if bool_decide (messageType = "MessageEditStake") then inl edit
    else if bool_decide (messageType = "MessageUnstake") then inl unstake
    else if bool_decide (messageType = "MessageUnpause") then inl unpause
    else unhandled in
  if bool_decide (messageType = "MessageSend") then inl MessageSendFee
  else if bool_decide (messageType = "MessageChangeParameter") then inl MessageChangeParameterFee
  else if actorType =? ACTOR_TYPE_APP then pick MessageStakeAppFee MessageEditStakeAppFee MessageUnstakeAppFee MessageUnpauseAppFee
  else if actorType =? ACTOR_TYPE_FISH then pick MessageStakeFishermanFee MessageEditStakeFishermanFee MessageUnstakeFishermanFee MessageUnpauseFishermanFee
  else if actorType =? ACTOR_TYPE_SERVICER then pick MessageStakeServicerFee MessageEditStakeServicerFee MessageUnstakeServicerFee MessageUnpauseServicerFee
  else if actorType =? ACTOR_TYPE_VAL then pick MessageStakeValidatorFee MessageEditStakeValidatorFee MessageUnstakeValidatorFee MessageUnpauseValidatorFee
  else inr ("invalid actor type: " +:+ ActorType_GetName actorType).

Definition calculateMessageFeeForActor (s : server) (actorType : Z) (messageType : string) : res string string :=
  let height := i64 (consensusHeight s) in
  match NewReadContext height (modules s) with
  | Err e => Err e
  | Panic => Panic
  | Ok readCtx => match feeParam actorType messageType with inl name => GetStringParam readCtx name height | inr e => Err e end
  end.

(** [paramValueRegex.FindStringSubmatch], for [value:"(.+)"]: the leftmost start from which a
    match exists, up to the last quote of the line. *)
Definition quote : Ascii.ascii := Ascii.ascii_of_nat 34.
Fixpoint upToLastQuote (s : string) : option string :=
  match s with
  | "" => None
  | String c s' =>
      if Nat.eqb (Ascii.nat_of_ascii c) 10 then None
      else match upToLastQuote s' with
           | Some r => Some (String c r)
           | None => if Ascii.eqb c quote then Some "" else None
           end
  end.
Definition valueMark : string := "value:" +:+ String quote "".
Fixpoint findParamValue (s : string) : option string :=
  match (if String.prefix valueMark s then match upToLastQuote (String.substring (String.length valueMark) (String.length s) s) with
                                           | Some "" => None | r => r end else None) with
  | Some v => Some v
  | None => match s with "" => None | String _ s' => findParamValue s' end
  end.

Definition upokt : string := "upokt".

(** A message decoded from the transaction, with its fee and its RPC form. *)
Definition convertMessage {M : Type} (s : server) (messageType : string) (decoded : M + string) (actorType : M -> Z) (toRPC : M -> res string RPCMessage) : res string (Fee * RPCMessage) :=
  match decoded with
  | inr e => Err e
  | inl m =>
      match calculateMessageFeeForActor s (actorType m) messageType with
      | Err e => Err e
      | Panic => Panic
      | Ok fee => match toRPC m with Ok r => Ok ({| fee_Amount := fee; fee_Denom := upokt |}, r) | Err e => Err e | Panic => Panic end
      end
  end.

Definition withActorType (t : Z) (k : ActorTypesEnum -> RPCMessage) : res string RPCMessage :=
  match protocolActorToRPCActorTypeEnum t with Ok e => Ok (k e) | Err e => Err e | Panic => Panic end.

Definition hexOf (b : slice) : string := hexEncode (bz b).

Definition convertByType (s : server) (a : Messages.Any) (messageType : string) : res string (Fee * RPCMessage) :=
  if bool_decide (messageType = "MessageSend") then
    convertMessage s messageType (unmarshalToSend a) (fun m => GetActorType (MSend m))
      (fun m => Ok (RMessageSend (hexOf (FromAddress m)) (hexOf (ToAddress m)) (send_Amount m) upokt))
  else if bool_decide (messageType = "MessageStake") then
    convertMessage s messageType (unmarshalToStake a) (fun m => GetActorType (MStake m))
      (fun m => withActorType (stake_ActorType m) (fun t => RMessageStake t (hexOf (stake_PublicKey m)) (stake_Chains m) (stake_ServiceUrl m)
                  (hexOf (stake_OutputAddress m)) (hexOf (stake_Signer m)) (stake_Amount m) upokt))
  else if bool_decide (messageType = "MessageEditStake") then
    convertMessage s messageType (unmarshalToEditStake a) (fun m => GetActorType (MEditStake m))
      (fun m => withActorType (edit_ActorType m) (fun t => RMessageEditStake t (edit_Chains m) (edit_ServiceUrl m) (hexOf (edit_Address m)) (hexOf (edit_Signer m)) (edit_Amount m) upokt))
  else if bool_decide (messageType = "MessageUnstake") then
    convertMessage s messageType (unmarshalToUnstake a) (fun m => GetActorType (MUnstake m))
      (fun m => withActorType (unstake_ActorType m) (fun t => RMessageUnstake t (hexOf (unstake_Address m)) (hexOf (unstake_Signer m))))
  else if bool_decide (messageType = "MessageUnpause") then
    convertMessage s messageType (unmarshalToUnpause a) (fun m => GetActorType (MUnpause m))
      (fun m => withActorType (unpause_ActorType m) (fun t => RMessageUnpause t (hexOf (unpause_Address m)) (hexOf (unpause_Signer m))))
  else if bool_decide (messageType = "MessageChangeParameter") then
    convertMessage s messageType (unmarshalToChangeParameter a) (fun m => GetActorType (MChangeParameter m))
      (fun m => match findParamValue (anyString (ParameterValue m)) with
                | Some v => Ok (RMessageChangeParameter (hexOf (cp_Signer m)) (hexOf (cp_Owner m)) v)
                | None => Err ("unable to extract parameter value: " +:+ anyString (ParameterValue m))
                end)
  else Err ("unknown message type: " +:+ messageType).

Definition txBytesToRPCTxMsg (s : server) (txBz : bytes) (messageType : string) : res string TxMessage :=
  match TxFromBytes txBz with
  | inr e => Err e
  | inl tx =>
      match GetMessage tx with
      | inr e => Err e
      | inl msg =>
          match msgToAny msg with
          | inr e => Err e
          | inl a =>
              match convertByType s a messageType with
              | Ok (fee, m) => Ok {| tm_Nonce := tx_Nonce tx; tm_PublicKey := hexOf (tx_Signature tx ≫= sig_PublicKey);
                                     tm_Signature := hexOf (tx_Signature tx ≫= sig_Signature); tm_Fee := fee; tm_Message := m |}
              | Err e => Err e
              | Panic => Panic
              end
          end
      end
  end.

Definition idxTxToRPCIdxTx (s : server) (idxTx : IndexedTransaction) : res string RPCIdxTx :=
  match txBytesToRPCTxMsg s (idx_Tx idxTx) (idx_MessageType idxTx) with
  | Ok txMsg => Ok {| rt_Hash := TxHash (idx_Tx idxTx); rt_TxMsg := txMsg; rt_Height := idx_Height idxTx; rt_Index := idx_Index idxTx;
                      rt_ResultCode := idx_ResultCode idxTx; rt_SignerAddr := idx_SignerAddr idxTx; rt_RecipientAddr := idx_RecipientAddr idxTx;
                      rt_MessageType := idx_MessageType idxTx |}
  | Err e => Err e
  | Panic => Panic
  end.

(** In order, with the first failure. *)
Fixpoint mapRes {A B} (f : A -> res string B) (l : list A) : res string (list B) :=
  match l with
  | [] => Ok []
  | a :: rest => match f a with Ok b => match mapRes f rest with Ok bs => Ok (b :: bs) | e => e end | Err e => Err e | Panic => Panic end
  end.

Definition txProtoBytesToRPCIdxTxs (s : server) (txProtoBytes : list bytes) : res string (list RPCIdxTx) :=
  mapRes (fun txBz =>
    match unmarshalTx txBz with
    | inr e => Err e
    | inl _ =>
        match Utility.GetIndexedTransaction txBz (modules s) with
        | Err e => Err (goErrText e)
        | Panic => Panic
        | Ok idxTx => idxTxToRPCIdxTx s idxTx
        end
    end) txProtoBytes.

(** ** Blocks *)
Definition emptyHeader : BlockHeader := {| bh_Height := 0; bh_NetworkId := ""; bh_StateHash := ""; bh_PrevStateHash := ""; bh_ProposerAddress := None; bh_QuorumCertificate := None; bh_Timestamp := 0 |}.

Definition blockToRPCBlock (s : server) (protoBlock : Block) : res string RPCBlock :=
  match txProtoBytesToRPCIdxTxs s (b_Transactions protoBlock) with
  | Err e => Err e
  | Panic => Panic
  | Ok txs =>
      let header := default emptyHeader (b_Header protoBlock) in
      match unmarshalQC (bz (bh_QuorumCertificate header)) with
      | None => Err "proto: cannot parse invalid wire-format data"
      | Some qc =>
          match from_option marshalBlock (Some "") (qc_Block qc) with
          | None => Err "proto: marshal"
          | Some qcBlockBz =>
              Ok {| rb_Height := i64 (bh_Height header); rb_NetworkId := bh_NetworkId header; rb_StateHash := bh_StateHash header;
                    rb_PrevStateHash := bh_PrevStateHash header; rb_ProposerAddr := hexOf (bh_ProposerAddress header);
                    rb_QuorumCert := {| rq_Height := i64 (qc_Height qc); rq_Round := i64 (qc_Round qc); rq_Step := stepString (qc_Step qc);
                      rq_Block := Base64.StdEncode qcBlockBz;
                      rq_Signatures := (fun p => (hexOf (ps_Signature p), ps_Address p)) <$> from_option id [] (qc_ThresholdSignature qc);
                      rq_Transactions := Base64.StdEncode <$> from_option b_Transactions [] (qc_Block qc) |};
                    rb_Timestamp := timeString (bh_Timestamp header); rb_Transactions := txs |}
          end
      end
  end.
End server.
End Rpc.
