(* ===== verification/RpcHandlers.v ===== *)
(** The handlers of the RPC server (src/rpc/handlers_query.go, src/rpc/handlers.go), with
    [GetVersionAtHeight] and [GetSupportedChains] of src/persistence/gov.go.

    A handler takes the outcome of binding the request body ([None]: the binding failed) and the
    server; the handlers that change the node also return its modules. *)

From S2P Require Import Prelude GoStd GoSort GoFloat Errors Crypto CoreTypes Gov Messages Sql Persistence FifoSet TxMempool UnitOfWork ConsTypes Consensus Node Genesis KvStore Indexer Session Servicer Peers Libp2p Utility Rpc.
#[local] Open Scope string_scope.
#[local] Open Scope Z_scope.

Module RpcHandlers.
Import Node Rpc.

(** ** Request bodies *)
Record QueryAccountHeight := { qah_Height : Z; qah_Address : string }.
Record QueryHeightPaginated := { qhp_Height : Z; qhp_Page : Z; qhp_PerPage : Z; qhp_Sort : option string }.
Record QueryAccountPaginated := { qap_Address : string; qap_Page : Z; qap_PerPage : Z; qap_Sort : option string }.
Record QueryPaginated := { qp_Page : Z; qp_PerPage : Z }.
Record QueryParameter := { qpm_ParamName : string; qpm_Height : Z }.

(** ** Responses with pages: the items, the page, the number of pages and, except for accounts, of
    items.  The empty reply is the zero value. *)
Record Paged (A : Type) := { pg_Items : list A; pg_Page : Z; pg_TotalPages : Z; pg_Total : option Z }.
Arguments Build_Paged {A}. Arguments pg_Items {A}. Arguments pg_Page {A}. Arguments pg_TotalPages {A}. Arguments pg_Total {A}.
Definition countIf (withTotal : bool) (n : Z) : option Z := if withTotal then Some n else None.
Definition emptyPage {A} (withTotal : bool) : Paged A := {| pg_Items := []; pg_Page := 0; pg_TotalPages := 0; pg_Total := countIf withTotal 0 |}.

Record RPCPool := { pool_Address : string; pool_Name : string; pool_Amount : string; pool_Denom : string }.
Record QuerySupplyResponse := { sup_Pools : list RPCPool; sup_Total : Coin }.

Definition denom : string := "upokt".

(** ** Steps that every handler shares *)
Definition bound {A B} (body : option A) (k : A -> Reply B) : Reply B :=
  match body with None => Text StatusBadRequest "bad request" | Some b => k b end.
Definition orReply {A B} (status : Z) (r : res string A) (k : A -> Reply B) : Reply B :=
  match r with Ok a => k a | Err e => Text status e | Panic => Aborted end.
Definition decodeOr {B} (status : Z) (s : string) (k : bytes -> Reply B) : Reply B :=
  match hexDecode s with Some b => k b | None => Text status hexErrorText end.
Definition sumRes {A} (r : A + string) : res string A := match r with inl a => Ok a | inr e => Err e end.

Section pages.
Context `{GoConversion}.
(** The page of a list, converted; the conversion of an item may fail or panic. *)
Definition paged {A B} (withTotal : bool) (l : list A) (page per_page : Z) (convert : list A -> res string (list B)) : Reply (Paged B) :=
  match pageOf l page per_page with
  | PageErr e => Text StatusBadRequest (pageErrorText e)
  | PageEmpty => JSON StatusOK (emptyPage withTotal)
  | PagePanic => Aborted
  | PageOf items totalPages =>
      orReply StatusInternalServerError (convert items) (fun bs =>
        JSON StatusOK {| pg_Items := bs; pg_Page := page; pg_TotalPages := totalPages; pg_Total := countIf withTotal (Z.of_nat (length l)) |})
  end.
End pages.

Section queries.
Context {I : Type} `{TxQueries I} `{CryptoPrims} `{Codec} `{HotstuffCodec} `{RpcLib} `{GoConversion} `{GoMapOrder}.
Abbreviation server := (rpcServer I).

Definition withReadContext {B} (s : server) (height : Z) (k : PostgresContext -> Reply B) : Reply B :=
  orReply StatusInternalServerError (NewReadContext height (modules s)) k.

(** ** Accounts *)
Definition toRPCAccount (a : Account) : RPCAccount := {| acc_Address := AccAddress a; acc_Coins := [{| coin_Amount := AccAmount a; coin_Denom := denom |}] |}.

Definition PostV1QueryAccount (s : server) (body : option QueryAccountHeight) : Reply RPCAccount :=
  bound body (fun body =>
  let height := getQueryHeight s (qah_Height body) in
  withReadContext s height (fun readCtx =>
  decodeOr StatusBadRequest (qah_Address body) (fun accBz =>
  orReply StatusInternalServerError (GetAccountAmount readCtx accBz height) (fun amount =>
  JSON StatusOK {| acc_Address := qah_Address body; acc_Coins := [{| coin_Amount := amount; coin_Denom := denom |}] |})))).

Definition PostV1QueryAccounts (s : server) (body : option QueryHeightPaginated) : Reply (Paged RPCAccount) :=
  bound body (fun body =>
  let height := getQueryHeight s (qhp_Height body) in
  withReadContext s height (fun readCtx =>
  paged false (Genesis.GetAllAccounts readCtx height) (qhp_Page body) (qhp_PerPage body) (fun l => Ok (toRPCAccount <$> l)))).

(** The sort order is dereferenced. *)
Definition sortDescOr {B} (sort : option string) (k : bool -> Reply B) : Reply B :=
  match sort with None => Aborted | Some o => k (checkSortDesc o) end.

Definition PostV1QueryAccountTxs (s : server) (body : option QueryAccountPaginated) : Reply (Paged RPCIdxTx) :=
  bound body (fun body =>
  sortDescOr (qap_Sort body) (fun sortDesc =>
  orReply StatusInternalServerError (sumRes (queryBySender (index s) (qap_Address body) sortDesc)) (fun idxTxs =>
  paged true idxTxs (qap_Page body) (qap_PerPage body) (mapRes (idxTxToRPCIdxTx s))))).

Definition PostV1QueryBalance (s : server) (body : option QueryAccountHeight) : Reply Z :=
  bound body (fun body =>
  let height := getQueryHeight s (qah_Height body) in
  withReadContext s height (fun readCtx =>
  decodeOr StatusBadRequest (qah_Address body) (fun accBz =>
  orReply StatusInternalServerError (GetAccountAmount readCtx accBz height) (fun amountStr =>
  match atoi amountStr with                                                     (* [strconv.ParseInt(amountStr, 10, 64)] *)
  | Some amount => JSON StatusOK amount
  | None => Text StatusInternalServerError ("strconv.ParseInt: parsing " +:+ amountStr)
  end)))).

(** ** Parameters *)
Definition GetV1QueryAllChainParams (s : server) : Reply (list (string * string)) :=
  withReadContext s (getQueryHeight s 0) (fun readCtx => JSON 200 (GetAllParams readCtx)).

Definition PostV1QueryParam (s : server) (body : option QueryParameter) : Reply (string * string) :=
  bound body (fun body =>
  let height := getQueryHeight s (qpm_Height body) in
  withReadContext s height (fun readCtx =>
  orReply StatusInternalServerError (GetStringParam readCtx (qpm_ParamName body) height) (fun paramValue => JSON StatusOK (qpm_ParamName body, paramValue)))).

(** ** Actors of one type: one by address, and all by pages *)
Definition queryActor (getter : PostgresContext -> bytes -> Z -> res string Actor) (s : server) (body : option QueryAccountHeight) : Reply ProtocolActor :=
  bound body (fun body =>
  let height := getQueryHeight s (qah_Height body) in
  withReadContext s height (fun readCtx =>
  decodeOr StatusInternalServerError (qah_Address body) (fun addrBz =>
  orReply StatusInternalServerError (getter readCtx addrBz height) (fun actor =>
  orReply StatusInternalServerError (protocolActorToRPCProtocolActor actor) (JSON StatusOK))))).

Definition queryActors (getter : PostgresContext -> Z -> list Actor) (s : server) (body : option QueryHeightPaginated) : Reply (Paged ProtocolActor) :=
  bound body (fun body =>
  let height := getQueryHeight s (qhp_Height body) in
  withReadContext s height (fun readCtx =>
  paged true (getter readCtx height) (qhp_Page body) (qhp_PerPage body) protocolActorToRPCProtocolActors)).

Definition PostV1QueryApp := queryActor GetApp.
Definition PostV1QueryApps := queryActors GetAllApps.
Definition PostV1QueryFisherman := queryActor GetFisherman.
Definition PostV1QueryFishermen := queryActors GetAllFishermen.
Definition PostV1QueryServicer := queryActor GetServicer.
Definition PostV1QueryServicers := queryActors GetAllServicers.
Definition PostV1QueryValidator := queryActor GetValidator.
Definition PostV1QueryValidators := queryActors GetAllValidators.

(** ** Blocks *)
Definition GetBlock (s : server) (height : Z) : res string Block :=
  match blockStore (committedDB (modules s)) !! height with Some b => Ok b | None => Err KeyNotFoundError end.

Definition PostV1QueryBlock (s : server) (body : option Z) : Reply RPCBlock :=
  bound body (fun bodyHeight =>
  orReply StatusInternalServerError (GetBlock s (u64 (getQueryHeight s bodyHeight))) (fun block =>
  orReply StatusInternalServerError (blockToRPCBlock s block) (JSON StatusOK))).

Definition PostV1QueryBlockTxs (s : server) (body : option QueryHeightPaginated) : Reply (Paged RPCIdxTx) :=
  bound body (fun body =>
  sortDescOr (qhp_Sort body) (fun sortDesc =>
  orReply StatusInternalServerError (GetBlock s (u64 (getQueryHeight s (qhp_Height body)))) (fun block =>
  orReply StatusInternalServerError (blockToRPCBlock s block) (fun rpcBlock =>
  let allTxs := if (sortDesc : bool) then reverse (rb_Transactions rpcBlock) else rb_Transactions rpcBlock in
  paged true allTxs (qhp_Page body) (qhp_PerPage body) Ok)))).

Definition GetV1QueryHeight (s : server) : Reply Z := JSON StatusOK (getQueryHeight s 0).

(** ** Supply *)
Fixpoint sumPools (pools : list Account) (total : Z) : option (list RPCPool * Z) :=
  match pools with
  | [] => Some ([], total)
  | pool :: rest =>
      match bigIntSetString (AccAmount pool) with
      | None => None
      | Some amount =>
          match sumPools rest (total + amount) with
          | None => None
          | Some (l, t) => Some ({| pool_Address := AccAddress pool; pool_Name := PoolAddressToFriendlyName (AccAddress pool);
                                    pool_Amount := AccAmount pool; pool_Denom := denom |} :: l, t)
          end
      end
  end.

Definition PostV1QuerySupply (s : server) (body : option Z) : Reply QuerySupplyResponse :=
  bound body (fun bodyHeight =>
  let height := getQueryHeight s bodyHeight in
  withReadContext s height (fun readCtx =>
  match sumPools (Genesis.GetAllPools readCtx height) 0 with
  | None => Text StatusInternalServerError "failed to convert amount to big.Int"
  | Some (rpcPools, total) => JSON StatusOK {| sup_Pools := rpcPools; sup_Total := {| coin_Amount := bigIntText total; coin_Denom := denom |} |}
  end)).

(** Placeholders of the persistence context. *)
Definition GetSupportedChains (_ : PostgresContext) (_ : Z) : res string (list string) := Ok [].
Definition GetVersionAtHeight (_ : PostgresContext) (_ : Z) : res string string := Ok "".

Definition PostV1QuerySupportedChains (s : server) (body : option Z) : Reply (list string) :=
  bound body (fun bodyHeight =>
  let height := getQueryHeight s bodyHeight in
  withReadContext s height (fun readCtx =>
  orReply StatusInternalServerError (GetSupportedChains readCtx height) (JSON StatusOK))).

Definition PostV1QueryUpgrade (s : server) (body : option Z) : Reply (Z * string) :=
  bound body (fun bodyHeight =>
  let height := getQueryHeight s bodyHeight in
  withReadContext s height (fun readCtx =>
  orReply StatusInternalServerError (GetVersionAtHeight readCtx height) (fun version => JSON StatusOK (height, version)))).

(** ** Transactions *)
Definition PostV1QueryTx (s : server) (body : option string) : Reply RPCIdxTx :=
  bound body (fun hash =>
  decodeOr StatusInternalServerError hash (fun hashBz =>
  orReply StatusInternalServerError (sumRes (queryByHash (index s) hashBz)) (fun idxTx =>
  orReply StatusInternalServerError (idxTxToRPCIdxTx s idxTx) (JSON StatusOK)))).

Definition PostV1QueryUnconfirmedTx (s : server) (body : option string) : Reply RPCIdxTx :=
  bound body (fun hash =>
  match TxMempool.GetTx hash (txMempool (modules s)) with
  | None => Text StatusBadRequest ("hash not found in mempool: " +:+ hash)
  | Some uncTx =>
      orReply StatusInternalServerError (txProtoBytesToRPCIdxTxs s [uncTx]) (fun rpcUncTxs =>
      match rpcUncTxs with tx :: _ => JSON StatusOK tx | [] => Aborted end)
  end).

Definition PostV1QueryUnconfirmedTxs (s : server) (body : option QueryPaginated) : Reply (Paged RPCIdxTx) :=
  bound body (fun body =>
  paged true (TxMempool.GetAllTxs (txMempool (modules s))) (qp_Page body) (qp_PerPage body) (txProtoBytesToRPCIdxTxs s)).

Definition PostV1QueryNodeRoles (s : server) : Reply (list string) :=
  JSON 200 ((fun e => Utility.GetModuleName e.2) <$> mapOrder (Utility.actorModules (utility s))).

(** ** Node state *)
Definition GetV1Health : Reply unit := NoContent StatusOK.
Definition GetV1Version (appVersion : string) : Reply unit := Text StatusOK appVersion.

Definition GetV1ConsensusState (s : server) : Reply (Z * Z * Z) :=
  JSON 200 (i64 (consensusHeight s), i64 (consensusRound s), i64 (consensusStep s)).

Record RPCActor := { ra_Address : string; ra_Type : ActorTypesEnum; ra_PublicKey : string; ra_ServiceUrl : string }.

(** The actor type of the parameters: missing, one of the types, or another text. *)
Definition getProtocolActorGetter (actorType : option (option ActorTypesEnum)) : res string (PostgresContext -> Z -> list Actor) :=
  match actorType with
  | None => Panic
  | Some (Some Application) => Ok GetAllApps
  | Some (Some Fisherman) => Ok GetAllFishermen
  | Some (Some Servicer_) => Ok GetAllServicers
  | Some (Some Validator) => Ok GetAllValidators
  | Some None => Ok GetAllStakedActors
  end.

Definition toRPCActor (a : Actor) : res string RPCActor :=
  match protocolActorToRPCActorTypeEnum (ActorType a) with
  | Ok t => Ok {| ra_Address := Address a; ra_Type := t; ra_PublicKey := PublicKey a; ra_ServiceUrl := ServiceUrl a |}
  | Err e => Err e
  | Panic => Panic
  end.

Definition GetV1P2pStakedActorsAddressBook (s : server) (paramHeight : option Z) (actorType : option (option ActorTypesEnum)) : Reply (list RPCActor * Z) :=
  let height := default (i64 (consensusHeight s)) paramHeight in
  withReadContext s height (fun readCtx =>
  orReply StatusInternalServerError (getProtocolActorGetter actorType) (fun protocolActorGetter =>
  orReply StatusInternalServerError (mapRes toRPCActor (protocolActorGetter readCtx height)) (fun actors => JSON StatusOK (actors, height)))).

(** ** Sessions *)
Record SessionRequest := { sr_AppAddress : string; sr_Chain : string; sr_Geozone : string; sr_SessionHeight : Z }.
Record RPCSession := {
  rs_SessionId : string; rs_SessionNumber : Z; rs_SessionHeight : Z; rs_NumSessionBlocks : Z; rs_Chain : string; rs_Geozone : string;
  rs_Application : ProtocolActor; rs_Servicers : list ProtocolActor; rs_Fishermen : list ProtocolActor }.

(** A session without an application: the conversion dereferences it. *)
Definition sessionToRPC (session : Session.Session) : res string RPCSession :=
  match Session.Application session with
  | None => Panic
  | Some application =>
      match protocolActorToRPCProtocolActor application, protocolActorToRPCProtocolActors (Session.Servicers session), protocolActorToRPCProtocolActors (Session.Fishermen session) with
      | Ok rpcApp, Ok rpcServicers, Ok rpcFishermen =>
          Ok {| rs_SessionId := Session.Id session; rs_SessionNumber := Session.SessionNumber session; rs_SessionHeight := Session.SessionHeight session;
                rs_NumSessionBlocks := Session.NumSessionBlocks session; rs_Chain := Session.RelayChain session; rs_Geozone := Session.GeoZone session;
                rs_Application := rpcApp; rs_Servicers := rpcServicers; rs_Fishermen := rpcFishermen |}
      | _, _, _ => Panic
      end
  end.

Definition PostV1ClientGetSession `{RandSource} (fuel : nat) (s : server) (body : option SessionRequest) : Reply RPCSession :=
  bound body (fun body =>
  orReply StatusInternalServerError (Session.GetSession fuel (modules s) (sr_AppAddress body) (sr_SessionHeight body) (sr_Chain body) (sr_Geozone body)) (fun session =>
  orReply StatusInternalServerError (sessionToRPC session) (JSON StatusOK))).
End queries.

(** ** Submitting a transaction *)
Class Broadcaster (N : Type) := { broadcast : Libp2p.Any -> M N string unit }.

Section broadcast.
Context {N : Type} `{Broadcaster N} `{CryptoPrims} `{Codec} `{Utility.GossipCodec}.

Definition broadcastMessage (msgBz : bytes) : M N string unit :=
  match Utility.PrepareTxGossipMessage msgBz with
  | inr e => fail e
  | inl utilityMsg => broadcast utilityMsg
  end.

(** The transaction stays in the mempool if the broadcast fails. *)
Definition PostV1ClientBroadcastTxSync (rawHexBytes : option string) (st : Modules * N) : Reply unit * (Modules * N) :=
  match rawHexBytes with
  | None => (Text StatusBadRequest "bad request", st)
  | Some raw =>
      match hexDecode raw with
      | None => (Text StatusBadRequest "cannot decode tx bytes", st)
      | Some txBz =>
          let '(w, n) := st in
          match Utility.HandleTransaction txBz w with
          | (Err e, w') => (Text StatusInternalServerError (goErrText e), (w', n))
          | (Panic, w') => (Aborted, (w', n))
          | (Ok _, w') =>
              match broadcastMessage txBz n with
              | (Ok _, n') => (NoReply, (w', n'))
              | (Err e, n') => (Text StatusInternalServerError e, (w', n'))
              | (Panic, n') => (Aborted, (w', n'))
              end
          end
      end
  end.
End broadcast.

(** ** Relays and challenges *)
Record RPCPayload := { pl_Id : option string; pl_Jsonrpc : string; pl_Method : string; pl_Parameters : option bytes; pl_Headers : option (list (string * string)) }.
Record RPCRelayMeta := { rm_BlockHeight : Z; rm_ServicerPubKey : string; rm_Chain : string * string; rm_Geozone : string * string; rm_Signature : string }.
Record RelayRequest := { rr_Payload : RPCPayload; rr_Meta : RPCRelayMeta }.

Definition buildJsonRPCRelayPayload (body : RPCPayload) : Relay.RelayPayload :=
  Relay.Relay_JsonRpcPayload {|
    Relay.jsonrpc_Id := default "" (pl_Id body); Relay.JsonRpc := pl_Jsonrpc body; Relay.Method := pl_Method body;
    Relay.Parameters := default "" (pl_Parameters body);
    Relay.Headers := match pl_Headers body with
                     | None => ∅
                     | Some headers => foldl (fun m h => <[h.1 := h.2]> m) ∅ headers
                     end |}.

Definition identifiable (p : string * string) : Relay.Identifiable := {| Relay.ident_Id := p.1; Relay.ident_Name := p.2 |}.

(** The address of the application is not set. *)
Definition relayMetaOf (m : RPCRelayMeta) : Relay.RelayMeta := {|
  Relay.BlockHeight := rm_BlockHeight m; Relay.ServicerPublicKey := rm_ServicerPubKey m; Relay.RelayChain := Some (identifiable (rm_Chain m));
  Relay.GeoZone := Some (identifiable (rm_Geozone m)); Relay.Signature := rm_Signature m; Relay.ApplicationAddress := "" |}.

Section relays.
Context {L : Type} `{LocalContext L} `{Relay.RelayText} `{Servicer.HttpLib} `{Servicer.RelayCodec}.
Context `{RandSource} `{GoMapOrder} `{CryptoPrims} `{GoConversion}.

Definition PostV1ClientRelay (w : Modules) (currentHeight : Z) (fuel : nat) (u : Utility.utilityModule) (body : option RelayRequest) (sv : Servicer.servicer L)
    : Reply (string * string) * Servicer.servicer L :=
  match Utility.GetServicerModule u with
  | Ok _ =>
      match body with
      | None => (Text StatusBadRequest "bad request", sv)
      | Some body =>
          let relayRequest := {| Relay.Meta := Some (relayMetaOf (rr_Meta body)); Relay.relayPayload := Some (buildJsonRPCRelayPayload (rr_Payload body)) |} in
          match Utility.HandleRelay w currentHeight fuel u (Some relayRequest) sv with
          | (Ok resp, sv') => (JSON StatusOK (Relay.Payload resp, Relay.ServicerSignature resp), sv')
          | (Err e, sv') => (Text StatusInternalServerError (Servicer.etext e), sv')
          | (Panic, sv') => (Aborted, sv')
          end
      end
  | _ => (Text StatusInternalServerError "node is not a servicer", sv)
  end.
End relays.

Record ChallengeRequest := { cr_MajorityResponses : list Relay.RelayResponse; cr_MinorityResponse : Relay.RelayResponse; cr_Address : string; cr_ServicerPubKey : string; cr_SessionId : string }.

(** Not implemented: a nil response and no error. *)
Definition HandleChallenge (_ : ChallengeRequest) : res string (option string) := Ok None.

Definition PostV1ClientChallenge (body : option ChallengeRequest) : Reply string :=
  bound body (fun body =>
  match HandleChallenge body with
  | Err _ => Text StatusInternalServerError "bad request"
  | Panic | Ok None => Aborted
  | Ok (Some response) => JSON StatusOK response
  end).
End RpcHandlers.
