(* ===== verification/RpcFacts.v ===== *)
(** What the RPC server answers: the pages of a list cover it exactly, and the requests that no
    state of the node can serve. *)

From S2P Require Import Prelude GoStd GoSort GoFloat Errors Crypto CoreTypes Gov Messages Sql Persistence FifoSet TxMempool UnitOfWork ConsTypes Consensus Node Genesis KvStore Indexer Session SessionFacts Servicer ServicerFacts Peers Libp2p Utility Rpc RpcHandlers.
#[local] Open Scope string_scope.
#[local] Open Scope Z_scope.

Module RpcFacts.
Import Node Rpc RpcHandlers.

(** ** Pages *)

(** A list cut into pieces of [d] items. *)
Lemma pieces_concat {A} (d : nat) : forall k (l : list A), (length l <= k * d)%nat ->
  concat ((fun i => take d (drop (i * d) l)) <$> seq 0 k) = l.
Proof.
  induction k as [|k IH]; intros l Hl; [by destruct l; cbn in *; [|lia]|].
  rewrite <- cons_seq, fmap_cons. cbn [concat]. rewrite drop_0, <- fmap_S_seq, <- list_fmap_compose.
  transitivity (take d l ++ drop d l)%list; [f_equal|apply take_drop].
  etrans; [|apply (IH (drop d l)); rewrite length_drop; lia]. f_equal. apply list_fmap_ext. intros i x _. cbn.
  by rewrite drop_drop.
Qed.

Section pages.
Context `{GoConversion}.

Definition totalPages (n per : Z) : Z := (n + per - 1) / per.

Lemma totalPages_spec n per : 0 < per -> (totalPages n per - 1) * per < n <= totalPages n per * per.
Proof.
  intros Hp. unfold totalPages. pose proof (Z.mul_div_le (n + per - 1) per Hp). pose proof (Z.mul_succ_div_gt (n + per - 1) per Hp). lia.
Qed.

Lemma pages_count n per : 0 < n < 2 ^ 52 -> 1 <= per <= 1000 ->
  F64.toInt (F64.Ceil (F64.fdiv (F64.ofZ n) (F64.ofZ per))) = totalPages n per /\ 1 <= totalPages n per <= n.
Proof.
  intros Hn Hp. pose proof (totalPages_spec n per ltac:(lia)) as Ht. split; [apply F64Div.ceil_quotient; lia|nia].
Qed.

(** The checks of [getPageIndexes] on a request with positive numbers. *)
Lemma indexes_checked n page per : 0 < n < 2 ^ 52 -> 1 <= per <= 1000 -> page <> 0 ->
  getPageIndexes n page per =
    let startIdx := i64 (i64 (page - 1) * per) in
    if n - 1 <? startIdx then Err (errPageTooHigh page (totalPages n per))
    else let endIdx := i64 (i64 (page * per) - 1) in
         Ok (startIdx, if n <=? endIdx then n - 1 else endIdx, totalPages n per).
Proof.
  intros Hn Hp Hpage. unfold getPageIndexes, maxPerPage. destruct (pages_count n per Hn Hp) as [-> _].
  rewrite (proj2 (Z.eqb_neq n 0)), (proj2 (Z.ltb_ge 1000 per)), (proj2 (Z.eqb_neq page 0)), (proj2 (Z.eqb_neq per 0)) by lia. done.
Qed.

Lemma pageOf_page {A} (l : list A) (n := Z.of_nat (length l)) page per :
  0 < n < 2 ^ 52 -> 1 <= per <= 1000 -> 1 <= page <= totalPages n per ->
  pageOf l page per = PageOf (take (Z.to_nat per) (drop (Z.to_nat ((page - 1) * per)) l)) (totalPages n per).
Proof.
  intros Hn Hp Hpage. unfold pageOf. fold n. destruct (pages_count n per Hn Hp) as [_ Hk]. pose proof (totalPages_spec n per ltac:(lia)) as Ht.
  assert ((page - 1) * per < n) as Hstart by nia. assert (page * per < 2 ^ 53) as Hend by nia. assert (0 <= (page - 1) * per) as H0 by nia.
  rewrite indexes_checked by lia. cbv zeta. rewrite !i64_small by (unfold in_i64; rewrite ?i64_small by (unfold in_i64; lia); lia).
  rewrite (proj2 (Z.ltb_ge _ _)), (proj2 (Z.eqb_neq _ _)) by lia. unfold goSlice. fold n.
  rewrite i64_small by (unfold in_i64; case_match; lia).
  assert ((if n <=? page * per - 1 then n - 1 else page * per - 1) + 1 = Z.min n (page * per)) as -> by (destruct (Z.leb_spec n (page * per - 1)); lia).
  rewrite !(proj2 (Z.leb_le _ _)) by lia. cbn [andb]. f_equal.
  destruct (decide (n <= page * per)) as [Hle|Hgt].
  - rewrite Z.min_l by lia. rewrite !take_ge; [done|rewrite length_drop; lia..].
  - rewrite Z.min_r by lia. f_equal. lia.
Qed.

Lemma pageOf_beyond {A} (l : list A) (n := Z.of_nat (length l)) page per :
  0 < n < 2 ^ 52 -> 1 <= per <= 1000 -> totalPages n per < page < 2 ^ 53 ->
  pageOf l page per = PageErr (errPageTooHigh page (totalPages n per)).
Proof.
  intros Hn Hp Hpage. unfold pageOf. fold n. destruct (pages_count n per Hn Hp) as [_ Hk]. pose proof (totalPages_spec n per ltac:(lia)) as Ht.
  assert (n <= (page - 1) * per < 2 ^ 63) as Hstart by nia. rewrite indexes_checked by lia. cbv zeta.
  rewrite !i64_small by (unfold in_i64; rewrite ?i64_small by (unfold in_i64; lia); lia). by rewrite (proj2 (Z.ltb_lt _ _)) by lia.
Qed.

Lemma pageOf_negative {A} (l : list A) (n := Z.of_nat (length l)) page per :
  0 < n < 2 ^ 52 -> 1 <= per <= 1000 -> - 2 ^ 52 < page < 0 -> pageOf l page per = PagePanic.
Proof.
  intros Hn Hp Hpage. unfold pageOf. fold n. destruct (pages_count n per Hn Hp) as [_ Hk].
  assert (- 2 ^ 63 < (page - 1) * per < 0) as Hstart by nia. assert (- 2 ^ 63 < page * per - 1 < 0) as Hend by nia.
  rewrite indexes_checked by lia. cbv zeta.
  rewrite !i64_small by (unfold in_i64; rewrite ?i64_small by (unfold in_i64; lia); lia).
  rewrite (proj2 (Z.ltb_ge _ _)), (proj2 (Z.eqb_neq _ _)) by lia. unfold goSlice. by rewrite (proj2 (Z.leb_gt 0 _)) by lia.
Qed.

(** The products are taken modulo 2^64. *)
Lemma i64_congr a b : (a - b) mod 2 ^ 64 = 0 -> i64 a = i64 b.
Proof.
  intros He. unfold i64. f_equal. apply Z.mod_divide in He as [c Hc]; [|lia].
  replace (a + 2 ^ 63) with (b + 2 ^ 63 + c * 2 ^ 64) by lia. by rewrite Z.mod_add by lia.
Qed.
Lemma i64_mul x per : i64 (i64 x * per) = i64 (x * per).
Proof.
  apply i64_congr. replace (i64 x * per - x * per) with ((i64 x - x) * per) by ring.
  assert ((i64 x - x) mod 2 ^ 64 = 0) as He.
  { unfold i64. rewrite (Z.mod_eq (x + 2 ^ 63)) by lia.
    replace (x + 2 ^ 63 - 2 ^ 64 * ((x + 2 ^ 63) / 2 ^ 64) - 2 ^ 63 - x) with (- ((x + 2 ^ 63) / 2 ^ 64) * 2 ^ 64) by ring. by apply Z.mod_mul. }
  by rewrite Z.mul_mod, He by lia.
Qed.

Lemma pageOf_wraps {A} (l : list A) (n := Z.of_nat (length l)) page page' per :
  0 < n < 2 ^ 52 -> 1 <= per <= 1000 -> 1 <= page <= totalPages n per -> page' <> 0 -> ((page' - page) * per) mod 2 ^ 64 = 0 ->
  pageOf l page' per = pageOf l page per.
Proof.
  intros Hn Hp Hpage H0 Hm. unfold pageOf. fold n. rewrite !indexes_checked by lia. cbv zeta. rewrite !i64_mul.
  assert (i64 ((page' - 1) * per) = i64 ((page - 1) * per)) as -> by (apply i64_congr; by replace (_ - _) with ((page' - page) * per) by ring).
  assert (i64 (page' * per) = i64 (page * per)) as -> by (apply i64_congr; by replace (_ - _) with ((page' - page) * per) by ring).
  assert (n - 1 <? i64 ((page - 1) * per) = false) as ->; [|done].
  destruct (pages_count n per Hn Hp) as [_ Hk]. pose proof (totalPages_spec n per ltac:(lia)) as Ht.
  assert (0 <= (page - 1) * per < n) as Hs by nia. rewrite i64_small by (unfold in_i64; lia). apply Z.ltb_ge. lia.
Qed.

Definition replyItems {B} (r : Reply (Paged B)) : list B := match r with JSON _ p => pg_Items p | _ => [] end.

(** C21: The pages of a list of less than 2^52 items: with [per_page] between 1 and 1000, every
    page from 1 to the total number of pages is answered, with the [per_page] items from its
    start; the pages in order are the whole list, each item once.  A page after the last is
    refused if it is below 2^53, and a negative page above -2^52, which no check refuses, makes
    the handler panic.  The bounds are needed: the start of a page is computed modulo 2^64, and
    a page number that differs from a page by a multiple of 2^64 once multiplied by [per_page]
    is answered with the items of that page. *)
Theorem pages_partition {A B} (withTotal : bool) (f : A -> B) (l : list A) (n := Z.of_nat (length l)) (per : Z) (k := totalPages n per) :
  0 < n < 2 ^ 52 -> 1 <= per <= 1000 ->
  let answer page := paged withTotal l page per (fun items => Ok (f <$> items)) in
  (forall page, 1 <= page <= k ->
     answer page = JSON StatusOK {| pg_Items := f <$> take (Z.to_nat per) (drop (Z.to_nat ((page - 1) * per)) l);
                                    pg_Page := page; pg_TotalPages := k; pg_Total := countIf withTotal n |}) /\
  concat ((fun page => replyItems (answer page)) <$> seqZ 1 k) = f <$> l /\
  (forall page, k < page < 2 ^ 53 -> answer page = Text StatusBadRequest (pageErrorText (errPageTooHigh page k))) /\
  (forall page, - 2 ^ 52 < page < 0 -> answer page = Aborted) /\
  (forall page page', 1 <= page <= k -> page' <> 0 -> ((page' - page) * per) mod 2 ^ 64 = 0 ->
     answer page' = JSON StatusOK {| pg_Items := f <$> take (Z.to_nat per) (drop (Z.to_nat ((page - 1) * per)) l);
                                     pg_Page := page'; pg_TotalPages := k; pg_Total := countIf withTotal n |}).
Proof.
  intros Hn Hp answer. assert (forall page, 1 <= page <= k ->
     answer page = JSON StatusOK {| pg_Items := f <$> take (Z.to_nat per) (drop (Z.to_nat ((page - 1) * per)) l);
                                    pg_Page := page; pg_TotalPages := k; pg_Total := countIf withTotal n |}) as Hans.
  { intros page Hpage. unfold answer, paged. by rewrite pageOf_page. }
  split; [done|]. split; [|split; [|split]];
    [|by intros page Hpage; unfold answer, paged; rewrite pageOf_beyond|by intros page Hpage; unfold answer, paged; rewrite pageOf_negative
     |by intros page page' Hpage H0 Hm; unfold answer, paged; rewrite (pageOf_wraps l page page'), pageOf_page].
  destruct (pages_count n per Hn Hp) as [_ Hk]. fold k in Hk. pose proof (totalPages_spec n per ltac:(lia)) as Ht. fold k in Ht.
  rewrite <- (pieces_concat (Z.to_nat per) (Z.to_nat k) (f <$> l)) by (rewrite length_fmap; nia).
  unfold seqZ. rewrite <- list_fmap_compose. f_equal. apply list_fmap_ext. intros j i [-> Hi]%lookup_seq. cbn.
  rewrite Hans by lia. cbn. rewrite fmap_take, fmap_drop. do 2 f_equal. lia.
Qed.
End pages.

(** ** Requests that are never served *)
Section answers.
Context {I : Type} `{TxQueries I} `{CryptoPrims} `{Codec} `{HotstuffCodec} `{RpcLib} `{GoConversion}.

(** Not in the index of committed transactions. *)
Definition uncommitted (w : Modules) (tx : bytes) : Prop := txByHash (txIndexer (committedDB w)) !! TxHash tx = None.

Lemma uncommitted_not_indexed tx w : uncommitted w tx -> Utility.GetIndexedTransaction tx w = Err (UnitOfWork.PocketErr ErrTransactionNotCommitted).
Proof.
  unfold uncommitted, Utility.GetIndexedTransaction, TxHash, GetHashStringFromBytes. rewrite hex_decode_encode.
  unfold Utility.GetByHash. by intros ->.
Qed.

(** The conversion fails at the first transaction. *)
Lemma uncommitted_fails (s : rpcServer I) tx (txs : list bytes) :
  uncommitted (modules s) tx -> exists e, txProtoBytesToRPCIdxTxs s (tx :: txs) = Err e.
Proof.
  intros Hu. unfold txProtoBytesToRPCIdxTxs. cbn [mapRes]. destruct (unmarshalTx tx); [|eauto]. rewrite uncommitted_not_indexed by done. eauto.
Qed.

(** The queries for unconfirmed transactions never answer with one: each looks the
    transaction up in the index of committed transactions, so while the mempool holds only
    transactions that are not committed, a query for any of them, and a query for any page of
    them, is an internal error. *)
Theorem unconfirmed_txs_unanswered (s : rpcServer I) (txs := TxMempool.GetAllTxs (txMempool (modules s))) (n := Z.of_nat (length txs)) :
  Forall (uncommitted (modules s)) txs ->
  (forall hash tx, TxMempool.GetTx hash (txMempool (modules s)) = Some tx ->
     exists e, PostV1QueryUnconfirmedTx s (Some hash) = Text StatusInternalServerError e) /\
  (forall page per, 0 < n < 2 ^ 52 -> 1 <= per <= 1000 -> 1 <= page <= totalPages n per ->
     exists e, PostV1QueryUnconfirmedTxs s (Some {| qp_Page := page; qp_PerPage := per |}) = Text StatusInternalServerError e).
Proof.
  intros Hall. split.
  - intros hash tx Hget. unfold PostV1QueryUnconfirmedTx. cbn [bound]. rewrite Hget. unfold TxMempool.GetTx, FIFOSet.Get in Hget.
    apply fmap_Some in Hget as ([i tx'] & (Hl & _)%list_find_Some & [= ->]).
    destruct (uncommitted_fails s tx' []) as [e ->]; [|by exists e]. by apply (Forall_lookup_1 _ txs i).
  - intros page per Hn Hper Hpage. unfold PostV1QueryUnconfirmedTxs. cbn [bound qp_Page qp_PerPage]. unfold paged. rewrite pageOf_page by done.
    pose proof (totalPages_spec n per ltac:(lia)) as Ht. fold txs n.
    destruct (take (Z.to_nat per) (drop (Z.to_nat ((page - 1) * per)) txs)) as [|tx rest] eqn:Hd.
    + apply (f_equal length) in Hd. rewrite length_take, length_drop in Hd. cbn in Hd. subst n. nia.
    + destruct (uncommitted_fails s tx rest) as [e ->]; [|by exists e].
      assert (Forall (uncommitted (modules s)) (tx :: rest)) as Hf by (rewrite <- Hd; by apply Forall_take, Forall_drop). by inversion Hf.
Qed.
End answers.

(** ** Relays *)
Section relays.
Context {L : Type} `{LocalContext L} `{Relay.RelayText} `{Servicer.HttpLib} `{Servicer.RelayCodec}.
Context `{RandSource} `{GoMapOrder} `{CryptoPrims} `{GoConversion}.

(** A session exists only for an application the state has a row for. *)
Lemma session_application fuel w appAddr height chain zone ses :
  Session.GetSession fuel w appAddr height chain zone = Ok ses ->
  exists addr, hexDecode appAddr = Some addr /\ is_Some (actorTable (db (committedDB w)) ApplicationActor !! hexEncode addr).
Proof.
  unfold Session.GetSession, NewReadContext. intros Hs. destruct (Session.hydrate _ _ _) as [[[]| |] s'] eqn:Hy; [|done..]. clear Hs.
  unfold Session.hydrate in Hy. apply bind_ok in Hy as ([] & s1 & Hmeta & Hy). apply wrap_err_ok in Hmeta.
  assert (keeps Session.readCtx Session.hydrateSessionMetadata) as Hk by (unfold Session.hydrateSessionMetadata; solve_keeps).
  specialize (Hk {| Session.session := Session.emptySession chain zone; Session.blockHeight := height;
                    Session.readCtx := contextAt height (committedDB w); Session.sessionIdBz := "" |}). rewrite Hmeta in Hk. cbn [snd Session.readCtx] in Hk.
  apply bind_ok in Hy as ([] & s2 & Happ & _). apply wrap_err_ok in Happ. unfold Session.hydrateSessionApplication in Happ.
  destruct (hexDecode appAddr) as [addr|]; [|done]. exists addr. split; [done|]. rewrite bind_get in Happ.
  apply bind_ok in Happ as (actor & s3 & Hact & _). apply of_res_ok in Hact as [Hact _]. rewrite Hk in Hact.
  change (getActor ApplicationActor (contextAt height (committedDB w)) addr (Session.SessionHeight (Session.session s1)) = Ok actor) in Hact.
  unfold getActor, selectActor, selectLatest in Hact. cbn [db contextAt] in Hact. destruct (actorTable _ ApplicationActor !! _); [eauto|done].
Qed.

(** No relay sent to the RPC endpoint is ever answered: the handler does not fill in the
    address of the application, so the session is looked up for the empty address, and no
    application has it. *)
Theorem rpc_relay_never_served w currentHeight fuel u body sv status resp sv' :
  actorTable (db (committedDB w)) ApplicationActor !! "" = None ->
  ¬ PostV1ClientRelay (L := L) w currentHeight fuel u body sv = (JSON status resp, sv').
Proof.
  intros Hno Hr. unfold PostV1ClientRelay in Hr. destruct (Utility.GetServicerModule u) eqn:Hu; [|done..]. destruct body as [body|]; [|done].
  destruct (Utility.HandleRelay _ _ _ _ _ _) as [[r| |] s'] eqn:Hh; [|done..]. unfold Utility.HandleRelay in Hh. rewrite Hu in Hh.
  unfold Servicer.HandleRelay in Hh. apply bind_ok in Hh as ([] & s1 & Hadm & _). apply wrap_err_ok, ServicerFacts.admit_ok in Hadm.
  destruct Hadm as (meta & chain & zone & actor & ses & budget & used & [= <-] & _ & _ & _ & _ & _ & Hses & _).
  apply session_application in Hses as (addr & [= <-] & Hs). cbn in Hs. rewrite Hno in Hs. by destruct Hs.
Qed.
End relays.

(** ** A concrete server *)
Module ToyRpc.
Definition queries : TxQueries unit := {| queryByHash _ _ := inr "not found"; queryBySender _ _ _ := inl [] |}.
Definition lib : RpcLib := {| msgToAny _ := inr "any"; unmarshalToSend _ := inr "any"; unmarshalToStake _ := inr "any"; unmarshalToEditStake _ := inr "any";
  unmarshalToUnstake _ := inr "any"; unmarshalToUnpause _ := inr "any"; unmarshalToChangeParameter _ := inr "any"; anyString _ := ""; stepString _ := "";
  timeString _ := "" |}.
(** One valid transaction waits in the mempool. *)
Definition node : Modules := (@Utility.HandleTransaction ToyCrypto.prims ToyCodec.codec "17" NodeToy.modules).2.
Definition servicerNode : Utility.utilityModule := (Utility.Create {| Utility.MaxMempoolTransactionBytes := 1000; Utility.MaxMempoolTransactions := 10;
  Utility.servicerEnabled := true; Utility.fishermanEnabled := false; Utility.validatorEnabled := false |}).2.
Definition server : rpcServer unit := {| modules := node; index := tt; consensusHeight := 7; consensusRound := 0; consensusStep := 0; utility := servicerNode |}.
Definition hash : string := @TxHash ToyCrypto.prims "17".
Definition request : RelayRequest := {|
  rr_Payload := {| pl_Id := None; pl_Jsonrpc := "2.0"; pl_Method := "eth_blockNumber"; pl_Parameters := None; pl_Headers := None |};
  rr_Meta := {| rm_BlockHeight := 7; rm_ServicerPubKey := hexEncode (SessionFacts.SessionToy.pk 2); rm_Chain := ("0001", ""); rm_Geozone := ("", ""); rm_Signature := "" |} |}.
End ToyRpc.
#[local] Existing Instances ToyRpc.queries ToyRpc.lib ToyCrypto.prims ToyCodec.codec NodeToy.hcodec SessionFacts.SessionToy.conversion.

Lemma pages_partition_witness :
  concat ((fun page => replyItems (@paged SessionFacts.SessionToy.conversion Z Z false [3; 1; 4; 1; 5] page 2 (fun items => Ok (Z.succ <$> items)))) <$> seqZ 1 3)
  = [4; 2; 5; 2; 6] /\
  replyItems (@paged SessionFacts.SessionToy.conversion Z Z false [3; 1; 4; 1; 5] (2 - 2 ^ 63) 2 (fun items => Ok (Z.succ <$> items))) = [5; 2].
Proof.
  destruct (@pages_partition SessionFacts.SessionToy.conversion Z Z false Z.succ [3; 1; 4; 1; 5] 2) as (_ & H & _ & _ & Hw); [cbn; lia|lia|].
  split; [exact H|]. rewrite (Hw 2 (2 - 2 ^ 63)); [reflexivity|vm_compute; split; discriminate|lia|reflexivity].
Defined.

Lemma unconfirmed_txs_unanswered_witness :
  exists e, PostV1QueryUnconfirmedTx ToyRpc.server (Some ToyRpc.hash) = Text StatusInternalServerError e.
Proof.
  assert (TxMempool.GetTx ToyRpc.hash (txMempool ToyRpc.node) = Some "17") as Hget by (vm_compute; reflexivity).
  refine (proj1 (unconfirmed_txs_unanswered ToyRpc.server _) _ _ Hget).
  assert (TxMempool.GetAllTxs (txMempool (modules ToyRpc.server)) = ["17"]) as -> by (vm_compute; reflexivity).
  constructor; [|constructor]. vm_compute. reflexivity.
Defined.

Lemma rpc_relay_never_served_witness :
  ¬ @PostV1ClientRelay unit Local.persistenceLocalContext ServicerFacts.ServicerToy.text ServicerFacts.ServicerToy.http ServicerFacts.ServicerToy.codec
      SessionFacts.CountingSource.source CanonicalOrder.order ToyCrypto.prims SessionFacts.SessionToy.conversion SessionFacts.SessionToy.modules 7 10 ToyRpc.servicerNode
      (Some ToyRpc.request) (ServicerFacts.ServicerToy.state (SessionFacts.SessionToy.addr 2))
    = (JSON StatusOK ("", ""), ServicerFacts.ServicerToy.state (SessionFacts.SessionToy.addr 2)).
Proof.
  apply @rpc_relay_never_served. vm_compute. reflexivity.
Defined.
End RpcFacts.
