(* ===== verification/Cli.v ===== *)
(** The command line client: prompts, transactions, key management and relays
    (src/app/client/cli/utils.go, account.go, actor.go, gov.go, keys.go, servicer.go;
    src/shared/utils/file_utils.go; src/shared/crypto/rand.go).

    A command is a program on the client's world [Cli]: the package variables that the flags set,
    what the user will type, the files, the keybase, the randomness, the remote node and the
    output.  The keybase is behind its Go interface, the class [KeybaseI]; the generated RPC
    client and the operating system are classes.  [cobra] has parsed the arguments: [args] holds
    as many as the command wants.  Printed texts are kept without their pictograms, and the
    errors that print a whole request or response without it. *)

From S2P Require Import Prelude GoStd GoSort GoFloat Errors Crypto CoreTypes Messages KvStore Keys Keybase Sortition Session Rpc RpcHandlers.
#[local] Open Scope string_scope.
#[local] Open Scope Z_scope.

(** ** Interfaces *)

(** [keybase.Keybase]. *)
Class KeybaseI `{Entropy} (S : Type) := {
  kbOpen : M (S * Rnd) string unit;                                       (* [keybaseForCLI] *)
  kbStop : M (S * Rnd) string unit;
  kbCreate : string -> string -> M (S * Rnd) string encKeyPair;
  kbGet : S -> string -> res string encKeyPair;
  kbGetPubKey : S -> string -> res string (option bytes);
  kbGetPrivKey : S -> string -> string -> res string bytes;
  kbGetAll : S -> res string (list string * list encKeyPair);
  kbSign : S -> string -> string -> bytes -> res string bytes;
  kbVerify : S -> string -> bytes -> bytes -> res string bool;
  kbImportFromString : string -> string -> string -> M (S * Rnd) string encKeyPair;
  kbImportFromJSON : string -> string -> M (S * Rnd) string encKeyPair;
  kbExportPrivString : S -> string -> string -> res string string;
  kbExportPrivJSON : S -> string -> string -> res string string;
  kbUpdatePassphrase : string -> string -> string -> string -> M (S * Rnd) string unit;
  kbDelete : string -> string -> M (S * Rnd) string unit;
  kbDeriveChildFromKey : string -> string -> Z -> string -> string -> bool -> M (S * Rnd) string encKeyPair;
}.

(** The badger keybase implements it; opening it is an operation of the database. *)
Definition badgerKeybaseI `{Entropy} `{KeyPrims} `{CryptoPrims} `{Badger} (openDB : M BDB string unit) : KeybaseI BDB := {|
  kbOpen := KeyOps.onStore openDB; kbStop := BadgerKeybase.Stop; kbCreate := BadgerKeybase.Create; kbGet := BadgerKeybase.Get;
  kbGetPubKey := BadgerKeybase.GetPubKey; kbGetPrivKey := BadgerKeybase.GetPrivKey; kbGetAll := BadgerKeybase.GetAll;
  kbSign := BadgerKeybase.Sign; kbVerify := BadgerKeybase.Verify; kbImportFromString := BadgerKeybase.ImportFromString;
  kbImportFromJSON := BadgerKeybase.ImportFromJSON; kbExportPrivString := BadgerKeybase.ExportPrivString;
  kbExportPrivJSON := BadgerKeybase.ExportPrivJSON; kbUpdatePassphrase := BadgerKeybase.UpdatePassphrase;
  kbDelete := BadgerKeybase.Delete; kbDeriveChildFromKey := BadgerKeybase.DeriveChildFromKey |}.

(** The generated RPC client: status codes and decoded bodies. *)
Class RpcClient (N : Type) := {
  postBroadcastTx : string -> string -> string -> M N string (Z * bytes);        (* URL, address, raw hex *)
  getHeight : string -> M N string (Z * option Z);
  postGetSession : string -> RpcHandlers.SessionRequest -> M N string (Z * option RpcHandlers.RPCSession);
  postRelay : string -> RpcHandlers.RelayRequest -> M N string (Z * string);
}.

(** [anypb.New] at the messages the client sends, and the JSON of a relay request. *)
Class CliCodec := {
  toAny : Message -> Any + string;
  stringAny : string -> Any + string;                                           (* of [wrapperspb.String] *)
  relayJSON : RpcHandlers.RelayRequest -> bytes + string;
}.
Class CliCodecLaws `{Codec} (C : CliCodec) : Prop := {
  any_message : forall m a, toAny m = inl a -> fromAny (Some a) = inl (PMessage m);
  any_string : forall v a, stringAny v = inl a -> fromAny (Some a) = inl (PStringValue v);
}.

(** The error the operating system gives for a path, and [math/rand] seeded with the time. *)
Class CliOS := { pathError : string -> option string; seededUint64 : Z }.

(** ** Strings *)
Definition isSpace (c : Ascii.ascii) : bool :=
  let n := Ascii.nat_of_ascii c in ((9 <=? n) && (n <=? 13))%nat || (n =? 32)%nat.
Fixpoint trimSpaceLeft (s : string) : string :=
  match s with String c s' => if isSpace c then trimSpaceLeft s' else s | EmptyString => "" end.
Fixpoint trimSpaceRight (s : string) : string :=
  match s with
  | EmptyString => ""
  | String c s' => match trimSpaceRight s' with EmptyString => if isSpace c then "" else String c "" | t => String c t end
  end.
(** [strings.TrimSpace], for ASCII. *)
Definition TrimSpace (s : string) : string := trimSpaceRight (trimSpaceLeft s).

(** [rawChainCleanupRegex.ReplaceAllString(s, "")] with ["[^,a-fA-F0-9]+"]. *)
Definition isChainChar (c : Ascii.ascii) : bool :=
  let n := Ascii.nat_of_ascii c in
  ((n =? 44) || ((48 <=? n) && (n <=? 57)) || ((65 <=? n) && (n <=? 70)) || ((97 <=? n) && (n <=? 102)))%nat.
Fixpoint cleanChains (s : string) : string :=
  match s with EmptyString => "" | String c s' => if isChainChar c then String c (cleanChains s') else cleanChains s' end.

Definition newline : string := String (Ascii.ascii_of_nat 10) "".

(** ** The client *)
Module Cli.
Section cli.
Context {KBS N : Type} `{EN : Entropy} `{KI : !KeybaseI KBS} `{RC : !RpcClient N} `{CP : CryptoPrims} `{CD : Codec} `{CC : CliCodec}.
Context `{OS : CliOS} `{CR : CryptoRandInt} `{KP : KeyPrims}.

(** The package variables. *)
Record Flags := {
  RemoteCLIURL : string; NonInteractive : bool; pwd : string; newPwd : string; hint : string;
  outputFile : string; inputFile : string; exportAs : string; importAs : string;
  storeChild : bool; childPwd : string; childHint : string }.
Definition defaultFlags (url : string) : Flags := {|
  RemoteCLIURL := url; NonInteractive := false; pwd := ""; newPwd := ""; hint := ""; outputFile := ""; inputFile := "";
  exportAs := "json"; importAs := "raw"; storeChild := true; childPwd := ""; childHint := "" |}.
Definition set_pwd (v : string) (f : Flags) : Flags := {|
  RemoteCLIURL := RemoteCLIURL f; NonInteractive := NonInteractive f; pwd := v; newPwd := newPwd f; hint := hint f;
  outputFile := outputFile f; inputFile := inputFile f; exportAs := exportAs f; importAs := importAs f;
  storeChild := storeChild f; childPwd := childPwd f; childHint := childHint f |}.
Definition set_newPwd (v : string) (f : Flags) : Flags := {|
  RemoteCLIURL := RemoteCLIURL f; NonInteractive := NonInteractive f; pwd := pwd f; newPwd := v; hint := hint f;
  outputFile := outputFile f; inputFile := inputFile f; exportAs := exportAs f; importAs := importAs f;
  storeChild := storeChild f; childPwd := childPwd f; childHint := childHint f |}.
Definition set_hint (v : string) (f : Flags) : Flags := {|
  RemoteCLIURL := RemoteCLIURL f; NonInteractive := NonInteractive f; pwd := pwd f; newPwd := newPwd f; hint := v;
  outputFile := outputFile f; inputFile := inputFile f; exportAs := exportAs f; importAs := importAs f;
  storeChild := storeChild f; childPwd := childPwd f; childHint := childHint f |}.

(** The flags of [Keys Update]: [attachPwdFlagToSubcommands], [attachNewPwdFlagToSubcommands] and
    [attachHintFlagToSubcommands], as they bind; the last occurrence wins. *)
Definition attachPwdFlag (name value : string) (f : Flags) : Flags := if bool_decide (name = "pwd") then set_pwd value f else f.
Definition attachNewPwdFlag (name value : string) (f : Flags) : Flags := if bool_decide (name = "new_pwd") then set_pwd value f else f.
Definition attachHintFlag (name value : string) (f : Flags) : Flags := if bool_decide (name = "hint") then set_hint value f else f.
Definition parseUpdateFlags (given : list (string * string)) (f : Flags) : Flags :=
  foldl (fun f e => attachHintFlag e.1 e.2 (attachNewPwdFlag e.1 e.2 (attachPwdFlag e.1 e.2 f))) f given.

(** [typed]: the passphrases entered at the terminal; [lines]: the lines of the standard input. *)
Record World := {
  flags : Flags; typed : list string; lines : list string; files : gmap string bytes;
  kb : KBS; rnd : Rnd; crnd : CRnd; net : N; out : list string }.
Definition set_flags (v : Flags) (w : World) : World := {| flags := v; typed := typed w; lines := lines w; files := files w; kb := kb w; rnd := rnd w; crnd := crnd w; net := net w; out := out w |}.
Definition set_typed (v : list string) (w : World) : World := {| flags := flags w; typed := v; lines := lines w; files := files w; kb := kb w; rnd := rnd w; crnd := crnd w; net := net w; out := out w |}.
Definition set_lines (v : list string) (w : World) : World := {| flags := flags w; typed := typed w; lines := v; files := files w; kb := kb w; rnd := rnd w; crnd := crnd w; net := net w; out := out w |}.
Definition set_files (v : gmap string bytes) (w : World) : World := {| flags := flags w; typed := typed w; lines := lines w; files := v; kb := kb w; rnd := rnd w; crnd := crnd w; net := net w; out := out w |}.
Definition set_kb (v : KBS * Rnd) (w : World) : World := {| flags := flags w; typed := typed w; lines := lines w; files := files w; kb := v.1; rnd := v.2; crnd := crnd w; net := net w; out := out w |}.
Definition set_crnd (v : CRnd) (w : World) : World := {| flags := flags w; typed := typed w; lines := lines w; files := files w; kb := kb w; rnd := rnd w; crnd := v; net := net w; out := out w |}.
Definition set_net (v : N) (w : World) : World := {| flags := flags w; typed := typed w; lines := lines w; files := files w; kb := kb w; rnd := rnd w; crnd := crnd w; net := v; out := out w |}.
Definition set_out (v : list string) (w : World) : World := {| flags := flags w; typed := typed w; lines := lines w; files := files w; kb := kb w; rnd := rnd w; crnd := crnd w; net := net w; out := v |}.

Abbreviation CM := (M World string).

Definition onKb {A} (m : M (KBS * Rnd) string A) : CM A := fun w => let '(r, s) := m (kb w, rnd w) in (r, set_kb s w).
Definition readKb {A} (f : KBS -> res string A) : CM A := w ← get; of_res (f (kb w)).
Definition onNet {A} (m : M N string A) : CM A := fun w => let '(r, n) := m (net w) in (r, set_net n w).
Definition println (s : string) : CM unit := modify (fun w => set_out (out w ++ [s]) w).
Definition flag {A} (f : Flags -> A) : CM A := gets (fun w => f (flags w)).
Definition fromSum {A} (r : A + string) : CM A := match r with inl a => mret a | inr e => fail e end.
(** [hex.DecodeString]. *)
Definition decodeString (s : string) : CM bytes := of_option hexErrorText (hexDecode s).

(** *** Prompts *)

(** A failing read of the passphrase ends the process. *)
Definition credentials (p : string) : CM string :=
  if negb (bool_decide (p = "")) && negb (bool_decide (TrimSpace p = "")) then mret (TrimSpace p)
  else
    w ← get;
    match typed w with
    | [] => panic
    | s :: rest => modify (set_typed rest) ;; mret (TrimSpace s)
    end.

(** The loop over the lines of the standard input. *)
Fixpoint confirmLoop (ls : list string) : CM bool :=
  println "yes | no" ;;
  match ls with
  | [] => println "Error reading string:  EOF" ;; mret false
  | l :: rest =>
      modify (set_lines rest) ;;
      let response := stringsToLower (TrimSpace l) in
      if bool_decide (response = "y") || bool_decide (response = "yes") then mret true
      else if bool_decide (response = "n") || bool_decide (response = "no") then mret false
      else confirmLoop rest
  end.
Definition confirmation (p : string) : CM bool :=
  if negb (bool_decide (p = "")) && negb (bool_decide (TrimSpace p = "")) then mret true
  else w ← get; confirmLoop (lines w).

Definition readPassphraseMessage (currPwd prompt : string) : CM string :=
  (if bool_decide (TrimSpace currPwd = "") then println prompt else println "Using Passphrase provided via flag") ;;
  credentials currPwd.
Definition readPassphrase (currPwd : string) : CM string := readPassphraseMessage currPwd "Enter Passphrase: ".
Definition confirmPassphrase (currPwd : string) : CM unit :=
  confirm ← readPassphraseMessage "" "Confirm passphrase: ";
  if negb (bool_decide (currPwd = confirm)) then panic else mret tt.

(** [if !flags.NonInteractive { pwd = readPassphrase(pwd) }]. *)
Definition askPwd : CM unit :=
  ni ← flag NonInteractive;
  if ni : bool then mret tt
  else
    p ← flag pwd;
    p' ← readPassphrase p;
    modify (fun w => set_flags (set_pwd p' (flags w)) w).

(** *** Amounts *)
Definition stakingRecommendationAmount : Z := 15100000000.
Definition oneMillion : Z := 1000000.
Definition validateStakeAmount (amount : string) : CM unit :=
  am ← of_res (StringToBigInt amount);
  if bool_decide (am < stakingRecommendationAmount) then
    println ("The amount you are staking for is below the recommendation of " +:+ bigIntText (stakingRecommendationAmount / oneMillion) +:+ " POKT, would you still like to continue? y|n") ;;
    p ← flag pwd;
    yes ← confirmation p;
    if yes : bool then mret tt else fail "aborted"
  else mret tt.

(** *** Transactions *)
Definition maxNonce : Z := 2 ^ 64 - 1.
Definition GetNonce : CM Z := fun w =>
  match crandInt maxNonce (crnd w) with
  | (Ok v, r) => (Ok (u64 v), set_crnd r w)
  | (_, r) => (Ok seededUint64, set_crnd r w)
  end.

Definition prepareTxBytes (msg : Message) (pk : bytes) : CM bytes :=
  anyMsg ← fromSum (toAny msg);
  nonce ← GetNonce;
  let tx := {| tx_Msg := Some anyMsg; tx_Nonce := bigIntText nonce; tx_Signature := None |} in
  signBytes ← fromSum (SignableBytes tx);
  let signature := PrivateKey_Sign pk signBytes in
  fromSum (marshalTx {| tx_Msg := Some anyMsg; tx_Nonce := bigIntText nonce;
    tx_Signature := Some {| sig_Signature := Some signature; sig_PublicKey := Some (PrivateKey_PublicKey pk) |} |}).

Definition postRawTx (pk : bytes) (j : bytes) : CM (Z * bytes) :=
  url ← flag RemoteCLIURL;
  onNet (postBroadcastTx url (Address_String (PrivateKey_Address pk)) (hexEncode j)).

(** [getPrivateKeyFromKeybase], which the other commands repeat inline. *)
Definition getPrivateKeyFromKeybase (address : string) : CM bytes :=
  onKb kbOpen ;;
  askPwd ;;
  p ← flag pwd;
  pk ← readKb (fun s => kbGetPrivKey s address p);
  onKb kbStop ;;
  mret pk.

(** The end of every command that sends a transaction. *)
Definition submit (msg : Message) (pk : bytes) : CM unit :=
  tx ← prepareTxBytes msg pk;
  resp ← postRawTx pk tx;
  println ("HTTP status code: " +:+ bigIntText resp.1) ;;
  println resp.2.

(** *** account.go, actor.go, gov.go *)
Definition sendCmd (args : string * string * string) : CM unit :=
  let '(fromAddrHex, to, amount) := args in
  fromAddr ← of_res (AddressFromString fromAddrHex);
  toAddr ← of_res (AddressFromString to);
  pk ← getPrivateKeyFromKeybase fromAddrHex;
  submit (MSend {| FromAddress := Some fromAddr; ToAddress := Some toAddr; send_Amount := amount |}) pk.

Definition commaChar : Ascii.ascii := Ascii.ascii_of_nat 44.

Definition stakeCmd (actorType : Z) (args : string * string * string * string) : CM unit :=
  let '(fromAddrHex, amount, rawChains, serviceURL) := args in
  pk ← getPrivateKeyFromKeybase fromAddrHex;
  validateStakeAmount amount ;;
  let chains := stringsSplit commaChar (cleanChains rawChains) in
  submit (MStake {| stake_PublicKey := Some (PrivateKey_PublicKey pk); stake_Chains := Some chains; stake_Amount := amount;
    stake_ServiceUrl := serviceURL; stake_OutputAddress := Some (PrivateKey_Address pk); stake_Signer := Some (PrivateKey_Address pk);
    stake_ActorType := actorType |}) pk.

Definition editStakeCmd (actorType : Z) (args : string * string * string * string) : CM unit :=
  let '(fromAddrHex, amount, rawChains, serviceURL) := args in
  fromAddr ← of_res (AddressFromString fromAddrHex);
  pk ← getPrivateKeyFromKeybase fromAddrHex;
  validateStakeAmount amount ;;
  let chains := stringsSplit commaChar (cleanChains rawChains) in
  submit (MEditStake {| edit_Address := Some fromAddr; edit_Chains := Some chains; edit_Amount := amount; edit_ServiceUrl := serviceURL;
    edit_Signer := Some (PrivateKey_Address pk); edit_ActorType := actorType |}) pk.

Definition unstakeCmd (actorType : Z) (fromAddrHex : string) : CM unit :=
  pk ← getPrivateKeyFromKeybase fromAddrHex;
  submit (MUnstake {| unstake_Address := Some (PrivateKey_Address pk); unstake_Signer := Some (PrivateKey_Address pk); unstake_ActorType := actorType |}) pk.

Definition unpauseCmd (actorType : Z) (fromAddrHex : string) : CM unit :=
  pk ← getPrivateKeyFromKeybase fromAddrHex;
  submit (MUnpause {| unpause_Address := Some (PrivateKey_Address pk); unpause_Signer := Some (PrivateKey_Address pk); unpause_ActorType := actorType |}) pk.

(** The value is always sent as a string. *)
Definition changeParameterCmd (args : string * string * string) : CM unit :=
  let '(fromAddrHex, key, value) := args in
  println ("changing parameter " +:+ key +:+ " owned by " +:+ fromAddrHex +:+ " to " +:+ value) ;;
  pk ← getPrivateKeyFromKeybase fromAddrHex;
  pbValue ← fromSum (stringAny value);
  submit (MChangeParameter {| cp_Signer := Some (PrivateKey_Address pk); cp_Owner := Some (PrivateKey_Address pk); ParameterKey := key; ParameterValue := Some pbValue |}) pk.

(** *** Files *)

(** [WriteOutput]: a file that exists is appended to. *)
Definition WriteOutput (msg : bytes) (file : string) : CM unit :=
  if bool_decide (file = "") then println msg
  else match pathError file with
       | Some e => fail e
       | None => modify (fun w => set_files (<[file := default "" (files w !! file) +:+ msg]> (files w)) w)
       end.
Definition ReadInput (file : string) : CM bytes :=
  match pathError file with
  | Some e => fail ("Error checking input file: " +:+ e)
  | None =>
      w ← get;
      match files w !! file with
      | None => fail ("Input file not found: " +:+ file)
      | Some b => mret b
      end
  end.

(** *** keys.go *)
Definition keysCreateCmd : CM unit :=
  onKb kbOpen ;;
  ni ← flag NonInteractive;
  (if ni : bool then mret tt else askPwd ;; p ← flag pwd; confirmPassphrase p) ;;
  p ← flag pwd;
  h ← flag hint;
  kp ← onKb (kbCreate p h);
  onKb kbStop ;;
  a ← of_res (KeyPair.GetAddressString kp);
  println ("New key created: " +:+ a).

Definition keysUpdateCmd (addrHex : string) : CM unit :=
  onKb kbOpen ;;
  ni ← flag NonInteractive;
  (if ni : bool then mret tt
   else
     askPwd ;;
     np ← flag newPwd;
     np' ← readPassphraseMessage np "New passphrase: ";
     modify (fun w => set_flags (set_newPwd np' (flags w)) w) ;;
     confirmPassphrase np') ;;
  f ← flag id;
  onKb (kbUpdatePassphrase addrHex (pwd f) (newPwd f) (hint f)) ;;
  onKb kbStop ;;
  println ("Key updated: " +:+ addrHex).

Definition keysDeleteCmd (addrHex : string) : CM unit :=
  onKb kbOpen ;;
  askPwd ;;
  p ← flag pwd;
  onKb (kbDelete addrHex p) ;;
  onKb kbStop ;;
  println ("Key deleted: " +:+ addrHex).

Definition keysListCmd : CM unit :=
  onKb kbOpen ;;
  all ← readKb kbGetAll;
  onKb kbStop ;;
  println "All keys" ;;
  forM all.1 println.

Definition keysGetCmd (addrHex : string) : CM unit :=
  onKb kbOpen ;;
  kp ← readKb (fun s => kbGet s addrHex);
  onKb kbStop ;;
  println "Key details" ;;
  match KeyPair.GetPublicKey kp with
  | None => panic
  | Some pk => println ("Address: " +:+ addrHex +:+ newline +:+ "Public Key: " +:+ PublicKey_String pk)
  end.

Definition keysExportCmd (addrHex : string) : CM unit :=
  onKb kbOpen ;;
  askPwd ;;
  f ← flag id;
  let format := stringsToLower (exportAs f) in
  exportString ←
    (if bool_decide (format = "json") then readKb (fun s => kbExportPrivJSON s addrHex (pwd f))
     else if bool_decide (format = "raw") then readKb (fun s => kbExportPrivString s addrHex (pwd f))
     else fail ("invalid export format: got " +:+ exportAs f +:+ ", want [raw]/[json]"));
  onKb kbStop ;;
  if bool_decide (outputFile f = "") then println ("Private Key: " +:+ exportString)
  else println "Writing private key to file" ;; WriteOutput exportString (outputFile f).

(** The error of an unknown import format names the export format. *)
Definition keysImportCmd (arg : option string) : CM unit :=
  f0 ← flag id;
  privateKeyString ←
    match arg with
    | Some s => mret s
    | None => if negb (bool_decide (inputFile f0 = "")) then ReadInput (inputFile f0) else fail "no input file or argument provided"
    end;
  onKb kbOpen ;;
  askPwd ;;
  f ← flag id;
  let format := stringsToLower (importAs f) in
  kp ← (if bool_decide (format = "json") then onKb (kbImportFromJSON privateKeyString (pwd f))
        else if bool_decide (format = "raw") then
          (if NonInteractive f then mret tt else confirmPassphrase (pwd f)) ;;
          onKb (kbImportFromString privateKeyString (pwd f) (hint f))
        else fail ("invalid import format: got " +:+ exportAs f +:+ ", want [raw]/[json]"));
  onKb kbStop ;;
  a ← of_res (KeyPair.GetAddressString kp);
  println ("Key imported: " +:+ a).

Definition keysSignCmd (addrHex msgHex : string) : CM unit :=
  msgBz ← decodeString msgHex;
  onKb kbOpen ;;
  askPwd ;;
  p ← flag pwd;
  sigBz ← readKb (fun s => kbSign s addrHex p msgBz);
  onKb kbStop ;;
  println ("Message signed " +:+ newline +:+ "Signature: " +:+ hexEncode sigBz).

Definition printValid (valid : bool) : CM unit := println (if valid then "Signature is valid" else "Signature is not valid").

Definition keysVerifyCmd (addrHex msgHex sigHex : string) : CM unit :=
  msgBz ← decodeString msgHex;
  sigBz ← decodeString sigHex;
  onKb kbOpen ;;
  valid ← readKb (fun s => kbVerify s addrHex msgBz sigBz);
  onKb kbStop ;;
  printValid valid.

Definition keysSignTxCmd (addrHex : string) : CM unit :=
  f ← flag id;
  if bool_decide (inputFile f = "") then fail "no input file provided"
  else if bool_decide (outputFile f = "") then fail "no output file provided"
  else
    privKey ← getPrivateKeyFromKeybase addrHex;
    txBz ← ReadInput (inputFile f);
    txProto ← fromSum (unmarshalTx txBz);
    txSigBz ← fromSum (SignableBytes txProto);
    let sigBz := PrivateKey_Sign privKey txSigBz in
    txBz' ← fromSum (marshalTx {| tx_Msg := tx_Msg txProto; tx_Nonce := tx_Nonce txProto;
      tx_Signature := Some {| sig_PublicKey := Some (PrivateKey_PublicKey privKey); sig_Signature := Some sigBz |} |});
    WriteOutput txBz' (outputFile f) ;;
    println ("Message signed " +:+ newline +:+ "Key Address: " +:+ addrHex +:+ newline +:+ "Signature file: " +:+ outputFile f).

(** The signature of the transaction and the public key of the pair are dereferenced unchecked. *)
Definition keysVerifyTxCmd (addrHex : string) : CM unit :=
  f ← flag id;
  if bool_decide (inputFile f = "") then fail "no input file provided"
  else
    onKb kbOpen ;;
    pubKey ← readKb (fun s => kbGetPubKey s addrHex);
    txBz ← ReadInput (inputFile f);
    txProto ← fromSum (unmarshalTx txBz);
    match tx_Signature txProto, pubKey with
    | Some sig, Some pubKey =>
        valid ← (if negb (bool_decide (bz (sig_PublicKey sig) = pubKey)) then mret false
                 else
                   txSigBz ← fromSum (SignableBytes txProto);
                   readKb (fun s => kbVerify s addrHex txSigBz (bz (sig_Signature sig))) : CM bool);
        onKb kbStop ;;
        printValid valid
    | _, _ => panic
    end.

Definition keysDeriveChildCmd (parentAddr idx : string) : CM unit :=
  index ← of_res (Slip.parseUint32 idx);
  onKb kbOpen ;;
  askPwd ;;
  f ← flag id;
  kp ← onKb (kbDeriveChildFromKey parentAddr (pwd f) index (childPwd f) (childHint f) (storeChild f));
  onKb kbStop ;;
  a ← of_res (KeyPair.GetAddressString kp);
  println ("Child key created " +:+ newline +:+ "Child Address: " +:+ a +:+ newline +:+ "Parent Address: " +:+ parentAddr) ;;
  if storeChild f then println "Child key stored in the Keybase" else mret tt.
(** *** servicer.go: a trustless relay *)
Definition withContext {A} (prefix : string) (m : CM A) : CM A := wrap_err (fun e => prefix +:+ e) m.

(** The first servicer of the session with the address. *)
Definition validateServicer (session : RpcHandlers.RPCSession) (servicerAddress : string) : res string Rpc.ProtocolActor :=
  match list_find (fun s : Rpc.ProtocolActor => Rpc.pa_Address s = servicerAddress) (RpcHandlers.rs_Servicers session) with
  | Some (_, s) => Ok s
  | None => Err ("Error getting servicer: address " +:+ servicerAddress +:+ " does not match any servicers in the session " +:+ bigIntText (RpcHandlers.rs_SessionNumber session))
  end.

(** An answer with the status 200 and a body. *)
Definition expectOK {A} (prefix : string) (resp : Z * option A) : CM A :=
  if negb (bool_decide (resp.1 = 200)) then fail (prefix +:+ "Unexpected status code " +:+ bigIntText resp.1)
  else match resp.2 with Some a => mret a | None => fail (prefix +:+ "Unexpected response") end.

Definition getCurrentHeight : CM Z :=
  url ← flag RemoteCLIURL;
  resp ← withContext "Error getting current height: " (onNet (getHeight url));
  expectOK "Error getting current height: " resp.

Definition getCurrentSession (appAddress chain : string) : CM RpcHandlers.RPCSession :=
  currentHeight ← withContext "Error getting current session: " getCurrentHeight;
  let req := {| RpcHandlers.sr_AppAddress := appAddress; RpcHandlers.sr_Chain := chain; RpcHandlers.sr_Geozone := ""; RpcHandlers.sr_SessionHeight := currentHeight |} in
  url ← flag RemoteCLIURL;
  resp ← withContext "Error getting current session with request: " (onNet (postGetSession url req));
  expectOK "Error getting current session: " resp.

(** The request is signed before the signature is set. *)
Definition buildRelay (payload : string) (appPrivateKey : bytes) (session : RpcHandlers.RPCSession) (servicer : Rpc.ProtocolActor) : res string RpcHandlers.RelayRequest :=
  let unsigned := {|
    RpcHandlers.rr_Payload := {| RpcHandlers.pl_Id := None; RpcHandlers.pl_Jsonrpc := "2.0"; RpcHandlers.pl_Method := payload; RpcHandlers.pl_Parameters := None; RpcHandlers.pl_Headers := None |};
    RpcHandlers.rr_Meta := {| RpcHandlers.rm_BlockHeight := RpcHandlers.rs_SessionHeight session; RpcHandlers.rm_Chain := (RpcHandlers.rs_Chain session, "");
      RpcHandlers.rm_ServicerPubKey := Rpc.pa_PublicKey servicer; RpcHandlers.rm_Geozone := ("", ""); RpcHandlers.rm_Signature := "" |} |} in
  match relayJSON unsigned with
  | inr e => Err ("Error marshalling relay request: " +:+ e)
  | inl reqBytes =>
      let signature := PrivateKey_Sign appPrivateKey (SHA3Hash reqBytes) in
      let m := RpcHandlers.rr_Meta unsigned in
      Ok {| RpcHandlers.rr_Payload := RpcHandlers.rr_Payload unsigned;
            RpcHandlers.rr_Meta := {| RpcHandlers.rm_BlockHeight := RpcHandlers.rm_BlockHeight m; RpcHandlers.rm_Chain := RpcHandlers.rm_Chain m;
              RpcHandlers.rm_ServicerPubKey := RpcHandlers.rm_ServicerPubKey m; RpcHandlers.rm_Geozone := RpcHandlers.rm_Geozone m;
              RpcHandlers.rm_Signature := hexEncode signature |} |}
  end.

Definition sendTrustlessRelay (servicerUrl : string) (relay : RpcHandlers.RelayRequest) : CM (Z * string) := onNet (postRelay servicerUrl relay).

Definition relayCmd (args : string * string * string * string) : CM unit :=
  let '(applicationAddr, servicerAddr, chain, relayPayload) := args in
  pk ← withContext "error getting application's private key: " (getPrivateKeyFromKeybase applicationAddr);
  session ← withContext "Error getting current session: " (getCurrentSession applicationAddr chain);
  servicer ← withContext "error getting servicer for the relay: " (of_res (validateServicer session servicerAddr));
  relay ← withContext "error building relay from payload: " (of_res (buildRelay relayPayload pk session servicer));
  println ("sending trustless relay for " +:+ applicationAddr +:+ " to " +:+ servicerAddr +:+ " with payload: " +:+ relayPayload) ;;
  resp ← sendTrustlessRelay (Rpc.pa_ServiceUrl servicer) relay;
  println ("HTTP status code: " +:+ bigIntText resp.1) ;;
  println ("Response: " +:+ resp.2).
End cli.
End Cli.
