(* ===== verification/CliFacts.v ===== *)
(** Facts about the command line client: the transactions it posts, the files it signs, and two
    commands that do not do what their prompts and flags say. *)

From S2P Require Import Prelude GoStd GoSort GoFloat Errors Crypto CoreTypes Messages KvStore Keys Keybase KeybaseFacts Sortition Session Rpc RpcHandlers Cli.
#[local] Open Scope string_scope.
#[local] Open Scope Z_scope.

(** ** Strings *)
Lemma bigIntText_nonempty z : bigIntText z ≠ "".
Proof. intros He. pose proof (bigInt_text_parse z) as Hp. by rewrite He in Hp. Qed.

Lemma trimSpaceRight_cons c s : isSpace c = false -> exists s', trimSpaceRight (String c s) = String c s'.
Proof. intros Hc. cbn. destruct (trimSpaceRight s); [rewrite Hc|]; by eexists. Qed.

Lemma trimSpaceLeft_first s : trimSpaceLeft s = "" \/ exists c s', trimSpaceLeft s = String c s' /\ isSpace c = false.
Proof.
  induction s as [|c s IH]; [by left|]. cbn. destruct (isSpace c) eqn:Hc; [exact IH|]. right. by exists c, s.
Qed.

(** A passphrase that is not blank is still not blank once trimmed. *)
Lemma TrimSpace_twice s : TrimSpace s ≠ "" -> TrimSpace (TrimSpace s) ≠ "".
Proof.
  intros Hs. unfold TrimSpace in *. destruct (trimSpaceLeft_first s) as [He|(c & s' & He & Hc)]; [by rewrite He in Hs|].
  rewrite He. destruct (trimSpaceRight_cons c s' Hc) as [t Ht]. rewrite Ht. cbn [trimSpaceLeft]. rewrite Hc.
  destruct (trimSpaceRight_cons c t Hc) as [u Hu]. by rewrite Hu.
Qed.

Module CliFacts.
Import Cli.
Section facts.
Context {KBS N : Type} {EN : Entropy} {KI : KeybaseI KBS} {RC : RpcClient N} {CP : CryptoPrims} {CD : Codec} {CC : CliCodec}.
Context {OS : CliOS} {CR : CryptoRandInt} {KP : KeyPrims}.
Context {CL : CryptoLaws CP} {CDL : CodecLaws CD} {CCL : CliCodecLaws CC}.
Implicit Types (w : World (KBS := KBS) (N := N)).

Lemma fromSum_ok {A} (r : A + string) w a w' : fromSum r w = (Ok a, w') <-> r = inl a /\ w' = w.
Proof. destruct r; cbn; unfold mret, M_ret, fail; naive_solver. Qed.

(** ** Transactions *)

(** What the node makes of the bytes: a transaction signed by [pk] that passes the basic checks
    and carries [msg]. *)
Definition carries (b : bytes) (msg : Message) (pk : bytes) : Prop := exists tx sig,
  TxFromBytes b = inl tx /\ Tx_ValidateBasic tx = None /\ GetMessage tx = inl (PMessage msg) /\
  tx_Signature tx = Some sig /\ sig_PublicKey sig = Some (PrivateKey_PublicKey pk).

Lemma signed_validates (a : Any) (nonce : string) (msg : Message) (pk sb : bytes) :
  blen pk = 64 -> nonce ≠ "" -> fromAny (Some a) = inl (PMessage msg) ->
  SignableBytes {| tx_Msg := Some a; tx_Nonce := nonce; tx_Signature := None |} = inl sb ->
  Tx_ValidateBasic {| tx_Msg := Some a; tx_Nonce := nonce;
    tx_Signature := Some {| sig_PublicKey := Some (PrivateKey_PublicKey pk); sig_Signature := Some (PrivateKey_Sign pk sb) |} |} = None.
Proof.
  intros Hk Hn Hm Hs. unfold Tx_ValidateBasic. cbn. rewrite bool_decide_eq_false_2 by done.
  unfold NewPublicKeyFromBytes, PrivateKey_PublicKey.
  rewrite bool_decide_eq_false_2 by (rewrite ed25519_public_length by done; by intros Hc).
  unfold GetMessage. cbn. rewrite Hm. unfold SignableBytes in Hs |- *. cbn in *. rewrite Hs.
  unfold PublicKey_Verify, PrivateKey_Sign. by rewrite ed25519_sign_verify.
Qed.

Lemma prepareTx_carries (msg : Message) (pk b : bytes) w w' : blen pk = 64 -> prepareTxBytes msg pk w = (Ok b, w') -> carries b msg pk.
Proof.
  intros Hk Hp. unfold prepareTxBytes in Hp.
  apply bind_ok in Hp as (a & w1 & [Ha ->]%fromSum_ok & Hp). apply bind_ok in Hp as (nonce & w2 & _ & Hp).
  apply bind_ok in Hp as (sb & w3 & [Hs ->]%fromSum_ok & [Hm _]%fromSum_ok).
  eexists _, _. unfold TxFromBytes. split_and!; [by apply unmarshal_marshal|apply (signed_validates a _ msg); [done|apply bigIntText_nonempty|by apply any_message|done]|by apply any_message|done|done].
Qed.

Lemma getPrivateKey_ok (a : string) w pk w' : getPrivateKeyFromKeybase a w = (Ok pk, w') -> exists s p, kbGetPrivKey s a p = Ok pk.
Proof.
  unfold getPrivateKeyFromKeybase. intros Hg. apply bind_ok in Hg as (? & w1 & _ & Hg). apply bind_ok in Hg as (? & w2 & _ & Hg).
  apply bind_ok in Hg as (p & w3 & _ & Hg). apply bind_ok in Hg as (pk' & w4 & Hr & Hg). apply bind_ok in Hg as (? & w5 & _ & [-> _]%mret_ok).
  unfold readKb in Hr. rewrite bind_get in Hr. apply of_res_ok in Hr as [Hr _]. by exists (kb w3), p.
Qed.

(** What a post depends on: the URL of the node and the network. *)
Definition online w : string * N := (RemoteCLIURL (flags w), net w).

Lemma keeps_online_onKb {A} (m : M (KBS * Rnd) string A) : keeps online (onKb m).
Proof. intros w. unfold onKb. by destruct (m (kb w, rnd w)). Qed.
Lemma keeps_online_getPrivateKey (a : string) : keeps online (getPrivateKeyFromKeybase a).
Proof.
  pose proof (@keeps_online_onKb unit). unfold getPrivateKeyFromKeybase, askPwd, readPassphrase, readPassphraseMessage, credentials, flag, println, readKb.
  solve_keeps.
Qed.
Lemma keeps_online_prepareTx (msg : Message) (pk : bytes) : keeps online (prepareTxBytes msg pk).
Proof.
  assert (keeps online GetNonce) as Hn by (intros w; unfold GetNonce; by destruct (crandInt maxNonce (crnd w)) as [[?|?|] ?]).
  unfold prepareTxBytes, fromSum. solve_keeps.
Qed.

Lemma submit_posts (msg : Message) (pk : bytes) w w' : blen pk = 64 -> submit msg pk w = (Ok tt, w') ->
  exists b code body, carries b msg pk /\
    postBroadcastTx (RemoteCLIURL (flags w)) (Address_String (PrivateKey_Address pk)) (hexEncode b) (net w) = (Ok (code, body), net w') /\
    exists o, out w' = (o ++ ["HTTP status code: " +:+ bigIntText code; body])%list.
Proof.
  intros Hk Hs. unfold submit in Hs. apply bind_ok in Hs as (b & w1 & Hp & Hs). apply bind_ok in Hs as ([code body] & w2 & Hr & Hs).
  pose proof (keeps_online_prepareTx msg pk w) as Ho. rewrite Hp in Ho. injection Ho as Hurl Hnet. cbn in Hurl, Hnet.
  unfold postRawTx in Hr. apply bind_ok in Hr as (url & w3 & [-> <-]%gets_ok & Hr). unfold onNet in Hr.
  destruct (postBroadcastTx _ _ _ _) as [r n'] eqn:Hpost. injection Hr as -> <-. injection Hs as <-.
  exists b, code, body. split_and!; [by eapply prepareTx_carries|by rewrite <- Hurl, <- Hnet|].
  exists (out w1). cbn. by rewrite <- app_assoc.
Qed.

(** The keybase keeps a private key under the address of its public key. *)
Definition underAddress : Prop := forall s a p pk, kbGetPrivKey s a p = Ok pk -> blen pk = 64 /\ a = hexEncode (PrivateKey_Address pk).

(** C12: [Send] makes one request to the node at the configured URL and no other use of the
    network: it posts a transaction that the node will decode and that passes its stateless
    checks. The transaction carries the message with the recipient and the amount of the
    command line, and its sender is the address of the key that signed it, if the keybase
    keeps a private key under its address. The last two lines printed are the status code and
    the body of the answer. *)
Theorem send_posts_valid_tx (fromAddrHex to amount : string) w w' :
  underAddress -> sendCmd (fromAddrHex, to, amount) w = (Ok tt, w') ->
  exists pk toAddr b code body, fromAddrHex = hexEncode (PrivateKey_Address pk) /\ hexDecode to = Some toAddr /\
    carries b (MSend {| FromAddress := Some (PrivateKey_Address pk); ToAddress := Some toAddr; send_Amount := amount |}) pk /\
    postBroadcastTx (RemoteCLIURL (flags w)) (Address_String (PrivateKey_Address pk)) (hexEncode b) (net w) =
      (Ok (code, body), net w') /\
    exists o, out w' = (o ++ ["HTTP status code: " +:+ bigIntText code; body])%list.
Proof.
  intros Hu Hc. unfold sendCmd in Hc. apply bind_ok in Hc as (fromAddr & w1 & [Hf <-]%of_res_ok & Hc).
  apply bind_ok in Hc as (toAddr & w2 & [Ht <-]%of_res_ok & Hc). apply bind_ok in Hc as (pk & w3 & Hg & Hc).
  destruct (getPrivateKey_ok _ _ _ _ Hg) as (s & p & Hpk). destruct (Hu _ _ _ _ Hpk) as [Hk ->].
  pose proof (keeps_online_getPrivateKey (hexEncode (PrivateKey_Address pk)) w) as Ho. rewrite Hg in Ho. injection Ho as Hurl Hnet.
  cbn in Hurl, Hnet.
  unfold AddressFromString in Hf, Ht. rewrite hex_decode_encode in Hf. injection Hf as <-.
  destruct (hexDecode to) as [t|] eqn:Hto; [|done]. injection Ht as ->.
  destruct (submit_posts _ _ _ _ Hk Hc) as (b & code & body & Hb & Hpost & Hout).
  exists pk, toAddr, b, code, body. rewrite Hurl, Hnet in Hpost. by split_and!.
Qed.

(** *** Prompts *)
Lemma credentials_typed p p' (rest : list string) w : TrimSpace p = "" -> typed w = p' :: rest -> credentials p w = (Ok (TrimSpace p'), set_typed rest w).
Proof. intros Hp Ht. unfold credentials. rewrite Hp, (bool_decide_eq_true_2 ("" = "")), andb_false_r by done. rewrite bind_get. by rewrite Ht. Qed.

(** the client does not wait for the confirmation it asks for.  Staking less than the
    recommended amount prints a question, but once the passphrase has been typed at the prompt
    the answer is taken to be yes and the standard input is not read, whatever it holds. *)
Theorem low_stake_not_confirmed (amount p : string) (rest : list string) (am : Z) w :
  NonInteractive (flags w) = false -> TrimSpace (pwd (flags w)) = "" -> typed w = p :: rest -> TrimSpace p ≠ "" ->
  StringToBigInt amount = Ok am -> am < stakingRecommendationAmount ->
  exists w', (askPwd ;; validateStakeAmount amount) w = (Ok tt, w') /\ lines w' = lines w /\ pwd (flags w') = TrimSpace p.
Proof.
  intros Hni Hp Ht Hne Ham Hlt.
  assert (askPwd w = (Ok tt, set_flags (set_pwd (TrimSpace p) (flags w)) (set_typed rest (set_out (out w ++ ["Enter Passphrase: "]) w)))) as Hask.
  { unfold askPwd, flag. erewrite bind_run by reflexivity. rewrite Hni. erewrite bind_run by reflexivity.
    unfold readPassphrase, readPassphraseMessage. rewrite Hp, bool_decide_eq_true_2 by done.
    rewrite bind_eq. rewrite (bind_run (println "Enter Passphrase: ") _ _ tt _ eq_refl).
    rewrite (credentials_typed (pwd (flags w)) p rest); [done|exact Hp|exact Ht]. }
  rewrite bind_eq, Hask. unfold validateStakeAmount. rewrite Ham. erewrite bind_run by reflexivity. rewrite bool_decide_eq_true_2 by done.
  erewrite bind_run by reflexivity. unfold flag. erewrite bind_run by reflexivity. cbn [flags set_flags set_pwd pwd set_out].
  unfold confirmation. rewrite !bool_decide_eq_false_2; [|by apply TrimSpace_twice|done]. cbn. by eexists.
Qed.

(** [Keys Update --pwd old --new_pwd new] forgets the old passphrase.  Both flags are bound to
    the variable of the old one: without prompts, the keybase is asked to replace the passphrase
    [new] by the one that is empty by default, and [old] is not used. *)
Theorem update_flags_collide (addrHex old new : string) (f0 : Flags) w :
  NonInteractive f0 = true -> flags w = parseUpdateFlags [("pwd", old); ("new_pwd", new)] f0 ->
  keysUpdateCmd addrHex w =
    (onKb kbOpen ;; onKb (kbUpdatePassphrase addrHex new (newPwd f0) (hint f0)) ;; onKb kbStop ;; println ("Key updated: " +:+ addrHex)) w.
Proof.
  intros Hni Hf. unfold keysUpdateCmd. rewrite !bind_eq. destruct (onKb kbOpen w) as [[[]|e|] w1] eqn:Hopen; [|done..].
  assert (flags w1 = flags w) as Hf1 by (unfold onKb in Hopen; destruct (kbOpen _) as [r s]; by injection Hopen as _ <-).
  unfold flag. erewrite bind_run by reflexivity. rewrite Hf1. assert (NonInteractive (flags w) = true) as -> by (rewrite Hf; exact Hni).
  erewrite bind_run by reflexivity. erewrite bind_run by reflexivity. by rewrite Hf1, Hf.
Qed.
(** ** Signing and verifying files *)
Definition store (w : World (KBS := KBS) (N := N)) : KBS * gmap string bytes := (kb w, files w).

Lemma keeps_askPwd : keeps store (askPwd (KBS := KBS) (N := N)).
Proof.
  unfold askPwd, readPassphrase, readPassphraseMessage, credentials, flag, println. solve_keeps.
Qed.

(** Opening and closing the keybase leaves it as it is. *)
Definition stable : Prop := forall s r, kbOpen (s, r) = (Ok tt, (s, r)) /\ kbStop (s, r) = (Ok tt, (s, r)).

(** The public key of an address is that of its private key, and verification uses it. *)
Definition consistent : Prop :=
  (forall s a p sk, kbGetPrivKey s a p = Ok sk -> blen sk = 64 /\ kbGetPubKey s a = Ok (Some (PrivateKey_PublicKey sk))) /\
  (forall s a pk m g, kbGetPubKey s a = Ok (Some pk) -> kbVerify s a m g = Ok (PublicKey_Verify pk m g)).

Lemma onKb_stable (m : M (KBS * Rnd) string unit) w : (forall s r, m (s, r) = (Ok tt, (s, r))) -> onKb m w = (Ok tt, w).
Proof. intros Hm. unfold onKb. rewrite Hm. by destruct w. Qed.

Lemma getPrivateKey_store (a : string) w pk w' : stable -> getPrivateKeyFromKeybase a w = (Ok pk, w') ->
  store w' = store w /\ exists p, kbGetPrivKey (kb w) a p = Ok pk.
Proof.
  intros Hst. unfold getPrivateKeyFromKeybase. rewrite (bind_run _ _ _ _ _ (onKb_stable kbOpen w (fun s r => proj1 (Hst s r)))).
  intros Hg. apply bind_ok in Hg as ([] & w1 & Hask & Hg). pose proof (keeps_askPwd w) as Hk. rewrite Hask in Hk. cbn in Hk.
  apply bind_ok in Hg as (p & w2 & [_ ->]%gets_ok & Hg). apply bind_ok in Hg as (pk' & w3 & Hr & Hg).
  unfold readKb in Hr. rewrite bind_get in Hr. apply of_res_ok in Hr as [Hr ->].
  rewrite (bind_run _ _ _ _ _ (onKb_stable kbStop w3 (fun s r => proj2 (Hst s r)))) in Hg. apply mret_ok in Hg as [-> ->].
  split; [done|]. exists p. unfold store in Hk. by injection Hk as <- _.
Qed.

Lemma writeOutput_ok (b : bytes) (file : string) w w' : file ≠ "" -> WriteOutput b file w = (Ok tt, w') ->
  w' = set_files (<[file := default "" (files w !! file) +:+ b]> (files w)) w /\ pathError file = None.
Proof.
  intros Hf. unfold WriteOutput. rewrite bool_decide_eq_false_2 by done. destruct (pathError file); [done|]. by intros [= <-].
Qed.

(** what [Keys SignTx] writes to a new file, [Keys VerifyTx] accepts for the same address. *)
Theorem signed_file_verifies (a o : string) w w1 w2 :
  stable -> consistent -> outputFile (flags w) = o -> files w !! o = None -> keysSignTxCmd a w = (Ok tt, w1) ->
  kb w2 = kb w1 -> files w2 = files w1 -> inputFile (flags w2) = o ->
  exists w3, keysVerifyTxCmd a w2 = (Ok tt, w3) /\ out w3 = (out w2 ++ ["Signature is valid"])%list.
Proof.
  intros Hst [Hpair Hver] Ho Hnew Hs Hkb Hfiles Hi. unfold keysSignTxCmd, flag in Hs. erewrite bind_run in Hs by reflexivity.
  cbn [id] in Hs. rewrite Ho in Hs. case_bool_decide as Hi0; [done|]. case_bool_decide as Ho0; [done|].
  apply bind_ok in Hs as (sk & w4 & Hg & Hs). destruct (getPrivateKey_store a w sk w4 Hst Hg) as [Hst4 [p Hsk]].
  apply bind_ok in Hs as (txBz & w5 & Hread & Hs).
  assert (w5 = w4) as -> by (unfold ReadInput in Hread; destruct (pathError _); [done|]; rewrite bind_get in Hread; destruct (files w4 !! _); [|done]; by injection Hread as _ <-).
  apply bind_ok in Hs as (tx & w5 & [Htx ->]%fromSum_ok & Hs). apply bind_ok in Hs as (sb & w5 & [Hsb ->]%fromSum_ok & Hs).
  apply bind_ok in Hs as (b & w5 & [Hb ->]%fromSum_ok & Hs). apply bind_ok in Hs as ([] & w5 & Hw & Hs).
  apply writeOutput_ok in Hw as [-> Hpath]; [|done]. injection Hs as <-. cbn in Hkb, Hfiles.
  assert (files w4 !! o = None) as Hn4 by (unfold store in Hst4; injection Hst4 as _ ->; done).
  assert (kb w4 = kb w) as Hk4 by (unfold store in Hst4; by injection Hst4).
  rewrite Hn4 in Hfiles. cbn [default] in Hfiles. change ("" +:+ b) with b in Hfiles.
  destruct (Hpair _ _ _ _ Hsk) as [Hlen Hpub].
  unfold keysVerifyTxCmd, flag. erewrite bind_run by reflexivity. cbn [id]. rewrite Hi, bool_decide_eq_false_2 by done.
  rewrite (bind_run _ _ _ _ _ (onKb_stable kbOpen w2 (fun s r => proj1 (Hst s r)))).
  erewrite bind_run; [|unfold readKb; rewrite bind_get, Hkb, Hk4, Hpub; reflexivity].
  erewrite bind_run; [|unfold ReadInput; rewrite Hpath, bind_get, Hfiles, lookup_insert_eq; reflexivity].
  erewrite bind_run; [|apply fromSum_ok; split; [by apply unmarshal_marshal|reflexivity]]. cbn [tx_Signature sig_PublicKey bz default].
  rewrite bool_decide_eq_true_2 by done. cbn [negb].
  erewrite bind_run; [|erewrite bind_run; [|apply fromSum_ok; split; [exact Hsb|reflexivity]];
    unfold readKb; rewrite bind_get, Hkb, Hk4; rewrite (Hver _ _ _ _ _ Hpub); reflexivity].
  rewrite (bind_run _ _ _ _ _ (onKb_stable kbStop w2 (fun s r => proj2 (Hst s r)))).
  eexists. split; [reflexivity|]. cbn. unfold PublicKey_Verify, PrivateKey_PublicKey, PrivateKey_Sign. by rewrite ed25519_sign_verify.
Qed.
End facts.
End CliFacts.

(** ** A concrete client *)
Module ToyCli.
Import Cli CliFacts.

Definition key : bytes := "AAAAAAAAAAAAAAAAAAAAAAAAAAAAAAAAAAAAAAAAAAAAAAAAAAAAAAAAAAAAAAAA".
Definition address : string := hexEncode ToyCodec.alice.

#[export] Instance entropy : Entropy := KeybaseFacts.ToyKeys.entropy.
#[export] Instance crypto : CryptoPrims := ToyCrypto.prims.
#[export] Instance keyPrims : KeyPrims := KeybaseFacts.ToyKeys.prims.
#[export] Instance codec : Codec := ToyCodec.codec.

(** A keybase that holds one key, under the passphrase "pass", and cannot be written. *)
Definition readOnly : string := "read only".
Definition privKey (a p : string) : res string bytes := if bool_decide (a = address) && bool_decide (p = "pass") then Ok key else Err "wrong passphrase".
#[export] Instance keybase : KeybaseI unit := {|
  kbOpen := mret tt; kbStop := mret tt; kbCreate _ _ := fail readOnly; kbGet _ _ := Err readOnly;
  kbGetPubKey _ a := if bool_decide (a = address) then Ok (Some (PrivateKey_PublicKey key)) else Err "no key";
  kbGetPrivKey _ a p := privKey a p; kbGetAll _ := Ok ([address], []); kbSign _ a p m := Err readOnly;
  kbVerify _ a m g := if bool_decide (a = address) then Ok (PublicKey_Verify (PrivateKey_PublicKey key) m g) else Err "no key";
  kbImportFromString _ _ _ := fail readOnly; kbImportFromJSON _ _ := fail readOnly; kbExportPrivString _ _ _ := Err readOnly;
  kbExportPrivJSON _ _ _ := Err readOnly; kbUpdatePassphrase _ _ _ _ := fail readOnly; kbDelete _ _ := fail readOnly;
  kbDeriveChildFromKey _ _ _ _ _ _ := fail readOnly |}.
(** A node that accepts everything. *)
#[export] Instance client : RpcClient unit := {|
  postBroadcastTx _ _ _ n := (Ok (200, "ok"), n); getHeight _ n := (Ok (200, Some 1), n); postGetSession _ _ n := (Ok (404, None), n);
  postRelay _ _ n := (Ok (200, ""), n) |}.
#[export] Instance cliCodec : CliCodec := {|
  toAny m := match m with
    | MSend x => if bool_decide (FromAddress x = Some ToyCodec.alice) && bool_decide (ToAddress x = Some ToyCodec.bob) && bool_decide (send_Amount x = "5")
                 then inl ToyCodec.sendAny else inr "unsupported"
    | _ => inr "unsupported"
    end;
  stringAny _ := inr "unsupported"; relayJSON _ := inr "unsupported" |}.
#[export] Instance cliCodecLaws : CliCodecLaws cliCodec.
Proof.
  split; [|done]. intros [[f t a]| | | | |] x; try done. cbn. repeat case_bool_decide; try done. subst. intros [= <-]. done.
Qed.
#[export] Instance os : CliOS := {| pathError _ := None; seededUint64 := 0 |}.
(** The random number is 7. *)
#[export] Instance rand : CryptoRandInt := {| CRnd := unit; crandInt max r := if 7 <? max then (Ok 7, r) else (Panic, r) |}.
#[local] Existing Instances ToyCrypto.laws ToyCodec.laws.

Definition withFlags (f : Flags) : World (KBS := unit) (N := unit) := {|
  flags := f; typed := ["pass"]; lines := ["n"]; files := {[ "in" := "07" ]}; kb := tt; rnd := (0 : @Rnd entropy); crnd := tt; net := tt; out := [] |}.
Definition files_flags (i o : string) : Flags := {|
  RemoteCLIURL := ""; NonInteractive := false; pwd := ""; newPwd := ""; hint := ""; outputFile := o; inputFile := i;
  exportAs := "json"; importAs := "raw"; storeChild := true; childPwd := ""; childHint := "" |}.
Definition scripted : Flags := {|
  RemoteCLIURL := ""; NonInteractive := true; pwd := ""; newPwd := ""; hint := ""; outputFile := ""; inputFile := "";
  exportAs := "json"; importAs := "raw"; storeChild := true; childPwd := ""; childHint := "" |}.

Lemma toy_under : underAddress.
Proof. intros s a p pk. cbn. unfold privKey. repeat case_bool_decide; try done. intros [= <-]. subst. split; [done|]. by vm_compute. Qed.
Lemma toy_stable : stable.
Proof. by intros s r. Qed.
Lemma toy_consistent : consistent.
Proof.
  split; cbn; unfold privKey.
  - intros s a p sk. repeat case_bool_decide; try done. by intros [= <-].
  - intros s a pk m g. case_bool_decide; [|done]. by intros [= <-].
Qed.

Definition sendRun := Cli.sendCmd (address, hexEncode ToyCodec.bob, "5") (withFlags (defaultFlags "")).
Lemma send_posts_valid_tx_witness : exists w', Cli.sendCmd (address, hexEncode ToyCodec.bob, "5") (withFlags (defaultFlags "")) = (Ok tt, w') /\
  exists pk b code body, carries b (MSend {| FromAddress := Some (PrivateKey_Address pk); ToAddress := Some ToyCodec.bob; send_Amount := "5" |}) pk /\
    postBroadcastTx "" (Address_String (PrivateKey_Address pk)) (hexEncode b) tt = (Ok (code, body), net w').
Proof.
  exists (sendRun.2). assert (Cli.sendCmd (address, hexEncode ToyCodec.bob, "5") (withFlags (defaultFlags "")) = (Ok tt, sendRun.2)) as Hrun by (vm_compute; reflexivity).
  split; [exact Hrun|]. destruct (send_posts_valid_tx address (hexEncode ToyCodec.bob) "5" _ _ toy_under Hrun) as (pk & t & b & code & body & _ & Ht & Hb & Hp & _).
  rewrite hex_decode_encode in Ht. injection Ht as <-. exists pk, b, code, body. split; [exact Hb|exact Hp].
Defined.

Lemma low_stake_not_confirmed_witness : exists w', (askPwd ;; validateStakeAmount "5") (withFlags (defaultFlags "")) = (Ok tt, w') /\ lines w' = ["n"].
Proof.
  destruct (low_stake_not_confirmed "5" "pass" [] 5 (withFlags (defaultFlags ""))) as (w' & Hr & Hl & _); try reflexivity; [done|].
  exists w'. split; [exact Hr|exact Hl].
Defined.

Lemma update_flags_collide_witness :
  keysUpdateCmd address (withFlags (parseUpdateFlags [("pwd", "pass"); ("new_pwd", "other")] scripted)) =
    (onKb kbOpen ;; onKb (kbUpdatePassphrase address "other" "" "") ;; onKb kbStop ;; println ("Key updated: " +:+ address))
      (withFlags (parseUpdateFlags [("pwd", "pass"); ("new_pwd", "other")] scripted)).
Proof. exact (update_flags_collide address "pass" "other" scripted (withFlags (parseUpdateFlags [("pwd", "pass"); ("new_pwd", "other")] scripted)) eq_refl eq_refl). Defined.

Definition signRun := keysSignTxCmd address (withFlags (files_flags "in" "signed")).
Lemma sign_ok : keysSignTxCmd address (withFlags (files_flags "in" "signed")) = (Ok tt, signRun.2).
Proof. unfold signRun. assert (is_ok (keysSignTxCmd address (withFlags (files_flags "in" "signed"))).1 = true) as Hok by (vm_compute; reflexivity).
  destruct (keysSignTxCmd _ _) as [[[]| |] w]; done. Qed.
Lemma signed_file_verifies_witness :
  exists w3, keysVerifyTxCmd address (set_flags (files_flags "signed" "") signRun.2) = (Ok tt, w3) /\
    out w3 = (out signRun.2 ++ ["Signature is valid"])%list.
Proof.
  exact (signed_file_verifies address "signed" (withFlags (files_flags "in" "signed")) signRun.2 (set_flags (files_flags "signed" "") signRun.2)
    toy_stable toy_consistent eq_refl eq_refl sign_ok eq_refl eq_refl eq_refl).
Defined.
End ToyCli.
