(* ===== verification/CliQuery.v ===== *)
(** The commands of the client that query a node (src/app/client/cli/query.go, system.go,
    consensus.go and the helpers they use from utils.go), and the queries of a whole node: the
    requests of the client answered by the handlers of [RpcHandlers].

    A command is its usage, its aliases, the number of arguments it wants and its program.  The
    package variables [height], [page], [per_page] and [sort] are bound to flags.  The generated
    client is the class [QueryClient]: creating it may fail, sending a request may fail, and so may
    reading the body of the response.  Printed texts are kept without their pictograms. *)

From S2P Require Import Prelude GoStd GoSort GoFloat Errors Crypto CoreTypes Messages Sql Persistence Ledger FifoSet TxMempool UowSend ConsTypes Node Genesis Session SessionFacts Utility Rpc RpcHandlers RpcFacts Cli.
#[local] Open Scope string_scope.
#[local] Open Scope Z_scope.

Module CliQuery.
Import Rpc RpcHandlers Node.

(** The requests of the generated client, by its methods. *)
Inductive QueryRequest :=
| QAccount (body : QueryAccountHeight) | QApp (body : QueryAccountHeight) | QBalance (body : QueryAccountHeight)
| QBlock (height : Z) | QFisherman (body : QueryAccountHeight) | QParam (body : QueryParameter) | QServicer (body : QueryAccountHeight)
| QSupply (height : Z) | QSupportedChains (height : Z) | QUpgrade (height : Z) | QValidator (body : QueryAccountHeight)
| QAccounts (body : QueryHeightPaginated) | QApps (body : QueryHeightPaginated) | QFishermen (body : QueryHeightPaginated)
| QServicers (body : QueryHeightPaginated) | QValidators (body : QueryHeightPaginated) | QBlockTxs (body : QueryHeightPaginated)
| QAccountTxs (body : QueryAccountPaginated) | QUnconfirmedTxs (body : QueryPaginated) (sort : option string)
| QAllChainParams | QHeight | QTx (hash : string) | QUnconfirmedTx (hash : string) | QNodeRoles
| QHealth | QVersion | QConsensusState.

Class QueryClient (N : Type) := {
  newClient : string -> option string;                              (* the error of [NewClientWithResponses] *)
  sendQuery : string -> QueryRequest -> M N string (Z * (bytes + string));
  consensusState : bytes -> option (Z * Z * Z);                     (* [JSONDefault] of the parsed response *)
}.

Section commands.
Context {N : Type} `{QC : !QueryClient N}.

(** The package variables. *)
Record QFlags := { qURL : string; height : Z; page : Z; per_page : Z; sort : string }.
Record QWorld := { qflags : QFlags; qnet : N; stdout : list string; stderr : list string }.
Definition set_qflags (v : QFlags) (w : QWorld) : QWorld := {| qflags := v; qnet := qnet w; stdout := stdout w; stderr := stderr w |}.
Definition set_qnet (v : N) (w : QWorld) : QWorld := {| qflags := qflags w; qnet := v; stdout := stdout w; stderr := stderr w |}.
Definition set_stdout (v : list string) (w : QWorld) : QWorld := {| qflags := qflags w; qnet := qnet w; stdout := v; stderr := stderr w |}.
Definition set_stderr (v : list string) (w : QWorld) : QWorld := {| qflags := qflags w; qnet := qnet w; stdout := stdout w; stderr := v |}.
Abbreviation QM := (M QWorld string).

Definition printf (s : string) : QM unit := modify (fun w => set_stdout (stdout w ++ [s]) w).
Definition eprintf (s : string) : QM unit := modify (fun w => set_stderr (stderr w ++ [s]) w).

Definition escape : string := String (Ascii.ascii_of_nat 27) "".
Definition boldText (s : string) : string := escape +:+ "[1m" +:+ s +:+ escape +:+ "[0m".

(** Both return no error. *)
Definition unableToConnectToRpc (err : string) : QM unit :=
  w ← get;
  printf ("Unable to connect to the RPC @ " +:+ boldText (qURL (qflags w)) +:+ newline +:+ newline +:+ "Error: " +:+ err).
Definition rpcResponseCodeUnhealthy (statusCode : Z) (response : bytes) : QM unit :=
  w ← get;
  printf ("RPC reporting unhealthy status HTTP " +:+ bigIntText statusCode +:+ " @ " +:+ boldText (qURL (qflags w)) +:+ newline +:+ newline +:+ response).

(** ** Flags, as the subcommands bind them; a flag that is not given has its default. *)
Inductive FlagValue := FInt (v : Z) | FText (v : string).
Definition attachHeightFlag (name : string) (v : FlagValue) (f : QFlags) : QFlags :=
  match v with
  | FInt z => if bool_decide (name = "height") then {| qURL := qURL f; height := z; page := page f; per_page := per_page f; sort := sort f |} else f
  | FText _ => f
  end.
Definition attachPaginationFlags (name : string) (v : FlagValue) (f : QFlags) : QFlags :=
  match v with
  | FInt z =>
      if bool_decide (name = "page") then {| qURL := qURL f; height := height f; page := z; per_page := per_page f; sort := sort f |}
      else if bool_decide (name = "per_page") then {| qURL := qURL f; height := height f; page := page f; per_page := z; sort := sort f |}
      else f
  | FText _ => f
  end.
Definition attachSortFlag (name : string) (v : FlagValue) (f : QFlags) : QFlags :=
  match v with
  | FText t => if bool_decide (name = "sort") then {| qURL := qURL f; height := height f; page := page f; per_page := per_page f; sort := t |} else f
  | FInt _ => f
  end.
Definition defaultQFlags (url : string) : QFlags := {| qURL := url; height := 0; page := 1; per_page := 1000; sort := "desc" |}.

(** ** Commands *)
Record Command := { Use : string; Aliases : list string; Args : option nat; RunE : list string -> QM unit }.

(** [args[0]] *)
Definition with_arg (args : list string) (k : string -> QM unit) : QM unit := match args with a :: _ => k a | [] => panic end.

Definition sendRequest (r : QueryRequest) : QM (Z * (bytes + string)) := fun w =>
  let '(res, n) := sendQuery (qURL (qflags w)) r (qnet w) in (res, set_qnet n w).

(** The body that all query commands share. *)
Definition runQuery (mk : QFlags -> QueryRequest) : QM unit := fun w =>
  match newClient (qURL (qflags w)) with
  | Some err => (Err err, w)
  | None =>
      match sendRequest (mk (qflags w)) w with
      | (Panic, w1) => (Panic, w1)
      | (Err err, w1) => unableToConnectToRpc err w1
      | (Ok (statusCode, inr err), w1) => (eprintf ("Error reading response body: " +:+ err +:+ newline) ;; fail err) w1
      | (Ok (statusCode, inl resp), w1) =>
          if bool_decide (statusCode = StatusOK) then printf (resp +:+ newline) w1 else rpcResponseCodeUnhealthy statusCode resp w1
      end
  end.

Definition queryAccount : Command := {|
  Use := "Account <address> [--height]"; Aliases := ["account"]; Args := Some 1%nat;
  RunE := fun args => with_arg args (fun a => runQuery (fun f => QAccount {| qah_Address := a; qah_Height := height f |})) |}.
Definition queryApp : Command := {|
  Use := "App <address> [--height]"; Aliases := ["app"]; Args := Some 1%nat;
  RunE := fun args => with_arg args (fun a => runQuery (fun f => QApp {| qah_Address := a; qah_Height := height f |})) |}.
Definition queryBalance : Command := {|
  Use := "Balance <address> [--height]"; Aliases := ["balance"]; Args := Some 1%nat;
  RunE := fun args => with_arg args (fun a => runQuery (fun f => QBalance {| qah_Address := a; qah_Height := height f |})) |}.
Definition queryBlock : Command := {|
  Use := "Block [--height]"; Aliases := ["block"]; Args := Some 0%nat;
  RunE := fun _ => runQuery (fun f => QBlock (height f)) |}.
Definition queryFisherman : Command := {|
  Use := "Fisherman <address> [--height]"; Aliases := ["fisherman"]; Args := Some 1%nat;
  RunE := fun args => with_arg args (fun a => runQuery (fun f => QFisherman {| qah_Address := a; qah_Height := height f |})) |}.
Definition queryParam : Command := {|
  Use := "Param <parameter_name> [--height]"; Aliases := ["param"]; Args := Some 1%nat;
  RunE := fun args => with_arg args (fun a => runQuery (fun f => QParam {| qpm_ParamName := a; qpm_Height := height f |})) |}.
Definition queryServicer : Command := {|
  Use := "Servicer <address> [--height]"; Aliases := ["servicer"]; Args := Some 1%nat;
  RunE := fun args => with_arg args (fun a => runQuery (fun f => QServicer {| qah_Address := a; qah_Height := height f |})) |}.
Definition querySupply : Command := {|
  Use := "Supply [--height]"; Aliases := ["supply"]; Args := Some 0%nat;
  RunE := fun _ => runQuery (fun f => QSupply (height f)) |}.
Definition querySupportedChains : Command := {|
  Use := "SupportedChains [--height]"; Aliases := ["supportedchains"]; Args := Some 0%nat;
  RunE := fun _ => runQuery (fun f => QSupportedChains (height f)) |}.
Definition queryUpgrade : Command := {|
  Use := "Upgrade [--height]"; Aliases := ["param"]; Args := Some 0%nat;
  RunE := fun _ => runQuery (fun f => QUpgrade (height f)) |}.
Definition queryValidator : Command := {|
  Use := "Validator <address> [--height]"; Aliases := ["validator"]; Args := Some 1%nat;
  RunE := fun args => with_arg args (fun a => runQuery (fun f => QValidator {| qah_Address := a; qah_Height := height f |})) |}.
Definition queryAccounts : Command := {|
  Use := "Accounts [--height] [--page] [--per_page]"; Aliases := ["accounts"]; Args := Some 0%nat;
  RunE := fun _ => runQuery (fun f => QAccounts {| qhp_Height := height f; qhp_Page := page f; qhp_PerPage := per_page f; qhp_Sort := None |}) |}.
Definition queryApps : Command := {|
  Use := "Apps [--height] [--page] [--per_page]"; Aliases := ["apps"]; Args := Some 0%nat;
  RunE := fun _ => runQuery (fun f => QApps {| qhp_Height := height f; qhp_Page := page f; qhp_PerPage := per_page f; qhp_Sort := None |}) |}.
Definition queryFishermen : Command := {|
  Use := "Fishermen [--height] [--page] [--per_page]"; Aliases := ["fishermen"]; Args := Some 0%nat;
  RunE := fun _ => runQuery (fun f => QFishermen {| qhp_Height := height f; qhp_Page := page f; qhp_PerPage := per_page f; qhp_Sort := None |}) |}.
Definition queryServicers : Command := {|
  Use := "Servicers [--height] [--page] [--per_page]"; Aliases := ["servicers"]; Args := Some 0%nat;
  RunE := fun _ => runQuery (fun f => QServicers {| qhp_Height := height f; qhp_Page := page f; qhp_PerPage := per_page f; qhp_Sort := None |}) |}.
Definition queryValidators : Command := {|
  Use := "Validators [--height] [--page] [--per_page]"; Aliases := ["validators"]; Args := Some 0%nat;
  RunE := fun _ => runQuery (fun f => QValidators {| qhp_Height := height f; qhp_Page := page f; qhp_PerPage := per_page f; qhp_Sort := None |}) |}.
Definition queryBlockTxs : Command := {|
  Use := "BlockTxs [--height] [--page] [--per_page] [--sort]"; Aliases := ["blocktxs"]; Args := Some 0%nat;
  RunE := fun _ => runQuery (fun f => QBlockTxs {| qhp_Height := height f; qhp_Page := page f; qhp_PerPage := per_page f; qhp_Sort := Some (sort f) |}) |}.
Definition queryAccountTxs : Command := {|
  Use := "AccountTxs <address> [--page] [--per_page] [--sort]"; Aliases := ["accounttxs"]; Args := Some 1%nat;
  RunE := fun args => with_arg args (fun a => runQuery (fun f => QAccountTxs {| qap_Address := a; qap_Page := page f; qap_PerPage := per_page f; qap_Sort := Some (sort f) |})) |}.
Definition queryUnconfirmedTxs : Command := {|
  Use := "UnconfirmedTxs [--page] [--per_page] [--sort]"; Aliases := ["unconfirmedtxs"]; Args := Some 0%nat;
  RunE := fun _ => runQuery (fun f => QUnconfirmedTxs {| qp_Page := page f; qp_PerPage := per_page f |} (Some (sort f))) |}.
Definition queryAllChainParams : Command := {|
  Use := "AllChainParams"; Aliases := ["allparams"]; Args := Some 0%nat;
  RunE := fun _ => runQuery (fun _ => QAllChainParams) |}.
Definition queryHeight : Command := {|
  Use := "Height"; Aliases := ["height"]; Args := Some 0%nat;
  RunE := fun _ => runQuery (fun _ => QHeight) |}.
Definition queryTransaction : Command := {|
  Use := "Transaction <hash>"; Aliases := ["tx"]; Args := Some 1%nat;
  RunE := fun args => with_arg args (fun a => runQuery (fun f => QTx a)) |}.
Definition queryUnconfirmedTransaction : Command := {|
  Use := "UnconfirmedTransaction <hash>"; Aliases := ["unconfirmedtx"]; Args := Some 1%nat;
  RunE := fun args => with_arg args (fun a => runQuery (fun f => QUnconfirmedTx a)) |}.
Definition queryNodeRoles : Command := {|
  Use := "NodeRoles"; Aliases := ["noderoles"]; Args := None;
  RunE := fun _ => runQuery (fun _ => QNodeRoles) |}.
Definition queryHeightCommands : list Command := [queryAccount; queryApp; queryBalance; queryBlock; queryFisherman; queryParam; queryServicer; querySupply; querySupportedChains; queryUpgrade; queryValidator].
Definition queryHeightPaginatedCommands : list Command := [queryAccounts; queryApps; queryFishermen; queryServicers; queryValidators].
Definition queryHeightPaginatedSortedCommands : list Command := [queryBlockTxs].
Definition queryPaginatedSortedCommands : list Command := [queryAccountTxs; queryUnconfirmedTxs].
Definition queryCommands : list Command := [queryAllChainParams; queryHeight; queryTransaction; queryUnconfirmedTransaction; queryNodeRoles].

(** The subcommands of [Query], with the flags they accept. *)
Definition NewQueryCommand : list (Command * list string) :=
  ((fun c => (c, ["height"])) <$> queryHeightCommands) ++
  ((fun c => (c, ["height"; "page"; "per_page"])) <$> queryHeightPaginatedCommands) ++
  ((fun c => (c, ["height"; "page"; "per_page"; "sort"])) <$> queryHeightPaginatedSortedCommands) ++
  ((fun c => (c, ["page"; "per_page"; "sort"])) <$> queryPaginatedSortedCommands) ++
  ((fun c => (c, [])) <$> queryCommands).

(** ** system.go; the generated [...WithResponse] methods read the body themselves *)
Definition sendAndRead (r : QueryRequest) : QM (Z * bytes) :=
  x ← sendRequest r;
  match x.2 with inl b => mret (x.1, b) | inr e => fail e end.

(** A failure to create the client is not reported. *)
Definition systemHealth : Command := {|
  Use := "Health"; Aliases := ["health"]; Args := None;
  RunE := fun _ w =>
    match newClient (qURL (qflags w)) with
    | Some _ => (Ok tt, w)
    | None =>
        match sendAndRead QHealth w with
        | (Panic, w1) => (Panic, w1)
        | (Err err, w1) => unableToConnectToRpc err w1
        | (Ok (statusCode, body), w1) =>
            if bool_decide (statusCode = StatusOK)
            then printf ("RPC reporting healthy status for node @ " +:+ boldText (qURL (qflags w)) +:+ newline +:+ newline +:+ body) w1
            else rpcResponseCodeUnhealthy statusCode body w1
        end
    end |}.
Definition systemVersion : Command := {|
  Use := "Version"; Aliases := ["version"]; Args := None;
  RunE := fun _ w =>
    match newClient (qURL (qflags w)) with
    | Some err => (Err err, w)
    | None =>
        match sendAndRead QVersion w with
        | (Panic, w1) => (Panic, w1)
        | (Err err, w1) => unableToConnectToRpc err w1
        | (Ok (statusCode, body), w1) =>
            if bool_decide (statusCode = StatusOK)
            then printf ("Node @ " +:+ boldText (qURL (qflags w)) +:+ " reports that it's running version: " +:+ newline +:+ boldText body +:+ newline) w1
            else rpcResponseCodeUnhealthy statusCode body w1
        end
    end |}.
Definition systemCommands : list Command := [systemHealth; systemVersion].

(** ** consensus.go *)

(** The response is nil, without an error, if the client cannot be created or the node cannot be
    reached; [Some None] is a response whose body was not parsed. *)
Definition getConsensusState : QM (option (option (Z * Z * Z))) := fun w =>
  match newClient (qURL (qflags w)) with
  | Some _ => (Ok None, w)
  | None =>
      match sendAndRead QConsensusState w with
      | (Panic, w1) => (Panic, w1)
      | (Err err, w1) => match unableToConnectToRpc err w1 with (Ok _, w2) => (Ok None, w2) | (Err e, w2) => (Err e, w2) | (Panic, w2) => (Panic, w2) end
      | (Ok (_, body), w1) => (Ok (Some (consensusState body)), w1)
      end
  end.
(** [response.JSONDefault.Height] of a nil response or of a nil [JSONDefault] ends the process. *)
Definition printConsensus (show : Z * Z * Z -> string) : QM unit :=
  response ← getConsensusState;
  match response with Some (Some hrs) => printf (show hrs +:+ newline) | _ => panic end.

Definition consensusStateCmd : Command := {| Use := "State"; Aliases := ["state"]; Args := None;
  RunE := fun _ => printConsensus (fun '(h, r, st) => bigIntText h +:+ "/" +:+ bigIntText r +:+ "/" +:+ bigIntText st) |}.
Definition consensusHeightCmd : Command := {| Use := "Height"; Aliases := ["height"]; Args := None; RunE := fun _ => printConsensus (fun '(h, _, _) => bigIntText h) |}.
Definition consensusRoundCmd : Command := {| Use := "Round"; Aliases := ["round"]; Args := None; RunE := fun _ => printConsensus (fun '(_, r, _) => bigIntText r) |}.
Definition consensusStepCmd : Command := {| Use := "Step"; Aliases := ["step"]; Args := None; RunE := fun _ => printConsensus (fun '(_, _, st) => bigIntText st) |}.
Definition consensusCommands : list Command := [consensusStateCmd; consensusHeightCmd; consensusRoundCmd; consensusStepCmd].

(** ** What a query does *)

(** The world after a response: what is printed depends on the status only, and a node that cannot
    be reached or answers with an error does not make the command fail. *)
Definition reported (x : res string (Z * (bytes + string)) * N) (w : QWorld) : res string unit * QWorld :=
  let say t := set_stdout (stdout w ++ [t]) (set_qnet x.2 w) in
  match x.1 with
  | Ok (st, inl b) =>
      (Ok tt, say (if bool_decide (st = StatusOK) then b +:+ newline
                   else "RPC reporting unhealthy status HTTP " +:+ bigIntText st +:+ " @ " +:+ boldText (qURL (qflags w)) +:+ newline +:+ newline +:+ b))
  | Ok (_, inr e) => (Err e, set_stderr (stderr w ++ ["Error reading response body: " +:+ e +:+ newline]) (set_qnet x.2 w))
  | Err e => (Ok tt, say ("Unable to connect to the RPC @ " +:+ boldText (qURL (qflags w)) +:+ newline +:+ newline +:+ "Error: " +:+ e))
  | Panic => (Panic, set_qnet x.2 w)
  end.

Lemma runQuery_reported mk w : newClient (qURL (qflags w)) = None ->
  runQuery mk w = reported (sendQuery (qURL (qflags w)) (mk (qflags w)) (qnet w)) w.
Proof.
  intros Hc. unfold runQuery, sendRequest, reported. rewrite Hc.
  destruct (sendQuery _ _ _) as [[[st [b|e]]|e|] n]; cbn; try done. by case_bool_decide.
Qed.

Definition argsOk (c : Command) (args : list string) : Prop := match Args c with Some n => length args = n | None => True end.

(** Every query command, given the number of arguments it wants, sends exactly one request and
    reports its outcome. *)
Theorem query_sends_one_request c (names args : list string) w :
  (c, names) ∈ NewQueryCommand -> argsOk c args -> newClient (qURL (qflags w)) = None ->
  exists r, RunE c args w = reported (sendQuery (qURL (qflags w)) r (qnet w)) w.
Proof.
  intros Hc Ha Hn. unfold NewQueryCommand in Hc.
  assert (c ∈ (queryHeightCommands ++ queryHeightPaginatedCommands ++ queryHeightPaginatedSortedCommands ++ queryPaginatedSortedCommands ++ queryCommands)%list) as Hin.
  { repeat (apply elem_of_app in Hc as [Hc|Hc]); apply list_elem_of_fmap in Hc as (c' & [= -> _] & Hin); set_solver. }
  clear Hc. unfold queryHeightCommands, queryHeightPaginatedCommands, queryHeightPaginatedSortedCommands, queryPaginatedSortedCommands, queryCommands in Hin.
  cbn [app] in Hin. repeat (apply elem_of_cons in Hin as [->|Hin]); [..|by apply elem_of_nil in Hin];
    (destruct args as [|a args]; [try discriminate Ha|]); cbn [RunE with_arg]; eexists; by apply runQuery_reported.
Qed.
End commands.

(** ** A client in front of a node *)
Class ReplyEncoder := {
  encAccount : RPCAccount -> bytes; encAccounts : Paged RPCAccount -> bytes; encTx : RPCIdxTx -> bytes; encTxs : Paged RPCIdxTx -> bytes;
  encBalance : Z -> bytes; encParams : list (string * string) -> bytes; encParam : string * string -> bytes; encActor : ProtocolActor -> bytes;
  encActors : Paged ProtocolActor -> bytes; encBlock : RPCBlock -> bytes; encHeight : Z -> bytes; encSupply : QuerySupplyResponse -> bytes;
  encChains : list string -> bytes; encUpgrade : Z * string -> bytes; encRoles : list string -> bytes; encState : Z * Z * Z -> bytes;
}.

Section node.
Context {I : Type} `{TQ : TxQueries I} `{CP : CryptoPrims} `{CD : Codec} `{HC : HotstuffCodec} `{RL : RpcLib} `{GC : GoConversion} `{MO : GoMapOrder} `{RE : ReplyEncoder}.
Context (appVersion : string) (parseState : bytes -> option (Z * Z * Z)).

Definition answered {B} (enc : B -> bytes) (r : Reply B) : option (Z * bytes) :=
  match r with
  | JSON st b => Some (st, enc b)
  | Text st t => Some (st, t)
  | NoContent st => Some (st, "")
  | NoReply => Some (StatusOK, "")
  | Aborted => None
  end.

Definition serve (s : rpcServer I) (r : QueryRequest) : option (Z * bytes) :=
  match r with
  | QAccount b => answered encAccount (PostV1QueryAccount s (Some b))
  | QApp b => answered encActor (PostV1QueryApp s (Some b))
  | QBalance b => answered encBalance (PostV1QueryBalance s (Some b))
  | QBlock h => answered encBlock (PostV1QueryBlock s (Some h))
  | QFisherman b => answered encActor (PostV1QueryFisherman s (Some b))
  | QParam b => answered encParam (PostV1QueryParam s (Some b))
  | QServicer b => answered encActor (PostV1QueryServicer s (Some b))
  | QSupply h => answered encSupply (PostV1QuerySupply s (Some h))
  | QSupportedChains h => answered encChains (PostV1QuerySupportedChains s (Some h))
  | QUpgrade h => answered encUpgrade (PostV1QueryUpgrade s (Some h))
  | QValidator b => answered encActor (PostV1QueryValidator s (Some b))
  | QAccounts b => answered encAccounts (PostV1QueryAccounts s (Some b))
  | QApps b => answered encActors (PostV1QueryApps s (Some b))
  | QFishermen b => answered encActors (PostV1QueryFishermen s (Some b))
  | QServicers b => answered encActors (PostV1QueryServicers s (Some b))
  | QValidators b => answered encActors (PostV1QueryValidators s (Some b))
  | QBlockTxs b => answered encTxs (PostV1QueryBlockTxs s (Some b))
  | QAccountTxs b => answered encTxs (PostV1QueryAccountTxs s (Some b))
  | QUnconfirmedTxs b _ => answered encTxs (PostV1QueryUnconfirmedTxs s (Some b))
  | QAllChainParams => answered encParams (GetV1QueryAllChainParams s)
  | QHeight => answered encHeight (GetV1QueryHeight s)
  | QTx h => answered encTx (PostV1QueryTx s (Some h))
  | QUnconfirmedTx h => answered encTx (PostV1QueryUnconfirmedTx s (Some h))
  | QNodeRoles => answered encRoles (PostV1QueryNodeRoles s)
  | QHealth => answered (fun _ => "") GetV1Health
  | QVersion => answered (fun _ => "") (GetV1Version appVersion)
  | QConsensusState => answered encState (GetV1ConsensusState s)
  end.

(** A handler that aborts closes the connection. *)
#[local] Instance nodeClient : QueryClient (rpcServer I) := {|
  newClient _ := None;
  sendQuery _ r s := (match serve s r with Some (st, b) => Ok (st, inl b) | None => Err "EOF" end, s);
  consensusState := parseState;
|}.

(** C40: [Query Balance] prints the balance of the ledger.  On a node whose consensus is at the
    height after its last committed block, the command prints, for an address in hex, the integer
    balance that the account has at the height of the flag or, if the flag is 0 (the default), at
    the height of the last committed block; a balance beyond 64 bits is answered with an error,
    which the command reports without failing. *)
Theorem query_balance_prints_ledger (arg : string) (addr : bytes) (lastBlock : Z) (w : QWorld (N := rpcServer I)) :
  hexDecode arg = Some addr ->
  let s := qnet w in
  GetMaximumBlockHeight (committedDB (modules s)) = Ok lastBlock -> 0 <= lastBlock < 2 ^ 63 - 1 -> consensusHeight s = lastBlock + 1 ->
  let asked := height (qflags w) in
  let h := if bool_decide (asked = 0) then lastBlock else asked in
  let d := db (committedDB (modules s)) in
  balances_ok d h ->
  let balance := l_get AccountS (hexEncode addr) (view d h) in
  exists w', RunE queryBalance [arg] w = (Ok tt, w') /\ qnet w' = s /\
    (in_i64 balance -> stdout w' = (stdout w ++ [encBalance balance +:+ newline])%list) /\
    (~ in_i64 balance -> exists t, stdout w' = (stdout w ++ ["RPC reporting unhealthy status HTTP 500 @ " +:+ t])%list).
Proof.
  intros Ha s Hmax Hl Hc asked h d Hok balance.
  assert (getQueryHeight s asked = h) as Hh.
  { unfold getQueryHeight, h. rewrite Hc, i64_small by (unfold in_i64; lia). case_bool_decide as Hz; [rewrite Hz|by rewrite (proj2 (Z.eqb_neq _ _) Hz)].
    cbn. rewrite (proj2 (Z.ltb_lt _ _)) by lia. lia. }
  destruct (getAccountAmount_view AccountS (contextAt h (committedDB (modules s))) (hexEncode addr) h Hok) as (txt & Hg & Ht).
  cbn [RunE queryBalance with_arg]. rewrite runQuery_reported by done. unfold reported. cbn [sendQuery nodeClient serve].
  unfold PostV1QueryBalance, bound, withReadContext, NewReadContext, orReply, decodeOr, GetAccountAmount. cbn [qah_Address qah_Height]. rewrite Ha. fold s asked. rewrite Hh, Hg.
  unfold atoi. rewrite Ht. cbn. fold balance. change (l_get AccountS (hexEncode addr) (view (db (committedDB (modules s))) h)) with balance.
  case_bool_decide as Hb; cbn.
  - eexists. split; [done|]. split; [done|]. split; [done|]. intros Hn. by destruct Hn.
  - eexists. split; [done|]. split; [done|]. split; [intros Hi; by destruct Hb|]. intros _. eexists. done.
Qed.
End node.
End CliQuery.

(** ** A client in front of a concrete node *)
Module ToyQuery.
Import Rpc RpcHandlers RpcFacts Node CliQuery.
#[local] Existing Instances ToyRpc.queries ToyRpc.lib ToyCrypto.prims ToyCodec.codec NodeToy.hcodec SessionFacts.SessionToy.conversion CanonicalOrder.order.
#[local] Instance encoder : ReplyEncoder := {|
  encAccount _ := ""; encAccounts _ := ""; encTx _ := ""; encTxs _ := ""; encBalance := bigIntText; encParams _ := ""; encParam _ := "";
  encActor _ := ""; encActors _ := ""; encBlock _ := ""; encHeight := bigIntText; encSupply _ := ""; encChains _ := ""; encUpgrade _ := "";
  encRoles _ := ""; encState _ := "" |}.
(** The genesis file of [ToyGenesis], at height 1. *)
Definition server : rpcServer unit := {|
  modules := ToyGenesis.final; index := tt; consensusHeight := 1; consensusRound := 0; consensusStep := 0; utility := ToyRpc.servicerNode |}.
Definition world : QWorld (N := rpcServer unit) := {| qflags := defaultQFlags "url"; qnet := server; stdout := []; stderr := [] |}.

Lemma query_balance_prints_ledger_witness :
  exists w', RunE (queryBalance (QC := nodeClient "v" (fun _ => None))) ["0a"] world = (Ok tt, w') /\ stdout w' = ["100" +:+ newline].
Proof.
  destruct (query_balance_prints_ledger "v" (fun _ => None) "0a" (String (Ascii.ascii_of_nat 10) "") 0 world eq_refl) as (w' & Hr & _ & Hout & _).
  - vm_compute. reflexivity.
  - lia.
  - reflexivity.
  - apply balances_okb_ok. vm_compute. reflexivity.
  - exists w'. split; [exact Hr|].
    assert (l_get AccountS (hexEncode (String (Ascii.ascii_of_nat 10) "")) (view (db (committedDB (modules (qnet world)))) 0) = 100) as He
      by (vm_compute; reflexivity).
    change (if bool_decide (height (qflags world) = 0) then 0 else height (qflags world)) with 0 in Hout.
    rewrite He in Hout. apply Hout. split; [discriminate|reflexivity].
Defined.
End ToyQuery.
