(* ===== verification/CliDebug.v ===== *)
(** The debug menu of the client (src/app/client/cli/debug.go) with the providers it reads over RPC
    (src/p2p/providers/peerstore_provider/rpc/provider.go,
    src/p2p/providers/current_height_provider/rpc/provider.go) and the provider of a node that reads
    its own ledger (src/p2p/providers/peerstore_provider/persistence/provider.go).

    [DebugMenu]: the items, the message that each sends, and the peers that it is sent to.  The
    replies to the two RPC requests are parameters; [DebugFacts] also instantiates them by the
    handlers of a node.  [log.Fatal] ends the process: it is [Panic]. *)

From S2P Require Import Prelude GoStd GoSort GoFloat Errors Crypto CoreTypes Gov Messages Sql Persistence FifoSet TxMempool UnitOfWork ConsTypes Consensus Node Genesis KvStore Indexer Session Servicer Peers Libp2p RainTree Background P2P Utility Bus NodeEvents Rpc RpcHandlers.
#[local] Open Scope string_scope.
#[local] Open Scope Z_scope.

(** ** The providers *)
Module RpcProviders.
Import Pstore PeerstoreProvider RpcHandlers Rpc Node.

(** An error of the request or of the reply, or those of the actors. *)
Inductive ProviderErr := RequestErr (text : string) | ActorErrs (errs : list PeerErr).

(** The replies of the remote node: the status, and the decoded body unless it is not JSON. *)
Class PeerClient := {
  addressBook : option Z -> option ActorTypesEnum -> res string (Z * option (list RPCActor));
  consensusStateHeight : res string (Z * option Z);
}.

Section providers.
Context `{CryptoPrims}.

(** [ActorsToPeerstore] returns the peerstore with the errors: with any error the caller stops. *)
Definition peerstoreOf (actors : list Actor) : res ProviderErr PeerAddrMap :=
  match ActorsToPeerstore actors with
  | Ok (ps, []) => Ok ps
  | Ok (_, errs) => Err (ActorErrs errs)
  | Err e => Err (ActorErrs [e])
  | Panic => Panic
  end.

(** Only four fields of an actor are in the reply. *)
Definition coreActor (a : RPCActor) : Actor :=
  {| ActorType := ACTOR_TYPE_VAL; Address := ra_Address a; PublicKey := ra_PublicKey a; Chains := None; ServiceUrl := ra_ServiceUrl a;
     StakedAmount := ""; PausedHeight := 0; UnstakingHeight := 0; Output := "" |}.

Definition rpcGetStakedPeerstoreAtHeight `{PC : PeerClient} (height : Z) : res ProviderErr PeerAddrMap :=
  match addressBook (Some (i64 height)) (Some Validator) with
  | Err e => Err (RequestErr e)
  | Panic => Panic
  | Ok (statusCode, body) =>
      if negb (statusCode =? StatusOK)
      then Err (RequestErr ("error retrieving addressbook via rpc. Unexpected status code: " +:+ bigIntText statusCode))
      else match body with None => Panic | Some rpcActors => peerstoreOf (coreActor <$> rpcActors) end
  end.

Definition rpcCurrentHeight `{PC : PeerClient} : res ProviderErr Z :=
  match consensusStateHeight with
  | Ok (statusCode, Some height) => if statusCode =? StatusOK then Ok (u64 height) else Panic
  | _ => Panic
  end.

Definition persistenceGetStakedPeerstoreAtHeight (m : Modules) (height : Z) : res ProviderErr PeerAddrMap :=
  match NewReadContext (i64 height) m with
  | Err e => Err (RequestErr e)
  | Panic => Panic
  | Ok readCtx => peerstoreOf (GetAllValidators readCtx (i64 height))
  end.
End providers.
End RpcProviders.

(** ** The menu *)
Module DebugMenu.
Import Pstore P2P RpcProviders.

Definition PromptResetToGenesis : string := "ResetToGenesis (broadcast)".
Definition PromptPrintNodeState : string := "PrintNodeState (broadcast)".
Definition PromptTriggerNextView : string := "TriggerNextView (broadcast)".
Definition PromptTogglePacemakerMode : string := "TogglePacemakerMode (broadcast)".
Definition PromptShowLatestBlockInStore : string := "ShowLatestBlockInStore (anycast)".
Definition PromptSendMetadataRequest : string := "MetadataRequest (broadcast)".
Definition PromptSendBlockRequest : string := "BlockRequest (broadcast)".

Definition items : list string :=
  [PromptPrintNodeState; PromptTriggerNextView; PromptTogglePacemakerMode; PromptResetToGenesis; PromptShowLatestBlockInStore;
   PromptSendMetadataRequest; PromptSendBlockRequest].

Definition DEBUG_CONSENSUS_RESET_TO_GENESIS : Z := 1.
Definition DEBUG_CONSENSUS_PRINT_NODE_STATE : Z := 2.
Definition DEBUG_CONSENSUS_TRIGGER_NEXT_VIEW : Z := 3.
Definition DEBUG_CONSENSUS_TOGGLE_PACE_MAKER_MODE : Z := 4.
Definition DEBUG_CONSENSUS_SEND_METADATA_REQ : Z := 5.
Definition DEBUG_CONSENSUS_SEND_BLOCK_REQ : Z := 6.
Definition DEBUG_MESSAGE_TYPE_ANYCAST : Z := 1.
Definition DEBUG_MESSAGE_TYPE_BROADCAST : Z := 3.

(** [messaging.DebugMessage]; the menu leaves its own message nil. *)
Record DebugMessage := { Action : Z; Type_ : Z }.

(** The client: the bus of the command's context, the P2P module, what was logged, and how many
    nonces were drawn. *)
Record Client := { clientBus : option Bus.bus; p2pMod : p2pModule; errorLog : list string; drawn : nat }.
Definition set_p2pMod x c := {| clientBus := clientBus c; p2pMod := x; errorLog := errorLog c; drawn := drawn c |}.
Definition logError e c := {| clientBus := clientBus c; p2pMod := p2pMod c; errorLog := errorLog c ++ [e]; drawn := drawn c |}.
Definition drawNonce c := {| clientBus := clientBus c; p2pMod := p2pMod c; errorLog := errorLog c; drawn := S (drawn c) |}.

Section menu.
Context `{GoMapOrder} `{GoConversion} `{RainTree.Providers} `{P2PCodec} `{CryptoPrims} `{NetPrims} `{Libp2pPrims} `{Background.PubSubPrims}.
Context `{PC : PeerClient} (sendFsmEvent : string -> option string) (rpcClientOk rpcHealthy : string -> bool)
  (rpcStakedPeerstore : string -> res P2PErr (option PeerAddrMap * option P2PErr)).
(** The encoding of a debug message, which has no text and always marshals, and the random source. *)
Context (marshalDebug : DebugMessage -> bytes) (nonceAt : nat -> Z).
Notation CM := (M Client string).

Definition debugAny (m : DebugMessage) : Any := {| TypeUrl := "type.googleapis.com/" +:+ NodeEvents.DebugMessageEventType; AnyValue := marshalDebug m |}.

(** A call of the P2P module. *)
Definition onP2P (m : M p2pModule P2PErr unit) : M Client P2PErr unit := fun c =>
  let '(r, p) := m (p2pMod c) in (r, set_p2pMod p c).

(** [helpers.P2PMod.Send], which draws a nonce; an error is logged. *)
Definition trySend (addr : bytes) (msg : Any) : CM unit := fun c =>
  let nonce := nonceAt (drawn c) in
  match onP2P (Send addr msg nonce) (drawNonce c) with
  | (Ok _, c') => (Ok tt, c')
  | (Err _, c') => (Ok tt, logError "Failed to send debug message" c')
  | (Panic, c') => (Panic, c')
  end.

(** The event is handed to the P2P module on the bus, which is the client's own. *)
Definition sendConsensusNewHeightEventToP2PModule (height : Z) (bus : Bus.bus) : M Client P2PErr unit :=
  match Bus.GetP2PModule bus with
  | Ok _ => onP2P (HandleEvent rpcClientOk rpcHealthy rpcStakedPeerstore sendFsmEvent (ConsensusNewHeightEvent height))
  | _ => panic
  end.

(** A provider of another type fails the type assertion. *)
Definition fetchPeerstore : CM PeerAddrMap :=
  c ← get;
  match clientBus c with
  | None => fail "retrieving bus from CLI context"
  | Some bus =>
      match Registry.GetModule (Bus.modulesRegistry bus) "peerstore_provider" with
      | Ok pstoreProvider =>
          match Registry.GetModule (Bus.modulesRegistry bus) "current_height_provider" with
          | Ok currentHeightProvider =>
              if negb (bool_decide ("CurrentHeightProvider" ∈ implements currentHeightProvider)) then panic else
              match rpcCurrentHeight with
              | Ok height =>
                  if negb (bool_decide ("PeerstoreProvider" ∈ implements pstoreProvider)) then panic else
                  match rpcGetStakedPeerstoreAtHeight height with
                  | Ok pstore =>
                      wrap_err (fun _ => "sending consensus new height event") (sendConsensusNewHeightEventToP2PModule height bus) ;;
                      mret pstore
                  | Err _ => fail ("retrieving peerstore at height " +:+ bigIntText height)
                  | Panic => panic
                  end
              | _ => panic
              end
          | _ => fail "retrieving currentHeightProvider"
          end
      | _ => fail "retrieving peerstore provider"
      end
  end.

(** [log.Fatal] on the errors of [fetchPeerstore]. *)
Definition fetchOrExit : CM PeerAddrMap := fun c =>
  match fetchPeerstore c with (Err _, c') => (Panic, c') | r => r end.

Definition broadcastDebugMessage (debugMsg : DebugMessage) : CM unit :=
  pstore ← fetchOrExit;
  forM (GetPeerList pstore) (fun val => trySend (peerAddress val) (debugAny debugMsg)).

Definition sendDebugMessage (debugMsg : DebugMessage) : CM unit :=
  pstore ← fetchOrExit;
  if (Size pstore =? 0)%nat then panic else
  match GetPeerList pstore with
  | [] => panic
  | first :: _ => trySend (peerAddress first) (debugAny debugMsg)
  end.

Definition handleSelect (selection : string) : CM unit :=
  if bool_decide (selection = PromptResetToGenesis) then
    broadcastDebugMessage {| Action := DEBUG_CONSENSUS_RESET_TO_GENESIS; Type_ := DEBUG_MESSAGE_TYPE_BROADCAST |}
  else if bool_decide (selection = PromptPrintNodeState) then
    broadcastDebugMessage {| Action := DEBUG_CONSENSUS_PRINT_NODE_STATE; Type_ := DEBUG_MESSAGE_TYPE_BROADCAST |}
  else if bool_decide (selection = PromptTriggerNextView) then
    broadcastDebugMessage {| Action := DEBUG_CONSENSUS_TRIGGER_NEXT_VIEW; Type_ := DEBUG_MESSAGE_TYPE_BROADCAST |}
  else if bool_decide (selection = PromptTogglePacemakerMode) then
    broadcastDebugMessage {| Action := DEBUG_CONSENSUS_TOGGLE_PACE_MAKER_MODE; Type_ := DEBUG_MESSAGE_TYPE_BROADCAST |}
  else if bool_decide (selection = PromptShowLatestBlockInStore) then
    sendDebugMessage {| Action := NodeEvents.DEBUG_SHOW_LATEST_BLOCK_IN_STORE; Type_ := DEBUG_MESSAGE_TYPE_ANYCAST |}
  else if bool_decide (selection = PromptSendMetadataRequest) then
    broadcastDebugMessage {| Action := DEBUG_CONSENSUS_SEND_METADATA_REQ; Type_ := DEBUG_MESSAGE_TYPE_BROADCAST |}
  else if bool_decide (selection = PromptSendBlockRequest) then
    broadcastDebugMessage {| Action := DEBUG_CONSENSUS_SEND_BLOCK_REQ; Type_ := DEBUG_MESSAGE_TYPE_BROADCAST |}
  else modify (logError "Selection not yet implemented...").

(** The outcomes of the prompt: a choice, an interrupt, which ends the process, or an error. *)
Inductive PromptResult := Chosen (item : string) | Interrupted | PromptFailed (e : string).

(** The loop on the prompts so far. *)
Fixpoint runDebug (prompts : list PromptResult) : CM unit :=
  match prompts with
  | [] => mret tt
  | Chosen item :: rest => handleSelect item ;; runDebug rest
  | Interrupted :: _ => panic
  | PromptFailed e :: _ => modify (logError "Prompt failed") ;; fail e
  end.

(** The subcommands: one per item, which is both its name and what it selects. *)
Definition NewDebugSubCommands : list (string * CM unit) := (fun item => (item, handleSelect item)) <$> items.
End menu.
End DebugMenu.

(** ** Facts *)
Module DebugFacts.
Import Pstore PeerstoreProvider RpcProviders DebugMenu RpcHandlers Rpc Node.

Section node.
Context {I : Type} `{TxQueries I} `{CryptoPrims} `{Codec} `{HotstuffCodec} `{RpcLib} `{GoConversion} `{GoMapOrder}.

(** The replies of a node: what is not JSON has no decoded body; a handler that aborts closes the
    connection. *)
Definition nodeReplies (s : rpcServer I) : PeerClient := {|
  addressBook height actorType :=
    match GetV1P2pStakedActorsAddressBook s height (Some actorType) with
    | JSON st (actors, _) => Ok (st, Some actors)
    | Text st _ | NoContent st => Ok (st, None)
    | NoReply => Ok (StatusOK, None)
    | Aborted => Err "EOF"
    end;
  consensusStateHeight :=
    match GetV1ConsensusState s with JSON st (height, _, _) => Ok (st, Some height) | _ => Err "EOF" end;
|}.

Lemma getChains_fields sc p a h : let b := getChainsForActor sc p a h in ActorType b = ActorType a /\ PublicKey b = PublicKey a /\ ServiceUrl b = ServiceUrl a.
Proof. unfold getChainsForActor, withChains. by repeat case_match. Qed.

Lemma validators_typed p h : Forall (fun a => ActorType a = ACTOR_TYPE_VAL) (GetAllValidators p h).
Proof.
  unfold GetAllValidators, GetAll. apply Forall_forall. intros a (b & -> & Hb)%list_elem_of_fmap.
  destruct (getChains_fields ValidatorActor p b (default h (snd <$> last ((fun r => getActorFromRow (actorType ValidatorActor) r.1 r.2) <$> SelectAllLatest (actorTable (db p) ValidatorActor) h)))) as [-> _].
  apply list_elem_of_fmap in Hb as ([x hx] & -> & Hx). apply list_elem_of_fmap in Hx as (r & Hr & _). by injection Hr as -> _.
Qed.

(** The peerstore of a list of actors depends on their keys and URLs only. *)
Lemma actorsLoop_ext l : forall l' m errs,
  Forall2 (fun a b => PublicKey a = PublicKey b /\ ServiceUrl a = ServiceUrl b) l l' -> actorsLoop l m errs = actorsLoop l' m errs.
Proof.
  induction l as [|a l IH]; intros l' m errs Hf; inversion Hf as [|? b ? l2 [Hk Hu] Hl]; subst; [done|].
  cbn [actorsLoop]. unfold ActorToPeer. rewrite Hk, Hu. repeat case_match; try done; by apply IH.
Qed.

Lemma rpc_actors l : Forall (fun a => ActorType a = ACTOR_TYPE_VAL) l ->
  exists l', mapRes toRPCActor l = Ok l' /\ Forall2 (fun a b => PublicKey a = PublicKey b /\ ServiceUrl a = ServiceUrl b) (coreActor <$> l') l.
Proof.
  induction 1 as [|a l Ha Hl (l' & He & Hf)]; [by exists []|].
  cbn [mapRes]. rewrite He. unfold toRPCActor, protocolActorToRPCActorTypeEnum. rewrite Ha. cbn. eexists. split; [done|]. by constructor.
Qed.

(** The peers that a client sees through a node are those that the node sees itself, whatever the
    height; and the height that it asks for is the node's own. *)
Theorem rpc_peers_are_ledger_peers (s : rpcServer I) (height : Z) (ps : PeerAddrMap) :
  rpcGetStakedPeerstoreAtHeight (PC := nodeReplies s) height = Ok ps <-> persistenceGetStakedPeerstoreAtHeight (modules s) height = Ok ps.
Proof.
  unfold rpcGetStakedPeerstoreAtHeight, persistenceGetStakedPeerstoreAtHeight. cbn [addressBook nodeReplies].
  unfold GetV1P2pStakedActorsAddressBook, withReadContext, orReply. cbn [from_option id getProtocolActorGetter].
  destruct (NewReadContext (i64 height) (modules s)) as [p|e|]; [| |]. 2,3: by split.
  destruct (rpc_actors _ (validators_typed p (i64 height))) as (l' & -> & Hf). cbn.
  unfold peerstoreOf, ActorsToPeerstore. by rewrite (actorsLoop_ext _ _ ∅ [] Hf).
Qed.

Theorem rpc_height_is_consensus_height (s : rpcServer I) : rpcCurrentHeight (PC := nodeReplies s) = Ok (u64 (consensusHeight s)).
Proof. unfold rpcCurrentHeight. cbn. f_equal. unfold u64, i64. rewrite Zminus_mod_idemp_l. f_equal. lia. Qed.
End node.

(** *** What the items do *)
Section items.
Context `{GoMapOrder} `{GoConversion} `{RainTree.Providers} `{P2PCodec} `{CryptoPrims} `{NetPrims} `{Libp2pPrims} `{Background.PubSubPrims}.
Context `{PC : PeerClient} (sendFsmEvent : string -> option string) (rpcClientOk rpcHealthy : string -> bool)
  (rpcStakedPeerstore : string -> res P2PErr (option PeerAddrMap * option P2PErr)).
Context (marshalDebug : DebugMessage -> bytes) (nonceAt : nat -> Z).
Abbreviation select := (handleSelect sendFsmEvent rpcClientOk rpcHealthy rpcStakedPeerstore marshalDebug nonceAt).
Abbreviation broadcast := (broadcastDebugMessage sendFsmEvent rpcClientOk rpcHealthy rpcStakedPeerstore marshalDebug nonceAt).
Abbreviation anycast := (sendDebugMessage sendFsmEvent rpcClientOk rpcHealthy rpcStakedPeerstore marshalDebug nonceAt).

(** Every item of the menu sends a message that the nodes act on: what is broadcast goes to the
    consensus module of each of them, what is sent to one of them goes to its persistence module.
    The receiver unpacks the action that the client packed. *)
Theorem every_item_is_handled {St : Type} `{NodeEvents.NodeOps St} (item : string) :
  item ∈ items ->
  exists m : DebugMessage,
    let received := {| NodeEvents.Action := Action m |} in
    (select item = broadcast m /\ Type_ m = DEBUG_MESSAGE_TYPE_BROADCAST /\
     forall envelope (st : St), NodeEvents.unpackDebugMessage envelope = Ok received ->
       NodeEvents.handleDebugMessage envelope st = NodeEvents.consensusHandleDebugMessage received st) \/
    (select item = anycast m /\ Type_ m = DEBUG_MESSAGE_TYPE_ANYCAST /\
     forall envelope (st : St), NodeEvents.unpackDebugMessage envelope = Ok received ->
       NodeEvents.handleDebugMessage envelope st = NodeEvents.persistenceHandleDebugMessage received st).
Proof.
  unfold items. rewrite !elem_of_cons, elem_of_nil. unfold NodeEvents.handleDebugMessage.
  intros [-> | [-> | [-> | [-> | [-> | [-> | [-> | []]]]]]]].
  5: { eexists. right. split; [reflexivity|]. split; [reflexivity|]. intros e st Hu. by rewrite Hu. }
  all: eexists; left; split; [reflexivity|]; split; [reflexivity|]; intros e st Hu; by rewrite Hu.
Qed.

(** *** How many messages are sent *)
Lemma trySend_drawn addr msg c u c' : trySend nonceAt addr msg c = (Ok u, c') -> drawn c' = S (drawn c).
Proof.
  unfold trySend, onP2P. destruct (P2P.Send addr msg (nonceAt (drawn c)) (p2pMod (drawNonce c))) as [[]]; [| |discriminate];
    intros Hs; by simplify_eq.
Qed.

Lemma forM_drawn (l : PeerList) msg : forall c u c',
  forM l (fun p => trySend nonceAt (peerAddress p) msg) c = (Ok u, c') -> drawn c' = (drawn c + length l)%nat.
Proof.
  induction l as [|p l IH]; intros c u c'; cbn [forM length].
  - intros Hr. injection Hr as _ <-. lia.
  - intros (a & c1 & Hr1 & Hr2)%bind_ok. rewrite (IH _ _ _ Hr2), (trySend_drawn _ _ _ _ _ Hr1). lia.
Qed.

Lemma fetch_maintains n : maintains (fun c => drawn c = n) anything (fetchPeerstore sendFsmEvent rpcClientOk rpcHealthy rpcStakedPeerstore).
Proof.
  unfold fetchPeerstore, sendConsensusNewHeightEventToP2PModule.
  apply (maintains_bind _ anything); [by intros c Hc|intros c _]. repeat case_match; solve_maintains; eauto with maintains.
  intros x Hx. unfold onP2P. match goal with |- context [P2P.HandleEvent ?a ?b ?c ?d ?e ?f] => destruct (P2P.HandleEvent a b c d e f) as [[] ?] end; by cbn.
Qed.

Lemma fetch_drawn c r c' : fetchPeerstore sendFsmEvent rpcClientOk rpcHealthy rpcStakedPeerstore c = (r, c') -> drawn c' = drawn c.
Proof. intros Hr. destruct (fetch_maintains (drawn c) c eq_refl) as [Hd _]. by rewrite Hr in Hd. Qed.

(** A broadcast that returns has been tried with every peer of the peerstore, whatever the sends
    to the others did. *)
Theorem broadcast_tries_every_peer (m : DebugMessage) c u c' :
  broadcast m c = (Ok u, c') ->
  exists pstore c1, fetchPeerstore sendFsmEvent rpcClientOk rpcHealthy rpcStakedPeerstore c = (Ok pstore, c1) /\
    drawn c' = (drawn c + size pstore)%nat.
Proof.
  intros (pstore & c1 & Hr1 & Hr2)%bind_ok. unfold fetchOrExit in Hr1. exists pstore, c1.
  destruct (fetchPeerstore _ _ _ _ c) as [[]] eqn:Hf; simplify_eq/=. split; [done|].
  rewrite (forM_drawn _ _ _ _ _ Hr2), (fetch_drawn _ _ _ Hf). unfold GetPeerList. by rewrite length_fmap, mapOrder_length.
Qed.
End items.
End DebugFacts.
